(* ===== verification/_CoqProject ===== *)
-Q . S2P
Prelude.v
StrMatch.v
Rfc821.v
Rfc821Grammar.v
Rfc821Complete.v
Rfc821Props.v
SpoolId.v
Base64.v
Splay.v
SplayTree.v
SplayRefine.v
SplaySplit.v
SplayDelete.v
SplayMap.v
SplayWalk.v
SplayProps.v
Symbol.v
SymbolTable.v
SymbolProps.v
Rfc822Scan.v
Rfc822Token.v
Rfc822Lines.v
Rfc822Props.v
Policy.v
PolicyKeys.v
PolicyFrame.v
PolicyRelay.v
PolicyProps.v
SmtpState.v
SmtpCmds.v
SmtpLine.v
SmtpData.v
SmtpAuth.v
SmtpDot.v
SmtpSpec.v
SmtpDataSpec.v
SmtpMail.v
SmtpRcpt.v
SmtpServer.v
SmtpWalk.v
SmtpSession.v
SmtpDemo.v
SmtpText.v
SmtpInput.v
SmtpOptions.v
SmtpReplies.v
SmtpProps.v
SmtpDataProps.v
SmtpAuthProps.v
SmtpPolicy.v
TaFile.v
TaLock.v
TaDiag.v
TaCtl.v
TaOpen.v
TaFail.v
TaProps.v
TaText.v
ScState.v
ScMx.v
ScCname.v
ScReply.v
ScConnect.v
ScBody.v
ScBodySpec.v
ScMime.v
ScQp.v
ScCommand.v
ScDeliver.v
ScDemo.v
ScMxProps.v
ScInv.v
ScInvReply.v
ScInvBody.v
ScInvConn.v
ScInvDeliver.v
ScInvTrans.v
ScText.v
ScProps.v
