(* ===== verification/Prelude.v ===== *)
(** * Verification of ZMailer

    ** The program

    ZMailer is a mail transfer agent of several cooperating programs: the
    SMTP server (smtpserver/) takes messages from the network into the spool
    directory, the router (router/, with the script interpreter of libsh/)
    decides where they go, the scheduler (scheduler/) queues them, and the
    transport agents (transports/) deliver them.  The libraries lib/, libc/
    and sfio/ serve all of them.  The core that faces arbitrary input is the
    SMTP server; this development is about it, about parts of lib/ that all
    programs use, about the control files through which the router, the
    scheduler and the transport agents work together, and about the transport
    agent that delivers over the network, the SMTP client.

    A session of the server is a loop of smtpserver() in smtpserver.c: a
    line is read with s_gets(), checked, looked up in a command table, and
    given to a handler of smtpcmds.c, smtpdata.c or smtpauth.c.  The
    handlers parse addresses with the scanners of rfc821scn.c, ask the
    policy database (policytest.c) and the interactive router
    (subdaemon-rtr.c) about them, write the envelope and the message into a
    spool file, and answer with type() and type821err().

    The router writes a control file for each message, with a line for each
    recipient.  A transport agent opens it with ctlopen(), which locks the
    recipients the agent is to deliver to by writing the process id into
    their lines (lockaddr()); diagnostic() tells the scheduler what became of
    a recipient and gives its lock back, and ctlclose() those that are left
    (transports/libta/).

    The SMTP client (transports/smtp/) takes the recipients of an open control
    file in process(), which calls deliver() for a group with one sender and
    one set of headers.  deliver() opens a connection with smtpopen(), to the
    hosts that getmxrr() finds, and runs transactions on it: commands go out
    with smtpwrite(), their replies are read, possibly much later, by
    smtp_sync(), which reports refused recipients; headers and body go out
    with swriteheaders() and appendlet().  Whoever is left in the end is
    reported by process().

    ** The files

    - Prelude: byte literals, pointers into a buffer, a state monad and a
      state monad with early return (EX) with their weakest preconditions,
      the text routines of the C library, and the shared tactics.
    - StrMatch: strmatch() of lib/strmatch.c, used by findcf(), against a
      specification of glob patterns; the comparisons of lib/stringlib.c.
    - Rfc821: the character table and all scanners of rfc821scn.c, and
      orcpt_string() and partridge() of smtpcmds.c.  A scanner runs in the
      state monad over the globals rfc821_error and rfc821_error_ptr.
      Rfc821Grammar has the grammar the scanners implement and their
      soundness, Rfc821Complete the other direction, Rfc821Props the
      theorems.
    - SpoolId: taspoolid() of lib/taspoolid.c.
    - Base64: encodebase64string() and decodebase64string() of smtpdata.c.
    - Splay: the splay trees of lib/splay.c on cells that point to each
      other.  SplayTree has trees, paths and what it means that cells
      represent them; SplayRefine, SplaySplit and SplayDelete show that
      _splay(), _sp_enq() and sp_delete() compute functions on trees;
      SplayMap has the invariant with the pool of free cells and the finite
      map a tree stands for; SplayWalk the traversal and sp_null();
      SplayProps the theorems.
    - Symbol: lib/symbol.c over an interface to the trees, and the hash
      functions of lib/crc32.c and lib/pjwhash32.c; SymbolTable has the
      invariant of the table and the effect of the operations, SymbolProps
      the theorems.
    - Rfc822Scan: lib/rfc822scan.c (character classes, scan822(),
      scan822utext(), hdr_status(), rfc822_mustquote()); Rfc822Token: the
      printers of lib/token.c.  Rfc822Lines has what a round of the scanner
      does and the unfolding of lines, Rfc822Props the theorems.
    - Policy: the tests of smtpserver/policytest.c, on a database that is a
      function of the class PolicyEnv, and the DNS tests of mxverify.c.
      PolicyKeys has the searches for domains and networks, PolicyFrame what
      a test may change, PolicyRelay when RCPT is permitted, PolicyProps the
      theorems.
    - SmtpState: the session record SmtpState of smtpserver.h, the
      configuration (class Config) and the outside world (class Env), the
      command monad cmd, the replies, and the router client.
    - SmtpCmds: the handlers of smtpcmds.c: smtp_helo, smtp_mail, smtp_rcpt,
      smtp_verify, smtp_expand, each cut into pieces in the order of the C
      function; the pieces are named after their handler.
    - SmtpLine: s_gets().  SmtpData: DATA and BDAT of smtpdata.c with the
      table-driven machine of mvdata().  SmtpAuth: AUTH LOGIN of smtpauth.c
      and pipezpwmatch() of zpwmatch-pipe.c.
    - SmtpDot: the machine of mvdata() against lines; SmtpSpec, SmtpDataSpec,
      SmtpMail, SmtpRcpt: the specifications of the pieces, and of smtp_data,
      smtp_mail and smtp_rcpt as a whole.
    - SmtpServer: the command table, the body of the session loop
      (serve_line) and the loop (session_loop, smtpserver).
    - SmtpWalk: relations between the states before and after any command.
      SmtpSession: the session invariant and its preservation.
    - SmtpDemo: a concrete configuration, environment and sessions.
    - SmtpText, SmtpInput, SmtpOptions, SmtpReplies, SmtpProps,
      SmtpDataProps, SmtpAuthProps: theorems on texts, input lines, command
      parameters, replies, transactions, message data and authentication.
    - SmtpPolicy: the handlers of the server with policytest.c as the policy
      database they ask.
    - TaFile: markoff.c, lockaddr.c and lib/skip821address.c, and the writer
      of a field in prctladdr() of router/rfc822.c; TaDiag: diagnostic.c;
      TaCtl: ctlopen.c.  TaLock has what lockaddr() changes, and agents that
      share a file as a step relation; TaOpen the locks between ctlopen() and
      ctlclose(), TaFail the marks of failed recipients; TaProps and TaText
      the theorems.
    - ScState: the record SmtpState of the client (smtp.h), its monad, the
      stream, and the reports through TaDiag.  ScMx: getmxrr.c, with ranny()
      and matchmyaddress() of lib/; ScCname: the cache of CNAMEs of smtp.c with
      its chain invariant.  ScReply: the replies (smtp_sync(), smtpwrite()
      and what they call); ScConnect: makeconn(), smtpconn() and smtpauth.c.
      ScBody: appendlet.c, swriteheaders.c and BDAT.  ScCommand: the texts of
      MAIL and RCPT.  ScDeliver: smtpopen(), deliver() cut at its labels and
      phases, and process().
    - ScBodySpec, ScMime and ScQp: what the writers of a body send, without a
      conversion, with one, and in quoted-printable.  ScInv has the invariant
      of a delivery, ScInvReply, ScInvBody, ScInvConn, ScInvDeliver and
      ScInvTrans its preservation by the replies, the body, the connection,
      the phases and the rounds of deliver().  ScDemo has a scripted server
      and a message; ScMxProps, ScText and ScProps have the theorems.

    ** How the code is modelled

    Characters are integers, strings are lists of them.  A char pointer is
    its address with the bytes from there to the end of the buffer (ptr); a
    read behind the buffer gives NUL.  A command of type cmd A takes the
    session state and gives a value of A or a reason to stop (a return from
    the handler, or Segv for the use of a null or wild pointer), and the new
    state.  The spool file is the list of bytes written since it was opened
    or rewound.  The field trace records what was sent and done: reply
    lines with their code (a code of at most 0 is a continuation line),
    questions to the policy database and the router, password checks,
    counters.  What the outside world answers is a function of the class Env
    that takes the trace, so that it may differ from call to call.  A reply
    is modelled with its exact bytes, which include client input.

    The SMTP client is a monad of the same kind (SC): its state has the trace
    of what was written, read, connected and reported, newest first, and the
    server, the name server, the sockets and the files answer as functions of
    the trace, so that every behaviour of them is covered.  A recipient is
    known by its place in the control file; the lists of recipients that
    deliver() cuts and joins are lists of these.

    Where structures point to each other (splay trees, chains of symbols)
    the model has a store of cells with addresses, every operation reads and
    writes single fields, and following a null or wild pointer ends the run.

    Integers are unbounded; where the code computes with input (SIZE=, BY=,
    numbers of addresses) theorems bound the values.  The hash functions
    keep their machine width.  LONG_MAX is that of a 64 bit machine.

    Loops over a buffer recurse on its bytes where they advance by one.  The
    others take fuel, and the fuel given is enough: the length of the text
    for the scanners and for the parameter loops (parameter_loops_end), the
    length of the input and one for the session loop (session_loop_ends),
    the pattern length for strmatch, one nesting level for address literals
    (dotnum_depth), the number of cells for the loops of a splay tree and of
    a chain (running out of fuel would be a failure of
    splay_tree_is_a_map and symbols_identify_names), the characters of the
    line and of its continuation lines for the RFC 822 scanner
    (scan822_ends), 31 doublings of an int for the buffer of printdToken()
    (extend_spec), and 600 rounds for the suffixes of a domain, which
    check_domain() keeps in 255 bytes (most_specific_domain).  The rounds of
    deliver() are bounded by the number of its recipients
    (deliver_rounds_suffice), the walks of the CNAME cache by its cells
    (cname_cache_is_a_map), the depth of CNAMEs by the limit of the code.  A
    server can keep the client reading for ever; the loops that read replies
    and files take fuel that every theorem quantifies over, and a run that
    has none left stops (delivered_means_accepted holds of it as well; the
    theorems on bodies state how much is enough).

    ** Interfaces

    SaneRouter states what the handlers assume of the router: its connection
    can be made, the pipe takes the question, and each answer line starts
    with a reply code.  Handlers are the operations the session loop calls
    and whose code is not modelled (ETRN, HELP, the reports); LawfulHandlers
    states that they keep the session invariant, ReadingHandlers that they
    give no input back, QuietHandlers that they check no passwords and hand
    nothing over.  KeyTree and KeyTreeLaws are what symbol.c needs of a tree
    over keys; the splay trees are an instance.  PolicyEnv has the database
    files, the name server and the rate tracker as functions; with_policy
    makes policytest() the policy answers of an Env.  Each class has an
    instance in the development.  TaEnv is what surrounds a transport agent:
    environment variables, process id, clock, disk and message files.  ScEnv
    adds the stream to the server and the options of the client, DnsEnv the
    resolver and the addresses of this host, ConnEnv the sockets and the
    secrets, DeliverEnv the rest of the options and the MIME headers, whose
    analysis (transports/libta/mime.c and others) is not modelled; each
    builds on the one before.  NameCoding states what the MX theorem needs of
    dn_expand() and dn_skipname().  ScDemo has instances of all of them.

    ** What is proved

    - Message data (SmtpDataProps): mvdata() implements a line-based
      specification of dot unstuffing, a message arrives unchanged, BDAT
      writes what DATA writes, DATA comes back from every state of the
      invariant and hands over exactly what the client sent; the sequences
      that crash the server, and bare LFs around a dot.
    - Transactions (SmtpProps): MAIL and RCPT return from any input, reply
      exactly once, and change spool file, state and counters as their
      result says.  In every configuration that refuses no greeting, no
      sequence of input lines makes the server use a null pointer, as long
      as the client keeps DATA and BDAT in their place.
    - Authentication (SmtpAuthProps): AUTH LOGIN checks the password the
      client sent; a submission server hands messages over only behind a
      successful check; failures of the password program.
    - Replies and access (SmtpReplies): HELO replies once and closes the
      transaction; RSET; a refused HELO breaks the invariant, and a session
      in which RCPT then crashes; router failures with no reply and with two.
    - Input (SmtpInput): what s_gets() delivers, the exact condition under
      which it stays in its buffer, what happens to over-long lines and
      trailing blanks, and that the session ends with its input.
    - Parameters and texts (SmtpOptions, SmtpText): SIZE= and BY=, the
      announced size, the form of reply lines, xtext encoding and quoting.
    - Addresses (Rfc821Props): rfc821_path accepts only paths of the grammar
      and all ordinary mailboxes; errors are reported, with two exceptions;
      the exact language of IPv6 literals.
    - Policy (PolicyProps): the searches ask for the most specific domain and
      the smallest network first; a client's commands cannot make it trusted;
      a rejected client stays rejected; a recipient of an untrusted client is
      accepted only for one of the named reasons; the buffer a long domain
      overruns.  SmtpPolicy: with this database behind the server, RCPT puts
      a recipient of an untrusted client into the spool file only when the
      database had one of these reasons.
    - RFC 822 (Rfc822Props): the scanner ends, its tokens have the form of
      their types, print as the line they come from, and run over folded
      lines; the table of character classes is restored; folding keeps the
      text; the printers that overrun their buffers.
    - Control files (TaProps, TaText): ctlopen() takes exactly the locks it
      says, or marks as failed exactly the recipients without a message;
      closing restores the file; locks exclude each other when calls do not
      overlap, and two agents can both get one when they do; with
      TA_USE_MMAP the locks are misplaced; what the router writes into a line
      is what the agents read; the buffers that diagnostic.c overruns.
    - Deliveries (ScProps): a recipient that is reported as delivered was
      accepted by the server, and the message behind it, whatever the server
      and the network do, when pipelining is off; with pipelining there is a
      dialogue in which this fails.  Every recipient is reported exactly
      once.  The loop of deliver() ends.
    - Messages on the wire (ScText): what the client sends, the server of
      this program stores, whatever the lines are; quoted-printable bodies are
      within the limits of MIME and convert back; a soft line break that
      smuggles commands; the command buffer, and the recipient that overruns
      it.
    - Hosts (ScMxProps): the MX hosts are tried in the order of their
      preferences and never beyond this host; the CNAME cache is a map; the
      option that breaks the order, and two checks that never hold.
    - Splay trees (SplayProps): any sequence of operations behaves as on a
      finite map and nodes keep their addresses; a scan visits all nodes in
      the order of their keys; emptying gives all nodes back.
    - Symbols (SymbolProps): keys are equal just when names are; freeing
      forgets one name; emptying frees all entries and no others; the range
      of crc32n(), and pjwhash32n() on machines of different width.
    - Base64, SpoolId: the round trip, and the size of an identifier.
    - StrMatch: strmatch decides glob matching; CISTREQN is a prefix test.

    ** What is not modelled

    Code under OpenSSL, SASL, Whoson and embedded Perl; local logging; the
    duration of the tarpit delay; the contents of the line buffer from
    earlier lines; the socket layer below s_getc() and Z_write(), and below
    smtp_sfwrite() and smtp_nbread() in the client; the code
    behind Env and PolicyEnv (content filter, mail_open, getaddrinfo, the
    file system, the database files and their compiler, the name server);
    in the client the loop that reads jobs from the scheduler, its options,
    signals, and the analysis and conversion of MIME headers;
    the other programs; failing allocation.

    ** Plan

    Next: the scheduler's reader of control files and of the agents' reports
    (scheduler.c, update.c) against TaFile and TaDiag, the rate tracker of
    subdaemon-trk.c as another client of the splay trees, the header
    conversions of the transport agents, and the address parser of the
    router on the tokens of Rfc822Scan. *)

From Stdlib Require Import ZArith Lia.
From Stdlib Require Ascii String.
From stdpp Require Import base tactics numbers list option.

Export Ascii.AsciiSyntax String.StringSyntax.
Delimit Scope char_scope with char.
Delimit Scope string_scope with string.

#[local] Open Scope Z_scope.

(** ** Byte literals

    C characters are modelled as integers.  [$ "x"] is the code of the
    character [x], reduced to a numeral when it is parsed. *)

Declare Scope zm_scope.
Delimit Scope zm_scope with zm.
#[global] Open Scope zm_scope.

Definition byte_of_ascii (a : Ascii.ascii) : Z := Z.of_N (Ascii.N_of_ascii a).

Notation "'$' x" :=
  (ltac:(let v := eval vm_compute in (byte_of_ascii x%char) in exact v))
  (at level 1, x at level 0, only parsing) : zm_scope.

Fixpoint bytes_of_string (s : String.string) : list Z :=
  match s with
  | String.EmptyString => []
  | String.String a s' => byte_of_ascii a :: bytes_of_string s'
  end.

Notation "'$$' x" :=
  (ltac:(let v := eval vm_compute in (bytes_of_string x%string) in exact v))
  (at level 1, x at level 0, only parsing) : zm_scope.

(** ** Pointers into a character buffer

    A [char *] that walks a buffer is its address together with the bytes
    from that address to the end of the buffer.  The bytes may contain
    NULs: a C string ends at the first NUL (or at the end of the buffer,
    which reads as NUL), and the bytes behind it stay readable. *)

Record ptr := Ptr { addr : Z; mem : list Z }.

(** [*p] *)
Definition deref (p : ptr) : Z := hd 0 (mem p).
(** [p[n]], that is [*(p + n)] *)
Definition peek (p : ptr) (n : nat) : Z := nth n (mem p) 0.
(** [p + n] *)
Definition padd (p : ptr) (n : nat) : ptr :=
  Ptr (addr p + Z.of_nat n) (drop n (mem p)).
(** [++p] *)
Definition pinc (p : ptr) : ptr := padd p 1.
(** [p == q], for pointers into one buffer *)
Definition peq (p q : ptr) : bool := addr p =? addr q.
(** [p > q] *)
Definition pgt (p q : ptr) : bool := addr q <? addr p.
(** [p - q] *)
Definition psub (p q : ptr) : Z := addr p - addr q.

Notation "p '[+]' n" := (padd p n) (at level 50, left associativity) : zm_scope.

(** The number of leading bytes satisfying [f]: the iteration count of
    [while (f( *p)) ++p] for an [f] that rejects NUL. *)
Fixpoint span (f : Z -> bool) (l : list Z) : nat :=
  match l with
  | [] => 0
  | c :: l' => if f c then S (span f l') else 0
  end.

Definition skip_while (f : Z -> bool) (p : ptr) : ptr := p [+] span f (mem p).

Definition not_nul (c : Z) : bool := negb (c =? 0).
Definition strlen (l : list Z) : nat := span not_nul l.
(** The characters of the C string at the head of a buffer. *)
Definition cstr (l : list Z) : list Z := take (strlen l) l.

(** [isascii(c) && isdigit(c)] and friends, on character codes. *)
Definition isdigit (c : Z) : bool := ($"0" <=? c) && (c <=? $"9").
Definition isupper (c : Z) : bool := ($"A" <=? c) && (c <=? $"Z").
Definition islower (c : Z) : bool := ($"a" <=? c) && (c <=? $"z").
Definition isspace (c : Z) : bool := ((9 <=? c) && (c <=? 13)) || (c =? 32).
Definition tolower (c : Z) : Z := if isupper c then c + 32 else c.
Definition is_blank (c : Z) : bool := (c =? $" ") || (c =? 9).

(** ** A state monad and its weakest preconditions *)

Definition ST (S A : Type) : Type := S -> A * S.

#[export] Instance st_ret S : MRet (ST S) := fun A a s => (a, s).
#[export] Instance st_bind S : MBind (ST S) :=
  fun A B k m s => let '(a, s') := m s in k a s'.

Section state_monad.
Context {S : Type}.

Definition get : ST S S := fun s => (s, s).
Definition put (s : S) : ST S unit := fun _ => (tt, s).
Definition modify (f : S -> S) : ST S unit := fun s => (tt, f s).

(** [wp m Q s]: running [m] from [s] ends with a result and a state that
    satisfy [Q].  Every run terminates, so this is total correctness. *)
Definition wp {A} (m : ST S A) (Q : A -> S -> Prop) (s : S) : Prop :=
  Q (m s).1 (m s).2.

Lemma wp_ret {A} (a : A) (Q : A -> S -> Prop) s : Q a s -> wp (mret a) Q s.
Proof. done. Qed.

Lemma wp_bind {A B} (m : ST S A) (k : A -> ST S B) (Q : B -> S -> Prop) s :
  wp m (fun a s' => wp (k a) Q s') s -> wp (m ≫= k) Q s.
Proof. unfold wp, mbind, st_bind. by destruct (m s). Qed.

Lemma wp_get (Q : S -> S -> Prop) s : Q s s -> wp get Q s.
Proof. done. Qed.

Lemma wp_put s' (Q : unit -> S -> Prop) s : Q tt s' -> wp (put s') Q s.
Proof. done. Qed.

Lemma wp_modify f (Q : unit -> S -> Prop) s : Q tt (f s) -> wp (modify f) Q s.
Proof. done. Qed.

Lemma wp_mono {A} (m : ST S A) (Q R : A -> S -> Prop) s :
  wp m Q s -> (forall a s', Q a s' -> R a s') -> wp m R s.
Proof. unfold wp. naive_solver. Qed.

Lemma wp_if {A} (b : bool) (m1 m2 : ST S A) (Q : A -> S -> Prop) s :
  (b = true -> wp m1 Q s) -> (b = false -> wp m2 Q s) ->
  wp (if b then m1 else m2) Q s.
Proof. destruct b; auto. Qed.

Lemma wp_and {A} (m : ST S A) (Q R : A -> S -> Prop) s :
  wp m Q s -> wp m R s -> wp m (fun a s' => Q a s' /\ R a s') s.
Proof. done. Qed.
End state_monad.

(** Run the symbolic execution of a monadic program as far as its own
    syntax goes; a call stops it, for the callee's specification. *)
Ltac wp_step :=
  lazymatch goal with
  | |- wp (mret _) _ _ => apply wp_ret
  | |- wp (mbind _ _) _ _ => apply wp_bind
  | |- wp get _ _ => apply wp_get
  | |- wp (put _) _ _ => apply wp_put
  | |- wp (modify _) _ _ => apply wp_modify
  | |- wp (if ?b then _ else _) _ _ =>
      lazymatch type of b with bool => apply wp_if; intros ? end
  end.
Ltac wp_steps := repeat wp_step.
(** Use a callee's specification and continue with its postcondition. *)
Tactic Notation "wp_call" uconstr(H) :=
  eapply wp_mono; [apply H | cbv beta].

(** ** Booleans and comparisons *)

(** Facts about commands, for walking through a handler by its syntax. *)
Create HintDb zm discriminated.

Ltac zbool :=
  repeat match goal with
  | H : _ && _ = true |- _ => apply andb_prop in H as [? ?]
  | H : _ || _ = false |- _ => apply orb_false_elim in H as [? ?]
  | H : _ && _ = false |- _ => apply andb_false_iff in H
  | H : _ || _ = true |- _ => apply orb_true_iff in H
  | H : negb _ = true |- _ => apply negb_true_iff in H
  | H : negb _ = false |- _ => apply negb_false_iff in H
  | H : (_ =? _) = true |- _ => apply Z.eqb_eq in H
  | H : (_ =? _) = false |- _ => apply Z.eqb_neq in H
  | H : (_ <? _) = true |- _ => apply Z.ltb_lt in H
  | H : (_ <? _) = false |- _ => apply Z.ltb_ge in H
  | H : (_ <=? _) = true |- _ => apply Z.leb_le in H
  | H : (_ <=? _) = false |- _ => apply Z.leb_gt in H
  | H : (_ >? _) = true |- _ => rewrite Z.gtb_ltb in H; apply Z.ltb_lt in H
  | H : (_ >? _) = false |- _ => rewrite Z.gtb_ltb in H; apply Z.ltb_ge in H
  end.

(** Decide a boolean property of all bytes by evaluating it on each. *)
Definition all_bytes : list Z := Z.of_nat <$> seq 0 256.

Lemma byte_cases (P : Z -> bool) :
  forallb P all_bytes = true -> forall c, 0 <= c < 256 -> P c = true.
Proof.
  intros H c Hc. eapply forallb_forall in H; [exact H|].
  apply list_elem_of_In. apply list_elem_of_fmap. exists (Z.to_nat c).
  split; [lia|]. apply elem_of_seq. lia.
Qed.

(** ** Lemmas on spans and pointers *)

Lemma ptr_ext p q : addr p = addr q -> mem p = mem q -> p = q.
Proof. destruct p, q. cbn. congruence. Qed.

Lemma padd_0 p : p [+] 0 = p.
Proof. apply ptr_ext; cbn; lia || done. Qed.

Lemma padd_padd p n k : p [+] n [+] k = p [+] (n + k).
Proof.
  apply ptr_ext; cbn; [lia|]. rewrite drop_drop. done.
Qed.

Lemma peq_padd p n : peq (p [+] n) p = bool_decide (n = 0%nat).
Proof.
  unfold peq. cbn. case_bool_decide; [subst|];
    [apply Z.eqb_eq | apply Z.eqb_neq]; lia.
Qed.

Lemma peq_refl p : peq p p = true.
Proof. apply Z.eqb_refl. Qed.

Lemma span_app f l : exists w r, l = w ++ r /\ span f l = length w /\
  forallb f w = true /\ (r = [] \/ exists c r', r = c :: r' /\ f c = false).
Proof.
  induction l as [|c l (w & r & -> & Hs & Hw & Hr)]; cbn.
  - exists [], []. naive_solver.
  - destruct (f c) eqn:E.
    + exists (c :: w), r. cbn. rewrite E. naive_solver.
    + exists [], (c :: w ++ r). naive_solver.
Qed.

Lemma span_max f w r :
  forallb f w = true -> (r = [] \/ exists c r', r = c :: r' /\ f c = false) ->
  span f (w ++ r) = length w.
Proof.
  intros Hw Hr. induction w as [|c w IH]; cbn in *.
  - destruct Hr as [-> | (c & r' & -> & Hc)]; cbn; [done | by rewrite Hc].
  - apply andb_prop in Hw as [-> Hw]. f_equal. auto.
Qed.

Lemma span_le f l : (span f l <= length l)%nat.
Proof. destruct (span_app f l) as (w & r & -> & -> & _). rewrite length_app. lia. Qed.

Lemma cstr_app w r : forallb not_nul w = true -> cstr (w ++ 0 :: r) = w.
Proof.
  intros Hw. unfold cstr, strlen. rewrite span_max; [|done|eauto].
  apply take_app_length.
Qed.

Lemma cstr_not_nul l : forallb not_nul (cstr l) = true.
Proof.
  unfold cstr, strlen. destruct (span_app not_nul l) as (w & r & -> & -> & Hw & _).
  by rewrite take_app_length.
Qed.

Lemma cstr_cons c l : c <> 0 -> cstr (c :: l) = c :: cstr l.
Proof. intros Hc. unfold cstr, strlen. cbn. unfold not_nul at 1. by apply Z.eqb_neq in Hc as ->. Qed.

(** ** A state monad with early return

    [EX S R A]: a piece of a C function body.  It ends by itself with a
    value of [A], or leaves the function with a value of [R]. *)

Definition EX (S R A : Type) : Type := S -> (R + A) * S.

#[export] Instance ex_ret S R : MRet (EX S R) := fun A a s => (inr a, s).
#[export] Instance ex_bind S R : MBind (EX S R) :=
  fun A B k m s => match m s with
                   | (inl r, s') => (inl r, s')
                   | (inr a, s') => k a s'
                   end.

Section early_return.
Context {S R : Type}.

Definition exit {A} (r : R) : EX S R A := fun s => (inl r, s).
Definition read {A} (f : S -> A) : EX S R A := fun s => (inr (f s), s).
Definition update (f : S -> S) : EX S R unit := fun s => (inr tt, f s).

(** [wpx m E Q s]: running [m] from [s] ends normally with [Q], or leaves
    early with [E]. *)
Definition wpx {A} (m : EX S R A) (E : R -> S -> Prop) (Q : A -> S -> Prop) (s : S) : Prop :=
  match m s with
  | (inl r, s') => E r s'
  | (inr a, s') => Q a s'
  end.

Implicit Types (E : R -> S -> Prop) (s : S).

Lemma wpx_ret {A} (a : A) E (Q : A -> S -> Prop) s : Q a s -> wpx (mret a) E Q s.
Proof. done. Qed.

Lemma wpx_bind {A B} (m : EX S R A) (k : A -> EX S R B) E (Q : B -> S -> Prop) s :
  wpx m E (fun a s' => wpx (k a) E Q s') s -> wpx (m ≫= k) E Q s.
Proof. unfold wpx, mbind, ex_bind. destruct (m s) as [[]]; done. Qed.

Lemma wpx_exit {A} r E (Q : A -> S -> Prop) s : E r s -> wpx (exit r) E Q s.
Proof. done. Qed.

Lemma wpx_read {A} (f : S -> A) E (Q : A -> S -> Prop) s : Q (f s) s -> wpx (read f) E Q s.
Proof. done. Qed.

Lemma wpx_update f E (Q : unit -> S -> Prop) s : Q tt (f s) -> wpx (update f) E Q s.
Proof. done. Qed.

Lemma wpx_if {A} (b : bool) (m1 m2 : EX S R A) E (Q : A -> S -> Prop) s :
  (b = true -> wpx m1 E Q s) -> (b = false -> wpx m2 E Q s) ->
  wpx (if b then m1 else m2) E Q s.
Proof. destruct b; auto. Qed.

Lemma wpx_mono {A} (m : EX S R A) E E' (Q Q' : A -> S -> Prop) s :
  wpx m E Q s -> (forall r s', E r s' -> E' r s') -> (forall a s', Q a s' -> Q' a s') ->
  wpx m E' Q' s.
Proof. unfold wpx. destruct (m s) as [[]]; naive_solver. Qed.

(** A run that does not leave the function. *)
Lemma wpx_result {A} (m : EX S R A) (Q : A -> S -> Prop) s :
  wpx m (fun _ _ => False) Q s -> exists a s', m s = (inr a, s') /\ Q a s'.
Proof. unfold wpx. destruct (m s) as [[] s']; [done|]. eauto. Qed.

Lemma wpx_any {A} (m : EX S R A) s : wpx m (fun _ _ => True) (fun _ _ => True) s.
Proof. unfold wpx. by destruct (m s) as [[]]. Qed.

Lemma any_bind {A B} (m : EX S R A) (k : A -> EX S R B) (Q : B -> S -> Prop) s :
  (forall a s', wpx (k a) (fun _ _ => True) Q s') -> wpx (m ≫= k) (fun _ _ => True) Q s.
Proof. intros Hk. apply wpx_bind. eapply wpx_mono; [apply wpx_any | done|]. cbv beta. intros a s' _. apply Hk. Qed.

Lemma wpx_and {A} (m : EX S R A) E E' (Q Q' : A -> S -> Prop) s :
  wpx m E Q s -> wpx m E' Q' s ->
  wpx m (fun r s' => E r s' /\ E' r s') (fun a s' => Q a s' /\ Q' a s') s.
Proof. unfold wpx. destruct (m s) as [[]]; done. Qed.
End early_return.

Ltac wpx_step :=
  lazymatch goal with
  | |- wpx (mret _) _ _ _ => apply wpx_ret
  | |- wpx (mbind _ _) _ _ _ => apply wpx_bind
  | |- wpx (exit _) _ _ _ => apply wpx_exit
  | |- wpx (read _) _ _ _ => apply wpx_read
  | |- wpx (update _) _ _ _ => apply wpx_update
  | |- wpx (if ?b then _ else _) _ _ _ =>
      lazymatch type of b with bool => apply wpx_if; intros ? end
  end.
Ltac wpx_steps := repeat wpx_step.

(** ** C library text routines *)

(** [%d]: the decimal digits of [n], in front of [acc]; 64 digits are more
    than any C integer has. *)
Fixpoint digits (fuel : nat) (n : Z) (acc : list Z) : list Z :=
  match fuel with
  | O => acc
  | Datatypes.S fuel' =>
      let acc := ($"0" + n mod 10) :: acc in
      if n <? 10 then acc else digits fuel' (n / 10) acc
  end.
Definition dec (n : Z) : list Z :=
  if n <? 0 then $"-" :: digits 64 (- n) [] else digits 64 n [].
(** [%03d] of a number that is not negative *)
Definition dec03 (n : Z) : list Z :=
  let d := dec n in replicate (3 - length d) $"0" ++ d.

(** [%.ns] *)
Definition prec (n : nat) (l : list Z) : list Z := take n l.

(** [atoi]; the values stay far below the width of an [int]. *)
Definition atoi (l : list Z) : Z :=
  let l := drop (span isspace l) l in
  let '(neg, l) := match l with
                   | c :: l' => if c =? $"-" then (true, l')
                                else if c =? $"+" then (false, l') else (false, l)
                   | [] => (false, [])
                   end in
  let v := fold_left (fun v c => v * 10 + (c - $"0")) (take (span isdigit l) l) 0 in
  if neg then - v else v.

(** [CISTREQN(s, w, strlen(w))]: the cistrncmp() of lib/stringlib.c
    compares [n] characters without case; the product it returns behind
    them is 0 for a literal [w]. *)
Fixpoint CISTREQN (l w : list Z) {struct w} : bool :=
  match w, l with
  | [], _ => true
  | c :: w', d :: l' => (tolower c =? tolower d) && CISTREQN l' w'
  | _ :: _, [] => false
  end.

(** [CISTREQ(a, b)] on C strings: cistrcmp() of lib/stringlib.c. *)
Definition CISTREQ (a b : list Z) : bool :=
  (length a =? length b)%nat && CISTREQN a b.

(** [strchr(l, c) != NULL] *)
Definition has_char (l : list Z) (c : Z) : bool := existsb (Z.eqb c) l.
