(* ===== verification/StrMatch.v ===== *)
(** * String routines of the library (lib/strmatch.c, lib/stringlib.c)

    Shell-style globbing and the case-independent comparisons that the
    rest of the program is built on, each with the meaning its callers
    rely on. *)

From Stdlib Require Import ZArith Lia.
From stdpp Require Import base tactics numbers list option.
From S2P Require Import Prelude.

#[local] Open Scope Z_scope.

(** ** strmatch() *)

(** The [\[...\]] part of a pattern: either the function returns, or it
    goes on behind the closing bracket. *)
Inductive bracket_result := Ret (b : bool) | Go (pattern : list Z).

(** The loop at label [ok]: [while ( *pattern++ != ']') ...] *)
Fixpoint close_bracket (l : list Z) : bracket_result :=
  match l with
  | [] => Ret false
  | c :: l' =>
      if c =? $"]" then Go l'
      else if hd 0 l' =? 0 then Ret false else close_bracket l'
  end.

(** The character loop; [l] starts at [pattern + 1], [t] is [*term]. *)
Fixpoint bracket (sense : bool) (t : Z) (l : list Z) : bracket_result :=
  match l with
  | [] => Ret (negb sense)
  | c :: l1 =>
      if (c =? $"]") || (c =? t) then
        if Bool.eqb (c =? $"]") sense then Ret false else close_bracket l
      else if c =? 0 then Ret (negb sense)
      else
        match l1 with
        | d :: c2 :: l2 =>
            if (d =? $"-") && negb (c2 =? $"]") && negb (c2 =? 0) then
              let hi := if c2 <? 128 then c2 else 127 in
              if (Z.land (c + 1) 0xFF <=? t) && (t <=? hi) then
                if sense then close_bracket l else Ret false
              else bracket sense t l2
            else bracket sense t l1
        | _ => bracket sense t l1
        end
  end.

(** [strmatch]; every round of its loop advances [pattern], so that the
    length of the pattern bounds the depth. *)
Fixpoint strmatch_fuel (fuel : nat) (pattern term : list Z) {struct fuel} : bool :=
  match fuel with
  | O => false
  | S fuel =>
      let c := hd 0 pattern in
      let p := tl pattern in
      if c =? $"*" then
        (fix any (t : list Z) : bool :=
           strmatch_fuel fuel p t ||
           match t with
           | [] => false
           | x :: t' => if x =? 0 then false else any t'
           end) term
      else if c =? $"\" then
        if hd 0 term =? 0 then false
        else if hd 0 p =? 0 then false
        else if negb (hd 0 p =? hd 0 term) then false
        else strmatch_fuel fuel (tl p) (tl term)
      else if c =? $"[" then
        if hd 0 term =? 0 then false
        else
          let sense := negb (hd 0 p =? $"!") in
          match bracket sense (hd 0 term) (if sense then p else tl p) with
          | Ret b => b
          | Go p' => strmatch_fuel fuel p' (tl term)
          end
      else if c =? $"?" then
        if hd 0 term =? 0 then false else strmatch_fuel fuel p (tl term)
      else if c =? 0 then hd 0 term =? 0
      else if negb (c =? hd 0 term) then false
      else strmatch_fuel fuel p (tl term)
  end.

Definition strmatch (pattern term : list Z) : bool :=
  strmatch_fuel (S (length pattern)) pattern term.

(** ** What a pattern means *)

Inductive elem := Star | Any | Lit (c : Z) | Esc (c : Z) | Class (neg : bool) (w : list Z).

#[export] Instance elem_eq_dec : EqDecision elem.
Proof. solve_decision. Defined.

Definition is_special (c : Z) : bool :=
  (c =? $"*") || (c =? $"\") || (c =? $"[") || (c =? $"?") || (c =? 0).

Fixpoint in_set (w : list Z) (c : Z) : bool :=
  match w with
  | [] => false
  | a :: w1 =>
      (a =? c) ||
      match w1 with
      | d :: b :: w2 => if d =? $"-" then ((a <? c) && (c <=? b)) || in_set w2 c
                        else in_set w1 c
      | _ => in_set w1 c
      end
  end.

Definition wf_elem (e : elem) : Prop :=
  match e with
  | Star | Any => True
  | Lit c => is_special c = false
  | Esc c => c <> 0
  | Class neg w => forallb (fun c => negb (c =? $"]") && (0 <? c) && (c <? 128)) w = true /\
                   (neg = false -> hd 0 w <> $"!")
  end.

Definition render_elem (e : elem) : list Z :=
  match e with
  | Star => [$"*"]
  | Any => [$"?"]
  | Lit c => [c]
  | Esc c => [$"\"; c]
  | Class neg w => $"[" :: (if neg then [$"!"] else []) ++ w ++ [$"]"]
  end.
Definition render (es : list elem) : list Z := concat (render_elem <$> es).

Inductive glob : list elem -> list Z -> Prop :=
| glob_nil : glob [] []
| glob_star es t1 t2 : glob es t2 -> glob (Star :: es) (t1 ++ t2)
| glob_any es c t : glob es t -> glob (Any :: es) (c :: t)
| glob_lit es c t : glob es t -> glob (Lit c :: es) (c :: t)
| glob_esc es c t : glob es t -> glob (Esc c :: es) (c :: t)
| glob_class es neg w c t :
    in_set w c = negb neg -> glob es t -> glob (Class neg w :: es) (c :: t).

Definition set_char (c : Z) : bool := negb (c =? $"]") && (0 <? c) && (c <? 128).

Lemma set_char_inv c : set_char c = true -> (c =? $"]") = false /\ (c =? 0) = false /\ 0 < c < 128.
Proof. unfold set_char. intros H. zbool. split_and!; lia. Qed.

Lemma close_bracket_spec w p :
  forallb set_char w = true -> close_bracket (w ++ $"]" :: p) = Go p.
Proof.
  induction w as [|c w IH]; intros H; [done|]. cbn in H. apply andb_prop in H as [Hc Hw].
  cbn [app close_bracket]. destruct (set_char_inv c) as (-> & _ & _); [done|].
  replace (hd 0 (w ++ $"]" :: p) =? 0) with false; [auto|]. symmetry.
  destruct w as [|d w]; [done|]. cbn in *. zbool. by destruct (set_char_inv d) as (_ & -> & _).
Qed.

Lemma range_test c t b : 0 < c < 128 -> 0 < b < 128 ->
  (Z.land (c + 1) 0xFF <=? t) && (t <=? (if b <? 128 then b else 127)) = (c <? t) && (t <=? b).
Proof.
  intros Hc Hb. replace (b <? 128) with true by lia.
  change 0xFF with (Z.ones 8). rewrite Z.land_ones by lia. rewrite Z.mod_small by lia.
  f_equal. lia.
Qed.

Lemma bracket_spec sense t p n w :
  (length w <= n)%nat -> forallb set_char w = true ->
  bracket sense t (w ++ $"]" :: p) =
    if Bool.eqb (in_set w t) sense then Go p else Ret false.
Proof.
  revert w. induction n as [|n IH]; intros w Hn Hw.
  { destruct w; [|cbn in Hn; lia]. cbn. by destruct sense. }
  destruct w as [|c w]; [by destruct sense|].
  pose proof (close_bracket_spec _ p Hw) as Hclose.
  cbn in Hw. apply andb_prop in Hw as [Hc Hw]. destruct (set_char_inv c Hc) as (E1 & E2 & Hr).
  cbn [app bracket in_set] in *. rewrite E1, E2, Hclose. cbn [orb Bool.eqb].
  destruct (c =? t) eqn:Et; [by destruct sense|]. cbn [orb].
  destruct w as [|d [|b w]]; cbn [app].
  - destruct p; by destruct sense.
  - rewrite andb_false_r. cbn [andb]. apply (IH [d]); [cbn in *; lia | done].
  - cbn in Hw. zbool. destruct (set_char_inv b) as (F1 & F2 & Fr); [done|].
    rewrite F1, F2, !andb_true_r. rewrite range_test by done.
    destruct (d =? $"-").
    + destruct (_ && (t <=? b)); [by destruct sense|]. cbn [orb].
      apply IH; [cbn in Hn; lia | done].
    + apply (IH (d :: b :: w)); [cbn in *; lia|]. cbn. rewrite H, H0. done.
Qed.

Lemma hd_no_nul t : Forall (fun c => 0 < c < 128) t -> (hd 0 t =? 0) = bool_decide (t = []).
Proof. destruct 1; [done|]. rewrite bool_decide_eq_false_2 by done. cbn. lia. Qed.

(** The loop of the [*] case. *)
Lemma any_spec (f : list Z -> bool) t :
  Forall (fun c => 0 < c < 128) t ->
  (fix any (t : list Z) : bool :=
     f t || match t with [] => false | x :: t' => if x =? 0 then false else any t' end) t = true
  <-> exists t1 t2, t = t1 ++ t2 /\ f t2 = true.
Proof.
  induction 1 as [|x t Hx Ht IH].
  - rewrite orb_false_r. split; [intros ?; by exists [], []|].
    intros (t1 & t2 & E & Hf). symmetry in E. by apply app_eq_nil in E as [-> ->].
  - replace (x =? 0) with false by lia. rewrite orb_true_iff, IH. split.
    + intros [Hf | (t1 & t2 & -> & Hf)]; [by exists [], (x :: t) | by exists (x :: t1), t2].
    + intros (t1 & t2 & E & Hf). destruct t1 as [|y t1]; cbn in E; [subst; by left|].
      injection E as -> ->. right. by exists t1, t2.
Qed.

Lemma length_render es : Forall wf_elem es -> (length es <= length (render es))%nat.
Proof.
  induction 1 as [|e es He Hes IH]; [done|]. unfold render in *. cbn. rewrite length_app.
  enough (1 <= length (render_elem e))%nat by lia. destruct e; cbn; lia.
Qed.

Lemma is_special_inv c : is_special c = false ->
  (c =? $"*") = false /\ (c =? $"\") = false /\ (c =? $"[") = false /\ (c =? $"?") = false /\ (c =? 0) = false.
Proof. unfold is_special. intros H. repeat (apply orb_false_elim in H as [H ?]). auto. Qed.

Lemma glob_inv_nil t : glob [] t <-> t = [].
Proof. split; [by inversion 1 | intros ->; constructor]. Qed.

(** One element of a pattern against the head of the term. *)
Definition elem_matches (e : elem) (c : Z) : bool :=
  match e with
  | Star => false
  | Any => true
  | Lit d | Esc d => d =? c
  | Class neg w => Bool.eqb (in_set w c) (negb neg)
  end.

Lemma glob_inv_cons e es t : e <> Star ->
  glob (e :: es) t <-> exists c t', t = c :: t' /\ elem_matches e c = true /\ glob es t'.
Proof.
  intros He. split.
  - inversion 1; subst; [done|..]; eexists _, _; (split; [done|]); split; try done; cbn.
    + apply Z.eqb_refl.
    + apply Z.eqb_refl.
    + apply Bool.eqb_true_iff. done.
  - intros (c & t' & -> & Hm & Hg). destruct e; cbn in Hm; [done|..]; zbool; subst; try by constructor.
    constructor; [|done]. by apply Bool.eqb_true_iff.
Qed.

Lemma glob_inv_star es t : glob (Star :: es) t <-> exists t1 t2, t = t1 ++ t2 /\ glob es t2.
Proof. split; [inversion 1; subst; eauto | intros (t1 & t2 & -> & ?); by constructor]. Qed.

Lemma strmatch_elem fuel e es t :
  wf_elem e -> e <> Star -> Forall (fun c => 0 < c < 128) t ->
  strmatch_fuel (S fuel) (render (e :: es)) t =
    match t with
    | [] => false
    | c :: t' => elem_matches e c && strmatch_fuel fuel (render es) t'
    end.
Proof.
  intros Hwf He Ht. unfold render. destruct e as [| | c | c | neg w]; [done|..];
    cbn [fmap list_fmap concat render_elem strmatch_fuel app hd tl].
  - cbn [Z.eqb Pos.eqb]. rewrite hd_no_nul by done. by destruct t.
  - apply is_special_inv in Hwf as (-> & -> & -> & -> & H0). rewrite H0.
    destruct t as [|x t]; cbn; [by rewrite H0|]. by destruct (c =? x).
  - cbn [Z.eqb Pos.eqb]. rewrite hd_no_nul by done. cbn in Hwf. apply Z.eqb_neq in Hwf as ->.
    destruct t as [|x t]; cbn; [done|]. by destruct (c =? x).
  - cbn [Z.eqb Pos.eqb]. rewrite hd_no_nul by done. destruct t as [|x t]; [done|].
    case_bool_decide; [done|]. destruct Hwf as [Hw Hneg].
    cbn [hd tl elem_matches]. rewrite <- !app_assoc. cbn [app].
    assert (negb (hd 0 ((if neg then [$"!"] else []) ++ w ++ $"]" :: concat (render_elem <$> es)) =? $"!")
            = negb neg) as Es.
    { destruct neg; cbn; [done|]. destruct w as [|y w]; [done|]. cbn in *.
      specialize (Hneg eq_refl). destruct (Z.eqb_spec y $"!"); done. }
    rewrite Es.
    replace (if negb neg then _ else _) with (w ++ $"]" :: concat (render_elem <$> es)) by (by destruct neg).
    rewrite (bracket_spec _ _ _ (length w)) by done. by destruct (Bool.eqb _ _).
Qed.

Lemma strmatch_fuel_glob es fuel t :
  Forall wf_elem es -> Forall (fun c => 0 < c < 128) t -> (length es < fuel)%nat ->
  strmatch_fuel fuel (render es) t = true <-> glob es t.
Proof.
  intros Hes. revert fuel t. induction Hes as [|e es He Hes IH]; intros [|fuel] t Ht Hf;
    cbn in Hf; try lia.
  - cbn. rewrite hd_no_nul, bool_decide_eq_true by done. by rewrite glob_inv_nil.
  - destruct (decide (e = Star)) as [-> | Hne].
    + unfold render. cbn [fmap list_fmap concat render_elem strmatch_fuel app hd tl Z.eqb Pos.eqb].
      rewrite any_spec by done. rewrite glob_inv_star.
      do 2 (apply exist_proper; intros ?). split; intros [-> H]; (split; [done|]);
        apply Forall_app in Ht as [_ Ht]; apply (IH fuel _ Ht); (done || lia).
    + rewrite strmatch_elem, glob_inv_cons by done. destruct t as [|c t].
      * split; [done|]. by intros (? & ? & ? & _).
      * apply Forall_cons_1 in Ht as [_ Ht]. rewrite andb_true_iff, IH by (done || lia). split.
        -- intros [? ?]. by exists c, t.
        -- by intros (c' & t' & [= <- <-] & ? & ?).
Qed.

(** ** stringlib.c *)

(** One step of the comparisons: both characters without case. *)
Definition cidiff (ac bc : Z) : Z := tolower ac - tolower bc.

Fixpoint cistrcmp (a b : list Z) : Z :=
  match a, b with
  | ac :: a', bc :: b' =>
      if (ac =? 0) || (bc =? 0) then ac - bc
      else if negb (cidiff ac bc =? 0) then cidiff ac bc
      else cistrcmp a' b'
  | _, _ => hd 0 a - hd 0 b
  end.

Fixpoint cistrncmp (a b : list Z) (n : nat) : Z :=
  match n with
  | O => hd 0 a * hd 0 b
  | S n' =>
      if negb (cidiff (hd 0 a) (hd 0 b) =? 0) then cidiff (hd 0 a) (hd 0 b)
      else cistrncmp (tl a) (tl b) n'
  end.

Fixpoint ci2strncmp (a b : list Z) (n : nat) : Z :=
  match n with
  | O => 0
  | S n' =>
      if negb (cidiff (hd 0 a) (hd 0 b) =? 0) then cidiff (hd 0 a) (hd 0 b)
      else ci2strncmp (tl a) (tl b) n'
  end.

Lemma tolower_zero c : (tolower c =? 0) = (c =? 0).
Proof. unfold tolower, isupper. destruct (_ && _) eqn:E; [zbool; lia | done]. Qed.

Lemma cidiff_zero a b : (cidiff a b =? 0) = (tolower a =? tolower b).
Proof. unfold cidiff. lia. Qed.

Lemma cistrncmp_literal l w r :
  forallb not_nul w = true ->
  (cistrncmp l (w ++ 0 :: r) (length w) =? 0) = CISTREQN l w.
Proof.
  revert l. induction w as [|c w IH]; intros l Hw; [cbn; lia|].
  cbn in Hw. apply andb_prop in Hw as [Hc Hw]. unfold not_nul in Hc. zbool.
  cbn [app length cistrncmp hd tl]. rewrite cidiff_zero.
  destruct l as [|d l]; cbn [hd tl CISTREQN].
  - assert (tolower 0 =? tolower c = false) as E.
    { change (tolower 0) with 0. rewrite Z.eqb_sym, tolower_zero. lia. }
    rewrite E. cbn [negb]. by rewrite cidiff_zero.
  - rewrite (Z.eqb_sym (tolower c)). destruct (tolower d =? tolower c) eqn:E; cbn [negb andb].
    + by apply IH.
    + by rewrite cidiff_zero.
Qed.

Lemma cistrcmp_equal a b x y :
  forallb not_nul a = true -> forallb not_nul b = true ->
  (cistrcmp (a ++ 0 :: x) (b ++ 0 :: y) =? 0) = CISTREQ a b.
Proof.
  revert b. induction a as [|c a IH]; intros [|d b] Ha Hb; cbn in Ha, Hb; unfold not_nul in *; zbool;
    cbn [app cistrcmp hd].
  - done.
  - cbn. replace (d =? 0) with false by lia. cbn. destruct d; done.
  - rewrite orb_true_r. cbn. destruct c; done.
  - replace (c =? 0) with false by lia. replace (d =? 0) with false by lia. cbn [orb].
    unfold CISTREQ in *. cbn [length CISTREQN Nat.eqb]. rewrite cidiff_zero, (Z.eqb_sym (tolower d)).
    destruct (tolower c =? tolower d) eqn:E; cbn [negb andb].
    + rewrite andb_comm. cbn. rewrite andb_comm. by apply IH.
    + rewrite cidiff_zero, E. by rewrite andb_false_r.
Qed.

(** ** The properties *)

(** C40: [strmatch] is shell globbing: for every pattern built of stars,
    question marks, quoted and plain characters and bracket classes with
    ranges or negation, and every ASCII term, it answers whether the term
    is in the language of the pattern.  The depth bound of the model is the
    length of the pattern, and is enough. *)
Theorem strmatch_globs es t :
  Forall wf_elem es -> Forall (fun c => 0 < c < 128) t ->
  strmatch (render es) t = true <-> glob es t.
Proof.
  intros Hes Ht. apply strmatch_fuel_glob; [done..|].
  pose proof (length_render es Hes). lia.
Qed.

Lemma strmatch_globs_witness :
  glob [Star; Lit $"."; Class true ($$"a-fx"); Any] ($$"host.zz").
Proof.
  apply strmatch_globs.
  - repeat constructor; vm_compute; done.
  - repeat constructor.
  - vm_compute. reflexivity.
Defined.

(** The comparison macros mean what their callers assume: with a
    literal [w] of length [n], [CISTREQN(s, w, n)] tests that [s] starts with
    [w] without regard to case, although cistrncmp() returns the product of
    the two characters behind the compared ones. *)
Theorem cistreqn_is_prefix_test l w r :
  forallb not_nul w = true ->
  cistrncmp l (w ++ 0 :: r) (length w) = 0 <->
  exists v l', l = v ++ l' /\ tolower <$> v = tolower <$> w.
Proof.
  intros Hw. rewrite <- Z.eqb_eq, cistrncmp_literal by done. clear Hw.
  revert l. induction w as [|c w IH]; intros l; cbn [CISTREQN].
  - split; [intros _; by exists [], l | done].
  - destruct l as [|d l].
    + split; [done|]. intros (v & l' & E & Ev). symmetry in E. by apply app_eq_nil in E as [-> _].
    + rewrite andb_true_iff, IH, Z.eqb_eq. split.
      * intros [E (v & l' & -> & Ev)]. exists (d :: v), l'. split; [done|]. cbn. by rewrite E, Ev.
      * intros (v & l' & E & Ev). destruct v as [|x v]; [done|]. cbn in E, Ev.
        injection E as -> ->. injection Ev as Ex Ev. split; [done|]. by exists v, l'.
Qed.

Lemma cistreqn_is_prefix_test_witness :
  exists v l', $$"SizE=10" = v ++ l' /\ tolower <$> v = tolower <$> $$"SIZE=".
Proof.
  apply (cistreqn_is_prefix_test _ ($$"SIZE=") []); [reflexivity | vm_compute; reflexivity].
Defined.
