(* ===== verification/Rfc821.v ===== *)
(** * RFC 821 address scanner (smtpserver/rfc821scn.c)

    The lexical scanners the SMTP server uses on HELO, MAIL and RCPT
    arguments.  A scanner takes a pointer and returns the pointer just
    behind the element it recognised, or its argument when it failed; a
    failure leaves a text in [rfc821_error].  The header of Prelude.v says
    how pointers are modelled. *)

From Stdlib Require Import ZArith Lia.
From stdpp Require Import base tactics numbers list option.
From S2P Require Import Prelude.

#[local] Open Scope Z_scope.

(** ** Character classes *)

Module CharClass.

Definition CHAR_ALPHA : Z := 0x0001.
Definition CHAR_ALNUM : Z := 0x0002.
Definition CHAR_SPECL : Z := 0x0004.
Definition CHAR_DIGIT : Z := 0x0008.
Definition CHAR_C : Z := 0x0010.
Definition CHAR_X : Z := 0x0020.
Definition CHAR_Q : Z := 0x0040.
Definition CHAR_XDIGIT : Z := 0x0080.
Definition CHAR_822ATM : Z := 0x0100.
Definition CHAR_XCHAR : Z := 0x0200.

Definition CHR_ENT (a b c d e f g h i j : Z) : Z :=
  let pick x m := if x =? 0 then 0 else m in
  Z.lor (pick a CHAR_ALPHA) (Z.lor (pick b CHAR_ALNUM)
  (Z.lor (pick c CHAR_SPECL) (Z.lor (pick d CHAR_DIGIT)
  (Z.lor (pick e CHAR_C) (Z.lor (pick f CHAR_X)
  (Z.lor (pick g CHAR_Q) (Z.lor (pick h CHAR_XDIGIT)
  (Z.lor (pick i CHAR_822ATM) (pick j CHAR_XCHAR))))))))).

(** Columns: ALPHA ALNUM SPECL DIGIT C X Q XDIGIT 822ATM XCHAR. *)
Definition char_array_lo : list Z := Eval vm_compute in
  [CHR_ENT 0 0 0 0 0 0 0 0 0 0;
   CHR_ENT 0 0 1 0 0 1 1 0 0 0;
   CHR_ENT 0 0 1 0 0 1 1 0 0 0;
   CHR_ENT 0 0 1 0 0 1 1 0 0 0;
   CHR_ENT 0 0 1 0 0 1 1 0 0 0;
   CHR_ENT 0 0 1 0 0 1 1 0 0 0;
   CHR_ENT 0 0 1 0 0 1 1 0 0 0;
   CHR_ENT 0 0 1 0 0 1 1 0 0 0;
   CHR_ENT 0 0 1 0 0 1 1 0 0 0;
   CHR_ENT 0 0 1 0 0 1 1 0 0 0;
   CHR_ENT 0 0 1 0 0 1 0 0 0 0;
   CHR_ENT 0 0 1 0 0 1 1 0 0 0;
   CHR_ENT 0 0 1 0 0 1 1 0 0 0;
   CHR_ENT 0 0 1 0 0 1 0 0 0 0;
   CHR_ENT 0 0 1 0 0 1 1 0 0 0;
   CHR_ENT 0 0 1 0 0 1 1 0 0 0;
   CHR_ENT 0 0 1 0 0 1 1 0 0 0;
   CHR_ENT 0 0 1 0 0 1 1 0 0 0;
   CHR_ENT 0 0 1 0 0 1 1 0 0 0;
   CHR_ENT 0 0 1 0 0 1 1 0 0 0;
   CHR_ENT 0 0 1 0 0 1 1 0 0 0;
   CHR_ENT 0 0 1 0 0 1 1 0 0 0;
   CHR_ENT 0 0 1 0 0 1 1 0 0 0;
   CHR_ENT 0 0 1 0 0 1 1 0 0 0;
   CHR_ENT 0 0 1 0 0 1 1 0 0 0;
   CHR_ENT 0 0 1 0 0 1 1 0 0 0;
   CHR_ENT 0 0 1 0 0 1 1 0 0 0;
   CHR_ENT 0 0 1 0 0 1 1 0 0 0;
   CHR_ENT 0 0 1 0 0 1 1 0 0 0;
   CHR_ENT 0 0 1 0 0 1 1 0 0 0;
   CHR_ENT 0 0 1 0 0 1 1 0 0 0;
   CHR_ENT 0 0 1 0 0 1 1 0 0 0;
   CHR_ENT 0 0 0 0 0 1 1 0 0 0;
   CHR_ENT 0 0 0 0 1 1 1 0 1 1;
   CHR_ENT 0 0 1 0 0 1 0 0 0 1;
   CHR_ENT 0 0 0 0 1 1 1 0 1 1;
   CHR_ENT 0 0 0 0 1 1 1 0 1 1;
   CHR_ENT 0 0 0 0 1 1 1 0 1 1;
   CHR_ENT 0 0 0 0 1 1 1 0 1 1;
   CHR_ENT 0 0 0 0 1 1 1 0 1 1;
   CHR_ENT 0 0 1 0 0 1 1 0 0 1;
   CHR_ENT 0 0 1 0 0 1 1 0 0 1;
   CHR_ENT 0 0 0 0 1 1 1 0 1 1;
   CHR_ENT 0 0 0 0 1 1 1 0 1 0;
   CHR_ENT 0 0 1 0 0 1 1 0 0 1;
   CHR_ENT 0 0 0 0 1 1 1 0 1 1;
   CHR_ENT 0 0 1 0 0 1 1 0 0 1;
   CHR_ENT 0 0 0 0 1 1 1 0 1 1;
   CHR_ENT 0 1 0 1 1 1 1 1 1 1;
   CHR_ENT 0 1 0 1 1 1 1 1 1 1;
   CHR_ENT 0 1 0 1 1 1 1 1 1 1;
   CHR_ENT 0 1 0 1 1 1 1 1 1 1;
   CHR_ENT 0 1 0 1 1 1 1 1 1 1;
   CHR_ENT 0 1 0 1 1 1 1 1 1 1;
   CHR_ENT 0 1 0 1 1 1 1 1 1 1;
   CHR_ENT 0 1 0 1 1 1 1 1 1 1;
   CHR_ENT 0 1 0 1 1 1 1 1 1 1;
   CHR_ENT 0 1 0 1 1 1 1 1 1 1;
   CHR_ENT 0 0 0 0 0 1 1 0 0 1;
   CHR_ENT 0 0 0 0 0 1 1 0 0 1;
   CHR_ENT 0 0 1 0 0 1 1 0 0 1;
   CHR_ENT 0 0 0 0 1 1 1 0 1 0;
   CHR_ENT 0 0 1 0 0 1 1 0 0 1;
   CHR_ENT 0 0 0 0 1 1 1 0 1 1;
   CHR_ENT 0 0 1 0 0 1 1 0 0 1;
   CHR_ENT 1 1 0 0 1 1 1 1 1 1;
   CHR_ENT 1 1 0 0 1 1 1 1 1 1;
   CHR_ENT 1 1 0 0 1 1 1 1 1 1;
   CHR_ENT 1 1 0 0 1 1 1 1 1 1;
   CHR_ENT 1 1 0 0 1 1 1 1 1 1;
   CHR_ENT 1 1 0 0 1 1 1 1 1 1;
   CHR_ENT 1 1 0 0 1 1 1 0 1 1;
   CHR_ENT 1 1 0 0 1 1 1 0 1 1;
   CHR_ENT 1 1 0 0 1 1 1 0 1 1;
   CHR_ENT 1 1 0 0 1 1 1 0 1 1;
   CHR_ENT 1 1 0 0 1 1 1 0 1 1;
   CHR_ENT 1 1 0 0 1 1 1 0 1 1;
   CHR_ENT 1 1 0 0 1 1 1 0 1 1;
   CHR_ENT 1 1 0 0 1 1 1 0 1 1;
   CHR_ENT 1 1 0 0 1 1 1 0 1 1;
   CHR_ENT 1 1 0 0 1 1 1 0 1 1;
   CHR_ENT 1 1 0 0 1 1 1 0 1 1;
   CHR_ENT 1 1 0 0 1 1 1 0 1 1;
   CHR_ENT 1 1 0 0 1 1 1 0 1 1;
   CHR_ENT 1 1 0 0 1 1 1 0 1 1;
   CHR_ENT 1 1 0 0 1 1 1 0 1 1;
   CHR_ENT 1 1 0 0 1 1 1 0 1 1;
   CHR_ENT 1 1 0 0 1 1 1 0 1 1;
   CHR_ENT 1 1 0 0 1 1 1 0 1 1;
   CHR_ENT 1 1 0 0 1 1 1 0 1 1;
   CHR_ENT 1 1 0 0 1 1 1 0 1 1;
   CHR_ENT 0 0 1 0 0 1 1 0 0 1;
   CHR_ENT 0 0 1 0 0 1 0 0 0 1;
   CHR_ENT 0 0 1 0 0 1 1 0 0 1;
   CHR_ENT 0 0 0 0 1 1 1 0 1 1;
   CHR_ENT 0 0 0 0 1 1 1 0 1 1;
   CHR_ENT 0 0 0 0 1 1 1 0 1 1;
   CHR_ENT 1 1 0 0 1 1 1 1 1 1;
   CHR_ENT 1 1 0 0 1 1 1 1 1 1;
   CHR_ENT 1 1 0 0 1 1 1 1 1 1;
   CHR_ENT 1 1 0 0 1 1 1 1 1 1;
   CHR_ENT 1 1 0 0 1 1 1 1 1 1;
   CHR_ENT 1 1 0 0 1 1 1 1 1 1;
   CHR_ENT 1 1 0 0 1 1 1 0 1 1;
   CHR_ENT 1 1 0 0 1 1 1 0 1 1;
   CHR_ENT 1 1 0 0 1 1 1 0 1 1;
   CHR_ENT 1 1 0 0 1 1 1 0 1 1;
   CHR_ENT 1 1 0 0 1 1 1 0 1 1;
   CHR_ENT 1 1 0 0 1 1 1 0 1 1;
   CHR_ENT 1 1 0 0 1 1 1 0 1 1;
   CHR_ENT 1 1 0 0 1 1 1 0 1 1;
   CHR_ENT 1 1 0 0 1 1 1 0 1 1;
   CHR_ENT 1 1 0 0 1 1 1 0 1 1;
   CHR_ENT 1 1 0 0 1 1 1 0 1 1;
   CHR_ENT 1 1 0 0 1 1 1 0 1 1;
   CHR_ENT 1 1 0 0 1 1 1 0 1 1;
   CHR_ENT 1 1 0 0 1 1 1 0 1 1;
   CHR_ENT 1 1 0 0 1 1 1 0 1 1;
   CHR_ENT 1 1 0 0 1 1 1 0 1 1;
   CHR_ENT 1 1 0 0 1 1 1 0 1 1;
   CHR_ENT 1 1 0 0 1 1 1 0 1 1;
   CHR_ENT 1 1 0 0 1 1 1 0 1 1;
   CHR_ENT 1 1 0 0 1 1 1 0 1 1;
   CHR_ENT 0 0 0 0 1 1 1 0 1 1;
   CHR_ENT 0 0 0 0 1 1 1 0 1 1;
   CHR_ENT 0 0 0 0 1 1 1 0 1 1;
   CHR_ENT 0 0 0 0 1 1 1 0 1 1;
   CHR_ENT 0 0 0 0 0 1 1 0 0 0].

Definition char_array_hi : list Z := Eval vm_compute in
  replicate 128 (CHR_ENT 0 0 0 0 0 0 0 0 0 0).

Definition char_array : list Z := Eval vm_compute in
  char_array_lo ++ char_array_hi.

Definition class_of (chr : Z) : Z :=
  nth (Z.to_nat (Z.land chr 0xFF)) char_array 0.

Definition in_class (mask chr : Z) : bool := negb (Z.land (class_of chr) mask =? 0).

Definition is_821_alpha (chr : Z) : bool := in_class CHAR_ALPHA chr.
Definition is_821_alnum (chr : Z) : bool := in_class CHAR_ALNUM chr.
Definition is_821_digit (chr : Z) : bool := in_class CHAR_DIGIT chr.
Definition is_821_specl (chr : Z) : bool := in_class CHAR_SPECL chr.
Definition is_821_xdigit (chr : Z) : bool := in_class CHAR_XDIGIT chr.
Definition is_821_C (chr : Z) : bool := in_class CHAR_C chr.
Definition is_821_X (chr : Z) : bool := in_class CHAR_X chr.
Definition is_821_Q (chr : Z) : bool := in_class CHAR_Q chr.
Definition is_822_atomchar (chr : Z) : bool := in_class CHAR_822ATM chr.
Definition is_xchar (chr : Z) : bool := in_class CHAR_XCHAR chr.

End CharClass.
Export CharClass.

(** ** Error state *)

(** The texts assigned to [rfc821_error]. *)
Inductive rfc821_text :=
| Invalid_RFC822_atom
| Invalid_character_in_XTEXT_string
| Spurious_junk_after_DOMAIN
| At_domain_missing_initial_at
| Missing_domain_entry
| Leading_double_colon_must_have_a_pair
| Too_big_value_for_v6dotnum_element
| Illegal_intermediate_double_colon
| Too_many_colon_separated_components
| V6dotnum_error
| Too_few_colon_separated_components
| Bad_syntax_of_dotnum_v6dotnum_value
| Bad_syntax_of_dotnum_value
| Bad_syntax_of_dotnum_missing_dot
| RFC821_name_bad_syntax
| RFC821_No_input
| Dotnum_missing_terminating_bracket
| Domain_numbers_inadequate_count
| Domain_does_not_start_with_dot
| Spurious_dot_at_end_of_domain
| Should_this_be_of_dotnum_format
| Bad_syntax_on_domain
| Perhaps_dot_instead_of_colon
| Missing_at_from_mailbox
| Improper_8bit_character_in_string
| Unsuitable_characters_for_string
| Localpart_must_not_end_with_unquoted_dot
| Improper_8bit_character_in_qtext
| RFC821_qtext_data_failure
| Quoted_string_without_initial_quote
| Quoted_string_without_final_quote
| No_input
| No_local_part_before_leading_at
| Missing_colon_from_source_route
| Missing_lt_from_beginning
| Premature_end
| Missing_gt_at_end
| Extra_garbage_before_terminating_gt.

(** The globals [rfc821_error] ([None] is NULL) and [rfc821_error_ptr]. *)
Record rfc821_err := Err {
  rfc821_error : option rfc821_text;
  rfc821_error_ptr : option Z
}.

Abbreviation scanner := (ST rfc821_err ptr).

Definition set_error (t : rfc821_text) : ST rfc821_err unit :=
  modify (fun e => Err (Some t) (rfc821_error_ptr e)).
Definition set_error_at (t : rfc821_text) (a : Z) : ST rfc821_err unit :=
  modify (fun _ => Err (Some t) (Some a)).

(** ** The scanners *)

Definition rfc822atom (s : ptr) : scanner :=
  let r := skip_while is_822_atomchar s in
  if peq r s then
    set_error_at Invalid_RFC822_atom (addr r);; mret s
  else mret r.

(** The hexadecimal digits [xtext_string] admits behind a [+]. *)
Definition is_upper_xdigit (c : Z) : bool :=
  (($"0" <=? c) && (c <=? $"9")) || (($"A" <=? c) && (c <=? $"F")).

(** The loop of [xtext_string], from position [a]: where it stopped, and
    whether it left by [goto err]. *)
Fixpoint xtext_loop (a : Z) (l : list Z) : bool * Z * list Z :=
  match l with
  | [] => (true, a, [])
  | c :: l1 =>
      if c =? 0 then (true, a, l)
      else if (c =? $" ") || (c =? 9) then (true, a, l)
      else if is_xchar c then xtext_loop (a + 1) l1
      else if c =? $"+" then
        match l1 with
        | [] => (false, a + 1, l1)
        | h1 :: l2 =>
            if negb (is_upper_xdigit h1) then (false, a + 1, l1)
            else match l2 with
                 | [] => (false, a + 2, l2)
                 | h2 :: l3 =>
                     if negb (is_upper_xdigit h2) then (false, a + 2, l2)
                     else xtext_loop (a + 3) l3
                 end
        end
      else (false, a, l)
  end.

Definition xtext_string (s : ptr) : scanner :=
  let '(ok, a, l) := xtext_loop (addr s) (mem s) in
  if negb ok || (a =? addr s) then
    set_error_at Invalid_character_in_XTEXT_string a;; mret s
  else mret (Ptr a l).

(** The [for] loop over the four numbers of a dotted quad; [k] numbers are
    left, [p] is one before the next number, [None] is [return s]. *)
Fixpoint dotnum_loop (k : nat) (p : ptr) : ST rfc821_err (option ptr) :=
  match k with
  | O => mret (Some p)
  | S k' =>
      let p := pinc p in
      let digits := take (span is_821_digit (mem p)) (mem p) in
      let val := fold_left (fun v c => v * 10 + (c - $"0")) digits 0 in
      let cnt := Z.of_nat (length digits) in
      let p := p [+] length digits in
      if (val >? 255) || (cnt <? 1) || (cnt >? 3) then
        set_error_at Bad_syntax_of_dotnum_value (addr p);; mret None
      else if negb (Nat.eqb k' 0) && negb (deref p =? $".") then
        set_error_at Bad_syntax_of_dotnum_missing_dot (addr p);; mret None
      else dotnum_loop k' p
  end.

(** One byte in front of [s]; only [++p] is applied to it. *)
Definition pdec (s : ptr) : ptr := Ptr (addr s - 1) (0 :: mem s).

Definition IN6ADDRSZ : Z := 16.
Definition INADDRSZ : Z := 4.
Definition INT16SZ : Z := 2.

(** The value [rfc821_v6dotnum] gives to a hexadecimal digit. *)
Definition v6_digit_value (ch : Z) : Z :=
  let ch := if $"a" <=? ch then ch - ($"a" - $"A") else ch in
  let ch := if $"A" <=? ch then ch - ($"A" + 1 - $"9") else ch in
  ch - $"0".

(** The [for] loop of [rfc821_v6dotnum] at [src = Ptr a l]; [dotnum] is
    [rfc821_dotnum].  [None] is [return (s)], otherwise the result is
    [src], [saw_xdigit], [tpcnt] and [colonidx] behind the loop. *)
Fixpoint v6_loop (dotnum : ptr -> scanner) (a : Z) (l : list Z) (curtok : ptr)
    (saw_xdigit : bool) (val tpcnt colonidx : Z) {struct l}
  : ST rfc821_err (option (ptr * bool * Z * Z)) :=
  match l with
  | [] => mret (Some (Ptr a l, saw_xdigit, tpcnt, colonidx))
  | ch :: l' =>
      if (ch =? 0) || (ch =? $"]") then
        mret (Some (Ptr a l, saw_xdigit, tpcnt, colonidx))
      else if is_821_xdigit ch then
        let val := Z.lor (Z.shiftl val 4) (v6_digit_value ch) in
        if val >? 0xffff then
          set_error_at Too_big_value_for_v6dotnum_element (a - 1);; mret None
        else v6_loop dotnum (a + 1) l' curtok true val tpcnt colonidx
      else if ch =? $":" then
        let curtok := Ptr a l in
        if negb saw_xdigit then
          if 0 <=? colonidx then
            set_error_at Illegal_intermediate_double_colon (a - 2);; mret None
          else v6_loop dotnum (a + 1) l' curtok saw_xdigit val tpcnt tpcnt
        else if tpcnt + INT16SZ >? IN6ADDRSZ then
          set_error_at Too_many_colon_separated_components (a - 1);; mret None
        else v6_loop dotnum (a + 1) l' curtok false 0 (tpcnt + 2) colonidx
      else if (ch =? $".") && (tpcnt + INADDRSZ <=? IN6ADDRSZ) then
        src ← dotnum curtok;
        if peq src curtok then mret None
        else mret (Some (src, false, tpcnt + INADDRSZ, colonidx))
      else set_error_at V6dotnum_error (a - 1);; mret None
  end.

Definition rfc821_v6dotnum (dotnum : ptr -> scanner) (s : ptr) : scanner :=
  if (deref s =? $":") && negb (peek s 1 =? $":") then
    set_error_at Leading_double_colon_must_have_a_pair (addr s);; mret s
  else
    let src := if deref s =? $":" then pinc s else s in
    res ← v6_loop dotnum (addr src) (mem src) src false 0 0 (-1);
    match res with
    | None => mret s
    | Some (src, saw_xdigit, tpcnt, colonidx) =>
        if saw_xdigit && (tpcnt + INT16SZ >? IN6ADDRSZ) then
          set_error_at Too_many_colon_separated_components (addr src - 1);; mret s
        else
          let tpcnt := if saw_xdigit then tpcnt + 2 else tpcnt in
          let tpcnt := if 0 <=? colonidx then IN6ADDRSZ else tpcnt in
          if negb (tpcnt =? IN6ADDRSZ) then
            set_error_at Too_few_colon_separated_components (addr src - 1);; mret s
          else mret src
    end.

(** [strncasecmp(s, w, strlen(w)) == 0] *)
Fixpoint has_prefix_nocase (w l : list Z) : bool :=
  match w, l with
  | [], _ => true
  | c :: w', d :: l' => (tolower c =? tolower d) && has_prefix_nocase w' l'
  | _ :: _, [] => false
  end.

(** [rfc821_dotnum] and [rfc821_v6dotnum] call each other; the nesting
    depth is bounded by [fuel]. *)
Fixpoint rfc821_dotnum_fuel (fuel : nat) (s : ptr) : scanner :=
  match fuel with
  | O => mret s
  | S fuel' =>
      if (deref s =? $"i") || (deref s =? $"I") then
        if has_prefix_nocase ($$"IPv6:") (mem s) then
          p ← rfc821_v6dotnum (rfc821_dotnum_fuel fuel') (s [+] 5);
          if peq p (s [+] 5) then mret s else mret p
        else
          set_error_at Bad_syntax_of_dotnum_v6dotnum_value (addr s);; mret s
      else
        res ← dotnum_loop 4 (pdec s);
        mret (default s res)
  end.

Definition rfc821_dotnum (s : ptr) : scanner :=
  rfc821_dotnum_fuel (S (length (mem s))) s.

(** The characters of a domain name segment behind its first one. *)
Definition is_name_char (c : Z) : bool := is_821_alnum c || (c =? $"-").

(** [rfc821_name]; the second component is [*allnump] afterwards. *)
Definition rfc821_name (s : ptr) (allnum : bool) : ST rfc821_err (ptr * bool) :=
  if deref s =? 0 then mret (s, allnum)
  else if negb (is_821_alnum (deref s)) then
    set_error_at RFC821_name_bad_syntax (addr s);; mret (s, allnum)
  else
    let w := take (span is_name_char (mem s)) (mem s) in
    let has_alpha := existsb (fun c => is_821_alpha c || (c =? $"-")) w in
    mret (s [+] length w, allnum && negb has_alpha).

(** The [while] loop over the segments of a domain name: [None] is
    [return s], otherwise [p], [q] and [allnum] behind the loop. *)
Fixpoint domain_loop (fuel : nat) (p q : ptr) (allnum : bool)
  : ST rfc821_err (option (ptr * ptr * bool)) :=
  match fuel with
  | O => mret (Some (p, q, allnum))
  | S fuel' =>
      if pgt q p && (deref q =? $".") then
        let p := pinc q in
        if (deref p =? 0) || (deref p =? $">") then
          set_error_at Spurious_dot_at_end_of_domain (addr q);; mret None
        else
          '(q', allnum) ← rfc821_name p allnum;
          domain_loop fuel' p q' allnum
      else mret (Some (p, q, allnum))
  end.

Definition rfc821_domain (s : ptr) : scanner :=
  if deref s =? 0 then set_error RFC821_No_input;; mret s
  else if deref s =? $"[" then
    q ← rfc821_dotnum (s [+] 1);
    if peq q (s [+] 1) then mret s
    else if negb (deref q =? $"]") then
      set_error_at Dotnum_missing_terminating_bracket (addr q - 1);; mret s
    else mret (q [+] 1)
  else if deref s =? $"#" then
    let p := skip_while is_821_digit (s [+] 1) in
    if pgt p (s [+] 1) then mret p
    else set_error_at Domain_numbers_inadequate_count (addr s);; mret s
  else if deref s =? $"." then
    set_error_at Domain_does_not_start_with_dot (addr s);; mret s
  else
    '(q, allnum) ← rfc821_name s true;
    res ← domain_loop (length (mem s)) s q allnum;
    match res with
    | None => mret s
    | Some (p, q, allnum) =>
        if allnum : bool then set_error Should_this_be_of_dotnum_format;; mret s
        else
          e ← get;
          (if rfc821_error e is None then set_error Bad_syntax_on_domain
           else mret tt);;
          if peq p q then mret s else mret q
    end.

Definition rfc821_at_domain (s : ptr) : scanner :=
  if deref s =? 0 then mret s
  else if negb (deref s =? $"@") then
    set_error_at At_domain_missing_initial_at (addr s);; mret s
  else
    p ← rfc821_domain (s [+] 1);
    if peq p (s [+] 1) then
      set_error_at Missing_domain_entry (addr s + 1);; mret s
    else mret p.

(** The loop of [rfc821_adl] at [p]; [s] is the start of the list. *)
Fixpoint adl_loop (fuel : nat) (s p : ptr) : scanner :=
  match fuel with
  | O => mret s
  | S fuel' =>
      q ← rfc821_at_domain p;
      if pgt q p then
        if negb (deref q =? $",") then mret q
        else adl_loop fuel' s (pinc q)
      else mret s
  end.

Definition rfc821_adl (s : ptr) : scanner :=
  if deref s =? 0 then mret s else adl_loop (S (length (mem s))) s s.

Definition rfc821_char (s : ptr) : ptr :=
  if deref s =? 0 then s
  else if deref s =? $"\" then
    if negb (is_821_X (peek s 1)) then s else s [+] 2
  else if is_821_C (deref s) then s [+] 1
  else s.

(** [while ((q = rfc821_char(p)) && (q > p)) p = q;] *)
Fixpoint string_loop (fuel : nat) (p : ptr) : ptr :=
  match fuel with
  | O => p
  | S fuel' => let q := rfc821_char p in if pgt q p then string_loop fuel' q else q
  end.

Definition rfc821_string (s : ptr) : scanner :=
  if deref s =? 0 then mret s
  else
    let q := string_loop (S (length (mem s))) s in
    if deref q >? 127 then
      set_error_at Improper_8bit_character_in_string (addr q);; mret s
    else if peq q s then
      set_error_at Unsuitable_characters_for_string (addr s);; mret q
    else mret q.

(** The [while ( *q == '.')] loop; [None] is [return s]. *)
Fixpoint dot_string_loop (fuel : nat) (strict : bool) (q : ptr)
  : ST rfc821_err (option ptr) :=
  match fuel with
  | O => mret (Some q)
  | S fuel' =>
      if deref q =? $"." then
        let p := q [+] 1 in
        q ← rfc821_string p;
        if strict && peq q p && (deref p =? $".") then
          (if deref q =? $"@" then set_error Localpart_must_not_end_with_unquoted_dot
           else mret tt);;
          mret None
        else dot_string_loop fuel' strict q
      else mret (Some q)
  end.

Definition rfc821_dot_string (s : ptr) (strict : bool) : scanner :=
  if deref s =? 0 then mret s
  else
    q ← rfc821_string s;
    if peq q s && strict && (deref s =? $".") then mret s
    else
      res ← dot_string_loop (S (length (mem s))) strict q;
      mret (default s res).

(** The loop of [rfc821_qtext]: where it stopped, and [fail]. *)
Fixpoint qtext_loop (a : Z) (l : list Z) : ptr * bool :=
  match l with
  | [] => (Ptr a l, false)
  | c :: l1 =>
      if c =? 0 then (Ptr a l, false)
      else if c =? $"\" then
        match l1 with
        | [] => (Ptr (a + 1) l1, true)
        | x :: l2 => if is_821_X x then qtext_loop (a + 2) l2 else (Ptr (a + 1) l1, true)
        end
      else if is_821_Q c then qtext_loop (a + 1) l1
      else (Ptr a l, false)
  end.

Definition rfc821_qtext (s : ptr) : scanner :=
  if deref s =? 0 then mret s
  else
    let '(p, fail) := qtext_loop (addr s) (mem s) in
    if deref p >? 127 then
      set_error_at Improper_8bit_character_in_qtext (addr p);; mret s
    else if fail || peq p s then
      set_error_at RFC821_qtext_data_failure (addr p);; mret s
    else mret p.

Definition rfc821_quoted_string (s : ptr) : scanner :=
  if deref s =? 0 then mret s
  else if negb (deref s =? 34) then
    set_error_at Quoted_string_without_initial_quote (addr s);; mret s
  else
    q ← rfc821_qtext (s [+] 1);
    if peq (s [+] 1) q then mret s
    else if negb (deref q =? 34) then
      set_error_at Quoted_string_without_final_quote (addr q);; mret s
    else mret (q [+] 1).

Definition rfc821_localpart (s : ptr) (strict : bool) : scanner :=
  if deref s =? 0 then mret s
  else if deref s =? 34 then
    q ← rfc821_quoted_string s;
    if peq q s then mret s else mret q
  else
    q ← rfc821_dot_string s strict;
    if peq q s then mret s else mret q.

Definition rfc821_mailbox (s : ptr) (strict : bool) : scanner :=
  if deref s =? 0 then mret s
  else
    p ← rfc821_localpart s strict;
    if peq p s then mret s
    else if negb strict && ((deref p =? 0) || (deref p =? $">")) then mret p
    else if deref p =? $":" then
      set_error_at Perhaps_dot_instead_of_colon (addr p);; mret s
    else if negb (deref p =? $"@") then
      set_error_at Missing_at_from_mailbox (addr p);; mret s
    else
      q ← rfc821_domain (p [+] 1);
      if peq q (p [+] 1) then mret s else mret q.

(** The part of [rfc821_path2] behind the source route, at [p]. *)
Definition path2_mailbox (s p : ptr) (strict : bool) : scanner :=
  q ← rfc821_mailbox p strict;
  if peq q p then mret s else mret q.

Definition rfc821_path2 (s : ptr) (strict : bool) : scanner :=
  if deref s =? 0 then set_error_at No_input (addr s);; mret s
  else
    q ← (if deref s =? $"@" then rfc821_adl s else mret s);
    if pgt q s then
      if (deref q =? $">") || (deref q =? $" ") then
        set_error_at No_local_part_before_leading_at (addr q);; mret s
      else if negb (deref q =? $":") then
        set_error_at Missing_colon_from_source_route (addr q);; mret s
      else path2_mailbox s (pinc q) strict
    else path2_mailbox s s strict.

(** [strcpy(q, p)] with [p] behind [q] in one buffer: the string at [p]
    with its NUL moves down to [q], the bytes behind it stay. *)
Definition strcpy_down (q p : ptr) : ptr :=
  let moved := cstr (mem p) ++ [0] in
  Ptr (addr q) (moved ++ drop (length moved) (mem q)).

(** [rfc821_path]; the result pointer and, since blanks in front of the
    [>] are removed from the buffer, the buffer at [s] afterwards. *)
Definition rfc821_path (s : ptr) (strict : bool) : ST rfc821_err (ptr * ptr) :=
  if deref s =? 0 then set_error_at No_input (addr s);; mret (s, s)
  else if negb (deref s =? $"<") then
    set_error_at Missing_lt_from_beginning (addr s);; mret (s, s)
  else if peek s 1 =? 0 then
    set_error_at Premature_end (addr s + 1);; mret (s, s)
  else if peek s 1 =? $">" then mret (s [+] 2, s)
  else
    q ← rfc821_path2 (s [+] 1) strict;
    if peq q (s [+] 1) then mret (s, s)
    else
      let q' := if is_blank (deref q) then strcpy_down q (skip_while is_blank q) else q in
      let s' := Ptr (addr s) (take (Z.to_nat (psub q s)) (mem s) ++ mem q') in
      if negb (deref q' =? $">") then
        set_error_at (if deref q' =? 0 then Missing_gt_at_end
                      else Extra_garbage_before_terminating_gt) (addr q');;
        mret (s', s')
      else mret (q' [+] 1, s').

(** smtpcmds.c: the [ORCPT=] value and the HELO argument. *)
Definition orcpt_string (s : ptr) : ST rfc821_err (option ptr) :=
  stro ← rfc822atom s;
  if peq stro s then mret None
  else if negb (deref stro =? $";") then
    modify (fun e => Err (rfc821_error e) (Some (addr stro - 1)));; mret None
  else
    s2 ← xtext_string (stro [+] 1);
    if peq s2 (stro [+] 1) then mret None else mret (Some s2).

Definition partridge (s : ptr) : ST rfc821_err bool :=
  p ← rfc821_domain s;
  if peq p s then mret true
  else if deref p =? 0 then mret false
  else set_error_at Spurious_junk_after_DOMAIN (addr p);; mret true.
