(* ===== verification/Rfc821Grammar.v ===== *)
(** * The grammar behind the RFC 821 scanner

    The languages named in the comments of smtpserver/rfc821scn.c, as
    predicates on character strings, and the proof that each scanner of
    Rfc821.v recognises them: what it consumes is a word of its language,
    it never leaves the C string, and a failure is reported in
    [rfc821_error]. *)

From Stdlib Require Import ZArith Lia.
From stdpp Require Import base tactics numbers list option.
From S2P Require Import Prelude Rfc821.

#[local] Open Scope Z_scope.

(** ** Languages *)

Module Grammar.

Definition lang := list Z -> Prop.

(** Words joined by a separator character. *)
Fixpoint join (sep : Z) (ls : list (list Z)) : list Z :=
  match ls with
  | [] => []
  | [l] => l
  | l :: ls' => l ++ sep :: join sep ls'
  end.

(** <name> *)
Definition name (w : list Z) : Prop :=
  exists c w', w = c :: w' /\ is_821_alnum c = true /\ forallb is_name_char w' = true.
Definition numeric (w : list Z) : bool :=
  negb (existsb (fun c => is_821_alpha c || (c =? $"-")) w).

(** <snum> and <dotnum> *)
Definition snum (w : list Z) : Prop :=
  forallb is_821_digit w = true /\ (1 <= length w <= 3)%nat /\
  fold_left (fun v c => v * 10 + (c - $"0")) w 0 <= 255.
Definition dotquad (w : list Z) : Prop :=
  exists a b c d, w = join $"." [a; b; c; d] /\ Forall snum [a; b; c; d].

(** A group of an IPv6 address: its value, as the scanner computes it,
    fits in 16 bits ([hexgroup_digits] says what that means). *)
Definition group_value (w : list Z) : Z :=
  fold_left (fun v c => Z.lor (Z.shiftl v 4) (v6_digit_value c)) w 0.
Definition hexgroup (w : list Z) : Prop :=
  w <> [] /\ forallb is_821_xdigit w = true /\ group_value w <= 0xffff.

(** Groups that are each followed by a colon. *)
Definition colons (gs : list (list Z)) : list Z := concat ((fun g => g ++ [$":"]) <$> gs).
Definition count_last (last : list Z) : nat := if last is [] then 0 else 1.

(** The addresses [rfc821_v6dotnum] admits: eight groups, or fewer with one
    double colon.  The last group may be missing behind its colon. *)
Definition v6addr (w : list Z) : Prop :=
  exists pre last, Forall hexgroup pre /\ (last = [] \/ hexgroup last) /\
  ((w = colons pre ++ last /\ (length pre + count_last last = 8)%nat) \/
   exists post, Forall hexgroup post /\
     w = (if pre is [] then [$":"] else colons pre) ++ [$":"] ++ colons post ++ last /\
     (length pre + length post + count_last last <= 8)%nat).

Definition dotnum (w : list Z) : Prop :=
  dotquad w \/
  exists tag v, w = tag ++ v /\ length tag = 5%nat /\
    has_prefix_nocase ($$"IPv6:") tag = true /\ v6addr v.

(** <domain> *)
Definition domain_name (w : list Z) : Prop :=
  exists ls, ls <> [] /\ w = join $"." ls /\ Forall name ls /\ forallb numeric ls = false.
Definition domain (w : list Z) : Prop :=
  (exists v, w = $"[" :: v ++ [$"]"] /\ dotnum v) \/
  (exists v, w = $"#" :: v /\ v <> [] /\ forallb is_821_digit v = true) \/
  domain_name w.

(** <a-d-l> *)
Definition adl (w : list Z) : Prop :=
  exists ds, ds <> [] /\ Forall domain ds /\ w = join $"," ((fun d => $"@" :: d) <$> ds).

(** <string>: unquoted characters and quoted pairs *)
Inductive qpairs (plain : Z -> bool) : list Z -> Prop :=
| qpairs_nil : qpairs plain []
| qpairs_plain c w : plain c = true -> c <> $"\" -> c <> 0 -> qpairs plain w -> qpairs plain (c :: w)
| qpairs_pair x w : is_821_X x = true -> qpairs plain w -> qpairs plain ($"\" :: x :: w).

Definition string821 : lang := qpairs is_821_C.
Definition qtext : lang := qpairs is_821_Q.

(** <dot-string> as implemented: without [strict] any segment may be empty,
    with it only the last one. *)
Definition dot_string (strict : bool) (w : list Z) : Prop :=
  w <> [] /\ exists ls l, w = join $"." (ls ++ [l]) /\
  Forall string821 (ls ++ [l]) /\ (strict = true -> Forall (fun v => v <> []) ls).

Definition quoted_string (w : list Z) : Prop :=
  exists v, w = 34 :: v ++ [34] /\ v <> [] /\ qtext v.

Definition local_part (strict : bool) (w : list Z) : Prop :=
  quoted_string w \/ dot_string strict w.

(** <mailbox>; without [strict] the domain may be missing. *)
Definition mailbox (strict : bool) (w : list Z) : Prop :=
  (exists l d, w = l ++ $"@" :: d /\ local_part strict l /\ domain d) \/
  (strict = false /\ local_part strict w).

Definition path2 (strict : bool) (w : list Z) : Prop :=
  mailbox strict w \/
  exists r m, w = r ++ $":" :: m /\ adl r /\ mailbox strict m.

(** <path>, with the blanks tolerated in front of the closing bracket. *)
Definition path (strict : bool) (w : list Z) : Prop :=
  w = [$"<"; $">"] \/
  exists v b, w = $"<" :: v ++ b ++ [$">"] /\ path2 strict v /\ forallb is_blank b = true.

End Grammar.
Import Grammar.

(** ** What a scanner promises *)

(** [r] is the position behind the word [w] at [s]. *)
Definition behind (s : ptr) (w : list Z) (r : ptr) : Prop :=
  mem s = w ++ mem r /\ addr r = addr s + Z.of_nat (length w).

(** [r] is [s], or the position behind a nonempty word of [L] at [s]. *)
Definition scans (L : lang) (s r : ptr) : Prop :=
  r = s \/ exists w, w <> [] /\ behind s w r /\ L w.

Definition has_error (e : rfc821_err) : Prop := rfc821_error e <> None.

(** Recognise [L], and report when nothing was recognised: always, or
    unless the input was empty. *)
Definition scan_report (L : lang) (s r : ptr) (e : rfc821_err) : Prop :=
  scans L s r /\ (r = s -> has_error e).
Definition scan_post (L : lang) (s r : ptr) (e : rfc821_err) : Prop :=
  scans L s r /\ (r = s -> deref s <> 0 -> has_error e).


Lemma behind_padd s w l : mem s = w ++ l -> behind s w (s [+] length w).
Proof. intros H. split; cbn; [|done]. by rewrite H, drop_app_length. Qed.

Lemma behind_length s w r :
  behind s w r -> length (mem s) = (length w + length (mem r))%nat.
Proof. intros [-> _]. apply length_app. Qed.

Lemma behind_trans s1 w1 s2 w2 s3 :
  behind s1 w1 s2 -> behind s2 w2 s3 -> behind s1 (w1 ++ w2) s3.
Proof.
  intros [E1 A1] [E2 A2]. split.
  - by rewrite E1, E2, app_assoc.
  - rewrite length_app. lia.
Qed.

Lemma behind_inc s c : deref s = c -> c <> 0 -> behind s [c] (pinc s).
Proof.
  unfold deref. intros Hd Hc. apply (behind_padd s [c] (tl (mem s))).
  destruct (mem s); cbn in *; congruence.
Qed.

Lemma behind_nil s r : behind s [] r -> r = s.
Proof. intros [E A]. cbn in *. apply ptr_ext; [lia | done]. Qed.

Lemma behind_neq s w r : behind s w r -> w <> [] -> peq r s = false.
Proof.
  intros [_ A] Hw. unfold peq. apply Z.eqb_neq. destruct w; [done|]. cbn in A. lia.
Qed.

Lemma scans_inv_neq L s r :
  scans L s r -> peq r s = false -> exists w, w <> [] /\ behind s w r /\ L w.
Proof. intros [-> | ?] Hne; [|done]. by rewrite peq_refl in Hne. Qed.

Lemma scans_inv_eq L s r : scans L s r -> peq r s = true -> r = s.
Proof.
  intros [-> | (w & Hw & Hb & _)] H; [done|]. by rewrite (behind_neq s w r) in H.
Qed.

Lemma behind_pgt s w r : behind s w r -> w <> [] -> pgt r s = true.
Proof.
  intros [_ A] Hw. unfold pgt. apply Z.ltb_lt. destruct w; [done|]. cbn in A. lia.
Qed.

Lemma pgt_irrefl s : pgt s s = false.
Proof. apply Z.ltb_irrefl. Qed.

Lemma scans_pgt L s r : scans L s r -> pgt r s = negb (peq r s).
Proof.
  intros [-> | (w & Hw & Hb & _)].
  - by rewrite peq_refl, pgt_irrefl.
  - by rewrite (behind_neq s w r), (behind_pgt s w r).
Qed.

Lemma scan_report_post L s r e : scan_report L s r e -> scan_post L s r e.
Proof. intros [? ?]. split; auto. Qed.
#[local] Hint Resolve scan_report_post : core.

Lemma scan_fail L s e : has_error e -> scan_report L s s e.
Proof. intros ?. split; [by left | done]. Qed.

Lemma scan_success (L : lang) s w r e :
  behind s w r -> L w -> w <> [] -> scan_report L s r e.
Proof.
  intros Hb HL Hw. split; [right; by exists w|].
  intros ->. pose proof (behind_neq _ _ _ Hb Hw) as H. by rewrite peq_refl in H.
Qed.

(** Splits a buffer at the longest prefix in a character class. *)
Ltac split_span f s :=
  let w := fresh "w" in let l := fresh "l" in
  let E := fresh "E" in let Hn := fresh "Hn" in
  let Hw := fresh "Hw" in let Hl := fresh "Hl" in
  destruct (span_app f (mem s)) as (w & l & E & Hn & Hw & Hl).

(** Finishes a branch that has just reported an error. *)
Ltac fail_branch := intros; wp_steps; apply scan_fail; done.

(** ** Character class facts *)

Lemma xdigit_nonzero c : is_821_xdigit c = true -> 0 <= c < 256 ->
  0 <= v6_digit_value c < 16 /\ (v6_digit_value c = 0 <-> c = $"0").
Proof.
  intros H Hc.
  assert (implb (is_821_xdigit c)
    ((0 <=? v6_digit_value c) && (v6_digit_value c <? 16) &&
     Bool.eqb (v6_digit_value c =? 0) (c =? $"0")) = true) as Hb.
  { by apply (byte_cases (fun c => implb (is_821_xdigit c)
      ((0 <=? v6_digit_value c) && (v6_digit_value c <? 16) &&
       Bool.eqb (v6_digit_value c =? 0) (c =? $"0")))). }
  rewrite H in Hb. cbn [implb] in Hb. zbool.
  apply Bool.eqb_prop in H1. split; [lia|].
  rewrite <- !Z.eqb_eq. by rewrite H1.
Qed.

Lemma class_nul m : in_class m 0 = false.
Proof. done. Qed.

(** ** <name> *)

Lemma existsb_negb_numeric w :
  existsb (fun c => is_821_alpha c || (c =? $"-")) w = negb (numeric w).
Proof. unfold numeric. by rewrite negb_involutive. Qed.

Definition name_post (s : ptr) (an : bool) (r : ptr * bool) (e : rfc821_err) : Prop :=
  (r = (s, an) /\ (deref s <> 0 -> has_error e)) \/
  exists w, behind s w r.1 /\ name w /\ r.2 = an && numeric w.

Lemma name_nonempty w : name w -> w <> [].
Proof. by intros (c & w' & -> & _). Qed.

Lemma name_spec s an e : wp (rfc821_name s an) (name_post s an) e.
Proof.
  unfold rfc821_name. wp_steps; unfold name_post; cbn [fst snd].
  - left. split; [done|]. zbool. done.
  - by left.
  - right. split_span is_name_char s. rewrite Hn, E, take_app_length.
    unfold deref in *. rewrite E in H0. zbool.
    exists w. split_and!.
    + by eapply behind_padd.
    + destruct w as [|c w].
      * exfalso. destruct Hl as [-> | (c & l' & -> & Hc)]; cbn in *; [done|].
        unfold is_name_char in Hc. apply orb_false_elim in Hc as [Hc _]. congruence.
      * cbn in H0, Hw. apply andb_prop in Hw as [_ Hw]. by exists c, w.
    + by rewrite existsb_negb_numeric, negb_involutive.
Qed.

(** ** <domain> *)

Lemma join_snoc sep ls l : ls <> [] -> join sep (ls ++ [l]) = join sep ls ++ sep :: l.
Proof.
  induction ls as [|x [|y ls] IH]; [done | done |]. intros _.
  change (x ++ sep :: join sep ((y :: ls) ++ [l]) = (x ++ sep :: join sep (y :: ls)) ++ sep :: l).
  rewrite IH by done. by rewrite <- app_assoc.
Qed.

Lemma join_nonempty sep ls : ls <> [] -> Forall (fun l => l <> []) ls -> join sep ls <> [].
Proof. destruct ls as [|x [|y ls]]; [done | by inversion 2 |]. intros _ H. inversion H. by destruct x. Qed.

Lemma names_nonempty ls : Forall name ls -> Forall (fun l => l <> []) ls.
Proof. apply Forall_impl. apply name_nonempty. Qed.

(** The loop state of [rfc821_domain] from [s]: segments recognised up to
    [q], or a segment missing at [q]. *)
Definition domain_inv (s p q : ptr) (an : bool) (e : rfc821_err) : Prop :=
  (exists ls, ls <> [] /\ Forall name ls /\ behind s (join $"." ls) q /\
              an = forallb numeric ls /\ pgt q p = true) \/
  (q = p /\ has_error e).

Lemma domain_loop_spec fuel s p q an e :
  domain_inv s p q an e -> (length (mem q) <= fuel)%nat ->
  wp (domain_loop fuel p q an) (fun res e' =>
    match res with
    | None => has_error e'
    | Some (p', q', an') =>
        domain_inv s p' q' an' e' /\ pgt q' p' && (deref q' =? $".") = false
    end) e.
Proof.
  revert p q an e. induction fuel as [|fuel IH]; intros p q an e Hinv Hf; cbn.
  { wp_steps. split; [done|]. unfold deref. destruct (mem q); cbn in *; [|lia].
    by rewrite andb_false_r. }
  wp_steps; [| |by split].
  - done.
  - zbool. destruct Hinv as [(ls & Hne & Hls & Hb & -> & Hgt) | [-> _]];
      [|by rewrite pgt_irrefl in *].
    pose proof (behind_inc q $"." ltac:(done) ltac:(done)) as Hdot.
    eapply wp_mono; [apply name_spec|]. cbv beta.
    intros [q' an'] e' [[[= -> ->] He] | (w & Hb' & Hw & Han)]; cbn in *.
    + apply IH; [right; auto|]. apply behind_length in Hdot. cbn in Hdot. cbn. lia.
    + apply IH.
      * left. exists (ls ++ [w]). split_and!.
        -- by destruct ls.
        -- apply Forall_app_2; [done | by constructor].
        -- rewrite join_snoc by done.
           eapply behind_trans; [done|]. by eapply (behind_trans _ [_]).
        -- rewrite Han, forallb_app. cbn. by rewrite andb_true_r.
        -- eapply behind_pgt; [done | by apply name_nonempty].
      * apply behind_length in Hdot, Hb'. cbn [length] in Hdot. lia.
Qed.

(** ** <dotnum> *)

Lemma join_cons sep l ls : ls <> [] -> join sep (l :: ls) = l ++ sep :: join sep ls.
Proof. by destruct ls. Qed.

Lemma dotnum_loop_spec k p e :
  wp (dotnum_loop (S k) p) (fun res e' =>
    match res with
    | None => has_error e'
    | Some r => exists ns, length ns = S k /\ Forall snum ns /\
                           behind (pinc p) (join $"." ns) r
    end) e.
Proof.
  revert p e. induction k as [|k IH]; intros p e;
    [|remember (S k) as k' eqn:Ek]; cbn [dotnum_loop];
    split_span is_821_digit (pinc p); rewrite Hn, E, take_app_length;
    apply behind_padd in E as Hb; cbn [Nat.eqb negb andb]; wp_steps; try done; zbool;
    assert (snum w) as Hsw by (split; [done | lia]).
  - exists [w]. split_and!; [done | by constructor | done].
  - destruct H0 as [H0 | H0]; zbool; [subst; by apply Nat.eqb_eq in H0|].
    eapply wp_mono; [apply IH|]. cbv beta.
    intros [r|] e'; [|done]. intros (ns & Hlen & Hns & Hb').
    exists (w :: ns). split_and!; [cbn; lia | by constructor |].
    rewrite join_cons by (by destruct ns; subst).
    eapply behind_trans; [done|]. eapply (behind_trans _ [_]); [|done].
    by apply behind_inc.
Qed.

(** The loop state of [rfc821_v6dotnum]: [t] is the text scanned so far,
    [cur] the digits of the group being read. *)
Definition v6_inv (t : list Z) (saw : bool) (val tpcnt colonidx : Z) : Prop :=
  exists pre cur, Forall hexgroup pre /\ (cur = [] \/ hexgroup cur) /\
  saw = negb (bool_decide (cur = [])) /\ val = group_value cur /\
  ((t = colons pre ++ cur /\ colonidx = -1 /\ tpcnt = 2 * Z.of_nat (length pre)) \/
   exists post, Forall hexgroup post /\
     t = colons pre ++ [$":"] ++ colons post ++ cur /\
     0 <= colonidx /\ tpcnt = 2 * Z.of_nat (length pre + length post)) /\ tpcnt <= 16.

Lemma colons_snoc gs g : colons (gs ++ [g]) = colons gs ++ g ++ [$":"].
Proof. unfold colons. rewrite fmap_app, concat_app. cbn. by rewrite app_nil_r. Qed.

Lemma group_value_snoc w c :
  group_value (w ++ [c]) = Z.lor (Z.shiftl (group_value w) 4) (v6_digit_value c).
Proof. unfold group_value. by rewrite fold_left_app. Qed.

Lemma v6_inv_digit t saw val tpcnt ci ch :
  v6_inv t saw val tpcnt ci -> is_821_xdigit ch = true ->
  Z.lor (Z.shiftl val 4) (v6_digit_value ch) <= 0xffff ->
  v6_inv (t ++ [ch]) true (Z.lor (Z.shiftl val 4) (v6_digit_value ch)) tpcnt ci.
Proof.
  intros (pre & cur & Hpre & Hcur & _ & -> & Ht & Hle) Hx Hv.
  exists pre, (cur ++ [ch]). split_and!; [done | | | | | done].
  - right. split_and!.
    + by destruct cur.
    + rewrite forallb_app. cbn. rewrite Hx.
      destruct Hcur as [-> | (_ & -> & _)]; done.
    + by rewrite group_value_snoc.
  - by destruct cur.
  - by rewrite group_value_snoc.
  - destruct Ht as [(-> & ? & ?) | (post & ? & -> & ? & ?)].
    + left. by rewrite app_assoc.
    + right. exists post. split_and!; try done. by rewrite <- !app_assoc.
Qed.

Lemma v6_inv_colon t val tpcnt ci :
  v6_inv t true val tpcnt ci -> tpcnt + 2 <= 16 ->
  v6_inv (t ++ [$":"]) false 0 (tpcnt + 2) ci.
Proof.
  intros (pre & cur & Hpre & Hcur & Hsaw & -> & Ht & _) Hle.
  destruct Hcur as [-> | Hcur]; [done|].
  destruct Ht as [(-> & ? & ?) | (post & Hpost & -> & ? & ?)].
  - exists (pre ++ [cur]), []. split_and!; try done; [|by left|].
    + apply Forall_app_2; [done | by constructor].
    + left. rewrite colons_snoc, length_app. cbn. split_and!; [|done|lia].
      by rewrite app_nil_r, <- app_assoc.
  - exists pre, []. split_and!; try done; [by left|].
    right. exists (post ++ [cur]). split_and!; try done.
    + apply Forall_app_2; [done | by constructor].
    + rewrite colons_snoc, app_nil_r. by rewrite <- !app_assoc.
    + rewrite length_app. cbn. lia.
Qed.

Lemma v6_inv_double t val tpcnt ci :
  v6_inv t false val tpcnt ci -> ci < 0 -> v6_inv (t ++ [$":"]) false val tpcnt tpcnt.
Proof.
  intros (pre & cur & Hpre & Hcur & Hsaw & -> & Ht & Hle) Hci.
  destruct cur; [|done]. destruct Ht as [(-> & ? & ?) | (post & ? & ? & ? & ?)]; [|lia].
  exists pre, []. split_and!; try done. right. exists [].
  rewrite app_nil_r. cbn. split_and!; try done; lia.
Qed.

(** The position behind the first group, where an embedded dotted quad is
    looked for: the last colon, or the start when there was none. *)
Definition curtok_inv (s curtok : ptr) (t : list Z) (tpcnt colonidx : Z) : Prop :=
  deref curtok = $":" \/
  (curtok = s /\ tpcnt = 0 /\ colonidx = -1 /\ forallb is_821_xdigit t = true).

Definition starts_ipv6 (p : ptr) : Prop := deref p = $"i" \/ deref p = $"I".

Section v6.
(** What [rfc821_v6dotnum] needs of the [rfc821_dotnum] it calls. *)
Context (d : ptr -> scanner).
Hypothesis d_colon : forall p e,
  deref p = $":" -> wp (d p) (fun r e' => r = p /\ has_error e') e.
Hypothesis d_reports : forall p e, ~ starts_ipv6 p ->
  wp (d p) (fun r e' => peq r p = true -> has_error e') e.

Definition v6_loop_post (s : ptr) (res : option (ptr * bool * Z * Z)) (e : rfc821_err) : Prop :=
  match res with
  | None => has_error e
  | Some (src, saw, tpcnt, ci) =>
      (exists t val, behind s t src /\ v6_inv t saw val tpcnt ci) \/
      (saw = false /\ tpcnt = 4 /\ ci = -1)
  end.

Lemma v6_loop_spec l s t a curtok saw val tpcnt ci e :
  behind s t (Ptr a l) -> v6_inv t saw val tpcnt ci ->
  curtok_inv s curtok t tpcnt ci ->
  wp (v6_loop d a l curtok saw val tpcnt ci) (v6_loop_post s) e.
Proof.
  revert t a curtok saw val tpcnt ci e.
  induction l as [|ch l IH]; intros t a curtok saw val tpcnt ci e Hb Hinv Hcur; cbn.
  { wp_steps. left. by exists t, val. }
  assert (ch <> 0 -> behind s (t ++ [ch]) (Ptr (a + 1) l)) as Hnext.
  { intros ?. eapply behind_trans; [done|]. by apply (behind_inc (Ptr a (ch :: l)) ch). }
  wp_steps; zbool; try done.
  - left. by exists t, val.
  - eapply IH; [auto | by eapply v6_inv_digit |].
    destruct Hcur as [? | (-> & ? & ? & Ht)]; [by left|]. right. split_and!; try done.
    rewrite forallb_app, Ht. cbn. by rewrite H0.
  - subst saw ch. eapply IH; [auto | eapply v6_inv_double; [done|lia] | by left].
  - subst saw ch. eapply IH; [auto | by eapply v6_inv_colon | by left].
  - destruct Hcur as [Hc | (-> & -> & -> & Ht)].
    + eapply wp_mono; [by apply d_colon|]. cbv beta. intros r e' [-> ?].
      wp_steps; [done|]. by rewrite peq_refl in *.
    + eapply wp_mono; [apply d_reports|].
      * destruct Hb as [Hm _]. unfold starts_ipv6, deref. rewrite Hm.
        destruct t as [|c t]; cbn.
        -- subst ch. intros [? | ?]; lia.
        -- cbn in Ht. intros [-> | ->]; done.
      * cbv beta. intros r e' Hr. wp_steps; [cbn; auto|]. cbn. by right.
Qed.

Lemma group_head g : hexgroup g -> exists c g', g = c :: g' /\ c <> $":" /\ c <> 0.
Proof.
  intros (Hne & Hx & _). destruct g as [|c g]; [done|]. cbn in Hx. zbool.
  exists c, g. split_and!; [done | by intros -> | by intros ->].
Qed.

(** The text starts with a colon exactly when no group precedes the
    double colon. *)
Lemma v6_inv_head t saw val tpcnt ci :
  v6_inv t saw val tpcnt ci -> t <> [] ->
  exists pre cur, Forall hexgroup pre /\ (cur = [] \/ hexgroup cur) /\
    saw = negb (bool_decide (cur = [])) /\
    ((hd 0 t <> $":" /\ t = colons pre ++ cur /\ ci = -1 /\
      tpcnt = 2 * Z.of_nat (length pre)) \/
     exists post, Forall hexgroup post /\ t = colons pre ++ [$":"] ++ colons post ++ cur /\
       0 <= ci /\ tpcnt = 2 * Z.of_nat (length pre + length post) /\
       (hd 0 t = $":" <-> pre = [])) /\ tpcnt <= 16.
Proof.
  intros (pre & cur & Hpre & Hcur & -> & _ & Ht & Hle) Hne.
  exists pre, cur. split_and!; try done.
  destruct Ht as [(-> & -> & ->) | (post & Hpost & -> & Hci & ->)].
  - left. split_and!; try done. destruct pre as [|g pre].
    + destruct Hcur as [-> | (c & g & -> & ? & _)%group_head]; [done|]. by cbn.
    + apply Forall_cons_1 in Hpre as [(c & g' & -> & ? & _)%group_head _]. by cbn.
  - right. exists post. split_and!; try done. destruct pre as [|g pre]; [done|].
    apply Forall_cons_1 in Hpre as [(c & g' & -> & ? & _)%group_head _]. by cbn.
Qed.

Lemma v6_inv_final t saw val tpcnt ci :
  v6_inv t saw val tpcnt ci -> t <> [] ->
  saw && (tpcnt + 2 >? 16) = false ->
  (if 0 <=? ci then 16 else if saw then tpcnt + 2 else tpcnt) = 16 ->
  v6addr (if hd 0 t =? $":" then $":" :: t else t).
Proof.
  intros Hinv Hne Hs Hfin.
  destruct (v6_inv_head _ _ _ _ _ Hinv Hne) as (pre & cur & Hpre & Hcur & -> & Ht & Hle).
  assert (2 * Z.of_nat (count_last cur) =
          if negb (bool_decide (cur = [])) then 2 else 0) as Hcl by (by destruct cur).
  exists pre, cur. split_and!; try done.
  destruct Ht as [(Hh & -> & -> & Htp) | (post & Hpost & -> & Hci & Htp & Hh)].
  - left. apply Z.eqb_neq in Hh as ->. split; [done|].
    cbn in Hfin. destruct (negb _); lia.
  - right. exists post. split_and!; [done | |].
    + destruct (Z.eqb_spec (hd 0 (colons pre ++ [$":"] ++ colons post ++ cur)) $":") as [E|E].
      * apply Hh in E as ->. done.
      * destruct pre; [by destruct E; apply Hh | done].
    + destruct (negb _) eqn:?; cbn in Hs; zbool; lia.
Qed.

Lemma v6_inv_nonempty t saw val tpcnt ci :
  v6_inv t saw val tpcnt ci ->
  (if 0 <=? ci then 16 else if saw then tpcnt + 2 else tpcnt) = 16 -> t <> [].
Proof.
  intros (pre & cur & _ & _ & -> & _ & Ht & _) Hfin ->.
  destruct Ht as [(Ht & -> & ->) | (post & _ & Ht & _)]; [|by destruct pre as [|[]]].
  destruct pre as [|[]]; try done. by destruct cur.
Qed.

Lemma v6dotnum_spec s e : wp (rfc821_v6dotnum d s) (scan_report v6addr s) e.
Proof.
  unfold rfc821_v6dotnum. wp_steps; [by apply scan_fail|].
  set (src := if deref s =? $":" then pinc s else s).
  eapply wp_mono.
  { apply (v6_loop_spec _ src []); [by destruct src; split; cbn; [|lia] | |].
    - exists [], []. split_and!; try done; [by left | by left].
    - right. by split_and!. }
  cbv beta. intros [[[[src' saw] tpcnt] ci]|] e' Hres; cbn in Hres; wp_steps;
    try (by apply scan_fail).
  apply negb_false_iff, Z.eqb_eq in H1.
  destruct Hres as [(t & val & Hb & Hinv) | (-> & -> & ->)]; [|done].
  pose proof (v6_inv_nonempty _ _ _ _ _ Hinv H1) as Hne.
  pose proof (v6_inv_final _ _ _ _ _ Hinv Hne H0 H1) as Hv6.
  assert (hd 0 t = deref src) as Hd.
  { destruct Hb as [Hm _]. unfold deref. rewrite Hm. by destruct t. }
  rewrite Hd in Hv6. subst src. destruct (Z.eqb_spec (deref s) $":") as [Es|Es].
  - cbn in H. zbool.
    assert (deref (pinc s) = $":") as E1.
    { unfold deref, peek in *. cbn. by destruct (mem s) as [|? []]. }
    rewrite E1 in Hv6. eapply scan_success; [|exact Hv6|done].
    eapply (behind_trans _ [_]); [|done]. by apply behind_inc.
  - apply Z.eqb_neq in Es. rewrite Es in Hv6. by eapply scan_success.
Qed.
End v6.

Lemma dotnum_loop_digit p e :
  is_821_digit (deref (pinc p)) = false -> 
  wp (dotnum_loop 4 p) (fun res e' => res = None /\ has_error e') e.
Proof.
  intros Hd. cbn [dotnum_loop].
  assert (span is_821_digit (mem (pinc p)) = 0%nat) as ->.
  { unfold deref in Hd. destruct (mem (pinc p)); cbn in *; [done | by rewrite Hd]. }
  rewrite take_0. cbn. done.
Qed.

Lemma pinc_pdec s : pinc (pdec s) = s.
Proof. apply ptr_ext; cbn; [lia | done]. Qed.

Lemma not_starts_ipv6 p : ~ starts_ipv6 p -> (deref p =? $"i") || (deref p =? $"I") = false.
Proof. intros H. unfold starts_ipv6 in H. destruct (_ || _) eqn:E; [|done]. zbool. destruct E; zbool; tauto. Qed.

Lemma dotnum_fuel_colon n p e :
  deref p = $":" -> wp (rfc821_dotnum_fuel (S n) p) (fun r e' => r = p /\ has_error e') e.
Proof.
  intros Hd. cbn [rfc821_dotnum_fuel].
  rewrite not_starts_ipv6 by (unfold starts_ipv6; lia). wp_steps.
  eapply wp_mono; [apply dotnum_loop_digit; by rewrite pinc_pdec, Hd|].
  cbv beta. intros res e' [-> He]. by wp_steps.
Qed.

Lemma dotnum_fuel_quad n s e :
  ~ starts_ipv6 s -> wp (rfc821_dotnum_fuel (S n) s) (scan_report dotquad s) e.
Proof.
  intros Hs. cbn [rfc821_dotnum_fuel]. rewrite not_starts_ipv6 by done. wp_steps.
  eapply wp_mono; [apply dotnum_loop_spec|]. cbv beta. intros [r|] e' Hr; wp_steps; cbn.
  - destruct Hr as (ns & Hlen & Hns & Hb). rewrite pinc_pdec in Hb.
    destruct ns as [|a [|b [|c [|d []]]]]; try done.
    eapply scan_success; [done | by exists a, b, c, d |]. by destruct a.
  - by apply scan_fail.
Qed.

Lemma dotnum_fuel_spec n s e :
  wp (rfc821_dotnum_fuel (S (S n)) s) (scan_report Grammar.dotnum s) e.
Proof.
  destruct ((deref s =? $"i") || (deref s =? $"I")) eqn:Ei.
  - remember (S n) as n1 eqn:En. cbn [rfc821_dotnum_fuel]. rewrite Ei.
    wp_steps; [|by apply scan_fail].
    eapply wp_mono.
    { subst n1. apply v6dotnum_spec; [intros; by apply dotnum_fuel_colon|].
      intros p e0 Hp. eapply wp_mono; [by apply dotnum_fuel_quad|].
      cbv beta. intros r e' [Hs He] Hr. apply He. by eapply scans_inv_eq. }
    cbv beta. intros r e' [Hs He]. wp_steps.
    + apply scan_fail, He. by eapply scans_inv_eq.
    + destruct (scans_inv_neq _ _ _ Hs) as (w & Hw & Hb & Hv6); [done|].
      assert (5 <= length (mem s))%nat as Hlen.
      { destruct (mem s) as [|? [|? [|? [|? [|? ?]]]]]; cbn in H; zbool;
          try done; cbn; lia. }
      eapply (scan_success _ _ (take 5 (mem s) ++ w)).
      * eapply behind_trans; [|done].
        pose proof (behind_padd s (take 5 (mem s)) (drop 5 (mem s))) as Hp.
        rewrite length_take_le in Hp by done. apply Hp. by rewrite take_drop.
      * right. exists (take 5 (mem s)), w. split_and!; try done.
        -- by rewrite length_take_le.
        -- by destruct (mem s) as [|? [|? [|? [|? [|? ?]]]]].
      * by destruct (mem s).
  - eapply wp_mono; [apply dotnum_fuel_quad|].
    + unfold starts_ipv6. apply orb_false_elim in Ei as [? ?]. zbool. tauto.
    + cbv beta. intros r e' [Hs He]. split; [|done].
      destruct Hs as [-> | (w & ? & ? & ?)]; [by left|]. right. exists w. split_and!; try done. by left.
Qed.

Lemma scans_weaken (L M : lang) s r :
  (forall w, L w -> M w) -> scans L s r -> scans M s r.
Proof. intros HLM [-> | (w & ? & ? & ?)]; [by left|]. right. exists w. auto. Qed.

Lemma rfc821_dotnum_spec s e : wp (rfc821_dotnum s) (scan_report Grammar.dotnum s) e.
Proof.
  unfold rfc821_dotnum. destruct (mem s) as [|c l] eqn:E.
  - eapply wp_mono; [apply dotnum_fuel_quad; unfold starts_ipv6, deref; rewrite E; cbn; lia|].
    cbv beta. intros r e' [Hs He]. split; [|done].
    eapply scans_weaken; [|done]. by left.
  - apply dotnum_fuel_spec.
Qed.

#[local] Hint Resolve scan_fail : core.

Lemma deref_neq0 s c : (deref s =? c) = true -> c <> 0 -> deref s = c /\ behind s [c] (s [+] 1).
Proof. intros H Hc. zbool. split; [done|]. by apply behind_inc. Qed.

Lemma domain_spec s e : wp (rfc821_domain s) (scan_report domain s) e.
Proof.
  unfold rfc821_domain. wp_steps; try (by apply scan_fail).
  - (* "[" <dotnum> "]" *)
    apply deref_neq0 in H0 as [_ Hopen]; [|done].
    eapply wp_mono; [apply rfc821_dotnum_spec|]. cbv beta. intros q e' [Hs He].
    wp_steps; try (by apply scan_fail).
    + apply scan_fail, He. by eapply scans_inv_eq.
    + destruct (scans_inv_neq _ _ _ Hs) as (w & Hw & Hb & Hd); [done|]. zbool.
      eapply (scan_success _ _ ([$"["] ++ w ++ [$"]"])); [|by left; exists w|done].
      do 2 (eapply behind_trans; [done|]). by apply behind_inc.
  - (* "#" <number> *)
    apply deref_neq0 in H1 as [_ Hhash]; [|done].
    split_span is_821_digit (s [+] 1). unfold skip_while in *. rewrite Hn in *.
    apply behind_padd in E as Hb.
    assert (w <> []) by (intros ->; by rewrite padd_0, pgt_irrefl in H2).
    eapply (scan_success _ _ ([$"#"] ++ w)); [by eapply behind_trans | |done].
    right. left. by exists w.
  - (* <name> "." ... *)
    eapply wp_mono; [apply name_spec|]. cbv beta. intros [q an] e' Hname.
    wp_steps. eapply wp_mono; [apply (domain_loop_spec _ s)|].
    + destruct Hname as [[[= -> ->] He] | (w & Hb & Hw & Han)].
      * right. zbool. auto.
      * left. exists [w]. cbn in *. split_and!; try done; [by constructor| |].
        -- by rewrite Han, andb_true_r.
        -- eapply behind_pgt; [done | by apply name_nonempty].
    + destruct Hname as [[[= -> ->] _] | (w & Hb & _)]; [done|].
      apply behind_length in Hb. cbn in *. lia.
    + cbv beta. intros [[[p q'] an']|] e'' Hres; wp_steps; try (by apply scan_fail).
      apply wp_mono with (Q := fun _ e3 => has_error e3).
      { destruct e'' as [[] ?]; done. }
      intros _ e3 He3. wp_steps; [by apply scan_fail|].
      destruct Hres as [[(ls & Hne & Hls & Hb & -> & _) | [-> _]] _].
      * eapply scan_success; [done | |].
        -- right. right. by exists ls.
        -- apply join_nonempty; [done | by apply names_nonempty].
      * by rewrite peq_refl in *.
Qed.

Lemma at_domain_spec s e :
  wp (rfc821_at_domain s)
     (scan_post (fun w => exists d, w = $"@" :: d /\ domain d) s) e.
Proof.
  unfold rfc821_at_domain. wp_steps; try (by apply scan_report_post, scan_fail).
  - zbool. split; [by left | done].
  - apply negb_false_iff, deref_neq0 in H0 as [_ Hat]; [|done].
    eapply wp_mono; [apply domain_spec|]. cbv beta. intros q e' [Hs He].
    wp_steps; [by apply scan_report_post, scan_fail|].
    destruct (scans_inv_neq _ _ _ Hs) as (w & Hw & Hb & Hd); [done|].
    apply scan_report_post.
    eapply (scan_success _ _ ([$"@"] ++ w)); [by eapply behind_trans | by exists w | done].
Qed.

(** ** <a-d-l> *)

Definition at_words (ds : list (list Z)) : list (list Z) := (fun d => $"@" :: d) <$> ds.

Lemma at_words_snoc ds d : at_words (ds ++ [d]) = at_words ds ++ [$"@" :: d].
Proof. unfold at_words. by rewrite fmap_app. Qed.

Lemma at_words_nonempty ds : Forall (fun w => w <> []) (at_words ds).
Proof. apply Forall_fmap, Forall_true. by intros. Qed.

Lemma adl_loop_spec fuel s p ds e :
  Forall domain ds ->
  (p = s /\ ds = [] \/ ds <> [] /\ behind s (join $"," (at_words ds) ++ [$","]) p) ->
  wp (adl_loop fuel s p) (fun r _ => scans adl s r) e.
Proof.
  revert p ds e. induction fuel as [|fuel IH]; intros p ds e Hds Hp; cbn; wp_steps;
    [by left|].
  eapply wp_mono; [apply at_domain_spec|]. cbv beta. intros q e' [Hs _].
  wp_steps; [| |by left].
  all: rewrite (scans_pgt _ _ _ Hs) in H; zbool.
  all: destruct (scans_inv_neq _ _ _ Hs) as (w & Hw & Hb & d & -> & Hd); [done|].
  all: assert (Forall domain (ds ++ [d])) by (apply Forall_app_2; [done | by constructor]).
  all: assert (behind s (join $"," (at_words (ds ++ [d]))) q) as Hbq.
  1,3: rewrite at_words_snoc; destruct Hp as [[-> ->] | [Hne Hp]]; [by apply Hb|];
    rewrite join_snoc, cons_middle, app_assoc by (by destruct ds);
    by eapply behind_trans.
  - right. eexists. split_and!; [|exact Hbq|].
    + apply join_nonempty; [by destruct ds | apply at_words_nonempty].
    + exists (ds ++ [d]). split_and!; try done. by destruct ds.
  - eapply (IH _ (ds ++ [d])); [done|]. right. split; [by destruct ds|].
    eapply behind_trans; [done|]. by apply behind_inc.
Qed.

Lemma adl_spec s e : wp (rfc821_adl s) (fun r _ => scans adl s r) e.
Proof.
  unfold rfc821_adl. wp_steps; [by left|]. apply (adl_loop_spec _ _ _ []); auto.
Qed.

(** The fuel of the loop is enough: more does not change the result. *)
Lemma adl_loop_fuel f1 f2 s p e :
  (length (mem p) < f1)%nat -> (length (mem p) < f2)%nat ->
  adl_loop f1 s p e = adl_loop f2 s p e.
Proof.
  revert f2 p e. induction f1 as [|f1 IH]; intros [|f2] p e H1 H2; try lia.
  cbn. unfold mbind, st_bind.
  pose proof (at_domain_spec p e) as Hw. unfold wp in Hw.
  destruct (rfc821_at_domain p e) as [q e'] eqn:E. destruct Hw as [Hs _]. cbn in Hs.
  destruct (pgt q p) eqn:Hgt; [|done]. destruct (negb _) eqn:Hc; [done|].
  rewrite (scans_pgt _ _ _ Hs) in Hgt. zbool.
  destruct (scans_inv_neq _ _ _ Hs) as (w & Hw & Hb & _); [done|].
  apply behind_length in Hb. apply (behind_inc _ $",") in Hc; [|done].
  apply behind_length in Hc. destruct w; [done|]. cbn [length] in *.
  apply IH; lia.
Qed.

(** ** <string> and <dot-string> *)

Lemma rfc821_char_spec s :
  rfc821_char s = s \/
  exists w, behind s w (rfc821_char s) /\ w <> [] /\ forall v, string821 v -> string821 (w ++ v).
Proof.
  unfold rfc821_char, peek. destruct (deref s =? 0) eqn:E0; [by left|].
  destruct (deref s =? $"\") eqn:E1.
  - destruct (is_821_X _) eqn:EX; [|by left]. right. cbn.
    unfold deref in E1. destruct (mem s) as [|c [|x l]] eqn:E; try done. cbn in *. zbool.
    exists [$"\"; x]. split_and!; [|done|by constructor]. subst c.
    by apply (behind_padd s [_; x] l).
  - destruct (is_821_C _) eqn:EC; [|by left]. right. exists [deref s]. zbool.
    split_and!; [|done|by constructor]. by apply behind_inc.
Qed.

Lemma string_loop_spec fuel s :
  (length (mem s) < fuel)%nat ->
  exists w, behind s w (string_loop fuel s) /\ string821 w /\
            pgt (rfc821_char (string_loop fuel s)) (string_loop fuel s) = false.
Proof.
  revert s. induction fuel as [|fuel IH]; intros s Hf; [lia|]. cbn.
  destruct (rfc821_char_spec s) as [E | (w & Hb & Hw & Hc)].
  - exists []. rewrite E, pgt_irrefl. split_and!; [split; cbn; [done|lia] | constructor |].
    by rewrite E, pgt_irrefl.
  - rewrite (behind_pgt _ _ _ Hb Hw). pose proof (behind_length _ _ _ Hb) as Hl.
    destruct (IH (rfc821_char s)) as (v & Hv & Hs & Hstop).
    { destruct w; [done|]. cbn in Hl. lia. }
    exists (w ++ v). split_and!; [by eapply behind_trans | auto | done].
Qed.

Lemma string_spec s e : wp (rfc821_string s) (scan_post string821 s) e.
Proof.
  unfold rfc821_string.
  destruct (string_loop_spec (S (length (mem s))) s) as (w & Hb & Hs & _); [lia|].
  set (q := string_loop _ s) in *.
  wp_steps; try (by apply scan_report_post, scan_fail).
  - zbool. by split; [left|].
  - assert (q = s) as ->.
    { destruct w; [by apply behind_nil|]. by rewrite (behind_neq _ _ _ Hb) in H1. }
    by apply scan_report_post, scan_fail.
  - apply scan_report_post. eapply scan_success; [done..|]. intros ->.
    apply behind_nil in Hb as ->. by rewrite peq_refl in H1.
Qed.

(** The loop state of [rfc821_dot_string]: segments up to [q]. *)
Definition dot_inv (strict : bool) (s q : ptr) : Prop :=
  exists ls l, behind s (join $"." (ls ++ [l])) q /\ Forall string821 (ls ++ [l]) /\
    (strict = true -> Forall (fun v => v <> []) ls) /\
    (strict = true -> l = [] -> deref q <> $".").

Lemma dot_string_loop_spec fuel strict s q e :
  dot_inv strict s q ->
  wp (dot_string_loop fuel strict q) (fun res e' =>
    match res with
    | None => has_error e'
    | Some r => dot_inv strict s r /\ (r = q /\ e' = e \/ addr q < addr r)
    end) e.
Proof.
  revert q e. induction fuel as [|fuel IH]; intros q e Hinv; cbn; wp_steps; try by auto.
  apply deref_neq0 in H as [Hdot Hb1]; [|done].
  destruct Hinv as (ls & l & Hb & Hf & Hst & Hlast).
  eapply wp_mono; [apply string_spec|]. cbv beta. intros q' e' [Hs He].
  assert (exists l', behind (q [+] 1) l' q' /\ string821 l') as (l' & Hb' & Hl').
  { destruct Hs as [-> | (w & _ & ? & ?)]; [|by exists w].
    exists []. split; [by split; cbn; [|lia] | constructor]. }
  apply wp_if; intros Hc.
  { zbool. assert (has_error e') by (apply He; [by eapply scans_inv_eq | lia]).
    by destruct (deref q' =? $"@"); wp_steps. }
  eapply wp_mono; [apply IH|].
  - exists (ls ++ [l]), l'. split_and!.
    + rewrite join_snoc by (by destruct ls). eapply behind_trans; [done|].
      by eapply (behind_trans _ [_]).
    + apply Forall_app_2; [done | by constructor].
    + intros Hstr. apply Forall_app_2; [auto|]. constructor; [|done].
      intros ->. by apply Hlast.
    + intros -> ->. apply behind_nil in Hb' as ->. rewrite peq_refl in Hc. cbn in Hc. by zbool.
  - cbv beta. intros [r|] e''; [|done]. intros [Hr Hadv]. split; [done|]. right.
    destruct Hb1 as [_ A1], Hb' as [_ A2]. cbn in A1.
    destruct Hadv as [[-> _] | ?]; cbn in *; lia.
Qed.

(** At the exit of the loop there is no dot left. *)
Lemma dot_string_loop_exit fuel strict q e :
  (length (mem q) < fuel)%nat ->
  wp (dot_string_loop fuel strict q) (fun res _ =>
    forall r, res = Some r -> deref r <> $".") e.
Proof.
  revert q e. induction fuel as [|fuel IH]; intros q e Hf; [lia|]. cbn.
  wp_steps; [|zbool; by intros ? [= <-]].
  apply deref_neq0 in H as [_ Hb1%behind_length]; [|done].
  eapply wp_mono; [apply string_spec|]. cbv beta. intros q' e' [Hs _].
  apply wp_if; intros Hc; [by destruct (deref q' =? $"@"); wp_steps|].
  apply IH. cbn [length] in *. destruct Hs as [-> | (w & _ & Hb%behind_length & _)]; lia.
Qed.

Lemma dot_inv_success strict s r e :
  dot_inv strict s r -> addr s < addr r -> scan_post (dot_string strict) s r e.
Proof.
  intros (ls & l & Hb & Hf & Hst & _) Hlt. apply scan_report_post.
  assert (join $"." (ls ++ [l]) <> []) as Hne.
  { intros E. rewrite E in Hb. apply behind_nil in Hb as ->. lia. }
  eapply scan_success; [done | | done]. split; [done|]. by exists ls, l.
Qed.

Lemma dot_string_spec strict s e :
  wp (rfc821_dot_string s strict) (scan_post (dot_string strict) s) e.
Proof.
  unfold rfc821_dot_string. wp_steps; [zbool; by split; [left|]|].
  eapply wp_mono; [apply string_spec|]. cbv beta. intros q e' [Hs He]. zbool.
  wp_steps.
  { apply scan_report_post, scan_fail. zbool. apply He; [by eapply scans_inv_eq | done]. }
  eapply wp_mono; [apply (dot_string_loop_spec _ _ s)|].
  - destruct Hs as [-> | (w & Hw & Hb & Hsw)].
    + exists [], []. rewrite peq_refl in H0. split_and!.
      * split; cbn; [done | lia].
      * repeat constructor.
      * by constructor.
      * intros -> _. cbn in H0. by zbool.
    + exists [], w. split_and!; [done | by constructor | by constructor | done].
  - cbv beta. intros [r|] e'' Hr; wp_steps; cbn.
    + destruct Hr as [Hinv Hadv]. destruct Hs as [-> | (w & Hw & Hb & Hsw)].
      * destruct Hadv as [[-> ->] | Hlt]; [|by apply dot_inv_success].
        apply scan_report_post, scan_fail. auto.
      * apply dot_inv_success; [done|]. destruct Hb as [_ A]. destruct w; [done|].
        cbn in A. destruct Hadv as [[-> _] | ?]; lia.
    + by apply scan_report_post, scan_fail.
Qed.

(** ** <quoted-string>, <local-part>, <mailbox> *)

Lemma qtext_loop_spec l a :
  let '(p, fail) := qtext_loop a l in
  fail = true \/ exists w, behind (Ptr a l) w p /\ qtext w.
Proof.
  remember (length l) as n eqn:En. revert l a En.
  induction n as [n IH] using lt_wf_ind. intros l a ->.
  assert (exists w, behind (Ptr a l) w (Ptr a l) /\ qtext w) as Hstop.
  { exists []. split; [by split; cbn; [|lia] | constructor]. }
  destruct l as [|c l1]; cbn; [by right|].
  destruct (c =? 0) eqn:E0; [by right|]. destruct (c =? $"\") eqn:E1; zbool.
  - destruct l1 as [|x l2]; [by left|]. destruct (is_821_X x) eqn:EX; [|by left].
    specialize (IH (length l2) ltac:(cbn; lia) l2 (a + 2) eq_refl).
    destruct (qtext_loop (a + 2) l2) as [p fail].
    destruct IH as [-> | (w & [Hm Ha] & Hw)]; [by left|]. right. subst c.
    exists ($"\" :: x :: w). split; [|by constructor].
    cbn in Hm, Ha. split; cbn; [by rewrite Hm | lia].
  - destruct (is_821_Q c) eqn:EQ; [|by right].
    specialize (IH (length l1) ltac:(cbn; lia) l1 (a + 1) eq_refl).
    destruct (qtext_loop (a + 1) l1) as [p fail].
    destruct IH as [-> | (w & [Hm Ha] & Hw)]; [by left|]. right.
    exists (c :: w). split; [|by constructor].
    cbn in Hm, Ha. split; cbn; [by rewrite Hm | lia].
Qed.

Lemma qtext_spec s e : wp (rfc821_qtext s) (scan_post qtext s) e.
Proof.
  unfold rfc821_qtext. wp_steps; [zbool; by split; [left|]|].
  pose proof (qtext_loop_spec (mem s) (addr s)) as Hq.
  destruct (qtext_loop (addr s) (mem s)) as [p fail].
  wp_steps; try (by apply scan_report_post, scan_fail). zbool. subst fail.
  destruct Hq as [? | (w & Hb & Hw)]; [done|].
  apply scan_report_post. eapply scan_success; [exact Hb | done |].
  intros ->. apply behind_nil in Hb as ->. by destruct s; rewrite peq_refl in *.
Qed.

(** The C string ends right behind an opening quote or the colon of a
    source route: the failures that leave [rfc821_error] alone. *)
Definition unfinished (s : ptr) : Prop :=
  exists w c r, behind s (w ++ [c]) r /\ (c = 34 \/ c = $":") /\ deref r = 0.

Definition scan_unless (L : lang) (s r : ptr) (e : rfc821_err) : Prop :=
  scans L s r /\ (r = s -> deref s <> 0 -> has_error e \/ unfinished s).

Lemma scan_post_unless L s r e : scan_post L s r e -> scan_unless L s r e.
Proof. intros [? ?]. split; auto. Qed.

Lemma scan_unless_fail L s e : has_error e -> scan_unless L s s e.
Proof. intros. by apply scan_post_unless, scan_report_post, scan_fail. Qed.

Lemma scan_unless_success (L : lang) s w r e :
  behind s w r -> L w -> w <> [] -> scan_unless L s r e.
Proof. intros. by eapply scan_post_unless, scan_report_post, scan_success. Qed.

Lemma unfinished_behind s w r : behind s w r -> unfinished r -> unfinished s.
Proof.
  intros Hb (v & c & q & Hv & Hc & Hd). exists (w ++ v), c, q. split_and!; try done.
  rewrite <- app_assoc. by eapply behind_trans.
Qed.

Lemma quoted_string_spec s e :
  wp (rfc821_quoted_string s) (scan_unless quoted_string s) e.
Proof.
  unfold rfc821_quoted_string. wp_steps; try (by apply scan_unless_fail).
  { zbool. by split; [left|]. }
  apply negb_false_iff, deref_neq0 in H0 as [_ Hopen]; [|done].
  eapply wp_mono; [apply qtext_spec|]. cbv beta. intros q e' [Hs He].
  assert (peq (s [+] 1) q = peq q (s [+] 1)) as Hsym by apply Z.eqb_sym.
  wp_steps; try (by apply scan_unless_fail).
  - rewrite Hsym in H0. pose proof (scans_inv_eq _ _ _ Hs H0) as Hq.
    split; [by left|]. intros _ _. destruct (decide (deref (s [+] 1) = 0)) as [E|E]; [|auto].
    right. exists [], 34, (s [+] 1). auto.
  - rewrite Hsym in H0. destruct (scans_inv_neq _ _ _ Hs H0) as (w & Hw & Hb & Hq). zbool.
    eapply (scan_unless_success _ _ ([34] ++ w ++ [34])); [|by exists w | done].
    do 2 (eapply behind_trans; [done|]). by apply behind_inc.
Qed.

Lemma localpart_spec strict s e :
  wp (rfc821_localpart s strict) (scan_unless (local_part strict) s) e.
Proof.
  unfold rfc821_localpart. wp_steps; [zbool; by split; [left|] | |].
  - eapply wp_mono; [apply quoted_string_spec|]. cbv beta. intros q e' [Hs He].
    wp_steps.
    + split; [by left|]. intros _. apply He. by eapply scans_inv_eq.
    + destruct (scans_inv_neq _ _ _ Hs H1) as (w & Hw & Hb & Hq).
      eapply scan_unless_success; [done | by left | done].
  - eapply wp_mono; [apply dot_string_spec|]. cbv beta. intros q e' [Hs He].
    wp_steps.
    + split; [by left|]. intros _ Hd. left. apply He; [by eapply scans_inv_eq | done].
    + destruct (scans_inv_neq _ _ _ Hs H1) as (w & Hw & Hb & Hq).
      eapply scan_unless_success; [done | by right | done].
Qed.

Lemma mailbox_spec strict s e :
  wp (rfc821_mailbox s strict) (scan_unless (mailbox strict) s) e.
Proof.
  unfold rfc821_mailbox. wp_steps; [zbool; by split; [left|]|].
  eapply wp_mono; [apply localpart_spec|]. cbv beta. intros p e' [Hs He]. wp_steps;
    try (by apply scan_unless_fail).
  - split; [by left|]. intros _. apply He. by eapply scans_inv_eq.
  - destruct (scans_inv_neq _ _ _ Hs H0) as (w & Hw & Hb & Hl). zbool.
    eapply scan_unless_success; [done | by right | done].
  - destruct (scans_inv_neq _ _ _ Hs H0) as (w & Hw & Hb & Hl).
    apply negb_false_iff, deref_neq0 in H3 as [_ Hat]; [|done].
    eapply wp_mono; [apply domain_spec|]. cbv beta. intros q e'' [Hd He'].
    wp_steps; [apply scan_unless_fail, He'; by eapply scans_inv_eq|].
    destruct (scans_inv_neq _ _ _ Hd H3) as (v & Hv & Hbv & Hdom).
    eapply (scan_unless_success _ _ (w ++ [$"@"] ++ v)).
    + by do 2 (eapply behind_trans; [done|]).
    + left. by exists w, v.
    + by destruct w.
Qed.

(** ** <path> *)

Lemma path2_mailbox_spec strict s p w e :
  behind s w p -> (w = [] \/ exists r, adl r /\ w = r ++ [$":"]) -> deref s <> 0 ->
  wp (path2_mailbox s p strict) (scan_unless (path2 strict) s) e.
Proof.
  intros Hbp Hw Hd. unfold path2_mailbox. wp_steps.
  eapply wp_mono; [apply mailbox_spec|]. cbv beta. intros q e' [Hs He]. wp_steps.
  - split; [by left|]. intros _ _.
    destruct (decide (deref p = 0)) as [E0|E0].
    + right. destruct Hw as [-> | (r & Hr & ->)]; [by apply behind_nil in Hbp as ->|].
      exists r, $":", p. auto.
    + destruct He as [? | ?]; [by eapply scans_inv_eq | done | by left|].
      right. by eapply unfinished_behind.
  - destruct (scans_inv_neq _ _ _ Hs H) as (m & Hm & Hbm & Hmb).
    eapply (scan_unless_success _ _ (w ++ m)); [by eapply behind_trans | | by destruct w].
    destruct Hw as [-> | (r & Hr & ->)]; [by left|]. right. exists r, m.
    by rewrite <- app_assoc.
Qed.

Lemma path2_spec strict s e :
  wp (rfc821_path2 s strict) (fun r e' =>
    scans (path2 strict) s r /\ (r = s -> has_error e' \/ unfinished s)) e.
Proof.
  unfold rfc821_path2. wp_step; [by split; [left | left]|]. zbool.
  apply wp_bind. apply wp_mono with (Q := fun q _ => scans adl s q).
  { wp_steps; [apply adl_spec | by left]. }
  assert (forall r e', scan_unless (path2 strict) s r e' ->
    scans (path2 strict) s r /\ (r = s -> has_error e' \/ unfinished s)) as Hpost.
  { intros r e' [? ?]. auto. }
  intros q e' Hs. wp_steps; try (by apply Hpost, scan_unless_fail).
  - rewrite (scans_pgt _ _ _ Hs) in H0. zbool.
    destruct (scans_inv_neq _ _ _ Hs H0) as (w & Hw & Hb & Hadl).
    eapply wp_mono; [eapply (path2_mailbox_spec _ _ _ (w ++ [$":"]))|apply Hpost]; [|by right; exists w|done].
    eapply behind_trans; [done|]. by apply behind_inc.
  - eapply wp_mono; [eapply (path2_mailbox_spec _ _ _ [])|apply Hpost]; [|by left|done].
    split; cbn; [done | lia].
Qed.

(** What [rfc821_path] promises: [Some w] when the word [w] of the buffer was
    recognised as a path, with the buffer afterwards. *)
Definition path_post (strict : bool) (s : ptr) (r : ptr * ptr) (e : rfc821_err) : Prop :=
  (peq r.1 s = true /\ (has_error e \/ unfinished s)) \/
  (exists w l, w <> [] /\ mem s = w ++ l /\ Grammar.path strict w /\
     exists v, behind r.2 (v ++ [$">"]) r.1 /\ addr r.2 = addr s /\
       exists b, forallb is_blank b = true /\ w = v ++ b ++ [$">"] /\
         cstr (mem r.1) = cstr l /\ (b = [] -> r.2 = s)).

Lemma behind_take s w r : behind s w r -> take (Z.to_nat (psub r s)) (mem s) = w.
Proof.
  intros [E A]. unfold psub. rewrite A, E.
  replace (Z.to_nat _) with (length w) by lia. apply take_app_length.
Qed.

(** Closing bracket of a path at [q], behind the text [v]: blanks are moved
    out of the buffer first. *)
Lemma path_close s v q :
  behind s v q -> 
  let q' := if is_blank (deref q) then strcpy_down q (skip_while is_blank q) else q in
  let s' := Ptr (addr s) (take (Z.to_nat (psub q s)) (mem s) ++ mem q') in
  deref q' = $">" ->
  exists b l, forallb is_blank b = true /\ mem q = b ++ $">" :: l /\
    behind s' (v ++ [$">"]) (q' [+] 1) /\ cstr (mem (q' [+] 1)) = cstr l /\
    (b = [] -> s' = s).
Proof.
  intros Hb q' s' Hd.
  assert (addr q' = addr q) as Haq by (subst q'; by destruct (is_blank _)).
  assert (behind s' v q') as Hs'.
  { subst s'. rewrite (behind_take s v q) by done. split; [done|].
    rewrite Haq. apply Hb. }
  assert (behind s' (v ++ [$">"]) (q' [+] 1)) as Hb'.
  { eapply behind_trans; [done|]. by apply behind_inc. }
  destruct (is_blank (deref q)) eqn:Hq; subst q'.
  - split_span is_blank q. unfold skip_while in *. rewrite Hn in *.
    pose proof (behind_padd q w l E) as [Em _].
    assert (mem (q [+] length w) = l) as El by (rewrite E in Em; by apply app_inv_head in Em).
    unfold strcpy_down in *. rewrite El in *. destruct l as [|c l]; [done|].
    destruct (Z.eq_dec c 0) as [-> | Hc]; [done|]. rewrite cstr_cons in * by done.
    assert (c = $">") by exact Hd. exists w, l.
    split; [done|]. split; [congruence|]. split; [done|]. split.
    + unfold padd. cbn [app mem drop]. rewrite <- app_assoc. apply cstr_app, cstr_not_nul.
    + intros ->. cbn in E. unfold deref in Hq. rewrite E in Hq. cbn in Hq. by replace c with $">" in Hq.
  - exists [], (mem (q [+] 1)). split_and!; try done.
    + apply (behind_inc q $">"); done.
    + intros _. subst s'. apply ptr_ext; [done|]. cbn.
      rewrite (behind_take s v q) by done. symmetry. apply Hb.
Qed.

Lemma path_spec strict s e : wp (rfc821_path s strict) (path_post strict s) e.
Proof.
  assert (forall r s' e', has_error e' -> peq r s = true -> path_post strict s (r, s') e') as Hfail.
  { intros. left. auto. }
  unfold rfc821_path. wp_steps; try (by apply Hfail; [|apply peq_refl]).
  all: apply negb_false_iff, deref_neq0 in H0 as [_ Hlt]; [|done].
  - (* <> *)
    zbool. assert (behind s [$"<"; $">"] (s [+] 2)) as Hb.
    { replace (s [+] 2) with (s [+] 1 [+] 1) by apply padd_padd.
      eapply (behind_trans _ [_]); [done|]. apply behind_inc; [|done].
      unfold deref, peek in *. cbn. by destruct (mem s) as [|? []]. }
    right. exists [$"<"; $">"], (mem (s [+] 2)). split_and!; [done | apply Hb | by left |].
    exists [$"<"]. split_and!; [done | done |]. by exists [].
  - eapply wp_mono; [apply path2_spec|]. cbv beta. intros q e' [Hs He]. wp_steps.
    + left. split; [apply peq_refl|]. destruct He as [? | ?]; [by eapply scans_inv_eq | by left |].
      right. by eapply unfinished_behind.
    + by apply Hfail; [|apply Z.eqb_refl].
    + destruct (scans_inv_neq _ _ _ Hs H0) as (v & Hv & Hb & Hp2). zbool.
      destruct (path_close s ($"<" :: v) q) as (b & l & Hbl & Hm & Hb' & Hc & Hs').
      { by eapply (behind_trans _ [_]). } { done. }
      right. exists ($"<" :: v ++ b ++ [$">"]), l. split_and!; [done | | |].
      * rewrite (proj1 Hlt), (proj1 Hb), Hm. cbn. by rewrite <- !app_assoc.
      * right. by exists v, b.
      * exists ($"<" :: v). split_and!; [done | done |]. by exists b.
Qed.
