(* ===== verification/Rfc821Complete.v ===== *)
(** * The RFC 821 scanner accepts every address of the grammar

    The converse of Rfc821Grammar.v: a mailbox with a domain name or a
    dotted quad between angle brackets is scanned up to and including its
    closing bracket, whatever follows. *)

From Stdlib Require Import ZArith Lia.
From stdpp Require Import base tactics numbers list option.
From S2P Require Import Prelude Rfc821 Rfc821Grammar.
Import Grammar.

#[local] Open Scope Z_scope.

(** [f] scans exactly the text between [s] and [r]. *)
Definition scans_to (m : scanner) (r : ptr) : Prop := forall e, wp m (fun q _ => q = r) e.

Lemma wp_scans_to {B} m r (k : ptr -> ST rfc821_err B) Q e :
  scans_to m r -> (forall e', wp (k r) Q e') -> wp (m ≫= k) Q e.
Proof.
  intros Hm Hk. apply wp_bind. eapply wp_mono; [apply Hm|]. cbv beta. by intros ? e' ->.
Qed.

(** ** Splitting a text at a position *)

Lemma behind_app s w1 w2 r : behind s (w1 ++ w2) r ->
  exists q, behind s w1 q /\ behind q w2 r.
Proof.
  intros [E A]. rewrite <- app_assoc in E. rewrite length_app in A.
  exists (Ptr (addr s + Z.of_nat (length w1)) (w2 ++ mem r)).
  repeat split; cbn; try done; lia.
Qed.

Lemma behind_cons s c w r : behind s (c :: w) r -> deref s = c /\ behind (s [+] 1) w r.
Proof.
  intros [E A]. unfold deref. rewrite E. cbn in *. split; [done|].
  split; cbn; [by rewrite E|lia].
Qed.

Lemma behind_padd_eq s w r : behind s w r -> s [+] length w = r.
Proof. intros [E A]. apply ptr_ext; cbn; [lia|]. by rewrite E, drop_app_length. Qed.

Lemma span_behind f s w r :
  behind s w r -> forallb f w = true -> f 0 = false -> f (deref r) = false ->
  span f (mem s) = length w.
Proof.
  intros [E _] Hw H0 Hr. rewrite E. apply span_max; [done|]. unfold deref in Hr.
  destruct (mem r) as [|c l]; [by left|]. right. by exists c, l.
Qed.

Lemma take_behind s w r : behind s w r -> take (length w) (mem s) = w.
Proof. intros [-> _]. apply take_app_length. Qed.

Lemma peq_behind s w r : behind s w r -> peq r s = bool_decide (w = []).
Proof. intros Hb. rewrite <- (behind_padd_eq s w r Hb), peq_padd.
  destruct w; by repeat case_bool_decide. Qed.

(** ** <name> and <domain> *)

Lemma name_complete s w r an e :
  behind s w r -> name w -> is_name_char (deref r) = false ->
  wp (rfc821_name s an) (fun res _ => res = (r, an && numeric w)) e.
Proof.
  intros Hb Hn Hr. pose proof Hn as (c & w' & -> & Hc & Hw'). unfold rfc821_name.
  destruct (behind_cons _ _ _ _ Hb) as [Hd _]. rewrite Hd, Hc. cbn [negb].
  assert (forallb is_name_char (c :: w') = true) as Hall.
  { cbn. rewrite Hw'. unfold is_name_char. by rewrite Hc. }
  rewrite (span_behind is_name_char s (c :: w') r), (take_behind s (c :: w') r) by done.
  destruct (Z.eqb_spec c 0) as [->|]; [done|]. wp_steps.
  by rewrite (behind_padd_eq s (c :: w') r), existsb_negb_numeric, negb_involutive.
Qed.

Lemma name_head s w r : behind s w r -> name w -> is_821_alnum (deref s) = true.
Proof. intros Hb (c & w' & -> & Hc & _). by apply behind_cons in Hb as [-> _]. Qed.

Lemma alnum_neq s c : is_821_alnum (deref s) = true -> is_821_alnum c = false -> (deref s =? c) = false.
Proof. intros Hs Hc. apply Z.eqb_neq. congruence. Qed.

(** A character that cannot continue a domain name. *)
Definition ends_name (c : Z) : Prop := is_name_char c = false /\ c <> $".".

Definition dotted (ls : list (list Z)) : list Z := concat ((fun l => $"." :: l) <$> ls).

Lemma join_dotted l ls : join $"." (l :: ls) = l ++ dotted ls.
Proof.
  revert l. induction ls as [|l' ls IH]; intros l; [by rewrite app_nil_r|].
  rewrite join_cons, IH by done. done.
Qed.

Lemma dotted_stop q ls r : behind q (dotted ls) r -> ends_name (deref r) ->
  is_name_char (deref q) = false.
Proof.
  intros Hb [Hr _]. destruct ls as [|l ls]; [by apply behind_nil in Hb as ->|].
  by apply behind_cons in Hb as [-> _].
Qed.

Lemma domain_loop_complete fuel p q ls r an e :
  behind q (dotted ls) r -> Forall name ls -> pgt q p = true -> ends_name (deref r) ->
  (length ls <= fuel)%nat ->
  wp (domain_loop fuel p q an) (fun res _ =>
    exists p', res = Some (p', r, an && forallb numeric ls) /\ peq p' r = false) e.
Proof.
  revert p q an e ls. induction fuel as [|fuel IH]; intros p q an e ls Hb Hls Hgt Hr Hf;
    destruct ls as [|l ls]; cbn in Hf; try lia; cbn [domain_loop].
  1,2: apply behind_nil in Hb as ->; rewrite andb_true_r;
    assert (peq p q = false) by (unfold pgt, peq in *; zbool; apply Z.eqb_neq; lia).
  { wp_steps. by exists p. }
  { destruct Hr as [_ Hr%Z.eqb_neq]. rewrite Hr, andb_false_r. wp_steps. by exists p. }
  apply Forall_cons_1 in Hls as [Hl Hls].
  destruct (behind_cons _ _ _ _ Hb) as [Hd Hb1]. rewrite Hgt, Hd. cbn [andb].
  rewrite Z.eqb_refl. change (pinc q) with (q [+] 1).
  destruct (behind_app _ _ _ _ Hb1) as (q' & Hbl & Hbr).
  pose proof (name_head _ _ _ Hbl Hl) as Hal.
  rewrite !(alnum_neq _ _ Hal) by done. cbn [orb]. wp_steps.
  eapply wp_mono; [eapply name_complete; [done..|by eapply dotted_stop]|].
  cbv beta. intros res e' ->. eapply wp_mono; [apply (IH _ _ _ _ ls); try done; [|lia]|].
  - eapply behind_pgt; [done|]. by apply name_nonempty.
  - cbv beta. intros res e'' (p' & -> & Hp). exists p'. cbn. by rewrite andb_assoc.
Qed.

Lemma length_dotted ls : Forall name ls -> (length ls <= length (dotted ls))%nat.
Proof.
  induction 1 as [|l ls _ _ IH]; cbn; [lia|]. unfold dotted in *. rewrite length_app. lia.
Qed.

Lemma domain_name_complete s w r :
  behind s w r -> domain_name w -> ends_name (deref r) -> scans_to (rfc821_domain s) r.
Proof.
  intros Hb (ls & Hne & -> & Hls & Hnum) Hr e. destruct ls as [|l ls]; [done|].
  pose proof Hls as Hls0. apply Forall_cons_1 in Hls as [Hl Hls].
  assert (join $"." (l :: ls) <> []) as Hne'.
  { apply join_nonempty; [done | by apply names_nonempty]. }
  rewrite join_dotted in Hb. destruct (behind_app _ _ _ _ Hb) as (q & Hbl & Hbr).
  pose proof (name_head _ _ _ Hbl Hl) as Hal. unfold rfc821_domain.
  rewrite !(alnum_neq _ _ Hal) by done. apply wp_bind.
  eapply wp_mono; [eapply name_complete; [done..|by eapply dotted_stop]|].
  cbv beta. intros [q0 an0] e' [= -> ->]. apply wp_bind.
  eapply wp_mono; [eapply domain_loop_complete; try done|].
  - eapply behind_pgt; [done|]. by apply name_nonempty.
  - apply length_dotted in Hls. apply behind_length in Hbl, Hbr. lia.
  - cbv beta. intros res e'' (p' & -> & Hp). cbn in Hnum |- *. rewrite Hnum.
    wp_steps. apply wp_mono with (Q := fun _ _ => True); [by destruct (rfc821_error e'')|].
    intros _ e3 _. by rewrite Hp.
Qed.

(** ** <dotnum> in brackets *)

Lemma dotnum_loop_complete ns p r e :
  ns <> [] -> Forall snum ns -> behind (pinc p) (join $"." ns) r ->
  is_821_digit (deref r) = false ->
  wp (dotnum_loop (length ns) p) (fun res _ => res = Some r) e.
Proof.
  revert p e. induction ns as [|w ns IH]; intros p e Hne Hns Hb Hr; [done|].
  apply Forall_cons_1 in Hns as [(Hw & Hlen & Hval) Hns].
  destruct ns as [|w' ns].
  - cbn [length dotnum_loop]. rewrite (span_behind is_821_digit _ w r), (take_behind _ w r) by done.
    rewrite (behind_padd_eq _ w r) by done. cbn [Nat.eqb negb andb]. wp_steps; [|done].
    exfalso. rewrite !orb_true_iff, Z.gtb_lt, Z.ltb_lt, Z.gtb_lt in H. lia.
  - rewrite join_cons in Hb by done. destruct (behind_app _ _ _ _ Hb) as (q & Hb1 & Hb2).
    destruct (behind_cons _ _ _ _ Hb2) as [Hd Hb3]. remember (w' :: ns) as ns' eqn:En.
    cbn [length dotnum_loop].
    rewrite (span_behind is_821_digit _ w q), (take_behind _ w q) by (done || by rewrite Hd).
    rewrite (behind_padd_eq _ w q), Hd, Z.eqb_refl by done. cbn [negb].
    rewrite andb_false_r. wp_steps.
    + exfalso. rewrite !orb_true_iff, Z.gtb_lt, Z.ltb_lt, Z.gtb_lt in H. lia.
    + apply IH; try done. by subst.
Qed.

Lemma digit_not_i s : is_821_digit (deref s) = true -> ~ starts_ipv6 s.
Proof. intros Hd [E | E]; by rewrite E in Hd. Qed.

Lemma literal_complete s w r :
  behind s ($"[" :: w ++ [$"]"]) r -> dotquad w -> scans_to (rfc821_domain s) r.
Proof.
  intros Hb (a & b & c & d & -> & Hns) e.
  destruct (behind_cons _ _ _ _ Hb) as [Hd Hb1].
  destruct (behind_app _ _ _ _ Hb1) as (q & Hb2 & Hb3).
  destruct (behind_cons _ _ _ _ Hb3) as [Hq Hb4]. apply behind_nil in Hb4 as ->.
  unfold rfc821_domain. rewrite Hd. cbn [Z.eqb Pos.eqb].
  apply (wp_scans_to _ q).
  - intros e'. unfold rfc821_dotnum. cbn [rfc821_dotnum_fuel].
    rewrite not_starts_ipv6. 2:{ apply digit_not_i.
      apply Forall_cons_1 in Hns as [(Ha & Hlen & _) _]. destruct a as [|x a]; [cbn in Hlen; lia|].
      apply behind_cons in Hb2 as [-> _]. cbn in Ha. by zbool. }
    wp_steps. eapply wp_mono.
    { apply (dotnum_loop_complete [a; b; c; d] _ q); try done; [by rewrite pinc_pdec | by rewrite Hq]. }
    cbv beta. intros res e'' ->. by wp_steps.
  - intros e'. rewrite Hq. rewrite (peq_behind _ _ _ Hb2). wp_steps; try done.
    case_bool_decide as Hnil; [|done]. exfalso. revert Hnil.
    apply Forall_cons_1 in Hns as [(_ & Hlen & _) _]. destruct a; [cbn in Hlen; lia | done].
Qed.

(** ** <local-part> *)

(** A character that ends an unquoted string. *)
Definition ends_string (c : Z) : Prop :=
  is_821_C c = false /\ c <> $"\" /\ c <= 127.

Lemma rfc821_char_stop r : ends_string (deref r) -> rfc821_char r = r.
Proof.
  intros (HC & Hb & _). unfold rfc821_char. rewrite HC.
  apply Z.eqb_neq in Hb as ->. by destruct (deref r =? 0).
Qed.

Lemma string_loop_complete fuel s w r :
  behind s w r -> string821 w -> ends_string (deref r) -> (length w < fuel)%nat ->
  string_loop fuel s = r.
Proof.
  intros Hb Hs Hr. revert fuel s Hb. induction Hs as [|c w HC Hn H0 Hw IH | x w HX Hw IH];
    intros [|fuel] s Hb Hf; cbn in Hf; try lia; cbn [string_loop].
  - apply behind_nil in Hb as ->. by rewrite rfc821_char_stop, pgt_irrefl.
  - destruct (behind_cons _ _ _ _ Hb) as [Hd Hb1].
    assert (rfc821_char s = s [+] 1) as ->.
    { unfold rfc821_char. rewrite Hd, HC. apply Z.eqb_neq in Hn as ->, H0 as ->. done. }
    rewrite (behind_pgt s [c]) by (done || by apply behind_inc). apply IH; [done | lia].
  - destruct (behind_cons _ _ _ _ Hb) as [Hd Hb1].
    destruct (behind_cons _ _ _ _ Hb1) as [Hx Hb2]. rewrite padd_padd in Hb2.
    assert (peek s 1 = x) as Hpk.
    { destruct Hb as [E _]. unfold peek. by rewrite E. }
    assert (rfc821_char s = s [+] 2) as ->.
    { unfold rfc821_char. by rewrite Hd, Hpk, HX. }
    assert (behind s [$"\"; x] (s [+] 2)) as Hb3.
    { apply (behind_padd s [_; _] (w ++ mem r)). by destruct Hb as [-> _]. }
    rewrite (behind_pgt _ _ _ Hb3) by done. apply IH; [done | lia].
Qed.

Lemma string_complete s w r :
  behind s w r -> string821 w -> ends_string (deref r) -> scans_to (rfc821_string s) r.
Proof.
  intros Hb Hs Hr e. unfold rfc821_string. pose proof (behind_length _ _ _ Hb).
  rewrite (string_loop_complete _ s w r) by (done || lia).
  destruct Hr as (HC & Hbs & H8). wp_steps; try done.
  - zbool. destruct Hs as [|c w' _ _ ? _ | x w' ? _]; [by apply behind_nil in Hb|..];
      apply behind_cons in Hb as [? _]; congruence.
  - zbool. lia.
Qed.

(** The characters that may follow a dot-string: not a dot either. *)
Definition ends_local (c : Z) : Prop := ends_string c /\ c <> $".".

Lemma dot_ends_string : ends_string $".".
Proof. done. Qed.

Lemma dotted_ends q ls r : behind q (dotted ls) r -> ends_local (deref r) -> ends_string (deref q).
Proof.
  intros Hb [Hr _]. destruct ls as [|l ls]; [by apply behind_nil in Hb as ->|].
  apply behind_cons in Hb as [-> _]. apply dot_ends_string.
Qed.

(** Only the last segment may be empty. *)
Fixpoint inner_nonempty (ls : list (list Z)) : Prop :=
  match ls with
  | [] | [_] => True
  | l :: ls' => l <> [] /\ inner_nonempty ls'
  end.

Lemma inner_nonempty_snoc ls l : Forall (fun v => v <> []) ls -> inner_nonempty (ls ++ [l]).
Proof. induction 1 as [|v ls Hv _ IH]; [done|]. cbn. destruct (ls ++ [l]); [done | auto]. Qed.

Lemma inner_nonempty_tail l ls : inner_nonempty (l :: ls) -> inner_nonempty ls.
Proof. destruct ls; [done|]. by intros [_ ?]. Qed.

Lemma dot_string_loop_complete strict fuel q ls r e :
  behind q (dotted ls) r -> Forall string821 ls -> ends_local (deref r) ->
  (strict = true -> inner_nonempty ls) -> (length ls < fuel)%nat ->
  wp (dot_string_loop fuel strict q) (fun res _ => res = Some r) e.
Proof.
  revert q ls e. induction fuel as [|fuel IH]; intros q ls e Hb Hls Hr Hst Hf; [lia|].
  cbn [dot_string_loop]. destruct ls as [|l ls].
  { apply behind_nil in Hb as ->. destruct Hr as [_ Hr%Z.eqb_neq]. rewrite Hr. by wp_steps. }
  apply Forall_cons_1 in Hls as [Hl Hls].
  destruct (behind_cons _ _ _ _ Hb) as [Hd Hb1]. rewrite Hd, Z.eqb_refl.
  destruct (behind_app _ _ _ _ Hb1) as (q' & Hbl & Hbr).
  apply (wp_scans_to _ q'); [by eapply string_complete, dotted_ends|]. intros e'.
  assert (strict && peq q' (q [+] 1) && (deref (q [+] 1) =? $".") = false) as ->.
  { destruct strict; [|done]. cbn [andb]. rewrite (peq_behind _ _ _ Hbl).
    case_bool_decide as Hnil; [|done]. subst l. apply behind_nil in Hbl as <-. cbn [andb].
    apply Z.eqb_neq. destruct ls as [|l2 ls]; [|by destruct (Hst eq_refl)].
    apply behind_nil in Hbr as <-. by destruct Hr. }
  apply (IH _ ls); try done; [|cbn in Hf; lia].
  intros Hs. by eapply inner_nonempty_tail, Hst.
Qed.

Lemma dot_string_complete strict s w r :
  behind s w r -> dot_string strict w -> ends_local (deref r) ->
  scans_to (rfc821_dot_string s strict) r.
Proof.
  intros Hb (Hne & ls0 & l0 & -> & Hf & Hst) Hr e.
  assert (exists l ls, ls0 ++ [l0] = l :: ls) as (l & ls & E).
  { destruct ls0; [by exists l0, [] | by eexists _, _]. }
  assert (strict = true -> inner_nonempty (l :: ls)) as Hin.
  { intros Hs. rewrite <- E. by apply inner_nonempty_snoc, Hst. }
  rewrite E in *. apply Forall_cons_1 in Hf as [Hl Hls].
  rewrite join_dotted in Hb, Hne. destruct (behind_app _ _ _ _ Hb) as (q & Hbl & Hbr).
  pose proof (behind_length _ _ _ Hb) as Hlen.
  unfold rfc821_dot_string. apply wp_if; intros H0.
  { zbool. exfalso. destruct l as [|c l].
    - destruct ls as [|l2 ls]; [done|]. apply behind_cons in Hb as [? _]. congruence.
    - apply behind_cons in Hbl as [Hd _]. inversion Hl; congruence. }
  apply (wp_scans_to _ q); [apply (string_complete _ _ _ Hbl Hl (dotted_ends _ _ _ Hbr Hr))|].
  intros e'. assert (peq q s && strict && (deref s =? $".") = false) as ->.
  { rewrite (peq_behind _ _ _ Hbl). case_bool_decide as Hnil; [|done].
    destruct strict; [|by rewrite andb_false_r]. cbn [andb]. subst l.
    apply behind_nil in Hbl as ->. destruct ls as [|l2 ls]; [done|].
    by destruct (Hin eq_refl). }
  apply wp_bind. eapply wp_mono; [apply (dot_string_loop_complete _ _ _ ls r); try done|].
  - intros Hs. by eapply inner_nonempty_tail, Hin.
  - assert (length ls <= length (dotted ls))%nat.
    { clear. induction ls; cbn; [lia|]. unfold dotted in *. rewrite length_app. lia. }
    rewrite length_app in Hlen. lia.
  - cbv beta. intros res e'' ->. by wp_steps.
Qed.

Lemma qtext_loop_complete l a r :
  qtext l -> is_821_Q (deref r) = false -> deref r <> $"\" ->
  qtext_loop a (l ++ mem r) = (Ptr (a + Z.of_nat (length l)) (mem r), false).
Proof.
  intros Hl HQ Hb. revert a. induction Hl as [|c w Hc Hn H0 Hw IH | x w HX Hw IH]; intros a.
  - cbn. rewrite Z.add_0_r. unfold deref in *. destruct (mem r) as [|c l]; [done|]. cbn in *.
    rewrite HQ. apply Z.eqb_neq in Hb as ->. by destruct (c =? 0).
  - cbn. rewrite Hc. apply Z.eqb_neq in Hn as ->, H0 as ->. rewrite IH. do 2 f_equal. lia.
  - cbn. rewrite HX, IH. do 2 f_equal. lia.
Qed.

Lemma quoted_complete s w r :
  behind s w r -> quoted_string w -> scans_to (rfc821_quoted_string s) r.
Proof.
  intros Hb (v & -> & Hne & Hv) e.
  destruct (behind_cons _ _ _ _ Hb) as [Hd Hb1].
  destruct (behind_app _ _ _ _ Hb1) as (q & Hb2 & Hb3).
  destruct (behind_cons _ _ _ _ Hb3) as [Hq Hb4]. apply behind_nil in Hb4 as ->.
  assert (peq q (s [+] 1) = false) as Hpq.
  { rewrite (peq_behind _ _ _ Hb2). by case_bool_decide. }
  unfold rfc821_quoted_string. rewrite Hd. cbn [Z.eqb Pos.eqb negb].
  apply (wp_scans_to _ q).
  - intros e'. unfold rfc821_qtext. destruct Hb2 as [E A].
    rewrite E, (qtext_loop_complete v _ q) by (done || by rewrite Hq).
    assert (Ptr (addr (s [+] 1) + Z.of_nat (length v)) (mem q) = q) as -> by (by apply ptr_ext).
    wp_steps; try done; [|by rewrite Hq in * |by rewrite Hpq in *].
    exfalso. zbool. unfold deref in H. rewrite E in H. inversion Hv; subst; done.
  - intros e'. rewrite Hq. unfold peq in *. rewrite Z.eqb_sym, Hpq. by wp_steps.
Qed.

(** The first character of an unquoted local part. *)
Lemma dot_string_first strict s w r k :
  behind s w r -> dot_string strict w ->
  k <> $"." -> k <> $"\" -> is_821_C k = false -> (deref s =? k) = false.
Proof.
  intros Hb (Hne & ls & l & -> & Hf & _) H1 H2 H3. apply Z.eqb_neq.
  destruct (ls ++ [l]) as [|x xs] eqn:E; [by destruct ls|].
  apply Forall_cons_1 in Hf as [Hx _]. rewrite join_dotted in Hb, Hne.
  destruct x as [|c x]; cbn in Hb.
  - destruct xs as [|y ys]; [done|]. apply behind_cons in Hb as [-> _]. done.
  - apply behind_cons in Hb as [-> _]. inversion Hx; subst; congruence.
Qed.

Lemma local_part_first strict s w r k :
  behind s w r -> local_part strict w -> k <> 34 ->
  k <> $"." -> k <> $"\" -> is_821_C k = false -> (deref s =? k) = false.
Proof.
  intros Hb [(v & -> & _) | Hw] Hk ???; [|by eapply dot_string_first].
  apply behind_cons in Hb as [-> _]. by apply Z.eqb_neq.
Qed.

Lemma local_part_nonempty strict w : local_part strict w -> w <> [].
Proof. by intros [(v & -> & _) | (? & _)]. Qed.

Lemma localpart_complete strict s w r :
  behind s w r -> local_part strict w -> ends_local (deref r) ->
  scans_to (rfc821_localpart s strict) r.
Proof.
  intros Hb Hw Hr e. unfold rfc821_localpart.
  assert (peq r s = false) as Hp.
  { rewrite (peq_behind _ _ _ Hb). apply local_part_nonempty in Hw. by case_bool_decide. }
  rewrite (local_part_first _ _ _ _ 0 Hb Hw) by done.
  destruct Hw as [Hw | Hw].
  - pose proof Hw as (v & -> & _). apply behind_cons in Hb as Hd. destruct Hd as [-> _].
    rewrite Z.eqb_refl. apply (wp_scans_to _ r); [by eapply quoted_complete|].
    intros e'. by rewrite Hp.
  - rewrite (dot_string_first _ _ _ _ 34 Hb Hw) by done.
    apply (wp_scans_to _ r); [by eapply dot_string_complete|]. intros e'. by rewrite Hp.
Qed.

(** ** <mailbox> in angle brackets *)

Definition plain_domain (d : list Z) : Prop :=
  domain_name d \/ exists v, d = $"[" :: v ++ [$"]"] /\ dotquad v.

Lemma plain_domain_complete s d r :
  behind s d r -> plain_domain d -> ends_name (deref r) -> scans_to (rfc821_domain s) r.
Proof.
  intros Hb [Hd | (v & -> & Hv)] Hr; [by eapply domain_name_complete | by eapply literal_complete].
Qed.

Lemma plain_domain_nonempty d : plain_domain d -> d <> [].
Proof.
  intros [(ls & Hne & -> & Hls & _) | (v & -> & _)]; [|done].
  apply join_nonempty; [done | by apply names_nonempty].
Qed.

Lemma mailbox_complete strict s l d r :
  behind s (l ++ $"@" :: d) r -> local_part strict l -> plain_domain d ->
  ends_name (deref r) -> scans_to (rfc821_mailbox s strict) r.
Proof.
  intros Hb Hl Hd Hr e. destruct (behind_app _ _ _ _ Hb) as (p & Hbl & Hbd).
  destruct (behind_cons _ _ _ _ Hbd) as [Hat Hbd1]. unfold rfc821_mailbox.
  rewrite (local_part_first _ _ _ _ 0 Hbl Hl) by done.
  apply (wp_scans_to _ p); [eapply localpart_complete; by rewrite ?Hat|]. intros e'.
  rewrite (peq_behind _ _ _ Hbl), bool_decide_eq_false_2 by (by eapply local_part_nonempty).
  rewrite Hat. cbn [Z.eqb Pos.eqb negb orb]. rewrite andb_false_r.
  apply (wp_scans_to _ r); [by eapply plain_domain_complete|]. intros e''.
  by rewrite (peq_behind _ _ _ Hbd1), bool_decide_eq_false_2 by (by apply plain_domain_nonempty).
Qed.

Lemma path2_complete strict s l d r :
  behind s (l ++ $"@" :: d) r -> local_part strict l -> plain_domain d ->
  ends_name (deref r) -> scans_to (rfc821_path2 s strict) r.
Proof.
  intros Hb Hl Hd Hr e. destruct (behind_app _ _ _ _ Hb) as (p & Hbl & Hbd).
  unfold rfc821_path2. rewrite !(local_part_first _ _ _ _ _ Hbl Hl) by done.
  apply wp_bind, wp_ret. rewrite pgt_irrefl.
  apply (wp_scans_to _ r); [by eapply mailbox_complete|]. intros e'.
  by rewrite (peq_behind _ _ _ Hb), bool_decide_eq_false_2 by (by destruct l).
Qed.

Lemma path_complete strict s l d r e :
  behind s ($"<" :: l ++ $"@" :: d ++ [$">"]) r ->
  local_part strict l -> plain_domain d ->
  wp (rfc821_path s strict) (fun res _ => res = (r, s)) e.
Proof.
  intros Hb Hl Hd. destruct (behind_cons _ _ _ _ Hb) as [Hlt Hb1].
  rewrite app_comm_cons, app_assoc in Hb1.
  destruct (behind_app _ _ _ _ Hb1) as (q & Hb2 & Hb3).
  destruct (behind_cons _ _ _ _ Hb3) as [Hgt Hb4]. apply behind_nil in Hb4 as ->.
  assert (peek s 1 = deref (s [+] 1)) as Hpk.
  { unfold peek, deref. cbn. destruct Hb as [-> _]. by destruct l. }
  destruct (behind_app _ _ _ _ Hb2) as (p & Hbl & _).
  unfold rfc821_path. rewrite Hlt, Hpk, !(local_part_first _ _ _ _ _ Hbl Hl) by done.
  cbn [Z.eqb Pos.eqb negb]. apply (wp_scans_to _ q).
  - eapply path2_complete; [done..|]. by rewrite Hgt.
  - intros e'. rewrite Hgt. cbn [is_blank Z.eqb Pos.eqb orb negb].
    rewrite (peq_behind _ _ _ Hb2), bool_decide_eq_false_2 by (by destruct l).
    wp_steps; [by rewrite Hgt in *|]. f_equal.
    assert (behind s ($"<" :: l ++ $"@" :: d) q) as Hbq.
    { eapply (behind_trans _ [_]); [|done]. by apply behind_inc. }
    rewrite (behind_take _ _ _ Hbq). apply ptr_ext; [done|]. symmetry. apply Hbq.
Qed.
