(* ===== verification/Rfc821Props.v ===== *)
(** * Properties of the RFC 821 scanner

    The theorems about smtpserver/rfc821scn.c that a caller relies on:
    soundness and completeness of [rfc821_path] against the grammar, what a
    failure reports, and the exact language of IP address literals. *)

From Stdlib Require Import ZArith Lia.
From stdpp Require Import base tactics numbers list option.
From S2P Require Import Prelude Rfc821 Rfc821Grammar Rfc821Complete.
Import Grammar.

#[local] Open Scope Z_scope.

(** ** Helper lemmas *)

Lemma wp_run {S A} (m : ST S A) Q s a s' : m s = (a, s') -> wp m Q s -> Q a s'.
Proof. unfold wp. intros ->. done. Qed.

Lemma no_dot_xdigits w : forallb is_821_xdigit w = true -> $"." ∉ w.
Proof.
  intros H Hin. rewrite list_elem_of_In in Hin.
  by eapply forallb_forall in H; [|exact Hin].
Qed.

Lemma no_dot_hexgroup g : hexgroup g -> $"." ∉ g.
Proof. intros (_ & H & _). by apply no_dot_xdigits. Qed.

Lemma no_dot_colons gs : Forall hexgroup gs -> $"." ∉ colons gs.
Proof.
  induction 1 as [|g gs Hg _ IH]; [apply not_elem_of_nil|].
  unfold colons in *. cbn. rewrite !not_elem_of_app. split_and!; [by apply no_dot_hexgroup | | done].
  by intros ?%list_elem_of_singleton.
Qed.

Lemma no_dot_v6addr v : v6addr v -> $"." ∉ v.
Proof.
  intros (pre & last & Hpre & Hlast & H).
  assert ($"." ∉ last).
  { destruct Hlast as [-> | ?]; [apply not_elem_of_nil | by apply no_dot_hexgroup]. }
  destruct H as [[-> _] | (post & Hpost & -> & _)]; rewrite !not_elem_of_app.
  - split; [by apply no_dot_colons | done].
  - split_and!; try done; try (by apply no_dot_colons).
    + destruct pre; [by intros ?%list_elem_of_singleton | by apply no_dot_colons].
    + by intros ?%list_elem_of_singleton.
Qed.

(** The significant digits of a hexadecimal group. *)
Fixpoint significant (w : list Z) : list Z :=
  match w with
  | [] => []
  | c :: w' => if c =? $"0" then significant w' else w
  end.

Lemma group_value_app w v : group_value (w ++ v) =
  fold_left (fun v c => Z.lor (Z.shiftl v 4) (v6_digit_value c)) v (group_value w).
Proof. apply fold_left_app. Qed.

Lemma land_shift_small v d : 0 <= d < 16 -> Z.land (Z.shiftl v 4) d = 0.
Proof.
  intros Hd. apply Z.bits_inj'. intros n Hn. rewrite Z.land_spec, Z.bits_0.
  destruct (Z.ltb_spec n 4); [by rewrite Z.shiftl_spec_low|].
  rewrite <- (Z.mod_small d (2 ^ 4)) by done.
  by rewrite Z.mod_pow2_bits_high, andb_false_r by lia.
Qed.

Lemma lor_shift_add v d : 0 <= d < 16 -> Z.lor (Z.shiftl v 4) d = v * 16 + d.
Proof.
  intros Hd. rewrite <- Z.lxor_lor, <- Z.add_nocarry_lxor by (by apply land_shift_small).
  by rewrite Z.shiftl_mul_pow2.
Qed.

Definition hexdigits (w : list Z) : Prop :=
  Forall (fun c => is_821_xdigit c = true /\ 0 <= c < 256) w.

Lemma group_value_bounds w acc :
  hexdigits w -> 0 <= acc ->
  let n := Z.of_nat (length w) in
  acc * 16 ^ n <=
  fold_left (fun v c => Z.lor (Z.shiftl v 4) (v6_digit_value c)) w acc < (acc + 1) * 16 ^ n.
Proof.
  intros H. revert acc. induction H as [|c w [Hc Hb] _ IH]; intros acc Ha; cbn [fold_left length].
  - cbn. lia.
  - destruct (xdigit_nonzero c Hc Hb) as [Hd _].
    rewrite lor_shift_add by done.
    specialize (IH (acc * 16 + v6_digit_value c) ltac:(lia)).
    rewrite Nat2Z.inj_succ, Z.pow_succ_r by lia.
    pose proof (Z.pow_pos_nonneg 16 (Z.of_nat (length w)) ltac:(lia) ltac:(lia)) as Hp.
    cbv zeta in IH. set (P := 16 ^ _) in *. set (X := fold_left _ _ _) in *.
    clearbody P X. split; nia.
Qed.

Lemma group_value_significant w : hexdigits w -> group_value (significant w) = group_value w.
Proof.
  induction 1 as [|c w [Hc Hb] Hw IH]; [done|]. cbn [significant].
  destruct (Z.eqb_spec c $"0") as [->|]; [|done]. exact IH.
Qed.

Lemma significant_hexdigits w : hexdigits w -> hexdigits (significant w).
Proof. induction 1 as [|c w ?? IH]; [by constructor|]. cbn. destruct (_ =? _); [done|]. by constructor. Qed.

Lemma significant_head w c v : significant w = c :: v -> c <> $"0".
Proof. induction w as [|x w IH]; cbn; [done|]. destruct (Z.eqb_spec x $"0"); [done|]. congruence. Qed.

Lemma group_value_small w : hexdigits w ->
  (group_value w <= 0xffff <-> (length (significant w) <= 4)%nat).
Proof.
  intros H. rewrite <- group_value_significant by done.
  pose proof (significant_hexdigits w H) as Hs.
  destruct (significant w) as [|c v] eqn:E; [cbn; lia|].
  apply significant_head in E. apply Forall_cons_1 in Hs as [[Hc Hb] Hv].
  destruct (xdigit_nonzero c Hc Hb) as [Hd Hz].
  assert (group_value (c :: v) =
    fold_left (fun v c => Z.lor (Z.shiftl v 4) (v6_digit_value c)) v (v6_digit_value c)) as ->.
  { unfold group_value. cbn [fold_left]. by rewrite Z.shiftl_0_l, Z.lor_0_l. }
  pose proof (group_value_bounds v (v6_digit_value c) Hv ltac:(lia)) as [Hlo Hhi].
  set (G := fold_left _ _ _) in *. cbn [length].
  assert (1 <= v6_digit_value c) by lia.
  split; intros HG.
  - destruct (Nat.le_gt_cases (S (length v)) 4); [done|]. exfalso.
    assert (16 ^ 4 <= 16 ^ Z.of_nat (length v)) by (apply Z.pow_le_mono_r; lia).
    change (16 ^ 4) with 65536 in *. nia.
  - assert (16 ^ Z.of_nat (length v) <= 16 ^ 3) by (apply Z.pow_le_mono_r; lia).
    change (16 ^ 3) with 4096 in *. nia.
Qed.

Lemma v6_loop_ext (d1 d2 : ptr -> scanner) :
  (forall p e, ~ starts_ipv6 p -> d1 p e = d2 p e) ->
  forall l a curtok saw val tpcnt ci e,
  ~ starts_ipv6 curtok \/ (deref curtok = hd 0 l) ->
  v6_loop d1 a l curtok saw val tpcnt ci e = v6_loop d2 a l curtok saw val tpcnt ci e.
Proof.
  intros Hd. induction l as [|ch l IH]; intros a curtok saw val tpcnt ci e Hc; [done|].
  cbn [v6_loop]. destruct ((ch =? 0) || (ch =? $"]")); [done|].
  destruct (is_821_xdigit ch) eqn:Hx.
  { destruct (_ >? 0xffff); [done|]. apply IH. left.
    destruct Hc as [|Hc]; [done|]. unfold starts_ipv6. rewrite Hc. cbn.
    intros [-> | ->]; done. }
  destruct (Z.eqb_spec ch $":") as [->|].
  { assert (~ starts_ipv6 (Ptr a ($":" :: l))) by (unfold starts_ipv6; cbn; lia).
    destruct (negb saw); [destruct (0 <=? ci); [done|] | destruct (_ >? _); [done|]]; auto. }
  destruct (Z.eqb_spec ch $".") as [->|]; [|done]. cbn [andb].
  destruct (tpcnt + INADDRSZ <=? IN6ADDRSZ); [|done].
  unfold mbind, st_bind. rewrite Hd; [done|].
  destruct Hc as [|Hc]; [done|]. unfold starts_ipv6. rewrite Hc. cbn. lia.
Qed.

Lemma dotnum_fuel_quad_eq n k s e : ~ starts_ipv6 s ->
  rfc821_dotnum_fuel (S n) s e = rfc821_dotnum_fuel (S k) s e.
Proof. intros Hs. cbn [rfc821_dotnum_fuel]. by rewrite not_starts_ipv6. Qed.

Lemma v6dotnum_ext (d1 d2 : ptr -> scanner) s e :
  (forall p e, ~ starts_ipv6 p -> d1 p e = d2 p e) ->
  rfc821_v6dotnum d1 s e = rfc821_v6dotnum d2 s e.
Proof.
  intros Hd. unfold rfc821_v6dotnum. destruct (_ && _); [done|].
  set (src := if _ : bool then _ else _). unfold mbind, st_bind.
  rewrite (v6_loop_ext d1 d2) by auto. done.
Qed.

Lemma ends_name_gt : ends_name $">".
Proof. done. Qed.

(** ** The properties *)

(** C37: whatever [rfc821_path] accepts is a path of the grammar: the text it
    consumed is a word of <path> (the null path, or a mailbox behind an
    optional source route, in angle brackets), the result points right
    behind the closing bracket, the only change it makes to the buffer is to
    drop blanks in front of that bracket, and the string left behind the
    path is the one that was there before. *)
Theorem path_sound strict s e r s' e' :
  rfc821_path s strict e = ((r, s'), e') -> peq r s = false ->
  exists v b l,
    mem s = v ++ b ++ $">" :: l /\ Grammar.path strict (v ++ b ++ [$">"]) /\
    forallb is_blank b = true /\ addr s' = addr s /\
    behind s' (v ++ [$">"]) r /\ cstr (mem r) = cstr l /\ (b = [] -> s' = s).
Proof.
  intros H Hne. pose proof (wp_run _ _ _ _ _ H (path_spec strict s e)) as [[Hp _] | Hok];
    [cbn in Hp; congruence|].
  destruct Hok as (w & l & _ & Hm & Hp & v & Hb & Ha & b & Hbl & -> & Hc & Hs).
  exists v, b, l. rewrite Hm, <- !app_assoc. cbn in *. by split_and!.
Qed.

Definition s_path : ptr := Ptr 100 (($$"<@a.b:me@host.org  > SIZE=1") ++ [0]).

Lemma path_sound_witness :
  exists v b l, mem s_path = v ++ b ++ $">" :: l /\ cstr l = $$" SIZE=1".
Proof.
  destruct (rfc821_path s_path true (Err None None)) as [[r s'] e'] eqn:E.
  assert (peq r s_path = false) as Hne.
  { vm_compute in E. injection E as <- <- <-. reflexivity. }
  destruct (path_sound true s_path _ r s' e' E Hne) as (v & b & l & Hm & _ & _ & _ & _ & Hc & _).
  exists v, b, l. split; [exact Hm|]. rewrite <- Hc.
  vm_compute in E. injection E as <- <- <-. reflexivity.
Defined.

(** [rfc821_path] accepts every ordinary mailbox in angle brackets,
    strict or not: a local part of the grammar (dot-string or quoted
    string), an at sign, and a domain name or a dotted-quad literal.  The
    result points right behind the closing bracket whatever follows it, and
    the buffer is left as it was. *)
Theorem path_accepts strict s l d r e :
  behind s ($"<" :: l ++ $"@" :: d ++ [$">"]) r ->
  local_part strict l -> plain_domain d ->
  (rfc821_path s strict e).1 = (r, s).
Proof. apply path_complete. Qed.

Lemma path_accepts_witness :
  (rfc821_path (Ptr 7 ($$"<a.b@[10.0.0.1]> x")) true (Err None None)).1
  = (Ptr 23 ($$" x"), Ptr 7 ($$"<a.b@[10.0.0.1]> x")).
Proof.
  apply (path_accepts true _ ($$"a.b") ($$"[10.0.0.1]")).
  - split; reflexivity.
  - right. split; [done|]. exists [$$"a"], ($$"b"). split_and!; [done | | by repeat constructor].
    by repeat constructor.
  - right. exists ($$"10.0.0.1"). split; [done|].
    exists ($$"10"), ($$"0"), ($$"0"), ($$"1"). split; [done|].
    repeat constructor; vm_compute; done.
Defined.

(** when [rfc821_path] fails, an error text is set; the only failures
    that may leave [rfc821_error] unset are inputs that end right behind an
    opening quote or behind the colon of a source route. *)
Theorem path_failure_reported strict s e r s' e' :
  rfc821_path s strict e = ((r, s'), e') -> peq r s = true ->
  rfc821_error e' <> None \/ unfinished s.
Proof.
  intros H Heq. pose proof (wp_run _ _ _ _ _ H (path_spec strict s e)) as [[_ He] | Hok]; [done|].
  destruct Hok as (w & l & Hw & _ & _ & v & Hb & Ha & _).
  exfalso. cbn in *. unfold peq in Heq. destruct Hb as [_ Hb].
  apply Z.eqb_eq in Heq. rewrite length_app in Hb. cbn in Hb. lia.
Qed.

Lemma path_failure_reported_witness :
  rfc821_error (rfc821_path (Ptr 0 ($$"<me@host")) true (Err None None)).2 <> None.
Proof.
  destruct (rfc821_path (Ptr 0 ($$"<me@host")) true (Err None None)) as [[r s'] e'] eqn:E.
  destruct (path_failure_reported _ _ _ _ _ _ E) as [H | _].
  - vm_compute in E. injection E as <- <- <-. reflexivity.
  - exact H.
  - vm_compute in E. injection E as <- <- <-. discriminate.
Defined.

(** The exceptions of [path_failure_reported] are real: on an opening bracket followed by a
    lone double quote, and on the source route [<@[1.2.3.4]:] with nothing
    behind it, [rfc821_path] fails and leaves [rfc821_error] as it found
    it, so that the caller prints a null or stale text. *)
Theorem path_failure_silent strict e :
  let quote := Ptr 0 [$"<"; 34] in
  let route := Ptr 0 ($$"<@[1.2.3.4]:") in
  rfc821_path quote strict e = ((quote, quote), e) /\
  rfc821_path route strict e = ((route, route), e).
Proof. by destruct strict. Qed.

(** no IPv6 literal with an embedded IPv4 address is ever accepted:
    what [rfc821_dotnum] accepts behind the tag [IPv6:] is an IPv6 address
    made of groups and colons only, without a dot. *)
Theorem ipv6_literal_no_dotted_quad s e r e' :
  rfc821_dotnum s e = (r, e') -> peq r s = false -> starts_ipv6 s ->
  exists tag v, behind s (tag ++ v) r /\ length tag = 5%nat /\
    has_prefix_nocase ($$"IPv6:") tag = true /\ v6addr v /\ $"." ∉ v.
Proof.
  intros H Hne Hi. pose proof (wp_run _ _ _ _ _ H (rfc821_dotnum_spec s e)) as [Hs _].
  destruct (scans_inv_neq _ _ _ Hs Hne) as (w & Hw & Hb & [Hq | (tag & v & -> & ? & ? & Hv)]).
  - exfalso. destruct Hq as (a & b & c & d & -> & Hf). apply Forall_cons_1 in Hf as [(Ha & Hl & _) _].
    destruct a as [|x a]; cbn in Hl; [lia|]. destruct Hb as [Hb _].
    unfold starts_ipv6, deref in Hi. rewrite Hb in Hi. cbn in Hi, Ha. zbool.
    by destruct Hi as [-> | ->].
  - exists tag, v. split_and!; try done. by apply no_dot_v6addr.
Qed.

Lemma ipv6_literal_no_dotted_quad_witness :
  exists tag v, $$"IPv6:fe80::1]" = (tag ++ v) ++ [$"]"] /\ v6addr v.
Proof.
  destruct (rfc821_dotnum (Ptr 0 ($$"IPv6:fe80::1]")) (Err None None)) as [r e'] eqn:E.
  destruct (ipv6_literal_no_dotted_quad _ _ _ _ E) as (tag & v & [Hb _] & _ & _ & Hv & _).
  - vm_compute in E. injection E as <- <-. reflexivity.
  - by right.
  - exists tag, v. split; [|exact Hv]. rewrite <- app_assoc.
    vm_compute in E. injection E as <- <-. by rewrite app_assoc.
Defined.

(** The off-by-two value of the letters in [rfc821_v6dotnum] does not
    change what is accepted: on bytes, the test [val > 0xffff] admits
    exactly the groups of hexadecimal digits with at most four significant
    digits. *)
Theorem hexgroup_digits w :
  Forall (fun c => 0 <= c < 256) w ->
  hexgroup w <->
  w <> [] /\ forallb is_821_xdigit w = true /\ (length (significant w) <= 4)%nat.
Proof.
  intros Hb. unfold hexgroup.
  assert (forallb is_821_xdigit w = true -> hexdigits w) as Hx.
  { intros H. apply Forall_forall. intros c Hc.
    rewrite Forall_forall in Hb. split; [|by apply Hb].
    rewrite forallb_forall in H. by apply H. }
  split; intros (? & Hf & ?); split_and!; try done; by apply group_value_small; [apply Hx|].
Qed.

Lemma hexgroup_digits_witness : hexgroup ($$"0000FfFf") /\ ~ hexgroup ($$"01ffff").
Proof.
  split.
  - apply hexgroup_digits; [by repeat constructor|]. split_and!; [done | done | cbn; lia].
  - intros H. apply hexgroup_digits in H; [|by repeat constructor].
    destruct H as (_ & _ & H). cbn in H. lia.
Defined.

(** [rfc821_dotnum] and [rfc821_v6dotnum] call each other at most one
    level deep: the depth bound of the model is never reached, any bound of
    two or more gives the same run. *)
Theorem dotnum_depth n s e :
  rfc821_dotnum_fuel (S (S n)) s e = rfc821_dotnum s e.
Proof.
  assert (forall k, rfc821_dotnum_fuel (S (S n)) s e = rfc821_dotnum_fuel (S (S k)) s e) as H.
  { intros k. remember (S n) as n1 eqn:En. remember (S k) as k1 eqn:Ek. cbn [rfc821_dotnum_fuel].
    destruct (_ || _); [|done]. destruct (has_prefix_nocase _ _); [|done].
    unfold mbind, st_bind. rewrite (v6dotnum_ext _ (rfc821_dotnum_fuel k1)); [done|].
    subst. intros p e0 Hp. by apply dotnum_fuel_quad_eq. }
  unfold rfc821_dotnum. destruct (mem s) as [|c l] eqn:E; [|apply H].
  apply dotnum_fuel_quad_eq. unfold starts_ipv6, deref. rewrite E. cbn. lia.
Qed.

(** Strict mode does not reject a local part that ends with an
    unquoted dot: the branch that would report it is never taken, and
    [rfc821_path] accepts [<text.@domain>] for every nonempty text of
    unquoted characters and quoted pairs. *)
Theorem strict_accepts_trailing_dot s w d r e :
  behind s ($"<" :: (w ++ [$"."]) ++ $"@" :: d ++ [$">"]) r ->
  w <> [] -> string821 w -> plain_domain d ->
  (rfc821_path s true e).1 = (r, s).
Proof.
  intros Hb Hne Hw Hd. eapply path_complete; [done | | done].
  right. split; [by destruct w|]. exists [w], []. split_and!; [done | |].
  - repeat constructor; done.
  - intros _. by repeat constructor.
Qed.

Lemma strict_accepts_trailing_dot_witness :
  (rfc821_path (Ptr 0 ($$"<foo.@bar.com>")) true (Err None None)).1
  = (Ptr 14 [], Ptr 0 ($$"<foo.@bar.com>")).
Proof.
  apply (strict_accepts_trailing_dot _ ($$"foo") ($$"bar.com")).
  - split; reflexivity.
  - done.
  - repeat constructor; done.
  - left. exists [$$"bar"; $$"com"]. split_and!; [done | done | | done].
    repeat constructor; eexists _, _; done.
Defined.
