(* ===== verification/SpoolId.v ===== *)
(** * Spool identifiers (lib/taspoolid.c)

    taspoolid() names a spool file by its inode number and modification
    time.  It writes into a buffer of the caller; the SMTP server gives it
    30 bytes. *)

From Stdlib Require Import ZArith Lia.
From stdpp Require Import base tactics numbers list option.
From S2P Require Import Prelude.

#[local] Open Scope Z_scope.

(** ** gmtime()

    struct tm as C has it: the year is counted from 1900, the month from 0.
    The civil date is computed from the day number with years that begin in
    March. *)

Record tm := Tm { tm_year : Z; tm_mon : Z; tm_mday : Z; tm_hour : Z; tm_min : Z; tm_sec : Z }.

Definition gmtime (t : Z) : tm :=
  let rem := t mod 86400 in
  let z := t / 86400 + 719468 in
  let era := z / 146097 in
  let doe := z mod 146097 in
  let yoe := (doe - doe / 1460 + doe / 36524 - doe / 146096) / 365 in
  let doy := doe - (365 * yoe + yoe / 4 - yoe / 100) in
  let mp := (5 * doy + 2) / 153 in
  let mon := if mp <? 10 then mp + 2 else mp - 10 in
  let year := yoe + era * 400 + (if mon <? 2 then 1 else 0) in
  Tm (year - 1900) mon (doy - (153 * mp + 2) / 5 + 1)
     (rem / 3600) (rem / 60 mod 60) (rem mod 60).

(** ** taspoolid() *)

Definition taspid_encodechars : list Z :=
  $$"ABCDEFGHIJKLMNOPQRSTUVWXYZ0123abcdefghijklmnopqrstuvwxyz4567890-=".

Definition encodechar (i : Z) : Z := nth (Z.to_nat i) taspid_encodechars 0.

(** The characters in front of the final NUL. *)
Definition taspoolid (inodenum mtime mtimens : Z) : list Z :=
  let tt := gmtime mtime in
  let year := tm_year tt + 1900 in
  [$"S"] ++ dec inodenum ++
  (encodechar <$>
    [Z.land (Z.shiftr year 12) 63; Z.land (Z.shiftr year 6) 63; Z.land year 63;
     tm_mon tt; tm_mday tt - 1; tm_hour tt; tm_min tt; tm_sec tt]) ++
  (if mtimens =? 0 then []
   else encodechar <$>
     [Z.land (Z.shiftr mtimens 24) 63; Z.land (Z.shiftr mtimens 18) 63;
      Z.land (Z.shiftr mtimens 12) 63; Z.land (Z.shiftr mtimens 6) 63; Z.land mtimens 63]).

(** [char taspid[30]] in smtp_data() and smtp_bdata() *)
Definition TASPID_SIZE : Z := 30.

(** ** How long an identifier is *)

Lemma digits_grow fuel : forall n acc, (length acc <= length (digits fuel n acc))%nat.
Proof.
  induction fuel as [|fuel IH]; intros n acc; cbn [digits]; [done|].
  destruct (n <? 10); [cbn; lia|]. etransitivity; [|apply IH]. cbn. lia.
Qed.

Lemma digits_length fuel : forall n acc k, (1 <= k < fuel)%nat -> 0 <= n ->
  ((length (digits fuel n acc) <= length acc + k)%nat <-> n < 10 ^ Z.of_nat k).
Proof.
  induction fuel as [|fuel IH]; intros n acc k Hk Hn; [lia|]. cbn [digits].
  pose proof (Z.pow_pos_nonneg 10 (Z.of_nat (k - 1)) ltac:(lia) ltac:(lia)) as Hp.
  replace (Z.of_nat k) with (Z.succ (Z.of_nat (k - 1))) by lia. rewrite Z.pow_succ_r by lia.
  destruct (n <? 10) eqn:E; zbool; [cbn [length]; split; [nia | lia]|].
  pose proof (Z.div_mod n 10 ltac:(lia)). pose proof (Z.mod_pos_bound n 10 ltac:(lia)).
  destruct (decide (k = 1%nat)) as [->|Hk1].
  - cbn [Nat.sub Z.of_nat Z.pow Z.mul] in *. split; [|lia]. intros Hl. exfalso.
    destruct fuel as [|fuel]; [lia|]. cbn [digits] in Hl.
    destruct (n / 10 <? 10); [cbn [length] in Hl; lia|].
    match type of Hl with (length (digits ?f ?m ?a) <= _)%nat => pose proof (digits_grow f m a) end.
    cbn [length] in *. lia.
  - specialize (IH (n / 10) ($"0" + n mod 10 :: acc) (k - 1)%nat ltac:(lia) ltac:(lia)).
    cbn [length] in IH. replace (length acc + k)%nat with (S (length acc) + (k - 1))%nat by lia.
    rewrite IH. lia.
Qed.

(** The decimal digits of a number that is not negative. *)
Lemma dec_length n k : (1 <= k < 64)%nat -> 0 <= n ->
  ((length (dec n) <= k)%nat <-> n < 10 ^ Z.of_nat k).
Proof.
  intros Hk Hn. unfold dec. replace (n <? 0) with false by lia. by apply (digits_length 64 n [] k).
Qed.

Lemma taspoolid_length inodenum mtime mtimens :
  length (taspoolid inodenum mtime mtimens) =
  (9 + length (dec inodenum) + (if (mtimens =? 0)%Z then 0 else 5))%nat.
Proof. unfold taspoolid. rewrite !length_app. destruct (mtimens =? 0); cbn; lia. Qed.

(** ** Claims *)

(** An identifier with its final NUL fits the 30 bytes that DATA and
    BDAT have for it exactly when the nanoseconds of the file time are zero
    or the inode number has at most 15 digits; a file system with larger
    inode numbers makes taspoolid() write behind the buffer. *)
Theorem spool_id_fits inodenum mtime mtimens :
  0 <= inodenum < 2 ^ 63 ->
  (Z.of_nat (length (taspoolid inodenum mtime mtimens)) + 1 <= TASPID_SIZE <->
   mtimens = 0 \/ inodenum < 10 ^ 15).
Proof.
  intros [H0 H63]. unfold TASPID_SIZE. rewrite taspoolid_length. destruct (mtimens =? 0) eqn:E; zbool.
  - split; [by left|]. intros _.
    assert (inodenum < 10 ^ Z.of_nat 20) as H20 by (etransitivity; [exact H63|done]).
    apply dec_length in H20; lia.
  - pose proof (dec_length inodenum 15 ltac:(lia) H0) as Hd. change (Z.of_nat 15) with 15 in Hd.
    rewrite <- Hd. lia.
Qed.

Lemma spool_id_fits_witness :
  ~ Z.of_nat (length (taspoolid (10 ^ 15) 1262304000 1)) + 1 <= TASPID_SIZE.
Proof.
  intros H. apply (spool_id_fits (10 ^ 15) 1262304000 1) in H as [H|H]; [discriminate H.. | split; done].
Defined.

(** The alphabet has the digit 0 twice, for 26 and for 62: two files of the
    years 2010 and 2046 have one identifier. *)
Theorem spool_id_collides inodenum :
  taspoolid inodenum 1262304000 0 = taspoolid inodenum 2398377600 0.
Proof. reflexivity. Qed.
