(* ===== verification/Base64.v ===== *)
(** * Base64 (smtpserver/smtpdata.c)

    decodebase64string() and encodebase64string(), which the AUTH command
    uses, and that decoding undoes encoding, also where the encoder leaves
    out a padding character. *)

From Stdlib Require Import ZArith Lia.
From stdpp Require Import base tactics numbers list option.
From S2P Require Import Prelude.

#[local] Open Scope Z_scope.

(** ** The tables *)

Definition base64encode_array : list Z :=
  $$"ABCDEFGHIJKLMNOPQRSTUVWXYZabcdefghijklmnopqrstuvwxyz0123456789+/".

Definition base64decode_index : list Z :=
  replicate 43 (-1) ++ [62] ++ replicate 3 (-1) ++ [63] ++ (Z.of_nat <$> seq 52 10) ++
  replicate 7 (-1) ++ (Z.of_nat <$> seq 0 26) ++ replicate 6 (-1) ++
  (Z.of_nat <$> seq 26 26) ++ replicate 5 (-1).

(** The argument is a [char]: a code above 127 is negative there. *)
Definition decodechar64 (c : Z) : Z :=
  if (c <? 0) || (c >? 127) then -1 else nth (Z.to_nat c) base64decode_index (-1).

(** ** The decoder

    [b64c] holds the sextets of the group so far; [n] is [inlen]; the bytes
    behind the text stay readable. *)
Fixpoint decode_loop (n : nat) (outspc : Z) (b64c out instr : list Z) : list Z * list Z :=
  match n with
  | O => (out, instr)
  | S n' =>
      if negb (Z.of_nat (length out) <? outspc) then (out, instr)
      else
        match instr with
        | [] => (out, [])
        | c :: instr =>
            if c =? $"=" then (out, instr)
            else
              let i := decodechar64 c in
              if i <? 0 then decode_loop n' outspc b64c out instr
              else
                match b64c with
                | [] => decode_loop n' outspc [i] out instr
                | [c0] =>
                    decode_loop n' outspc [c0; i]
                      (out ++ [Z.lor (Z.shiftl c0 2) (Z.shiftr (Z.land i 0x30) 4) mod 256]) instr
                | [c0; c1] =>
                    decode_loop n' outspc [c0; c1; i]
                      (out ++ [Z.lor (Z.shiftl (Z.land c1 0x0f) 4) (Z.shiftr (Z.land i 0x3c) 2) mod 256]) instr
                | _ :: _ :: c2 :: _ =>
                    decode_loop n' outspc [] (out ++ [Z.lor (Z.shiftl c2 6) i mod 256]) instr
                end
        end
  end.

(** The decoded bytes and what is left of the input. *)
Definition decodebase64string (instr : list Z) (inlen : nat) (outspc : Z) : list Z * list Z :=
  let '(out, instr) := decode_loop inlen outspc [] [] instr in
  (out, drop (span (fun c => c =? $"=") instr) instr).

(** ** The encoder *)

Definition sextet (v : Z) : Z := nth (Z.to_nat (Z.land v 63)) base64encode_array 0.

(** The four characters of a group of up to three bytes, of which three are
    used for a group of one. *)
Definition b64group (g : list Z) : list Z :=
  let b64i := length g in
  let b64val := Z.shiftl (nth 0 g 0) 16 in
  let b64val := if (1 <? b64i)%nat then Z.lor b64val (Z.shiftl (nth 1 g 0) 8) else b64val in
  let b64val := if (2 <? b64i)%nat then Z.lor b64val (nth 2 g 0) else b64val in
  let o3 := if (b64i <? 3)%nat then $"=" else sextet b64val in
  let o2 := if (b64i <? 2)%nat then $"=" else sextet (Z.shiftr b64val 6) in
  let o1 := sextet (Z.shiftr b64val 12) in
  let o0 := sextet (Z.shiftr b64val 18) in
  take (if (b64i =? 1)%nat then 3 else 4) [o0; o1; o2; o3].

(** Add a group to the output, or as much of it as fits. *)
Definition put_group (g : list Z) (outspc : Z) (out : list Z) : list Z :=
  out ++ take (Z.to_nat (outspc - Z.of_nat (length out))) g.

Fixpoint encode_loop (outspc : Z) (out instr : list Z) : list Z :=
  if negb (Z.of_nat (length out) <? outspc) then out
  else
    match instr with
    | a :: b :: c :: instr => encode_loop outspc (put_group (b64group [a; b; c]) outspc out) instr
    | [] => out
    | g => put_group (b64group g) outspc out
    end.
Definition encodebase64string (instr : list Z) (outspc : Z) : list Z := encode_loop outspc [] instr.

(** ** Groups *)

#[local] Ltac Zify.zify_post_hook ::= Z.to_euclidean_division_equations.

Lemma lor_add x y n p : 2 ^ n = p -> 0 <= n -> 0 <= y < p -> Z.lor (Z.shiftl x n) y = x * p + y.
Proof.
  intros <- Hn Hy. rewrite <- Z.shiftl_mul_pow2 by done.
  assert (Z.land (Z.shiftl x n) y = 0) as Hd.
  { apply Z.bits_inj'. intros k Hk. rewrite Z.land_spec, Z.bits_0. destruct (Z.lt_ge_cases k n).
    - by rewrite Z.shiftl_spec_low.
    - rewrite <- (Z.mod_small y (2 ^ n)) by done. rewrite Z.mod_pow2_bits_high by lia. apply andb_false_r. }
  by rewrite Z.add_nocarry_lxor, Z.lxor_lor.
Qed.

Lemma land_63 v : Z.land v 63 = v mod 64.
Proof. change 63 with (Z.ones 6). by rewrite Z.land_ones. Qed.

(** Each sextet is decoded by the index table. *)
Lemma decode_sextet v : 0 <= v ->
  decodechar64 (sextet v) = v mod 64 /\ sextet v <> $"=".
Proof.
  intros Hv. unfold sextet. rewrite land_63. pose proof (Z.mod_pos_bound v 64 ltac:(lia)) as H.
  pose proof (byte_cases (fun s => (64 <=? s) ||
    ((decodechar64 (nth (Z.to_nat s) base64encode_array 0) =? s) &&
     negb (nth (Z.to_nat s) base64encode_array 0 =? $"="))) eq_refl (v mod 64) ltac:(lia)) as E.
  cbv beta in E. replace (64 <=? v mod 64) with false in E by lia. cbn [orb] in E. zbool. done.
Qed.

Definition byte8 (c : Z) : Prop := 0 <= c < 256.

(** The three ways two sextets give a byte. *)
Lemma join_2 s0 s1 : 0 <= s0 < 64 -> 0 <= s1 < 64 ->
  Z.lor (Z.shiftl s0 2) (Z.shiftr (Z.land s1 0x30) 4) mod 256 = s0 * 4 + s1 / 16.
Proof.
  intros H0 H1. pose proof (byte_cases (fun s => (64 <=? s) || (Z.shiftr (Z.land s 0x30) 4 =? s / 16)) eq_refl s1 ltac:(lia)) as E.
  cbv beta in E. replace (64 <=? s1) with false in E by lia. apply Z.eqb_eq in E. rewrite E.
  rewrite (lor_add _ _ 2 4) by (done || lia). rewrite Z.mod_small; lia.
Qed.

Lemma join_3 s1 s2 : 0 <= s1 < 64 -> 0 <= s2 < 64 ->
  Z.lor (Z.shiftl (Z.land s1 0x0f) 4) (Z.shiftr (Z.land s2 0x3c) 2) mod 256 = (s1 mod 16) * 16 + s2 / 4.
Proof.
  intros H1 H2. pose proof (byte_cases (fun s => (64 <=? s) || (Z.shiftr (Z.land s 0x3c) 2 =? s / 4)) eq_refl s2 ltac:(lia)) as E.
  cbv beta in E. replace (64 <=? s2) with false in E by lia. apply Z.eqb_eq in E. rewrite E.
  change 0x0f with (Z.ones 4). rewrite Z.land_ones by lia. change (2 ^ 4) with 16.
  rewrite (lor_add _ _ 4 16) by (done || lia). rewrite Z.mod_small; lia.
Qed.

Lemma join_4 s2 s3 : 0 <= s2 < 64 -> 0 <= s3 < 64 ->
  Z.lor (Z.shiftl s2 6) s3 mod 256 = (s2 mod 4) * 64 + s3.
Proof. intros H2 H3. rewrite (lor_add _ _ 6 64) by (done || lia). lia. Qed.

Section decoding.
Context (outspc : Z).

(** One character of the text of a group. *)
Lemma decode_step n b64c out v instr :
  0 <= v -> Z.of_nat (length out) < outspc ->
  decode_loop (S n) outspc b64c out (sextet v :: instr) =
  match b64c with
  | [] => decode_loop n outspc [v mod 64] out instr
  | [c0] => decode_loop n outspc [c0; v mod 64]
      (out ++ [Z.lor (Z.shiftl c0 2) (Z.shiftr (Z.land (v mod 64) 0x30) 4) mod 256]) instr
  | [c0; c1] => decode_loop n outspc [c0; c1; v mod 64]
      (out ++ [Z.lor (Z.shiftl (Z.land c1 0x0f) 4) (Z.shiftr (Z.land (v mod 64) 0x3c) 2) mod 256]) instr
  | _ :: _ :: c2 :: _ => decode_loop n outspc [] (out ++ [Z.lor (Z.shiftl c2 6) (v mod 64) mod 256]) instr
  end.
Proof.
  intros Hv Hs. destruct (decode_sextet v Hv) as [Hd He]. cbn [decode_loop].
  rewrite (proj2 (Z.ltb_lt _ _) Hs). cbn [negb]. rewrite (proj2 (Z.eqb_neq _ _) He), Hd.
  by rewrite (proj2 (Z.ltb_ge _ _)) by (apply Z.mod_pos_bound; lia).
Qed.

(** The sextets of a group of three bytes. *)
Lemma group_sextets a b c : byte8 a -> byte8 b -> byte8 c ->
  forall v, v = a * 65536 + b * 256 + c ->
  Z.shiftr v 18 mod 64 = a / 4 /\ Z.shiftr v 12 mod 64 = a mod 4 * 16 + b / 16 /\
  Z.shiftr v 6 mod 64 = b mod 16 * 4 + c / 64 /\ v mod 64 = c mod 64.
Proof.
  unfold byte8. intros Ha Hb Hc v Hv. rewrite !Z.shiftr_div_pow2 by lia.
  change (2 ^ 6) with 64; change (2 ^ 12) with 4096; change (2 ^ 18) with 262144.
  assert (v / 262144 = a / 4) as ->.
  { symmetry. apply Z.div_unique with (r := a mod 4 * 65536 + b * 256 + c); subst v; lia. }
  assert (v / 4096 = a * 16 + b / 16) as ->.
  { symmetry. apply Z.div_unique with (r := b mod 16 * 256 + c); subst v; lia. }
  assert (v / 64 = a * 1024 + b * 4 + c / 64) as ->.
  { symmetry. apply Z.div_unique with (r := c mod 64); subst v; lia. }
  repeat split; subst v.
  - apply Z.mod_small. lia.
  - symmetry. apply Z.mod_unique with (q := a / 4); lia.
  - symmetry. apply Z.mod_unique with (q := a * 16 + b / 16); lia.
  - symmetry. apply Z.mod_unique with (q := a * 1024 + b * 4 + c / 64); lia.
Qed.

(** The value of a group of three bytes; a missing byte counts as zero. *)
Lemma group_value a b c : byte8 a -> byte8 b -> byte8 c ->
  Z.lor (Z.lor (Z.shiftl a 16) (Z.shiftl b 8)) c = a * 65536 + b * 256 + c.
Proof.
  unfold byte8. intros Ha Hb Hc.
  replace (Z.lor (Z.shiftl a 16) (Z.shiftl b 8)) with (Z.shiftl (a * 256 + b) 8).
  - rewrite (lor_add _ _ 8 256) by (done || lia). lia.
  - change 16 with (8 + 8). rewrite <- Z.shiftl_shiftl, <- Z.shiftl_lor by lia. f_equal.
    by rewrite (lor_add _ _ 8 256) by (done || lia).
Qed.

Lemma decode_group3 a b c n out instr :
  byte8 a -> byte8 b -> byte8 c -> Z.of_nat (length out) + 3 <= outspc ->
  decode_loop (4 + n) outspc [] out (b64group [a; b; c] ++ instr) =
  decode_loop n outspc [] (out ++ [a; b; c]) instr.
Proof.
  intros Ha Hb Hc Hs. unfold b64group.
  cbn [length nth Nat.ltb Nat.leb Nat.eqb take app Nat.add].
  rewrite group_value by done. destruct (group_sextets a b c Ha Hb Hc _ eq_refl) as (E0 & E1 & E2 & E3).
  unfold byte8 in *.
  rewrite !decode_step by (rewrite ?Z.shiftr_nonneg, ?length_app; cbn; lia).
  rewrite E0, E1, E2, E3, join_2, join_3, join_4 by lia. rewrite <- !app_assoc. cbn [app].
  do 3 f_equal; [lia|]. f_equal; [lia|]. f_equal. lia.
Qed.

(** Behind the text: characters that are not of the alphabet. *)
Definition b64junk (c : Z) : Prop := c <> $"=" /\ decodechar64 c < 0.

Lemma decode_junk instr : forall n b64c out, Forall b64junk instr ->
  (decode_loop n outspc b64c out instr).1 = out.
Proof.
  induction instr as [|c instr IH]; intros [|n] b64c out H; try done; cbn [decode_loop].
  - by destruct (negb _).
  - destruct (negb _); [done|]. apply list.Forall_cons in H as [[Hc Hd] H].
    rewrite (proj2 (Z.eqb_neq _ _) Hc), (proj2 (Z.ltb_lt _ _) Hd). by apply IH.
Qed.

(** The decoder stops at the padding character, or in front of it when the
    output is full. *)
Lemma decode_pad n b64c out junk :
  exists left, decode_loop (S n) outspc b64c out ($"=" :: junk) = (out, left) /\
    (junk = [] -> drop (span (fun c => c =? $"=") left) left = []).
Proof.
  cbn [decode_loop]. destruct (Z.of_nat (length out) <? outspc); cbn [negb]; eexists; (split; [done|]); by intros ->.
Qed.

Lemma decode_group2 a b n out junk :
  byte8 a -> byte8 b -> Z.of_nat (length out) + 2 <= outspc ->
  exists left, decode_loop (4 + n) outspc [] out (b64group [a; b] ++ junk) = (out ++ [a; b], left) /\
    (junk = [] -> drop (span (fun c => c =? $"=") left) left = []).
Proof.
  intros Ha Hb Hs. unfold b64group. cbn [length nth Nat.ltb Nat.leb Nat.eqb take app Nat.add].
  pose proof (group_value a b 0 Ha Hb ltac:(unfold byte8; lia)) as E. rewrite Z.lor_0_r in E. rewrite E.
  destruct (group_sextets a b 0 Ha Hb ltac:(unfold byte8; lia) _ eq_refl) as (E0 & E1 & E2 & E3).
  unfold byte8 in *.
  rewrite !decode_step by (rewrite ?Z.shiftr_nonneg, ?length_app; cbn; lia).
  rewrite E0, E1, E2, join_2, join_3 by lia. rewrite <- !app_assoc. cbn [app].
  replace [a; b] with [a / 4 * 4 + (a mod 4 * 16 + b / 16) / 16;
    (a mod 4 * 16 + b / 16) mod 16 * 16 + (b mod 16 * 4 + 0 / 64) / 4] by (f_equal; [lia|f_equal; lia]).
  apply decode_pad.
Qed.

Lemma decode_group1 a n out junk :
  byte8 a -> Z.of_nat (length out) + 1 <= outspc ->
  exists left, decode_loop (3 + n) outspc [] out (b64group [a] ++ junk) = (out ++ [a], left) /\
    (junk = [] -> drop (span (fun c => c =? $"=") left) left = []).
Proof.
  intros Ha Hs. unfold b64group. cbn [length nth Nat.ltb Nat.leb Nat.eqb take app Nat.add].
  assert (byte8 0) as H0 by (unfold byte8; lia).
  pose proof (group_value a 0 0 Ha H0 H0) as E. cbn [Z.shiftl Z.lor] in E. rewrite !Z.lor_0_r in E. rewrite E.
  destruct (group_sextets a 0 0 Ha H0 H0 _ eq_refl) as (E0 & E1 & _ & _).
  unfold byte8 in *.
  rewrite !decode_step by (rewrite ?Z.shiftr_nonneg, ?length_app; cbn; lia).
  rewrite E0, E1, join_2 by lia.
  replace [a] with [a / 4 * 4 + (a mod 4 * 16 + 0 / 16) / 16] by (f_equal; lia).
  apply decode_pad.
Qed.
End decoding.

(** ** Whole texts *)

(** Induction over a list in steps of three, the last one shorter. *)
Lemma three_ind {A} (P : list A -> Prop) :
  P [] -> (forall a, P [a]) -> (forall a b, P [a; b]) ->
  (forall a b c l, P l -> P (a :: b :: c :: l)) -> forall l, P l.
Proof.
  intros H0 H1 H2 H3 l. induction l as [l IH] using (induction_ltof1 _ (@length A)).
  destruct l as [|a [|b [|c l]]]; [done..|]. apply H3, IH. unfold ltof. cbn. lia.
Qed.

(** The text of a string, without regard to space. *)
Fixpoint b64text (bs : list Z) : list Z :=
  match bs with
  | a :: b :: c :: bs => b64group [a; b; c] ++ b64text bs
  | [] => []
  | g => b64group g
  end.

Lemma b64text_length bs :
  Z.of_nat (length (b64text bs)) =
  Z.of_nat (length bs) / 3 * 4 + (let r := Z.of_nat (length bs) mod 3 in if r =? 0 then 0 else 2 + r).
Proof.
  induction bs as [|a|a b|a b c bs IH] using three_ind; [done..|].
  cbn [b64text]. rewrite length_app, Nat2Z.inj_add, IH. unfold b64group. cbn [length Nat.eqb take].
  replace (Z.of_nat (S (S (S (length bs))))) with (Z.of_nat (length bs) + 1 * 3) by lia.
  rewrite Z.div_add, Z.mod_add by lia. lia.
Qed.

Lemma put_group_fits g outspc out :
  Z.of_nat (length out + length g) <= outspc -> put_group g outspc out = out ++ g.
Proof. intros H. unfold put_group. rewrite take_ge; [done|lia]. Qed.

Lemma encode_loop_text bs : forall outspc out,
  Z.of_nat (length out + length (b64text bs)) <= outspc -> encode_loop outspc out bs = out ++ b64text bs.
Proof.
  induction bs as [|a|a b|a b c bs IH] using three_ind; intros outspc out Hs; cbn [encode_loop].
  - rewrite app_nil_r. by destruct (Z.of_nat (length out) <? outspc).
  - change (b64text [a]) with (b64group [a]) in *. rewrite (proj2 (Z.ltb_lt _ _)) by (cbn in Hs; lia).
    by apply put_group_fits.
  - change (b64text [a; b]) with (b64group [a; b]) in *. rewrite (proj2 (Z.ltb_lt _ _)) by (cbn in Hs; lia).
    by apply put_group_fits.
  - cbn [b64text] in *. rewrite length_app in Hs. assert (length (b64group [a; b; c]) = 4%nat) as H4 by done.
    rewrite (proj2 (Z.ltb_lt _ _)) by lia. cbn [negb].
    rewrite put_group_fits by lia. rewrite IH by (rewrite length_app; lia). by rewrite app_assoc.
Qed.

(** A text, and some of what stands behind it, decoded. *)
Lemma decode_loop_text outspc n junk bs : forall out,
  Forall byte8 bs -> Forall b64junk junk -> Z.of_nat (length out + length bs) <= outspc ->
  exists left, decode_loop (length (b64text bs) + n) outspc [] out (b64text bs ++ junk) = (out ++ bs, left) /\
    (junk = [] -> drop (span (fun c => c =? $"=") left) left = []).
Proof.
  induction bs as [|a|a b|a b c bs IH] using three_ind; intros out Hb Hj Hs; rewrite ?list.Forall_cons in Hb.
  - cbn [b64text length Nat.add app]. rewrite app_nil_r. exists (decode_loop n outspc [] out junk).2.
    rewrite <- (decode_junk outspc junk n [] out Hj) at 2. split; [by apply surjective_pairing|].
    intros ->. destruct n; cbn; [done|]. by destruct (negb _).
  - apply decode_group1; [by destruct Hb | cbn in Hs; lia].
  - apply decode_group2; [by destruct_and! Hb.. | cbn in Hs; lia].
  - destruct Hb as (Ha & Hb & Hc & Hbs). cbn [b64text]. rewrite length_app.
    change (length (b64group [a; b; c])) with 4%nat. cbn [length] in Hs. rewrite <- app_assoc, <- Nat.add_assoc.
    rewrite decode_group3 by (done || lia).
    destruct (IH (out ++ [a; b; c]) Hbs Hj) as (left & E & Hl); [rewrite length_app; cbn; lia|].
    exists left. split; [|done]. rewrite E. by rewrite <- app_assoc.
Qed.

(** ** Claims *)

(** C34: Decoding undoes encoding: when the encoder has room for the text and
    the decoder for the bytes, decodebase64string() on the whole output of
    encodebase64string() gives back the bytes and leaves none of the text,
    for every length of the string, also where the last group is short. *)
Theorem base64_round_trip bs espc dspc :
  Forall byte8 bs -> Z.of_nat (length (b64text bs)) <= espc -> Z.of_nat (length bs) <= dspc ->
  let text := encodebase64string bs espc in
  decodebase64string text (length text) dspc = (bs, []).
Proof.
  intros Hb He Hd. cbv zeta. unfold encodebase64string, decodebase64string.
  rewrite encode_loop_text by done. cbn [app].
  destruct (decode_loop_text dspc 0 [] bs [] Hb (Forall_nil_2 _) Hd) as (left & E & Hl).
  rewrite Nat.add_0_r, app_nil_r in E. by rewrite E, Hl.
Qed.

Lemma base64_round_trip_witness :
  let text := encodebase64string ($$"user") 100 in
  decodebase64string text (length text) 100 = ($$"user", []).
Proof.
  apply (base64_round_trip ($$"user") 100 100).
  - repeat constructor; vm_compute; intuition discriminate.
  - by vm_compute.
  - by vm_compute.
Defined.

(** A string whose length leaves one byte over is encoded with one
    padding character where the standard has two: the text is then not a
    multiple of four characters long, and exactly then. *)
Theorem base64_short_padding bs espc :
  Z.of_nat (length (b64text bs)) <= espc ->
  Z.of_nat (length (encodebase64string bs espc)) mod 4 = (if Z.of_nat (length bs) mod 3 =? 1 then 3 else 0).
Proof.
  intros He. unfold encodebase64string. rewrite encode_loop_text by done. cbn [app].
  rewrite b64text_length. cbv zeta. rewrite Z.add_comm, Z.mod_add by lia.
  pose proof (Z.mod_pos_bound (Z.of_nat (length bs)) 3 ltac:(lia)).
  assert (Z.of_nat (length bs) mod 3 = 0 \/ Z.of_nat (length bs) mod 3 = 1 \/ Z.of_nat (length bs) mod 3 = 2)
    as [-> | [-> | ->]] by lia; done.
Qed.

Lemma base64_short_padding_witness :
  Z.of_nat (length (encodebase64string ($$"user") 100)) mod 4 = 3.
Proof. apply (base64_short_padding ($$"user") 100). by vm_compute. Defined.
