(* ===== verification/Splay.v ===== *)
(** * Splay trees (lib/splay.c)

    The nodes live in a store of cells that point to each other, with links
    to both children and to the parent, as in the C code; every operation
    reads and writes single links.  Following a null or a wild pointer ends
    the run ([Wild]).  emalloc() waits until there is memory.  The statistics
    counters are unbounded here. *)

From Stdlib Require Import ZArith Lia.
From stdpp Require Import base tactics numbers list option gmap.
From S2P Require Import Prelude.

#[local] Open Scope Z_scope.

(** ** Data *)

Abbreviation loc := nat.
Abbreviation pointer := (option loc).  (** [None] is [NULL] *)

(** struct spblk *)
Record spblk := Spblk {
  leftlink : pointer; rightlink : pointer; uplink : pointer;
  key : Z; data : pointer; mark : Z
}.

(** struct sptree; its field symbols, another tree, is for the clients. *)
Record sptree := Sptree {
  root : pointer; free : pointer;
  eltscnt : Z; lookups : Z; lkpcmps : Z; enqs : Z; enqcmps : Z; splays : Z; splayloops : Z
}.

Definition set_leftlink (v : pointer) (b : spblk) : spblk :=
  Spblk v (rightlink b) (uplink b) (key b) (data b) (mark b).
Definition set_rightlink (v : pointer) (b : spblk) : spblk :=
  Spblk (leftlink b) v (uplink b) (key b) (data b) (mark b).
Definition set_uplink (v : pointer) (b : spblk) : spblk :=
  Spblk (leftlink b) (rightlink b) v (key b) (data b) (mark b).
Definition set_key (v : Z) (b : spblk) : spblk :=
  Spblk (leftlink b) (rightlink b) (uplink b) v (data b) (mark b).
Definition set_item (d : pointer) (m : Z) (b : spblk) : spblk :=
  Spblk (leftlink b) (rightlink b) (uplink b) (key b) d m.

(** The cells, where the next ones will be allocated, and the tree. *)
Record world := World { cells : gmap loc spblk; brk : loc; q : sptree }.

Inductive trouble := Wild | Fuel.
Abbreviation sp := (EX world trouble).

Definition set_cells (v : gmap loc spblk) (w : world) : world := World v (brk w) (q w).
Definition set_q (v : sptree) (w : world) : world := World (cells w) (brk w) v.
Definition set_root (v : pointer) (w : world) : world :=
  set_q (Sptree v (free (q w)) (eltscnt (q w)) (lookups (q w)) (lkpcmps (q w)) (enqs (q w))
    (enqcmps (q w)) (splays (q w)) (splayloops (q w))) w.
Definition set_free (v : pointer) (w : world) : world :=
  set_q (Sptree (root (q w)) v (eltscnt (q w)) (lookups (q w)) (lkpcmps (q w)) (enqs (q w))
    (enqcmps (q w)) (splays (q w)) (splayloops (q w))) w.

(** Add to the counters, in the order of the record. *)
Definition count (e l c n nc s sl : Z) (w : world) : world :=
  let q := q w in
  set_q (Sptree (root q) (free q) (eltscnt q + e) (lookups q + l) (lkpcmps q + c) (enqs q + n)
    (enqcmps q + nc) (splays q + s) (splayloops q + sl)) w.

(** ** Access through pointers *)

Definition get (p : pointer) : sp spblk :=
  match p with
  | None => exit Wild
  | Some n => m ← read cells; match m !! n with Some b => mret b | None => exit Wild end
  end.

Definition put (p : pointer) (f : spblk -> spblk) : sp unit :=
  match p with
  | None => exit Wild
  | Some n =>
      m ← read cells;
      match m !! n with
      | Some b => update (set_cells (<[n := f b]> m))
      | None => exit Wild
      end
  end.

(** [if (p != NULL) p->uplink = v] *)
Definition put_up (p : pointer) (v : pointer) : sp unit :=
  if p is Some _ then put p (set_uplink v) else mret tt.

Definition SORTED (a b : Z) : bool := a <? b.

(** ** Allocation *)

(** [memset(n, 0, sizeof( *n))] *)
Definition zeroed : spblk := Spblk None None None 0 None 0.

Definition CHUNK : nat := 1000.

(** The cells of a new chunk at [n], chained by their left links. *)
Definition chunk (n : loc) : list (loc * spblk) :=
  (fun i => ((n + i)%nat,
     set_leftlink (if (i <? CHUNK - 1)%nat then Some (n + i + 1)%nat else None) zeroed)) <$> seq 0 CHUNK.

Definition more_free : sp unit :=
  update (fun w =>
    set_free (Some (brk w)) (World (list_to_map (chunk (brk w)) ∪ cells w) (brk w + CHUNK)%nat (q w))).

Definition _sp_alloc (k : Z) : sp pointer :=
  f ← read (fun w => free (q w));
  (if f is None then more_free else mret tt);;
  n ← read (fun w => free (q w));
  b ← get n;
  update (set_free (leftlink b));;
  put n (fun b => Spblk None None None k (data b) (mark b));;
  mret n.

(** Back to the free pool. *)
Definition release (n : pointer) : sp unit :=
  f ← read (fun w => free (q w));
  put n (fun _ => set_leftlink f zeroed);;
  update (set_free n).

(** ** _splay() *)

(** The rotation when [up] is a left child of a left child: the new parent
    of [up]. *)
Definition rotate_right (up upup : pointer) : sp pointer :=
  uu ← get upup;
  let upupup := uplink uu in
  u ← get up;
  put upup (set_leftlink (rightlink u));;
  put_up (rightlink u) upup;;
  put up (set_rightlink upup);;
  put upup (set_uplink up);;
  (if upupup is None then update (set_root up)
   else
     g ← get upupup;
     if bool_decide (leftlink g = upup) then put upupup (set_leftlink up)
     else put upupup (set_rightlink up));;
  put up (set_uplink upupup);;
  mret upupup.

Definition rotate_left (up upup : pointer) : sp pointer :=
  uu ← get upup;
  let upupup := uplink uu in
  u ← get up;
  put upup (set_rightlink (leftlink u));;
  put_up (leftlink u) upup;;
  put up (set_leftlink upup);;
  put upup (set_uplink up);;
  (if upupup is None then update (set_root up)
   else
     g ← get upupup;
     if bool_decide (rightlink g = upup) then put upupup (set_rightlink up)
     else put upupup (set_leftlink up));;
  put up (set_uplink upupup);;
  mret upupup.

(** [upup != NULL && upup->link == up] *)
Definition child_of (link : spblk -> pointer) (upup up : pointer) : sp bool :=
  if upup is Some _ then b ← get upup; mret (bool_decide (link b = up)) else mret false.

Fixpoint splay_loop (fuel : nat) (prev up left right : pointer) : sp (pointer * pointer) :=
  match up with
  | None => mret (left, right)
  | Some _ =>
      match fuel with
      | O => exit Fuel
      | S fuel =>
          update (count 0 0 0 0 0 0 1);;
          u ← get up;
          let upup := uplink u in
          if bool_decide (leftlink u = prev) then
            c ← child_of leftlink upup up;
            upup ← (if c : bool then rotate_right up upup else mret upup);
            put up (set_leftlink right);;
            put_up right up;;
            splay_loop fuel up upup left up
          else
            c ← child_of rightlink upup up;
            upup ← (if c : bool then rotate_left up upup else mret upup);
            put up (set_rightlink left);;
            put_up left up;;
            splay_loop fuel up upup up right
      end
  end.

(** Fuel: the loop takes at most one round per cell. *)
Definition all_cells : sp nat := read (fun w => size (cells w)).

Definition _splay (n : pointer) : sp unit :=
  b ← get n;
  update (count 0 0 0 0 0 1 0);;
  fuel ← all_cells;
  '(lft, rgt) ← splay_loop fuel n (uplink b) (leftlink b) (rightlink b);
  put n (set_leftlink lft);;
  put n (set_rightlink rgt);;
  put_up lft n;;
  put_up rgt n;;
  update (set_root n);;
  put n (set_uplink None).

(** ** Lookup and insertion *)

Fixpoint lookup_loop (fuel : nat) (k : Z) (n : pointer) : sp pointer :=
  match n with
  | None => mret None
  | Some _ =>
      match fuel with
      | O => exit Fuel
      | S fuel =>
          b ← get n;
          if k =? key b then mret n
          else
            update (count 0 0 1 0 0 0 0);;
            lookup_loop fuel k (if SORTED k (key b) then leftlink b else rightlink b)
      end
  end.

Definition sp_lookup (k : Z) : sp pointer :=
  r ← read (fun w => root (q w));
  update (count 0 1 1 0 0 0 0);;
  fuel ← all_cells;
  n ← lookup_loop fuel k r;
  (if n is Some _ then _splay n else mret tt);;
  mret n.

(** The two loops of _sp_enq(): [one] is that of the left tree. *)
Fixpoint enq_loop (fuel : nat) (k : Z) (one : bool) (left right next : pointer) : sp unit :=
  match fuel with
  | O => exit Fuel
  | S fuel =>
      if one then
        nx ← get next;
        let temp := rightlink nx in
        match temp with
        | None =>
            put left (set_rightlink next);;
            put next (set_uplink left);;
            put right (set_leftlink None)
        | Some _ =>
            update (count 0 0 0 0 1 0 0);;
            t ← get temp;
            if negb (SORTED (key t) k) then
              put left (set_rightlink next);;
              put next (set_uplink left);;
              enq_loop fuel k false next right temp
            else
              put next (set_rightlink (leftlink t));;
              put_up (leftlink t) next;;
              put left (set_rightlink temp);;
              put temp (set_uplink left);;
              put temp (set_leftlink next);;
              put next (set_uplink temp);;
              t ← get temp;
              match rightlink t with
              | None => put right (set_leftlink None)
              | Some _ =>
                  update (count 0 0 0 0 1 0 0);;
                  nx ← get (rightlink t);
                  enq_loop fuel k (SORTED (key nx) k) temp right (rightlink t)
              end
        end
      else
        nx ← get next;
        let temp := leftlink nx in
        match temp with
        | None =>
            put right (set_leftlink next);;
            put next (set_uplink right);;
            put left (set_rightlink None)
        | Some _ =>
            update (count 0 0 0 0 1 0 0);;
            t ← get temp;
            if SORTED (key t) k then
              put right (set_leftlink next);;
              put next (set_uplink right);;
              enq_loop fuel k true left next temp
            else
              put next (set_leftlink (rightlink t));;
              put_up (rightlink t) next;;
              put right (set_leftlink temp);;
              put temp (set_uplink right);;
              put temp (set_rightlink next);;
              put next (set_uplink temp);;
              t ← get temp;
              match leftlink t with
              | None => put left (set_rightlink None)
              | Some _ =>
                  update (count 0 0 0 0 1 0 0);;
                  nx ← get (leftlink t);
                  enq_loop fuel k (SORTED (key nx) k) left temp (leftlink t)
              end
        end
  end.

Definition _sp_enq (n : pointer) : sp pointer :=
  update (count 0 0 0 1 0 0 0);;
  put n (set_uplink None);;
  next ← read (fun w => root (q w));
  update (set_root n);;
  match next with
  | None =>
      put n (set_leftlink None);;
      put n (set_rightlink None)
  | Some _ =>
      b ← get n;
      update (count 0 0 0 0 1 0 0);;
      nx ← get next;
      fuel ← all_cells;
      enq_loop fuel (key b) (SORTED (key nx) (key b)) n n next;;
      b ← get n;
      let temp := leftlink b in
      put n (set_leftlink (rightlink b));;
      put n (set_rightlink temp)
  end;;
  mret n.

Definition sp_install (k : Z) (d : pointer) (m : Z) : sp pointer :=
  n ← sp_lookup k;
  n ← (if n is None then
         n ← _sp_alloc k;
         update (count 1 0 0 0 0 0 0);;
         _sp_enq n;;
         mret n
       else mret n);
  put n (set_item d m);;
  mret n.

(** ** Deletion *)

Fixpoint deq_loop (fuel : nat) (next left : pointer) : sp pointer :=
  match fuel with
  | O => exit Fuel
  | S fuel =>
      l ← get left;
      match leftlink l with
      | None =>
          put next (set_leftlink (rightlink l));;
          put_up (rightlink l) next;;
          mret left
      | Some farleft =>
          let farleft := Some farleft in
          f ← get farleft;
          match leftlink f with
          | None =>
              put left (set_leftlink (rightlink f));;
              put_up (rightlink f) left;;
              mret farleft
          | Some farfarleft =>
              put next (set_leftlink farleft);;
              put farleft (set_uplink next);;
              put left (set_leftlink (rightlink f));;
              put_up (rightlink f) left;;
              put farleft (set_rightlink left);;
              put left (set_uplink farleft);;
              deq_loop fuel farleft (Some farfarleft)
          end
      end
  end.

(** _sp_deq() on the pointer that [link] of the cell [p] holds. *)
Definition _sp_deq_right (p : pointer) : sp pointer :=
  b ← get p;
  let next := rightlink b in
  match next with
  | None => mret None
  | Some _ =>
      nx ← get next;
      match leftlink nx with
      | None =>
          put p (set_rightlink (rightlink nx));;
          put_up (rightlink nx) None;;
          mret next
      | Some lft =>
          fuel ← all_cells;
          deq_loop fuel next (Some lft)
      end
  end.

Definition sp_delete (n : pointer) : sp unit :=
  _splay n;;
  r ← read (fun w => root (q w));
  x ← _sp_deq_right r;
  rb ← get r;
  (if x is None then
     update (set_root (leftlink rb));;
     put_up (leftlink rb) None
   else
     put x (set_uplink None);;
     put x (set_leftlink (leftlink rb));;
     put x (set_rightlink (rightlink rb));;
     put_up (leftlink rb) x;;
     put_up (rightlink rb) x;;
     update (set_root x));;
  release n;;
  update (count (-1) 0 0 0 0 0 0).

(** ** Traversal *)

Fixpoint leftmost (fuel : nat) (x : pointer) : sp pointer :=
  match fuel with
  | O => exit Fuel
  | S fuel =>
      b ← get x;
      if leftlink b is Some _ then leftmost fuel (leftlink b) else mret x
  end.

Definition sp_fhead : sp pointer :=
  x ← read (fun w => root (q w));
  fuel ← all_cells;
  if x is Some _ then leftmost fuel x else mret None.

(** The first ancestor of which [n] is in the left subtree. *)
Fixpoint climb (fuel : nat) (n x : pointer) : sp pointer :=
  match x with
  | None => mret None
  | Some _ =>
      match fuel with
      | O => exit Fuel
      | S fuel =>
          b ← get x;
          if bool_decide (leftlink b = n) then mret x else climb fuel x (uplink b)
      end
  end.

Definition sp_fnext (n : pointer) : sp pointer :=
  match n with
  | None => mret None
  | Some _ =>
      fuel ← all_cells;
      b ← get n;
      if rightlink b is Some _ then leftmost fuel (rightlink b) else climb fuel n (uplink b)
  end.

(** The function given to sp_scan() works on other data, too. *)
Definition on_tree {X A} (m : sp A) : EX (world * X) trouble A :=
  fun s => let (r, w) := m s.1 in (r, (w, s.2)).

Fixpoint scan_loop {X} (fuel : nat) (f : loc -> EX (world * X) trouble unit) (x : pointer) : EX (world * X) trouble unit :=
  match x with
  | None => mret tt
  | Some n =>
      match fuel with
      | O => exit Fuel
      | S fuel => nextx ← on_tree (sp_fnext x); f n;; scan_loop fuel f nextx
      end
  end.

Definition sp_scan {X} (f : loc -> EX (world * X) trouble unit) (n : pointer) : EX (world * X) trouble unit :=
  fuel ← on_tree all_cells;
  x ← (if n is Some _ then mret n else on_tree sp_fhead);
  scan_loop fuel f x.

(** ** Emptying *)

Fixpoint _sp_chop (fuel : nat) (n : pointer) : sp unit :=
  match fuel with
  | O => exit Fuel
  | S fuel =>
      b ← get n;
      (if rightlink b is Some _ then _sp_chop fuel (rightlink b) else mret tt);;
      b ← get n;
      (if leftlink b is Some _ then _sp_chop fuel (leftlink b) else mret tt);;
      release n
  end.

Definition sp_null : sp unit :=
  r ← read (fun w => root (q w));
  if r is Some _ then
    fuel ← all_cells;
    _sp_chop fuel r;;
    update (fun w => set_q (Sptree None (free (q w)) 0 0 0 0 0 0 0) w)
  else mret tt.

Definition sp_init : sptree := Sptree None None 0 0 0 0 0 0 0.
