(* ===== verification/SplayTree.v ===== *)
(** * Trees and the cells that hold them

    The shape of a splay tree as an inductive type, paths into it, and what
    it means that the cells of lib/splay.c represent a tree.  Rules for the
    reads and writes of single links keep track of what the other cells
    represent. *)

From Stdlib Require Import ZArith Lia.
From stdpp Require Import base tactics numbers list option gmap.
From S2P Require Import Prelude Splay.

#[local] Open Scope Z_scope.

(** ** Trees *)

(** A node: where it is, and what it holds. *)
Record item := Item { i_loc : loc; i_key : Z; i_data : pointer; i_mark : Z }.

Inductive tree := Leaf | Node (l : tree) (x : item) (r : tree).

Fixpoint items (t : tree) : list item :=
  match t with Leaf => [] | Node l x r => items l ++ [x] ++ items r end.
Definition locs (t : tree) : list loc := i_loc <$> items t.
Definition top (t : tree) : pointer := match t with Leaf => None | Node _ x _ => Some (i_loc x) end.

Lemma locs_node l x r : locs (Node l x r) = locs l ++ i_loc x :: locs r.
Proof. unfold locs. cbn. by rewrite fmap_app. Qed.

Lemma top_in t n : top t = Some n -> n ∈ locs t.
Proof. destruct t; [done|]. intros [= <-]. rewrite locs_node. clear. set_solver. Qed.

Lemma top_not t n : n ∉ locs t -> top t <> Some n.
Proof. intros Hn Ht%top_in. done. Qed.

(** A path from the root to a subtree, from the bottom up: on which side of
    its parent the subtree is, the parent, and its other subtree. *)
Inductive side := Lft | Rgt.
Abbreviation frame := (side * item * tree)%type.

Definition plug1 (t : tree) (f : frame) : tree :=
  match f with (Lft, x, u) => Node t x u | (Rgt, x, u) => Node u x t end.
Definition plug (t : tree) (c : list frame) : tree := fold_left plug1 c t.
Lemma plug_cons t f c : plug t (f :: c) = plug (plug1 t f) c.
Proof. done. Qed.

(** The node above the subtree; [u] is above the whole tree. *)
Definition ctop (u : pointer) (c : list frame) : pointer :=
  match c with [] => u | (_, x, _) :: _ => Some (i_loc x) end.
Fixpoint clocs (c : list frame) : list loc :=
  match c with [] => [] | (_, x, u) :: c => i_loc x :: locs u ++ clocs c end.

(** ** Representation *)

Definition cell (l r u : pointer) (x : item) : spblk := Spblk l r u (i_key x) (i_data x) (i_mark x).

Fixpoint rep (h : gmap loc spblk) (u : pointer) (t : tree) : Prop :=
  match t with
  | Leaf => True
  | Node l x r =>
      h !! i_loc x = Some (cell (top l) (top r) u x) /\ rep h (Some (i_loc x)) l /\ rep h (Some (i_loc x)) r
  end.

(** The cells of a path; [p] is the link to the subtree below, and [up] the
    node above the whole tree. *)
Fixpoint repc (h : gmap loc spblk) (up p : pointer) (c : list frame) : Prop :=
  match c with
  | [] => True
  | (Lft, x, u) :: c =>
      h !! i_loc x = Some (cell p (top u) (ctop up c) x) /\ rep h (Some (i_loc x)) u /\ repc h up (Some (i_loc x)) c
  | (Rgt, x, u) :: c =>
      h !! i_loc x = Some (cell (top u) p (ctop up c) x) /\ rep h (Some (i_loc x)) u /\ repc h up (Some (i_loc x)) c
  end.

Lemma rep_plug h up c : forall t, rep h up (plug t c) <-> rep h (ctop up c) t /\ repc h up (top t) c.
Proof.
  induction c as [|[[[] x] u] c IH]; intros t; rewrite ?plug_cons; cbn [plug1 ctop repc].
  - cbn. tauto.
  - rewrite IH. cbn [rep top]. tauto.
  - rewrite IH. cbn [rep top]. tauto.
Qed.

Lemma locs_plug c : forall t, locs (plug t c) ≡ₚ locs t ++ clocs c.
Proof.
  induction c as [|[[[] x] u] c IH]; intros t; rewrite ?plug_cons; cbn [plug1 clocs].
  - by rewrite app_nil_r.
  - rewrite IH, locs_node. by rewrite <- app_assoc.
  - rewrite IH, locs_node. rewrite <- app_assoc. cbn. rewrite <- !Permutation_middle.
    rewrite (Permutation_app_swap_app). done.
Qed.

(** ** Different nodes *)

Definition apart (a b : list loc) : Prop := forall m, m ∈ a -> m ∉ b.

Lemma apart_nil_l b : apart [] b.
Proof. unfold apart. set_solver. Qed.
Lemma apart_cons_l x a b : apart (x :: a) b <-> x ∉ b /\ apart a b.
Proof. unfold apart. set_solver. Qed.
Lemma apart_app_l a1 a2 b : apart (a1 ++ a2) b <-> apart a1 b /\ apart a2 b.
Proof. unfold apart. set_solver. Qed.
Lemma apart_nil_r a : apart a [].
Proof. unfold apart. set_solver. Qed.
Lemma apart_cons_r x a b : apart a (x :: b) <-> x ∉ a /\ apart a b.
Proof. unfold apart. set_solver. Qed.
Lemma apart_app_r a b1 b2 : apart a (b1 ++ b2) <-> apart a b1 /\ apart a b2.
Proof. unfold apart. set_solver. Qed.
Lemma apart_sym a b : apart a b -> apart b a.
Proof. unfold apart. set_solver. Qed.
Lemma nodup_app (a b : list loc) : NoDup (a ++ b) <-> NoDup a /\ apart a b /\ NoDup b.
Proof. apply NoDup_app. Qed.
Lemma nodup_cons (x : loc) (a : list loc) : NoDup (x :: a) <-> x ∉ a /\ NoDup a.
Proof. apply NoDup_cons. Qed.
Lemma notin_cons (x y : loc) (a : list loc) : x ∉ y :: a <-> x <> y /\ x ∉ a.
Proof. apply not_elem_of_cons. Qed.
Lemma notin_app (x : loc) (a b : list loc) : x ∉ a ++ b <-> x ∉ a /\ x ∉ b.
Proof. apply not_elem_of_app. Qed.

(** Take apart what is known about different nodes, and put it together. *)
Ltac spread :=
  repeat match goal with
  | H : context [locs (Node _ _ _)] |- _ => rewrite locs_node in H
  | H : context [clocs ((_, _, _) :: _)] |- _ => progress cbn [clocs] in H
  | H : NoDup (_ :: _) |- _ => apply nodup_cons in H as [? ?]
  | H : NoDup (_ ++ _) |- _ => apply nodup_app in H as (? & ? & ?)
  | H : _ ∉ _ :: _ |- _ => apply notin_cons in H as [? ?]
  | H : _ ∉ _ ++ _ |- _ => apply notin_app in H as [? ?]
  | H : apart (_ :: _) _ |- _ => apply apart_cons_l in H as [? ?]
  | H : apart (_ ++ _) _ |- _ => apply apart_app_l in H as [? ?]
  | H : apart _ (_ :: _) |- _ => apply apart_cons_r in H as [? ?]
  | H : apart _ (_ ++ _) |- _ => apply apart_app_r in H as [? ?]
  end.
Ltac apart_one :=
  lazymatch goal with
  | |- apart [] _ => apply apart_nil_l
  | |- apart _ [] => apply apart_nil_r
  | |- _ ∉ [] => apply not_elem_of_nil
  | |- apart _ _ => first [assumption | apply apart_sym; assumption]
  | |- _ <> _ => first [assumption | apply not_eq_sym; assumption]
  | |- _ => first [assumption | apply NoDup_nil_2]
  end.
Ltac apart :=
  repeat match goal with
  | |- context [locs (Node _ _ _)] => rewrite locs_node
  | |- context [clocs ((_, _, _) :: _)] => progress cbn [clocs]
  | |- NoDup (_ :: _) => apply nodup_cons; split
  | |- NoDup (_ ++ _) => apply nodup_app; split_and!
  | |- _ ∉ _ :: _ => apply notin_cons; split
  | |- _ ∉ _ ++ _ => apply notin_app; split
  | |- apart (_ :: _) _ => apply apart_cons_l; split
  | |- apart (_ ++ _) _ => apply apart_app_l; split
  | |- apart _ (_ :: _) => apply apart_cons_r; split
  | |- apart _ (_ ++ _) => apply apart_app_r; split
  end; apart_one.

(** ** Agreement outside of some cells *)

Definition agree (S : list loc) (h h' : gmap loc spblk) : Prop :=
  forall m, m ∉ S -> h' !! m = h !! m.

Lemma agree_trans S h1 h2 h3 : agree S h1 h2 -> agree S h2 h3 -> agree S h1 h3.
Proof. intros H1 H2 m Hm. by rewrite H2, H1. Qed.

Lemma agree_mono S S' h h' : agree S h h' -> S ⊆ S' -> agree S' h h'.
Proof. intros H Hs m Hm. apply H. set_solver. Qed.

Lemma rep_agree S h h' u t : agree S h h' -> apart S (locs t) -> rep h u t -> rep h' u t.
Proof.
  intros Ha. revert u. induction t as [|l IHl x r IHr]; intros u Hd; cbn [rep]; [done|].
  spread. intros (Hx & Hl & Hr). rewrite Ha by done.
  split_and!; [done | by apply IHl | by apply IHr].
Qed.

Lemma repc_agree S h h' up p c : agree S h h' -> apart S (clocs c) -> repc h up p c -> repc h' up p c.
Proof.
  intros Ha. revert p. induction c as [|[[[] x] u] c IH]; intros p Hd; cbn [repc]; [done|..];
    spread; intros (Hx & Hu & Hc); (rewrite Ha by done);
    (split_and!; [done | by eapply rep_agree | by apply IH]).
Qed.

(** The nodes of a tree have cells, so that there are at least as many. *)
Lemma rep_cells h t : forall u, rep h u t -> forall m, m ∈ locs t -> is_Some (h !! m).
Proof.
  induction t as [|l IHl x r IHr]; intros u; cbn [rep].
  - intros _ m Hm. by apply elem_of_nil in Hm.
  - intros (Hx & Hl & Hr) m. rewrite locs_node, elem_of_app, elem_of_cons.
    intros [Hm | [-> | Hm]]; [by eapply IHl | by rewrite Hx | by eapply IHr].
Qed.

Lemma cells_size (h : gmap loc spblk) (l : list loc) :
  NoDup l -> (forall m, m ∈ l -> is_Some (h !! m)) -> (length l <= size h)%nat.
Proof.
  intros Hnd Hin. rewrite <- size_dom, <- (size_list_to_set (C := gset loc)) by done.
  apply subseteq_size. intros m Hm. apply elem_of_list_to_set in Hm. by apply elem_of_dom, Hin.
Qed.

Lemma rep_size h u t : NoDup (locs t) -> rep h u t -> (length (locs t) <= size h)%nat.
Proof. intros Hnd Hr. apply cells_size; [done|]. by eapply rep_cells. Qed.

(** The link of a root to its parent. *)
Lemma rep_relink h u v t : NoDup (locs t) -> rep h u t ->
  exists h', agree (locs t) h h' /\ rep h' v t /\
    match top t with
    | None => h' = h
    | Some n => exists b, h !! n = Some b /\ h' = <[n := set_uplink v b]> h
    end.
Proof.
  destruct t as [|l x r]; cbn [top rep].
  - intros _ _. by exists h.
  - intros Hnd (Hx & Hl & Hr). spread.
    exists (<[i_loc x := set_uplink v (cell (top l) (top r) u x)]> h).
    assert (agree [i_loc x] h (<[i_loc x := set_uplink v (cell (top l) (top r) u x)]> h)) as Ha.
    { intros m Hm. apply lookup_insert_ne. set_solver. }
    split_and!.
    + eapply agree_mono; [done|]. rewrite locs_node. clear. set_solver.
    + by rewrite lookup_insert_eq.
    + eapply rep_agree; [done | apart | done].
    + eapply rep_agree; [done | apart | done].
    + eauto.
Qed.

(** ** Rules for single reads and writes *)

Section rules.
Context {A : Type} (E : trouble -> world -> Prop) (Q : A -> world -> Prop).

Lemma wpx_get n b (k : spblk -> sp A) w :
  cells w !! n = Some b -> wpx (k b) E Q w -> wpx (get (Some n) ≫= k) E Q w.
Proof. intros Hb Hk. unfold get. apply wpx_bind, wpx_bind, wpx_read. by rewrite Hb. Qed.

Lemma wpx_put n b f (k : unit -> sp A) h br tr :
  h !! n = Some b ->
  (forall h', h' !! n = Some (f b) -> agree [n] h h' -> wpx (k tt) E Q (World h' br tr)) ->
  wpx (put (Some n) f ≫= k) E Q (World h br tr).
Proof.
  intros Hb Hk. unfold put. apply wpx_bind, wpx_bind, wpx_read. cbn [cells]. rewrite Hb. apply wpx_update.
  apply Hk; [by rewrite lookup_insert_eq|]. intros m Hm. apply lookup_insert_ne. set_solver.
Qed.

Lemma wpx_put_last n b f (Q' : unit -> world -> Prop) h br tr :
  h !! n = Some b ->
  (forall h', h' !! n = Some (f b) -> agree [n] h h' -> Q' tt (World h' br tr)) ->
  wpx (put (Some n) f) E Q' (World h br tr).
Proof.
  intros Hb Hk. unfold put. apply wpx_bind, wpx_read. cbn [cells]. rewrite Hb. apply wpx_update.
  apply Hk; [by rewrite lookup_insert_eq|]. intros m Hm. apply lookup_insert_ne. set_solver.
Qed.

Lemma wpx_put_up u v t (k : unit -> sp A) h br tr :
  rep h u t -> NoDup (locs t) ->
  (forall h', rep h' v t -> agree (locs t) h h' -> wpx (k tt) E Q (World h' br tr)) ->
  wpx (put_up (top t) v ≫= k) E Q (World h br tr).
Proof.
  intros Ht Hnd Hk. destruct (rep_relink h u v t Hnd Ht) as (h' & Ha & Hr & Hh). unfold put_up, put.
  destruct (top t) as [n|].
  - destruct Hh as (b & Hb & ->). apply wpx_bind, wpx_bind, wpx_read. cbn [cells]. rewrite Hb. apply wpx_update. by apply Hk.
  - subst h'. apply wpx_bind, wpx_ret. by apply Hk.
Qed.
End rules.
