(* ===== verification/SplayRefine.v ===== *)
(** * Splaying

    What _splay() of lib/splay.c does to the cells, as a function on trees:
    the path from the node to the root is split into the tree to its left
    and the tree to its right, with rotations that shorten it. *)

From Stdlib Require Import ZArith Lia.
From stdpp Require Import base tactics numbers list option gmap.
From S2P Require Import Prelude Splay SplayTree.

#[local] Open Scope Z_scope.

(** ** Automation *)

(** Two states of the cells agree, by the writes between them. *)
Ltac chain :=
  let m := fresh "m" in let Hm := fresh "Hm" in intros m Hm; spread;
  repeat match goal with A : agree _ _ ?h' |- ?h' !! m = _ => rewrite (A m ltac:(apart)); clear A end;
  reflexivity.

(** What holds of the cells before a write holds behind it for all that the
    write does not touch. *)
Ltac transport Ha :=
  lazymatch type of Ha with
  | agree ?S ?h ?h' =>
      repeat match goal with
      | H : rep h ?u ?t |- _ => apply (rep_agree S h h' u t Ha ltac:(apart)) in H
      | H : repc h ?up ?p ?c |- _ => apply (repc_agree S h h' up p c Ha ltac:(apart)) in H
      | H : h !! ?m = Some _ |- _ => rewrite <- (Ha m ltac:(apart)) in H
      end
  end.

(** ** The rotations *)

(** The fields of the tree record that splaying leaves alone. *)
Definition same_pool (tr tr' : sptree) : Prop := free tr' = free tr /\ eltscnt tr' = eltscnt tr.

Ltac pool := unfold same_pool in *; cbn in *; intuition (congruence || lia).

Lemma rotate_right_run {A} E (Q : A -> world -> Prop) (k : pointer -> sp A) x y t u c p h br tr :
  h !! i_loc x = Some (cell p (top t) (Some (i_loc y)) x) -> rep h (Some (i_loc x)) t ->
  h !! i_loc y = Some (cell (Some (i_loc x)) (top u) (ctop None c) y) -> rep h (Some (i_loc y)) u ->
  repc h None (Some (i_loc y)) c -> NoDup (i_loc x :: i_loc y :: locs t ++ locs u ++ clocs c) ->
  (forall h' tr',
    h' !! i_loc x = Some (cell p (Some (i_loc y)) (ctop None c) x) ->
    h' !! i_loc y = Some (cell (top t) (top u) (Some (i_loc x)) y) ->
    rep h' (Some (i_loc y)) t -> rep h' (Some (i_loc y)) u -> repc h' None (Some (i_loc x)) c ->
    agree (i_loc x :: i_loc y :: locs t ++ clocs c) h h' -> same_pool tr tr' ->
    wpx (k (ctop None c)) E Q (World h' br tr')) ->
  wpx (rotate_right (Some (i_loc x)) (Some (i_loc y)) ≫= k) E Q (World h br tr).
Proof.
  intros Hx Ht Hy Hu Hc Hnd Hk. spread. unfold rotate_right.
  apply wpx_bind. eapply wpx_get; [exact Hy|]. eapply wpx_get; [exact Hx|]. cbn [uplink rightlink cell].
  eapply wpx_put; [exact Hy|]. intros h1 Hy1 A1. clear Hy. transport A1.
  eapply wpx_put_up; [exact Ht | apart |]. intros h2 Ht2 A2. clear Ht. transport A2.
  eapply wpx_put; [exact Hx|]. intros h3 Hx3 A3. clear Hx. transport A3.
  eapply wpx_put; [exact Hy1|]. intros h4 Hy4 A4. clear Hy1. transport A4.
  destruct c as [|[[sd z] w] c]; cbn [ctop].
  - apply wpx_bind, wpx_update. unfold set_root, set_q. cbn [cells brk q].
    eapply wpx_put; [exact Hx3|]. intros h5 Hx5 A5. clear Hx3. transport A5.
    apply wpx_ret. apply Hk; try done. chain.
  - cbn [repc] in *. spread.
    assert (h4 !! i_loc z = Some (if sd then cell (Some (i_loc y)) (top w) (ctop None c) z
                                  else cell (top w) (Some (i_loc y)) (ctop None c) z) /\
            rep h4 (Some (i_loc z)) w /\ repc h4 None (Some (i_loc z)) c) as (Hz & Hw & Hc2) by (by destruct sd).
    clear Hc. apply wpx_bind. eapply wpx_get; [exact Hz|].
    assert (bool_decide (leftlink (if sd then cell (Some (i_loc y)) (top w) (ctop None c) z
                                  else cell (top w) (Some (i_loc y)) (ctop None c) z) = Some (i_loc y)) =
            match sd with Lft => true | Rgt => false end) as ->.
    { destruct sd; [by apply bool_decide_true | apply bool_decide_false].
      cbn. apply top_not. apart. }
    destruct sd.
    + eapply wpx_put_last; [exact Hz|]. cbn [set_leftlink cell]. intros h5 Hz5 A5. clear Hz. transport A5.
      eapply wpx_put; [exact Hx3|]. intros h6 Hx6 A6. clear Hx3. transport A6.
      apply wpx_ret. apply Hk; try done. chain.
    + eapply wpx_put_last; [exact Hz|]. cbn [set_rightlink cell]. intros h5 Hz5 A5. clear Hz. transport A5.
      eapply wpx_put; [exact Hx3|]. intros h6 Hx6 A6. clear Hx3. transport A6.
      apply wpx_ret. apply Hk; try done. chain.
Qed.

Lemma rotate_left_run {A} E (Q : A -> world -> Prop) (k : pointer -> sp A) x y t u c p h br tr :
  h !! i_loc x = Some (cell (top t) p (Some (i_loc y)) x) -> rep h (Some (i_loc x)) t ->
  h !! i_loc y = Some (cell (top u) (Some (i_loc x)) (ctop None c) y) -> rep h (Some (i_loc y)) u ->
  repc h None (Some (i_loc y)) c -> NoDup (i_loc x :: i_loc y :: locs t ++ locs u ++ clocs c) ->
  (forall h' tr',
    h' !! i_loc x = Some (cell (Some (i_loc y)) p (ctop None c) x) ->
    h' !! i_loc y = Some (cell (top u) (top t) (Some (i_loc x)) y) ->
    rep h' (Some (i_loc y)) t -> rep h' (Some (i_loc y)) u -> repc h' None (Some (i_loc x)) c ->
    agree (i_loc x :: i_loc y :: locs t ++ clocs c) h h' -> same_pool tr tr' ->
    wpx (k (ctop None c)) E Q (World h' br tr')) ->
  wpx (rotate_left (Some (i_loc x)) (Some (i_loc y)) ≫= k) E Q (World h br tr).
Proof.
  intros Hx Ht Hy Hu Hc Hnd Hk. spread. unfold rotate_left.
  apply wpx_bind. eapply wpx_get; [exact Hy|]. eapply wpx_get; [exact Hx|]. cbn [uplink leftlink cell].
  eapply wpx_put; [exact Hy|]. intros h1 Hy1 A1. clear Hy. transport A1.
  eapply wpx_put_up; [exact Ht | apart |]. intros h2 Ht2 A2. clear Ht. transport A2.
  eapply wpx_put; [exact Hx|]. intros h3 Hx3 A3. clear Hx. transport A3.
  eapply wpx_put; [exact Hy1|]. intros h4 Hy4 A4. clear Hy1. transport A4.
  destruct c as [|[[sd z] w] c]; cbn [ctop].
  - apply wpx_bind, wpx_update. unfold set_root, set_q. cbn [cells brk q].
    eapply wpx_put; [exact Hx3|]. intros h5 Hx5 A5. clear Hx3. transport A5.
    apply wpx_ret. apply Hk; try done. chain.
  - cbn [repc] in *. spread.
    assert (h4 !! i_loc z = Some (if sd then cell (Some (i_loc y)) (top w) (ctop None c) z
                                  else cell (top w) (Some (i_loc y)) (ctop None c) z) /\
            rep h4 (Some (i_loc z)) w /\ repc h4 None (Some (i_loc z)) c) as (Hz & Hw & Hc2) by (by destruct sd).
    clear Hc. apply wpx_bind. eapply wpx_get; [exact Hz|].
    assert (bool_decide (rightlink (if sd then cell (Some (i_loc y)) (top w) (ctop None c) z
                                  else cell (top w) (Some (i_loc y)) (ctop None c) z) = Some (i_loc y)) =
            match sd with Lft => false | Rgt => true end) as ->.
    { destruct sd; [apply bool_decide_false | by apply bool_decide_true].
      cbn. apply top_not. apart. }
    destruct sd.
    + eapply wpx_put_last; [exact Hz|]. cbn [set_leftlink cell]. intros h5 Hz5 A5. clear Hz. transport A5.
      eapply wpx_put; [exact Hx3|]. intros h6 Hx6 A6. clear Hx3. transport A6.
      apply wpx_ret. apply Hk; try done. chain.
    + eapply wpx_put_last; [exact Hz|]. cbn [set_rightlink cell]. intros h5 Hz5 A5. clear Hz. transport A5.
      eapply wpx_put; [exact Hx3|]. intros h6 Hx6 A6. clear Hx3. transport A6.
      apply wpx_ret. apply Hk; try done. chain.
Qed.

(** ** The loop *)

(** Split the path: the trees to the left and to the right. *)
Fixpoint split_up (l r : tree) (c : list frame) : tree * tree :=
  match c with
  | [] => (l, r)
  | (Lft, x, t) :: c1 =>
      match c1 with
      | (Lft, y, u) :: c2 => split_up l (Node r x (Node t y u)) c2
      | _ => split_up l (Node r x t) c1
      end
  | (Rgt, x, t) :: c1 =>
      match c1 with
      | (Rgt, y, u) :: c2 => split_up (Node (Node u y t) x l) r c2
      | _ => split_up (Node t x l) r c1
      end
  end.

Lemma items_plug c : forall t t', items t = items t' -> items (plug t c) = items (plug t' c).
Proof.
  induction c as [|[[[] x] u] c IH]; intros t t' H; rewrite ?plug_cons; [done|..]; apply IH; cbn; by rewrite H.
Qed.

(** The path in pairs, as the loop walks it. *)
Lemma path_ind (P : list frame -> Prop) :
  P [] -> (forall f, P [f]) ->
  (forall f g c, P c -> P (g :: c) -> P (f :: g :: c)) -> forall c, P c.
Proof.
  intros H0 H1 H2 c. assert (P c /\ forall f, P (f :: c)) as [? _]; [|done].
  induction c as [|g c [IH1 IH2]]; [done|]. split; [apply IH2|]. intros f. apply H2; [done | apply IH2].
Qed.

Ltac list_eq := cbn; repeat (rewrite <- app_assoc; cbn); reflexivity.

(** The items behind the subtree at the end of a path. *)
Fixpoint after (c : list frame) : list item :=
  match c with
  | [] => []
  | (Lft, x, u) :: c => x :: items u ++ after c
  | (Rgt, _, _) :: c => after c
  end.

Fixpoint ahead (c : list frame) : list item :=
  match c with
  | [] => []
  | (Lft, _, _) :: c => ahead c
  | (Rgt, x, u) :: c => ahead c ++ items u ++ [x]
  end.

Lemma items_path c : forall t, items (plug t c) = ahead c ++ items t ++ after c.
Proof.
  induction c as [|[[[] x] u] c IH]; intros t; rewrite ?plug_cons; cbn [plug1 after ahead].
  - cbn. by rewrite app_nil_r.
  - rewrite IH. list_eq.
  - rewrite IH. list_eq.
Qed.

(** Splitting does not change the order of the items. *)
Lemma split_up_items n c : forall l r,
  items (plug (Node l n r) c) = items (split_up l r c).1 ++ [n] ++ items (split_up l r c).2.
Proof.
  induction c as [|[[[] x] t]|[[[] x] t] [[[] y] u] c IH1 IH2] using path_ind; intros l r.
  - done.
  - list_eq.
  - list_eq.
  - change (split_up _ _ _) with (split_up l (Node r x (Node t y u)) c).
    rewrite <- IH1, !plug_cons. apply items_plug. list_eq.
  - change (split_up _ _ _) with (split_up l (Node r x t) ((Rgt, y, u) :: c)).
    rewrite <- IH2, !plug_cons. apply items_plug. list_eq.
  - change (split_up _ _ _) with (split_up (Node t x l) r ((Lft, y, u) :: c)).
    rewrite <- IH2, !plug_cons. apply items_plug. list_eq.
  - change (split_up _ _ _) with (split_up (Node (Node u y t) x l) r c).
    rewrite <- IH1, !plug_cons. apply items_plug. list_eq.
Qed.

(** The loop on the cells computes the split. *)
Definition splayed (S : list loc) (lr : tree * tree) (h : gmap loc spblk) (br : loc) (tr : sptree)
    (p : pointer * pointer) (w : world) : Prop :=
  p = (top lr.1, top lr.2) /\ agree S h (cells w) /\ brk w = br /\ same_pool tr (q w) /\
  exists ul ur, rep (cells w) ul lr.1 /\ rep (cells w) ur lr.2.

Lemma splayed_mono S S' lr h h' br tr tr' p w :
  splayed S lr h' br tr' p w -> agree S' h h' -> S ⊆ S' -> same_pool tr tr' ->
  splayed S' lr h br tr p w.
Proof.
  intros (-> & Ha & Hb & [Hf He] & Hr) Ha' HS [Hf' He']. split_and!; [done | | done | split; congruence | done].
  eapply agree_trans; [exact Ha'|]. by eapply agree_mono.
Qed.

Lemma splayed_pool S lr h br tr tr' p w :
  splayed S lr h br tr' p w -> same_pool tr tr' -> splayed S lr h br tr p w.
Proof. intros Hs Hp. eapply splayed_mono; [exact Hs | by intros m | set_solver | done]. Qed.

Definition loop_ok (fuel : nat) : Prop := forall c l r p ul ur h br tr,
  (length c <= fuel)%nat -> rep h ul l -> rep h ur r -> repc h None (Some p) c ->
  p ∉ clocs c -> NoDup (locs l ++ locs r ++ clocs c) ->
  wpx (splay_loop fuel (Some p) (ctop None c) (top l) (top r)) (fun _ _ => False)
    (splayed (locs l ++ locs r ++ clocs c) (split_up l r c) h br tr) (World h br tr).

(** A round behind the rotation: [x] takes the tree built so far. *)
Lemma link_right fuel c l r t x p ul ur h br tr :
  loop_ok fuel -> (length c <= fuel)%nat ->
  h !! i_loc x = Some (cell p (top t) (ctop None c) x) -> rep h (Some (i_loc x)) t ->
  rep h ul l -> rep h ur r -> repc h None (Some (i_loc x)) c ->
  NoDup (locs l ++ locs r ++ i_loc x :: locs t ++ clocs c) ->
  wpx (put (Some (i_loc x)) (set_leftlink (top r));; put_up (top r) (Some (i_loc x));;
       splay_loop fuel (Some (i_loc x)) (ctop None c) (top l) (Some (i_loc x))) (fun _ _ => False)
    (splayed (locs l ++ locs r ++ i_loc x :: locs t ++ clocs c) (split_up l (Node r x t) c) h br tr)
    (World h br tr).
Proof.
  intros Hok Hlen Hx Ht Hl Hr Hc Hnd. spread.
  eapply wpx_put; [exact Hx|]. cbn [set_leftlink cell]. intros h1 Hx1 A1. clear Hx. transport A1.
  eapply wpx_put_up; [exact Hr | apart |]. intros h2 Hr2 A2. clear Hr. transport A2.
  eapply wpx_mono; [eapply (Hok c l (Node r x t)); [done | exact Hl | by split_and! | exact Hc | apart | apart]|done|].
  intros p' w' Hs. eapply splayed_mono; [exact Hs | chain | | done]. rewrite locs_node. clear. set_solver.
Qed.

Lemma link_left fuel c l r t x p ul ur h br tr :
  loop_ok fuel -> (length c <= fuel)%nat ->
  h !! i_loc x = Some (cell (top t) p (ctop None c) x) -> rep h (Some (i_loc x)) t ->
  rep h ul l -> rep h ur r -> repc h None (Some (i_loc x)) c ->
  NoDup (locs l ++ locs r ++ i_loc x :: locs t ++ clocs c) ->
  wpx (put (Some (i_loc x)) (set_rightlink (top l));; put_up (top l) (Some (i_loc x));;
       splay_loop fuel (Some (i_loc x)) (ctop None c) (Some (i_loc x)) (top r)) (fun _ _ => False)
    (splayed (locs l ++ locs r ++ i_loc x :: locs t ++ clocs c) (split_up (Node t x l) r c) h br tr)
    (World h br tr).
Proof.
  intros Hok Hlen Hx Ht Hl Hr Hc Hnd. spread.
  eapply wpx_put; [exact Hx|]. cbn [set_rightlink cell]. intros h1 Hx1 A1. clear Hx. transport A1.
  eapply wpx_put_up; [exact Hl | apart |]. intros h2 Hl2 A2. clear Hl. transport A2.
  eapply wpx_mono; [eapply (Hok c (Node t x l) r); [done | by split_and! | exact Hr | exact Hc | apart | apart]|done|].
  intros p' w' Hs. eapply splayed_mono; [exact Hs | chain | | done]. rewrite locs_node. clear. set_solver.
Qed.

Lemma splay_loop_run fuel : loop_ok fuel.
Proof.
  induction fuel as [|fuel IH]; intros c l r p ul ur h br tr Hlen Hl Hr Hc Hp Hnd.
  { destruct c; [|cbn in Hlen; lia]. apply wpx_ret. split_and!; [done..|]. by exists ul, ur. }
  destruct c as [|[[sd x] t] c]; [apply wpx_ret; split_and!; [done..|]; by exists ul, ur|].
  cbn [length] in Hlen.
  cbn [splay_loop ctop]. apply wpx_bind, wpx_update. unfold count, set_q. cbn [cells brk q].
  destruct sd; cbn [repc] in Hc; destruct Hc as (Hx & Ht & Hc); spread.
  - eapply wpx_get; [exact Hx|]. cbn [uplink leftlink cell]. rewrite bool_decide_true by done.
    unfold child_of. destruct c as [|[[[] y] u] c]; cbn [ctop].
    + apply wpx_bind, wpx_ret, wpx_bind, wpx_ret.
      eapply wpx_mono; [eapply (link_right fuel []); [done | cbn; lia | exact Hx | exact Ht | exact Hl | exact Hr | done | apart]|done|].
      intros p' w' Hs. eapply splayed_pool; [exact Hs | pool].
    + cbn [repc length] in *. destruct Hc as (Hy & Hu & Hc). spread.
      apply wpx_bind. eapply wpx_get; [exact Hy|]. apply wpx_ret. cbn [leftlink cell].
      rewrite bool_decide_true by done.
      eapply rotate_right_run; [exact Hx | exact Ht | exact Hy | exact Hu | exact Hc | apart |].
      intros h1 tr1 Hx1 Hy1 Ht1 Hu1 Hc1 A1 P1. clear Hx Hy Ht Hu Hc. transport A1.
      eapply wpx_mono; [eapply (link_right fuel c l r (Node t y u)); [done | lia | exact Hx1 | by split_and! | exact Hl | exact Hr | exact Hc1 | apart]|done|].
      intros p' w' Hs. eapply splayed_mono; [exact Hs | chain | | pool]. rewrite locs_node. clear. set_solver.
    + cbn [repc length] in *. destruct Hc as (Hy & Hu & Hc). spread.
      apply wpx_bind. eapply wpx_get; [exact Hy|]. apply wpx_ret. cbn [leftlink cell].
      rewrite bool_decide_false by (apply top_not; apart). apply wpx_bind, wpx_ret.
      eapply wpx_mono; [eapply (link_right fuel ((Rgt, y, u) :: c) l r t); [done | cbn; lia | exact Hx | exact Ht | exact Hl | exact Hr | by split_and! | apart]|done|].
      intros p' w' Hs. eapply splayed_pool; [exact Hs | pool].
  - eapply wpx_get; [exact Hx|]. cbn [uplink leftlink cell]. rewrite bool_decide_false by (apply top_not; apart).
    unfold child_of. destruct c as [|[[[] y] u] c]; cbn [ctop].
    + apply wpx_bind, wpx_ret, wpx_bind, wpx_ret.
      eapply wpx_mono; [eapply (link_left fuel []); [done | cbn; lia | exact Hx | exact Ht | exact Hl | exact Hr | done | apart]|done|].
      intros p' w' Hs. eapply splayed_pool; [exact Hs | pool].
    + cbn [repc length] in *. destruct Hc as (Hy & Hu & Hc). spread.
      apply wpx_bind. eapply wpx_get; [exact Hy|]. apply wpx_ret. cbn [rightlink cell].
      rewrite bool_decide_false by (apply top_not; apart). apply wpx_bind, wpx_ret.
      eapply wpx_mono; [eapply (link_left fuel ((Lft, y, u) :: c) l r t); [done | cbn; lia | exact Hx | exact Ht | exact Hl | exact Hr | by split_and! | apart]|done|].
      intros p' w' Hs. eapply splayed_pool; [exact Hs | pool].
    + cbn [repc length] in *. destruct Hc as (Hy & Hu & Hc). spread.
      apply wpx_bind. eapply wpx_get; [exact Hy|]. apply wpx_ret. cbn [rightlink cell].
      rewrite bool_decide_true by done.
      eapply rotate_left_run; [exact Hx | exact Ht | exact Hy | exact Hu | exact Hc | apart |].
      intros h1 tr1 Hx1 Hy1 Ht1 Hu1 Hc1 A1 P1. clear Hx Hy Ht Hu Hc. transport A1.
      eapply wpx_mono; [eapply (link_left fuel c l r (Node u y t)); [done | lia | exact Hx1 | by split_and! | exact Hl | exact Hr | exact Hc1 | apart]|done|].
      intros p' w' Hs. eapply splayed_mono; [exact Hs | chain | | pool]. rewrite locs_node. clear. set_solver.
Qed.

Lemma path_length c : (length c <= length (clocs c))%nat.
Proof. induction c as [|[[sd x] t] c IH]; cbn; [done|]. rewrite length_app. lia. Qed.

(** ** _splay() *)

(** The node at the end of a path becomes the root; the rest of the tree is
    split into what is left and right of it. *)
Definition splay_tree (l : tree) (n : item) (r : tree) (c : list frame) : tree :=
  Node (split_up l r c).1 n (split_up l r c).2.

Lemma splay_tree_items l n r c : items (splay_tree l n r c) = items (plug (Node l n r) c).
Proof. symmetry. apply split_up_items. Qed.

Lemma splay_run l n r c h br tr :
  rep h None (plug (Node l n r) c) -> NoDup (locs (plug (Node l n r) c)) ->
  wpx (_splay (Some (i_loc n))) (fun _ _ => False)
    (fun _ w => rep (cells w) None (splay_tree l n r c) /\ root (q w) = Some (i_loc n) /\
       agree (locs (plug (Node l n r) c)) h (cells w) /\ brk w = br /\ same_pool tr (q w))
    (World h br tr).
Proof.
  intros Hrep Hnd. pose proof (rep_size _ _ _ Hnd Hrep) as Hsize.
  pose proof (locs_plug c (Node l n r)) as Hperm. rewrite Hperm in Hnd, Hsize.
  apply rep_plug in Hrep as [(Hn & Hl & Hr) Hc]. cbn [top] in Hc.
  assert (length c <= size h)%nat as Hfuel.
  { pose proof (path_length c). rewrite length_app in Hsize. lia. }
  assert (forall m, m ∉ locs (plug (Node l n r) c) -> m ∉ locs l ++ i_loc n :: locs r ++ clocs c) as Hsub.
  { intros m Hm. rewrite Hperm in Hm. spread. apart. }
  clear Hsize. spread. unfold _splay, all_cells. eapply wpx_get; [exact Hn|].
  apply wpx_bind, wpx_update, wpx_bind, wpx_read, wpx_bind. unfold count, set_q. cbn [cells brk q uplink leftlink rightlink cell].
  eapply wpx_mono; [eapply (splay_loop_run (size h) c l r); [done | exact Hl | exact Hr | exact Hc | apart | apart]|done|].
  intros p [h1 br1 tr1] (-> & A1 & Hbr & Hp & ul & ur & Hl1 & Hr1). cbn [cells brk q] in *. subst br1.
  rewrite <- (A1 (i_loc n) ltac:(apart)) in Hn.
  assert (items (splay_tree l n r c) = items (plug (Node l n r) c)) as Hitems by apply splay_tree_items.
  assert (NoDup (locs (splay_tree l n r c))) as Hnd'.
  { unfold locs at 1. rewrite Hitems. fold (locs (plug (Node l n r) c)). rewrite Hperm. apart. }
  assert (agree (i_loc n :: locs (split_up l r c).1 ++ locs (split_up l r c).2) h1 h1 -> True) as _ by done.
  unfold splay_tree in *. set (l' := (split_up l r c).1) in *. set (r' := (split_up l r c).2) in *.
  assert (forall m, m ∉ locs (plug (Node l n r) c) -> m ∉ locs l' ++ i_loc n :: locs r') as Hsub'.
  { intros m Hm. rewrite <- locs_node. unfold locs. by rewrite Hitems. }
  clear Hc. spread.
  eapply wpx_put; [exact Hn|]. cbn [set_leftlink cell]. intros h2 Hn2 A2. clear Hn. transport A2.
  eapply wpx_put; [exact Hn2|]. cbn [set_rightlink]. intros h3 Hn3 A3. clear Hn2. transport A3.
  eapply wpx_put_up; [exact Hl1 | apart |]. intros h4 Hl4 A4. clear Hl1. transport A4.
  eapply wpx_put_up; [exact Hr1 | apart |]. intros h5 Hr5 A5. clear Hr1. transport A5.
  apply wpx_bind, wpx_update. unfold set_root, set_q. cbn [cells brk q].
  eapply wpx_put_last; [exact Hn3|]. cbn [set_uplink]. intros h6 Hn6 A6. clear Hn3. transport A6.
  cbn [cells brk q root]. split_and!; [done | done | | done | pool].
  intros m Hm. specialize (Hsub m Hm). specialize (Hsub' m Hm). spread.
  rewrite (A6 m), (A5 m), (A4 m), (A3 m), (A2 m) by apart. apply A1. apart.
Qed.
