(* ===== verification/SplaySplit.v ===== *)
(** * Insertion and removal

    _sp_enq() splits the tree at the key of the new node from the top down;
    _sp_deq() takes the first node out of a subtree.  Both rotate on the
    way.  What they do to the cells is a function on trees that keeps the
    order of the items. *)

From Stdlib Require Import ZArith Lia.
From stdpp Require Import base tactics numbers list option gmap.
From S2P Require Import Prelude Splay SplayTree SplayRefine.

#[local] Open Scope Z_scope.

(** ** Splitting *)

Fixpoint split_at (k : Z) (t : tree) : tree * tree :=
  match t with
  | Leaf => (Leaf, Leaf)
  | Node a x b =>
      if SORTED (i_key x) k then
        match b with
        | Leaf => (Node a x Leaf, Leaf)
        | Node b1 y b2 =>
            if SORTED (i_key y) k
            then let s := split_at k b2 in (Node (Node a x b1) y s.1, s.2)
            else let s := split_at k b in (Node a x s.1, s.2)
        end
      else
        match a with
        | Leaf => (Leaf, Node Leaf x b)
        | Node a1 y a2 =>
            if SORTED (i_key y) k
            then let s := split_at k a in (s.1, Node s.2 x b)
            else let s := split_at k a1 in (s.1, Node s.2 y (Node a2 x b))
        end
  end.

(** Subtrees at distance one and two, as the loops walk down. *)
Lemma tree_deep_ind (P : tree -> Prop) :
  P Leaf ->
  (forall a x b, P a -> P b ->
    (forall a1 y a2, a = Node a1 y a2 -> P a1) -> (forall b1 y b2, b = Node b1 y b2 -> P b2) -> P (Node a x b)) ->
  forall t, P t.
Proof.
  intros H0 H1 t.
  assert (P t /\ forall a x b, t = Node a x b -> P a /\ P b) as [? _]; [|done].
  induction t as [|a [IHa IHa2] x b [IHb IHb2]]; [done|].
  split; [|by intros ? ? ? [= <- <- <-]].
  apply H1; [done | done | |]; intros; subst; naive_solver.
Qed.

Lemma split_at_items k t : items t = items (split_at k t).1 ++ items (split_at k t).2.
Proof.
  induction t as [|a x b IHa IHb IHa1 IHb2] using tree_deep_ind; [done|].
  cbn [split_at]. destruct (SORTED (i_key x) k).
  - destruct b as [|b1 y b2]; [by rewrite app_nil_r|]. destruct (SORTED (i_key y) k).
    + specialize (IHb2 _ _ _ eq_refl). cbn. rewrite IHb2. list_eq.
    + cbn [items fst snd]. cbn [items] in IHb. rewrite IHb. list_eq.
  - destruct a as [|a1 y a2]; [done|]. destruct (SORTED (i_key y) k).
    + cbn [items fst snd]. cbn [items] in IHa. rewrite IHa. list_eq.
    + specialize (IHa1 _ _ _ eq_refl). cbn. rewrite IHa1. list_eq.
Qed.

(** What the loops leave in a cell outside the split tree: [lp] gets the
    left part, [rp] the right one. *)
Definition hang (lp rp : loc) (l r : pointer) (m : loc) (b : spblk) : spblk :=
  let b := if bool_decide (m = lp) then set_rightlink l b else b in
  if bool_decide (m = rp) then set_leftlink r b else b.

Definition parted (k : Z) (t : tree) (lp rp : loc) (h : gmap loc spblk) (br : loc) (tr : sptree) (w : world) : Prop :=
  rep (cells w) (Some lp) (split_at k t).1 /\ rep (cells w) (Some rp) (split_at k t).2 /\
  (forall m, m ∉ locs t -> cells w !! m = hang lp rp (top (split_at k t).1) (top (split_at k t).2) m <$> h !! m) /\
  brk w = br /\ same_pool tr (q w) /\ root (q w) = root tr.

Definition goes_left (k : Z) (t : tree) : bool := if t is Node _ x _ then SORTED (i_key x) k else false.

Definition split_ok (fuel : nat) : Prop := forall k t lp rp u h br tr,
  t <> Leaf -> (length (locs t) <= fuel)%nat -> rep h u t -> NoDup (locs t) ->
  lp ∉ locs t -> rp ∉ locs t -> is_Some (h !! lp) -> is_Some (h !! rp) ->
  wpx (enq_loop fuel k (goes_left k t) (Some lp) (Some rp) (top t)) (fun _ _ => False)
    (fun _ => parted k t lp rp h br tr) (World h br tr).

(** A write to one of the cells [lp] and [rp], which may be the same. *)
Definition touch (n : loc) (f : spblk -> spblk) (m : loc) (b : spblk) : spblk := if bool_decide (m = n) then f b else b.

Lemma put_touches n b f (h h' : gmap loc spblk) m :
  h !! n = Some b -> h' !! n = Some (f b) -> agree [n] h h' -> h' !! m = touch n f m <$> h !! m.
Proof.
  intros Hb Hb' Ha. unfold touch. destruct (decide (m = n)) as [->|Hm].
  - by rewrite Hb, Hb', bool_decide_true.
  - rewrite (Ha m) by set_solver. rewrite bool_decide_false by done. by destruct (h !! m).
Qed.

Section touching.
Context {A : Type} (E : trouble -> world -> Prop) (Q : A -> world -> Prop).

Lemma wpx_touch n f (k : unit -> sp A) h br tr :
  is_Some (h !! n) ->
  (forall h', (forall m, h' !! m = touch n f m <$> h !! m) -> agree [n] h h' -> wpx (k tt) E Q (World h' br tr)) ->
  wpx (put (Some n) f ≫= k) E Q (World h br tr).
Proof.
  intros [b Hb] Hk. eapply wpx_put; [exact Hb|]. intros h' Hb' Ha. apply Hk; [|done].
  intros m. by eapply put_touches.
Qed.

Lemma wpx_touch_last n f (Q' : unit -> world -> Prop) h br tr :
  is_Some (h !! n) ->
  (forall h', (forall m, h' !! m = touch n f m <$> h !! m) -> agree [n] h h' -> Q' tt (World h' br tr)) ->
  wpx (put (Some n) f) E Q' (World h br tr).
Proof.
  intros [b Hb] Hk. eapply wpx_put_last; [exact Hb|]. intros h' Hb' Ha. apply Hk; [|done].
  intros m. by eapply put_touches.
Qed.
End touching.

(** Trace a cell back through the writes. *)
Ltac back :=
  repeat match goal with
  | |- context [?h' !! ?m] =>
      match goal with
      | W : forall m, h' !! m = _ |- _ => rewrite (W m)
      | A : agree _ _ h' |- _ => rewrite (A m ltac:(apart))
      | W : forall m, _ -> h' !! m = _ |- _ => rewrite (W m ltac:(apart))
      end
  end.
Ltac outer :=
  let m := fresh "m" in let Hm := fresh "Hm" in intros m Hm; spread; back;
  match goal with |- context [?h !! m] => destruct (h !! m); [|done] end;
  cbn; unfold touch, hang; repeat case_bool_decide; subst; first [done | congruence].

Section hanging.
Context (S : list loc) (lp rp : loc) (l r : pointer) (h h' : gmap loc spblk).
Hypothesis Hhang : forall m, m ∉ S -> h' !! m = hang lp rp l r m <$> h !! m.

Lemma hang_agree : agree (lp :: rp :: S) h h'.
Proof.
  intros m Hm. spread. rewrite Hhang by done. unfold hang. rewrite !bool_decide_false by done.
  by destruct (h !! m).
Qed.

Lemma hang_left b : h !! lp = Some b -> lp <> rp -> lp ∉ S -> h' !! lp = Some (set_rightlink l b).
Proof.
  intros Hb Hne HS. rewrite Hhang, Hb by done. cbn. unfold hang.
  by rewrite (bool_decide_true (lp = lp)), bool_decide_false by done.
Qed.

Lemma hang_right b : h !! rp = Some b -> rp <> lp -> rp ∉ S -> h' !! rp = Some (set_leftlink r b).
Proof.
  intros Hb Hne HS. rewrite Hhang, Hb by done. cbn. unfold hang.
  by rewrite (bool_decide_false (rp = lp)), bool_decide_true by done.
Qed.
End hanging.

Section rounds.
Context (fuel : nat) (k : Z) (a b : tree) (x : item) (lp rp : loc) (u : pointer).
Context (h : gmap loc spblk) (br : loc) (tr : sptree).
Hypothesis IH : split_ok fuel.
Hypothesis Hlen : (length (locs (Node a x b)) <= S fuel)%nat.
Hypothesis Hrep : rep h u (Node a x b).
Hypothesis Hnd : NoDup (locs (Node a x b)).
Hypothesis Hlp : lp ∉ locs (Node a x b).
Hypothesis Hrp : rp ∉ locs (Node a x b).
Hypothesis Hl : is_Some (h !! lp).
Hypothesis Hr : is_Some (h !! rp).

Lemma split_one : SORTED (i_key x) k = true ->
  wpx (enq_loop (S fuel) k true (Some lp) (Some rp) (Some (i_loc x))) (fun _ _ => False)
    (fun _ => parted k (Node a x b) lp rp h br tr) (World h br tr).
Proof.
  intros Hk. cbn [rep] in Hrep. destruct Hrep as (Hx & Ha & Hb). clear Hrep. unfold parted. cbn [enq_loop split_at]. rewrite Hk.
  rewrite locs_node, length_app in Hlen. cbn [length] in Hlen.
  spread. eapply wpx_get; [exact Hx|]. cbn [rightlink cell].
  destruct b as [|b1 y b2]; cbn [top].
  - eapply wpx_touch; [exact Hl|]. intros h1 W1 A1. transport A1.
    eapply wpx_put; [exact Hx|]. intros h2 Hx2 A2. clear Hx. transport A2.
    eapply wpx_touch_last; [back; by rewrite ?fmap_is_Some|]. intros h3 W3 A3. transport A3.
    cbn [cells brk q fst snd rep top]. split_and!; try done. outer.
  - cbn [rep] in Hb. destruct Hb as (Hy & Hb1 & Hb2). rewrite locs_node, length_app in Hlen. cbn [length] in Hlen. spread.
    apply wpx_bind, wpx_update. unfold count, set_q. cbn [cells brk q].
    eapply wpx_get; [exact Hy|]. cbn [key leftlink cell].
    destruct (SORTED (i_key y) k) eqn:Hy1; cbn [negb].
    + eapply wpx_put; [exact Hx|]. intros h1 Hx1 A1. clear Hx. transport A1.
      eapply wpx_put_up; [exact Hb1 | apart |]. intros h2 Hb12 A2. clear Hb1. transport A2.
      eapply wpx_touch; [by back|]. intros h3 W3 A3. transport A3.
      eapply wpx_put; [exact Hy|]. intros h4 Hy4 A4. clear Hy. transport A4.
      eapply wpx_put; [exact Hy4|]. intros h5 Hy5 A5. clear Hy4. transport A5.
      eapply wpx_put; [exact Hx1|]. intros h6 Hx6 A6. clear Hx1. transport A6.
      eapply wpx_get; [exact Hy5|]. cbn [rightlink cell set_leftlink set_uplink]. destruct b2 as [|c1 z c2]; cbn [top].
      * eapply wpx_touch_last; [back; by rewrite ?fmap_is_Some|]. intros h7 W7 A7. transport A7.
        cbn [split_at cells brk q fst snd rep top]. split_and!; try first [done | pool]. outer.
      * apply wpx_bind, wpx_update. unfold count, set_q. cbn [cells brk q].
        destruct Hb2 as (Hz & Hc1 & Hc2). spread.
        eapply wpx_get; [exact Hz|]. cbn [key cell].
        eapply wpx_mono; [eapply (IH k (Node c1 z c2)); [done | rewrite ?locs_node; lia | by split_and! | apart | apart | apart | by rewrite Hy5 | back; by rewrite ?fmap_is_Some] | done |].
        intros _ [h7 br7 tr7] (R1 & R2 & W7 & <- & P & Q). cbn [cells brk q fst snd] in *.
        set (s := split_at k (Node c1 z c2)) in *. pose proof (hang_agree _ _ _ _ _ _ _ W7) as A7. transport A7.
        split_and!; [ | done | | done | pool | exact Q].
        { cbn [rep]. by rewrite (hang_left _ _ _ _ _ _ _ W7 _ Hy5) by apart. }
        outer.
    + eapply wpx_touch; [exact Hl|]. intros h1 W1 A1. transport A1.
      eapply wpx_put; [exact Hx|]. intros h2 Hx2 A2. clear Hx. transport A2.
      rewrite <- Hy1.
      eapply wpx_mono; [eapply (IH k (Node b1 y b2)); [done | rewrite locs_node, length_app; cbn; lia | by split_and! | apart | apart | apart | by rewrite Hx2 | back; by rewrite ?fmap_is_Some] | done |].
      intros _ [h7 br7 tr7] (R1 & R2 & W7 & <- & P & Q). cbn [cells brk q fst snd] in *.
      set (s := split_at k (Node b1 y b2)) in *. pose proof (hang_agree _ _ _ _ _ _ _ W7) as A7. transport A7.
      split_and!; [ | done | | done | pool | exact Q].
      { cbn [rep]. by rewrite (hang_left _ _ _ _ _ _ _ W7 _ Hx2) by apart. }
      outer.
Qed.

Lemma split_two : SORTED (i_key x) k = false ->
  wpx (enq_loop (S fuel) k false (Some lp) (Some rp) (Some (i_loc x))) (fun _ _ => False)
    (fun _ => parted k (Node a x b) lp rp h br tr) (World h br tr).
Proof.
  intros Hk. cbn [rep] in Hrep. destruct Hrep as (Hx & Ha & Hb). clear Hrep. unfold parted. cbn [enq_loop split_at]. rewrite Hk.
  rewrite locs_node, length_app in Hlen. cbn [length] in Hlen.
  spread. eapply wpx_get; [exact Hx|]. cbn [leftlink cell].
  destruct a as [|a1 y a2]; cbn [top].
  - eapply wpx_touch; [exact Hr|]. intros h1 W1 A1. transport A1.
    eapply wpx_put; [exact Hx|]. intros h2 Hx2 A2. clear Hx. transport A2.
    eapply wpx_touch_last; [back; by rewrite ?fmap_is_Some|]. intros h3 W3 A3. transport A3.
    cbn [cells brk q fst snd rep top]. split_and!; try done. outer.
  - cbn [rep] in Ha. destruct Ha as (Hy & Ha1 & Ha2). rewrite locs_node, length_app in Hlen. cbn [length] in Hlen. spread.
    apply wpx_bind, wpx_update. unfold count, set_q. cbn [cells brk q].
    eapply wpx_get; [exact Hy|]. cbn [key rightlink cell].
    destruct (SORTED (i_key y) k) eqn:Hy1.
    + eapply wpx_touch; [exact Hr|]. intros h1 W1 A1. transport A1.
      eapply wpx_put; [exact Hx|]. intros h2 Hx2 A2. clear Hx. transport A2.
      rewrite <- Hy1.
      eapply wpx_mono; [eapply (IH k (Node a1 y a2)); [done | rewrite locs_node, length_app; cbn; lia | by split_and! | apart | apart | apart | back; by rewrite ?fmap_is_Some | by rewrite Hx2] | done |].
      intros _ [h7 br7 tr7] (R1 & R2 & W7 & <- & P & Q). cbn [cells brk q fst snd] in *.
      set (s := split_at k (Node a1 y a2)) in *. pose proof (hang_agree _ _ _ _ _ _ _ W7) as A7. transport A7.
      split_and!; [done | | | done | pool | exact Q].
      { cbn [rep]. by rewrite (hang_right _ _ _ _ _ _ _ W7 _ Hx2) by apart. }
      outer.
    + eapply wpx_put; [exact Hx|]. intros h1 Hx1 A1. clear Hx. transport A1.
      eapply wpx_put_up; [exact Ha2 | apart |]. intros h2 Ha22 A2. clear Ha2. transport A2.
      eapply wpx_touch; [by back|]. intros h3 W3 A3. transport A3.
      eapply wpx_put; [exact Hy|]. intros h4 Hy4 A4. clear Hy. transport A4.
      eapply wpx_put; [exact Hy4|]. intros h5 Hy5 A5. clear Hy4. transport A5.
      eapply wpx_put; [exact Hx1|]. intros h6 Hx6 A6. clear Hx1. transport A6.
      eapply wpx_get; [exact Hy5|]. cbn [leftlink cell set_rightlink set_uplink]. destruct a1 as [|c1 z c2]; cbn [top].
      * eapply wpx_touch_last; [back; by rewrite ?fmap_is_Some|]. intros h7 W7 A7. transport A7.
        cbn [split_at cells brk q fst snd rep top]. split_and!; try first [done | pool]. outer.
      * apply wpx_bind, wpx_update. unfold count, set_q. cbn [cells brk q].
        destruct Ha1 as (Hz & Hc1 & Hc2). spread.
        eapply wpx_get; [exact Hz|]. cbn [key cell].
        eapply wpx_mono; [eapply (IH k (Node c1 z c2)); [done | rewrite ?locs_node; lia | by split_and! | apart | apart | apart | back; by rewrite ?fmap_is_Some | by rewrite Hy5] | done |].
        intros _ [h7 br7 tr7] (R1 & R2 & W7 & <- & P & Q). cbn [cells brk q fst snd] in *.
        set (s := split_at k (Node c1 z c2)) in *. pose proof (hang_agree _ _ _ _ _ _ _ W7) as A7. transport A7.
        split_and!; [done | | | done | pool | exact Q].
        { cbn [rep]. by rewrite (hang_right _ _ _ _ _ _ _ W7 _ Hy5) by apart. }
        outer.
Qed.
End rounds.

Lemma enq_loop_run fuel : split_ok fuel.
Proof.
  induction fuel as [|fuel IH]; intros k [|a x b] lp rp u h br tr Hne Hlen Hrep Hnd Hlp Hrp Hl Hr; try done.
  - rewrite locs_node, length_app in Hlen. cbn in Hlen. lia.
  - cbn [goes_left top]. destruct (SORTED (i_key x) k) eqn:Hk.
    + by eapply split_one.
    + by eapply split_two.
Qed.

(** ** _sp_enq() *)

(** The new node becomes the root, between the two parts. *)
Definition enq_tree (n : item) (t : tree) : tree := Node (split_at (i_key n) t).1 n (split_at (i_key n) t).2.

Lemma split_at_locs k t : locs t = locs (split_at k t).1 ++ locs (split_at k t).2.
Proof. unfold locs. rewrite (split_at_items k t). by rewrite fmap_app. Qed.

Lemma enq_run n t b h br tr :
  rep h None t -> root tr = top t -> NoDup (i_loc n :: locs t) ->
  h !! i_loc n = Some b -> key b = i_key n -> data b = i_data n -> mark b = i_mark n ->
  wpx (_sp_enq (Some (i_loc n))) (fun _ _ => False)
    (fun _ w => rep (cells w) None (enq_tree n t) /\ root (q w) = Some (i_loc n) /\
       agree (i_loc n :: locs t) h (cells w) /\ brk w = br /\ same_pool tr (q w)) (World h br tr).
Proof.
  intros Hrep Hroot Hnd Hn Hk Hd Hm. unfold _sp_enq. apply wpx_bind, wpx_update. unfold count, set_q. cbn [cells brk q].
  apply nodup_cons in Hnd as [Hin Hnd].
  eapply wpx_put; [exact Hn|]. intros h1 Hn1 A1. clear Hn. transport A1.
  apply wpx_bind, wpx_read. cbn [q root]. rewrite Hroot. apply wpx_bind, wpx_update, wpx_bind.
  unfold set_root, set_q. cbn [cells brk q].
  destruct t as [|a x c]; cbn [top].
  - eapply wpx_put; [exact Hn1|]. intros h2 Hn2 A2. eapply wpx_put_last; [exact Hn2|]. intros h3 Hn3 A3.
    apply wpx_ret. cbn [cells brk q root]. split_and!; [|done | chain | done | pool].
    cbn. rewrite Hn3. by destruct b; cbn in *; subst.
  - eapply wpx_get; [exact Hn1|]. apply wpx_bind, wpx_update. unfold count, set_q. cbn [cells brk q key set_uplink].
    rewrite Hk. set (k := i_key n). pose proof Hrep as (Hx & _). eapply wpx_get; [exact Hx|]. cbn [key cell].
    apply wpx_bind, wpx_read, wpx_bind. cbn [cells].
    change (SORTED (i_key x) k) with (goes_left k (Node a x c)).
    eapply wpx_mono; [eapply (enq_loop_run _ k (Node a x c)); [done | by eapply rep_size | exact Hrep | exact Hnd | exact Hin | exact Hin | by rewrite Hn1 | by rewrite Hn1] | done |].
      intros _ [h2 br2 tr2] (R1 & R2 & W & <- & P & Q). cbn [cells brk q] in *.
      assert (h2 !! i_loc n = Some (cell (top (split_at k (Node a x c)).2) (top (split_at k (Node a x c)).1) None n)) as Hn2.
      { rewrite W, Hn1 by exact Hin. cbn. unfold hang. rewrite bool_decide_true by done.
        unfold set_leftlink, set_rightlink, set_uplink, cell. cbn. by rewrite Hk, Hd, Hm. }
      pose proof (hang_agree _ _ _ _ _ _ _ W) as A2. rewrite (split_at_locs k (Node a x c)) in Hnd, Hin, A2 |- *.
      unfold enq_tree. fold k.
      set (l := (split_at k (Node a x c)).1) in *. set (r := (split_at k (Node a x c)).2) in *.
      clear W Hrep. spread.
      eapply wpx_get; [exact Hn2|]. cbn [leftlink rightlink cell].
      eapply wpx_put; [exact Hn2|]. intros h3 Hn3 A3. clear Hn2. transport A3.
      eapply wpx_put_last; [exact Hn3|]. intros h4 Hn4 A4. clear Hn3. transport A4.
      apply wpx_ret. cbn [cells brk q root]. split_and!; [done | done | | done | pool].
      intros m Hmm. spread. rewrite (A4 m), (A3 m), (A2 m), (A1 m) by apart. done.
Qed.
