(* ===== verification/SplayDelete.v ===== *)
(** * Taking nodes out

    _sp_deq() takes the first node out of a subtree, with rotations on the
    way down; sp_delete() puts that node in the place of the one deleted. *)

From Stdlib Require Import ZArith Lia.
From stdpp Require Import base tactics numbers list option gmap.
From S2P Require Import Prelude Splay SplayTree SplayRefine SplaySplit.

#[local] Open Scope Z_scope.

(** ** The first node *)

(** Below [next]: the first node and what becomes of the subtree. *)
Fixpoint take_first (t : tree) : option (item * tree) :=
  match t with
  | Leaf => None
  | Node Leaf x r => Some (x, r)
  | Node (Node Leaf y yr) x r => Some (y, Node yr x r)
  | Node (Node far y yr) x r =>
      match take_first far with
      | Some (n, far') => Some (n, Node far' y (Node yr x r))
      | None => None
      end
  end.

(** _sp_deq() itself looks at the root alone first. *)
Definition deq_tree (t : tree) : option (item * tree) :=
  match t with
  | Leaf => None
  | Node Leaf x r => Some (x, r)
  | Node l x r =>
      match take_first l with
      | Some (n, l') => Some (n, Node l' x r)
      | None => None
      end
  end.

Lemma tree_left_ind (P : tree -> Prop) :
  P Leaf -> (forall x r, P (Node Leaf x r)) -> (forall y yr x r, P (Node (Node Leaf y yr) x r)) ->
  (forall a z b y yr x r, P (Node a z b) -> P (Node (Node (Node a z b) y yr) x r)) -> forall t, P t.
Proof.
  intros H0 H1 H2 H3 t. assert (P t /\ forall x r, P (Node t x r)) as [? _]; [|done].
  induction t as [|l [IHl IHl2] x r _]; [done|]. split; [apply IHl2|]. intros y yr.
  destruct l as [|a z b]; [apply H2 | by apply H3].
Qed.

Lemma take_first_items t : t <> Leaf -> exists n t', take_first t = Some (n, t') /\ items t = n :: items t'.
Proof.
  induction t as [| | | a z b y yr x r IH] using tree_left_ind; intros Hne; [done|..].
  - by eexists _, _.
  - by eexists _, _.
  - destruct IH as (n & t' & Ht & Hi); [done|]. exists n, (Node t' y (Node yr x r)).
    change (take_first _) with (match take_first (Node a z b) with
      | Some (n, far') => Some (n, Node far' y (Node yr x r)) | None => None end).
    rewrite Ht. split; [done|].
    change (items (Node (Node (Node a z b) y yr) x r)) with ((items (Node a z b) ++ [y] ++ items yr) ++ [x] ++ items r).
    rewrite Hi. list_eq.
Qed.

Lemma deq_tree_items t : t <> Leaf -> exists n t', deq_tree t = Some (n, t') /\ items t = n :: items t'.
Proof.
  destruct t as [|[|a y b] x r]; intros Hne; [done | by eexists _, _ |].
  destruct (take_first_items (Node a y b)) as (n & l' & Hl & Hi); [done|].
  unfold deq_tree. rewrite Hl. eexists _, _. split; [done|]. change (items (Node (Node a y b) x r)) with (items (Node a y b) ++ [x] ++ items r).
  rewrite Hi. done.
Qed.

Lemma touch_agree S n f (h h' : gmap loc spblk) :
  (forall m, m ∉ S -> h' !! m = touch n f m <$> h !! m) -> agree (n :: S) h h'.
Proof.
  intros W m Hm. spread. rewrite W by done. unfold touch. rewrite bool_decide_false by done. by destruct (h !! m).
Qed.

(** The loop of _sp_deq(). *)
Definition taken (t : tree) (next : loc) (h : gmap loc spblk) (br : loc) (tr : sptree) (p : pointer) (w : world) : Prop :=
  exists n t' l r u, take_first t = Some (n, t') /\ p = Some (i_loc n) /\
    cells w !! i_loc n = Some (cell l r u n) /\ rep (cells w) (Some next) t' /\
    (forall m, m ∉ locs t -> cells w !! m = touch next (set_leftlink (top t')) m <$> h !! m) /\
    brk w = br /\ q w = tr.

Definition first_ok (fuel : nat) : Prop := forall t next b h br tr,
  t <> Leaf -> (length (locs t) <= fuel)%nat -> rep h (Some next) t -> NoDup (locs t) -> next ∉ locs t ->
  h !! next = Some b -> leftlink b = top t ->
  wpx (deq_loop fuel (Some next) (top t)) (fun _ _ => False) (taken t next h br tr) (World h br tr).

Lemma touch_same n f (h : gmap loc spblk) b m : h !! n = Some b -> f b = b -> touch n f m <$> h !! m = h !! m.
Proof.
  intros Hb Hf. unfold touch. destruct (decide (m = n)) as [->|].
  - rewrite Hb. cbn. by rewrite bool_decide_true, Hf.
  - rewrite bool_decide_false by done. by destruct (h !! m).
Qed.

Lemma deq_loop_run fuel : first_ok fuel.
Proof.
  induction fuel as [|fuel IH]; intros t next b h br tr Hne Hlen Hrep Hnd Hnext Hb Hbl.
  { destruct t; [done|]. rewrite locs_node, length_app in Hlen. cbn in Hlen. lia. }
  destruct t as [|l x r]; [done|]. cbn [rep] in Hrep. destruct Hrep as (Hx & Hl & Hr).
  assert (forall m, touch next (set_leftlink (Some (i_loc x))) m <$> h !! m = h !! m) as Hsame.
  { intros m. eapply touch_same; [exact Hb|]. destruct b. cbn in *. by subst. }
  cbn [deq_loop top] in *. rewrite locs_node, length_app in Hlen. cbn [length] in Hlen. spread.
  eapply wpx_get; [exact Hx|]. cbn [leftlink rightlink cell].
  destruct l as [|ll y yr]; cbn [top].
  - eapply wpx_touch; [by rewrite Hb|]. intros h1 W1 A1. transport A1.
    eapply wpx_put_up; [exact Hr | apart |]. intros h2 Hr2 A2. clear Hr. transport A2.
    apply wpx_ret. eexists x, r, _, _, _. cbn [cells brk q]. split_and!; [done | done | exact Hx | done | | done | done].
    intros m Hm. spread. by back.
  - cbn [rep] in Hl. destruct Hl as (Hy & Hll & Hyr). spread.
    eapply wpx_get; [exact Hy|]. cbn [leftlink rightlink cell].
    destruct ll as [|a z c]; cbn [top].
    + eapply wpx_put; [exact Hx|]. intros h1 Hx1 A1. clear Hx. transport A1.
      eapply wpx_put_up; [exact Hyr | apart |]. intros h2 Hyr2 A2. clear Hyr. transport A2.
      apply wpx_ret. eexists y, (Node yr x r), _, _, _. cbn [cells brk q]. split_and!; [done | done | exact Hy | done | | done | done].
      intros m Hm. spread. by rewrite Hsame, (A2 m), (A1 m) by apart.
    + spread. eapply wpx_touch; [by rewrite Hb|]. intros h1 W1 A1. transport A1.
      eapply wpx_put; [exact Hy|]. intros h2 Hy2 A2. clear Hy. transport A2.
      eapply wpx_put; [exact Hx|]. intros h3 Hx3 A3. clear Hx. transport A3.
      eapply wpx_put_up; [exact Hyr | apart |]. intros h4 Hyr4 A4. clear Hyr. transport A4.
      eapply wpx_put; [exact Hy2|]. intros h5 Hy5 A5. clear Hy2. transport A5.
      eapply wpx_put; [exact Hx3|]. intros h6 Hx6 A6. clear Hx3. transport A6.
      eapply wpx_mono; [eapply (IH (Node a z c) (i_loc y)); [done | | exact Hll | apart | apart | exact Hy5 | done] | done |].
      { rewrite !locs_node, !length_app in *. cbn in *. lia. }
      intros p [h7 br7 tr7] (n & t' & cl & cr & cu & Ht & -> & Hn & Ht' & W7 & <- & <-). cbn [cells brk q] in *.
      exists n, (Node t' y (Node yr x r)), cl, cr, cu. cbn [cells brk q].
      pose proof (touch_agree _ _ _ _ _ W7) as A7. spread. transport A7.
      split_and!; [ | done | exact Hn | | | done | done].
      { change (take_first _) with (match take_first (Node a z c) with
          | Some (n, far') => Some (n, Node far' y (Node yr x r)) | None => None end). by rewrite Ht. }
      { cbn [rep]. split_and!; [|done..]. rewrite W7, Hy5 by apart. cbn. unfold touch. by rewrite bool_decide_true. }
      intros m Hm. spread. rewrite (A7 m) by apart. by back.
Qed.

(** ** _sp_deq() on the right link of the root *)

Definition dequeued (n : item) (r : tree) (l : pointer) (h : gmap loc spblk) (br : loc) (tr : sptree)
    (p : pointer) (w : world) : Prop :=
  brk w = br /\ q w = tr /\
  match deq_tree r with
  | None => p = None /\ cells w = h
  | Some (x, r') =>
      p = Some (i_loc x) /\ (exists a b u, cells w !! i_loc x = Some (cell a b u x)) /\
      cells w !! i_loc n = Some (cell l (top r') None n) /\ (exists u, rep (cells w) u r') /\
      agree (i_loc n :: locs r) h (cells w)
  end.

Lemma deq_right_run n r l h br tr :
  h !! i_loc n = Some (cell l (top r) None n) -> rep h (Some (i_loc n)) r -> NoDup (i_loc n :: locs r) ->
  wpx (_sp_deq_right (Some (i_loc n))) (fun _ _ => False) (dequeued n r l h br tr) (World h br tr).
Proof.
  intros Hn Hr Hnd. pose proof (rep_size h (Some (i_loc n)) r) as Hsize. apply nodup_cons in Hnd as [Hin Hnd].
  specialize (Hsize Hnd Hr). unfold _sp_deq_right. eapply wpx_get; [exact Hn|]. cbn [rightlink cell].
  destruct r as [|a x b]; cbn [top]; [by apply wpx_ret|]. cbn [rep] in Hr. destruct Hr as (Hx & Ha & Hb).
  pose proof Hin as Hin2. spread. eapply wpx_get; [exact Hx|]. cbn [leftlink rightlink cell].
  destruct a as [|c y d]; cbn [top].
  - eapply wpx_put; [exact Hn|]. intros h1 Hn1 A1. clear Hn. transport A1.
    eapply wpx_put_up; [exact Hb | apart |]. intros h2 Hb2 A2. clear Hb. transport A2.
    apply wpx_ret. split_and!; cbn; [done | done |]. split_and!; [done | eauto | done | eauto | chain].
  - apply wpx_bind, wpx_read. cbn [cells].
    eapply wpx_mono; [eapply (deq_loop_run _ (Node c y d) (i_loc x)); [done | | exact Ha | done | done | exact Hx | done] | done |].
    { rewrite !length_app in Hsize. lia. }
    intros p [h1 br1 tr1] (m & t' & a' & b' & u' & Ht & -> & Hm & Ht' & W & <- & <-). cbn [cells brk q] in *.
    pose proof (touch_agree _ _ _ _ _ W) as A. spread. transport A.
    unfold dequeued. cbn [cells brk q]. unfold deq_tree. rewrite Ht.
    split_and!; [done | done | done | eauto | by rewrite Hn | |].
    + exists (Some (i_loc n)). cbn [rep]. split_and!; [|done..]. rewrite W, Hx by apart. cbn. unfold touch. by rewrite bool_decide_true.
    + intros k Hk. spread. apply A. apart.
Qed.

(** ** Back to the free pool *)

Lemma release_run n b E (Q : unit -> world -> Prop) h br tr :
  h !! n = Some b ->
  (forall h', h' !! n = Some (set_leftlink (free tr) zeroed) -> agree [n] h h' ->
     Q tt (set_free (Some n) (World h' br tr))) ->
  wpx (release (Some n)) E Q (World h br tr).
Proof.
  intros Hb Hk. unfold release. apply wpx_bind, wpx_read. cbn [q].
  eapply wpx_put; [exact Hb|]. intros h' Hn Ha. apply wpx_update. by apply Hk.
Qed.

Lemma wpx_put_up_last E (Q : unit -> world -> Prop) u v t h br tr :
  rep h u t -> NoDup (locs t) ->
  (forall h', rep h' v t -> agree (locs t) h h' -> Q tt (World h' br tr)) ->
  wpx (put_up (top t) v) E Q (World h br tr).
Proof.
  intros Ht Hnd Hk. destruct (rep_relink h u v t Hnd Ht) as (h' & Ha & Hr & Hh). unfold put_up, put.
  destruct (top t) as [n|].
  - destruct Hh as (b & Hb & ->). apply wpx_bind, wpx_read. cbn [cells]. rewrite Hb. apply wpx_update. by apply Hk.
  - subst h'. apply wpx_ret. by apply Hk.
Qed.

(** ** sp_delete() *)

Definition delete_tree (l : tree) (n : item) (r : tree) (c : list frame) : tree :=
  match deq_tree (split_up l r c).2 with
  | Some (x, r') => Node (split_up l r c).1 x r'
  | None => (split_up l r c).1
  end.

Lemma delete_tree_items l n r c :
  items (delete_tree l n r c) = items (split_up l r c).1 ++ items (split_up l r c).2.
Proof.
  unfold delete_tree. destruct (split_up l r c) as [l' r']. cbn [fst snd].
  destruct r' as [|a x b]; [by rewrite app_nil_r|].
  destruct (deq_tree_items (Node a x b)) as (m & t' & -> & ->); done.
Qed.

Lemma delete_run l n r c h br tr :
  rep h None (plug (Node l n r) c) -> NoDup (locs (plug (Node l n r) c)) ->
  wpx (sp_delete (Some (i_loc n))) (fun _ _ => False)
    (fun _ w => rep (cells w) None (delete_tree l n r c) /\ root (q w) = top (delete_tree l n r c) /\
       cells w !! i_loc n = Some (set_leftlink (free tr) zeroed) /\ free (q w) = Some (i_loc n) /\
       agree (locs (plug (Node l n r) c)) h (cells w) /\ brk w = br /\ eltscnt (q w) = eltscnt tr - 1)
    (World h br tr).
Proof.
  intros Hrep Hnd. unfold sp_delete. apply wpx_bind. eapply wpx_mono; [by apply splay_run | done |].
  intros _ [h1 br1 tr1] (R1 & Hroot & A1 & Hbr & Hf & He). cbn [cells brk q] in *. subst br1.
  apply wpx_bind, wpx_read. cbn [q]. rewrite Hroot.
  pose proof (splay_tree_items l n r c) as Hitems.
  assert (locs (plug (Node l n r) c) = locs (splay_tree l n r c)) as Hlocs by (unfold locs; by rewrite Hitems).
  rewrite Hlocs in *. clear Hlocs Hitems Hrep.
  unfold splay_tree, delete_tree in *. destruct (split_up l r c) as [l' r']. cbn [fst snd] in *. clear l r c.
  cbn [rep] in R1. destruct R1 as (Hn & Hl & Hr). spread.
  apply wpx_bind. eapply wpx_mono; [eapply (deq_right_run n r'); [exact Hn | exact Hr | apart] | done |].
  intros p [h2 br2 tr2] (<- & <- & Hd). cbn [cells brk q] in *.
  destruct r' as [|ra y rb].
  - destruct Hd as [-> ->]. cbn [deq_tree]. eapply wpx_get; [exact Hn|]. cbn [leftlink cell].
    apply wpx_bind, wpx_bind, wpx_update. unfold set_root, set_q. cbn [cells brk q].
    apply wpx_put_up_last with (u := Some (i_loc n)); [exact Hl | apart |]. intros h3 Hl3 A3. clear Hl. transport A3.
    apply wpx_bind. eapply release_run; [exact Hn|]. intros h4 Hn4 A4. transport A4. apply wpx_update.
    unfold set_free, count, set_q. cbn [cells brk q root free eltscnt]. split_and!; [done | done | by rewrite <- Hf | done | chain | done | lia].
  - destruct (deq_tree_items (Node ra y rb)) as (x & r2 & Hd2 & Hi); [done|]. rewrite Hd2 in *.
    assert (locs (Node ra y rb) = i_loc x :: locs r2) as Hlocs by (unfold locs; by rewrite Hi).
    destruct Hd as (-> & (a & b & u & Hx) & Hn2 & (u2 & Hr2) & A2). clear Hr Hd2 Hi.
    rewrite <- locs_node in *. rewrite Hlocs in *. spread.
    assert (agree [i_loc n] h1 h1) as _ by done. clear Hn. transport A2.
    eapply wpx_get; [exact Hn2|]. cbn [leftlink rightlink cell]. apply wpx_bind.
    eapply wpx_put; [exact Hx|]. intros h3 Hx3 A3. clear Hx. transport A3.
    eapply wpx_put; [exact Hx3|]. intros h4 Hx4 A4. clear Hx3. transport A4.
    eapply wpx_put; [exact Hx4|]. intros h5 Hx5 A5. clear Hx4. transport A5.
    eapply wpx_put_up; [exact Hl | apart |]. intros h6 Hl6 A6. clear Hl. transport A6.
    eapply wpx_put_up; [exact Hr2 | apart |]. intros h7 Hr7 A7. clear Hr2. transport A7.
    apply wpx_update. unfold set_root, set_q. cbn [cells brk q].
    apply wpx_bind. eapply release_run; [exact Hn2|]. intros h8 Hn8 A8. transport A8. apply wpx_update.
    unfold set_free, count, set_q. cbn [cells brk q root free eltscnt]. split_and!; [done | done | by rewrite <- Hf | done | | done | lia].
    intros m Hm. assert (m ∉ i_loc x :: locs r2) by (rewrite <- Hlocs; spread; apart). spread. by back.
Qed.
