(* ===== verification/SplayMap.v ===== *)
(** * Splay trees as finite maps

    The invariant of a tree of lib/splay.c with its pool of free cells, the
    finite map from keys to nodes that it stands for, and what the
    operations sp_lookup(), sp_install() and sp_delete() do to the map. *)

From Stdlib Require Import ZArith Lia.
From stdpp Require Import base tactics numbers list option gmap sorting.
From S2P Require Import Prelude Splay SplayTree SplayRefine SplaySplit SplayDelete.

#[local] Open Scope Z_scope.

(** ** Order *)

Definition before (x y : item) : Prop := i_key x < i_key y.
Abbreviation ascending := (StronglySorted before).

Lemma ascending_mid l1 x l2 : ascending (l1 ++ [x] ++ l2) <->
  ascending l1 /\ ascending l2 /\ Forall (fun y => before y x) l1 /\ Forall (before x) l2.
Proof.
  rewrite !StronglySorted_app, !Forall_forall. unfold before. split.
  - intros (H1 & ? & H2 & ? & ?). split_and!; try done.
    + intros y Hy. apply H1; set_solver.
    + intros y Hy. apply H2; set_solver.
  - intros (? & ? & H1 & H2). split_and!; try done; [| |repeat constructor].
    + intros y z Hy. rewrite elem_of_app, list_elem_of_singleton. intros [->|Hz]; [by apply H1|].
      specialize (H1 y Hy). specialize (H2 z Hz). lia.
    + intros y z ->%list_elem_of_singleton Hz. by apply H2.
Qed.

Lemma ascending_node l x r : ascending (items (Node l x r)) <->
  ascending (items l) /\ ascending (items r) /\ Forall (fun y => before y x) (items l) /\ Forall (before x) (items r).
Proof. apply ascending_mid. Qed.

Lemma forall_items (P : item -> Prop) l x r :
  Forall P (items (Node l x r)) <-> Forall P (items l) /\ P x /\ Forall P (items r).
Proof. cbn [items]. by rewrite !Forall_app, Forall_singleton. Qed.

Lemma split_at_keys k t : ascending (items t) ->
  Forall (fun x => i_key x < k) (items (split_at k t).1) /\ Forall (fun x => k <= i_key x) (items (split_at k t).2).
Proof.
  induction t as [|a x b IHa IHb IHa1 IHb2] using tree_deep_ind; [by repeat constructor|].
  intros Hasc. pose proof Hasc as (Ha & Hb & Hax & Hxb)%ascending_node. cbn [split_at].
  assert (forall l y, Forall (fun z => before z y) l -> i_key y < k -> Forall (fun z => i_key z < k) l) as Hlt.
  { intros l y Hl Hy. eapply Forall_impl; [exact Hl|]. unfold before. cbn. lia. }
  assert (forall l y, Forall (before y) l -> k <= i_key y -> Forall (fun z => k <= i_key z) l) as Hge.
  { intros l y Hl Hy. eapply Forall_impl; [exact Hl|]. unfold before. cbn. lia. }
  unfold SORTED. destruct (Z.ltb_spec (i_key x) k) as [Hx|Hx].
  - destruct b as [|b1 y b2]; [cbn [fst snd]; rewrite forall_items; split_and!; eauto; constructor|].
    pose proof Hb as (Hb1 & Hb2 & H1 & H2)%ascending_node.
    destruct (Z.ltb_spec (i_key y) k) as [Hy|Hy]; cbn [fst snd]; rewrite ?forall_items.
    + destruct (IHb2 _ _ _ eq_refl Hb2). split_and!; eauto.
    + destruct (IHb Hb). split_and!; eauto.
  - destruct a as [|a1 y a2]; [cbn [fst snd]; rewrite forall_items; split_and!; eauto; constructor|].
    pose proof Ha as (Ha1 & Ha2 & H1 & H2)%ascending_node.
    destruct (Z.ltb_spec (i_key y) k) as [Hy|Hy]; cbn [fst snd]; rewrite ?forall_items.
    + destruct (IHa Ha). split_and!; eauto.
    + destruct (IHa1 _ _ _ eq_refl Ha1). apply forall_items in Hax as (? & ? & ?). split_and!; eauto.
Qed.

(** ** Finding a key *)

Fixpoint find (k : Z) (t : tree) : option (tree * item * tree * list frame) :=
  match t with
  | Leaf => None
  | Node l x r =>
      if k =? i_key x then Some (l, x, r, [])
      else if SORTED k (i_key x) then '(l', y, r', c) ← find k l; Some (l', y, r', c ++ [(Lft, x, r)])
      else '(l', y, r', c) ← find k r; Some (l', y, r', c ++ [(Rgt, x, l)])
  end.

Lemma plug_app t c f : plug t (c ++ [f]) = plug1 (plug t c) f.
Proof. unfold plug. by rewrite fold_left_app. Qed.

Lemma find_plug k t : forall l x r c, find k t = Some (l, x, r, c) -> t = plug (Node l x r) c /\ i_key x = k.
Proof.
  induction t as [|l0 IHl y r0 IHr]; intros l x r c; cbn [find]; [done|].
  destruct (Z.eqb_spec k (i_key y)) as [->|]; [by intros [= <- <- <- <-]|].
  destruct (SORTED k (i_key y)).
  - destruct (find k l0) as [[[[l' z] r'] c']|]; [|done]. intros [= <- <- <- <-].
    destruct (IHl _ _ _ _ eq_refl) as [-> ?]. by rewrite plug_app.
  - destruct (find k r0) as [[[[l' z] r'] c']|]; [|done]. intros [= <- <- <- <-].
    destruct (IHr _ _ _ _ eq_refl) as [-> ?]. by rewrite plug_app.
Qed.

Lemma find_none k t : ascending (items t) -> find k t = None -> Forall (fun x => i_key x <> k) (items t).
Proof.
  induction t as [|l IHl x r IHr]; [constructor|]. intros (Hl & Hr & H1 & H2)%ascending_node. cbn [find].
  destruct (Z.eqb_spec k (i_key x)) as [|Hk]; [done|]. unfold SORTED. rewrite forall_items.
  destruct (Z.ltb_spec k (i_key x)) as [Hlt|Hge].
  - destruct (find k l) as [[[[]]]|]; [done|]. intros _. split_and!; [by apply IHl | lia |].
    eapply Forall_impl; [exact H2|]. unfold before. cbn. lia.
  - destruct (find k r) as [[[[]]]|]; [done|]. intros _. split_and!; [| lia | by apply IHr].
    eapply Forall_impl; [exact H1|]. unfold before. cbn. lia.
Qed.

Definition found (p : option (tree * item * tree * list frame)) : pointer :=
  '(_, x, _, _) ← p; Some (i_loc x).

Lemma lookup_loop_run k fuel : forall t u h br tr,
  rep h u t -> (length (locs t) <= fuel)%nat ->
  wpx (lookup_loop fuel k (top t)) (fun _ _ => False)
    (fun p w => p = found (find k t) /\ cells w = h /\ brk w = br /\ same_pool tr (q w) /\ root (q w) = root tr)
    (World h br tr).
Proof.
  induction fuel as [|fuel IH]; intros [|l x r] u h br tr Hrep Hlen; try by apply wpx_ret.
  { rewrite locs_node, length_app in Hlen. cbn in Hlen. lia. }
  rewrite locs_node, length_app in Hlen. cbn in Hlen. cbn [rep] in Hrep. destruct Hrep as (Hx & Hl & Hr).
  cbn [lookup_loop top find]. eapply wpx_get; [exact Hx|]. cbn [key leftlink rightlink cell].
  destruct (k =? i_key x); [by apply wpx_ret|]. apply wpx_bind, wpx_update. unfold count, set_q. cbn [cells brk q].
  destruct (SORTED k (i_key x)).
  - eapply wpx_mono; [eapply (IH l); [exact Hl | lia] | done |]. intros p w (-> & ? & ? & ? & ?).
    split_and!; [by destruct (find k l) as [[[[]]]|] | done | done | pool | done].
  - eapply wpx_mono; [eapply (IH r); [exact Hr | lia] | done |]. intros p w (-> & ? & ? & ? & ?).
    split_and!; [by destruct (find k r) as [[[[]]]|] | done | done | pool | done].
Qed.

(** ** The map *)

Definition entries (l : list item) : gmap Z item := list_to_map ((fun x => (i_key x, x)) <$> l).

Lemma ascending_keys l : ascending l -> NoDup (i_key <$> l).
Proof.
  induction 1 as [|x l Hl IH Hx]; [constructor|]. cbn. constructor; [|done].
  intros (y & Hy & Hin)%list_elem_of_fmap. rewrite Forall_forall in Hx. specialize (Hx y Hin). unfold before in Hx. lia.
Qed.

Lemma entries_cons x l : entries (x :: l) = <[i_key x := x]> (entries l).
Proof. done. Qed.

Lemma entries_perm l l' : NoDup (i_key <$> l) -> l ≡ₚ l' -> entries l = entries l'.
Proof.
  intros Hnd Hp. apply list_to_map_proper; [|by rewrite Hp].
  by rewrite <- list_fmap_compose.
Qed.

Lemma entries_none k l : Forall (fun x => i_key x <> k) l -> entries l !! k = None.
Proof.
  intros Hl. apply not_elem_of_list_to_map. rewrite <- list_fmap_compose.
  intros (x & -> & Hx)%list_elem_of_fmap. rewrite Forall_forall in Hl. by specialize (Hl x Hx).
Qed.

(** A node in the middle. *)
Lemma entries_mid l1 x l2 : ascending (l1 ++ [x] ++ l2) ->
  entries (l1 ++ [x] ++ l2) = <[i_key x := x]> (entries (l1 ++ l2)) /\ entries (l1 ++ l2) !! i_key x = None.
Proof.
  intros Hasc. split.
  - rewrite <- entries_cons. apply entries_perm; [by apply ascending_keys|]. cbn. symmetry. apply Permutation_middle.
  - apply entries_none. apply ascending_mid in Hasc as (_ & _ & H1 & H2). apply Forall_app. unfold before in *.
    split; (eapply Forall_impl; [eassumption|]); cbn; lia.
Qed.

Lemma entries_replace l1 x y l2 : ascending (l1 ++ [x] ++ l2) -> i_key y = i_key x ->
  ascending (l1 ++ [y] ++ l2) /\ entries (l1 ++ [y] ++ l2) = <[i_key x := y]> (entries (l1 ++ [x] ++ l2)).
Proof.
  intros Hasc Hk. assert (ascending (l1 ++ [y] ++ l2)) as Hy.
  { rewrite ascending_mid in *. unfold before in *. by rewrite Hk. }
  split; [done|]. destruct (entries_mid _ _ _ Hasc) as [-> _]. destruct (entries_mid _ _ _ Hy) as [-> _].
  by rewrite Hk, insert_insert_eq.
Qed.

(** ** The invariant *)

(** The free cells, chained by their left links; all else is zero. *)
Fixpoint chained (h : gmap loc spblk) (p : pointer) (fl : list loc) : Prop :=
  match fl with
  | [] => p = None
  | n :: fl => p = Some n /\ exists nx, h !! n = Some (set_leftlink nx zeroed) /\ chained h nx fl
  end.

Lemma chained_agree S h h' fl : agree S h h' -> apart S fl -> forall p, chained h p fl -> chained h' p fl.
Proof.
  intros Ha. induction fl as [|n fl IH]; intros Hd p; [done|]. spread. intros (-> & nx & Hn & Hfl).
  split; [done|]. exists nx. rewrite (Ha n) by done. split; [done|]. by apply IH.
Qed.

Record holds (w : world) (t : tree) (fl : list loc) : Prop := Holds {
  h_root : root (q w) = top t;
  h_rep : rep (cells w) None t;
  h_free : chained (cells w) (free (q w)) fl;
  h_apart : NoDup (locs t ++ fl);
  h_brk : forall m, is_Some (cells w !! m) -> (m < brk w)%nat;
  h_count : eltscnt (q w) = Z.of_nat (length (items t));
  h_order : ascending (items t)
}.

(** The tree of [w] stands for the map [M] from keys to nodes. *)
Definition stands_for (w : world) (M : gmap Z item) : Prop :=
  exists t fl, holds w t fl /\ M = entries (items t).

Lemma chained_cells h fl : forall p, chained h p fl -> forall m, m ∈ fl -> is_Some (h !! m).
Proof.
  induction fl as [|n fl IH]; intros p; [by intros _ m Hm%elem_of_nil|].
  intros (_ & nx & Hn & Hfl) m [->|Hm]%elem_of_cons; [by rewrite Hn | by eapply IH].
Qed.

(** Writes to the cells of a known tree do not allocate. *)
Lemma brk_agree S (h h' : gmap loc spblk) br :
  (forall m, is_Some (h !! m) -> (m < br)%nat) -> agree S h h' -> (forall m, m ∈ S -> is_Some (h !! m)) ->
  forall m, is_Some (h' !! m) -> (m < br)%nat.
Proof.
  intros Hb Ha HS m Hm. destruct (decide (m ∈ S)) as [Hin|Hin]; [by apply Hb, HS|].
  apply Hb. by rewrite <- (Ha m).
Qed.

(** ** Lookup *)

Lemma holds_splay w l n r c fl : holds w (plug (Node l n r) c) fl ->
  wpx (_splay (Some (i_loc n))) (fun _ _ => False) (fun _ w' => holds w' (splay_tree l n r c) fl) w.
Proof.
  intros [Hroot Hrep Hfree Hapart Hbrk Hcount Horder]. destruct w as [h br tr]. cbn [cells brk q] in *.
  apply nodup_app in Hapart as (Hnd & Hap & Hfl).
  eapply wpx_mono; [by apply splay_run | done |]. intros _ [h' br' tr'] (Hrep' & Hroot' & Ha & Hbr & Hf & He).
  cbn [cells brk q] in *. subst br'. assert (locs (splay_tree l n r c) = locs (plug (Node l n r) c)) as Hlocs.
  { unfold locs. by rewrite splay_tree_items. }
  split; cbn [cells brk q].
  - done.
  - done.
  - rewrite Hf. by eapply chained_agree.
  - rewrite Hlocs. by apply nodup_app.
  - eapply brk_agree; [exact Hbrk | exact Ha|]. by eapply rep_cells.
  - by rewrite He, splay_tree_items.
  - by rewrite splay_tree_items.
Qed.

(** A change of the counters does not matter. *)
Lemma holds_count w t fl tr' : holds w t fl -> same_pool (q w) tr' -> root tr' = root (q w) ->
  holds (World (cells w) (brk w) tr') t fl.
Proof.
  intros [] [Hf He] Hr. split; cbn [cells brk q]; [congruence | done | by rewrite Hf | done | done | by rewrite He | done].
Qed.

Lemma holds_size w t fl : holds w t fl -> (length (locs t) <= size (cells w))%nat.
Proof. intros H. apply (rep_size _ None); [by destruct (proj1 (nodup_app _ _) (h_apart _ _ _ H)) | apply H]. Qed.

Lemma lookup_run k w t fl : holds w t fl ->
  wpx (sp_lookup k) (fun _ _ => False)
    (fun p w' => p = found (find k t) /\
       holds w' match find k t with Some (l, x, r, c) => splay_tree l x r c | None => t end fl) w.
Proof.
  intros Hw. unfold sp_lookup. apply wpx_bind, wpx_read, wpx_bind, wpx_update. unfold count, set_q.
  apply wpx_bind, wpx_read, wpx_bind. cbn [cells]. rewrite (h_root _ _ _ Hw).
  eapply wpx_mono; [eapply (lookup_loop_run k _ t); [apply Hw | by eapply holds_size] | done |].
  intros p [h br tr] (-> & Hh & Hb & Hp & Hr). cbn [cells brk q root] in *. subst h br.
  assert (holds (World (cells w) (brk w) tr) t fl) as Hw2 by (apply holds_count; [done | pool | by rewrite (h_root _ _ _ Hw)]).
  destruct (find k t) as [[[[l x] r] c]|] eqn:Hfind; cbn.
  - destruct (find_plug _ _ _ _ _ _ Hfind) as [-> _].
    apply wpx_bind. eapply wpx_mono; [by apply holds_splay | done |]. intros ? w' Hw'. by apply wpx_ret.
  - by apply wpx_bind, wpx_ret, wpx_ret.
Qed.

Lemma find_entry k t l x r c : ascending (items t) -> find k t = Some (l, x, r, c) -> entries (items t) !! k = Some x.
Proof.
  intros Hasc Hf. destruct (find_plug _ _ _ _ _ _ Hf) as [-> Hk]. rewrite (split_up_items x c l r) in *.
  destruct (entries_mid _ _ _ Hasc) as [-> _]. by rewrite Hk, lookup_insert_eq.
Qed.

(** What the map says about a node is in its cell. *)
Lemma entry_path x t : x ∈ items t -> exists l r c, t = plug (Node l x r) c.
Proof.
  induction t as [|l IHl y r IHr]; [by intros ?%elem_of_nil|]. cbn.
  rewrite elem_of_app, elem_of_cons. intros [(l' & r' & c & ->)%IHl | [-> | (l' & r' & c & ->)%IHr]].
  - exists l', r', (c ++ [(Lft, y, r)]). by rewrite plug_app.
  - by exists l, r, [].
  - exists l', r', (c ++ [(Rgt, y, l)]). by rewrite plug_app.
Qed.

Lemma entries_items l k x : entries l !! k = Some x -> x ∈ l /\ i_key x = k.
Proof. intros Hx%elem_of_list_to_map_2. apply list_elem_of_fmap in Hx as (y & [= -> ->] & Hy). done. Qed.

Lemma entries_elem l : ascending l -> forall y, y ∈ l <-> entries l !! i_key y = Some y.
Proof.
  intros Hasc y. split; [|by intros [? _]%entries_items]. intros Hy. apply elem_of_list_to_map.
  - rewrite <- list_fmap_compose. by apply ascending_keys.
  - apply list_elem_of_fmap. by exists y.
Qed.

Lemma stands_cell w M k x : stands_for w M -> M !! k = Some x ->
  i_key x = k /\ exists l r u, cells w !! i_loc x = Some (cell l r u x).
Proof.
  intros (t & fl & Hw & ->) [Hin Hk]%entries_items. split; [done|].
  destruct (entry_path x t Hin) as (l & r & c & ->). destruct Hw as [_ Hrep _ _ _ _ _].
  apply rep_plug in Hrep as [(Hx & _) _]. eauto.
Qed.

(** ** Insertion *)

Lemma chunk_cell n i : (i < CHUNK)%nat ->
  (list_to_map (chunk n) : gmap loc spblk) !! (n + i)%nat =
  Some (set_leftlink (if (i <? CHUNK - 1)%nat then Some (n + i + 1)%nat else None) zeroed).
Proof.
  intros Hi. apply elem_of_list_to_map.
  - unfold chunk. rewrite <- list_fmap_compose. apply NoDup_fmap_2; [|apply NoDup_seq]. intros a b. cbn. lia.
  - unfold chunk. apply list_elem_of_fmap. exists i. split; [done|]. apply elem_of_seq. lia.
Qed.

Lemma chunk_bounds n m : is_Some ((list_to_map (chunk n) : gmap loc spblk) !! m) -> (n <= m < n + CHUNK)%nat.
Proof.
  intros [b Hb%elem_of_list_to_map_2]. unfold chunk in Hb.
  apply list_elem_of_fmap in Hb as (i & [= -> ->] & Hi%elem_of_seq). lia.
Qed.

Lemma chunk_chained h n :
  (forall i, (i < CHUNK)%nat -> h !! (n + i)%nat =
     Some (set_leftlink (if (i <? CHUNK - 1)%nat then Some (n + i + 1)%nat else None) zeroed)) ->
  forall j i, (i + S j)%nat = CHUNK -> chained h (Some (n + i)%nat) (seq (n + i) (S j)).
Proof.
  intros Hc. induction j as [|j IH]; intros i Hij; cbn [seq chained].
  - split; [done|]. exists None. split; [|done]. rewrite Hc by lia. by rewrite (proj2 (Nat.ltb_ge i (CHUNK - 1))) by lia.
  - split; [done|]. exists (Some (S (n + i))). split.
    + rewrite Hc by lia. rewrite (proj2 (Nat.ltb_lt i (CHUNK - 1))) by lia. do 3 f_equal. lia.
    + specialize (IH (S i) ltac:(lia)). replace (n + S i)%nat with (S (n + i)) in IH by lia. exact IH.
Qed.

(** More cells for an empty pool. *)
Lemma holds_more w t : holds w t [] ->
  wpx more_free (fun _ _ => False) (fun _ w' => holds w' t (seq (brk w) CHUNK)) w.
Proof.
  intros [Hroot Hrep Hfree Hapart Hbrk Hcount Horder]. apply wpx_update.
  unfold set_free, set_q. set (h' := list_to_map (chunk (brk w)) ∪ cells w). cbn [cells brk q].
  assert (forall m, (m < brk w)%nat -> h' !! m = cells w !! m) as Hold.
  { intros m Hm. apply lookup_union_r, eq_None_not_Some. intros Hs%chunk_bounds. lia. }
  assert (agree (seq (brk w) CHUNK) (cells w) h') as Ha.
  { intros m Hm. rewrite elem_of_seq in Hm. destruct (decide (m < brk w)%nat); [by apply Hold|].
    apply lookup_union_r, eq_None_not_Some. intros Hs%chunk_bounds. lia. }
  assert (apart (seq (brk w) CHUNK) (locs t)) as Hd.
  { intros m Hm%elem_of_seq Hin. pose proof (rep_cells _ _ _ Hrep m Hin) as Hlt%Hbrk. lia. }
  split; cbn [cells brk q root free eltscnt]; try done.
  - by eapply rep_agree.
  - assert (forall j i, (i + S j)%nat = CHUNK -> chained h' (Some (brk w + i)%nat) (seq (brk w + i) (S j))) as Hc.
    { apply chunk_chained. intros i Hi. apply lookup_union_Some_l. by apply chunk_cell. }
    specialize (Hc (CHUNK - 1)%nat 0%nat eq_refl). rewrite Nat.add_0_r in Hc. exact Hc.
  - rewrite app_nil_r in Hapart. apply nodup_app. split_and!; [done | by apply apart_sym | apply NoDup_seq].
  - intros m [b Hb]. apply lookup_union_Some_raw in Hb as [Hb|[_ Hb]].
    + pose proof (chunk_bounds (brk w) m ltac:(eauto)). lia.
    + pose proof (Hbrk m ltac:(eauto)). lia.
Qed.

(** Take a cell from the pool. *)
Lemma alloc_run k w t fl : holds w t fl ->
  wpx (_sp_alloc k) (fun _ _ => False)
    (fun p w' => exists n fl', p = Some n /\ n ∉ locs t ++ fl' /\ holds w' t fl' /\
       cells w' !! n = Some (Spblk None None None k None 0)) w.
Proof.
  intros Hw. unfold _sp_alloc. apply wpx_bind, wpx_read, wpx_bind.
  apply wpx_mono with (E := fun _ _ => False) (Q := fun _ w' => exists n fl', holds w' t (n :: fl')).
  { pose proof (h_free _ _ _ Hw) as Hf. destruct fl as [|n fl]; cbn [chained] in Hf.
    - rewrite Hf. eapply wpx_mono; [by apply holds_more | done |]. cbn. intros _ w' Hw'.
      exists (brk w), (seq (S (brk w)) (CHUNK - 1)). exact Hw'.
    - destruct Hf as [-> _]. apply wpx_ret. eauto. }
  { done. }
  clear w fl Hw. intros _ [h br tr] (n & fl & [Hroot Hrep Hfree Hapart Hbrk Hcount Horder]).
  cbn [cells brk q] in *. cbn [chained] in Hfree. destruct Hfree as (Hf & nx & Hn & Hfl). spread.
  apply wpx_bind, wpx_read. cbn [q]. rewrite Hf. eapply wpx_get; [exact Hn|].
  apply wpx_bind, wpx_update. unfold set_free, set_q. cbn [cells brk q].
  eapply wpx_put; [exact Hn|]. intros h' Hn' Ha. apply wpx_ret. exists n, fl. split_and!; [done | apart | | exact Hn'].
  split; cbn [cells brk q root free eltscnt]; try done.
  - eapply rep_agree; [exact Ha | apart | done].
  - eapply chained_agree; [exact Ha | apart | done].
  - apart.
  - eapply brk_agree; [exact Hbrk | exact Ha |]. intros m ->%list_elem_of_singleton. by rewrite Hn.
Qed.

(** A new node for a new key; it has been counted before. *)
Lemma holds_enq x t fl h br tr0 tr :
  holds (World h br tr0) t fl -> free tr = free tr0 -> root tr = root tr0 -> eltscnt tr = eltscnt tr0 + 1 ->
  i_loc x ∉ locs t ++ fl -> h !! i_loc x = Some (cell None None None x) ->
  Forall (fun y => i_key y <> i_key x) (items t) ->
  wpx (_sp_enq (Some (i_loc x))) (fun _ _ => False) (fun _ w' => holds w' (enq_tree x t) fl) (World h br tr).
Proof.
  intros [Hroot Hrep Hfree Hapart Hbrk Hcount Horder] Hf0 Hr0 He0 Hin Hx Hnew. cbn [cells brk q] in *.
  apply nodup_app in Hapart as (Hnd & Hap & Hfl). apply notin_app in Hin as [Hin1 Hin2].
  eapply wpx_mono; [by eapply (enq_run x t); [exact Hrep | congruence | apart | exact Hx | done | done | done] | done |].
  intros _ [h' br' tr'] (Hrep' & Hroot' & Ha & Hbr & Hf & He). cbn [cells brk q] in *. subst br'.
  assert (locs (enq_tree x t) ≡ₚ i_loc x :: locs t) as Hlocs.
  { unfold enq_tree. rewrite locs_node, (split_at_locs (i_key x) t). symmetry. apply Permutation_middle. }
  pose proof (split_at_items (i_key x) t) as Hitems. pose proof (split_at_keys (i_key x) t Horder) as [H1 H2].
  split; cbn [cells brk q].
  - done.
  - done.
  - rewrite Hf, Hf0. eapply chained_agree; [exact Ha | apart | done].
  - rewrite Hlocs. apart.
  - eapply brk_agree; [exact Hbrk | exact Ha |]. intros m [->|Hm]%elem_of_cons; [by rewrite Hx | by eapply rep_cells].
  - rewrite He, He0, Hcount, Hitems. unfold enq_tree. cbn. rewrite !length_app. cbn. lia.
  - apply ascending_node. rewrite Hitems in Horder, Hnew. apply StronglySorted_app in Horder as (_ & ? & ?).
    apply Forall_app in Hnew as [_ Hnew]. split_and!; [done | done | exact H1 |].
    rewrite Forall_forall in *. intros y Hy. specialize (Hnew y Hy). specialize (H2 y Hy). unfold before. lia.
Qed.

(** The contents of a node. *)
Lemma holds_set_item {A} (Q : A -> world -> Prop) (k : unit -> sp A) f d m l x r c fl w :
  holds w (plug (Node l x r) c) fl ->
  (forall a b u, f (cell a b u x) = cell a b u (Item (i_loc x) (i_key x) d m)) ->
  (forall w', holds w' (plug (Node l (Item (i_loc x) (i_key x) d m) r) c) fl -> wpx (k tt) (fun _ _ => False) Q w') ->
  wpx (put (Some (i_loc x)) f ≫= k) (fun _ _ => False) Q w.
Proof.
  intros [Hroot Hrep Hfree Hapart Hbrk Hcount Horder] Hfx Hk. destruct w as [h br tr]. cbn [cells brk q] in *.
  set (x' := Item (i_loc x) (i_key x) d m) in *.
  assert (top (plug (Node l x' r) c) = top (plug (Node l x r) c)) as Htop.
  { destruct c as [|f' c] using rev_ind; [done|]. rewrite !plug_app. by destruct f' as [[[] ?] ?]. }
  assert (ascending (items (plug (Node l x' r) c))) as Hasc.
  { rewrite items_path in *. cbn [items] in *. rewrite <- !app_assoc in *. rewrite app_assoc in *.
    by apply (entries_replace _ x x'). }
  assert (length (items (plug (Node l x' r) c)) = length (items (plug (Node l x r) c))) as Hlen.
  { rewrite !items_path. cbn [items]. rewrite !length_app. done. }
  assert (locs (plug (Node l x' r) c) ≡ₚ locs (plug (Node l x r) c)) as Hlocs.
  { by rewrite !locs_plug, !locs_node. }
  rewrite (locs_plug c) in Hapart. apply rep_plug in Hrep as [(Hx & Hl & Hr) Hc]. cbn [top] in Hc. spread.
  eapply wpx_put; [exact Hx|]. intros h' Hx' Ha. apply Hk. pose proof Hx as Hx0. transport Ha. rewrite Hfx in Hx'.
  split; cbn [cells brk q].
  - by rewrite Htop.
  - apply rep_plug. by split.
  - eapply chained_agree; [exact Ha | apart | done].
  - rewrite Hlocs, (locs_plug c). apart.
  - eapply brk_agree; [exact Hbrk | exact Ha |]. intros n ->%list_elem_of_singleton. by rewrite Hx.
  - by rewrite Hlen.
  - done.
Qed.

Lemma find_some_splay k t l x r c : find k t = Some (l, x, r, c) -> items (splay_tree l x r c) = items t /\ i_key x = k.
Proof. intros [-> Hk]%find_plug. by rewrite splay_tree_items. Qed.

(** ** The operations on the map *)

Lemma lookup_spec k w M : stands_for w M ->
  wpx (sp_lookup k) (fun _ _ => False) (fun p w' => p = i_loc <$> M !! k /\ stands_for w' M) w.
Proof.
  intros (t & fl & Hw & ->). pose proof (h_order _ _ _ Hw) as Hasc.
  eapply wpx_mono; [by apply lookup_run | done |]. intros p w' [-> Hw'].
  destruct (find k t) as [[[[l x] r] c]|] eqn:Hf.
  - rewrite (find_entry _ _ _ _ _ _ Hasc Hf). split; [done|]. eexists _, fl. split; [exact Hw'|].
    by destruct (find_some_splay _ _ _ _ _ _ Hf) as [-> _].
  - rewrite (entries_none k); [|by apply find_none]. split; [done|]. by exists t, fl.
Qed.

Lemma install_spec k d m w M : stands_for w M ->
  wpx (sp_install k d m) (fun _ _ => False)
    (fun p w' => exists n, p = Some n /\ stands_for w' (<[k := Item n k d m]> M) /\
       match M !! k with Some x => n = i_loc x | None => forall k' x, M !! k' = Some x -> i_loc x <> n end) w.
Proof.
  intros (t & fl & Hw & ->). pose proof (h_order _ _ _ Hw) as Hasc. unfold sp_install. apply wpx_bind.
  eapply wpx_mono; [by apply lookup_run | done |]. cbn. intros p w' [-> Hw'].
  destruct (find k t) as [[[[l x] r] c]|] eqn:Hf; cbn [found mbind option_bind].
  - apply wpx_bind, wpx_ret. eapply (holds_set_item _ _ _ d m _ _ _ []); [exact Hw' | done |]. intros w2 Hw2. apply wpx_ret.
    destruct (find_some_splay _ _ _ _ _ _ Hf) as [Hi <-]. exists (i_loc x). split; [done|].
    rewrite (find_entry _ _ _ _ _ _ Hasc Hf). split; [|done]. eexists _, fl. split; [exact Hw2|].
    rewrite <- Hi in *. cbn [splay_tree items] in *. symmetry. by apply entries_replace.
  - apply find_none in Hf as Hnew; [|done]. apply wpx_bind, wpx_bind.
    eapply wpx_mono; [eapply alloc_run; exact Hw' | done |]. intros p w2 (n & fl2 & -> & Hn & Hw2 & Hcell).
    apply wpx_bind, wpx_update. unfold count, set_q. apply wpx_bind. destruct w2 as [h br tr]. cbn [cells brk q] in *.
    eapply wpx_mono; [eapply (holds_enq (Item n k None 0) t fl2); [exact Hw2 | done | done | cbn; lia | exact Hn | exact Hcell | exact Hnew] | done |].
    intros ? w3 Hw3. apply wpx_ret. eapply (holds_set_item _ _ _ d m _ (Item n k None 0) _ []); [exact Hw3 | done |].
    intros w4 Hw4. cbn [plug fold_left] in Hw4. apply wpx_ret. exists n. split; [done|]. rewrite (entries_none k) by done. split.
    + eexists _, fl2. split; [exact Hw4|]. pose proof (h_order _ _ _ Hw4) as Ha. cbn [items i_loc i_key] in *.
      destruct (entries_mid _ _ _ Ha) as [-> _]. cbn. by rewrite <- split_at_items.
    + intros k' x [Hx _]%entries_items <-. apply notin_app in Hn as [Hn _]. apply Hn. unfold locs. by apply list_elem_of_fmap_2.
Qed.

Lemma delete_spec k x w M : stands_for w M -> M !! k = Some x ->
  wpx (sp_delete (Some (i_loc x))) (fun _ _ => False) (fun _ w' => stands_for w' (delete k M)) w.
Proof.
  intros (t & fl & Hw & ->) [Hx <-]%entries_items. destruct (entry_path x t Hx) as (l & r & c & ->).
  destruct Hw as [Hroot Hrep Hfree Hapart Hbrk Hcount Horder]. destruct w as [h br tr]. cbn [cells brk q] in *.
  apply nodup_app in Hapart as (Hnd & Hap & Hfl).
  eapply wpx_mono; [by apply delete_run | done |].
  intros ? [h' br' tr'] (Hrep' & Hroot' & Hn & Hf & Ha & Hbr & He). cbn [cells brk q] in *. subst br'.
  pose proof (delete_tree_items l x r c) as Hdel. rewrite (split_up_items x c l r) in *.
  assert (locs (plug (Node l x r) c) ≡ₚ i_loc x :: locs (delete_tree l x r c)) as Hlocs.
  { unfold locs. rewrite split_up_items, Hdel, !fmap_app. cbn. symmetry. apply Permutation_middle. }
  assert (forall m, m ∈ locs (plug (Node l x r) c) -> is_Some (h !! m)) as Hcells by (by eapply rep_cells).
  assert (apart (locs (plug (Node l x r) c)) fl) as Hap2 by done.
  exists (delete_tree l x r c), (i_loc x :: fl). split; [split; cbn [cells brk q]|].
  - done.
  - done.
  - rewrite Hf. split; [done|]. exists (free tr). split; [done|]. by eapply chained_agree.
  - unfold apart in Hap2. setoid_rewrite Hlocs in Hap2. fold (apart (i_loc x :: locs (delete_tree l x r c)) fl) in Hap2.
    rewrite Hlocs in Hnd. spread. apart.
  - by eapply brk_agree.
  - rewrite He, Hcount, Hdel, !length_app. cbn. lia.
  - rewrite Hdel. apply ascending_mid in Horder as Ho. destruct Ho as (? & ? & ? & ?).
    apply StronglySorted_app_2; [|done|done]. intros y z Hy Hz.
    rewrite Forall_forall in *. unfold before in *. transitivity (i_key x); eauto.
  - destruct (entries_mid _ _ _ Horder) as [-> Hnone]. rewrite Hdel. by rewrite delete_insert_id.
Qed.
