(* ===== verification/SplayWalk.v ===== *)
(** * Walking through a splay tree

    sp_fhead() and sp_fnext() follow the links to the first and to the next
    node; sp_scan() calls a function on every node in the order of the
    keys, and _sp_chop() gives all nodes back to the pool. *)

From Stdlib Require Import ZArith Lia.
From stdpp Require Import base tactics numbers list option gmap sorting.
From S2P Require Import Prelude Splay SplayTree SplayRefine SplaySplit SplayDelete SplayMap.

#[local] Open Scope Z_scope.

(** ** Links alone

    A function called by sp_scan() may change what a node holds, so the
    walk relies only on the links. *)

Definition links (b : spblk) : pointer * pointer * pointer := (leftlink b, rightlink b, uplink b).

Fixpoint shape (h : gmap loc spblk) (u : pointer) (t : tree) : Prop :=
  match t with
  | Leaf => True
  | Node l x r =>
      links <$> h !! i_loc x = Some (top l, top r, u) /\ shape h (Some (i_loc x)) l /\ shape h (Some (i_loc x)) r
  end.

Fixpoint shapec (h : gmap loc spblk) (p : pointer) (c : list frame) : Prop :=
  match c with
  | [] => True
  | (Lft, x, u) :: c =>
      links <$> h !! i_loc x = Some (p, top u, ctop None c) /\ shape h (Some (i_loc x)) u /\ shapec h (Some (i_loc x)) c
  | (Rgt, x, u) :: c =>
      links <$> h !! i_loc x = Some (top u, p, ctop None c) /\ shape h (Some (i_loc x)) u /\ shapec h (Some (i_loc x)) c
  end.

Lemma rep_shape h t : forall u, rep h u t -> shape h u t.
Proof. induction t as [|l IHl x r IHr]; intros u; [done|]. cbn. intros (-> & Hl & Hr). split_and!; [done | eauto | eauto]. Qed.

Lemma shape_plug h c : forall t, shape h None (plug t c) <-> shape h (ctop None c) t /\ shapec h (top t) c.
Proof.
  induction c as [|[[[] x] u] c IH]; intros t; rewrite ?plug_cons; cbn [plug1 ctop shapec].
  - cbn. tauto.
  - rewrite IH. cbn [shape top]. tauto.
  - rewrite IH. cbn [shape top]. tauto.
Qed.

Lemma shape_links h h' t : (forall m, links <$> h' !! m = links <$> h !! m) -> forall u, shape h u t -> shape h' u t.
Proof.
  intros Hl. induction t as [|l IHl x r IHr]; intros u; [done|]. cbn. rewrite Hl. intros (-> & ? & ?). eauto.
Qed.

Lemma shape_cells h t : forall u, shape h u t -> forall m, m ∈ locs t -> is_Some (h !! m).
Proof.
  induction t as [|l IHl x r IHr]; intros u; cbn [shape].
  - intros _ m Hm. by apply elem_of_nil in Hm.
  - intros (Hx & Hl & Hr) m. rewrite locs_node, elem_of_app, elem_of_cons.
    intros [Hm | [-> | Hm]]; [by eapply IHl | | by eapply IHr]. destruct (h !! i_loc x); [eauto | done].
Qed.

(** ** Reading *)

Lemma get_links n l r u (h : gmap loc spblk) : links <$> h !! n = Some (l, r, u) ->
  exists b, h !! n = Some b /\ leftlink b = l /\ rightlink b = r /\ uplink b = u.
Proof. destruct (h !! n) as [b|]; [|done]. intros [= <- <- <-]. eauto. Qed.

Lemma get_eq {A} n b (k : spblk -> sp A) w : cells w !! n = Some b -> (get (Some n) ≫= k) w = k b w.
Proof. intros Hb. unfold get. cbn. unfold read, ex_bind, mbind. by rewrite Hb. Qed.

Lemma read_eq {A B} (g : world -> A) (k : A -> sp B) w : (read g ≫= k) w = k (g w) w.
Proof. done. Qed.

Lemma leftmost_run fuel : forall t u w, t <> Leaf -> shape (cells w) u t -> (length (locs t) <= fuel)%nat ->
  leftmost fuel (top t) w = (inr (head (locs t)), w).
Proof.
  induction fuel as [|fuel IH]; intros [|l x r] u w Hne Hs Hlen; try done.
  { rewrite locs_node, length_app in Hlen. cbn in Hlen. lia. }
  rewrite locs_node, length_app in Hlen. cbn in Hlen. cbn [shape] in Hs. destruct Hs as (Hx & Hl & Hr).
  apply get_links in Hx as (b & Hb & Hbl & _). cbn [leftmost top]. rewrite (get_eq _ _ _ _ Hb), Hbl, locs_node.
  destruct l as [|a y c]; [done|]. cbn [top]. change (Some (i_loc y)) with (top (Node a y c)).
  rewrite (IH _ (Some (i_loc x))); [|done|done|lia]. rewrite (head_app (locs (Node a y c))), locs_node.
  by destruct (locs a).
Qed.

Lemma climb_run fuel : forall c p w, (length c <= fuel)%nat -> shapec (cells w) (Some p) c -> p ∉ clocs c -> NoDup (clocs c) ->
  climb fuel (Some p) (ctop None c) w = (inr (head (i_loc <$> after c)), w).
Proof.
  induction fuel as [|fuel IH]; intros [|[[sd x] u] c] p w Hlen Hs Hp Hnd; try done; [cbn in Hlen; lia|].
  cbn [length] in Hlen. cbn [climb ctop]. destruct sd; cbn [shapec] in Hs; destruct Hs as (Hx & Hu & Hc); spread;
    apply get_links in Hx as (b & Hb & Hl & Hr & Hup); rewrite (get_eq _ _ _ _ Hb), Hl.
  - by rewrite bool_decide_true.
  - rewrite bool_decide_false by (by apply top_not). rewrite Hup. cbn [after]. apply IH; [lia | done | done | done].
Qed.

Lemma shape_size h u t : NoDup (locs t) -> shape h u t -> (length (locs t) <= size h)%nat.
Proof. intros Hnd Hs. apply cells_size; [done|]. by eapply shape_cells. Qed.

Lemma fnext_run l n r c w : shape (cells w) None (plug (Node l n r) c) -> NoDup (locs (plug (Node l n r) c)) ->
  sp_fnext (Some (i_loc n)) w = (inr (head (i_loc <$> items r ++ after c)), w).
Proof.
  intros Hs Hnd. pose proof (shape_size _ _ _ Hnd Hs) as Hsize. rewrite (locs_plug c) in Hnd, Hsize.
  apply shape_plug in Hs as [(Hn & Hl & Hr) Hc]. cbn [top] in Hc. rewrite locs_node, !length_app in Hsize. cbn in Hsize.
  apply get_links in Hn as (b & Hb & _ & Hbr & Hbu). unfold sp_fnext, all_cells.
  rewrite read_eq, (get_eq _ _ _ _ Hb), Hbr, Hbu. destruct r as [|a x d]; cbn [top].
  - cbn [items app]. spread. apply climb_run; [|done|apart|done]. pose proof (path_length c). lia.
  - change (Some (i_loc x)) with (top (Node a x d)). rewrite (leftmost_run _ _ (Some (i_loc n))); [|done|done|lia].
    rewrite fmap_app. change (i_loc <$> items (Node a x d)) with (locs (Node a x d)).
    rewrite head_app, locs_node. by destruct (locs a).
Qed.

Lemma fhead_run t w : root (q w) = top t -> shape (cells w) None t -> NoDup (locs t) ->
  sp_fhead w = (inr (head (locs t)), w).
Proof.
  intros Hroot Hs Hnd. pose proof (shape_size _ _ _ Hnd Hs) as Hsize. unfold sp_fhead, all_cells.
  rewrite !read_eq, Hroot. destruct t as [|l x r]; [done|]. cbn [top].
  change (Some (i_loc x)) with (top (Node l x r)). by apply (leftmost_run _ _ None).
Qed.

(** ** sp_scan() *)

Lemma suffix_unique (a b : list item) x : forall c d, a ++ x :: c = b ++ x :: d -> NoDup (b ++ x :: d) -> c = d.
Proof.
  revert b. induction a as [|y a IH]; intros [|z b] c d; cbn.
  - by intros [= ->].
  - intros [= -> ->] [Hz _]%NoDup_cons. set_solver.
  - intros [= -> <-] [Hz _]%NoDup_cons. set_solver.
  - intros [= -> He] [_ Hnd]%NoDup_cons. by eapply IH.
Qed.

(** Call [f] on each node of a list. *)
Fixpoint visit {S} (f : loc -> EX S trouble unit) (l : list loc) : EX S trouble unit :=
  match l with [] => mret tt | n :: l => f n;; visit f l end.

Section scan.
Context {X : Type} (f : loc -> EX (world * X) trouble unit).

(** [f] does not change links. *)
Definition keeps_links : Prop := forall n s m, links <$> cells (f n s).2.1 !! m = links <$> cells s.1 !! m.

Hypothesis Hf : keeps_links.

Lemma scan_loop_run t fuel : forall done rest s,
  items t = done ++ rest -> shape (cells s.1) None t -> NoDup (locs t) -> (length rest <= fuel)%nat ->
  scan_loop fuel f (head (i_loc <$> rest)) s = visit f (i_loc <$> rest) s.
Proof.
  induction fuel as [|fuel IH]; intros dn [|x rest] s Hi Hs Hnd Hlen; try done; [cbn in Hlen; lia|].
  cbn [length] in Hlen. destruct (entry_path x t) as (l & r & c & Ht); [rewrite Hi; set_solver|].
  assert (items r ++ after c = rest) as Hrest.
  { subst t. rewrite items_path in Hi. unfold locs in Hnd. rewrite items_path in Hnd. cbn [items] in *.
    apply NoDup_fmap_1 in Hnd. rewrite Hi in Hnd.
    apply (suffix_unique (ahead c ++ items l) dn x); [|done]. rewrite <- Hi. list_eq. }
  cbn [scan_loop head fmap list_fmap visit]. unfold on_tree at 1. unfold mbind at 1, ex_bind at 1.
  subst t. rewrite (fnext_run l x r c) by done. cbn [fst snd]. rewrite Hrest.
  replace (s.1, s.2) with s by (by destruct s). unfold mbind, ex_bind.
  pose proof (Hf (i_loc x) s) as Hk. destruct (f (i_loc x) s) as [[t|u] s'] eqn:E; [done|]. cbn [snd] in Hk.
  apply (IH (dn ++ [x])); [by rewrite Hi, <- app_assoc | | done | lia].
  by eapply shape_links.
Qed.

Lemma scan_run t fl w x : holds w t fl -> sp_scan f None (w, x) = visit f (locs t) (w, x).
Proof.
  intros Hw. pose proof (holds_size _ _ _ Hw) as Hsize. destruct Hw as [Hroot Hrep _ Hapart _ _ _].
  apply nodup_app in Hapart as (Hnd & _ & _). apply rep_shape in Hrep.
  unfold sp_scan, all_cells, on_tree, mbind, ex_bind, read. cbn [fst snd].
  rewrite (fhead_run t) by done. unfold locs. apply (scan_loop_run t _ []); [done | done | done |].
  unfold locs in Hsize. by rewrite length_fmap in Hsize.
Qed.
End scan.

(** ** sp_null() *)

(** The order in which the nodes are in the pool afterwards. *)
Fixpoint chopped (t : tree) : list loc :=
  match t with Leaf => [] | Node l x r => i_loc x :: chopped l ++ chopped r end.

Lemma chopped_locs t : chopped t ≡ₚ locs t.
Proof.
  induction t as [|l IHl x r IHr]; [done|]. cbn [chopped]. rewrite locs_node, IHl, IHr. apply Permutation_middle.
Qed.

Definition chop_ok (fuel : nat) : Prop := forall t u fl h br tr,
  t <> Leaf -> (length (locs t) <= fuel)%nat -> rep h u t -> NoDup (locs t ++ fl) -> chained h (free tr) fl ->
  wpx (_sp_chop fuel (top t)) (fun _ _ => False)
    (fun _ w => agree (locs t) h (cells w) /\ chained (cells w) (free (q w)) (chopped t ++ fl) /\ brk w = br)
    (World h br tr).

(** A subtree that may be empty. *)
Lemma chop_child fuel {A} (k : unit -> sp A) Q t u fl h br tr :
  chop_ok fuel -> (length (locs t) <= fuel)%nat -> rep h u t -> NoDup (locs t ++ fl) -> chained h (free tr) fl ->
  (forall h' tr', agree (locs t) h h' -> chained h' (free tr') (chopped t ++ fl) ->
     wpx (k tt) (fun _ _ => False) Q (World h' br tr')) ->
  wpx ((if top t is Some _ then _sp_chop fuel (top t) else mret tt) ≫= k) (fun _ _ => False) Q (World h br tr).
Proof.
  intros Hok Hlen Hrep Hnd Hfl Hk. apply wpx_bind. destruct t as [|l x r]; cbn [top].
  - apply wpx_ret. by apply Hk.
  - change (Some (i_loc x)) with (top (Node l x r)). eapply wpx_mono; [by eapply Hok | done |].
    intros [] [h' br' tr'] (Ha & Hc & Hb). cbn [cells brk q] in *. subst br'. by apply Hk.
Qed.

Lemma chop_run fuel : chop_ok fuel.
Proof.
  induction fuel as [|fuel IH]; intros [|l x r] u fl h br tr Hne Hlen Hrep Hnd Hfl; try done.
  { rewrite locs_node, length_app in Hlen. cbn in Hlen. lia. }
  rewrite locs_node, length_app in Hlen. cbn in Hlen. cbn [rep] in Hrep. destruct Hrep as (Hx & Hl & Hr). spread.
  cbn [_sp_chop top]. eapply wpx_get; [exact Hx|]. cbn [rightlink cell].
  eapply (chop_child fuel _ _ r _ fl); [done | lia | exact Hr | apart | done |]. intros h1 tr1 A1 C1.
  clear Hr. transport A1. eapply wpx_get; [exact Hx|]. cbn [leftlink cell].
  assert (forall S, apart S (locs r) -> apart S (chopped r)) as Hch.
  { intros S HS m Hm Hin. apply (HS m Hm). by rewrite <- (chopped_locs r). }
  assert (NoDup (chopped r)) as Hcr by (by rewrite chopped_locs).
  assert (apart (chopped r) fl) as Hcf by (by apply apart_sym, Hch, apart_sym).
  assert (apart (locs l) (chopped r)) as Hlr by (by apply Hch).
  eapply (chop_child fuel _ _ l _ (chopped r ++ fl)); [done | lia | exact Hl | apart | exact C1 |]. intros h2 tr2 A2 C2.
  clear Hl. transport A2. eapply release_run; [exact Hx|]. intros h3 Hx3 A3.
  assert (apart [i_loc x] (chopped l)) as Hxl.
  { intros m ->%list_elem_of_singleton. by rewrite (chopped_locs l). }
  assert (apart [i_loc x] (chopped r)) as Hxr by (apply Hch; apart).
  unfold set_free, set_q. cbn [cells brk q free]. split; [|split; [split; [done|] | done]].
  - intros m Hm. spread. rewrite (A3 m), (A2 m), (A1 m) by apart. done.
  - exists (free tr2). split; [done|]. cbn [app]. rewrite <- app_assoc.
    eapply chained_agree; [exact A3 | | exact C2]. apply apart_app_r. split; [done|]. apply apart_app_r. split; [done|]. apart.
Qed.

Lemma null_spec w t fl : holds w t fl ->
  wpx sp_null (fun _ _ => False) (fun _ w' => holds w' Leaf (chopped t ++ fl) /\ root (q w') = None /\ eltscnt (q w') = 0) w.
Proof.
  intros Hw. unfold sp_null. apply wpx_bind, wpx_read. rewrite (h_root _ _ _ Hw).
  destruct t as [|l x r]; cbn [top].
  - apply wpx_ret. split; [done|]. split; [apply Hw | by rewrite (h_count _ _ _ Hw)].
  - apply wpx_bind, wpx_read, wpx_bind. change (Some (i_loc x)) with (top (Node l x r)).
    pose proof (holds_size _ _ _ Hw) as Hsize. destruct Hw as [Hroot Hrep Hfree Hapart Hbrk Hcount Horder].
    destruct w as [h br tr]. cbn [cells brk q] in *.
    eapply wpx_mono; [by eapply (chop_run _ (Node l x r)) | done |].
    intros [] [h' br' tr'] (Ha & Hc & Hb). cbn [cells brk q] in *. subst br'. apply wpx_update.
    split; [|done]. split; unfold set_q; cbn [cells brk q root free eltscnt].
    + done.
    + done.
    + done.
    + change (locs Leaf ++ (chopped (Node l x r) ++ fl)) with (chopped (Node l x r) ++ fl). by rewrite chopped_locs.
    + eapply brk_agree; [exact Hbrk | exact Ha |]. by eapply rep_cells.
    + done.
    + constructor.
Qed.
