(* ===== verification/SplayProps.v ===== *)
(** * Theorems about splay trees

    The tree of lib/splay.c behaves as a finite map under any sequence of
    operations; nodes keep their addresses; a scan visits the nodes in the
    order of their keys; emptying gives all nodes back. *)

From Stdlib Require Import ZArith Lia.
From stdpp Require Import base tactics numbers list option gmap sorting.
From S2P Require Import Prelude Splay SplayTree SplayRefine SplaySplit SplayDelete SplayMap SplayWalk.

#[local] Open Scope Z_scope.

(** ** Sequences of operations *)

Inductive op := Lookup (k : Z) | Install (k : Z) (d : pointer) (m : Z) | Delete (k : Z).

(** A client finds a node before it reads or deletes it. *)
Definition perform (o : op) : sp (option (pointer * Z)) :=
  match o with
  | Lookup k =>
      n ← sp_lookup k;
      if n is Some _ then b ← get n; mret (Some (data b, mark b)) else mret None
  | Install k d m => sp_install k d m;; mret None
  | Delete k =>
      n ← sp_lookup k;
      (if n is Some _ then sp_delete n else mret tt);;
      mret None
  end.

Fixpoint perform_all (l : list op) : sp (list (option (pointer * Z))) :=
  match l with
  | [] => mret []
  | o :: l => a ← perform o; rest ← perform_all l; mret (a :: rest)
  end.

(** The same on a finite map. *)
Definition answer (o : op) (M : gmap Z (pointer * Z)) : option (pointer * Z) * gmap Z (pointer * Z) :=
  match o with
  | Lookup k => (M !! k, M)
  | Install k d m => (None, <[k := (d, m)]> M)
  | Delete k => (None, delete k M)
  end.

Fixpoint answers (l : list op) (M : gmap Z (pointer * Z)) : list (option (pointer * Z)) :=
  match l with
  | [] => []
  | o :: l => (answer o M).1 :: answers l (answer o M).2
  end.

(** The state behind sp_init(). *)
Definition start : world := World ∅ 0 sp_init.

Lemma start_stands : stands_for start ∅.
Proof.
  exists Leaf, []. split; [|done]. split; try done; cbn; [constructor | | constructor].
  intros m [b Hb]. by rewrite lookup_empty in Hb.
Qed.

(** What the nodes hold. *)
Definition contents (x : item) : pointer * Z := (i_data x, i_mark x).

Lemma perform_spec o w M : stands_for w M ->
  wpx (perform o) (fun _ _ => False)
    (fun a w' => a = (answer o (contents <$> M)).1 /\
       exists M', stands_for w' M' /\ contents <$> M' = (answer o (contents <$> M)).2) w.
Proof.
  intros HM. destruct o as [k|k d m|k]; cbn [perform answer fst snd].
  - apply wpx_bind. eapply wpx_mono; [by apply lookup_spec | done |]. intros p w' [-> HM']. rewrite lookup_fmap.
    destruct (M !! k) as [x|] eqn:Hx; cbn [fmap option_fmap option_map].
    + destruct (stands_cell _ _ _ _ HM' Hx) as (_ & l & r & u & Hc). eapply wpx_get; [exact Hc|]. apply wpx_ret. eauto.
    + apply wpx_ret. eauto.
  - apply wpx_bind. eapply wpx_mono; [by apply install_spec | done |]. intros p w' (n & -> & HM' & _).
    apply wpx_ret. split; [done|]. eexists. split; [exact HM'|]. by rewrite fmap_insert.
  - apply wpx_bind. eapply wpx_mono; [by apply lookup_spec | done |]. intros p w' [-> HM'].
    destruct (M !! k) as [x|] eqn:Hx; cbn [fmap option_fmap option_map]; apply wpx_bind.
    + eapply wpx_mono; [by eapply delete_spec | done |]. intros ? w2 HM2. apply wpx_ret. split; [done|].
      eexists. split; [exact HM2|]. by rewrite fmap_delete.
    + apply wpx_ret, wpx_ret. split; [done|]. exists M. split; [done|].
      rewrite delete_id; [done|]. by rewrite lookup_fmap, Hx.
Qed.

Lemma perform_all_spec l : forall w M, stands_for w M ->
  wpx (perform_all l) (fun _ _ => False) (fun a _ => a = answers l (contents <$> M)) w.
Proof.
  induction l as [|o l IH]; intros w M HM; cbn [perform_all answers]; [by apply wpx_ret|].
  apply wpx_bind. eapply wpx_mono; [by apply perform_spec | done |]. intros a w' [-> (M' & HM' & <-)].
  apply wpx_bind. eapply wpx_mono; [by apply IH | done |]. intros a' w2 ->. by apply wpx_ret.
Qed.

(** C29: Whatever lookups, insertions and deletions a client makes, from a new
    tree on, no operation follows a null or wild pointer or fails to end,
    and the answers are those of a finite map from keys to data and mark. *)
Theorem splay_tree_is_a_map (l : list op) : (perform_all l start).1 = inr (answers l ∅).
Proof.
  destruct (wpx_result _ _ _ (perform_all_spec l start ∅ start_stands)) as (a & w & -> & ->). by rewrite fmap_empty.
Qed.

(** sp_install() gives the node of its key: that which the tree has for
    the key already, or a new one that no other key has; the other keys keep
    their nodes and what these hold. *)
Theorem splay_install_node (w : world) (M : gmap Z item) (k : Z) (d : pointer) (m : Z) :
  stands_for w M ->
  exists n w', sp_install k d m w = (inr (Some n), w') /\ stands_for w' (<[k := Item n k d m]> M) /\
    match M !! k with Some x => n = i_loc x | None => forall k' x, M !! k' = Some x -> i_loc x <> n end.
Proof.
  intros HM. destruct (wpx_result _ _ _ (install_spec k d m w M HM)) as (p & w' & Hrun & n & -> & ? & ?).
  by exists n, w'.
Qed.

Lemma splay_install_node_witness : exists n w', sp_install 7 (Some 1%nat) 0 start = (inr (Some n), w') /\
  stands_for w' (<[7 := Item n 7 (Some 1%nat) 0]> ∅).
Proof.
  destruct (splay_install_node start ∅ 7 (Some 1%nat) 0 start_stands) as (n & w' & H1 & H2 & _). exists n, w'. exact (conj H1 H2).
Defined.

(** sp_delete() of the node of a key takes just this key out; the other
    keys keep their nodes and what these hold. *)
Theorem splay_delete_node (w : world) (M : gmap Z item) (k : Z) (x : item) :
  stands_for w M -> M !! k = Some x ->
  exists w', sp_delete (Some (i_loc x)) w = (inr tt, w') /\ stands_for w' (delete k M).
Proof.
  intros HM Hx. destruct (wpx_result _ _ _ (delete_spec k x w M HM Hx)) as ([] & w' & Hrun & ?). eauto.
Qed.

Lemma splay_delete_node_witness : exists n w w', sp_delete (Some n) w = (inr tt, w') /\ stands_for w' ∅.
Proof.
  destruct (wpx_result _ _ _ (install_spec 7 None 0 start ∅ start_stands)) as (p & w & _ & n & -> & Hw & _).
  destruct (splay_delete_node w _ 7 (Item n 7 None 0) Hw) as (w' & H1 & H2); [by rewrite lookup_insert_eq|].
  exists n, w, w'. split; [exact H1|]. rewrite delete_insert_eq, delete_empty in H2. exact H2.
Defined.

(** sp_scan() over the whole tree calls the function on each node once,
    in the ascending order of the keys; the function may change what the
    nodes hold, but not their links. *)
Theorem splay_scan_in_order {X} (f : loc -> EX (world * X) trouble unit) (w : world) (x : X) (M : gmap Z item) :
  stands_for w M -> keeps_links f ->
  exists l, ascending l /\ (forall y, y ∈ l <-> M !! i_key y = Some y) /\
    sp_scan f None (w, x) = visit f (i_loc <$> l) (w, x).
Proof.
  intros (t & fl & Hw & ->) Hf. exists (items t). pose proof (h_order _ _ _ Hw) as Hasc. split; [done|]. split.
  - by apply entries_elem.
  - by eapply scan_run.
Qed.

(** A function that marks the nodes. *)
Definition mark_node (n : loc) : EX (world * unit) trouble unit :=
  on_tree (put (Some n) (fun b => set_item (data b) 1 b)).

Lemma mark_node_links : keeps_links mark_node.
Proof.
  intros n [w []] m. unfold mark_node, on_tree, put, mbind, ex_bind, read. cbn [fst snd].
  destruct (cells w !! n) as [b|] eqn:Hb; [|done]. cbn [snd fst update set_cells cells].
  destruct (decide (n = m)) as [->|]; [by rewrite lookup_insert_eq, Hb | by rewrite lookup_insert_ne].
Qed.

Lemma splay_scan_in_order_witness : exists w l,
  stands_for w (<[7 := Item 0 7 None 0]> ∅) /\ sp_scan mark_node None (w, tt) = visit mark_node (i_loc <$> l) (w, tt).
Proof.
  destruct (wpx_result _ _ _ (install_spec 7 None 0 start ∅ start_stands)) as (p & w & H1 & n & -> & H2 & _).
  assert (n = 0%nat) as ->.
  { assert ((sp_install 7 None 0 start).1 = inr (Some 0%nat)) as H by (vm_compute; reflexivity).
    rewrite H1 in H. by injection H. }
  destruct (splay_scan_in_order mark_node w tt _ H2 mark_node_links) as (l & _ & _ & H3).
  exists w, l. exact (conj H2 H3).
Defined.

(** sp_null() leaves an empty tree, and all its nodes are in the pool of
    free cells again. *)
Theorem splay_null_frees (w : world) (t : tree) (fl : list loc) :
  holds w t fl ->
  exists w' fl', sp_null w = (inr tt, w') /\ holds w' Leaf fl' /\ fl' ≡ₚ locs t ++ fl /\ eltscnt (q w') = 0.
Proof.
  intros Hw. destruct (wpx_result _ _ _ (null_spec w t fl Hw)) as ([] & w' & Hrun & Hw' & _ & Hcnt).
  exists w', (chopped t ++ fl). split_and!; [done | done | | done]. by rewrite chopped_locs.
Qed.

Lemma splay_null_frees_witness : exists w t fl w' fl', t <> Leaf /\ sp_null w = (inr tt, w') /\ holds w' Leaf fl' /\ fl' ≡ₚ locs t ++ fl.
Proof.
  destruct (wpx_result _ _ _ (install_spec 7 None 0 start ∅ start_stands)) as (p & w & _ & n & _ & (t & fl & Hw & Ht) & _).
  destruct (splay_null_frees w t fl Hw) as (w' & fl' & H1 & H2 & H3 & _).
  exists w, t, fl, w', fl'. split; [|exact (conj H1 (conj H2 H3))].
  intros ->. apply (f_equal (lookup 7)) in Ht. rewrite lookup_insert_eq in Ht. cbn in Ht. rewrite lookup_empty in Ht. discriminate.
Defined.
