(* ===== verification/Symbol.v ===== *)
(** * Symbols (lib/symbol.c, lib/crc32.c, lib/pjwhash32.c)

    A symbol stands for a string; its key is the address of the entry that
    holds the string.  Entries are found through a splay tree over the hash
    of the string, and those with the same hash are chained.

    The tree is used through an interface, [KeyTree], with laws,
    [KeyTreeLaws], that the splay trees fulfil.  Each tree has cells of its
    own; the entries of all tables live in one store.  emalloc() waits until
    there is memory.  An [unsigned long] has 64 bits. *)

From Stdlib Require Import ZArith Lia.
From stdpp Require Import base tactics numbers list option gmap sorting.
From S2P Require Import Prelude Splay SplayTree SplayRefine SplaySplit SplayDelete SplayMap SplayWalk SplayProps.

#[local] Open Scope Z_scope.

(** ** The tree as symbol.c uses it *)

Class KeyTree (W : Type) := {
  kt_init : W;
  kt_lookup : Z -> EX W trouble pointer;
  kt_install : Z -> pointer -> Z -> EX W trouble pointer;
  kt_delete : pointer -> EX W trouble unit;
  kt_null : EX W trouble unit;
  kt_data : pointer -> EX W trouble pointer;
  kt_set_data : pointer -> pointer -> EX W trouble unit;
  kt_scan : forall X, (loc -> EX (W * X) trouble unit) -> EX (W * X) trouble unit
}.

(** [M] tells the node of each key and what it holds. *)
Class KeyTreeLaws (W : Type) `{KeyTree W} := {
  kt_rel : W -> gmap Z item -> Prop;
  kt_rel_node w M k x : kt_rel w M -> M !! k = Some x -> i_key x = k;
  kt_init_ok : kt_rel kt_init ∅;
  kt_lookup_ok k w M : kt_rel w M ->
    wpx (kt_lookup k) (fun _ _ => False) (fun p w' => p = i_loc <$> M !! k /\ kt_rel w' M) w;
  kt_install_ok k d m w M : kt_rel w M ->
    wpx (kt_install k d m) (fun _ _ => False) (fun _ w' => exists n, kt_rel w' (<[k := Item n k d m]> M)) w;
  kt_delete_ok k x w M : kt_rel w M -> M !! k = Some x ->
    wpx (kt_delete (Some (i_loc x))) (fun _ _ => False) (fun _ w' => kt_rel w' (delete k M)) w;
  kt_null_ok w M : kt_rel w M -> wpx kt_null (fun _ _ => False) (fun _ w' => kt_rel w' ∅) w;
  kt_data_reads p w : (kt_data p w).2 = w;
  kt_data_ok k x w M : kt_rel w M -> M !! k = Some x -> kt_data (Some (i_loc x)) w = (inr (i_data x), w);
  kt_set_data_ok k x d w M : kt_rel w M -> M !! k = Some x ->
    wpx (kt_set_data (Some (i_loc x)) d) (fun _ _ => False)
      (fun _ w' => kt_rel w' (<[k := Item (i_loc x) k d (i_mark x)]> M)) w;
  kt_scan_ok X (f : loc -> EX (W * X) trouble unit) w x M : kt_rel w M -> (forall n s, (f n s).2.1 = s.1) ->
    exists l, NoDup l /\ (forall y, y ∈ l <-> M !! i_key y = Some y) /\ kt_scan X f (w, x) = visit f (i_loc <$> l) (w, x)
}.

(** ** Hash functions *)

Definition POLY31 : Z := 0x48000000.

(** The entry [i] of CrcTable, as crcinit() computes it. *)
Definition CrcTable (i : Z) : Z :=
  foldr (fun j sum => if Z.testbit i j then Z.lxor sum (Z.shiftr POLY31 j) else sum) 0 [0; 1; 2; 3; 4; 5; 6].

Definition crc_step (key c : Z) : Z :=
  Z.lxor (Z.shiftr key 7) (CrcTable (Z.land (Z.lxor key c) 0x7f)).

Definition crc32n (s : list Z) (slen : nat) : Z := Z.land (foldl crc_step 0 (take slen s)) 0xFFFFFFFF.
Definition crc32 (s : list Z) : Z := Z.land (foldl crc_step 0 (cstr s)) 0xFFFFFFFF.

(** On a machine whose [unsigned long] has [w] bits. *)
Definition pjw_step (w : Z) (hash c : Z) : Z :=
  let hash := Z.shiftl hash 4 mod 2 ^ w in
  let hash := (hash + c) mod 2 ^ w in
  let tmp := Z.land hash (2 ^ w - 1 - 0xfffffff) in
  if tmp =? 0 then hash else Z.lxor (Z.lxor hash (Z.shiftr tmp 24)) tmp.

Definition pjwhash32n (w : Z) (s : list Z) (n : nat) : Z := foldl (pjw_step w) 0 (take n s).
Definition pjwhash32 (w : Z) (s : list Z) : Z := foldl (pjw_step w) 0 (cstr s).

(** ** Symbol entries *)

(** struct syment *)
Record syment := Syment { next : pointer; namelen : nat; name : list Z }.

Record names := Names { ents : gmap loc syment; ebrk : loc }.

Definition CRCorNOT : bool := true.
Definition hash_of (usecrc : bool) (s : list Z) (slen : nat) : Z :=
  if usecrc then crc32n s slen else pjwhash32n 64 s slen.

Section symbols.
Context {W : Type} `{KeyTree W}.

Abbreviation sym := (EX (W * names) trouble).

Definition in_tree {A} (m : EX W trouble A) : sym A := fun s => let (r, w) := m s.1 in (r, (w, s.2)).
Definition the_ents : sym (gmap loc syment) := read (fun s => ents s.2).
Definition set_ents (f : gmap loc syment -> gmap loc syment) : sym unit :=
  update (fun s => (s.1, Names (f (ents s.2)) (ebrk s.2))).

Definition get_ent (p : pointer) : sym syment :=
  match p with
  | None => exit Wild
  | Some n => m ← the_ents; match m !! n with Some e => mret e | None => exit Wild end
  end.

Definition set_next (p : pointer) (v : pointer) : sym unit :=
  e ← get_ent p;
  match p with Some n => set_ents <[n := Syment v (namelen e) (name e)]> | None => exit Wild end.

Definition free_ent (p : pointer) : sym unit :=
  get_ent p;; match p with Some n => set_ents (delete n) | None => exit Wild end.

(** [se->namelen == slen && memcmp(se->name, s, slen) == 0] *)
Definition same_name (e : syment) (s : list Z) (slen : nat) : bool :=
  bool_decide (namelen e = slen) && bool_decide (take slen (name e) = take slen s).

(** The loop over a chain: the entry found and the one before it, or the
    last one. *)
Fixpoint chain_loop (fuel : nat) (s : list Z) (slen : nat) (pe se : pointer) : sym (pointer * pointer) :=
  match fuel with
  | O => exit Fuel
  | S fuel =>
      e ← get_ent se;
      if same_name e s slen then mret (pe, se)
      else if next e is Some _ then chain_loop fuel s slen se (next e) else mret (se, None)
  end.

Definition find_ent (s : list Z) (slen : nat) (key : Z) : sym (pointer * pointer * pointer) :=
  spl ← in_tree (kt_lookup key);
  match spl with
  | None => mret (None, None, None)
  | Some _ =>
      se ← in_tree (kt_data spl);
      m ← the_ents;
      '(pe, se) ← chain_loop (size m) s slen None se;
      mret (spl, pe, se)
  end.

(** A null [s] is [None]; the key 0 is [None]. *)
Definition symbol_lookup_db_mem_ (s : option (list Z)) (slen : nat) (usecrc : bool) : sym pointer :=
  match s with
  | None => mret None
  | Some s => '(_, _, se) ← find_ent s slen (hash_of usecrc s slen); mret se
  end.

Definition symbol_lookup_db_mem (s : option (list Z)) (slen : nat) : sym pointer :=
  symbol_lookup_db_mem_ s slen CRCorNOT.

(** A new entry. *)
Definition new_ent (s : list Z) (slen : nat) : sym pointer :=
  n ← read (fun st => ebrk st.2);
  update (fun st => (st.1, Names (<[n := Syment None slen (take slen s ++ [0])]> (ents st.2)) (S n)));;
  mret (Some n).

Definition symbol_db_mem_ (s : option (list Z)) (slen : nat) (usecrc : bool) : sym pointer :=
  match s with
  | None => mret None
  | Some s =>
      let key := hash_of usecrc s slen in
      '(_, pe, se) ← find_ent s slen key;
      match se with
      | Some _ => mret se
      | None =>
          se ← new_ent s slen;
          (if pe is Some _ then set_next pe se else in_tree (kt_install key se 0);; mret tt);;
          mret se
      end
  end.

Definition symbol_db_mem (s : option (list Z)) (slen : nat) : sym pointer := symbol_db_mem_ s slen CRCorNOT.

Definition symbol_free_db_mem_ (s : option (list Z)) (slen : nat) (usecrc : bool) : sym unit :=
  match s with
  | None => mret tt
  | Some s =>
      '(spl, pe, se) ← find_ent s slen (hash_of usecrc s slen);
      (if se is Some _ then
         e ← get_ent se;
         (if pe is Some _ then set_next pe (next e) else in_tree (kt_set_data spl (next e)));;
         free_ent se
       else mret tt);;
      match spl with
      | None => mret tt
      | Some _ =>
          d ← in_tree (kt_data spl);
          if d is None then in_tree (kt_delete spl) else mret tt
      end
  end.

Definition symbol_free_db_mem (s : option (list Z)) (slen : nat) : sym unit := symbol_free_db_mem_ s slen CRCorNOT.

Definition symbol_lookup_db (s : option (list Z)) : sym pointer :=
  match s with None => mret None | Some b => symbol_lookup_db_mem s (length (cstr b)) end.
Definition symbol_db (s : option (list Z)) : sym pointer :=
  match s with None => mret None | Some b => symbol_db_mem s (length (cstr b)) end.
Definition symbol_free_db (s : option (list Z)) : sym unit :=
  match s with None => mret tt | Some b => symbol_free_db_mem s (length (cstr b)) end.

(** The chain of a node is freed. *)
Fixpoint free_chain (fuel : nat) (se : pointer) : sym unit :=
  match se with
  | None => mret tt
  | Some _ =>
      match fuel with
      | O => exit Fuel
      | S fuel => e ← get_ent se; free_ent se;; free_chain fuel (next e)
      end
  end.

Definition symbol_null (spl : loc) : sym unit :=
  se ← in_tree (kt_data (Some spl));
  m ← the_ents;
  free_chain (size m) se.

Definition symbol_null_db : sym unit :=
  kt_scan names symbol_null;;
  in_tree kt_null.

(** pname() reads the name up to its end. *)
Definition pname (id : pointer) : sym (list Z) := e ← get_ent id; mret (cstr (name e)).

(** The table spt_symtab is made when it is first used. *)
Definition in_symtab {A} (m : sym A) : EX (option W * names) trouble A :=
  fun s => let (r, s') := m (default kt_init s.1, s.2) in (r, (Some s'.1, s'.2)).
Definition symbol (s : option (list Z)) : EX (option W * names) trouble pointer := in_symtab (symbol_db s).
Definition symbol_lookup (s : option (list Z)) : EX (option W * names) trouble pointer := in_symtab (symbol_lookup_db s).
End symbols.

(** ** Splay trees have the interface *)

#[export] Instance splay_key_tree : KeyTree world := {
  kt_init := start;
  kt_lookup := sp_lookup;
  kt_install := sp_install;
  kt_delete := sp_delete;
  kt_null := sp_null;
  kt_data n := b ← get n; mret (data b);
  kt_set_data n d := put n (fun b => set_item d (mark b) b);; mret tt;
  kt_scan X f := sp_scan f None
}.

Lemma splay_data_ok k x w M : stands_for w M -> M !! k = Some x -> kt_data (Some (i_loc x)) w = (inr (i_data x), w).
Proof.
  intros HM Hx. destruct (stands_cell _ _ _ _ HM Hx) as (_ & l & r & u & Hc).
  cbn [kt_data splay_key_tree]. by rewrite (get_eq _ _ _ _ Hc).
Qed.

Lemma splay_set_data_ok k x d w M : stands_for w M -> M !! k = Some x ->
  wpx (kt_set_data (Some (i_loc x)) d) (fun _ _ => False)
    (fun _ w' => stands_for w' (<[k := Item (i_loc x) k d (i_mark x)]> M)) w.
Proof.
  intros (t & fl & Hw & ->) [Hin <-]%entries_items. destruct (entry_path x t Hin) as (l & r & c & ->).
  cbn [kt_set_data splay_key_tree]. eapply (holds_set_item _ _ _ d (i_mark x)); [exact Hw | done |].
  intros w' Hw'. apply wpx_ret. eexists _, fl. split; [exact Hw'|]. pose proof (h_order _ _ _ Hw) as Horder.
  rewrite !(items_path c) in *. cbn [items] in *. rewrite <- !app_assoc in *. rewrite !(app_assoc (ahead c)) in *.
  symmetry. by apply entries_replace.
Qed.

Lemma splay_scan_ok X (f : loc -> EX (world * X) trouble unit) w x M : stands_for w M -> (forall n s, (f n s).2.1 = s.1) ->
  exists l, NoDup l /\ (forall y, y ∈ l <-> M !! i_key y = Some y) /\ kt_scan X f (w, x) = visit f (i_loc <$> l) (w, x).
Proof.
  intros (t & fl & Hw & ->) Hf. pose proof (h_order _ _ _ Hw) as Hasc. exists (items t). split_and!.
  - by eapply NoDup_fmap_1, ascending_keys.
  - apply entries_elem. done.
  - eapply scan_run; [|exact Hw]. intros n s m. by rewrite Hf.
Qed.

#[export] Instance splay_key_tree_laws : KeyTreeLaws world.
Proof.
  refine {| kt_rel := stands_for |}.
  - intros w M k x HM Hx. by destruct (stands_cell _ _ _ _ HM Hx).
  - exact start_stands.
  - exact lookup_spec.
  - intros k d m w M HM. eapply wpx_mono; [by apply install_spec | done |]. intros p w' (n & _ & Hn & _). eauto.
  - exact delete_spec.
  - intros w M (t & fl & Hw & ->). eapply wpx_mono; [by apply null_spec | done |].
    intros ? w' (Hw' & _). by exists Leaf, (chopped t ++ fl).
  - intros [n|] w; [|done]. cbn [kt_data splay_key_tree]. unfold get, mbind, ex_bind, read. by destruct (cells w !! n).
  - exact splay_data_ok.
  - exact splay_set_data_ok.
  - exact splay_scan_ok.
Defined.
