(* ===== verification/SymbolTable.v ===== *)
(** * The symbol table

    Entries with the same hash are chained; a table stands for a finite map
    from names to entries, and the operations of lib/symbol.c are those of
    the map. *)

From Stdlib Require Import ZArith Lia.
From stdpp Require Import base tactics numbers list option gmap.
From S2P Require Import Prelude Splay SplayTree SplayWalk Symbol.

#[local] Open Scope Z_scope.

(** ** Chains *)

(** The links from [p] to [r] run over the entries of the list. *)
Fixpoint seg (m : gmap loc syment) (p : pointer) (l : list (loc * list Z)) (r : pointer) : Prop :=
  match l with
  | [] => p = r
  | (n, s) :: l => p = Some n /\ exists nx, m !! n = Some (Syment nx (length s) (s ++ [0])) /\ seg m nx l r
  end.

Lemma seg_app m l1 l2 r : forall p, seg m p (l1 ++ l2) r <-> exists k, seg m p l1 k /\ seg m k l2 r.
Proof.
  induction l1 as [|[n s] l1 IH]; intros p; cbn.
  - split; [eauto | by intros (k & -> & ?)].
  - setoid_rewrite IH. naive_solver.
Qed.

Lemma seg_agree m m' l r : (forall n, n ∈ l.*1 -> m' !! n = m !! n) -> forall p, seg m p l r -> seg m' p l r.
Proof.
  induction l as [|[n s] l IH]; intros Ha p; [done|]. cbn. intros (-> & nx & Hn & Hl). split; [done|].
  exists nx. rewrite Ha by (cbn; set_solver). split; [done|]. apply IH; [|done]. intros n' Hn'. apply Ha. cbn. set_solver.
Qed.

Lemma seg_cells m l r : forall p, seg m p l r -> forall n s, (n, s) ∈ l -> exists nx, m !! n = Some (Syment nx (length s) (s ++ [0])).
Proof.
  induction l as [|[n0 s0] l IH]; intros p; [by intros _ n s ?%elem_of_nil|].
  intros (_ & nx & Hn & Hl) n s [[= -> ->] | Hin]%elem_of_cons; eauto.
Qed.

(** An entry has one name. *)
Lemma seg_name m l1 l2 p1 p2 r1 r2 n s1 s2 :
  seg m p1 l1 r1 -> seg m p2 l2 r2 -> (n, s1) ∈ l1 -> (n, s2) ∈ l2 -> s1 = s2.
Proof.
  intros H1 H2 Hin1 Hin2. destruct (seg_cells _ _ _ _ H1 _ _ Hin1) as [nx1 E1]. destruct (seg_cells _ _ _ _ H2 _ _ Hin2) as [nx2 E2].
  rewrite E1 in E2. injection E2 as _ _ He. by apply app_inj_2 in He as [-> _].
Qed.

Lemma seg_nodup m p l r : seg m p l r -> NoDup l.*2 -> NoDup l.*1.
Proof.
  intros Hs Hnd. apply NoDup_fmap_1 in Hnd as Hl. apply NoDup_fmap_2_strong; [|done].
  intros [n1 s1] [n2 s2] H1 H2 [= <-]. f_equal. by eapply (seg_name m l l).
Qed.

Lemma seg_size m p l r : seg m p l r -> NoDup l.*1 -> (length l <= size m)%nat.
Proof.
  intros Hseg Hnd. rewrite <- (length_fmap fst l), <- size_dom, <- (size_list_to_set (C := gset loc)) by done.
  apply subseteq_size. intros n ((n' & s) & -> & Hin)%elem_of_list_to_set%list_elem_of_fmap.
  destruct (seg_cells _ _ _ _ Hseg _ _ Hin) as [nx Hn]. apply elem_of_dom. cbn. by rewrite Hn.
Qed.

(** The last link of a chain is changed. *)
Lemma seg_set_last m l n s p r v : seg m p (l ++ [(n, s)]) r -> n ∉ l.*1 ->
  seg (<[n := Syment v (length s) (s ++ [0])]> m) p (l ++ [(n, s)]) v.
Proof.
  rewrite !seg_app. intros (k & Hl & -> & nx & Hn & _) Hni. exists (Some n). split.
  - eapply seg_agree; [|exact Hl]. intros n' Hn'. apply lookup_insert_ne. set_solver.
  - split; [done|]. exists v. by rewrite lookup_insert_eq.
Qed.

(** The loop as a function on the list. *)
Fixpoint search (s : list Z) (pe : pointer) (l : list (loc * list Z)) : pointer * pointer :=
  match l with
  | [] => (pe, None)
  | (n, s') :: l => if decide (s' = s) then (pe, Some n) else search s (Some n) l
  end.

Definition last_of (pe : pointer) (l : list (loc * list Z)) : pointer :=
  match last l with Some (n, _) => Some n | None => pe end.

Lemma last_of_cons pe n s l : last_of pe ((n, s) :: l) = last_of (Some n) l.
Proof. unfold last_of. rewrite last_cons. by destruct (last l) as [[]|]. Qed.

Lemma search_spec s l : forall pe,
  (exists n l1 l2, l = l1 ++ (n, s) :: l2 /\ s ∉ l1.*2 /\ search s pe l = (last_of pe l1, Some n)) \/
  (s ∉ l.*2 /\ search s pe l = (last_of pe l, None)).
Proof.
  induction l as [|[n s'] l IH]; intros pe; cbn [search]; [right; split; [apply not_elem_of_nil | done]|].
  destruct (decide (s' = s)) as [->|Hne].
  - left. exists n, [], l. split_and!; [done | apply not_elem_of_nil | done].
  - rewrite last_of_cons. destruct (IH (Some n)) as [(n' & l1 & l2 & -> & Hl1 & He) | [Hl He]].
    + left. exists n', ((n, s') :: l1), l2. rewrite last_of_cons. split_and!; [done | cbn; set_solver | done].
    + right. split; [cbn; set_solver | done].
Qed.

Section table.
Context {W : Type} `{KeyTreeLaws W} (usecrc : bool).

Abbreviation state := (W * names)%type.

(** The hash of a name. *)
Definition hash (s : list Z) : Z := hash_of usecrc s (length s).

Lemma hash_take s slen : (slen <= length s)%nat -> hash_of usecrc s slen = hash (take slen s).
Proof.
  intros Hs. unfold hash, hash_of, crc32n, pjwhash32n. rewrite length_take_le by done.
  by rewrite take_take, Nat.min_id.
Qed.

Lemma same_name_spec s slen nx s' : (slen <= length s)%nat ->
  same_name (Syment nx (length s') (s' ++ [0])) s slen = bool_decide (s' = take slen s).
Proof.
  intros Hs. unfold same_name. cbn [namelen name]. destruct (decide (s' = take slen s)) as [->|Hne].
  - rewrite length_take_le by done. rewrite take_app_le by (by rewrite length_take_le).
    rewrite take_take, Nat.min_id. by rewrite !bool_decide_true by done.
  - rewrite (bool_decide_false (s' = _)) by done. apply andb_false_iff. destruct (decide (length s' = slen)) as [<-|]; [right|left].
    + apply bool_decide_false. by rewrite take_app_length.
    + by apply bool_decide_false.
Qed.

Lemma get_ent_eq {A} n e (k : syment -> EX state trouble A) st : ents st.2 !! n = Some e -> (get_ent (Some n) ≫= k) st = k e st.
Proof. intros He. unfold get_ent, the_ents, mbind, ex_bind, read. by rewrite He. Qed.

Lemma chain_loop_run s slen l : (slen <= length s)%nat -> forall fuel pe p (st : state),
  l <> [] -> (length l <= fuel)%nat -> seg (ents st.2) p l None ->
  chain_loop fuel s slen pe p st = (inr (search (take slen s) pe l), st).
Proof.
  intros Hs. induction l as [|[n s'] l IH]; intros fuel pe p st Hne Hlen Hseg; [done|].
  destruct fuel as [|fuel]; [cbn in Hlen; lia|]. cbn [length] in Hlen. destruct Hseg as (-> & nx & Hn & Hseg).
  cbn [chain_loop search]. rewrite (get_ent_eq _ _ _ _ Hn), same_name_spec by done. cbn [next].
  destruct (decide (s' = take slen s)) as [->|Hd].
  - by rewrite bool_decide_true.
  - rewrite bool_decide_false by done. destruct l as [|[n2 s2] l].
    + cbn in Hseg. by subst nx.
    + assert (nx = Some n2) as -> by (by destruct Hseg). rewrite (IH fuel _ _ st); [done | done | lia | done].
Qed.

(** ** What the table stands for *)

(** [M] is the tree of nodes, [C] the chain of each hash. *)
Record tabled (M : gmap Z item) (C : gmap Z (list (loc * list Z))) (nm : names) : Prop := Tabled {
  t_chain k l : C !! k = Some l -> l <> [] /\ exists x, M !! k = Some x /\ seg (ents nm) (i_data x) l None;
  t_none k : C !! k = None -> M !! k = None;
  t_hash k l n s : C !! k = Some l -> (n, s) ∈ l -> hash s = k;
  t_names k l : C !! k = Some l -> NoDup l.*2;
  t_brk n : is_Some (ents nm !! n) -> (n < ebrk nm)%nat
}.

Definition in_chains (C : gmap Z (list (loc * list Z))) (s : list Z) (n : loc) : Prop :=
  exists l, C !! hash s = Some l /\ (n, s) ∈ l.

Definition symtab (st : state) (T : gmap (list Z) loc) : Prop :=
  exists M C, kt_rel st.1 M /\ tabled M C st.2 /\ forall s n, T !! s = Some n <-> in_chains C s n.

Lemma wpx_in_tree {A} (m : EX W trouble A) E (Q : A -> state -> Prop) st :
  wpx m (fun _ _ => False) (fun a w' => Q a (w', st.2)) st.1 -> wpx (in_tree m) E Q st.
Proof. unfold wpx, in_tree. by destruct (m st.1) as [[] w']. Qed.

(** Single accesses to entries. *)
Section entries.
Context {A : Type} (E : trouble -> state -> Prop) (Q : A -> state -> Prop).

Lemma wpx_get_ent n e (k : syment -> EX state trouble A) st :
  ents st.2 !! n = Some e -> wpx (k e) E Q st -> wpx (get_ent (Some n) ≫= k) E Q st.
Proof. intros He Hk. unfold wpx. by rewrite (get_ent_eq n e). Qed.

Lemma wpx_set_next n e v (k : unit -> EX state trouble A) st : ents st.2 !! n = Some e ->
  wpx (k tt) E Q (st.1, Names (<[n := Syment v (namelen e) (name e)]> (ents st.2)) (ebrk st.2)) ->
  wpx (set_next (Some n) v ≫= k) E Q st.
Proof. intros He Hk. apply wpx_bind. unfold set_next, wpx. by rewrite (get_ent_eq n e). Qed.

Lemma wpx_free_ent n (Q' : unit -> state -> Prop) st : is_Some (ents st.2 !! n) ->
  Q' tt (st.1, Names (delete n (ents st.2)) (ebrk st.2)) -> wpx (free_ent (Some n)) E Q' st.
Proof. intros [e He] Hk. unfold free_ent, wpx. by rewrite (get_ent_eq n e). Qed.

Lemma wpx_new_ent s slen (k : pointer -> EX state trouble A) st :
  wpx (k (Some (ebrk st.2))) E Q (st.1, Names (<[ebrk st.2 := Syment None slen (take slen s ++ [0])]> (ents st.2)) (S (ebrk st.2))) ->
  wpx (new_ent s slen ≫= k) E Q st.
Proof. done. Qed.
End entries.

Section facts.
Context (M : gmap Z item) (C : gmap Z (list (loc * list Z))) (nm : names).
Hypothesis Ht : tabled M C nm.

(** A chain has at most as many entries as there are. *)
Lemma chain_size k l : C !! k = Some l -> (length l <= size (ents nm))%nat.
Proof.
  intros Hl. destruct (t_chain _ _ _ Ht _ _ Hl) as (_ & x & _ & Hseg). pose proof (seg_nodup _ _ _ _ Hseg (t_names _ _ _ Ht _ _ Hl)) as Hnd.
  by eapply seg_size.
Qed.

(** An entry is in one chain. *)
Lemma chains_apart k1 k2 l1 l2 n : C !! k1 = Some l1 -> C !! k2 = Some l2 -> n ∈ l1.*1 -> n ∈ l2.*1 -> k1 = k2.
Proof.
  intros H1 H2 ([n1 s1] & -> & Hin1)%list_elem_of_fmap ([n2 s2] & Hn & Hin2)%list_elem_of_fmap. cbn in *. subst n2.
  destruct (t_chain _ _ _ Ht _ _ H1) as (_ & x1 & _ & Hs1). destruct (t_chain _ _ _ Ht _ _ H2) as (_ & x2 & _ & Hs2).
  rewrite <- (t_hash _ _ _ Ht _ _ _ _ H1 Hin1), <- (t_hash _ _ _ Ht _ _ _ _ H2 Hin2). f_equal. exact (seg_name _ _ _ _ _ _ _ _ _ _ Hs1 Hs2 Hin1 Hin2).
Qed.

Lemma chain_cell k l n : C !! k = Some l -> n ∈ l.*1 -> is_Some (ents nm !! n).
Proof.
  intros Hl ([n' s] & -> & Hin)%list_elem_of_fmap. destruct (t_chain _ _ _ Ht _ _ Hl) as (_ & x & _ & Hseg).
  destruct (seg_cells _ _ _ _ Hseg _ _ Hin) as [nx Hn]. cbn. by rewrite Hn.
Qed.

(** One chain is replaced; the others are not touched. *)
Lemma tabled_update k l' x M' nm' :
  l' <> [] -> M' !! k = Some x -> seg (ents nm') (i_data x) l' None ->
  (forall k', k' <> k -> M' !! k' = M !! k') ->
  (forall n s, (n, s) ∈ l' -> hash s = k) -> NoDup l'.*2 ->
  (forall k' l n, k' <> k -> C !! k' = Some l -> n ∈ l.*1 -> ents nm' !! n = ents nm !! n) ->
  (forall n, is_Some (ents nm' !! n) -> (n < ebrk nm')%nat) ->
  tabled M' (<[k := l']> C) nm'.
Proof.
  intros Hne Hx Hseg HM Hh Hnd Hoth Hbrk. split; [| | | |done].
  - intros k' l. destruct (decide (k' = k)) as [->|Hk]; [rewrite lookup_insert_eq; intros [= <-]; eauto|].
    rewrite lookup_insert_ne by done. intros Hl. destruct (t_chain _ _ _ Ht _ _ Hl) as (? & y & Hy & Hs). split; [done|].
    exists y. rewrite HM by done. split; [done|]. eapply seg_agree; [|exact Hs]. eauto.
  - intros k'. rewrite lookup_insert_None. intros [HC Hk]. rewrite HM by done. by apply (t_none _ _ _ Ht).
  - intros k' l n s. destruct (decide (k' = k)) as [->|Hk]; [rewrite lookup_insert_eq; intros [= <-]; eauto|].
    rewrite lookup_insert_ne by done. apply (t_hash _ _ _ Ht).
  - intros k' l. destruct (decide (k' = k)) as [->|Hk]; [rewrite lookup_insert_eq; by intros [= <-]|].
    rewrite lookup_insert_ne by done. apply (t_names _ _ _ Ht).
Qed.

Lemma tabled_delete k M' nm' :
  M' !! k = None -> (forall k', k' <> k -> M' !! k' = M !! k') ->
  (forall k' l n, k' <> k -> C !! k' = Some l -> n ∈ l.*1 -> ents nm' !! n = ents nm !! n) ->
  (forall n, is_Some (ents nm' !! n) -> (n < ebrk nm')%nat) ->
  tabled M' (delete k C) nm'.
Proof.
  intros Hk0 HM Hoth Hbrk. split; [| | | |done].
  - intros k' l [Hk Hl]%lookup_delete_Some. destruct (t_chain _ _ _ Ht _ _ Hl) as (? & y & Hy & Hs). split; [done|].
    exists y. rewrite HM by done. split; [done|]. eapply seg_agree; [|exact Hs]. eauto.
  - intros k' [<-|Hk]%lookup_delete_None; [done|]. destruct (decide (k' = k)) as [->|]; [done|].
    rewrite HM by done. by apply (t_none _ _ _ Ht).
  - intros k' l n s [_ Hl]%lookup_delete_Some. by apply (t_hash _ _ _ Ht).
  - intros k' l [_ Hl]%lookup_delete_Some. by apply (t_names _ _ _ Ht _ _ Hl).
Qed.
End facts.

(** ** Finding an entry *)

Lemma find_ent_run s slen w M C nm : kt_rel w M -> tabled M C nm -> (slen <= length s)%nat ->
  wpx (find_ent s slen (hash_of usecrc s slen)) (fun _ _ => False)
    (fun r st => kt_rel st.1 M /\ st.2 = nm /\
       match C !! hash (take slen s) with
       | None => r = (None, None, None)
       | Some l => exists x, M !! hash (take slen s) = Some x /\
           r = (Some (i_loc x), (search (take slen s) None l).1, (search (take slen s) None l).2)
       end) (w, nm).
Proof.
  intros Hw Ht Hs. rewrite hash_take by done. set (k := hash (take slen s)). unfold find_ent.
  apply wpx_bind, wpx_in_tree. eapply wpx_mono; [by apply kt_lookup_ok | done |]. cbn [fst snd]. intros p w' [-> Hw'].
  destruct (C !! k) as [l|] eqn:Hl.
  - destruct (t_chain _ _ _ Ht _ _ Hl) as (Hne & x & Hx & Hseg). rewrite Hx. cbn [fmap option_fmap option_map].
    apply wpx_bind, wpx_in_tree. cbn [fst snd]. unfold wpx at 1. rewrite (kt_data_ok _ _ _ _ Hw' Hx).
    apply wpx_bind, wpx_read, wpx_bind. cbn [fst snd]. unfold wpx at 1.
    rewrite (chain_loop_run s slen l) with (p := i_data x); [|done | done | by eapply chain_size | done].
    destruct (search (take slen s) None l) as [pe se]. apply wpx_ret. cbn. eauto.
  - rewrite (t_none _ _ _ Ht _ Hl). by apply wpx_ret.
Qed.

Lemma search_in s l pe n : NoDup l.*2 -> (n, s) ∈ l -> (search s pe l).2 = Some n.
Proof.
  intros Hnd Hin. destruct (search_spec s l pe) as [(n' & l1 & l2 & -> & _ & ->) | [Hni _]].
  - cbn. f_equal. rewrite fmap_app in Hnd. cbn in Hnd. apply NoDup_app in Hnd as (_ & Hd & [Hd2 _]%NoDup_cons).
    apply elem_of_app in Hin as [Hin | [[= <-] | Hin]%elem_of_cons]; [|done|].
    + destruct (Hd s); [by apply (list_elem_of_fmap_2 snd) in Hin | set_solver].
    + destruct Hd2. by apply (list_elem_of_fmap_2 snd) in Hin.
  - destruct Hni. by apply (list_elem_of_fmap_2 snd) in Hin.
Qed.

(** What the search finds is what the map says. *)
Lemma search_table (M : gmap Z item) (C : gmap Z (list (loc * list Z))) (nm : names) (T : gmap (list Z) loc) (s : list Z) (l : list (loc * list Z)) : tabled M C nm -> (forall s n, T !! s = Some n <-> in_chains C s n) ->
  C !! hash s = Some l -> T !! s = (search s None l).2.
Proof.
  intros Ht HT Hl. destruct (T !! s) as [n|] eqn:E.
  - apply HT in E as (l' & Hl' & Hin). rewrite Hl in Hl'. injection Hl' as <-. symmetry.
    apply search_in; [by eapply t_names | done].
  - destruct (search_spec s l None) as [(n & l1 & l2 & -> & _ & ->) | [_ ->]]; [|done].
    assert (T !! s = Some n) as E2 by (apply HT; eexists; split; [exact Hl | set_solver]). congruence.
Qed.

Lemma lookup_table s slen st T : symtab st T -> (slen <= length s)%nat ->
  wpx (symbol_lookup_db_mem_ (Some s) slen usecrc) (fun _ _ => False)
    (fun p st' => p = T !! take slen s /\ symtab st' T) st.
Proof.
  intros (M & C & Hw & Ht & HT) Hs. destruct st as [w nm]. cbn [fst snd] in *. unfold symbol_lookup_db_mem_.
  apply wpx_bind. eapply wpx_mono; [by eapply find_ent_run | done |]. intros r [w' nm'] (Hw' & Hnm & Hr). cbn [fst snd] in *. subst nm'.
  destruct (C !! hash (take slen s)) as [l|] eqn:Hl.
  - destruct Hr as (x & _ & ->). apply wpx_ret. split; [|by exists M, C]. symmetry. by eapply search_table.
  - subst r. apply wpx_ret. split; [|by exists M, C]. symmetry. apply eq_None_not_Some.
    intros [n (l & Hl' & _)%HT]. congruence.
Qed.

(** ** Adding a name *)

Lemma in_chains_insert (C : gmap Z (list (loc * list Z))) (T : gmap (list Z) loc) (s : list Z) (n : loc) (l : list (loc * list Z)) :
  (forall s n, T !! s = Some n <-> in_chains C s n) -> T !! s = None ->
  (forall l0, C !! hash s = Some l0 -> l = l0 ++ [(n, s)]) -> (C !! hash s = None -> l = [(n, s)]) ->
  forall s' n', <[s := n]> T !! s' = Some n' <-> in_chains (<[hash s := l]> C) s' n'.
Proof.
  intros HT Hs Hold Hnew s' n'. unfold in_chains. destruct (decide (hash s' = hash s)) as [He|He].
  - rewrite He, lookup_insert_eq. split.
    + intros Hn. exists l. split; [done|]. rewrite lookup_insert_Some in Hn.
      destruct Hn as [[-> ->] | [Hne (l0 & Hl0 & Hin)%HT]]; [destruct (C !! hash s') as [l0|] eqn:E|].
      * rewrite (Hold _ eq_refl). set_solver.
      * rewrite (Hnew eq_refl). set_solver.
      * rewrite He in Hl0. rewrite (Hold _ Hl0). set_solver.
    + intros (l1 & [= <-] & Hin). rewrite lookup_insert_Some. destruct (C !! hash s) as [l0|] eqn:E.
      * rewrite (Hold _ eq_refl) in Hin. apply elem_of_app in Hin as [Hin | [= -> ->]%list_elem_of_singleton]; [right|by left].
        assert (T !! s' = Some n') as Hn by (apply HT; exists l0; by rewrite He). split; [|done]. intros ->. congruence.
      * rewrite (Hnew eq_refl) in Hin. apply list_elem_of_singleton in Hin as [= -> ->]. by left.
  - rewrite (lookup_insert_ne T) by (intros ->; done). rewrite lookup_insert_ne by done. apply HT.
Qed.

Lemma last_split (l : list (loc * list Z)) : l <> [] -> exists l0 n s, l = l0 ++ [(n, s)] /\ last_of None l = Some n.
Proof.
  intros Hne. destruct l as [|[n s] l0 _] using rev_ind; [done|]. exists l0, n, s. split; [done|].
  unfold last_of. by rewrite last_snoc.
Qed.

(** An entry that no chain has yet. *)
Lemma fresh_entry M C nm k l : tabled M C nm -> C !! k = Some l -> ebrk nm ∉ l.*1.
Proof.
  intros Ht Hl Hin. pose proof (t_brk _ _ _ Ht _ (chain_cell _ _ _ Ht _ _ _ Hl Hin)). lia.
Qed.

Lemma db_table s slen st T : symtab st T -> (slen <= length s)%nat ->
  wpx (symbol_db_mem_ (Some s) slen usecrc) (fun _ _ => False)
    (fun p st' => match T !! take slen s with
       | Some n => p = Some n /\ symtab st' T
       | None => exists n, p = Some n /\ (forall s', T !! s' <> Some n) /\ symtab st' (<[take slen s := n]> T)
       end) st.
Proof.
  intros (M & C & Hw & Ht & HT) Hs. destruct st as [w nm]. cbn [fst snd] in *. unfold symbol_db_mem_.
  apply wpx_bind. eapply wpx_mono; [by eapply find_ent_run | done |]. intros r [w' nm'] (Hw' & Hnm & Hr). cbn [fst snd] in *. subst nm'.
  rewrite hash_take by done. set (name := take slen s) in *. set (k := hash name) in *.
  assert (forall s', T !! s' <> Some (ebrk nm)) as Hfresh.
  { intros s' (l & Hl & Hin)%HT. eapply fresh_entry; [exact Ht | exact Hl |]. by apply (list_elem_of_fmap_2 fst) in Hin. }
  assert (forall n, is_Some (<[ebrk nm := Syment None slen (name ++ [0])]> (ents nm) !! n) -> (n < S (ebrk nm))%nat) as Hbrk.
  { intros n. rewrite lookup_insert_is_Some'. intros [->|Hn]; [lia|]. pose proof (t_brk _ _ _ Ht _ Hn). lia. }
  assert (length name = slen) as Hlen by (unfold name; by rewrite length_take_le).
  assert (forall k' l n, C !! k' = Some l -> n ∈ l.*1 -> <[ebrk nm := Syment None slen (name ++ [0])]> (ents nm) !! n = ents nm !! n) as Hoth.
  { intros k' l n Hl Hin. apply lookup_insert_ne. intros <-. by eapply fresh_entry. }
  destruct (C !! k) as [l|] eqn:Hl.
  - destruct Hr as (x & Hx & ->). rewrite (search_table M C nm T name l Ht HT Hl).
    destruct (search_spec name l None) as [(n & l1 & l2 & -> & _ & ->) | [Hni Hse]]; [|rewrite Hse]; cbn [fst snd].
    { apply wpx_ret. split; [done|]. by exists M, C. }
    destruct (t_chain _ _ _ Ht _ _ Hl) as (Hne & x' & Hx' & Hseg). rewrite Hx in Hx'. injection Hx' as <-.
    destruct (last_split l Hne) as (l0 & n0 & s0 & Hl0 & ->).
    assert (ents nm !! n0 = Some (Syment None (length s0) (s0 ++ [0]))) as Hn0.
    { rewrite Hl0 in Hseg. apply seg_app in Hseg as (r & _ & _ & nx & Hn0 & Hnx). cbn in Hnx. by rewrite <- Hnx. }
    apply wpx_new_ent. cbn [fst snd ents ebrk]. fold name. eapply wpx_set_next.
    { cbn [snd ents]. rewrite (Hoth k l); [exact Hn0 | done |]. rewrite Hl0, fmap_app. cbn. set_solver. }
    apply wpx_ret. cbn [fst snd ents ebrk namelen Symbol.name]. exists (ebrk nm). split_and!; [done | done |].
    assert (n0 ∈ l.*1) as Hin0 by (rewrite Hl0, fmap_app; cbn; set_solver).
    pose proof (fresh_entry _ _ _ _ _ Ht Hl) as Hfr.
    exists M, (<[k := l ++ [(ebrk nm, name)]]> C). split_and!; [done | |].
    + cbn [snd]. apply tabled_update with (M := M) (nm := nm) (x := x); cbn [ents ebrk]; try done.
      * by destruct l.
      * apply seg_app. exists (Some (ebrk nm)). rewrite Hl0 in *. split.
        -- eapply seg_set_last; [eapply seg_agree; [|exact Hseg]; eauto|].
           pose proof (seg_nodup _ _ _ _ Hseg (t_names _ _ _ Ht _ _ Hl)) as Hnd. rewrite fmap_app in Hnd.
           apply NoDup_app in Hnd as (_ & Hd & _). intros Hin. apply (Hd _ Hin). cbn. set_solver.
        -- split; [done|]. exists None. rewrite lookup_insert_ne by (intros ->; done).
           by rewrite lookup_insert_eq, Hlen.
      * intros n s' [Hin | [= -> ->]%list_elem_of_singleton]%elem_of_app; [by eapply t_hash | done].
      * rewrite fmap_app. apply NoDup_app. split_and!; [by eapply t_names | | apply NoDup_singleton].
        intros s' Hs' ->%list_elem_of_singleton. done.
      * intros k' l' n Hk Hl' Hin. rewrite lookup_insert_ne; [by eapply Hoth|]. intros <-.
        destruct Hk. by eapply chains_apart.
      * intros n. rewrite lookup_insert_is_Some'. intros [->|Hn]; [|by apply Hbrk].
        pose proof (t_brk _ _ _ Ht n ltac:(by rewrite Hn0)). lia.
    + apply in_chains_insert; [done | by rewrite (search_table M C nm T name l Ht HT Hl), Hse | |].
      * intros l1 Hl1. fold k in Hl1. congruence.
      * intros Hc. fold k in Hc. congruence.
  - subst r. assert (T !! name = None) as Hnone.
    { apply eq_None_not_Some. intros [n (l & Hl' & _)%HT]. fold k in Hl'. congruence. }
    rewrite Hnone. apply wpx_new_ent. cbn [fst snd ents ebrk]. fold name. apply wpx_bind, wpx_bind, wpx_in_tree. cbn [fst snd].
    eapply wpx_mono; [by apply kt_install_ok | done |]. intros p w2 (nd & Hw2). apply wpx_ret, wpx_ret.
    exists (ebrk nm). split_and!; [done | done |].
    exists (<[k := Item nd k (Some (ebrk nm)) 0]> M), (<[k := [(ebrk nm, name)]]> C). split_and!; [done | |].
    + cbn [snd]. eapply tabled_update; cbn [ents ebrk].
      * exact Ht.
      * done.
      * by rewrite lookup_insert_eq.
      * split; [done|]. exists None. by rewrite lookup_insert_eq, Hlen.
      * intros k' Hk. by rewrite lookup_insert_ne.
      * by intros n s' [= -> ->]%list_elem_of_singleton.
      * apply NoDup_singleton.
      * intros k' l n _. apply Hoth.
      * done.
    + apply in_chains_insert; [done | done | | done]. intros l1 Hl1. fold k in Hl1. congruence.
Qed.

(** ** Removing a name *)

Lemma in_chains_remove (C C' : gmap Z (list (loc * list Z))) (T : gmap (list Z) loc) (s : list Z) (n : loc)
    (l1 l2 : list (loc * list Z)) :
  (forall s n, T !! s = Some n <-> in_chains C s n) -> C !! hash s = Some (l1 ++ (n, s) :: l2) ->
  NoDup (l1 ++ (n, s) :: l2).*2 ->
  C' !! hash s = (if l1 ++ l2 is [] then None else Some (l1 ++ l2)) -> (forall k, k <> hash s -> C' !! k = C !! k) ->
  forall s' n', delete s T !! s' = Some n' <-> in_chains C' s' n'.
Proof.
  intros HT Hl Hnd Hnew Hold s' n'. rewrite lookup_delete_Some, HT. unfold in_chains.
  destruct (decide (hash s' = hash s)) as [He|He]; [|rewrite (Hold _ He); split; [by intros [_ ?] | intros Hin; split; [by intros -> | done]]].
  rewrite He, Hl, Hnew. rewrite fmap_app in Hnd. cbn in Hnd. apply NoDup_app in Hnd as (_ & Hd & [Hd2 _]%NoDup_cons).
  assert (forall m, (m, s) ∉ l1 ++ l2) as Hout.
  { intros m [Hin|Hin]%elem_of_app; apply (list_elem_of_fmap_2 snd) in Hin; cbn in Hin; [|done]. apply (Hd _ Hin). set_solver. }
  split.
  - intros [Hne (l & [= <-] & Hin)]. assert ((n', s') ∈ l1 ++ l2) as Hin' by set_solver. exists (l1 ++ l2).
    split; [by destruct (l1 ++ l2); [apply elem_of_nil in Hin'|] | done].
  - intros (l & E & Hin). assert (l = l1 ++ l2) as -> by (destruct (l1 ++ l2); congruence).
    split; [intros ->; by apply (Hout n') | eexists; split; [done | set_solver]].
Qed.

(** The chain of [k] without one of its entries. *)
Lemma tabled_remove M C nm k l1 n s l2 M' nm' :
  tabled M C nm -> C !! k = Some (l1 ++ (n, s) :: l2) ->
  (forall k', k' <> k -> M' !! k' = M !! k') ->
  (if l1 ++ l2 is [] then M' !! k = None
   else exists x, M' !! k = Some x /\ seg (ents nm') (i_data x) (l1 ++ l2) None) ->
  (forall n', n' ∉ (l1 ++ [(n, s)]).*1 -> ents nm' !! n' = ents nm !! n') ->
  (forall n', is_Some (ents nm' !! n') -> is_Some (ents nm !! n')) -> ebrk nm' = ebrk nm ->
  exists C', tabled M' C' nm' /\ C' !! k = (if l1 ++ l2 is [] then None else Some (l1 ++ l2)) /\
    forall k', k' <> k -> C' !! k' = C !! k'.
Proof.
  intros Ht Hl HM Hk Hoth Halive Hbrk.
  assert (forall k' l n', k' <> k -> C !! k' = Some l -> n' ∈ l.*1 -> ents nm' !! n' = ents nm !! n') as Hoth'.
  { intros k' l n' Hne Hl' Hin. apply Hoth. intros Hin'. apply Hne. eapply chains_apart; [exact Ht | exact Hl' | exact Hl | exact Hin |].
    rewrite !fmap_app in *. cbn in *. set_solver. }
  assert (forall n', is_Some (ents nm' !! n') -> (n' < ebrk nm')%nat) as Hbrk'.
  { intros n' Hn. rewrite Hbrk. by apply (t_brk _ _ _ Ht), Halive. }
  pose proof (t_names _ _ _ Ht _ _ Hl) as Hnd. rewrite fmap_app in Hnd. cbn in Hnd.
  destruct (l1 ++ l2) as [|e l'] eqn:He.
  - exists (delete k C). split_and!; [by eapply tabled_delete | by rewrite lookup_delete_eq |].
    intros k' Hk'. by rewrite lookup_delete_ne.
  - destruct Hk as (x & Hx & Hseg). exists (<[k := e :: l']> C). split_and!.
    + eapply tabled_update; [exact Ht | done | exact Hx | done | done | | | done | done].
      * intros n' s' Hin. rewrite <- He in Hin. eapply (t_hash _ _ _ Ht _ _ n'); [exact Hl|]. set_solver.
      * rewrite <- He, fmap_app. apply NoDup_app in Hnd as (? & Hd & [_ ?]%NoDup_cons). apply NoDup_app. split_and!; [done | | done].
        intros s' Hs' Hin. apply (Hd _ Hs'). set_solver.
    + by rewrite lookup_insert_eq.
    + intros k' Hk'. by rewrite lookup_insert_ne.
Qed.

(** The chain with the entry [n] unlinked and freed: behind [n0], or at the
    head. *)
Lemma seg_unlink m p l0 n0 s0 n s l2 nx :
  seg m p ((l0 ++ [(n0, s0)]) ++ (n, s) :: l2) None -> NoDup ((l0 ++ [(n0, s0)]) ++ (n, s) :: l2).*1 ->
  m !! n = Some (Syment nx (length s) (s ++ [0])) ->
  seg (delete n (<[n0 := Syment nx (length s0) (s0 ++ [0])]> m)) p ((l0 ++ [(n0, s0)]) ++ l2) None.
Proof.
  intros (r & Hl1 & -> & nx' & Hn & Hl2)%seg_app Hnd Hn'. rewrite Hn in Hn'. injection Hn' as ->.
  rewrite fmap_app in Hnd. cbn in Hnd. apply NoDup_app in Hnd as (Hnd1 & Hd & [Hd2 _]%NoDup_cons).
  rewrite fmap_app in Hnd1, Hd. cbn in Hnd1, Hd. apply NoDup_app in Hnd1 as (_ & Hd1 & _).
  apply seg_app. exists nx. split.
  - eapply seg_agree; [|eapply seg_set_last; [exact Hl1|]].
    + intros n' Hin. apply lookup_delete_ne. intros <-. rewrite fmap_app in Hin. apply (Hd _ Hin). set_solver.
    + intros Hin. apply (Hd1 _ Hin). set_solver.
  - eapply seg_agree; [|exact Hl2]. intros n' Hin. rewrite lookup_delete_ne by (intros <-; done).
    apply lookup_insert_ne. intros <-. apply (Hd n0); [set_solver|]. set_solver.
Qed.

Lemma seg_unlink_head m p n s l2 nx :
  seg m p ((n, s) :: l2) None -> NoDup ((n, s) :: l2).*1 -> m !! n = Some (Syment nx (length s) (s ++ [0])) ->
  seg (delete n m) nx l2 None.
Proof.
  intros (_ & nx' & Hn & Hl2) [Hd _]%NoDup_cons Hn'. rewrite Hn in Hn'. injection Hn' as ->.
  eapply seg_agree; [|exact Hl2]. intros n' Hin. apply lookup_delete_ne. intros <-. done.
Qed.

Lemma symtab_remove (M : gmap Z item) (C : gmap Z (list (loc * list Z))) (nm : names) (T : gmap (list Z) loc)
    (s : list Z) (n : loc) (l1 l2 : list (loc * list Z)) (w : W) (M' : gmap Z item) (nm' : names) :
  tabled M C nm -> (forall s n, T !! s = Some n <-> in_chains C s n) -> C !! hash s = Some (l1 ++ (n, s) :: l2) ->
  kt_rel w M' -> (forall k', k' <> hash s -> M' !! k' = M !! k') ->
  (if l1 ++ l2 is [] then M' !! hash s = None
   else exists x, M' !! hash s = Some x /\ seg (ents nm') (i_data x) (l1 ++ l2) None) ->
  (forall n', n' ∉ (l1 ++ [(n, s)]).*1 -> ents nm' !! n' = ents nm !! n') ->
  (forall n', is_Some (ents nm' !! n') -> is_Some (ents nm !! n')) -> ebrk nm' = ebrk nm ->
  symtab (w, nm') (delete s T).
Proof.
  intros Ht HT Hl Hw HM Hk Hoth Halive Hbrk.
  destruct (tabled_remove _ _ _ _ _ _ _ _ _ _ Ht Hl HM Hk Hoth Halive Hbrk) as (C' & Ht' & HC & HC').
  exists M', C'. split_and!; [done | done |]. eapply in_chains_remove; [done | exact Hl | exact (t_names _ _ _ Ht _ _ Hl) | done | done].
Qed.

Lemma free_table s slen st T : symtab st T -> (slen <= length s)%nat ->
  wpx (symbol_free_db_mem_ (Some s) slen usecrc) (fun _ _ => False)
    (fun _ st' => symtab st' (delete (take slen s) T)) st.
Proof.
  intros (M & C & Hw & Ht & HT) Hs. destruct st as [w nm]. cbn [fst snd] in *. unfold symbol_free_db_mem_.
  apply wpx_bind. eapply wpx_mono; [by eapply find_ent_run | done |]. intros r [w' nm'] (Hw' & Hnm & Hr). cbn [fst snd] in *. subst nm'.
  set (name := take slen s) in *. destruct (C !! hash name) as [l|] eqn:Hl.
  2: { subst r. apply wpx_bind, wpx_ret, wpx_ret. rewrite delete_id; [by exists M, C|].
       apply eq_None_not_Some. intros [n (l & Hl' & _)%HT]. congruence. }
  destruct Hr as (x & Hx & ->). pose proof (search_table M C nm T name l Ht HT Hl) as Hsearch.
  destruct (t_chain _ _ _ Ht _ _ Hl) as (Hne & x' & Hx' & Hseg). rewrite Hx in Hx'. injection Hx' as <-.
  destruct (search_spec name l None) as [(n & l1 & l2 & -> & Hni & Hse) | [Hni Hse]]; rewrite Hse in *; cbn [fst snd] in *.
  2: { apply wpx_bind, wpx_ret, wpx_bind, wpx_in_tree. cbn [fst snd]. unfold wpx at 1. rewrite (kt_data_ok _ _ _ _ Hw' Hx).
       rewrite delete_id by done. destruct l as [|[n0 s0] l]; [done|]. destruct Hseg as (-> & _). apply wpx_ret. by exists M, C. }
  destruct (seg_cells _ _ _ _ Hseg n name) as [nx Hn]; [set_solver|].
  pose proof (seg_nodup _ _ _ _ Hseg (t_names _ _ _ Ht _ _ Hl)) as Hnd1.
  set (k := hash name) in *.
  apply wpx_bind. eapply wpx_get_ent; [exact Hn|]. cbn [next].
  destruct l1 as [|[n1 s1] l1 _] using rev_ind; cbn [last_of last].
  - apply wpx_bind, wpx_in_tree. cbn [fst snd app] in *.
    eapply wpx_mono; [by eapply kt_set_data_ok | done |]. intros ? w2 Hw2.
    eapply wpx_free_ent; [cbn; by rewrite Hn|]. cbn [fst snd ents ebrk].
    assert (forall n', is_Some (delete n (ents nm) !! n') -> is_Some (ents nm !! n')) as Halive.
    { intros n' [e [_ He]%lookup_delete_Some]. eauto. }
    apply wpx_bind, wpx_in_tree. cbn [fst snd]. unfold wpx at 1.
    set (x2 := Item (i_loc x) k nx (i_mark x)) in *. change (i_loc x) with (i_loc x2).
    assert (<[k := x2]> M !! k = Some x2) as Hx2 by (by rewrite lookup_insert_eq).
    rewrite (kt_data_ok _ _ _ _ Hw2 Hx2). cbn [i_data x2].
    pose proof (seg_unlink_head _ _ _ _ _ _ Hseg Hnd1 Hn) as Hseg2.
    destruct nx as [n2|].
    + apply wpx_ret. eapply (symtab_remove _ _ _ _ _ _ []); [exact Ht | exact HT | exact Hl | exact Hw2 | | | | done | done].
      * intros k' Hk'. by rewrite lookup_insert_ne.
      * destruct l2 as [|e2 l2]; [done|]. exists x2. done.
      * intros n' Hn'. apply lookup_delete_ne. cbn in Hn'. set_solver.
    + apply wpx_in_tree. cbn [fst snd]. eapply wpx_mono; [by eapply kt_delete_ok | done |]. intros ? w3 Hw3.
      eapply (symtab_remove _ _ _ _ _ _ []); [exact Ht | exact HT | exact Hl | exact Hw3 | | | | done | done].
      * intros k' Hk'. by rewrite lookup_delete_ne, lookup_insert_ne.
      * destruct l2 as [|[n2 s2] l2]; [by rewrite lookup_delete_eq | by destruct Hseg2].
      * intros n' Hn'. apply lookup_delete_ne. cbn in Hn'. set_solver.
  - unfold last_of. rewrite last_snoc.
    destruct (seg_cells _ _ _ _ Hseg n1 s1) as [nx1 Hn1]; [set_solver|].
    assert (n1 <> n) as Hne1.
    { intros ->. rewrite fmap_app in Hnd1. apply NoDup_app in Hnd1 as (_ & Hd & _). apply (Hd n); rewrite ?fmap_app; cbn; set_solver. }
    eapply wpx_set_next; [exact Hn1|]. eapply wpx_free_ent; cbn [fst snd ents ebrk namelen Symbol.name].
    { rewrite lookup_insert_ne by done. by rewrite Hn. }
    apply wpx_bind, wpx_in_tree. cbn [fst snd]. unfold wpx at 1. rewrite (kt_data_ok _ _ _ _ Hw' Hx).
    pose proof (seg_unlink _ _ _ _ _ _ _ _ _ Hseg Hnd1 Hn) as Hseg2.
    assert (exists n2, i_data x = Some n2) as [n2 ->] by (destruct l1 as [|[] l1]; destruct Hseg as (-> & _); eauto).
    apply wpx_ret. eapply symtab_remove; [exact Ht | exact HT | exact Hl | exact Hw' | done | | | | done]; cbn [ents].
    + destruct ((l1 ++ [(n1, s1)]) ++ l2) eqn:E; [by destruct l1|]. exists x. done.
    + intros n' Hn'. rewrite !fmap_app in Hn'. cbn in Hn'. rewrite lookup_delete_ne by set_solver.
      apply lookup_insert_ne. set_solver.
    + intros n' [e [_ He]%lookup_delete_Some]. apply lookup_insert_Some in He as [[<- _]|[_ He]]; [by rewrite Hn1 | eauto].
Qed.

(** ** Removing all names *)

(** [m'] is [m] without the entries [ns]. *)
Definition without (ns : list loc) (m m' : gmap loc syment) : Prop :=
  forall n, m' !! n = if decide (n ∈ ns) then None else m !! n.

Lemma without_app ns1 ns2 m1 m2 m3 : without ns1 m1 m2 -> without ns2 m2 m3 -> without (ns1 ++ ns2) m1 m3.
Proof.
  intros H1 H2 n. rewrite (H2 n), (H1 n). repeat case_decide; try done; set_solver.
Qed.

Lemma free_chain_run (w : W) (b : loc) (l : list (loc * list Z)) : forall fuel p m, seg m p l None -> NoDup l.*1 -> (length l <= fuel)%nat ->
  wpx (free_chain fuel p) (fun _ _ => False)
    (fun _ (st : state) => st.1 = w /\ ebrk st.2 = b /\ without l.*1 m (ents st.2)) (w, Names m b).
Proof.
  induction l as [|[n s] l IH]; intros fuel p m Hseg Hnd Hlen.
  - cbn in Hseg. subst p. destruct fuel; (apply wpx_ret; split_and!; try done; intros n; cbn; by case_decide as Hd; [apply elem_of_nil in Hd|]).
  - destruct fuel as [|fuel]; [cbn in Hlen; lia|]. cbn [length] in Hlen. destruct Hseg as (-> & nx & Hn & Hseg).
    apply NoDup_cons in Hnd as [Hni Hnd]. cbn [free_chain]. eapply wpx_get_ent; [exact Hn|]. cbn [next].
    apply wpx_bind. eapply wpx_free_ent; [cbn; by rewrite Hn|]. cbn [fst snd ents ebrk].
    eapply wpx_mono; [eapply (IH fuel nx (delete n m)); [|done|lia] | done |].
    + eapply seg_agree; [|exact Hseg]. intros n' Hin. apply lookup_delete_ne. intros <-. done.
    + intros ? st (? & ? & Hwo). split_and!; [done | done |]. eapply (without_app [n]); [|exact Hwo].
      intros n'. case_decide as Hd; [apply list_elem_of_singleton in Hd as ->; by rewrite lookup_delete_eq|].
      apply lookup_delete_ne. set_solver.
Qed.

(** The entries of all chains of some nodes. *)
Definition chain_of (C : gmap Z (list (loc * list Z))) (x : item) : list loc := (default [] (C !! i_key x)).*1.

Lemma symbol_null_keeps n (s : state) : (symbol_null n s).2.1 = s.1.
Proof.
  unfold symbol_null, mbind, ex_bind, in_tree. pose proof (kt_data_reads (Some n) s.1) as Hr.
  destruct (kt_data (Some n) s.1) as [[t|p] w]; cbn in Hr |- *; [done|]. subst w. cbn.
  generalize (size (ents s.2)) as fuel. intros fuel. set (st := (s.1, s.2)). change (s.1) with (st.1). clearbody st. clear.
  revert p st. induction fuel as [|fuel IH]; intros [p|] st; try done. cbn [free_chain].
  destruct (ents st.2 !! p) as [e|] eqn:E.
  - rewrite (get_ent_eq p e) by done. unfold mbind at 1, ex_bind at 1, free_ent. rewrite (get_ent_eq p e) by done.
    cbn [set_ents update]. by rewrite IH.
  - unfold mbind, ex_bind, get_ent, the_ents, read, mbind, ex_bind. by rewrite E.
Qed.

Lemma visit_null_run M C nm0 (w : W) (b : loc) : tabled M C nm0 -> kt_rel w M -> forall l m,
  NoDup l -> (forall x, x ∈ l -> M !! i_key x = Some x) ->
  (forall x n, x ∈ l -> n ∈ chain_of C x -> m !! n = ents nm0 !! n) ->
  wpx (visit symbol_null (i_loc <$> l)) (fun _ _ => False)
    (fun _ (st : state) => st.1 = w /\ ebrk st.2 = b /\ without (l ≫= chain_of C) m (ents st.2)) (w, Names m b).
Proof.
  intros Ht Hw. induction l as [|x l IH]; intros m Hnd Hl Hm; cbn [visit fmap list_fmap].
  { apply wpx_ret. split_and!; [done | done |]. intros n. cbn. by case_decide as Hd; [apply elem_of_nil in Hd|]. }
  apply NoDup_cons in Hnd as [Hni Hnd]. pose proof (Hl x ltac:(set_solver)) as Hx.
  destruct (C !! i_key x) as [c|] eqn:Hc; [|rewrite (t_none _ _ _ Ht _ Hc) in Hx; done].
  destruct (t_chain _ _ _ Ht _ _ Hc) as (_ & x' & Hx' & Hseg). rewrite Hx in Hx'. injection Hx' as <-.
  pose proof (seg_nodup _ _ _ _ Hseg (t_names _ _ _ Ht _ _ Hc)) as Hnd1.
  assert (chain_of C x = c.*1) as Hco by (unfold chain_of; by rewrite Hc).
  assert (seg m (i_data x) c None) as Hseg2.
  { eapply seg_agree; [|exact Hseg]. intros n Hin. apply (Hm x); [set_solver | by rewrite Hco]. }
  apply wpx_bind. unfold symbol_null. apply wpx_bind, wpx_in_tree. cbn [fst snd]. unfold wpx at 1.
  rewrite (kt_data_ok _ _ _ _ Hw Hx). apply wpx_bind, wpx_read. cbn [snd ents].
  eapply wpx_mono; [eapply (free_chain_run w b c); [exact Hseg2 | done | by eapply seg_size] | done |].
  intros ? [w2 [m2 b2]] (Hw2 & Hb2 & Hwo). cbn [fst snd ents ebrk] in *. subst w2 b2.
  eapply wpx_mono; [apply (IH m2); [done | set_solver |] | done |].
  - intros y n Hy Hin. rewrite (Hwo n). case_decide as Hd; [|apply (Hm y); [set_solver | done]].
    exfalso. unfold chain_of in Hin. destruct (C !! i_key y) as [cy|] eqn:Hcy; [|by apply elem_of_nil in Hin].
    pose proof (chains_apart _ _ _ Ht _ _ _ _ _ Hc Hcy Hd Hin) as He.
    pose proof (Hl y ltac:(set_solver)) as Hy'. rewrite <- He, Hx in Hy'. injection Hy' as ->. done.
  - intros ? st (? & ? & Hwo2). split_and!; [done | done |]. cbn. rewrite Hco. by eapply without_app.
Qed.

Lemma null_table st T : symtab st T ->
  wpx symbol_null_db (fun _ _ => False)
    (fun _ st' => symtab st' ∅ /\ (forall s n, T !! s = Some n -> ents st'.2 !! n = None) /\
       forall n, (forall s, T !! s <> Some n) -> ents st'.2 !! n = ents st.2 !! n) st.
Proof.
  intros (M & C & Hw & Ht & HT). destruct st as [w [m b]]. cbn [fst snd] in *. unfold symbol_null_db.
  destruct (kt_scan_ok names symbol_null w (Names m b) M Hw symbol_null_keeps) as (l & Hnd & Hl & Hscan).
  apply wpx_bind. unfold wpx at 1. rewrite Hscan.
  pose proof (visit_null_run M C (Names m b) w b Ht Hw l m Hnd (fun x Hx => proj1 (Hl x) Hx) (fun _ _ _ _ => eq_refl)) as Hv.
  unfold wpx in Hv. destruct (visit symbol_null (i_loc <$> l) (w, Names m b)) as [[t|[]] [w2 [m2 b2]]]; [done|].
  destruct Hv as (Hw2 & Hb2 & Hwo). cbn [fst snd ents ebrk] in *. subst w2 b2.
  apply wpx_in_tree. cbn [fst snd]. eapply wpx_mono; [eapply kt_null_ok; exact Hw | done |]. intros ? w3 Hw3. cbn [snd ents].
  assert (forall s n, T !! s = Some n -> n ∈ l ≫= chain_of C) as Hin.
  { intros s n (c & Hc & Hin)%HT. destruct (t_chain _ _ _ Ht _ _ Hc) as (_ & x & Hx & _).
    pose proof (kt_rel_node _ _ _ _ Hw Hx) as Hk. apply list_elem_of_bind. exists x. split.
    - unfold chain_of. rewrite Hk, Hc. by apply (list_elem_of_fmap_2 fst) in Hin.
    - apply Hl. by rewrite Hk. }
  split_and!.
  - exists ∅, ∅. split_and!; [done | |].
    + split; try (intros *; rewrite lookup_empty; done). intros n Hn. cbn in *.
      apply (t_brk _ _ _ Ht). cbn. rewrite (Hwo n) in Hn. case_decide; [by destruct Hn | done].
    + intros s n. rewrite lookup_empty. split; [done|]. intros (c & Hc & _). by rewrite lookup_empty in Hc.
  - intros s n Hn. rewrite (Hwo n). case_decide as Hd; [done|]. destruct Hd. by eapply Hin.
  - intros n Hn. rewrite (Hwo n). case_decide as Hd; [|done]. apply list_elem_of_bind in Hd as (x & Hc & Hx).
    unfold chain_of in Hc. destruct (C !! i_key x) as [c|] eqn:E; [|by apply elem_of_nil in Hc].
    apply list_elem_of_fmap in Hc as ([n' s] & -> & Hin'). destruct (Hn s). apply HT. exists c.
    split; [by rewrite (t_hash _ _ _ Ht _ _ _ _ E Hin') | done].
Qed.

(** ** The name of a symbol *)

Lemma symtab_name st T s n : symtab st T -> T !! s = Some n -> exists nx, ents st.2 !! n = Some (Syment nx (length s) (s ++ [0])).
Proof.
  intros (M & C & Hw & Ht & HT) (l & Hl & Hin)%HT. destruct (t_chain _ _ _ Ht _ _ Hl) as (_ & x & _ & Hseg).
  by eapply seg_cells.
Qed.

Lemma symtab_inj st T s1 s2 n : symtab st T -> T !! s1 = Some n -> T !! s2 = Some n -> s1 = s2.
Proof.
  intros Hst H1 H2. destruct (symtab_name _ _ _ _ Hst H1) as [nx1 E1]. destruct (symtab_name _ _ _ _ Hst H2) as [nx2 E2].
  rewrite E1 in E2. injection E2 as _ _ He. by apply app_inj_2 in He as [-> _].
Qed.

Lemma symtab_start b : symtab (kt_init, Names ∅ b) ∅.
Proof.
  exists ∅, ∅. split_and!; [apply kt_init_ok | |].
  - split; try (intros *; rewrite lookup_empty; done). intros n [e He]. cbn in He. by rewrite lookup_empty in He.
  - intros s n. rewrite lookup_empty. split; [done|]. intros (c & Hc & _). by rewrite lookup_empty in Hc.
Qed.
End table.
