(* ===== verification/SymbolProps.v ===== *)
(** * Theorems about symbols

    Keys of symbols are equal just when their names are; freeing forgets a
    name; emptying a table frees its entries.  And what the two hash
    functions of lib/ promise. *)

From Stdlib Require Import ZArith Lia.
From stdpp Require Import base tactics numbers list option gmap.
From S2P Require Import Prelude Splay SplayTree SplayWalk Symbol SymbolTable.

#[local] Open Scope Z_scope.

Section clients.
Context {W : Type} `{KeyTreeLaws W}.

Lemma cstr_take b : take (length (cstr b)) b = cstr b.
Proof.
  unfold cstr at 2. f_equal. unfold cstr. rewrite length_take_le; [done|]. apply span_le.
Qed.

Lemma cstr_le b : (length (cstr b) <= length b)%nat.
Proof. unfold cstr. rewrite length_take. lia. Qed.

(** symbol(), symbol_lookup() and pname() on the table of the names [T]. *)
Definition global (s : option W * names) (T : gmap (list Z) loc) : Prop := symtab true (default kt_init s.1, s.2) T.

Lemma symbol_run b s T : global s T ->
  wpx (symbol (Some b)) (fun _ _ => False)
    (fun p s' => match T !! cstr b with
       | Some n => p = Some n /\ global s' T
       | None => exists n, p = Some n /\ (forall x, T !! x <> Some n) /\ global s' (<[cstr b := n]> T)
       end) s.
Proof.
  intros Hs. pose proof (db_table true b (length (cstr b)) _ T Hs (cstr_le b)) as Hdb. rewrite cstr_take in Hdb.
  unfold wpx, symbol, in_symtab in *. unfold symbol_db, symbol_db_mem, CRCorNOT.
  destruct (symbol_db_mem_ _ _ _ _) as [[t|p] [w nm]]; done.
Qed.

Lemma symbol_lookup_run b s T : global s T ->
  wpx (symbol_lookup (Some b)) (fun _ _ => False) (fun p s' => p = T !! cstr b /\ global s' T) s.
Proof.
  intros Hs. pose proof (lookup_table true b (length (cstr b)) _ T Hs (cstr_le b)) as Hdb. rewrite cstr_take in Hdb.
  unfold wpx, symbol_lookup, in_symtab in *. unfold symbol_lookup_db, symbol_lookup_db_mem, CRCorNOT.
  destruct (symbol_lookup_db_mem_ _ _ _ _) as [[t|p] [w nm]]; done.
Qed.

Lemma pname_run st T s n : symtab true st T -> T !! s = Some n -> pname (Some n) st = (inr (cstr (s ++ [0])), st).
Proof.
  intros Hst Hn. destruct (symtab_name _ _ _ _ _ Hst Hn) as [nx He]. unfold pname. by rewrite (get_ent_eq _ _ _ _ He).
Qed.

(** A client that makes symbols of many strings. *)
Fixpoint symbols (l : list (list Z)) : EX (option W * names) trouble (list pointer) :=
  match l with
  | [] => mret []
  | b :: l => p ← symbol (Some b); ps ← symbols l; mret (p :: ps)
  end.

(** Each string gets the key that the table has for it in the end. *)
Lemma symbols_run l : forall s T, global s T ->
  wpx (symbols l) (fun _ _ => False)
    (fun ps s' => exists T', global s' T' /\ T ⊆ T' /\ ps = (fun b => T' !! cstr b) <$> l /\ Forall is_Some ps) s.
Proof.
  induction l as [|b l IH]; intros s T Hs; cbn [symbols].
  - apply wpx_ret. exists T. by repeat split.
  - apply wpx_bind. eapply wpx_mono; [by apply symbol_run | done |]. intros p s1 Hp.
    assert (exists T1 n, global s1 T1 /\ T ⊆ T1 /\ p = Some n /\ T1 !! cstr b = Some n) as (T1 & n & Hs1 & Hsub & -> & Hn).
    { destruct (T !! cstr b) as [n|] eqn:E; [destruct Hp as [-> Hs1]; by exists T, n|].
      destruct Hp as (n & -> & _ & Hs1). exists (<[cstr b := n]> T), n.
      split_and!; [done | by apply insert_subseteq | done | by rewrite lookup_insert_eq]. }
    apply wpx_bind. eapply wpx_mono; [by apply IH | done |]. intros ps s2 (T2 & Hs2 & Hsub2 & -> & Hall). apply wpx_ret.
    exists T2. split_and!; [done | by etrans | | by constructor].
    cbn. f_equal. symmetry. by eapply lookup_weaken.
Qed.
End clients.

(** C30: Symbols identify their names: whatever strings a client makes symbols
    of, from the empty table on, symbol() gives two of them the same key just
    when the strings are the same up to their ends, even when their hashes
    collide, and never the null key. *)
Theorem symbols_identify_names (l : list (list Z)) (b : loc) :
  exists ks s', symbols l (None : option world, Names ∅ b) = (inr (Some <$> ks), s') /\
    forall i j x y, l !! i = Some x -> l !! j = Some y -> (ks !! i = ks !! j <-> cstr x = cstr y).
Proof.
  assert (global (None : option world, Names ∅ b) ∅) as H0 by apply symtab_start.
  destruct (wpx_result _ _ _ (symbols_run l _ _ H0)) as (ps & s' & Hrun & T & Hs & _ & Hps & Hall).
  assert (exists ks, ps = Some <$> ks) as [ks ->].
  { clear -Hall. induction Hall as [|p ps [k ->] _ [ks ->]]; [by exists []|]. by exists (k :: ks). }
  exists ks, s'. split; [done|]. intros i j x y Hx Hy.
  assert (forall i x, l !! i = Some x -> exists k, ks !! i = Some k /\ T !! cstr x = Some k) as Hk.
  { intros i' x' Hx'. pose proof (f_equal (lookup i') Hps) as E. rewrite !list_lookup_fmap, Hx' in E. cbn in E.
    destruct (ks !! i') as [k|]; [|done]. cbn in E. injection E as E. eauto. }
  destruct (Hk _ _ Hx) as (kx & -> & Ex). destruct (Hk _ _ Hy) as (ky & -> & Ey). split.
  - intros [= <-]. by eapply symtab_inj.
  - intros E. rewrite E in Ex. congruence.
Qed.

(** symbol_free_db_mem() takes its name and no other out of the table;
    the keys of the other names stay. *)
Theorem symbol_free_forgets (st : world * names) (T : gmap (list Z) loc) (s : list Z) (slen : nat) :
  symtab true st T -> (slen <= length s)%nat ->
  exists st', symbol_free_db_mem (Some s) slen st = (inr tt, st') /\ symtab true st' (delete (take slen s) T).
Proof.
  intros Hst Hs. destruct (wpx_result _ _ _ (free_table true s slen st T Hst Hs)) as ([] & st' & Hrun & ?). eauto.
Qed.

(** A table with one name. *)
Lemma one_symbol : exists st n, symtab (W := world) true st {[ [97; 98] := n ]}.
Proof.
  destruct (wpx_result _ _ _ (db_table true [97; 98] 2 _ _ (symtab_start (W := world) true 1) ltac:(cbn; lia))) as (p & st & _ & Hdb).
  rewrite lookup_empty in Hdb. destruct Hdb as (n & _ & _ & Hst). eauto.
Qed.

Lemma symbol_free_forgets_witness : exists st st', symbol_free_db_mem (W := world) (Some [97; 98; 99]) 2 st = (inr tt, st') /\
  symtab true st' ∅.
Proof.
  destruct one_symbol as (st & n & Hst).
  destruct (symbol_free_forgets st _ [97; 98; 99] 2 Hst ltac:(cbn; lia)) as (st' & H1 & H2).
  exists st, st'. split; [exact H1|]. cbn [take] in H2. rewrite delete_singleton_eq in H2. exact H2.
Defined.

(** symbol_null_db() empties the table: it frees every entry of the
    table, and no other. *)
Theorem symbol_null_frees (st : world * names) (T : gmap (list Z) loc) :
  symtab true st T ->
  exists st', symbol_null_db st = (inr tt, st') /\ symtab true st' ∅ /\
    forall n, ents st'.2 !! n = (if bool_decide (n ∈ (map_to_list T).*2) then None else ents st.2 !! n).
Proof.
  intros Hst. destruct (wpx_result _ _ _ (null_table true st T Hst)) as ([] & st' & Hrun & Hst' & Hin & Hout).
  exists st'. split_and!; [done | done |]. intros n. case_bool_decide as Hd.
  - apply list_elem_of_fmap in Hd as ([s n'] & -> & Hsn%elem_of_map_to_list). by eapply Hin.
  - apply Hout. intros s Hs. apply Hd. apply list_elem_of_fmap. exists (s, n). split; [done|]. by apply elem_of_map_to_list.
Qed.

Lemma symbol_null_frees_witness : exists st n st', symbol_null_db (W := world) st = (inr tt, st') /\ ents st'.2 !! n = None /\ is_Some (ents st.2 !! n).
Proof.
  destruct one_symbol as (st & n & Hst). destruct (symbol_null_frees st _ Hst) as (st' & H1 & _ & H3).
  exists st, n, st'. split_and!; [exact H1 | |].
  - rewrite H3, map_to_list_singleton, bool_decide_true; [reflexivity | cbn; by apply list_elem_of_singleton].
  - destruct (symtab_name _ _ _ [97; 98] n Hst) as [nx ->]; [by rewrite lookup_singleton_eq | done].
Defined.

(** ** The hash functions *)

Lemma lxor_bound n a b : 0 <= n -> 0 <= a < 2 ^ n -> 0 <= b < 2 ^ n -> 0 <= Z.lxor a b < 2 ^ n.
Proof.
  intros Hn Ha Hb. split; [apply Z.lxor_nonneg; lia|].
  destruct (Z.eq_dec (Z.lxor a b) 0) as [->|Hz]; [lia|].
  assert (0 < Z.lxor a b) as Hpos by (assert (0 <= Z.lxor a b) by (apply Z.lxor_nonneg; lia); lia).
  apply Z.log2_lt_pow2; [done|]. pose proof (Z.log2_lxor a b ltac:(lia) ltac:(lia)) as Hl.
  assert (forall c, 0 <= c < 2 ^ n -> Z.log2 c < n \/ c = 0) as Hc.
  { intros c Hc. destruct (Z.eq_dec c 0); [by right|]. left. apply Z.log2_lt_pow2; lia. }
  destruct (Hc a Ha) as [H1| ->], (Hc b Hb) as [H2| ->]; rewrite ?Z.lxor_0_l, ?Z.lxor_0_r in *; lia.
Qed.

Lemma CrcTable_bound i : 0 <= i < 128 -> 0 <= CrcTable i < 2 ^ 31.
Proof.
  intros Hi. assert (forallb (fun i => (0 <=? CrcTable (Z.of_nat i)) && (CrcTable (Z.of_nat i) <? 2 ^ 31)) (seq 0 128) = true) as H
    by (vm_compute; reflexivity).
  rewrite forallb_forall in H. specialize (H (Z.to_nat i)). rewrite in_seq, Z2Nat.id in H by lia. specialize (H ltac:(lia)). lia.
Qed.

Lemma crc_step_bound key c : 0 <= key < 2 ^ 31 -> 0 <= c -> 0 <= crc_step key c < 2 ^ 31.
Proof.
  intros Hk Hc. unfold crc_step. apply lxor_bound; [lia | |].
  - rewrite Z.shiftr_div_pow2 by lia. split; [apply Z.div_pos; lia|]. apply Z.div_lt_upper_bound; lia.
  - apply CrcTable_bound. change 0x7f with (Z.ones 7). rewrite Z.land_ones by lia. apply Z.mod_pos_bound. lia.
Qed.

Lemma crc_fold_bound l : forall key, 0 <= key < 2 ^ 31 -> Forall (fun c => 0 <= c) l -> 0 <= foldl crc_step key l < 2 ^ 31.
Proof.
  induction l as [|c l IH]; intros key Hk Hs; cbn [foldl]; [done|]. apply Forall_cons in Hs as [Hc Hs].
  apply IH; [by apply crc_step_bound | done].
Qed.

(** The key that crc32n() computes of bytes fits in 31 bits, so that it
    is the same as a long and as an unsigned long of 32 or 64 bits. *)
Theorem crc32n_31_bits (s : list Z) (slen : nat) : Forall (fun c => 0 <= c) s -> 0 <= crc32n s slen < 2 ^ 31.
Proof.
  intros Hs. unfold crc32n. assert (0 <= foldl crc_step 0 (take slen s) < 2 ^ 31) as Hb.
  { apply crc_fold_bound; [lia | by apply Forall_take]. }
  change 0xFFFFFFFF with (Z.ones 32). rewrite Z.land_ones, Z.mod_small by lia. done.
Qed.

Lemma crc32n_31_bits_witness : 0 <= crc32n [114; 111; 111; 116] 4 < 2 ^ 31.
Proof. apply (crc32n_31_bits [114; 111; 111; 116] 4). repeat constructor; lia. Defined.

(** crc32() is crc32n() up to the end of the string. *)
Lemma crc32_is_crc32n b : crc32 b = crc32n b (length (cstr b)).
Proof. unfold crc32, crc32n. by rewrite cstr_take. Qed.

(** pjwhash32n() gives a string other hashes on machines of 32 and of 64
    bits: the sum overflows 32 bits. *)
Lemma pjwhash_depends_on_word_size :
  pjwhash32n 32 [120; 120; 120; 120; 120; 114; 110; 97] 8 = 0x41 /\
  pjwhash32n 64 [120; 120; 120; 120; 120; 114; 110; 97] 8 = 0x141.
Proof. split; vm_compute; reflexivity. Qed.
