(* ===== verification/Rfc822Scan.v ===== *)
(** * The scanner of RFC 822 tokens (lib/rfc822scan.c)

    The scanner takes the characters of a header line, and the lines behind
    it into which a comment, a quoted string or a domain literal may run on.
    The table of character classes is a variable of the program, which the
    scanner changes while it runs.  A pointer into a line with its count of
    characters is the list of these characters; a token has the text of
    TOKENLEN characters.  Memory is never exhausted. *)

From Stdlib Require Import ZArith Lia.
From stdpp Require Import base tactics numbers list option.
From S2P Require Import Prelude.

#[local] Open Scope Z_scope.

(** ** Character classes *)

Definition _h : Z := 1.
Definition _w : Z := 2.
Definition _d : Z := 4.
Definition _c : Z := 8.
Definition _a : Z := 16.
Definition _l : Z := 32.
Definition _r : Z := 64.
Definition _s : Z := 128.
Definition _8 : Z := 256.

Definition rfc_ctype : list Z := [
  _c; _c; _c; _c; _c; _c; _c; _c;
  _c; Z.lor _c _w; Z.lor _l _c; _c; _c; Z.lor _r _c; _c; _c;
  _c; _c; _c; _c; _c; _c; _c; _c;
  _c; _c; _c; _c; _c; _c; _c; _c;
  _w; _h; Z.lor _s _h; _h; _h; _h; _h; _h;
  Z.lor _s _h; Z.lor _s _h; _h; _h; Z.lor _s _h; _h; Z.lor _s _h; _h;
  Z.lor _d _h; Z.lor _d _h; Z.lor _d _h; Z.lor _d _h; Z.lor _d _h; Z.lor _d _h; Z.lor _d _h; Z.lor _d _h;
  Z.lor _d _h; Z.lor _d _h; _s; Z.lor _s _h; Z.lor _s _h; _h; Z.lor _s _h; _h;
  Z.lor _s _h; Z.lor _a _h; Z.lor _a _h; Z.lor _a _h; Z.lor _a _h; Z.lor _a _h; Z.lor _a _h; Z.lor _a _h;
  Z.lor _a _h; Z.lor _a _h; Z.lor _a _h; Z.lor _a _h; Z.lor _a _h; Z.lor _a _h; Z.lor _a _h; Z.lor _a _h;
  Z.lor _a _h; Z.lor _a _h; Z.lor _a _h; Z.lor _a _h; Z.lor _a _h; Z.lor _a _h; Z.lor _a _h; Z.lor _a _h;
  Z.lor _a _h; Z.lor _a _h; Z.lor _a _h; Z.lor _s _h; Z.lor _s _h; Z.lor _s _h; _h; _h;
  _h; Z.lor _a _h; Z.lor _a _h; Z.lor _a _h; Z.lor _a _h; Z.lor _a _h; Z.lor _a _h; Z.lor _a _h;
  Z.lor _a _h; Z.lor _a _h; Z.lor _a _h; Z.lor _a _h; Z.lor _a _h; Z.lor _a _h; Z.lor _a _h; Z.lor _a _h;
  Z.lor _a _h; Z.lor _a _h; Z.lor _a _h; Z.lor _a _h; Z.lor _a _h; Z.lor _a _h; Z.lor _a _h; Z.lor _a _h;
  Z.lor _a _h; Z.lor _a _h; Z.lor _a _h; _h; _h; _h; _h; _c;
  _8; _8; _8; _8; _8; _8; _8; _8;
  _8; _8; _8; _8; _8; _8; _8; _8;
  _8; _8; _8; _8; _8; _8; _8; _8;
  _8; _8; _8; _8; _8; _8; _8; _8;
  _8; _8; _8; _8; _8; _8; _8; _8;
  _8; _8; _8; _8; _8; _8; _8; _8;
  _8; _8; _8; _8; _8; _8; _8; _8;
  _8; _8; _8; _8; _8; _8; _8; _8;
  _8; _8; _8; _8; _8; _8; _8; _8;
  _8; _8; _8; _8; _8; _8; _8; _8;
  _8; _8; _8; _8; _8; _8; _8; _8;
  _8; _8; _8; _8; _8; _8; _8; _8;
  _8; _8; _8; _8; _8; _8; _8; _8;
  _8; _8; _8; _8; _8; _8; _8; _8;
  _8; _8; _8; _8; _8; _8; _8; _8;
  _8; _8; _8; _8; _8; _8; _8; _8
].

Section classes.
Variable tab : list Z.

Definition ctype (c : Z) : Z := nth (Z.to_nat (Z.land c 255)) tab 0.
(** [rfc_ctype[c & 0xFF] & mask] *)
Definition has (mask : Z) (c : Z) : bool := negb (Z.land (ctype c) mask =? 0).
End classes.

(** ** rfc822_mustquote() *)

Definition _wc8s : Z := Z.lor (Z.lor _w _c) (Z.lor _8 _s).

Record quotes := Quotes { inquote : bool; mustquote : bool; hasquotes : bool }.

Fixpoint mustquote_loop (tab : list Z) (spckosher : bool) (q : quotes) (s : list Z) : quotes :=
  match s with
  | [] => q
  | c :: s' =>
      let must := mustquote_loop tab spckosher (Quotes (inquote q) true (hasquotes q)) in
      let next := mustquote_loop tab spckosher q in
      if c =? 34 then mustquote_loop tab spckosher (Quotes (negb (inquote q)) (mustquote q) true) s'
      else if c =? 92 then match s' with _ :: s2 => next s2 | [] => next s' end
      else if (c =? $"@") && negb (inquote q) then next s'
      else if c =? $":" then if (hd 0 s' =? $":") && inquote q then must s' else next s'
      else if (c =? $".") || (c =? $",") || (c =? $"[") || (c =? $"]") then next s'
      else if (c =? $" ") && spckosher then next s'
      else if has tab _wc8s c || (c =? $"|") then must s'
      else next s'
  end.

Definition rfc822_mustquote (tab : list Z) (s : list Z) (spc : Z) : Z :=
  let spckosher := negb (has tab _wc8s spc) || (spc =? $".") in
  let q := mustquote_loop tab spckosher (Quotes false false false) s in
  Z.lor (if hasquotes q then 1 else 0) (Z.lor (if inquote q then 2 else 0) (if mustquote q then 4 else 0)).

(** ** hdr_status(): the length of a header's name, 0 for a continuation
    line, or the negative length of what is no header *)

Definition hdr_status (tab : list Z) (lbuf : list Z) : Z :=
  if (hd 0 lbuf =? $" ") || (hd 0 lbuf =? 9) then 0
  else
    let k := span (has tab _h) lbuf in
    match drop k lbuf with
    | c :: _ => if c =? $":" then Z.of_nat k else - Z.of_nat k
    | [] => - Z.of_nat k
    end.

(** ** Tokens *)

Inductive TokenType :=
| Atom | Comment | DomainLiteral | Error | Fold | Line | String | Space | Special | Word | Empty.
#[export] Instance TokenType_eq_dec : EqDecision TokenType.
Proof. solve_decision. Defined.

Record token822 := Token { t_pname : list Z; t_type : TokenType }.

Definition makeToken (s : list Z) : token822 := Token s Empty.

(** At most 50000 characters are kept. *)
Definition MAXTOKEN : nat := Z.to_nat 50000.
Definition copyToken (t : token822) : token822 := Token (take MAXTOKEN (t_pname t)) (t_type t).

(** A list of tokens that grows at its head. *)
Definition MKERROR (msg : list Z) (tlist : list token822) : list token822 := Token msg Error :: tlist.

(** ** Compound tokens *)

Definition illegal_char : list Z := $$"illegal char in compound".
Definition missing_char : list Z := $$"missing character after backslash".
Definition illegal_CR : list Z := $$"illegal CR in token".
Definition missing_closing (cend : Z) : list Z := $$"missing closing '" ++ [cend] ++ $$"' in token".

(** How a line ends: at the terminator, with what is behind it; at its last
    character; or at a backslash in that place. *)
Inductive line_end := Closed (rest : list Z) | RanOff | Dangling.

(** The loop over one line, with the nesting, the length, and the list that
    gets the errors. *)
Fixpoint compound_line (cstart cend : Z) (type : TokenType) (nest : nat) (len : Z) (tlist : list token822) (cp : list Z)
    : line_end * nat * Z * list token822 :=
  match cp with
  | [] => (RanOff, nest, len, tlist)
  | c :: cp' =>
      if c =? cend then
        match nest with
        | S (S nest) => compound_line cstart cend type (S nest) (len + 1) tlist cp'
        | _ => (Closed cp', O, len, tlist)
        end
      else if c =? cstart then
        if decide (type = Comment) then compound_line cstart cend type (S nest) (len + 1) tlist cp'
        else compound_line cstart cend type nest (len + 1) (MKERROR illegal_char tlist) cp'
      else if c =? 92 then
        match cp' with
        | [] => (Dangling, nest, len, MKERROR missing_char tlist)
        | _ :: cp2 => compound_line cstart cend type nest (len + 2) tlist cp2
        end
      else if c =? 13 then compound_line cstart cend type nest (len + 1) (MKERROR illegal_CR tlist) cp'
      else compound_line cstart cend type nest (len + 1) tlist cp'
  end.

(** What a compound token is made of: the text between its delimiters, line
    by line; what is behind it in its last line, and the lines that follow. *)
Record compound := Compound {
  k_segments : list (list Z);
  k_closed : bool;
  k_len : Z;
  k_tlist : list token822;
  k_rest : list Z;
  k_lines : list (list Z)
}.

(** [_hdr_compound()] behind the opening character. *)
Fixpoint _hdr_compound (cstart cend : Z) (type : TokenType) (lines : list (list Z)) (nest : nat) (len : Z)
    (tlist : list token822) (cp : list Z) : compound :=
  match compound_line cstart cend type nest len tlist cp with
  | (Closed rest, _, len, tlist) =>
      Compound [take (length cp - length rest - 1) cp] true (len + 1) tlist rest lines
  | (e, nest, len, tlist) =>
      match lines with
      | line :: lines =>
          let k := _hdr_compound cstart cend type lines nest (len + 1) tlist line in
          Compound (cp :: k_segments k) (k_closed k) (k_len k) (k_tlist k) (k_rest k) (k_lines k)
      | [] =>
          Compound [if e is Dangling then take (length cp - 1) cp else cp] false len
            (MKERROR (missing_closing cend) tlist) [] []
      end
  end.

(** ** _unfold() *)

Definition is_fold (c : Z) : bool := (c =? $" ") || (c =? 9) || (c =? 10) || (c =? 13).

(** Copy up to the end of a segment; [None] when the count runs out first,
    or the text has a NUL in the last segment. *)
Fixpoint unfold_line (last : bool) (len : Z) (seg : list Z) : option (list Z * Z) :=
  match seg with
  | [] => Some ([], len)
  | c :: seg' =>
      if len <=? 0 then None
      else if c =? 0 then if last then None else Some ([], len)
      else '(o, len) ← unfold_line last (len - 1) seg'; Some (if c =? 10 then (o, len) else (c :: o, len))
  end.

Fixpoint unfold_lines (len : Z) (seg : list Z) (segs : list (list Z)) : option (list Z) :=
  match segs with
  | [] => '(o, _) ← unfold_line true len seg; Some o
  | seg2 :: segs =>
      '(o, len) ← unfold_line false len seg;
      if len <=? 0 then None
      else
        let k := Nat.min (span is_fold seg2) (Z.to_nat len) in
        o2 ← unfold_lines (len - Z.of_nat k - 1) (drop k seg2) segs;
        Some (o ++ [$" "] ++ o2)
  end.

Fixpoint strip_spaces (l : list Z) : list Z :=
  match l with
  | [] => []
  | c :: l => match strip_spaces l with [] => if c =? $" " then [] else [c] | l => c :: l end
  end.

Definition _unfold (type : TokenType) (len : Z) (segs : list (list Z)) : option (list Z) :=
  match segs with
  | [] => None
  | seg :: segs =>
      o ← unfold_lines len seg segs;
      Some (if decide (type = Comment) then strip_spaces o else o)
  end.

(** ** The scanner *)

Definition CR_without_LF : list Z := $$"CR without LF (newline)".
Definition too_many_LFs (n : Z) : list Z := $$"too many newlines (LFs) in field[" ++ [n] ++ $$"]".
Definition illegal_8bit : list Z := $$"illegal 8-bit/control character".
Definition illegal_control : list Z := $$"illegal control character".

Definition delimiters (c : Z) : option (Z * TokenType) :=
  if c =? 34 then Some (34, String)
  else if c =? $"[" then Some ($"]", DomainLiteral)
  else if c =? $"(" then Some ($")", Comment)
  else None.

Section scan.
Variable tab : list Z.

(** Tokens so far, the rest of the line, and the lines behind it. *)
Definition scan_state : Type := list token822 * list Z * list (list Z).

(** A token of the first [k] characters. *)
Definition cut (type : TokenType) (k : nat) (tlist : list token822) (cur : list Z) (lines : list (list Z)) : scan_state :=
  (copyToken (Token (take k cur) type) :: tlist, drop k cur, lines).

Definition scan_compound (c cend : Z) (type : TokenType) (tlist : list token822) (rest : list Z) (lines : list (list Z))
    : option scan_state :=
  let k := _hdr_compound c cend type lines 1 1 tlist rest in
  text ← match k_segments k with
         | [seg] => Some (take (Z.to_nat (k_len k - (if k_closed k then 2 else 1))) seg)
         | segs => _unfold type (k_len k) segs
         end;
  Some (copyToken (Token text type) :: k_tlist k, k_rest k, k_lines k).

(** The run of control and 8-bit characters that begins a token: how many
    there are, and whether an 8-bit one behind the first ended it. *)
Fixpoint control_run (rest : list Z) : nat * bool :=
  match rest with
  | [] => (1%nat, false)
  | c :: rest =>
      if has tab _8 c then (1%nat, true)
      else if has tab _c c then let '(k, b) := control_run rest in (S k, b)
      else (1%nat, false)
  end.

Definition scan_one (tlist : list token822) (c : Z) (rest : list Z) (lines : list (list Z)) : option scan_state :=
  let cur := c :: rest in
  if has tab _w c then Some (cut Space (S (span (has tab _w) rest)) tlist cur lines)
  else if has tab _r c then
    let k := S (span (has tab _r) rest) in
    match drop k cur with
    | [] => Some (cut Fold k (MKERROR CR_without_LF tlist) cur lines)
    | d :: rest2 =>
        if negb (has tab _l d) then Some (cut Fold k (MKERROR CR_without_LF tlist) cur lines)
        else
          match rest2 with
          | [] => Some (cut Fold k tlist cur lines)
          | _ => Some (cut Fold (k + S (span (has tab _l) rest2)) (MKERROR (too_many_LFs ($"1")) tlist) cur lines)
          end
    end
  else if has tab _l c then
    Some (cut Fold (S (span (has tab _l) rest)) (MKERROR (too_many_LFs ($"2")) tlist) cur lines)
  else if has tab _s c then
    match delimiters c with
    | Some (cend, type) => scan_compound c cend type tlist rest lines
    | None =>
        let double :=
          match rest with
          | d :: _ => ((c =? $":") && (d =? $":")) || ((c =? 92) && negb (d =? 0) && has tab _s d)
          | [] => false
          end in
        Some (cut Special (if double then 2 else 1) tlist cur lines)
    end
  else if negb (has tab (Z.lor _c _8) c) then
    Some (cut Atom (S (span (fun d => negb (has tab (Z.lor (Z.lor _w _s) (Z.lor _c (Z.lor _l _r))) d)) rest)) tlist cur lines)
  else
    let '(k, bit8) := control_run rest in
    Some (cut Atom k
      (MKERROR ((if bit8 : bool then illegal_8bit else illegal_control) ++ (if (1 <? k)%nat then $$"s" else [])) tlist)
      cur lines).

Fixpoint tokens_loop (fuel : nat) (st : scan_state) : option scan_state :=
  match st with
  | (tlist, [], lines) => Some st
  | (tlist, c :: rest, lines) =>
      match fuel with
      | O => None
      | S fuel => st ← scan_one tlist c rest lines; tokens_loop fuel st
      end
  end.
End scan.

(** More than the number of rounds. *)
Definition scan_fuel (cur : list Z) (lines : list (list Z)) : nat := length cur + length (concat lines).

Definition special_if (c : Z) (tab : list Z) : list Z :=
  if c =? 0 then tab else <[Z.to_nat c := Z.lor (nth (Z.to_nat c) tab 0) _s]> tab.
Definition restore_if (c sc : Z) (tab : list Z) : list Z := if c =? 0 then tab else <[Z.to_nat c := sc]> tab.

(** The tokens, the lines behind the last token, and the table of character
    classes; [None] when the scanner loses its place. *)
Definition scan822 (tab : list Z) (cur : list Z) (c1 c2 : Z) (lines : list (list Z))
    : option (list token822 * list (list Z) * list Z) :=
  match cur with
  | [] => Some ([], lines, tab)
  | _ =>
      let tab1 := special_if c1 tab in
      let tab2 := special_if c2 tab1 in
      '(tlist, _, lines) ← tokens_loop tab2 (scan_fuel cur lines) ([], cur, lines);
      Some (reverse tlist, lines, restore_if c2 (nth (Z.to_nat c2) tab1 0) (restore_if c1 (nth (Z.to_nat c1) tab 0) tab2))
  end.

(** *** scan822utext(): unstructured text *)

Definition utext_one (tab : list Z) (tlist : list token822) (c : Z) (rest : list Z) (lines : list (list Z)) : scan_state :=
  let cur := c :: rest in
  if has tab _w c then cut Space (S (span (has tab _w) rest)) tlist cur lines
  else if has tab _r c then
    let k := S (span (has tab _r) rest) in
    match drop k cur with
    | [] => cut Fold k (MKERROR CR_without_LF tlist) cur lines
    | d :: rest2 =>
        if negb (has tab _l d) then cut Fold k (MKERROR CR_without_LF tlist) cur lines
        else
          match rest2 with
          | [] => cut Fold k tlist cur lines
          | _ => cut Fold (k + S (span (has tab _l) rest2)) (MKERROR (too_many_LFs ($"1")) tlist) cur lines
          end
    end
  else if has tab _l c then cut Fold (S (span (has tab _l) rest)) (MKERROR (too_many_LFs ($"2")) tlist) cur lines
  else cut Atom (S (span (fun d => negb (has tab (Z.lor _w (Z.lor _l _r)) d)) rest)) tlist cur lines.

Fixpoint utext_loop (tab : list Z) (fuel : nat) (tlist : list token822) (cur : list Z) : list token822 :=
  match cur, fuel with
  | c :: rest, S fuel => let '(tlist, cur, _) := utext_one tab tlist c rest [] in utext_loop tab fuel tlist cur
  | _, _ => tlist
  end.

Definition scan822utext (tab : list Z) (cur : list Z) : list token822 := reverse (utext_loop tab (length cur) [] cur).
