(* ===== verification/Rfc822Token.v ===== *)
(** * Printing tokens (lib/token.c)

    The printers return the characters they write; what a printer writes into
    a buffer is compared with the size of the buffer.  fprintToken() and
    fprintFold() are modelled with a file. *)

From Stdlib Require Import ZArith Lia.
From stdpp Require Import base tactics numbers list option.
From S2P Require Import Prelude Rfc822Scan.

#[local] Open Scope Z_scope.

(** ** Into a buffer *)

(** What stands in front of and behind the text of a token. *)
Definition print_open (quotespecials : bool) (t : token822) : list Z :=
  match t_type t with
  | DomainLiteral => $$"["
  | String => [34]
  | Special => if quotespecials then $$"\" else []
  | _ => []
  end.
Definition print_close (t : token822) : list Z :=
  match t_type t with DomainLiteral => $$"]" | String => [34] | _ => [] end.
Definition print_one (quotespecials : bool) (t : token822) : list Z :=
  print_open quotespecials t ++ t_pname t ++ print_close t.

(** printToken() in a buffer of [size] bytes: the room is looked at in front
    of each token only. *)
Fixpoint printToken_loop (quotespecials : bool) (eob : Z) (out : list Z) (ts : list token822) : list Z :=
  match ts with
  | t :: ts =>
      if Z.of_nat (length out) <? eob then printToken_loop quotespecials eob (out ++ print_one quotespecials t) ts
      else out
  | [] => out
  end.
Definition printToken (size : Z) (ts : list token822) (quotespecials : bool) : list Z :=
  printToken_loop quotespecials (size - 1) [] ts.
(** The NUL included. *)
Definition printToken_overruns (size : Z) (ts : list token822) (quotespecials : bool) : Prop :=
  size < Z.of_nat (length (printToken size ts quotespecials)) + 1.

(** printdToken(): the buffer is doubled until the token fits in; an [int]
    can be doubled 31 times at most. *)
Fixpoint extend (doublings : nat) (need buflen : Z) : option Z :=
  if need <=? buflen then Some buflen
  else match doublings with O => None | S d => extend d need (2 * buflen) end.

Fixpoint printdToken (quotespecials : bool) (buflen : Z) (out : list Z) (ts : list token822) : option (list Z * Z) :=
  match ts with
  | t :: ts =>
      buflen ← extend 31 (Z.of_nat (length out) + 3 + Z.of_nat (length (t_pname t))) buflen;
      printdToken quotespecials buflen (out ++ print_one quotespecials t) ts
  | [] => Some (out, buflen)
  end.

(** formatToken(): the bytes that are written into the static buffer. *)
Definition type_name (t : TokenType) : list Z :=
  match t with
  | String => $$"string" | Atom => $$"atom" | Special => $$"special" | DomainLiteral => $$"domainLiteral"
  | Line => $$"line" | Space => $$"space" | Fold => $$"fold" | Word => $$"word" | Comment => $$"comment"
  | Empty => $$"empty" | Error => $$"error"
  end.
Definition FORMAT_SIZE : Z := 2560.
Definition formatToken (t : token822) : list Z :=
  let name := type_name (t_type t) in
  let len := Z.of_nat (length (t_pname t)) in
  let len := if FORMAT_SIZE <=? len + 4 + Z.of_nat (length name) then FORMAT_SIZE - Z.of_nat (length name) - 4 else len in
  $$"'" ++ take (Z.to_nat len) (t_pname t) ++ $$"' (" ++ name ++ $$")" ++ [0].

(** ** Into a file *)

Definition mark_open (t : token822) : list Z :=
  match t_type t with DomainLiteral => $$"[" | String => [34] | Error => $$"?" | _ => [] end.
Definition mark_close (t : token822) : list Z :=
  match t_type t with DomainLiteral => $$"]" | String => [34] | Error => $$"?" | _ => [] end.

Definition next_col (col c : Z) : Z :=
  if c =? 9 then col + (8 - col mod 8) else if c =? 10 then 0 else col + 1.

(** What is written, and the column. *)
Definition fprintToken (t : token822) (col : Z) : list Z * Z :=
  (mark_open t ++ t_pname t ++ mark_close t,
   foldl next_col (col + Z.of_nat (length (mark_open t))) (t_pname t) + Z.of_nat (length (mark_close t))).

(** The number of characters. *)
Definition fprintToken_length (t : token822) (onlylength : Z) : Z :=
  onlylength + Z.of_nat (length (mark_open t) + length (t_pname t) + length (mark_close t)).

Definition LINELEN : Z := 80.

Definition ascii_space (c : Z) : bool := (c <? 128) && isspace c.
Definition is_break (c : Z) : bool := (c <? 128) && (isspace c || (c =? $",")).

(** The last place at [n] or in front of it, down to 1; or 0. *)
Fixpoint break_back (cp : list Z) (n : nat) : nat :=
  match n with
  | O => O
  | S m => if is_break (nth n cp 0) then n else break_back cp m
  end.

(** How many characters go into this line. *)
Definition breakpoint (col : Z) (cp : list Z) : nat :=
  let len := Z.of_nat (length cp) in
  if (col <? LINELEN) && (LINELEN - col <? len) then
    let lim := Z.to_nat (LINELEN - col) in
    match break_back cp lim with
    | O => lim + span (fun c => negb (is_break c)) (drop lim cp)
    | n => n
    end
  else length cp.

(** Runs of white space become one space; [skip] inside of a run. *)
Fixpoint squeeze (skip : bool) (l : list Z) : list Z :=
  match l with
  | [] => []
  | c :: l => if ascii_space c then (if skip then squeeze true l else $" " :: squeeze true l) else c :: squeeze false l
  end.

(** The start of a continuation line, and its column. *)
Definition fold_indent (foldcol : Z) : list Z * Z :=
  let tabs := Z.to_nat (foldcol / 8) in
  let blanks := Z.to_nat (foldcol - 8 * (foldcol / 8)) in
  let indent := replicate tabs 9 ++ replicate blanks ($" ") in
  if foldcol <? 1 then ([10] ++ $$" ", 1) else ([10] ++ indent, foldcol).

Fixpoint fold_loop (fuel : nat) (col foldcol : Z) (cp : list Z) : option (list Z * Z) :=
  match fuel with
  | O => None
  | S fuel =>
      let n := breakpoint col cp in
      let line := squeeze false (take n cp) in
      let col := col + Z.of_nat (length line) in
      match drop n cp with
      | [] => Some (line, col)
      | rest =>
          let rest := drop (span ascii_space rest) rest in
          let '(indent, col) := fold_indent foldcol in
          match rest with
          | [] => Some (line ++ indent, col)
          | _ => '(more, col) ← fold_loop fuel col foldcol rest; Some (line ++ indent ++ more, col)
          end
      end
  end.

Definition fprintFold (t : token822) (col foldcol : Z) : option (list Z * Z) :=
  '(out, col) ← fold_loop (S (length (t_pname t))) (col + 1) foldcol (t_pname t);
  Some (mark_open t ++ out ++ mark_close t, col + 1).
