(* ===== verification/Rfc822Lines.v ===== *)
(** * What the scanner consumes

    Lemmas on one round of the scanner: how much of the line it takes, which
    tokens and errors it adds, and how a compound token is put together from
    its lines. *)

From Stdlib Require Import ZArith Lia.
From stdpp Require Import base tactics numbers list option sets.
From S2P Require Import Prelude Rfc822Scan.

#[local] Open Scope Z_scope.

(** ** The errors that are added *)

(** [l] is [tlist] with new errors in front. *)
Definition adds_errors (tlist l : list token822) : Prop :=
  exists es, l = es ++ tlist /\ Forall (fun t => t_type t = Error) es.

#[export] Instance adds_errors_preorder : PreOrder adds_errors.
Proof.
  split.
  - intros l. by exists [].
  - intros l1 l2 l3 (e1 & -> & H1) (e2 & -> & H2). exists (e2 ++ e1). rewrite app_assoc. split; [done|]. by apply Forall_app.
Qed.

Lemma adds_MKERROR msg tlist l : adds_errors (MKERROR msg tlist) l -> adds_errors tlist l.
Proof. intros H. etransitivity; [|done]. exists [Token msg Error]. split; [done|]. by constructor. Qed.

Lemma MKERROR_adds msg tlist : adds_errors tlist (MKERROR msg tlist).
Proof. by apply (adds_MKERROR msg). Qed.

(** ** The end of a compound in a line *)

Section compounds.
Variables (cstart cend : Z) (type : TokenType).

Lemma compound_line_spec n : forall cp nest len tlist, (length cp <= n)%nat ->
  let '(e, _, len', tlist') := compound_line cstart cend type nest len tlist cp in
  adds_errors tlist tlist' /\
  match e with
  | Closed rest => exists seg, cp = seg ++ cend :: rest /\ len' = len + Z.of_nat (length seg)
  | RanOff => len' = len + Z.of_nat (length cp)
  | Dangling => list.last cp = Some 92 /\ len' = len + Z.of_nat (length cp) - 1
  end.
Proof.
  induction n as [|n IH]; intros cp nest len tlist Hn; (destruct cp as [|c cp]; [cbn; split; [done | lia]|]); [cbn in Hn; lia|].
  assert (forall nest len tlist0, adds_errors tlist tlist0 ->
    let '(e, _, len', tlist') := compound_line cstart cend type nest (len + 1) tlist0 cp in
    adds_errors tlist tlist' /\
    match e with
    | Closed rest => exists seg, c :: cp = seg ++ cend :: rest /\ len' = len + Z.of_nat (length seg)
    | RanOff => len' = len + Z.of_nat (length (c :: cp))
    | Dangling => list.last (c :: cp) = Some 92 /\ len' = len + Z.of_nat (length (c :: cp)) - 1
    end) as Hstep.
  { intros nest0 len0 tlist0 Hadd. specialize (IH cp nest0 (len0 + 1) tlist0 ltac:(cbn in Hn; lia)).
    destruct (compound_line _ _ _ _ _ _ _) as [[[e ?] len'] tlist']. destruct IH as [Hadd' IH].
    split; [by etransitivity|]. destruct e as [rest| |].
    - destruct IH as (seg & -> & ->). exists (c :: seg). cbn. split; [done | lia].
    - cbn [length]. lia.
    - destruct IH as [Hl ->]. destruct cp; [done|]. cbn [length]. split; [done | lia]. }
  cbn [compound_line]. destruct (c =? cend) eqn:Ec.
  { apply Z.eqb_eq in Ec as ->.
    destruct nest as [|[|nest]]; [| |by apply Hstep]; (split; [done|]; exists []; cbn; split; [done | lia]). }
  destruct (c =? cstart); [destruct (decide _); apply Hstep; [done | apply MKERROR_adds]|].
  destruct (c =? 92) eqn:Eb; [|destruct (c =? 13); apply Hstep; [apply MKERROR_adds | done]].
  apply Z.eqb_eq in Eb as ->. destruct cp as [|d cp]; [split; [apply MKERROR_adds | cbn; split; [done | lia]]|].
  specialize (IH cp nest (len + 2) tlist ltac:(cbn in Hn; lia)).
  destruct (compound_line _ _ _ _ _ _ _) as [[[e ?] len'] tlist']. destruct IH as [Hadd IH]. split; [done|].
  destruct e as [rest| |]; cbn [length].
  - destruct IH as (seg & -> & ->). exists (92 :: d :: seg). cbn. split; [done | lia].
  - lia.
  - destruct IH as [Hl ->]. destruct cp; [done|]. split; [done | cbn [length]; lia].
Qed.

(** The segments of a compound, and what was counted. *)
Fixpoint segments_cost (segs : list (list Z)) : Z :=
  match segs with
  | [] => 0
  | [seg] => Z.of_nat (length seg)
  | seg :: segs => Z.of_nat (length seg) + 1 + segments_cost segs
  end.

Lemma segments_cost_cons seg segs : segs <> [] -> segments_cost (seg :: segs) = Z.of_nat (length seg) + 1 + segments_cost segs.
Proof. by destruct segs. Qed.

(** A line without NULs and without a backslash at its end. *)
Definition good_line (l : list Z) : Prop := forallb not_nul l = true /\ list.last l <> Some 92.

Lemma good_suffix a b : good_line (a ++ b) -> good_line b.
Proof.
  intros [Hn Hl]. rewrite forallb_app in Hn. apply andb_prop in Hn as [_ Hn]. split; [done|].
  destruct b as [|c b]; [done|]. by rewrite last_app_cons in Hl.
Qed.

Definition compound_left (k : compound) : nat := length (k_rest k) + length (concat (k_lines k)).

Lemma hdr_compound_spec lines : forall nest len tlist cp,
  good_line cp -> Forall good_line lines ->
  let k := _hdr_compound cstart cend type lines nest len tlist cp in
  k_segments k <> [] /\ Forall (fun s => forallb not_nul s = true) (k_segments k) /\
  k_len k = len + segments_cost (k_segments k) + (if k_closed k then 1 else 0) /\
  good_line (k_rest k) /\ Forall good_line (k_lines k).
Proof.
  induction lines as [|line lines IH]; intros nest len tlist cp Hcp Hls; cbn [_hdr_compound];
    pose proof (compound_line_spec (length cp) cp nest len tlist (le_n _)) as H;
    destruct (compound_line _ _ _ _ _ _ _) as [[[e nest'] len'] tlist'], H as [Hadd H]; destruct e as [rest| |];
    try (destruct H, Hcp; done).
  1, 3: cbn; destruct H as (seg & -> & ->); rewrite length_app; cbn [length];
    replace (length seg + S (length rest) - length rest - 1)%nat with (length seg) by lia;
    rewrite take_app_length; split_and!; [done | | lia | | done];
    [destruct Hcp as [Hn _]; rewrite forallb_app in Hn; apply andb_prop in Hn as [Hn _]; by constructor
    |apply (good_suffix (seg ++ [cend])); by rewrite <- app_assoc].
  - cbn. destruct Hcp. split_and!; [done | by constructor | lia | done | done].
  - apply Forall_cons_1 in Hls as [Hl Hls]. destruct (IH nest' (len' + 1) tlist' line Hl Hls) as (A & B & C & D & E).
    cbn [k_tlist k_segments k_len k_closed k_rest k_lines]. destruct Hcp.
    split_and!; [done | by constructor | | done | done]. rewrite C, (segments_cost_cons _ _ A). lia.
Qed.

Lemma hdr_compound_errors lines : forall nest len tlist cp,
  let k := _hdr_compound cstart cend type lines nest len tlist cp in
  adds_errors tlist (k_tlist k) /\
  (compound_left k <= length cp + length (concat lines))%nat /\
  (k_closed k = false -> exists msg l, k_tlist k = Token msg Error :: l).
Proof.
  induction lines as [|line lines IH]; intros nest len tlist cp; cbn [_hdr_compound];
    pose proof (compound_line_spec (length cp) cp nest len tlist (le_n _)) as H;
    destruct (compound_line _ _ _ _ _ _ _) as [[[e nest'] len'] tlist'], H as [Hadd H];
    destruct e as [rest| |]; unfold compound_left; cbn [k_tlist k_rest k_lines k_closed concat length].
  1, 4: destruct H as (seg & -> & _); rewrite ?length_app; cbn [length concat]; rewrite ?length_app; split_and!; [done | lia | done].
  1, 2: split_and!; [etransitivity; [done | apply MKERROR_adds] | lia | intros _; by eexists _, _].
  all: destruct (IH nest' (len' + 1) tlist' line) as (A & B & C); unfold compound_left in B;
    split_and!; [by etransitivity | rewrite length_app; lia | done].
Qed.
End compounds.

(** ** Unfolding *)

Definition no_LF (l : list Z) : list Z := filter (fun c => c <> 10) l.

(** The text of a token that runs over lines: each fold, with the white space
    that begins the next line, is one space. *)
Fixpoint unfolded (seg : list Z) (segs : list (list Z)) : list Z :=
  no_LF seg ++ match segs with [] => [] | s :: segs => $" " :: unfolded (drop (span is_fold s) s) segs end.

Lemma unfold_line_ok last seg : forall len, forallb not_nul seg = true -> Z.of_nat (length seg) <= len ->
  unfold_line last len seg = Some (no_LF seg, len - Z.of_nat (length seg)).
Proof.
  induction seg as [|c seg IH]; intros len Hn Hl; cbn [unfold_line length].
  - f_equal. f_equal. cbn. lia.
  - cbn in Hn. apply andb_prop in Hn as [Hc Hn]. unfold not_nul in Hc. apply negb_true_iff in Hc.
    cbn [length] in Hl. rewrite Hc, (proj2 (Z.leb_gt _ _)) by lia. rewrite IH by (done || lia). cbn [mbind option_bind].
    unfold no_LF. rewrite filter_cons. destruct (c =? 10) eqn:E.
    + apply Z.eqb_eq in E as ->. rewrite decide_False by lia. f_equal. f_equal. lia.
    + apply Z.eqb_neq in E. rewrite decide_True by done. f_equal. f_equal. lia.
Qed.

Lemma forallb_drop (f : Z -> bool) k l : forallb f l = true -> forallb f (drop k l) = true.
Proof. intros H. rewrite <- (take_drop k l), forallb_app in H. by apply andb_prop in H as [_ H]. Qed.

Lemma unfold_lines_ok segs : forall seg len,
  Forall (fun s => forallb not_nul s = true) (seg :: segs) -> segments_cost (seg :: segs) <= len ->
  unfold_lines len seg segs = Some (unfolded seg segs).
Proof.
  induction segs as [|s segs IH]; intros seg len Hn Hc; cbn [unfold_lines unfolded].
  - apply Forall_cons_1 in Hn as [Hn _]. cbn in Hc. rewrite unfold_line_ok by done. cbn. by rewrite app_nil_r.
  - apply Forall_cons_1 in Hn as [Hseg Hn]. rewrite segments_cost_cons in Hc by done.
    pose proof Hn as [Hs Hss]%Forall_cons_1.
    assert (Z.of_nat (length s) <= segments_cost (s :: segs)) as Hls.
    { destruct segs; [done|]. rewrite segments_cost_cons by done.
      enough (0 <= segments_cost (l :: segs)) by lia. clear. generalize (l :: segs) as ss.
      induction ss as [|x ss IH]; [done|]. destruct ss; [cbn; lia|]. rewrite segments_cost_cons by done. lia. }
    rewrite unfold_line_ok by (done || lia). cbn [mbind option_bind].
    rewrite (proj2 (Z.leb_gt _ _)) by lia. pose proof (span_le is_fold s) as Hsp. rewrite Nat.min_l by lia.
    rewrite IH.
    + done.
    + constructor; [by apply forallb_drop | done].
    + destruct segs.
      * cbn in *. rewrite length_drop. lia.
      * rewrite segments_cost_cons in * by done. rewrite length_drop. lia.
Qed.

(** ** One round *)

Lemma has_lor tab a b c : has tab (Z.lor a b) c = has tab a c || has tab b c.
Proof.
  unfold has. rewrite Z.land_lor_distr_r. destruct (Z.land _ a =? 0) eqn:Ea, (Z.land _ b =? 0) eqn:Eb; cbn.
  - apply Z.eqb_eq in Ea as ->, Eb as ->. done.
  - apply Z.eqb_neq in Eb. apply negb_true_iff, Z.eqb_neq. rewrite Z.lor_eq_0_iff. naive_solver.
  - apply Z.eqb_neq in Ea. apply negb_true_iff, Z.eqb_neq. rewrite Z.lor_eq_0_iff. naive_solver.
  - apply Z.eqb_neq in Ea. apply negb_true_iff, Z.eqb_neq. rewrite Z.lor_eq_0_iff. naive_solver.
Qed.

Lemma span_all f l : forallb f (take (span f l) l) = true.
Proof. destruct (span_app f l) as (w & r & -> & -> & Hw & _). by rewrite take_app_length. Qed.

Lemma forallb_impl (f g : Z -> bool) l : (forall c, f c = true -> g c = true) -> forallb f l = true -> forallb g l = true.
Proof. intros H. rewrite !forallb_forall. naive_solver. Qed.

Lemma forallb_take (f : Z -> bool) k l : forallb f l = true -> forallb f (take k l) = true.
Proof. intros H. rewrite <- (take_drop k l), forallb_app in H. by apply andb_prop in H as [H _]. Qed.

Section rounds.
Variable tab : list Z.

(** Classes of characters that end an atom. *)
Definition _wsclr : Z := Z.lor (Z.lor _w _s) (Z.lor _c (Z.lor _l _r)).

(** What the tokens of a type look like. *)
Definition token_text (type : TokenType) (text : list Z) : Prop :=
  match type with
  | Space => text <> [] /\ forallb (has tab _w) text = true
  | Fold => text <> [] /\ forallb (has tab (Z.lor _r _l)) text = true
  | Special => (exists c, text = [c] /\ has tab _s c = true) \/ text = $$"::" \/
               (exists c, text = [92; c] /\ has tab _s c = true)
  | Atom => text <> [] /\
            (forallb (fun c => negb (has tab _wsclr c)) text = true \/
             forallb (has tab (Z.lor _c _8)) text = true)
  | Comment | DomainLiteral | String | Error => True
  | Line | Word | Empty => False
  end.

Lemma token_text_take type text : token_text type text -> token_text type (take MAXTOKEN text).
Proof.
  assert (text <> [] -> take MAXTOKEN text <> []) as Hne by by destruct text.
  assert (forall c d : Z, take MAXTOKEN [c; d] = [c; d]) as H2 by done.
  assert (forall c : Z, take MAXTOKEN [c] = [c]) as H1 by done.
  destruct type; cbn [token_text]; auto.
  - intros [? [?|?]]; (split; [auto|]); [left | right]; by apply forallb_take.
  - intros [? ?]. split; [auto|]. by apply forallb_take.
  - intros [? ?]. split; [auto|]. by apply forallb_take.
  - intros [(c & -> & ?) | [-> | (c & -> & ?)]]; [left; eexists | right; left | right; right; eexists]; done.
Qed.

Lemma run_text f c rest : f c = true -> forallb f (take (S (span f rest)) (c :: rest)) = true.
Proof. intros Hc. cbn. rewrite Hc. apply span_all. Qed.

Lemma control_run_spec rest : let '(k, _) := control_run tab rest in
  (1 <= k)%nat /\ forallb (has tab _c) (take (k - 1) rest) = true.
Proof.
  induction rest as [|c rest IH]; cbn [control_run]; [done|]. destruct (has tab _8 c); [done|].
  destruct (has tab _c c) eqn:E; [|done]. destruct (control_run tab rest) as [k b]. destruct IH as [Hk IH].
  split; [lia|]. replace (S k - 1)%nat with (S (k - 1)) by lia. cbn. by rewrite E.
Qed.

Definition at_most_one_error (tlist tl : list token822) : Prop := tl = tlist \/ exists msg, tl = MKERROR msg tlist.

Lemma scan_one_cases tlist c rest lines :
  (exists type k tl, scan_one tab tlist c rest lines = Some (cut type k tl (c :: rest) lines) /\ (1 <= k)%nat /\
     at_most_one_error tlist tl /\ type ∈ [Space; Fold; Special; Atom] /\ token_text type (take k (c :: rest))) \/
  (exists cend type, delimiters c = Some (cend, type) /\
     scan_one tab tlist c rest lines = scan_compound c cend type tlist rest lines).
Proof.
  unfold scan_one. cbv zeta.
  assert (forall msg, at_most_one_error tlist (MKERROR msg tlist)) as Herr by (intros; right; eauto).
  assert (at_most_one_error tlist tlist) as Hno by by left.
  destruct (has tab _w c) eqn:Ew.
  { left. eexists Space, _, _. split_and!; [done | lia | done | set_solver |]. split; [done|]. by apply run_text. }
  assert (forall l, forallb (has tab _r) l = true -> forallb (has tab (Z.lor _r _l)) l = true) as Hr.
  { intros l. apply forallb_impl. intros d Hd. by rewrite has_lor, Hd. }
  assert (forall l, forallb (has tab _l) l = true -> forallb (has tab (Z.lor _r _l)) l = true) as Hl.
  { intros l. apply forallb_impl. intros d Hd. by rewrite has_lor, Hd, orb_true_r. }
  destruct (has tab _r c) eqn:Er.
  { set (k := S (span (has tab _r) rest)).
    assert (forallb (has tab (Z.lor _r _l)) (take k (c :: rest)) = true) as Hk by by apply Hr, run_text.
    destruct (drop k (c :: rest)) as [|d rest2] eqn:Ed.
    { left. eexists Fold, _, _. split_and!; [done | lia | done | set_solver | done]. }
    destruct (has tab _l d) eqn:El; cbn [negb].
    - destruct rest2 as [|e rest2].
      + left. eexists Fold, _, _. split_and!; [done | lia | done | set_solver | done].
      + left. eexists Fold, _, _. split_and!; [done | lia | done | set_solver |]. split; [by destruct k|].
        rewrite <- take_take_drop, Ed, forallb_app, Hk. cbn [andb]. apply Hl, (run_text (has tab _l)). done.
    - left. eexists Fold, _, _. split_and!; [done | lia | done | set_solver | done]. }
  destruct (has tab _l c) eqn:El.
  { left. eexists Fold, _, _. split_and!; [done | lia | done | set_solver |]. split; [done|]. by apply Hl, run_text. }
  destruct (has tab _s c) eqn:Es.
  { destruct (delimiters c) as [[cend type]|] eqn:Edl; [right; by eexists _, _|]. left.
    exists Special. destruct rest as [|d rest]; [eexists 1%nat, _; split_and!; [done | lia | done | set_solver | left; by exists c]|].
    destruct ((c =? 58) && (d =? 58) || (c =? 92) && negb (d =? 0) && has tab _s d) eqn:Ed.
    - eexists 2%nat, _. split_and!; [done | lia | done | set_solver |]. right.
      apply orb_prop in Ed as [[Ec Ed]%andb_prop | [[Ec _]%andb_prop Ed]%andb_prop]; apply Z.eqb_eq in Ec as ->.
      + apply Z.eqb_eq in Ed as ->. by left.
      + right. by exists d.
    - eexists 1%nat, _. split_and!; [done | lia | done | set_solver |]. left. by exists c. }
  destruct (has tab (Z.lor _c _8) c) eqn:E8; cbn [negb].
  - pose proof (control_run_spec rest) as H. destruct (control_run tab rest) as [k b]. destruct H as [Hk H].
    left. eexists Atom, _, _. split_and!; [done | done | done | set_solver |].
    destruct k as [|k]; [lia|]. split; [done|]. right. cbn. rewrite E8. replace (S k - 1)%nat with k in H by lia.
    revert H. apply forallb_impl. intros d Hd. by rewrite has_lor, Hd.
  - left. eexists Atom, _, _. split_and!; [done | lia | done | set_solver |]. split; [done|]. left.
    apply run_text. unfold _wsclr. rewrite has_lor in E8. apply orb_false_iff in E8 as [Ec _].
    by rewrite !has_lor, Ew, Es, Ec, El, Er.
Qed.
End rounds.
