(* ===== verification/Rfc822Props.v ===== *)
(** * Properties of the scanner and the printers of RFC 822 tokens *)

From Stdlib Require Import ZArith Lia.
From stdpp Require Import base tactics numbers list option sets.
From S2P Require Import Prelude Rfc822Scan Rfc822Token Rfc822Lines.

#[local] Open Scope Z_scope.

(** ** The scanner ends *)

Section scanner.
Variable tab : list Z.

Definition left_over (cur : list Z) (lines : list (list Z)) : nat := length cur + length (concat lines).

Lemma scan_one_progress tlist c rest lines tl cur' lines' :
  scan_one tab tlist c rest lines = Some (tl, cur', lines') -> (left_over cur' lines' < left_over (c :: rest) lines)%nat.
Proof.
  unfold left_over. destruct (scan_one_cases tab tlist c rest lines) as
    [(type & k & tl0 & -> & Hk & _) | (cend & type & _ & ->)].
  - unfold cut. intros [= <- <- <-]. destruct k as [|k]; [lia|]. cbn. rewrite length_drop. lia.
  - unfold scan_compound. destruct (hdr_compound_errors c cend type lines 1 1 tlist rest) as (_ & H & _).
    destruct (_hdr_compound _ _ _ _ _ _ _ _) as [segs cl len tl0 r ls]. unfold compound_left in H. cbn in *.
    destruct (match segs with [] => _ | _ => _ end); [|done]. cbn. intros [= <- <- <-]. lia.
Qed.

Lemma tokens_loop_fuel fuel : forall fuel' tlist cur lines,
  (left_over cur lines <= fuel)%nat -> (left_over cur lines <= fuel')%nat ->
  tokens_loop tab fuel (tlist, cur, lines) = tokens_loop tab fuel' (tlist, cur, lines).
Proof.
  induction fuel as [|fuel IH]; intros fuel' tlist cur lines H H'; destruct cur as [|c rest];
    try (by destruct fuel'); [cbn in H; lia|].
  destruct fuel' as [|fuel']; [cbn in H'; lia|]. cbn [tokens_loop].
  destruct (scan_one tab tlist c rest lines) as [[[tl cur'] lines']|] eqn:E; [|done]. cbn [mbind option_bind].
  apply scan_one_progress in E. apply IH; unfold left_over in *; cbn in *; lia.
Qed.

(** [tokens_loop] keeps an invariant of its rounds. *)
Lemma tokens_loop_ind (I : scan_state -> Prop) fuel : forall st st',
  (forall tlist c rest lines st, I (tlist, c :: rest, lines) -> scan_one tab tlist c rest lines = Some st -> I st) ->
  I st -> tokens_loop tab fuel st = Some st' -> I st' /\ st'.1.2 = [].
Proof.
  induction fuel as [|fuel IH]; intros [[tlist cur] lines] st' Hstep HI H; destruct cur as [|c rest]; cbn [tokens_loop] in H;
    try (injection H as <-; done); [done|].
  destruct (scan_one tab tlist c rest lines) as [st|] eqn:E; [|done]. cbn in H. eapply IH; [done | | done].
  by eapply Hstep.
Qed.

(** *** Results *)

Lemma scan_compound_total c cend type tlist rest lines : good_line rest -> Forall good_line lines ->
  exists tl cur' lines', scan_compound c cend type tlist rest lines = Some (tl, cur', lines') /\
    good_line cur' /\ Forall good_line lines'.
Proof.
  intros Hr Hls. unfold scan_compound.
  destruct (hdr_compound_spec c cend type lines 1 1 tlist rest Hr Hls) as (Hne & Hn & Hlen & Hg & Hgs).
  destruct (_hdr_compound _ _ _ _ _ _ _ _) as [segs cl len tl0 r ls].
  cbn [k_segments k_closed k_len k_tlist k_rest k_lines] in *.
  destruct segs as [|seg [|seg2 segs]]; [done | by eexists _, _, _|].
  unfold _unfold. rewrite unfold_lines_ok; [by eexists _, _, _ | done |].
  destruct cl; lia.
Qed.

Lemma scan_one_total tlist c rest lines : good_line (c :: rest) -> Forall good_line lines ->
  exists tl cur' lines', scan_one tab tlist c rest lines = Some (tl, cur', lines') /\ good_line cur' /\ Forall good_line lines'.
Proof.
  intros Hc Hls. destruct (scan_one_cases tab tlist c rest lines) as [(type & k & tl & -> & _) | (cend & type & _ & ->)].
  - eexists _, _, _. split; [done|]. split; [|done]. apply (good_suffix (take k (c :: rest))). by rewrite take_drop.
  - apply scan_compound_total; [|done]. by apply (good_suffix [c]).
Qed.

Lemma tokens_loop_total fuel : forall tlist cur lines, (left_over cur lines <= fuel)%nat ->
  good_line cur -> Forall good_line lines -> is_Some (tokens_loop tab fuel (tlist, cur, lines)).
Proof.
  induction fuel as [|fuel IH]; intros tlist cur lines Hf Hc Hls; destruct cur as [|c rest]; try (by eexists); [cbn in Hf; lia|].
  cbn [tokens_loop]. destruct (scan_one_total tlist c rest lines Hc Hls) as (tl & cur' & lines' & E & Hc' & Hls').
  rewrite E. cbn [mbind option_bind]. apply scan_one_progress in E. apply IH; [lia | done | done].
Qed.

Lemma scan_one_single tlist c rest : exists tl cur', scan_one tab tlist c rest [] = Some (tl, cur', []).
Proof.
  destruct (scan_one_cases tab tlist c rest []) as [(type & k & tl & -> & _) | (cend & type & _ & ->)]; [by eexists _, _|].
  unfold scan_compound. cbn [_hdr_compound]. destruct (compound_line _ _ _ _ _ _ _) as [[[[r| |] ?] ?] ?]; by eexists _, _.
Qed.

Lemma tokens_loop_single fuel : forall tlist cur, (length cur <= fuel)%nat ->
  exists tl, tokens_loop tab fuel (tlist, cur, []) = Some (tl, [], []).
Proof.
  induction fuel as [|fuel IH]; intros tlist cur Hf; destruct cur as [|c rest]; try (by eexists); [cbn in Hf; lia|].
  cbn [tokens_loop]. destruct (scan_one_single tlist c rest) as (tl & cur' & E). rewrite E. cbn [mbind option_bind].
  apply scan_one_progress in E. unfold left_over in E. cbn in *. apply IH. lia.
Qed.
End scanner.

(** The scanner ends.  Every round takes at least one character of the
    line or of the lines behind it, so that the number of these characters
    bounds the number of rounds, whatever they are. *)
Theorem scan822_ends (tab cur : list Z) (lines : list (list Z)) (extra : nat) :
  tokens_loop tab (scan_fuel cur lines + extra) ([], cur, lines) = tokens_loop tab (scan_fuel cur lines) ([], cur, lines).
Proof. apply tokens_loop_fuel; unfold left_over, scan_fuel; lia. Qed.

(** C33: The scanner gives a result: for a single line of any characters, and
    for a line with continuation lines when none of the lines has a NUL or
    ends in a backslash. *)
Theorem scan822_total (tab cur : list Z) (c1 c2 : Z) (lines : list (list Z)) :
  lines = [] \/ good_line cur /\ Forall good_line lines -> is_Some (scan822 tab cur c1 c2 lines).
Proof.
  intros H. unfold scan822. destruct cur as [|c cur]; [by eexists|]. set (tab2 := special_if c2 _).
  assert (is_Some (tokens_loop tab2 (scan_fuel (c :: cur) lines) ([], c :: cur, lines))) as [[[tl cur'] ls] E].
  { destruct H as [-> | [Hc Hls]].
    - destruct (tokens_loop_single tab2 (scan_fuel (c :: cur) []) [] (c :: cur)) as [tl E]; [cbn; lia|]. by rewrite E.
    - by apply tokens_loop_total. }
  rewrite E. by eexists.
Qed.

Lemma scan822_total_witness :
  good_line ($$"(one") /\ Forall good_line [$$" two)"] /\
  is_Some (scan822 rfc_ctype ($$"(one") 0 0 [$$" two)"]).
Proof.
  assert (good_line ($$"(one") /\ Forall good_line [$$" two)"]) as [H1 H2].
  { split; [by vm_compute|]. apply Forall_singleton. by vm_compute. }
  split; [done|]. split; [done|]. apply (scan822_total rfc_ctype ($$"(one") 0 0 [$$" two)"]). by right.
Defined.

(** *** The table of character classes *)

Lemma special_if_length c tab : length (special_if c tab) = length tab.
Proof. unfold special_if. case_match; [done|]. apply length_insert. Qed.

(** The two characters that are specials during the scan. *)
Lemma restored tab c1 c2 : 0 <= c1 < Z.of_nat (length tab) -> 0 <= c2 < Z.of_nat (length tab) ->
  restore_if c2 (nth (Z.to_nat c2) (special_if c1 tab) 0) (restore_if c1 (nth (Z.to_nat c1) tab 0)
    (special_if c2 (special_if c1 tab))) =
  if (c1 =? c2) then special_if c1 tab else tab.
Proof.
  intros H1 H2. unfold restore_if, special_if.
  assert (forall c, 0 <= c < Z.of_nat (length tab) -> <[Z.to_nat c := nth (Z.to_nat c) tab 0]> tab = tab) as Hid.
  { intros c Hc. apply list_insert_id. rewrite nth_lookup. destruct (tab !! Z.to_nat c) eqn:E; [done|].
    apply lookup_ge_None in E. lia. }
  destruct (c1 =? 0) eqn:E1, (c2 =? 0) eqn:E2.
  - apply Z.eqb_eq in E1 as ->, E2 as ->. done.
  - apply Z.eqb_eq in E1 as ->. rewrite Z.eqb_sym, E2. rewrite list_insert_insert_eq. by apply Hid.
  - apply Z.eqb_eq in E2 as ->. rewrite E1. rewrite list_insert_insert_eq. by apply Hid.
  - destruct (c1 =? c2) eqn:E3.
    + apply Z.eqb_eq in E3 as <-. rewrite !list_insert_insert_eq. f_equal.
      rewrite nth_lookup, list_lookup_insert_eq by lia. done.
    + apply Z.eqb_neq in E3. assert (Z.to_nat c1 <> Z.to_nat c2) as Hne by lia.
      rewrite (list_insert_insert_ne _ (Z.to_nat c1) (Z.to_nat c2)) by done.
      rewrite !list_insert_insert_eq, nth_lookup, list_lookup_insert_ne, <- nth_lookup by done.
      rewrite Hid by done. by apply Hid.
Qed.

Lemma scan822_tab tab cur c1 c2 lines ts ls tab' :
  0 <= c1 < Z.of_nat (length tab) -> 0 <= c2 < Z.of_nat (length tab) -> cur <> [] ->
  scan822 tab cur c1 c2 lines = Some (ts, ls, tab') -> tab' = if c1 =? c2 then special_if c1 tab else tab.
Proof.
  intros H1 H2 Hne. unfold scan822. destruct cur as [|c cur]; [done|].
  destruct (tokens_loop _ _ _) as [[[tl cur'] ls']|]; [|done]. cbn. intros [= _ _ <-]. by apply restored.
Qed.

(** The scanner puts the character classes back: the table is as it was
    whenever the two additional specials differ.  When they are the same, the
    character stays a special for good. *)
Theorem scan822_restores (tab cur : list Z) (c1 c2 : Z) (lines : list (list Z)) ts ls tab' :
  length tab = 256%nat -> 0 <= c1 < 256 -> 0 <= c2 < 256 -> cur <> [] ->
  scan822 tab cur c1 c2 lines = Some (ts, ls, tab') ->
  (c1 <> c2 -> tab' = tab) /\ (c1 = c2 -> c1 <> 0 -> has tab' _s c1 = true).
Proof.
  intros Hl H1 H2 Hne H. apply scan822_tab in H; [|lia|lia|done]. subst tab'. split.
  - intros Hc. by rewrite (proj2 (Z.eqb_neq _ _) Hc).
  - intros <- H0. rewrite Z.eqb_refl. unfold special_if. rewrite (proj2 (Z.eqb_neq _ _) H0). unfold has, ctype.
    change 255 with (Z.ones 8). rewrite Z.land_ones, Z.mod_small by lia.
    rewrite nth_lookup, list_lookup_insert_eq by lia. cbn [from_option]. unfold id.
    rewrite Z.land_lor_distr_l, Z.land_diag. apply negb_true_iff, Z.eqb_neq. rewrite Z.lor_eq_0_iff. by intros [_ ?].
Qed.

(** The parts of a result. *)
Definition tokens_of (r : option (list token822 * list (list Z) * list Z)) : list token822 := default [] (fst ∘ fst <$> r).
Definition table_of (r : option (list token822 * list (list Z) * list Z)) : list Z := default [] (snd <$> r).

Lemma scan822_restores_witness :
  exists ts tab', scan822 rfc_ctype ($$"a!b") ($"!") ($"!") [] = Some (ts, [], tab') /\
    ($"!" <> $"!" -> tab' = rfc_ctype) /\ ($"!" = $"!" -> $"!" <> 0 -> has tab' _s ($"!") = true).
Proof.
  set (r := scan822 rfc_ctype ($$"a!b") ($"!") ($"!") []). exists (tokens_of r), (table_of r).
  assert (r = Some (tokens_of r, [], table_of r)) as E by (vm_compute; reflexivity). split; [exact E|].
  apply (scan822_restores rfc_ctype ($$"a!b") ($"!") ($"!") [] (tokens_of r) [] (table_of r) eq_refl);
    [by vm_compute | by vm_compute | discriminate | exact E].
Defined.

(** ** The tokens *)

Definition token_ok (tab : list Z) (t : token822) : Prop := token_text tab (t_type t) (t_pname t).

Lemma adds_errors_ok tab tlist l : adds_errors tlist l -> Forall (token_ok tab) tlist -> Forall (token_ok tab) l.
Proof.
  intros (es & -> & He) Ht. apply Forall_app. split; [|done]. eapply Forall_impl; [done|].
  intros t Ht'. unfold token_ok. by rewrite Ht'.
Qed.

Lemma scan_one_ok tab tlist c rest lines st :
  Forall (token_ok tab) tlist -> scan_one tab tlist c rest lines = Some st -> Forall (token_ok tab) st.1.1.
Proof.
  intros Ht. destruct (scan_one_cases tab tlist c rest lines) as
    [(type & k & tl & -> & _ & He & _ & Htext) | (cend & type & Hd & ->)].
  - intros [= <-]. unfold cut. cbn [fst]. constructor; [by apply token_text_take|].
    destruct He as [-> | [msg ->]]; [done|]. by apply (adds_errors_ok _ tlist), Ht; apply MKERROR_adds.
  - unfold scan_compound. destruct (hdr_compound_errors c cend type lines 1 1 tlist rest) as (Ha & _ & _).
    destruct (match k_segments _ with [] => _ | _ => _ end); [|done]. cbn. intros [= <-]. cbn. constructor.
    + unfold delimiters in Hd. unfold token_ok. cbn. by repeat case_match; simplify_eq.
    + by eapply adds_errors_ok.
Qed.

(** C32: The types of the tokens.  Whatever is scanned, the list has no other
    tokens than these: spaces, which are runs of white space; folds, which are
    runs of CR and LF; specials, of one special character, a double colon, or
    a special character behind a backslash; atoms, which are runs without
    white space, specials and control characters, or runs of control and 8-bit
    characters; comments, strings, domain literals and errors. *)
Theorem scan822_token_types (tab cur : list Z) (c1 c2 : Z) (lines : list (list Z)) ts ls tab' :
  scan822 tab cur c1 c2 lines = Some (ts, ls, tab') ->
  Forall (token_ok (special_if c2 (special_if c1 tab))) ts.
Proof.
  unfold scan822. destruct cur as [|c cur]; [by intros [= <- _ _]|]. set (tab2 := special_if c2 _).
  destruct (tokens_loop tab2 _ _) as [st|] eqn:E; [|done].
  apply (tokens_loop_ind tab2 (fun st => Forall (token_ok tab2) st.1.1)) in E as [H _]; [| |done].
  - destruct st as [[tl cur'] ls']. cbn. intros [= <- _ _]. by apply Forall_reverse.
  - intros tlist d rest ls0 st0 H Hone. by eapply scan_one_ok.
Qed.

Lemma scan822_token_types_witness :
  exists ts, scan822 rfc_ctype ($$"a <b::c>") 0 0 [] = Some (ts, [], rfc_ctype) /\ Forall (token_ok rfc_ctype) ts.
Proof.
  set (r := scan822 rfc_ctype ($$"a <b::c>") 0 0 []). exists (tokens_of r).
  assert (r = Some (tokens_of r, [], rfc_ctype)) as E by (vm_compute; reflexivity). split; [exact E|].
  exact (scan822_token_types rfc_ctype ($$"a <b::c>") 0 0 [] (tokens_of r) [] rfc_ctype E).
Defined.

(** ** Scanning and printing *)

(** A token as it stood in the line. *)
Definition raw_one (t : token822) : list Z :=
  if decide (t_type t = Comment) then $$"(" ++ t_pname t ++ $$")" else print_one false t.

Definition errorless (ts : list token822) : Prop := Forall (fun t => t_type t <> Error) ts.

Lemma adds_errorless tlist l : adds_errors tlist l -> errorless l -> l = tlist.
Proof.
  intros (es & -> & He) Hl. destruct es as [|e es]; [done|]. apply Forall_cons_1 in He as [He _].
  by apply Forall_cons_1 in Hl as [Hl _].
Qed.

(** A compound that is closed in its line. *)
Lemma closed_compound c cend type tlist rest :
  let k := _hdr_compound c cend type [] 1 1 tlist rest in
  k_closed k = true -> exists seg, k_segments k = [seg] /\ k_len k = 2 + Z.of_nat (length seg) /\ k_lines k = [] /\
    rest = seg ++ cend :: k_rest k.
Proof.
  cbn [_hdr_compound]. pose proof (compound_line_spec c cend type (length rest) rest 1 1 tlist (le_n _)) as H.
  destruct (compound_line _ _ _ _ _ _ _) as [[[[r| |] nest] len] tl]; [|done..].
  destruct H as [_ (seg & -> & ->)]. intros _. exists seg. cbn. rewrite length_app. cbn.
  replace (length seg + S (length r) - length r - 1)%nat with (length seg) by lia.
  rewrite take_app_length. split_and!; [done | lia | done | done].
Qed.

Lemma scan_one_raw tab tlist c rest st :
  (length (c :: rest) <= MAXTOKEN)%nat -> scan_one tab tlist c rest [] = Some st -> errorless st.1.1 ->
  exists t, st.1.1 = t :: tlist /\ raw_one t ++ st.1.2 = c :: rest /\ st.2 = [].
Proof.
  intros Hlen. destruct (scan_one_cases tab tlist c rest []) as
    [(type & k & tl & -> & _ & He & Hty & _) | (cend & type & Hd & ->)].
  - unfold cut. intros [= <-] Hl. cbn [fst snd] in *. apply Forall_cons_1 in Hl as [_ Hl].
    assert (tl = tlist) as -> by (destruct He as [-> | [msg ->]]; [done | eapply adds_errorless; [apply MKERROR_adds | done]]).
    eexists. split; [done|]. split; [|done]. unfold raw_one, copyToken. cbn [t_type t_pname].
    rewrite (take_ge (take k _)) by (rewrite length_take; lia).
    rewrite !elem_of_cons in Hty. destruct Hty as [-> | [-> | [-> | [-> | []%elem_of_nil]]]];
      (rewrite decide_False by done); cbn; rewrite app_nil_r; apply (take_drop k (c :: rest)).
  - unfold scan_compound. destruct (hdr_compound_errors c cend type [] 1 1 tlist rest) as (Ha & _ & Hc).
    pose proof (closed_compound c cend type tlist rest) as Hk.
    destruct (_hdr_compound _ _ _ _ _ _ _ _) as [segs cl len tl r ls]. cbn [k_segments k_closed k_len k_tlist k_rest k_lines] in *.
    intros H Hl. assert (errorless tl) as Htl.
    { destruct (match segs with [] => _ | _ => _ end); [|done]. cbn in H. injection H as <-. by apply Forall_cons_1 in Hl as [_ Hl]. }
    destruct cl; [|destruct (Hc eq_refl) as (msg & l & ->); by apply Forall_cons_1 in Htl as [? _]].
    destruct (Hk eq_refl) as (seg & -> & -> & -> & ->). apply (adds_errorless tlist) in Htl as ->; [|done].
    cbn [mbind option_bind] in H. injection H as <-. eexists. split; [done|]. split; [|done]. cbn [fst snd].
    cbn [length] in Hlen. rewrite length_app in Hlen. unfold copyToken. cbn [t_type t_pname].
    replace (Z.to_nat (2 + Z.of_nat (length seg) - 2)) with (length seg) by lia.
    rewrite take_take, take_ge by lia. rewrite (cons_middle cend seg r), app_assoc.
    enough (raw_one (Token seg type) = c :: seg ++ [cend]) as -> by done.
    unfold delimiters in Hd. repeat case_match; simplify_eq;
      match goal with H : (_ =? _) = true |- _ => apply Z.eqb_eq in H as -> end; done.
Qed.

Lemma scan_raw tab cur c1 c2 ts ls tab' : (length cur <= MAXTOKEN)%nat ->
  scan822 tab cur c1 c2 [] = Some (ts, ls, tab') -> errorless ts -> concat (raw_one <$> ts) = cur.
Proof.
  intros Hlen. unfold scan822. destruct cur as [|c cur]; [by intros [= <- _ _]|]. set (tab2 := special_if c2 _).
  destruct (tokens_loop tab2 _ _) as [st|] eqn:E; [|done].
  apply (tokens_loop_ind tab2 (fun st => st.2 = [] /\ (length st.1.2 <= MAXTOKEN)%nat /\
    (errorless st.1.1 -> concat (raw_one <$> reverse st.1.1) ++ st.1.2 = c :: cur))) in E as [(_ & _ & H) H0]; [| |by split_and!].
  - destruct st as [[tl cur'] ls']. cbn in *. intros [= <- _ _] Hl. rewrite <- H by by apply Forall_reverse. subst cur'.
    by rewrite app_nil_r.
  - intros tlist d rest lines st0 (Hls & Hle & HI) Hone. cbn [fst snd] in *. subst lines.
    split; [|split].
    + destruct (scan_one_single tab2 tlist d rest) as (tl & cur' & E'). rewrite E' in Hone. by injection Hone as <-.
    + destruct st0 as [[tl cur'] ls0]. apply scan_one_progress in Hone. unfold left_over in Hone. cbn in *. lia.
    + intros Hl. destruct (scan_one_raw tab2 tlist d rest st0 Hle Hone Hl) as (t & Et & Er & _).
      rewrite Et in *. apply Forall_cons_1 in Hl as [_ Hl].
      rewrite reverse_cons, fmap_app, concat_app. cbn. by rewrite app_nil_r, <- app_assoc, Er, HI.
Qed.

(** ** Printing into a buffer that grows *)

Lemma extend_spec d need buflen : 0 < buflen -> need <= buflen * 2 ^ Z.of_nat d ->
  exists b, extend d need buflen = Some b /\ need <= b /\ buflen <= b.
Proof.
  revert buflen. induction d as [|d IH]; intros buflen Hb Hn; cbn [extend].
  - cbn in Hn. rewrite (proj2 (Z.leb_le _ _)) by lia. exists buflen. split_and!; [done | lia | lia].
  - destruct (need <=? buflen) eqn:E; [apply Z.leb_le in E; exists buflen; split_and!; [done | lia | lia]|].
    destruct (IH (2 * buflen)) as (b & -> & ? & ?); [lia | |exists b; split_and!; [done | lia | lia]].
    rewrite Nat2Z.inj_succ, Z.pow_succ_r in Hn by lia. lia.
Qed.

Lemma print_one_length qs t : (length (print_one qs t) <= length (t_pname t) + 2)%nat.
Proof.
  unfold print_one. rewrite !length_app.
  assert (length (print_open qs t) <= 1)%nat by (unfold print_open; by destruct (t_type t), qs; cbn; lia).
  assert (length (print_close t) <= 1)%nat by (unfold print_close; by destruct (t_type t); cbn; lia). lia.
Qed.

Lemma print_one_longer qs t : (length (t_pname t) <= length (print_one qs t))%nat.
Proof. unfold print_one. rewrite !length_app. lia. Qed.

(** What printdToken() writes always fits, with the NUL behind it. *)
Lemma printdToken_spec qs ts : forall buflen out,
  Z.of_nat (length out) < buflen -> Z.of_nat (length (out ++ concat (print_one qs <$> ts))) + 3 < 2 ^ 31 ->
  exists buflen', printdToken qs buflen out ts = Some (out ++ concat (print_one qs <$> ts), buflen') /\
    Z.of_nat (length (out ++ concat (print_one qs <$> ts))) < buflen' /\ buflen <= buflen'.
Proof.
  induction ts as [|t ts IH]; intros buflen out Hb Hmax; cbn [printdToken fmap list_fmap concat] in *.
  - rewrite app_nil_r in *. exists buflen. split_and!; [done | done | lia].
  - pose proof (print_one_length qs t). pose proof (print_one_longer qs t).
    rewrite !length_app in Hmax.
    destruct (extend_spec 31 (Z.of_nat (length out) + 3 + Z.of_nat (length (t_pname t))) buflen) as (b & -> & Hb1 & Hb2); [lia | |].
    { change (2 ^ Z.of_nat 31) with (2 ^ 31). nia. }
    cbn [mbind option_bind]. destruct (IH b (out ++ print_one qs t)) as (b' & -> & H1 & H2).
    + rewrite length_app. lia.
    + rewrite !length_app. lia.
    + rewrite <- app_assoc in *. exists b'. split_and!; [done | done | lia].
Qed.

(** C31: Scanning and printing are inverse: when a line of at most
    [MAXTOKEN] characters is scanned without an error and has no comment,
    printdToken() gives back the line from its tokens, quotes and brackets
    included, and the buffer, of whatever size it was, has grown so that the
    line and the NUL fit in. *)
Theorem scan_print_round_trip (tab cur : list Z) (c1 c2 buflen : Z) ts ls tab' :
  (length cur <= MAXTOKEN)%nat -> 0 < buflen -> scan822 tab cur c1 c2 [] = Some (ts, ls, tab') ->
  errorless ts -> Forall (fun t => t_type t <> Comment) ts ->
  exists buflen', printdToken false buflen [] ts = Some (cur, buflen') /\
    Z.of_nat (length cur) < buflen' /\ buflen <= buflen'.
Proof.
  intros Hlen Hb Hs He Hc. pose proof (scan_raw _ _ _ _ _ _ _ Hlen Hs He) as Hraw.
  assert (print_one false <$> ts = raw_one <$> ts) as Eq.
  { apply list_fmap_ext. intros i t Ht. rewrite Forall_lookup in Hc. unfold raw_one.
    by rewrite (decide_False (P := t_type t = Comment)) by by eapply Hc. }
  destruct (printdToken_spec false ts buflen []) as (b & E & H1 & H2); rewrite ?Eq, ?app_nil_l, ?Hraw in *; [done | |by exists b].
  pose proof (inj_le _ _ Hlen) as H. change (Z.of_nat MAXTOKEN) with 50000 in H. lia.
Qed.

Lemma scan_print_round_trip_witness :
  exists ts buflen', scan822 rfc_ctype ($$"a.b@[10.0.0.1], c") 0 0 [] = Some (ts, [], rfc_ctype) /\
    printdToken false 4 [] ts = Some ($$"a.b@[10.0.0.1], c", buflen').
Proof.
  set (cur := $$"a.b@[10.0.0.1], c"). set (r := scan822 rfc_ctype cur 0 0 []). exists (tokens_of r).
  assert (r = Some (tokens_of r, [], rfc_ctype)) as E by (vm_compute; reflexivity).
  destruct (scan_print_round_trip rfc_ctype cur 0 0 4 (tokens_of r) [] rfc_ctype) as (b & Hp & _ & _).
  - unfold MAXTOKEN. cbn. lia.
  - done.
  - exact E.
  - unfold errorless. apply (bool_decide_unpack _). by vm_compute.
  - apply (bool_decide_unpack _). by vm_compute.
  - exists b. split; [exact E | exact Hp].
Defined.

(** ** Printing into buffers of a fixed size *)

(** formatToken() does not count the quotes, the blank and the
    parentheses right: it writes behind the end of its static buffer, by two
    bytes at most, exactly for the tokens whose text and type name have more
    than 2554 characters. *)
Theorem formatToken_overruns (t : token822) :
  let n := Z.of_nat (length (t_pname t)) + Z.of_nat (length (type_name (t_type t))) in
  Z.of_nat (length (formatToken t)) = Z.min (n + 6) (FORMAT_SIZE + 2) /\
  (FORMAT_SIZE < Z.of_nat (length (formatToken t)) <-> 2554 < n).
Proof.
  cbv zeta. set (name := Z.of_nat (length (type_name (t_type t)))).
  assert (0 <= name <= 13) as Hname by (subst name; destruct (t_type t); cbn; lia).
  assert (Z.of_nat (length (formatToken t)) = Z.min (Z.of_nat (length (t_pname t)) + name + 6) (FORMAT_SIZE + 2)) as ->.
  { unfold formatToken, FORMAT_SIZE. rewrite !length_app, length_take. fold name. cbn [length].
    change (length ($$"'")) with 1%nat. change (length ($$"' (")) with 3%nat. change (length ($$")")) with 1%nat.
    destruct (_ <=? _) eqn:E; [apply Z.leb_le in E | apply Z.leb_gt in E]; lia. }
  unfold FORMAT_SIZE. split; [done | lia].
Qed.

(** printToken() looks at the room in front of a token: a token that does not
    fit in is written all the same. *)
Lemma printToken_long_token size t qs : 1 < size ->
  (printToken_overruns size [t] qs <-> size <= Z.of_nat (length (print_one qs t))).
Proof.
  intros H. unfold printToken_overruns, printToken. cbn [printToken_loop length]. change (Z.of_nat 0) with 0.
  rewrite (proj2 (Z.ltb_lt _ _)) by lia. rewrite app_nil_l. lia.
Qed.

(** ** Printing folded *)

(** The characters that are not white space. *)
Definition solid (l : list Z) : list Z := filter (fun c => ascii_space c = false) l.

(** Every line break is the fold of a header field: white space stands behind it. *)
Fixpoint folded (l : list Z) : bool :=
  match l with
  | [] => true
  | c :: rest => (if c =? 10 then match rest with [] => false | d :: _ => (d =? 9) || (d =? $" ") end else true) && folded rest
  end.

Lemma folded_app a b : folded a = true -> folded b = true -> folded (a ++ b) = true.
Proof.
  intros Ha Hb. induction a as [|c a IH]; [done|]. cbn [folded app] in *. apply andb_prop in Ha as [Hc Ha].
  rewrite IH by done. destruct (c =? 10); [|done]. destruct a; [done|]. by rewrite andb_true_r.
Qed.

Lemma folded_free l : 10 ∉ l -> folded l = true.
Proof.
  induction l as [|c l IH]; [done|]. rewrite not_elem_of_cons. intros [Hc Hl]. cbn [folded].
  rewrite IH, (proj2 (Z.eqb_neq _ _)) by (done || lia). done.
Qed.

Lemma squeeze_solid l : forall skip, solid (squeeze skip l) = solid l.
Proof.
  unfold solid. induction l as [|c l IH]; intros skip; [done|]. cbn [squeeze]. destruct (ascii_space c) eqn:E.
  - rewrite (filter_cons_False _ c) by congruence. destruct skip; [done|]. by rewrite filter_cons_False.
  - rewrite !filter_cons_True by done. by rewrite IH.
Qed.

Lemma squeeze_no_LF l : forall skip, 10 ∉ squeeze skip l.
Proof.
  induction l as [|c l IH]; intros skip; [by apply not_elem_of_nil|]. cbn [squeeze]. destruct (ascii_space c) eqn:E.
  - destruct skip; [done|]. by apply not_elem_of_cons.
  - apply not_elem_of_cons. split; [by intros <- | done].
Qed.

Lemma fold_indent_spec foldcol : solid (fold_indent foldcol).1 = [] /\ folded (fold_indent foldcol).1 = true.
Proof.
  unfold fold_indent. destruct (foldcol <? 1) eqn:E; [done|]. apply Z.ltb_ge in E. cbn [fst].
  set (tabs := Z.to_nat (foldcol / 8)). set (blanks := Z.to_nat (foldcol - 8 * (foldcol / 8))).
  assert (tabs <> O \/ blanks <> O) as Hne by (subst tabs blanks; pose proof (Z.div_mod foldcol 8); lia).
  assert (forall n c, ascii_space c = true -> solid (replicate n c) = []) as Hs.
  { intros n c Hc. unfold solid. induction n as [|n IH]; [done|]. cbn [replicate]. rewrite filter_cons_False by congruence. done. }
  assert (forall n c, c <> 10 -> 10 ∉ replicate n c) as Hn.
  { intros n c Hc [Hx _]%elem_of_replicate. done. }
  split.
  - unfold solid. rewrite !filter_app. fold (solid (replicate tabs 9)). fold (solid (replicate blanks ($" "))). by rewrite !Hs.
  - cbn [app folded Z.eqb Pos.eqb]. rewrite folded_free.
    + destruct tabs, blanks; [naive_solver | done | done | done].
    + rewrite not_elem_of_app. split; by apply Hn.
Qed.

Lemma breakpoint_pos col cp : cp <> [] -> (1 <= breakpoint col cp)%nat.
Proof.
  intros Hne. unfold breakpoint. destruct (_ && _) eqn:E.
  - apply andb_prop in E as [E1%Z.ltb_lt E2%Z.ltb_lt]. destruct (break_back _ _); lia.
  - destruct cp; [done | cbn; lia].
Qed.

Lemma fold_loop_spec foldcol fuel : forall col cp, (length cp < fuel)%nat ->
  exists out col', fold_loop fuel col foldcol cp = Some (out, col') /\ solid out = solid cp /\ folded out = true.
Proof.
  pose proof (fold_indent_spec foldcol) as [Hi Hf].
  induction fuel as [|fuel IH]; intros col cp Hfuel; [lia|]. cbn [fold_loop]. set (n := breakpoint col cp).
  assert (folded (squeeze false (take n cp)) = true) as Hline by apply folded_free, squeeze_no_LF.
  assert (cp <> [] -> (1 <= n)%nat) as Hn by apply breakpoint_pos.
  pose proof (take_drop n cp) as Hcp. pose proof (length_drop cp n) as Hlen.
  destruct (drop n cp) as [|c rest] eqn:Ed.
  { rewrite app_nil_r in Hcp. eexists _, _. split; [done|]. split; [|done]. by rewrite squeeze_solid, Hcp. }
  assert (solid cp = solid (take n cp) ++ solid (drop (span ascii_space (c :: rest)) (c :: rest))) as ->.
  { rewrite <- Hcp at 1. unfold solid. rewrite filter_app. f_equal.
    destruct (span_app ascii_space (c :: rest)) as (w & r & -> & -> & Hw & _). rewrite drop_app_length, filter_app.
    replace (filter (fun d => ascii_space d = false) w) with (@nil Z); [done|]. symmetry.
    clear -Hw. induction w as [|d w IHw]; [done|]. cbn in Hw. apply andb_prop in Hw as [Hd Hw].
    rewrite filter_cons_False by congruence. by apply IHw. }
  assert (length (drop (span ascii_space (c :: rest)) (c :: rest)) < fuel)%nat as Hf2.
  { rewrite length_drop. destruct cp as [|x cp]; [by rewrite drop_nil in Ed|]. specialize (Hn ltac:(done)). cbn [length] in *. lia. }
  destruct (fold_indent foldcol) as [indent col2]. cbn [fst] in *.
  destruct (drop (span ascii_space (c :: rest)) (c :: rest)) as [|d l].
  - eexists _, _. split; [done|]. split; [|by apply folded_app].
    unfold solid in *. by rewrite filter_app, Hi, !app_nil_r, squeeze_solid.
  - destruct (IH col2 (d :: l) Hf2) as (out & col' & -> & Hs & Hfo). eexists _, _. split; [done|].
    split; [|by repeat apply folded_app]. unfold solid in *. rewrite !filter_app, Hi, Hs. cbn. f_equal. apply squeeze_solid.
Qed.

(** Folding loses no text: whatever the token, the columns and the
    width of a fold, fprintFold() ends; the characters it writes that are not
    white space are those of the token, with its quotes or brackets, in their
    order; and white space stands behind every line break it writes, so that
    the text stays one header field. *)
Theorem fprintFold_keeps_text (t : token822) (col foldcol : Z) :
  exists out col', fprintFold t col foldcol = Some (out, col') /\
    solid out = mark_open t ++ solid (t_pname t) ++ mark_close t /\ folded out = true.
Proof.
  unfold fprintFold. destruct (fold_loop_spec foldcol (S (length (t_pname t))) (col + 1) (t_pname t)) as (out & col' & -> & Hs & Hf); [lia|].
  eexists _, _. split; [done|].
  assert (forall l, l = mark_open t \/ l = mark_close t -> solid l = l /\ folded l = true) as Hm.
  { intros l [-> | ->]; [unfold mark_open | unfold mark_close]; by destruct (t_type t). }
  destruct (Hm (mark_open t)) as [Ho1 Ho2]; [by left|]. destruct (Hm (mark_close t)) as [Hc1 Hc2]; [by right|].
  split; [|by repeat apply folded_app]. unfold solid in *. by rewrite !filter_app, Ho1, Hs, Hc1.
Qed.

(** ** Unfolding *)

(** A character with no meaning of its own in a compound token. *)
Definition plain (c cend d : Z) : bool := negb ((d =? cend) || (d =? c) || (d =? 92) || (d =? 13) || (d =? 0)).

Lemma compound_line_plain c cend type seg : forall len tlist tail, forallb (plain c cend) seg = true ->
  compound_line c cend type 1 len tlist (seg ++ tail) = compound_line c cend type 1 (len + Z.of_nat (length seg)) tlist tail.
Proof.
  induction seg as [|d seg IH]; intros len tlist tail Hp; [by rewrite app_nil_l, Z.add_0_r|].
  cbn [forallb] in Hp. apply andb_prop in Hp as [Hd Hp]. unfold plain in Hd. rewrite !negb_orb in Hd.
  rewrite !andb_true_iff, !negb_true_iff in Hd. destruct Hd as [[[[H1 H2] H3] H4] _].
  cbn [app compound_line]. rewrite H1, H2, H3, H4, IH by done. f_equal. cbn [length]. lia.
Qed.

Lemma compound_plain c cend type final after more mid : forall first len tlist,
  Forall (fun s => forallb (plain c cend) s = true) (first :: mid ++ [final]) ->
  let segs := first :: mid ++ [final] in
  _hdr_compound c cend type (mid ++ (final ++ cend :: after) :: more) 1 len tlist first =
  Compound segs true (len + segments_cost segs + 1) tlist after more.
Proof.
  induction mid as [|line mid IH]; intros first len tlist Hp; pose proof Hp as [Hf Hm]%Forall_cons_1;
    cbn [app _hdr_compound]; cbv zeta.
  - pose proof (compound_line_plain c cend type first len tlist [] Hf) as E. rewrite app_nil_r in E. rewrite E. cbn [compound_line].
    apply Forall_cons_1 in Hm as [Hm _]. destruct more; cbn [_hdr_compound];
      rewrite compound_line_plain by done; cbn [compound_line]; rewrite Z.eqb_refl, length_app; cbn [length];
      replace (length final + S (length after) - length after - 1)%nat with (length final) by lia;
      rewrite take_app_length; cbn [k_segments k_closed k_len k_tlist k_rest k_lines segments_cost]; f_equal; lia.
  - pose proof (compound_line_plain c cend type first len tlist [] Hf) as E. rewrite app_nil_r in E. rewrite E. cbn [compound_line].
    rewrite IH by done. cbv zeta. cbn [k_segments k_closed k_len k_tlist k_rest k_lines].
    rewrite (segments_cost_cons first) by done. f_equal. lia.
Qed.

(** A quoted string, a domain literal or a comment may run over any
    number of lines: when its text is plain, it is one token without an error,
    in which each fold, with the white space that begins the next line, is one
    space; the scan goes on behind its closing character, and the lines behind
    are left.  A comment loses the spaces at its end. *)
Theorem folded_compound (tab : list Z) (c cend : Z) (type : TokenType) (tlist : list token822)
    (first final after : list Z) (mid more : list (list Z)) :
  delimiters c = Some (cend, type) ->
  has tab (Z.lor _w (Z.lor _r _l)) c = false -> has tab _s c = true ->
  Forall (fun s => forallb (plain c cend) s = true) (first :: mid ++ [final]) ->
  let text := unfolded first (mid ++ [final]) in
  scan_one tab tlist c first (mid ++ (final ++ cend :: after) :: more) =
  Some (copyToken (Token (if decide (type = Comment) then strip_spaces text else text) type) :: tlist, after, more).
Proof.
  intros Hd Hw Hs Hp. cbv zeta. rewrite !has_lor, !orb_false_iff in Hw. destruct Hw as (Hw & Hr & Hl).
  unfold scan_one. cbv zeta. rewrite Hw, Hr, Hl, Hs, Hd. unfold scan_compound. rewrite compound_plain by done.
  cbn [k_segments k_closed k_len k_tlist k_rest k_lines]. set (segs := mid ++ [final]).
  assert (exists s segs', segs = s :: segs') as (s & segs' & E) by (subst segs; destruct mid; by eexists _, _).
  rewrite E. unfold _unfold. rewrite <- E. rewrite unfold_lines_ok; [done | | lia].
  eapply Forall_impl; [exact Hp|]. intros l. apply forallb_impl. intros d. unfold plain, not_nul.
  rewrite !negb_true_iff, !orb_false_iff. tauto.
Qed.

Lemma folded_compound_witness :
  scan_one rfc_ctype [] ($"(") ($$"one") [$$"  two "; $$" three ) x"; $$"y"] =
  Some ([Token ($$"one two  three") Comment], $$" x", [$$"y"]).
Proof.
  refine (folded_compound rfc_ctype ($"(") ($")") Comment [] ($$"one") ($$" three ") ($$" x") [$$"  two "] [$$"y"] eq_refl eq_refl eq_refl _).
  repeat apply Forall_cons_2; try reflexivity. apply Forall_nil_2.
Defined.
