(* ===== verification/Policy.v ===== *)
(** * The policy database (policytest.c)

    Built without SPF, Whoson and embedded Perl, with IPv6.  The database
    file is the function [db] from keys to records; DNS, the rate tracker
    and inet_pton() are functions of the class [PolicyEnv], which take a
    clock, so that answers may change.  A key buffer is a list of bytes of
    its size; writing outside of it, and using a string that has been freed,
    ends the run.  A new buffer on the stack reads as zero.  Debug output is
    left out. *)

From Stdlib Require Import ZArith Lia.
From stdpp Require Import base tactics numbers list option gmap.
From S2P Require Import Prelude.

#[local] Open Scope Z_scope.

(** ** Data *)

Definition P_K_IPv4 : Z := 1.
Definition P_K_IPv6 : Z := 2.
Definition P_K_TAG : Z := 3.
Definition P_K_DOMAIN : Z := 4.
Definition P_K_USER : Z := 5.

Definition P_A_ALIAS : Z := 1.
Definition P_A_REJECTNET : Z := 2.
Definition P_A_FREEZENET : Z := 3.
Definition P_A_REJECTSOURCE : Z := 4.
Definition P_A_FREEZESOURCE : Z := 5.
Definition P_A_RELAYCUSTNET : Z := 7.
Definition P_A_RELAYTARGET : Z := 8.
Definition P_A_ACCEPTifMX : Z := 9.
Definition P_A_ACCEPTifDNS : Z := 10.
Definition P_A_SENDERokWithDNS : Z := 11.
Definition P_A_ACCEPTbutFREEZE : Z := 12.
Definition P_A_SENDERNoRelay : Z := 13.
Definition P_A_TestDnsRBL : Z := 14.
Definition P_A_MESSAGE : Z := 15.
Definition P_A_LocalDomain : Z := 16.
Definition P_A_InboundSizeLimit : Z := 17.
Definition P_A_OutboundSizeLimit : Z := 18.
Definition P_A_FullTrustNet : Z := 19.
Definition P_A_TrustRecipients : Z := 20.
Definition P_A_RcptDnsRBL : Z := 22.
Definition P_A_TestRcptDnsRBL : Z := 23.
Definition P_A_Filtering : Z := 25.
Definition P_A_MaxSameIpSource : Z := 26.
Definition P_A_CheckSPF : Z := 27.
Definition P_A_RateLimitMsgs : Z := 28.
Definition P_A_FirstAttr : Z := 2.
Definition P_A_LastAttr : Z := 28.

(** The flag of an attribute; the machine takes shift counts modulo 32. *)
Definition attr_flag (a : Z) : Z := Z.shiftl 1 (a mod 32).
Definition attr_flags (l : list Z) : Z := foldr (fun a r => Z.lor (attr_flag a) r) 0 l.

(** A string in the array of values; a freed one is still pointed to. *)
Inductive slot := Text (s : list Z) | Freed.
#[export] Instance slot_eq_dec : EqDecision slot.
Proof. solve_decision. Defined.

Inductive PolicyWhat :=
| POLICY_HELONAME | POLICY_SOURCEADDR | POLICY_SOURCEDOMAIN | POLICY_MAILFROM | POLICY_EXCESS | POLICY_RCPTTO
| POLICY_RCPTPOSTMASTER | POLICY_DATA | POLICY_DATAOK | POLICY_DATAABORT | POLICY_AUTHFAIL.

Record policystate := Policystate {
  has_db : bool;
  always_reject : bool;
  always_freeze : bool;
  always_accept : bool;
  full_trust : bool;
  trust_recipients : bool;
  sender_reject : bool;
  sender_freeze : bool;
  sender_norelay : bool;
  content_filter : Z;
  authuser : option (list Z);
  ratelabelbuf : list Z;
  request : Z;
  values : gmap Z slot;
  messages : gmap Z (list Z);
  message : option (list Z);
  rblmsg : option (list Z);
  ratelimitmsgsvalue : option (list Z);
  maxinsize : Z;
  maxoutsize : Z;
  maxsameiplimit : Z;
  islocaldomain : Z;
  clock : nat
}.

Definition set_always_reject (v : bool) (s : policystate) : policystate :=
  Policystate (has_db s) v (always_freeze s) (always_accept s) (full_trust s) (trust_recipients s)
    (sender_reject s) (sender_freeze s) (sender_norelay s) (content_filter s) (authuser s) (ratelabelbuf s)
    (request s) (values s) (messages s) (message s) (rblmsg s) (ratelimitmsgsvalue s) (maxinsize s)
    (maxoutsize s) (maxsameiplimit s) (islocaldomain s) (clock s).
Definition set_always_freeze (v : bool) (s : policystate) : policystate :=
  Policystate (has_db s) (always_reject s) v (always_accept s) (full_trust s) (trust_recipients s)
    (sender_reject s) (sender_freeze s) (sender_norelay s) (content_filter s) (authuser s) (ratelabelbuf s)
    (request s) (values s) (messages s) (message s) (rblmsg s) (ratelimitmsgsvalue s) (maxinsize s)
    (maxoutsize s) (maxsameiplimit s) (islocaldomain s) (clock s).
Definition set_always_accept (v : bool) (s : policystate) : policystate :=
  Policystate (has_db s) (always_reject s) (always_freeze s) v (full_trust s) (trust_recipients s)
    (sender_reject s) (sender_freeze s) (sender_norelay s) (content_filter s) (authuser s) (ratelabelbuf s)
    (request s) (values s) (messages s) (message s) (rblmsg s) (ratelimitmsgsvalue s) (maxinsize s)
    (maxoutsize s) (maxsameiplimit s) (islocaldomain s) (clock s).
Definition set_full_trust (v : bool) (s : policystate) : policystate :=
  Policystate (has_db s) (always_reject s) (always_freeze s) (always_accept s) v (trust_recipients s)
    (sender_reject s) (sender_freeze s) (sender_norelay s) (content_filter s) (authuser s) (ratelabelbuf s)
    (request s) (values s) (messages s) (message s) (rblmsg s) (ratelimitmsgsvalue s) (maxinsize s)
    (maxoutsize s) (maxsameiplimit s) (islocaldomain s) (clock s).
Definition set_trust_recipients (v : bool) (s : policystate) : policystate :=
  Policystate (has_db s) (always_reject s) (always_freeze s) (always_accept s) (full_trust s) v
    (sender_reject s) (sender_freeze s) (sender_norelay s) (content_filter s) (authuser s) (ratelabelbuf s)
    (request s) (values s) (messages s) (message s) (rblmsg s) (ratelimitmsgsvalue s) (maxinsize s)
    (maxoutsize s) (maxsameiplimit s) (islocaldomain s) (clock s).
Definition set_sender_reject (v : bool) (s : policystate) : policystate :=
  Policystate (has_db s) (always_reject s) (always_freeze s) (always_accept s) (full_trust s)
    (trust_recipients s) v (sender_freeze s) (sender_norelay s) (content_filter s) (authuser s)
    (ratelabelbuf s) (request s) (values s) (messages s) (message s) (rblmsg s) (ratelimitmsgsvalue s)
    (maxinsize s) (maxoutsize s) (maxsameiplimit s) (islocaldomain s) (clock s).
Definition set_sender_freeze (v : bool) (s : policystate) : policystate :=
  Policystate (has_db s) (always_reject s) (always_freeze s) (always_accept s) (full_trust s)
    (trust_recipients s) (sender_reject s) v (sender_norelay s) (content_filter s) (authuser s)
    (ratelabelbuf s) (request s) (values s) (messages s) (message s) (rblmsg s) (ratelimitmsgsvalue s)
    (maxinsize s) (maxoutsize s) (maxsameiplimit s) (islocaldomain s) (clock s).
Definition set_sender_norelay (v : bool) (s : policystate) : policystate :=
  Policystate (has_db s) (always_reject s) (always_freeze s) (always_accept s) (full_trust s)
    (trust_recipients s) (sender_reject s) (sender_freeze s) v (content_filter s) (authuser s) (ratelabelbuf
    s) (request s) (values s) (messages s) (message s) (rblmsg s) (ratelimitmsgsvalue s) (maxinsize s)
    (maxoutsize s) (maxsameiplimit s) (islocaldomain s) (clock s).
Definition set_content_filter (v : Z) (s : policystate) : policystate :=
  Policystate (has_db s) (always_reject s) (always_freeze s) (always_accept s) (full_trust s)
    (trust_recipients s) (sender_reject s) (sender_freeze s) (sender_norelay s) v (authuser s) (ratelabelbuf
    s) (request s) (values s) (messages s) (message s) (rblmsg s) (ratelimitmsgsvalue s) (maxinsize s)
    (maxoutsize s) (maxsameiplimit s) (islocaldomain s) (clock s).
Definition set_policy_user (v : option (list Z)) (s : policystate) : policystate :=
  Policystate (has_db s) (always_reject s) (always_freeze s) (always_accept s) (full_trust s)
    (trust_recipients s) (sender_reject s) (sender_freeze s) (sender_norelay s) (content_filter s) v
    (ratelabelbuf s) (request s) (values s) (messages s) (message s) (rblmsg s) (ratelimitmsgsvalue s)
    (maxinsize s) (maxoutsize s) (maxsameiplimit s) (islocaldomain s) (clock s).
Definition set_ratelabelbuf (v : list Z) (s : policystate) : policystate :=
  Policystate (has_db s) (always_reject s) (always_freeze s) (always_accept s) (full_trust s)
    (trust_recipients s) (sender_reject s) (sender_freeze s) (sender_norelay s) (content_filter s) (authuser
    s) v (request s) (values s) (messages s) (message s) (rblmsg s) (ratelimitmsgsvalue s) (maxinsize s)
    (maxoutsize s) (maxsameiplimit s) (islocaldomain s) (clock s).
Definition set_request (v : Z) (s : policystate) : policystate :=
  Policystate (has_db s) (always_reject s) (always_freeze s) (always_accept s) (full_trust s)
    (trust_recipients s) (sender_reject s) (sender_freeze s) (sender_norelay s) (content_filter s) (authuser
    s) (ratelabelbuf s) v (values s) (messages s) (message s) (rblmsg s) (ratelimitmsgsvalue s) (maxinsize
    s) (maxoutsize s) (maxsameiplimit s) (islocaldomain s) (clock s).
Definition set_values (v : gmap Z slot) (s : policystate) : policystate :=
  Policystate (has_db s) (always_reject s) (always_freeze s) (always_accept s) (full_trust s)
    (trust_recipients s) (sender_reject s) (sender_freeze s) (sender_norelay s) (content_filter s) (authuser
    s) (ratelabelbuf s) (request s) v (messages s) (message s) (rblmsg s) (ratelimitmsgsvalue s) (maxinsize
    s) (maxoutsize s) (maxsameiplimit s) (islocaldomain s) (clock s).
Definition set_messages (v : gmap Z (list Z)) (s : policystate) : policystate :=
  Policystate (has_db s) (always_reject s) (always_freeze s) (always_accept s) (full_trust s)
    (trust_recipients s) (sender_reject s) (sender_freeze s) (sender_norelay s) (content_filter s) (authuser
    s) (ratelabelbuf s) (request s) (values s) v (message s) (rblmsg s) (ratelimitmsgsvalue s) (maxinsize s)
    (maxoutsize s) (maxsameiplimit s) (islocaldomain s) (clock s).
Definition set_message (v : option (list Z)) (s : policystate) : policystate :=
  Policystate (has_db s) (always_reject s) (always_freeze s) (always_accept s) (full_trust s)
    (trust_recipients s) (sender_reject s) (sender_freeze s) (sender_norelay s) (content_filter s) (authuser
    s) (ratelabelbuf s) (request s) (values s) (messages s) v (rblmsg s) (ratelimitmsgsvalue s) (maxinsize
    s) (maxoutsize s) (maxsameiplimit s) (islocaldomain s) (clock s).
Definition set_rblmsg (v : option (list Z)) (s : policystate) : policystate :=
  Policystate (has_db s) (always_reject s) (always_freeze s) (always_accept s) (full_trust s)
    (trust_recipients s) (sender_reject s) (sender_freeze s) (sender_norelay s) (content_filter s) (authuser
    s) (ratelabelbuf s) (request s) (values s) (messages s) (message s) v (ratelimitmsgsvalue s) (maxinsize
    s) (maxoutsize s) (maxsameiplimit s) (islocaldomain s) (clock s).
Definition set_ratelimitmsgsvalue (v : option (list Z)) (s : policystate) : policystate :=
  Policystate (has_db s) (always_reject s) (always_freeze s) (always_accept s) (full_trust s)
    (trust_recipients s) (sender_reject s) (sender_freeze s) (sender_norelay s) (content_filter s) (authuser
    s) (ratelabelbuf s) (request s) (values s) (messages s) (message s) (rblmsg s) v (maxinsize s)
    (maxoutsize s) (maxsameiplimit s) (islocaldomain s) (clock s).
Definition set_maxinsize (v : Z) (s : policystate) : policystate :=
  Policystate (has_db s) (always_reject s) (always_freeze s) (always_accept s) (full_trust s)
    (trust_recipients s) (sender_reject s) (sender_freeze s) (sender_norelay s) (content_filter s) (authuser
    s) (ratelabelbuf s) (request s) (values s) (messages s) (message s) (rblmsg s) (ratelimitmsgsvalue s) v
    (maxoutsize s) (maxsameiplimit s) (islocaldomain s) (clock s).
Definition set_maxoutsize (v : Z) (s : policystate) : policystate :=
  Policystate (has_db s) (always_reject s) (always_freeze s) (always_accept s) (full_trust s)
    (trust_recipients s) (sender_reject s) (sender_freeze s) (sender_norelay s) (content_filter s) (authuser
    s) (ratelabelbuf s) (request s) (values s) (messages s) (message s) (rblmsg s) (ratelimitmsgsvalue s)
    (maxinsize s) v (maxsameiplimit s) (islocaldomain s) (clock s).
Definition set_maxsameiplimit (v : Z) (s : policystate) : policystate :=
  Policystate (has_db s) (always_reject s) (always_freeze s) (always_accept s) (full_trust s)
    (trust_recipients s) (sender_reject s) (sender_freeze s) (sender_norelay s) (content_filter s) (authuser
    s) (ratelabelbuf s) (request s) (values s) (messages s) (message s) (rblmsg s) (ratelimitmsgsvalue s)
    (maxinsize s) (maxoutsize s) v (islocaldomain s) (clock s).
Definition set_islocaldomain (v : Z) (s : policystate) : policystate :=
  Policystate (has_db s) (always_reject s) (always_freeze s) (always_accept s) (full_trust s)
    (trust_recipients s) (sender_reject s) (sender_freeze s) (sender_norelay s) (content_filter s) (authuser
    s) (ratelabelbuf s) (request s) (values s) (messages s) (message s) (rblmsg s) (ratelimitmsgsvalue s)
    (maxinsize s) (maxoutsize s) (maxsameiplimit s) v (clock s).
Definition set_clock (v : nat) (s : policystate) : policystate :=
  Policystate (has_db s) (always_reject s) (always_freeze s) (always_accept s) (full_trust s)
    (trust_recipients s) (sender_reject s) (sender_freeze s) (sender_norelay s) (content_filter s) (authuser
    s) (ratelabelbuf s) (request s) (values s) (messages s) (message s) (rblmsg s) (ratelimitmsgsvalue s)
    (maxinsize s) (maxoutsize s) (maxsameiplimit s) (islocaldomain s) v.

(** ** Running *)

Inductive policystop := Return (rc : Z) | UseAfterFree | Overrun | Aborted | NoFuel.
Abbreviation pol := (EX policystate policystop).

(** The body of a C function that returns a number. *)
Definition fn (body : pol Z) : pol Z :=
  fun s => match body s with (inl (Return rc), s') => (inr rc, s') | r => r end.
Abbreviation ret rc := (exit (Return rc)).
Definition ret_if (b : bool) (rc : Z) : pol unit := if b then ret rc else mret tt.

Inductive sockaddr := NoAddr | V4 (a : list Z) | V6 (a : list Z) | OtherFamily.

Class PolicyEnv := {
  db : list Z -> option (list Z);
  percent_accept : Z;
  matchmyaddress : sockaddr -> bool;
  inet_pton4 : list Z -> option (list Z);
  inet_pton6 : list Z -> option (list Z);
  (** dnsmxlookup(): the result, and state->islocaldomain if it is set *)
  dnsmxlookup : nat -> list Z -> bool -> Z * option Z;
  (** gethostbyname(): the address as a text; and a TXT record *)
  gethostbyname : nat -> list Z -> option (list Z);
  txt_lookup : nat -> list Z -> option (list Z);
  (** call_rate_counter(): the result and the two counters *)
  call_rate_counter : nat -> Z -> PolicyWhat -> Z * Z * Z
}.

(** Ask the outside world. *)
Definition ask {A} (f : nat -> A) : pol A :=
  c ← read clock; update (set_clock (S c));; mret (f c).

Definition getv (a : Z) : pol (option (list Z)) :=
  v ← read values;
  match v !! a with
  | None => mret None
  | Some (Text s) => mret (Some s)
  | Some Freed => exit UseAfterFree
  end.

(** [values[a] != NULL] *)
Definition isset (a : Z) : pol bool := v ← read values; mret (bool_decide (is_Some (v !! a))).
Definition setv (a : Z) (s : list Z) : pol unit := v ← read values; update (set_values (<[a := Text s]> v)).
(** [if (values[a]) free(values[a])] in front of an assignment *)
Definition freev (a : Z) : pol unit :=
  v ← read values; match v !! a with Some Freed => exit UseAfterFree | _ => mret tt end.

Definition valueeq (a : Z) (s : list Z) : pol bool :=
  v ← getv a; mret (bool_decide (v = Some s)).

Definition PICK_PA_MSG (a : Z) : pol unit :=
  m ← read messages;
  update (set_message (m !! a));;
  update (set_messages (delete a m)).

Definition set_if_none_message (t : list Z) : pol unit :=
  m ← read message; if m is None then update (set_message (Some t)) else mret tt.

(** ** Texts *)

Definition strlower (s : list Z) : list Z := tolower <$> s.

(** A number for sscanf: [Some] value and what is left. *)
Definition digit_value (c : Z) : Z :=
  if isdigit c then c - $"0" else if islower c then c - $"a" + 10 else if isupper c then c - $"A" + 10 else 99.

Fixpoint scan_digits (base : Z) (acc : Z) (some : bool) (l : list Z) : option (Z * list Z) :=
  match l with
  | c :: l' =>
      if digit_value c <? base then scan_digits base (acc * base + digit_value c) true l'
      else if some then Some (acc, l) else None
  | [] => if some then Some (acc, []) else None
  end.

Definition signed (f : list Z -> option (Z * list Z)) (l : list Z) : option (Z * list Z) :=
  match drop (span isspace l) l with
  | c :: l' =>
      if c =? $"-" then '(n, r) ← f l'; Some (- n, r)
      else if c =? $"+" then f l'
      else f (c :: l')
  | [] => None
  end.

(** [%d] and [%li] *)
Definition scan_d : list Z -> option (Z * list Z) := signed (scan_digits 10 0 false).
Definition scan_li : list Z -> option (Z * list Z) :=
  signed (fun l => match l with
    | z :: x :: l' =>
        if (z =? $"0") && (tolower x =? $"x") then scan_digits 16 0 false l'
        else if z =? $"0" then scan_digits 8 0 true (x :: l')
        else scan_digits 10 0 false l
    | _ => scan_digits 10 0 false l
    end).

(** ** Reading the database *)

Section policy.
Context {PE : PolicyEnv}.

(** dbquery(rel, &key[0], key[0], &rlen) *)
Definition dbquery (key : list Z) : option (list Z) := db (take (Z.to_nat (hd 0 key)) key).

(** The part of resolveattributes() for one attribute that is not an alias
    or a message. *)
Definition store_attribute (a : Z) (text : list Z) (msg : option (list Z)) : pol unit :=
  let interest := attr_flag a in
  req ← read request;
  if Z.land interest req =? 0 then mret tt
  else
    update (set_request (Z.land req (Z.lnot interest)));;
    (if (P_A_FirstAttr <=? a) && (a <=? P_A_LastAttr) then
       m ← read messages;
       update (set_messages (match msg with Some t => <[a := t]> m | None => delete a m end))
     else mret tt);;
    if a =? P_A_InboundSizeLimit then
      if scan_li text is Some (n, _) then update (set_maxinsize n) else mret tt
    else if a =? P_A_OutboundSizeLimit then
      if scan_li text is Some (n, _) then update (set_maxoutsize n) else mret tt
    else if a =? P_A_MaxSameIpSource then
      if scan_li text is Some (n, _) then update (set_maxsameiplimit n) else mret tt
    else
      let sign := (hd 0 text =? $"+") || (hd 0 text =? $"-") in
      if P_A_LastAttr <? a then if sign then mret tt else exit Overrun
      else
        set ← isset a;
        if set : bool then mret tt
        else if negb sign || (P_A_FirstAttr <=? a) then setv a text
        else mret tt.

(** The loop over the attributes of a record. *)
Fixpoint attr_loop (alias : list Z -> pol unit) (fuel : nat) (str : list Z) (msgstr : option (list Z)) : pol unit :=
  match fuel with
  | O => mret tt
  | S fuel =>
      if (length str <=? 3)%nat then mret tt
      else if nth 0 str 0 <? 3 then mret tt
      else
        let a := nth 1 str 0 in
        let text := cstr (drop 2 str) in
        let rest := drop (Z.to_nat (nth 0 str 0)) str in
        if a =? P_A_ALIAS then alias text;; attr_loop alias fuel rest msgstr
        else
          (if a =? P_A_MESSAGE then mret tt else store_attribute a text msgstr);;
          req ← read request;
          if req =? 0 then mret tt
          else attr_loop alias fuel rest (if a =? P_A_MESSAGE then Some text else None)
  end.

(** The key buffer of an alias. *)
Definition alias_key (text : list Z) : list Z :=
  let name := take 253 text in
  ((Z.of_nat (length text) + 3) mod 256) :: P_K_TAG :: strlower name ++ repeat 0 (254 - length name).

(** [recursions] counts the aliases that may still be followed. *)
Fixpoint resolve (recursions : nat) (key : list Z) : pol Z :=
  match dbquery key with
  | None => mret (-1)
  | Some str =>
      attr_loop (fun text => match recursions with O => mret tt | S r => resolve r (alias_key text);; mret tt end)
        (length str) str None;;
      mret 0
  end.

Definition resolveattributes (recursions : nat) (key : list Z) : pol Z :=
  v ← read values;
  (if bool_decide (Freed ∈ (map_to_list v).*2) then exit UseAfterFree else mret tt);;
  update (set_values ∅);;
  update (set_messages ∅);;
  resolve recursions key.

(** ** checkaddr() *)

Definition MAXRECURSIONS : nat := 5.

(** mask_ip_bits() on the bytes behind the first two of a key. *)
Definition mask_ip_bits (width maxwidth : Z) (key : list Z) : list Z :=
  let bytemaxwidth := Z.shiftr maxwidth 3 in
  let bytewidth := Z.shiftr (width + 7) 3 in
  let key := foldl (fun k i => if (bytewidth <=? i) && (i <? bytemaxwidth) then <[Z.to_nat (2 + i) := 0]> k else k)
               key (Z.of_nat <$> seq 0 16) in
  let i := 8 - Z.land width 7 in
  let bytewidth := Z.shiftr width 3 in
  if i =? 8 then key
  else
    let j := Z.to_nat (2 + bytewidth) in
    <[j := Z.land (nth j key 0) (Z.land (Z.shiftl 0xFF i) 0xFF)]> key.

(** The loop over the widths, from all bits to none. *)
Fixpoint width_loop (n : nat) (countmax : Z) (pbuf : list Z) : pol (Z * list Z) :=
  match n with
  | O => mret (1, pbuf)
  | S n =>
      result ← resolveattributes MAXRECURSIONS pbuf;
      if result =? 0 then mret (0, pbuf)
      else
        let count := countmax + 1 - Z.of_nat n in
        let pbuf := mask_ip_bits (countmax - count) countmax pbuf in
        width_loop n countmax
          (if nth 1 pbuf 0 =? P_K_IPv4 then <[6%nat := (32 - count) mod 256]> pbuf
           else <[18%nat := (128 - count) mod 256]> pbuf)
  end.

Definition checkaddr (pbuf : list Z) : pol Z :=
  let k := nth 1 pbuf 0 in
  if (k =? P_K_DOMAIN) || (k =? P_K_USER) then resolveattributes MAXRECURSIONS pbuf
  else
    let countmax := if k =? P_K_IPv4 then 32 else 128 in
    '(result, pbuf) ← width_loop (Z.to_nat countmax + 1) countmax pbuf;
    result ← (if negb (result =? 0) && (nth 1 pbuf 0 =? P_K_IPv6)
              then resolveattributes MAXRECURSIONS ([7; P_K_IPv4; 0; 0; 0; 0; 0] ++ drop 7 pbuf)
              else mret result);
    mret (if result =? 0 then 0 else -1).

(** ** Lookups in the DNS (mxverify.c) *)

Definition hex_digit (n : Z) : Z := if n <? 10 then $"0" + n else $"a" + n - 10.

Definition decimal_byte (n : Z) : list Z :=
  if n <? 10 then [$"0" + n]
  else if n <? 100 then [$"0" + n / 10; $"0" + n mod 10]
  else [$"0" + n / 100; $"0" + n / 10 mod 10; $"0" + n mod 10].

(** The reversed address in front of the name of a block list. *)
Definition rbl_prefix (ipaf : Z) (ipaddr : list Z) : list Z :=
  if ipaf =? P_K_IPv4 then
    concat ((fun b => decimal_byte b ++ [$"."]) <$> reverse (take 4 ipaddr))
  else
    concat ((fun b => [hex_digit (Z.land b 0x0F); $"."; hex_digit (Z.shiftr b 4); $"."]) <$> reverse (take 16 ipaddr))
    ++ $$"ip6.".

(** The names of the lists are separated by colons. *)
Fixpoint pieces (acc l : list Z) : list (list Z) :=
  match l with
  | [] => [reverse acc]
  | c :: l' =>
      if c =? $":" then reverse acc :: match l' with [] => [] | _ => pieces [] l' end
      else pieces (c :: acc) l'
  end.
Definition rbl_names (l : list Z) : list (list Z) := match l with [] => [] | _ => pieces [] l end.

Definition final_dot (s : list Z) : list Z := if last s is Some 46 then s else s ++ [$"."].

(** Characters that are not printable in ISO 8859 become spaces. *)
Definition printable (c : Z) : Z :=
  if (c <? 32) || ((127 <=? c) && (c <? 160)) || (c =? 255) then $" " else c.

(** The result, and a new message if there is one. *)
Fixpoint rbl_loop (prefix : list Z) (names : list (list Z)) : pol (Z * option (list Z)) :=
  match names with
  | [] => mret (0, None)
  | n :: names =>
      let hbuf := final_dot (prefix ++ n) in
      hp ← ask (fun c => gethostbyname c hbuf);
      match hp with
      | None => rbl_loop prefix names
      | Some abuf =>
          if negb (bool_decide (take 8 abuf = $$"127.0.0.")) then rbl_loop prefix names
          else
            t ← ask (fun c => txt_lookup c hbuf);
            mret (-1, (fun s : list Z => printable <$> s) <$> t)
      end
  end.

Definition rbl_dns_test (ipaf : Z) (ipaddr rbldomain : list Z) : pol (Z * option (list Z)) :=
  rbl_loop (rbl_prefix ipaf ipaddr) (rbl_names rbldomain).

Definition EX_TEMPFAIL : Z := 75.
Definition EX_NOHOST : Z := 68.
Definition EX_UNAVAILABLE : Z := 69.
Definition EAI_NODATA : Z := -5.
Definition EAI_NONAME : Z := -2.

Definition mx_lookup (domain : list Z) (mxmode : bool) : pol Z :=
  '(rc, l) ← ask (fun c => dnsmxlookup c domain mxmode);
  (if l is Some v then update (set_islocaldomain v) else mret tt);;
  mret rc.

Definition mx_client_verify (retmode : Z) (domain : list Z) : pol Z :=
  rc ← mx_lookup (take 1998 domain) true;
  mret (if rc =? 1 then 0
        else if rc =? - EX_TEMPFAIL then -104
        else if rc =? 2 then -3
        else if retmode =? $"+" then if (rc =? - EX_NOHOST) || (rc =? - EX_UNAVAILABLE) then -2 else -102
        else -2).

Definition sender_dns_verify (retmode : Z) (domain : list Z) : pol Z :=
  rc ← mx_lookup (take 498 domain) false;
  mret (if rc =? 1 then 0
        else if rc =? - EX_TEMPFAIL then -104
        else if rc =? 2 then -3
        else if retmode =? $"+" then
          if (rc =? - EX_NOHOST) || (rc =? - EX_UNAVAILABLE) || (rc =? EAI_NODATA) || (rc =? EAI_NONAME) then -2 else -102
        else -2).

Definition client_dns_verify (retmode : Z) (domain : list Z) : pol Z := sender_dns_verify retmode domain.

(** ** _addrtest_() *)

Definition blackholed : list Z := $$"Your network address is blackholed in our static tables".
Definition go_away : list Z := $$"You are on our reject-IP-address -list, GO AWAY!".

Definition addr_filter : pol unit :=
  v ← getv P_A_Filtering;
  match v with
  | None => mret tt
  | Some s => update (set_content_filter (if bool_decide (s = $$"+") then 1 else 0))
  end.

(** The address is one of ours, and a local domain is looked for. *)
Definition addr_local : pol Z :=
  freev P_A_LocalDomain;; setv P_A_LocalDomain ($$"+");;
  freev P_A_RELAYTARGET;; setv P_A_RELAYTARGET ($$"+");;
  freev P_A_TestDnsRBL;;
  freev P_A_RcptDnsRBL;;
  v ← read values;
  update (set_values (delete P_A_TestDnsRBL (delete P_A_RcptDnsRBL v)));;
  addr_filter;;
  ret 0.

(** What the address of a client says about it. *)
Definition addr_source : pol unit :=
  update (set_message None);;
  b ← valueeq P_A_REJECTNET ($$"+");
  (if b : bool then
     PICK_PA_MSG P_A_REJECTNET;; set_if_none_message blackholed;;
     update (set_always_reject true);; ret (-1)
   else mret tt);;
  b ← valueeq P_A_FREEZENET ($$"+");
  (if b : bool then
     PICK_PA_MSG P_A_FREEZENET;; set_if_none_message blackholed;;
     update (set_always_freeze true);; ret 1
   else mret tt);;
  b ← valueeq P_A_TrustRecipients ($$"+");
  (if b : bool then update (set_trust_recipients true);; PICK_PA_MSG P_A_TrustRecipients else mret tt);;
  b ← valueeq P_A_FullTrustNet ($$"+");
  (if b : bool then update (set_full_trust true);; PICK_PA_MSG P_A_FullTrustNet else mret tt);;
  b ← valueeq P_A_RELAYCUSTNET ($$"+");
  (if b : bool then update (set_always_accept true);; PICK_PA_MSG P_A_RELAYCUSTNET else mret tt);;
  addr_filter;;
  s ← read (fun s => trust_recipients s || full_trust s || always_accept s);
  ret_if s 0.

(** The checks against block lists. *)
Definition addr_rbl (ipaf : Z) (ipaddr : list Z) : pol Z :=
  addr_filter;;
  t ← getv P_A_TestDnsRBL;
  match t with
  | Some l =>
      if bool_decide (l = $$"-") then mret tt
      else
        '(rc, m) ← rbl_dns_test ipaf ipaddr l;
        (if m is Some _ then update (set_message m) else mret tt);;
        m ← read message;
        (if (rc <? 0) && bool_decide (m = None) then PICK_PA_MSG P_A_TestDnsRBL else mret tt);;
        ret rc
  | None => mret tt
  end;;
  r ← getv P_A_RcptDnsRBL;
  match r with
  | Some (95 :: l) =>
      (if hd 0 l =? $"+" then mret tt else update (set_rblmsg (Some l)));;
      ret 0
  | Some l =>
      if bool_decide (l = $$"-") then mret tt
      else
        '(rc, m) ← rbl_dns_test ipaf ipaddr l;
        (if m is Some _ then update (set_rblmsg m) else mret tt);;
        m ← read rblmsg;
        (if (rc <? 0) && bool_decide (m = None) then
           ms ← read messages;
           update (set_rblmsg (Some (default go_away (ms !! P_A_RcptDnsRBL))));;
           update (set_messages (delete P_A_RcptDnsRBL ms))
         else mret tt);;
        ret 0
  | None => mret tt
  end;;
  mret 0.

(** The address in a key; of an IPv6 address only four bytes are copied. *)
Definition key_address (pbuf : list Z) : sockaddr :=
  if nth 1 pbuf 0 =? P_K_IPv4 then V4 (take 4 (drop 2 pbuf))
  else if nth 1 pbuf 0 =? P_K_IPv6 then V6 (take 4 (drop 2 pbuf) ++ repeat 0 12)
  else NoAddr.

Definition source_flags : Z :=
  attr_flags [P_A_REJECTNET; P_A_FREEZENET; P_A_RELAYCUSTNET; P_A_InboundSizeLimit; P_A_OutboundSizeLimit;
         P_A_FullTrustNet; P_A_TrustRecipients; P_A_Filtering; P_A_RateLimitMsgs; P_A_MaxSameIpSource].
Definition rbl_flags : Z := attr_flags [P_A_TestDnsRBL; P_A_RcptDnsRBL; P_A_CheckSPF].

Definition _addrtest_ (pbuf : list Z) (sourceaddr : bool) : pol Z :=
  fn (
  let ipaddr := if nth 1 pbuf 0 =? P_K_IPv4 then take 4 (drop 2 pbuf) else take 16 (drop 2 pbuf) in
  let ipaf := nth 1 pbuf 0 in
  lcldom ← read (fun s => negb (Z.land (request s) (attr_flag P_A_LocalDomain) =? 0));
  let myaddress := matchmyaddress (key_address pbuf) in
  (if sourceaddr then update (set_request source_flags) else mret tt);;
  (if myaddress then mret tt else req ← read request; update (set_request (Z.lor req rbl_flags)));;
  update (set_maxinsize (-1));;
  update (set_maxoutsize (-1));;
  found ← checkaddr pbuf;
  ret_if (negb (found =? 0)) 0;;
  rate ← getv P_A_RateLimitMsgs;
  (if rate is Some _ then update (set_ratelimitmsgsvalue rate);; PICK_PA_MSG P_A_RateLimitMsgs else mret tt);;
  (if myaddress && lcldom then addr_local;; mret tt else mret tt);;
  (if sourceaddr then addr_source else mret tt);;
  addr_rbl ipaf ipaddr).

(** ** policytestaddr() *)

Definition hex2 (b : Z) : list Z := [hex_digit (Z.shiftr b 4); hex_digit (Z.land b 15)].

Definition zv4mapprefix : list Z := [0; 0; 0; 0; 0; 0; 0; 0; 0; 0; 0xFF; 0xFF].

(** The key for an address. *)
Definition address_key (raddr : sockaddr) : option (list Z) :=
  match raddr with
  | V4 a => Some ([7; P_K_IPv4] ++ take 4 a ++ [32])
  | V6 a =>
      if bool_decide (take 12 a = zv4mapprefix) then Some ([7; P_K_IPv4] ++ take 4 (drop 12 a) ++ [32])
      else Some ([19; P_K_IPv6] ++ take 16 a ++ [128])
  | _ => None
  end.

Definition policytestaddr (raddr : sockaddr) : pol Z :=
  fn (
  h ← read has_db;
  ret_if (negb h) 0;;
  update (set_message None);;
  match raddr with
  | NoAddr => update (set_full_trust true);; ret 0
  | _ => mret tt
  end;;
  match address_key raddr with
  | None => ret (-2)
  | Some key =>
      let v4 := nth 1 key 0 =? P_K_IPv4 in
      update (set_ratelabelbuf ((if v4 then $$"4:" else $$"6:") ++ concat (hex2 <$> take (if v4 then 4 else 16) (drop 2 key))));;
      update (set_request 0);;
      update (set_content_filter (-1));;
      _addrtest_ (key ++ repeat 0 (64 - length key)) true
  end).

(** ** check_domain() *)

(** strlower() on the string at the head of a buffer. *)
Definition lower_string (b : list Z) : list Z := strlower (cstr b) ++ drop (strlen b) b.

(** A key buffer with a text in it. *)
Definition key_buffer (size : nat) (text : list Z) : list Z :=
  [0; 0] ++ lower_string (text ++ repeat 0 (size - 2 - length text)).

Definition set_policy_key (len kind : Z) (b : list Z) : list Z := <[0%nat := len mod 256]> (<[1%nat := kind]> b).

(** [for (i = pbuf[0]; i >= 2; --i) pbuf[i+1] = pbuf[i]] *)
Fixpoint shift_loop (i : nat) (b : list Z) : option (list Z) :=
  match i with
  | O | S O => Some b
  | S j => if (S i <? length b)%nat then shift_loop j (<[S i := nth i b 0]> b) else None
  end.

(** A dot in front of the name. *)
Definition add_dot (b : list Z) : option (list Z) :=
  b ← shift_loop (Z.to_nat (hd 0 b)) b;
  Some (<[0%nat := (hd 0 b + 1) mod 256]> (<[2%nat := $"."]> b)).

(** Behind the next dot; [None] when everything is examined. *)
Definition next_suffix (b : list Z) : option (list Z) :=
  let name := cstr (drop 3 b) in
  let n := span (fun c => negb (c =? $".")) name in
  match drop n name with
  | [] =>
      if (nth 2 b 0 =? $".") && (nth 3 b 0 =? 0) then None
      else Some (<[2%nat := $"."]> (<[3%nat := 0]> b))
  | _ :: rest => Some (take 3 b ++ rest ++ [0] ++ drop (4 + length rest) b)
  end.

Definition set_length (b : list Z) : list Z := <[0%nat := Z.of_nat (strlen (drop 2 b) + 3) mod 256]> b.

Fixpoint suffix_loop (fuel : nat) (pbuf : list Z) : pol Z :=
  match fuel with
  | O => exit NoFuel
  | S fuel =>
      result ← checkaddr pbuf;
      if result =? 0 then mret 0
      else if negb (nth 2 pbuf 0 =? $".") then
        match add_dot pbuf with
        | None => exit Overrun
        | Some pbuf => suffix_loop fuel pbuf
        end
      else
        match next_suffix pbuf with
        | None => mret 0
        | Some pbuf => suffix_loop fuel (set_length pbuf)
        end
  end.

(** The rest of a literal up to the bracket. *)
Definition literal_text (n : nat) (b : list Z) : list Z :=
  let s := cstr (drop 3 b) in
  let e := span (fun c => negb (c =? $"]")) s in
  cstr (drop n (<[(3 + e)%nat := 0]> b)).

Definition put_address (a : option (list Z)) (b : list Z) : list Z :=
  match a with Some a => take 2 b ++ a ++ drop (2 + length a) b | None => b end.

Definition DOMAIN_FUEL : nat := 600.

Definition check_domain (input : list Z) (inlen : nat) : pol Z :=
  let addr_len := Nat.min inlen 253 in
  let pbuf := key_buffer 256 (take addr_len input) in
  if nth 2 pbuf 0 =? $"[" then
    if bool_decide (take 4 (drop 3 pbuf) = $$"ipv6") then
      _addrtest_ (<[18%nat := 128]> (set_policy_key 19 P_K_IPv6 (put_address (inet_pton6 (literal_text 8 pbuf)) pbuf))) false
    else
      _addrtest_ (<[6%nat := 32]> (set_policy_key 7 P_K_IPv4 (put_address (inet_pton4 (literal_text 3 pbuf)) pbuf))) false
  else suffix_loop DOMAIN_FUEL (set_policy_key (Z.of_nat addr_len + 3) P_K_DOMAIN pbuf).

(** ** check_user() *)

(** The first unquoted [chr] in the first [inlen] characters. *)
Fixpoint find_nonqchr (quote : bool) (chr : Z) (inlen : nat) (input : list Z) : option nat :=
  match inlen, input with
  | S inlen, c :: input' =>
      let quote := if c =? 34 then negb quote else quote in
      if c =? 92 then
        match inlen, input' with
        | S inlen, _ :: input'' => (fun n => (n + 2)%nat) <$> find_nonqchr quote chr inlen input''
        | _, _ => None
        end
      else if (c =? chr) && negb quote then Some 0%nat
      else S <$> find_nonqchr quote chr inlen input'
  | _, _ => None
  end.

Definition check_user (input : list Z) (inlen : nat) : pol Z :=
  let inlen := Nat.min inlen 509 in
  let pbuf := key_buffer 512 (take inlen input) in
  match find_nonqchr false ($"@") inlen (drop 2 pbuf) with
  | None => mret 0
  | Some at_ =>
      result ← checkaddr (set_policy_key (Z.of_nat inlen + 3) P_K_USER pbuf);
      if result =? 0 then mret 0
      else checkaddr (set_policy_key (Z.of_nat at_ + 4) P_K_USER (<[(at_ + 3)%nat := 0]> pbuf))
  end.

(** ** The tests *)

Definition plus : list Z := $$"+".
Definition minus : list Z := $$"-".

(** [if (valueeq(state->values[a], "+")) { act; PICK_PA_MSG(a); return rc; }] *)
Definition on_plus (a : Z) (act : policystate -> policystate) (rc : Z) : pol unit :=
  b ← valueeq a plus;
  if b : bool then update act;; PICK_PA_MSG a;; ret rc else mret tt.

Definition pt_heloname (str : list Z) (len : nat) : pol Z :=
  fn (
  s ← read id;
  ret_if (always_reject s) (-1);;
  ret_if (always_freeze s) 1;;
  ret_if (always_accept s) 0;;
  ret_if (full_trust s || bool_decide (is_Some (authuser s))) 0;;
  if hd 0 str =? $"[" then mret 0
  else
    update (set_request (attr_flags [P_A_REJECTNET; P_A_FREEZENET]));;
    check_domain str len;;
    on_plus P_A_REJECTNET (set_always_reject true) (-1);;
    on_plus P_A_FREEZENET (set_always_freeze true) 1;;
    mret 0).

Definition pt_sourcedomain (str : list Z) (len : nat) : pol Z :=
  fn (
  s ← read id;
  ret_if (always_reject s) (-1);;
  ret_if (always_freeze s) 1;;
  ret_if (full_trust s || bool_decide (is_Some (authuser s))) 0;;
  update (set_request (attr_flags [P_A_REJECTNET; P_A_FREEZENET; P_A_RELAYCUSTNET; P_A_InboundSizeLimit;
                              P_A_OutboundSizeLimit; P_A_RcptDnsRBL]));;
  check_domain str len;;
  on_plus P_A_REJECTNET (set_always_reject true) (-1);;
  on_plus P_A_FREEZENET (set_always_freeze true) 1;;
  s ← read id;
  ret_if (always_accept s) 0;;
  on_plus P_A_RELAYCUSTNET (set_always_accept true) 0;;
  on_plus P_A_FullTrustNet (set_full_trust true) 0;;
  m ← read rblmsg;
  (if bool_decide (m = None) then
     r ← getv P_A_RcptDnsRBL;
     match r with
     | Some (95 :: l) =>
         (if hd 0 l =? $"+" then mret tt else update (set_rblmsg (Some l)));;
         v ← read values;
         update (set_values (<[P_A_RcptDnsRBL := Freed]> v));;
         ret 0
     | _ => mret tt
     end
   else mret tt);;
  mret 0).

(** The limits of a client whose address is accepted. *)
Definition too_much : list Z :=
  $$"You are sending too much mail/rcpts per time interval.  Try again latter.".

Definition scan_limits (s : list Z) : option (Z * Z) :=
  match scan_d s with
  | Some (l1, 44 :: r) => if scan_d r is Some (l2, _) then Some (l1, l2) else Some (l1, 0)
  | Some (l1, _) => Some (l1, 0)
  | None => None
  end.

Definition over_limit (limit count : Z) : option Z :=
  if (limit <? 0) && (- limit <=? count) then Some (-1)
  else if (0 <? limit) && (limit <=? count) then Some (-100)
  else None.

Definition mailfrom_rate : pol unit :=
  s ← read id;
  match ratelimitmsgsvalue s with
  | Some l =>
      if always_accept s then
        match scan_limits l with
        | None => mret tt
        | Some (l1, l2) =>
            let k := if authuser s is Some _ then 10 else 1 in
            '(rc, count, _) ← ask (fun c => call_rate_counter c 0 POLICY_MAILFROM);
            if rc =? 0 then
              match match over_limit (l1 * k) count with Some r => Some r | None => over_limit (l2 * k) count end with
              | None => mret tt
              | Some rc =>
                  PICK_PA_MSG P_A_RateLimitMsgs;;
                  set_if_none_message too_much;;
                  ask (fun c => call_rate_counter c 1 POLICY_EXCESS);;
                  ret rc
              end
            else mret tt
        end
      else mret tt
  | None => mret tt
  end.

(** The sender's entry; the attributes that were answered by it. *)
Definition mailfrom_user (str : list Z) (len : nat) : pol Z :=
  update (set_request (attr_flags [P_A_REJECTSOURCE; P_A_FREEZESOURCE]));;
  r ← check_user str len;
  if r =? 0 then
    on_plus P_A_FREEZESOURCE (set_sender_freeze true) 1;;
    f ← isset P_A_FREEZESOURCE;
    on_plus P_A_REJECTSOURCE (set_sender_reject true) (-1);;
    j ← isset P_A_REJECTSOURCE;
    mret (Z.lor (if f : bool then attr_flag P_A_FREEZESOURCE else 0) (if j : bool then attr_flag P_A_REJECTSOURCE else 0))
  else mret 0.

Definition mailfrom_flags : Z :=
  attr_flags [P_A_REJECTSOURCE; P_A_FREEZESOURCE; P_A_SENDERNoRelay; P_A_SENDERokWithDNS].

(** The sender's domain: the position of the at sign. *)
Definition mailfrom_domain (str : list Z) (len : nat) (mask : Z) : pol nat :=
  update (set_request (Z.land mailfrom_flags (Z.lnot mask)));;
  match find_nonqchr false ($"@") len str with
  | None => ret (-1)
  | Some at_ =>
      r ← check_domain (drop (at_ + 1) str) (len - (1 + at_));
      ret_if (negb (r =? 0)) (-1);;
      mret at_
  end.

Definition mailfrom_dns (str : list Z) (len at_ : nat) : pol unit :=
  s ← isset P_A_SENDERokWithDNS;
  if (0 <? len)%nat && negb (nth (at_ + 1) str 0 =? $"[") && s then
    t ← getv P_A_SENDERokWithDNS;
    rc ← sender_dns_verify (hd 0 (default [] t)) (take (len - (1 + at_)) (drop (at_ + 1) str));
    PICK_PA_MSG P_A_SENDERokWithDNS;;
    ret_if (negb (rc =? 0)) rc
  else mret tt.

Definition pt_mailfrom (str : list Z) (len : nat) : pol Z :=
  fn (
  update (set_sender_reject false);;
  update (set_sender_freeze false);;
  update (set_sender_norelay false);;
  s ← read id;
  ret_if (always_reject s) (-1);;
  ret_if (always_freeze s) 1;;
  ret_if (full_trust s) 0;;
  at_ ← (if (0 <? len)%nat then
           mask ← mailfrom_user str len;
           mailfrom_domain str len mask
         else
           update (set_request mailfrom_flags);;
           r ← check_domain ($$".") 1;
           ret_if (negb (r =? 0)) (-1);;
           mret 0%nat);
  (if (0 <? len)%nat then
     b ← valueeq P_A_SENDERNoRelay plus;
     if b : bool then update (set_sender_norelay true);; PICK_PA_MSG P_A_SENDERNoRelay else mret tt
   else mret tt);;
  mailfrom_rate;;
  on_plus P_A_REJECTSOURCE (set_sender_reject true) (-1);;
  on_plus P_A_FREEZESOURCE (set_sender_freeze true) (-1);;
  mailfrom_dns str len at_;;
  mret 0).

(** *** Recipients *)

(** The entry asks to honour a block list that has the client. *)
Definition rcpt_rbl : pol unit :=
  b ← valueeq P_A_TestRcptDnsRBL plus;
  m ← read rblmsg;
  match b, m with
  | true, Some _ => update (set_message m);; ret (-1)
  | _, _ => mret tt
  end.

Definition rcpt_user (str : list Z) (len : nat) : pol unit :=
  update (set_request (attr_flags [P_A_RELAYTARGET; P_A_ACCEPTbutFREEZE; P_A_TestRcptDnsRBL; P_A_LocalDomain]));;
  r ← check_user str len;
  if r =? 0 then
    on_plus P_A_RELAYTARGET id 0;;
    b ← valueeq P_A_RELAYTARGET minus;
    (if b : bool then PICK_PA_MSG P_A_RELAYTARGET;; ret (-1) else mret tt);;
    on_plus P_A_ACCEPTbutFREEZE (set_sender_freeze true) 1;;
    rcpt_rbl
  else mret tt.

Definition rcpt_flags : Z :=
  attr_flags [P_A_RELAYTARGET; P_A_ACCEPTbutFREEZE; P_A_ACCEPTifMX; P_A_ACCEPTifDNS; P_A_TestRcptDnsRBL; P_A_LocalDomain].

(** Look a domain up for relaying. *)
Definition rcpt_domain (input : list Z) (inlen : nat) : pol unit :=
  update (set_request rcpt_flags);;
  r ← check_domain input inlen;
  ret_if (negb (r =? 0)) (-1).

Section rcpt.
Variable buf : list Z.

(** Offset of a character from [p], among the next [n]. *)
Definition find_from (chr : Z) (p n : nat) : option nat :=
  (fun k => (p + k)%nat) <$> find_nonqchr false chr n (drop p buf).

(** The last unquoted percent sign in front of [a]. *)
Fixpoint last_percent (fuel : nat) (phack a : nat) : nat :=
  match fuel with
  | O => phack
  | S fuel =>
      match find_from ($"%") (phack + 1) (a - phack - 1) with
      | Some phack2 => last_percent fuel phack2 a
      | None => phack
      end
  end.

(** [values[LocalDomain] is + || values[RELAYTARGET] is +] *)
Definition rcpt_ours : pol bool :=
  b ← valueeq P_A_LocalDomain plus;
  if b : bool then mret true else valueeq P_A_RELAYTARGET plus.

(** The domain behind the at sign at [a], for an address at [p]. *)
Definition dom_len (p a : nat) (len : Z) : nat := Z.to_nat (len - (1 + (Z.of_nat a - Z.of_nat p))).
Definition dom_text (p a : nat) (len : Z) : list Z := take (dom_len p a len) (drop (a + 1) buf).

(** The domain must name us, or the client's domain, as a mail exchanger;
    [pass] is the way back into the loop. *)
Definition rcpt_mx (pass : nat -> nat -> Z -> pol Z) (p a : nat) (len : Z) : pol unit :=
  t ← getv P_A_ACCEPTifMX;
  update (set_islocaldomain 0);;
  rc ← mx_client_verify (if t is Some t then hd 0 t else $".") (dom_text p a len);
  l ← read islocaldomain;
  (if l =? 0 then mret tt
   else
     freev P_A_LocalDomain;;
     setv P_A_LocalDomain plus;;
     match find_from ($"!") p (a - p), find_from ($"%") p (a - p) with
     | None, None => mret tt
     | _, _ => rc ← pass p a len; ret rc
     end);;
  PICK_PA_MSG P_A_ACCEPTifMX;;
  ret rc.

(** Behind the loop over percent signs and bangs; [pass] is the way back
    into it. *)
Definition rcpt_tail (pass : nat -> nat -> Z -> pol Z) (p a : nat) (len : Z) : pol Z :=
  b ← valueeq P_A_RELAYTARGET minus;
  (if b : bool then PICK_PA_MSG P_A_RELAYTARGET;; ret (-1) else mret tt);;
  on_plus P_A_ACCEPTbutFREEZE (set_sender_freeze true) 1;;
  rcpt_rbl;;
  on_plus P_A_RELAYTARGET id 0;;
  s ← read id;
  (if always_accept s then
     mx ← getv P_A_ACCEPTifMX;
     rc ← client_dns_verify (if mx is Some t then hd 0 t else $"-") (dom_text p a len);
     PICK_PA_MSG P_A_ACCEPTifMX;;
     ret rc
   else mret tt);;
  mx ← isset P_A_ACCEPTifMX;
  (if mx || sender_norelay s then rcpt_mx pass p a len else mret tt);;
  dns ← isset P_A_ACCEPTifDNS;
  (if dns : bool then
     t ← getv P_A_ACCEPTifDNS;
     rc ← client_dns_verify (hd 0 (default [] t)) (dom_text p a len);
     PICK_PA_MSG P_A_ACCEPTifDNS;;
     ret rc
   else mret tt);;
  mret 0.

(** One pass of the loop, for a domain that is ours; [loopbreak] counts
    down. *)
Fixpoint rcpt_pass (loopbreak : nat) (p a : nat) (len : Z) : pol Z :=
  match loopbreak with
  | O | S O => mret (-1)
  | S lb =>
      let again p a len := b ← rcpt_ours; if b : bool then rcpt_pass lb p a len else rcpt_tail (rcpt_pass lb) p a len in
      match (if percent_accept <? 0 then find_from ($"!") p (a - p) else None) with
      | Some phack =>
          rcpt_domain (drop p buf) (phack - p);;
          again (phack + 1)%nat a len
      | None =>
          match find_from ($"%") p (a - p) with
          | Some phack =>
              let phack := last_percent (a - phack) phack a in
              let llen := (a - phack - 1)%nat in
              rcpt_domain (drop (phack + 1) buf) llen;;
              again p phack (1 + (Z.of_nat phack - Z.of_nat p) + Z.of_nat llen)
          | None => rcpt_tail (rcpt_pass lb) p a len
          end
      end
  end.
End rcpt.

Definition LOOPBREAK : nat := 20.

Definition pt_rcptto (str : list Z) (len : nat) : pol Z :=
  fn (
  s ← read id;
  ret_if (always_reject s) (-1);;
  ret_if (sender_reject s) (-2);;
  ret_if (always_freeze s) 1;;
  ret_if (sender_freeze s) 1;;
  ret_if (full_trust s) 0;;
  ret_if (bool_decide (is_Some (authuser s))) 0;;
  ret_if (trust_recipients s) 0;;
  rcpt_user str len;;
  update (set_request rcpt_flags);;
  match find_nonqchr false ($"@") len str with
  | None => ret_if (always_accept s) 0;; mret (-1)
  | Some a =>
      rcpt_domain (drop (a + 1) str) (len - (1 + a));;
      b ← rcpt_ours;
      if b : bool then rcpt_pass str LOOPBREAK 0 a (Z.of_nat len)
      else rcpt_tail str (rcpt_pass str LOOPBREAK) 0 a (Z.of_nat len)
  end).

Definition pt_rcptpostmaster (str : list Z) (len : nat) : pol Z :=
  fn (
  update (set_request (attr_flag P_A_RELAYTARGET));;
  r ← check_user str len;
  (if r =? 0 then on_plus P_A_RELAYTARGET id 0 else mret tt);;
  mret (-1)).

(** *** policytest() *)

(** The switch over the kinds of test. *)
Definition policyswitch (what : PolicyWhat) (str : list Z) (len : Z) : pol Z :=
  match what with
  | POLICY_SOURCEDOMAIN => pt_sourcedomain str (Z.to_nat len)
  | POLICY_HELONAME => pt_heloname str (Z.to_nat len)
  | POLICY_MAILFROM => pt_mailfrom str (Z.to_nat len)
  | POLICY_RCPTTO => pt_rcptto str (Z.to_nat len)
  | POLICY_RCPTPOSTMASTER => pt_rcptpostmaster str (Z.to_nat len)
  | POLICY_DATA | POLICY_DATAOK => '(rc, _, _) ← ask (fun c => call_rate_counter c len POLICY_DATAOK); mret rc
  | POLICY_DATAABORT => '(rc, _, _) ← ask (fun c => call_rate_counter c len POLICY_DATAABORT); mret rc
  | POLICY_AUTHFAIL => '(rc, _, _) ← ask (fun c => call_rate_counter c len POLICY_AUTHFAIL); mret rc
  | _ => exit Aborted
  end.

Definition policytest (what : PolicyWhat) (str : list Z) (len : Z) (auth : option (list Z)) : pol Z :=
  h ← read has_db;
  if negb h then mret 0
  else
    u ← read authuser;
    (if u is None then update (set_policy_user auth) else mret tt);;
    update (set_message None);;
    policyswitch what str len.
End policy.

(** policyinit(): all fields are cleared. *)
Definition policyinit (ok : bool) : policystate :=
  Policystate ok false false false false false false false false 0 None [] 0 ∅ ∅ None None None 0 0 (-1) 0 0.
