(* ===== verification/PolicyKeys.v ===== *)
(** * The search for the most specific entry

    check_domain() asks the database about a domain, then about its
    suffixes that begin with a dot, from the longest to the single dot;
    checkaddr() asks about the networks that contain an IPv4 address, from
    the smallest to that of all addresses. *)

From Stdlib Require Import ZArith Lia.
From stdpp Require Import base tactics numbers list option gmap.
From S2P Require Import Prelude Policy.

#[local] Open Scope Z_scope.

Section keys.
Context {PE : PolicyEnv}.

(** ** Searching a list of keys *)

Fixpoint search_keys (ks : list (list Z)) : pol Z :=
  match ks with
  | [] => mret (-1)
  | k :: ks => r ← resolveattributes MAXRECURSIONS k; if r =? 0 then mret 0 else search_keys ks
  end.

(** The key of a name: its length, its kind, the name and the final NUL. *)
Definition name_key (kind : Z) (name : list Z) : list Z := Z.of_nat (length name + 3) :: kind :: name ++ [0].

Lemma resolve_same_query r k k' : dbquery k = dbquery k' -> resolveattributes r k = resolveattributes r k'.
Proof. intros H. unfold resolveattributes. destruct r; cbn [resolve]; by rewrite H. Qed.

(** A buffer that holds a key. *)
Definition holds_name (kind : Z) (name b : list Z) : Prop :=
  exists junk, b = Z.of_nat (length name + 3) :: kind :: name ++ 0 :: junk /\ length b = 256%nat.

Lemma holds_name_query kind name b : holds_name kind name b -> dbquery b = dbquery (name_key kind name).
Proof.
  intros (junk & -> & _). unfold dbquery, name_key. cbn [hd]. rewrite Nat2Z.id. f_equal.
  rewrite (take_ge (_ :: _ :: name ++ [0])) by (cbn; rewrite length_app; cbn; lia).
  replace (length name + 3)%nat with (S (S (length name + 1))) by lia. cbn [take]. do 2 f_equal.
  rewrite (cons_middle 0 name), app_assoc. rewrite take_app_le by (rewrite length_app; cbn; lia).
  apply take_ge. rewrite length_app. cbn. lia.
Qed.

(** ** The suffixes of a domain *)

Fixpoint after_dots (x : list Z) : list (list Z) :=
  match x with
  | [] => []
  | c :: x => if c =? $"." then x :: after_dots x else after_dots x
  end.

(** From [.x] on. *)
Definition dotted (x : list Z) : list (list Z) :=
  (fun y => $"." :: y) <$> (x :: after_dots x ++ match last (x :: after_dots x) with Some [] => [] | _ => [[]] end).

Definition candidates (d : list Z) : list (list Z) :=
  match d with
  | 46 :: x => dotted x
  | _ => d :: dotted d
  end.

Lemma dotted_nil : dotted [] = [ [$"."] ].
Proof. done. Qed.

Definition not_dot (c : Z) : bool := negb (c =? $".").

Lemma after_dots_skip w r : forallb not_dot w = true -> after_dots (w ++ r) = after_dots r.
Proof.
  induction w as [|c w IH]; [done|]. cbn. intros [Hc Hw]%andb_prop. unfold not_dot in Hc.
  destruct (c =? $"."); [done|]. by apply IH.
Qed.

Lemma after_dots_none w : forallb not_dot w = true -> after_dots w = [].
Proof. intros Hw. pose proof (after_dots_skip w [] Hw) as H. by rewrite app_nil_r in H. Qed.

(** What follows the first dot. *)
Definition behind_dot (x : list Z) : list Z := match drop (span not_dot x) x with [] => [] | _ :: y => y end.

Lemma dotted_cons x : x <> [] ->
  dotted x = ($"." :: x) :: dotted (behind_dot x).
Proof.
  intros Hne. unfold behind_dot. destruct (span_app not_dot x) as (w & r & Hx & Hspan & Hw & Hr). rewrite Hspan. subst x. rewrite drop_app_length.
  assert (after_dots (w ++ r) = match r with [] => [] | _ :: y => y :: after_dots y end) as E.
  { destruct Hr as [-> | (c & r' & -> & Hc)].
    - rewrite app_nil_r. by apply after_dots_none.
    - rewrite after_dots_skip by done. cbn. unfold not_dot in Hc. destruct (c =? $"."); [done | discriminate]. }
  unfold dotted. rewrite E. destruct r as [|c y].
  - rewrite app_nil_r in *. cbn. by destruct w.
  - rewrite last_cons_cons. done.
Qed.

(** ** The buffer *)

Lemma shift_loop_spec i : forall b, (2 <= i)%nat -> (S i < length b)%nat ->
  shift_loop i b = Some (take 3 b ++ take (i - 1) (drop 2 b) ++ drop (i + 2) b).
Proof.
  induction i as [|i IH]; intros b Hi Hb; [lia|]. destruct i as [|i]; [lia|].
  set (b1 := <[S (S (S i)) := nth (S (S i)) b 0]> b).
  assert (shift_loop (S (S i)) b = shift_loop (S i) b1) as ->.
  { cbn [shift_loop]. by rewrite (proj2 (Nat.ltb_lt _ _)) by lia. }
  assert (length b1 = length b) as Hlen by apply length_insert.
  assert (drop (S i + 2) b1 = nth (S (S i)) b 0 :: drop (S (S i) + 2) b) as Hdrop.
  { unfold b1. replace (S i + 2)%nat with (S (S (S i))) by lia. rewrite drop_insert_ge by lia.
    rewrite Nat.sub_diag. replace (S (S i) + 2)%nat with (S (S (S (S i)))) by lia.
    destruct (drop (S (S (S i))) b) as [|c l] eqn:E.
    - apply (f_equal length) in E. rewrite length_drop in E. cbn in E. lia.
    - change (<[0%nat := nth (S (S i)) b 0]> (c :: l)) with (nth (S (S i)) b 0 :: l). f_equal.
      change l with (drop 1 (c :: l)). rewrite <- E, drop_drop. f_equal. lia. }
  destruct i as [|i].
  - cbn [shift_loop]. f_equal. rewrite <- (take_drop 3 b1) at 1. f_equal.
    + unfold b1. by rewrite take_insert_ge by lia.
    + change (drop 3 b1) with (drop (1 + 2) b1). rewrite Hdrop. cbn.
      destruct b as [|x0 [|x1 [|x2 b]]]; cbn in *; [lia..|]. done.
  - rewrite IH by lia. f_equal. rewrite Hdrop. f_equal; [unfold b1; by rewrite take_insert_ge by lia|].
    replace (S (S (S i)) - 1)%nat with (S (S (S i) - 1)) by lia.
    rewrite (take_S_r _ (S (S i) - 1) (nth (S (S (S i))) b 0)).
    + rewrite <- app_assoc. f_equal. unfold b1. rewrite drop_insert_ge by lia. by rewrite take_insert_ge by lia.
    + rewrite lookup_drop. replace (2 + (S (S i) - 1))%nat with (S (S (S i))) by lia.
      rewrite nth_lookup. destruct (b !! S (S (S i))) eqn:E; [done|]. apply lookup_ge_None in E. lia.
Qed.

Lemma add_dot_spec kind name b : holds_name kind name b -> (length name <= 251)%nat ->
  exists b', add_dot b = Some b' /\ holds_name kind ($"." :: name) b'.
Proof.
  intros (junk & -> & Hb) Hn. unfold add_dot. cbn [hd]. rewrite Nat2Z.id.
  rewrite shift_loop_spec by lia. cbn [mbind option_bind]. eexists. split; [done|].
  cbn [length] in Hb. rewrite length_app in Hb. cbn [length] in Hb.
  destruct junk as [|j0 [|j1 junk]]; [cbn in Hb; lia..|]. exists (j0 :: junk). cbn [length] in Hb.
  assert (take (length name + 3 - 1) (name ++ 0 :: j0 :: j1 :: junk) = name ++ [0; j0]) as E1.
  { replace (length name + 3 - 1)%nat with (length name + 2)%nat by lia. rewrite take_app_add. done. }
  assert (drop (length name + 3) (name ++ 0 :: j0 :: j1 :: junk) = junk) as E2.
  { by rewrite drop_app_add. }
  replace (length name + 3 + 2)%nat with (S (S (length name + 3))) by lia. cbn [take drop]. rewrite !drop_0, E1, E2.
  split.
  - destruct (name ++ 0 :: j0 :: j1 :: junk) as [|r0 rest] eqn:E; [by destruct name|]. cbn.
    rewrite Z.mod_small by lia. f_equal; [lia|]. do 2 f_equal. rewrite <- app_assoc. done.
  - rewrite !length_insert. destruct (name ++ 0 :: j0 :: j1 :: junk) as [|r0 rest] eqn:E; [by destruct name|].
    cbn. rewrite !length_app. cbn. rewrite take_0. cbn. lia.
Qed.

(** Setting the length of a name that is there. *)
Lemma set_length_holds kind name junk L :
  forallb not_nul name = true -> (length name <= 252)%nat -> length (L :: kind :: name ++ 0 :: junk) = 256%nat ->
  holds_name kind name (set_length (L :: kind :: name ++ 0 :: junk)).
Proof.
  intros Hn Hle Hl. exists junk. unfold set_length. cbn [drop].
  rewrite drop_0. unfold strlen. rewrite span_max by (eauto || done). split; [|by rewrite length_insert].
  cbn [length] in Hl. rewrite length_app in Hl. cbn [length] in Hl. cbn. f_equal. apply Z.mod_small. lia.
Qed.

Lemma next_suffix_end kind b : holds_name kind [$"."] b -> next_suffix b = None.
Proof. intros (junk & -> & _). done. Qed.

Lemma next_suffix_spec kind x b : holds_name kind ($"." :: x) b -> forallb not_nul x = true -> x <> [] ->
  exists b', next_suffix b = Some b' /\ holds_name kind ($"." :: behind_dot x) (set_length b').
Proof.
  intros (junk & -> & Hb) Hx Hne. unfold next_suffix, behind_dot. fold not_dot.
  cbn [drop app]. rewrite drop_0, cstr_app by done.
  destruct (span_app not_dot x) as (w & r & E & Hspan & Hw & Hr). rewrite Hspan.
  replace (drop (length w) x) with r by (by rewrite E, drop_app_length).
  destruct r as [|c y].
  - destruct x as [|c x]; [done|]. cbn in Hx. apply andb_prop in Hx as [Hc _].
    unfold not_nul in Hc. apply negb_true_iff in Hc. cbn [nth app]. rewrite Hc, andb_false_r.
    eexists. split; [done|].
    refine (set_length_holds kind [$"."] (x ++ 0 :: junk) (Z.of_nat (length ($"." :: c :: x) + 3)) _ _ _); [done|cbn; lia|]. cbn in Hb |- *. done.
  - eexists. split; [done|]. subst x. rewrite forallb_app in Hx. apply andb_prop in Hx as [_ Hy].
    cbn in Hy. apply andb_prop in Hy as [_ Hy].
    cbn in Hb. rewrite !length_app in Hb. cbn in Hb.
    refine (set_length_holds kind ($"." :: y) _ (Z.of_nat (length ($"." :: w ++ c :: y) + 3)) _ _ _); [done|cbn; lia|].
    cbn. rewrite length_app. cbn. rewrite length_drop, !length_app. cbn. lia.
Qed.

(** ** The search for a domain *)

Definition search_names (names : list (list Z)) : pol Z := search_keys (name_key P_K_DOMAIN <$> names);; mret 0.

Lemma search_names_cons name names s :
  search_names (name :: names) s =
  (r ← resolveattributes MAXRECURSIONS (name_key P_K_DOMAIN name); if r =? 0 then mret 0 else search_names names) s.
Proof.
  unfold search_names. cbn -[resolveattributes]. unfold mbind, ex_bind.
  destruct (resolveattributes _ _ s) as [[e|r] s']; [done|]. by destruct (r =? 0).
Qed.

Lemma bind_eval {A B} (m : pol A) (k : A -> pol B) s :
  (m ≫= k) s = match m s with (inl e, s') => (inl e, s') | (inr a, s') => k a s' end.
Proof. done. Qed.

Lemma bind_ext {A B} (m : pol A) (k k' : A -> pol B) s : (forall a s', k a s' = k' a s') -> (m ≫= k) s = (m ≫= k') s.
Proof. intros H. unfold mbind, ex_bind. by destruct (m s) as [[e|a] s']. Qed.

Lemma checkaddr_name b name : holds_name P_K_DOMAIN name b ->
  checkaddr b = resolveattributes MAXRECURSIONS (name_key P_K_DOMAIN name).
Proof.
  intros H. pose proof (holds_name_query _ _ _ H) as Q. destruct H as (junk & -> & _).
  unfold checkaddr. cbn [nth]. by apply resolve_same_query.
Qed.

Lemma behind_dot_suffix x : x <> [] -> exists w, x = w ++ behind_dot x /\ w <> [].
Proof.
  intros Hne. unfold behind_dot. destruct (span_app not_dot x) as (w & r & E & -> & _).
  rewrite E, drop_app_length. destruct r as [|c y].
  - exists w. split; [done|]. intros ->. by rewrite E in Hne.
  - exists (w ++ [c]). rewrite <- app_assoc. split; [done|]. by destruct w.
Qed.

Lemma dotted_loop fuel : forall x b s, (length x < fuel)%nat -> holds_name P_K_DOMAIN ($"." :: x) b ->
  forallb not_nul x = true -> suffix_loop fuel b s = search_names (dotted x) s.
Proof.
  induction fuel as [|fuel IH]; intros x b s Hf Hb Hx; [lia|]. cbn [suffix_loop].
  rewrite (checkaddr_name _ _ Hb).
  assert (nth 2 b 0 = $".") as -> by (destruct Hb as (junk & -> & _); done). cbn [negb Z.eqb Pos.eqb].
  destruct (decide (x = [])) as [-> | Hne].
  - rewrite (next_suffix_end _ _ Hb), dotted_nil, search_names_cons. apply bind_ext. intros r s'. by destruct (r =? 0).
  - destruct (next_suffix_spec _ _ _ Hb Hx Hne) as (b' & -> & Hb').
    rewrite dotted_cons, search_names_cons by done.  apply bind_ext. intros r s'.
    destruct (r =? 0); [done|]. destruct (behind_dot_suffix x Hne) as (w & E & Hw). apply IH; [|done|].
    + apply (f_equal length) in E. rewrite length_app in E. destruct w; [done|]. cbn in E. lia.
    + rewrite E, forallb_app in Hx. by apply andb_prop in Hx as [_ Hx].
Qed.

(** The name that check_domain() starts with. *)
Lemma key_buffer_name d : forallb not_nul d = true -> (length d <= 252)%nat ->
  holds_name P_K_DOMAIN (strlower d) (set_policy_key (Z.of_nat (length d) + 3) P_K_DOMAIN (key_buffer 256 d)).
Proof.
  intros Hd Hl. unfold key_buffer, lower_string. destruct (256 - 2 - length d)%nat as [|n] eqn:En; [lia|].
  cbn [repeat]. rewrite cstr_app by done. unfold strlen. rewrite span_max by (eauto || done).
  rewrite drop_app_length. exists (repeat 0 n). unfold set_policy_key, strlower. cbn. rewrite length_fmap.
  split; [f_equal; rewrite Z.mod_small; lia|]. rewrite length_app, length_fmap. cbn. rewrite repeat_length. lia.
Qed.

Lemma tolower_fixed c k : isupper k = false -> islower k = false -> (tolower c =? k) = (c =? k).
Proof.
  unfold tolower, isupper, islower. intros Hu Hl. case_match eqn:E; [|done].
  apply andb_prop in E as [E1%Z.leb_le E2%Z.leb_le]. cbn in *.
  assert (c + 32 <> k) as H1%Z.eqb_neq by (intros <-; apply andb_false_iff in Hl as [H%Z.leb_gt | H%Z.leb_gt]; lia).
  assert (c <> k) as H2%Z.eqb_neq by (intros <-; apply andb_false_iff in Hu as [H%Z.leb_gt | H%Z.leb_gt]; lia).
  congruence.
Qed.

Lemma strlower_not_nul d : forallb not_nul d = true -> forallb not_nul (strlower d) = true.
Proof.
  unfold not_nul. induction d as [|c d IH]; cbn; [done|]. rewrite tolower_fixed by done.
  intros [-> Hd]%andb_prop. by apply IH.
Qed.

Lemma candidates_plain d : (hd 0 d =? $".") = false -> candidates d = d :: dotted d.
Proof. destruct d as [|c d]; [done|]. cbn. intros H. unfold candidates. repeat case_match; done. Qed.

Lemma holds_name_first kind name b : holds_name kind name b -> nth 2 b 0 = hd 0 name.
Proof. intros (junk & -> & _). by destruct name. Qed.

Lemma hd_strlower d k : isupper k = false -> islower k = false -> (hd 0 (strlower d) =? k) = (hd 0 d =? k).
Proof. intros Hu Hl. destruct d; [done|]. cbn. by rewrite tolower_fixed. Qed.

(** The loop for a domain: the candidates, in turn. *)
Lemma candidates_loop fuel d b s : (252 < fuel)%nat -> holds_name P_K_DOMAIN d b -> forallb not_nul d = true -> (length d <= 251)%nat ->
  suffix_loop fuel b s = search_names (candidates d) s.
Proof.
  intros Hf Hb Hd Hl. destruct (hd 0 d =? $".") eqn:Hdot.
  - destruct d as [|c d]; [done|]. cbn in Hdot, Hd, Hl. apply Z.eqb_eq in Hdot as ->.
    apply dotted_loop; [lia | done | done].
  - rewrite candidates_plain by done. destruct fuel as [|fuel]; [lia|]. cbn [suffix_loop].
    rewrite (checkaddr_name _ _ Hb), (holds_name_first _ _ _ Hb), Hdot, search_names_cons.
    apply bind_ext. intros r s'. destruct (r =? 0); [done|]. cbn [negb].
    destruct (add_dot_spec _ _ _ Hb Hl) as (b' & -> & Hb'). apply dotted_loop; [lia | done | done].
Qed.

Lemma domain_search d s :
  forallb not_nul d = true -> (length d <= 251)%nat -> hd 0 d <> $"[" ->
  check_domain d (length d) s = search_names (candidates (strlower d)) s.
Proof.
  intros Hd Hl Hb. unfold check_domain. rewrite Nat.min_l, take_ge by lia.
  pose proof (key_buffer_name d Hd ltac:(lia)) as Hk.
  assert ((nth 2 (key_buffer 256 d) 0 =? $"[") = false) as ->.
  { pose proof (holds_name_first _ _ _ Hk) as E. change (nth 2 (key_buffer 256 d) 0 = hd 0 (strlower d)) in E.
    rewrite E, hd_strlower by done. by apply Z.eqb_neq. }
  apply candidates_loop; [unfold DOMAIN_FUEL; lia | done | by apply strlower_not_nul | unfold strlower; by rewrite length_fmap].
Qed.
(** ** The search for an IPv4 address *)

Definition byte_of (a : Z) (i : Z) : Z := Z.land (Z.shiftr a (8 * (3 - i))) 255.
Definition bytes4 (a : Z) : list Z := byte_of a <$> [0; 1; 2; 3].

(** The first address of the network of [w] bits that [a] is in. *)
Definition network (w : Z) (a : Z) : Z := Z.land a (Z.shiftl (Z.ones w) (32 - w)).
Definition network_key (a : Z) (w : nat) : list Z := [7; P_K_IPv4] ++ bytes4 (network (Z.of_nat w) a) ++ [Z.of_nat w].

Lemma byte_of_land a m i : byte_of (Z.land a m) i = Z.land (Z.shiftr a (8 * (3 - i))) (Z.land (Z.shiftr m (8 * (3 - i))) 255).
Proof. unfold byte_of. by rewrite Z.shiftr_land, Z.land_assoc. Qed.

Lemma bytes4_network w a : bytes4 (network w a) =
  (fun i => Z.land (Z.shiftr a (8 * (3 - i))) (Z.land (Z.shiftr (Z.shiftl (Z.ones w) (32 - w)) (8 * (3 - i))) 255)) <$> [0; 1; 2; 3].
Proof. unfold bytes4, network. cbn [fmap list_fmap]. by rewrite !byte_of_land. Qed.

(** mask_ip_bits() for a given width: the fold and the numbers are evaluated,
    the bytes of the address are not. *)
Ltac eval_in t := let v := eval vm_compute in t in change t with v.
Ltac mask_eval :=
  unfold mask_ip_bits;
  match goal with |- context [Z.land (Z.of_nat ?w) 7] => eval_in (8 - Z.land (Z.of_nat w) 7) end;
  match goal with |- context [foldl ?f ?k ?l] => eval_in (foldl f k l) end;
  cbv zeta; cbn [Z.eqb Pos.eqb];
  try match goal with |- context [Z.to_nat (2 + ?w)] => eval_in (Z.to_nat (2 + w)) end;
  cbn [nth insert list_insert].
Ltac mask_byte :=
  match goal with
  | |- Z.land ?a _ = Z.land ?a _ => f_equal; reflexivity
  | |- Z.land (Z.land ?a _) _ = Z.land ?a _ => rewrite <- Z.land_assoc; f_equal; reflexivity
  | |- 0 = Z.land ?a _ => exact (eq_sym (Z.land_0_r a))
  end.

Lemma mask_step a w junk : (w < 32)%nat ->
  <[6%nat := Z.of_nat w]> (mask_ip_bits (Z.of_nat w) 32 (network_key a (S w) ++ junk)) = network_key a w ++ junk.
Proof.
  intros Hw. unfold network_key. rewrite !bytes4_network. cbn [fmap list_fmap app].
  generalize (Z.shiftr a (8 * (3 - 0))) as A0, (Z.shiftr a (8 * (3 - 1))) as A1,
    (Z.shiftr a (8 * (3 - 2))) as A2, (Z.shiftr a (8 * (3 - 3))) as A3. intros.
  match goal with
  | |- context [mask_ip_bits _ _ (_ :: _ :: ?x0 :: ?x1 :: ?x2 :: ?x3 :: ?y :: _)] =>
      remember x0 as b0 eqn:E0; remember x1 as b1 eqn:E1; remember x2 as b2 eqn:E2; remember x3 as b3 eqn:E3;
      generalize y
  end. intros y.
  do 32 (destruct w as [|w]; [mask_eval; subst b0 b1 b2 b3; do 2 (apply (f_equal2 cons); [reflexivity|]); do 4 (apply (f_equal2 cons); [mask_byte|]); reflexivity|]).
  lia.
Qed.

(** The widths from [w] down to none. *)
Fixpoint widths (w : nat) : list nat := w :: match w with O => [] | S w => widths w end.

Lemma network_key_query a w junk : dbquery (network_key a w ++ junk) = dbquery (network_key a w).
Proof. done. Qed.

Lemma network_key_kind a w junk : nth 1 (network_key a w ++ junk) 0 = P_K_IPv4.
Proof. done. Qed.

(** Masking keeps the rest of the key. *)
Lemma mask_kind a w junk : (w < 32)%nat -> nth 1 (mask_ip_bits (Z.of_nat w) 32 (network_key a (S w) ++ junk)) 0 = P_K_IPv4.
Proof.
  intros Hw. pose proof (mask_step a w junk Hw) as E. apply (f_equal (fun l => nth 1 l 0)) in E.
  rewrite nth_lookup, list_lookup_insert_ne, <- nth_lookup in E by lia. by rewrite E.
Qed.

(** The pass behind the last search masks the byte in front of the address. *)
Lemma mask_below a junk : nth 1 (mask_ip_bits (-1) 32 (network_key a 0 ++ junk)) 0 = 0.
Proof.
  unfold network_key, bytes4. cbn [fmap list_fmap app].
  generalize (byte_of (network (Z.of_nat 0) a) 0) as b0, (byte_of (network (Z.of_nat 0) a) 1) as b1,
    (byte_of (network (Z.of_nat 0) a) 2) as b2, (byte_of (network (Z.of_nat 0) a) 3) as b3.
  intros. vm_compute. done.
Qed.

Lemma width_loop_S n countmax b : width_loop (S n) countmax b =
  (result ← resolveattributes MAXRECURSIONS b;
   if result =? 0 then mret (0, b)
   else
     let count := countmax + 1 - Z.of_nat n in
     let b := mask_ip_bits (countmax - count) countmax b in
     width_loop n countmax
       (if nth 1 b 0 =? P_K_IPv4 then <[6%nat := (32 - count) mod 256]> b else <[18%nat := (128 - count) mod 256]> b)).
Proof. done. Qed.

Lemma width_search a w : (w <= 32)%nat -> forall junk (k : Z * list Z -> pol Z) s,
  (forall b, k (0, b) = mret 0) ->
  (forall b, nth 1 b 0 <> P_K_IPv6 -> k (1, b) = mret (-1)) ->
  (width_loop (S w) 32 (network_key a w ++ junk) ≫= k) s = search_keys (network_key a <$> widths w) s.
Proof.
  intros Hw junk k s H0 H1. revert junk s. induction w as [|w IH]; intros junk s;
    rewrite width_loop_S, (resolve_same_query _ _ _ (network_key_query _ _ _)); cbn [widths fmap list_fmap search_keys].
  - rewrite !bind_eval. destruct (resolveattributes _ _ s) as [[e|r] s']; [done|].
    destruct (r =? 0); cbn [mret ex_ret]; [by rewrite H0|]. cbn [width_loop mret ex_ret]. cbv zeta.
    change (32 - (32 + 1 - Z.of_nat 0)) with (-1). rewrite mask_below, H1; [done|].
    change (0 =? P_K_IPv4) with false. cbv iota. rewrite nth_lookup, list_lookup_insert_ne, <- nth_lookup, mask_below by lia. done.
  - specialize (IH ltac:(lia)). rewrite !bind_eval.
    destruct (resolveattributes _ _ s) as [[e|r] s']; [done|].
    destruct (r =? 0); cbn [mret ex_ret]; [by rewrite H0|]. cbv zeta.
    replace (32 - (32 + 1 - Z.of_nat (S w))) with (Z.of_nat w) by lia.
    rewrite mask_kind, Z.mod_small, mask_step by lia. apply IH.
Qed.

Lemma network_32 a : network_key a 32 = [7; P_K_IPv4] ++ bytes4 a ++ [32].
Proof.
  unfold network_key. rewrite bytes4_network. unfold bytes4, byte_of. cbn [fmap list_fmap].
  do 2 (apply (f_equal2 cons); [reflexivity|]). do 4 (apply (f_equal2 cons); [f_equal; reflexivity|]). reflexivity.
Qed.

(** checkaddr() of an IPv4 key. *)
Lemma address_search a junk s :
  checkaddr ([7; P_K_IPv4] ++ bytes4 a ++ [32] ++ junk) s = search_keys (network_key a <$> widths 32) s.
Proof.
  rewrite (app_assoc (bytes4 a)), (app_assoc [7; P_K_IPv4]), <- network_32. unfold checkaddr.
  rewrite network_key_kind. change ((P_K_IPv4 =? P_K_DOMAIN) || (P_K_IPv4 =? P_K_USER)) with false.
  change (P_K_IPv4 =? P_K_IPv4) with true. cbv iota zeta. change (Z.to_nat 32 + 1)%nat with 33%nat. cbv zeta iota.
  apply width_search; [lia | done |]. intros b Hb. apply Z.eqb_neq in Hb. by rewrite Hb.
Qed.
End keys.
