(* ===== verification/PolicyFrame.v ===== *)
(** * What the tests leave alone

    A client's standing is kept in flags of the policy state.  The searches
    in the database, and the tests of senders and recipients, do not touch
    them. *)

From Stdlib Require Import ZArith Lia.
From stdpp Require Import base tactics numbers list option gmap.
From S2P Require Import Prelude Policy.

#[local] Open Scope Z_scope.

(** The standing of a client. *)
Definition client (s : policystate) :=
  (has_db s, always_reject s, always_freeze s, always_accept s, full_trust s, trust_recipients s, authuser s).

(** How a function may be left: only by a crash, or also by a return. *)
Definition is_crash (e : policystop) : bool := if e is Return _ then false else true.
Definition any_stop (e : policystop) : bool := true.

(** [m] does not change what [f] sees, and is left as [ok] says. *)
Definition leaves {T} (f : policystate -> T) (ok : policystop -> bool) {A} (m : pol A) : Prop :=
  forall s, f (snd (m s)) = f s /\ if fst (m s) is inl e then ok e = true else True.
Abbreviation harmless := (leaves client is_crash).

(** The trust in a client is a part of its standing. *)
Definition trust (s : policystate) := (has_db s, always_accept s, full_trust s, trust_recipients s, authuser s).

Create HintDb leaves.

Section rules.
Context {T : Type} (f : policystate -> T) (ok : policystop -> bool).

Lemma leaves_ret {A} (a : A) : leaves f ok (mret a).
Proof. by intros s. Qed.
Lemma leaves_exit {A} r : ok r = true -> leaves f ok (exit r : pol A).
Proof. by intros H s. Qed.
Lemma leaves_read {A} (g : policystate -> A) : leaves f ok (read g).
Proof. by intros s. Qed.
Lemma leaves_update g : (forall s, f (g s) = f s) -> leaves f ok (update g).
Proof. intros H s. split; [apply H | done]. Qed.
Lemma leaves_bind {A B} (m : pol A) (k : A -> pol B) : leaves f ok m -> (forall a, leaves f ok (k a)) -> leaves f ok (m ≫= k).
Proof.
  intros Hm Hk s. specialize (Hm s). unfold mbind, ex_bind. destruct (m s) as [[e|a] s']; [done|].
  destruct Hm as [Hm _]. cbn in Hm. destruct (Hk a s') as [-> H]. done.
Qed.
Lemma leaves_if {A} (b : bool) (m1 m2 : pol A) : leaves f ok m1 -> leaves f ok m2 -> leaves f ok (if b then m1 else m2).
Proof. by destruct b. Qed.
Lemma leaves_fn m : leaves f any_stop m -> (forall e, is_crash e = true -> ok e = true) -> leaves f ok (fn m).
Proof. intros H Hok s. specialize (H s). unfold fn. destruct (m s) as [[[]|] ?], H; split; by try apply Hok. Qed.
End rules.

Lemma leaves_any {A T} (f : policystate -> T) (m : pol A) : leaves f is_crash m -> leaves f any_stop m.
Proof. intros H s. destruct (H s) as [-> _]. split; [done|]. by destruct (fst (m s)). Qed.

Lemma leaves_trust {A} ok (m : pol A) : leaves client ok m -> leaves trust ok m.
Proof. intros H s. destruct (H s) as [E HE]. split; [|done]. unfold client in E. unfold trust. congruence. Qed.

(** The rule for a call, with a postcondition that holds of every crash. *)
Lemma wpx_calm {A} (m : pol A) (E : policystop -> policystate -> Prop) (Q : A -> policystate -> Prop) s :
  harmless m -> (forall e s', is_crash e = true -> E e s') -> (forall a s', client s' = client s -> Q a s') -> wpx m E Q s.
Proof. intros H HE HQ. specialize (H s). unfold wpx. destruct (m s) as [[e|a] s'], H; [by apply HE | by apply HQ]. Qed.

Lemma wpx_leaves {A} (m : pol A) s :
  leaves client any_stop m -> wpx m (fun _ s' => client s' = client s) (fun _ s' => client s' = client s) s.
Proof. intros H. destruct (H s) as [H' _]. unfold wpx. by destruct (m s) as [[]]. Qed.

#[export] Hint Resolve leaves_ret leaves_read : leaves.
#[export] Hint Resolve leaves_any | 10 : leaves.
#[export] Hint Resolve leaves_trust | 11 : leaves.

(** A definition that is unfolded one level leaves binds, branches and calls
    for which a rule is known. *)
Ltac leave :=
  repeat first
    [ progress intros
    | solve [auto with leaves]
    | apply leaves_bind
    | apply leaves_fn; [|done]
    | apply leaves_if
    | apply leaves_update; reflexivity
    | apply leaves_exit; reflexivity
    | progress (unfold ret_if; cbv zeta)
    | match goal with
      | |- leaves _ _ (match ?x with _ => _ end) => destruct x
      | |- leaves _ _ (let '(_, _) := ?x in _) => destruct x
      end ].

Section searches.
Context {PE : PolicyEnv}.

Lemma ask_leaves {A} (g : nat -> A) : harmless (ask g).
Proof. unfold ask. leave. Qed.
Lemma getv_leaves a : harmless (getv a).
Proof. unfold getv. leave. Qed.
Lemma isset_leaves a : harmless (isset a).
Proof. unfold isset. leave. Qed.
Lemma setv_leaves a t : harmless (setv a t).
Proof. unfold setv. leave. Qed.
Lemma freev_leaves a : harmless (freev a).
Proof. unfold freev. leave. Qed.
#[local] Hint Resolve @ask_leaves getv_leaves isset_leaves setv_leaves freev_leaves : leaves.

Lemma valueeq_leaves a t : harmless (valueeq a t).
Proof. unfold valueeq. leave. Qed.
Lemma PICK_PA_MSG_leaves a : harmless (PICK_PA_MSG a).
Proof. unfold PICK_PA_MSG. leave. Qed.
Lemma set_if_none_message_leaves t : harmless (set_if_none_message t).
Proof. unfold set_if_none_message. leave. Qed.
Lemma store_attribute_leaves a t m : harmless (store_attribute a t m).
Proof. unfold store_attribute. leave. Qed.
#[local] Hint Resolve valueeq_leaves PICK_PA_MSG_leaves set_if_none_message_leaves store_attribute_leaves : leaves.

Lemma attr_loop_leaves alias fuel : (forall t, harmless (alias t)) ->
  forall str m, harmless (attr_loop alias fuel str m).
Proof. intros Ha. induction fuel as [|fuel IH]; intros str m; cbn [attr_loop]; leave. Qed.

Lemma resolve_leaves r : forall key, harmless (resolve r key).
Proof.
  induction r as [|r IH]; intros key; cbn [resolve]; destruct (dbquery key); leave; apply attr_loop_leaves; leave.
Qed.

Lemma resolveattributes_leaves r key : harmless (resolveattributes r key).
Proof. unfold resolveattributes. leave. apply resolve_leaves. Qed.
#[local] Hint Resolve resolveattributes_leaves : leaves.

Lemma width_loop_leaves n c : forall b, harmless (width_loop n c b).
Proof. induction n as [|n IH]; intros b; cbn [width_loop]; leave. Qed.
#[local] Hint Resolve width_loop_leaves : leaves.

Lemma checkaddr_leaves b : harmless (checkaddr b).
Proof. unfold checkaddr. leave. Qed.
#[local] Hint Resolve checkaddr_leaves : leaves.

Lemma domain_loop_leaves fuel : forall b, harmless (suffix_loop fuel b).
Proof. induction fuel as [|fuel IH]; intros b; cbn [suffix_loop]; leave. Qed.

Lemma rbl_loop_leaves p names : harmless (rbl_loop p names).
Proof. induction names as [|n names IH]; cbn [rbl_loop]; leave. Qed.
#[local] Hint Resolve domain_loop_leaves rbl_loop_leaves : leaves.

Lemma addr_filter_leaves : harmless addr_filter.
Proof. unfold addr_filter. leave. Qed.
#[local] Hint Resolve addr_filter_leaves : leaves.

(** An address that is not the client's. *)
Lemma addrtest_leaves b : harmless (_addrtest_ b false).
Proof. unfold _addrtest_, addr_local, addr_rbl, rbl_dns_test. leave. Qed.
#[local] Hint Resolve addrtest_leaves : leaves.

Lemma check_domain_leaves d n : harmless (check_domain d n).
Proof. unfold check_domain. leave. Qed.
Lemma check_user_leaves u n : harmless (check_user u n).
Proof. unfold check_user. leave. Qed.
#[local] Hint Resolve check_domain_leaves check_user_leaves : leaves.

Lemma sender_dns_verify_leaves r d : harmless (sender_dns_verify r d).
Proof. unfold sender_dns_verify, mx_lookup. leave. Qed.
Lemma mx_client_verify_leaves r d : harmless (mx_client_verify r d).
Proof. unfold mx_client_verify, mx_lookup. leave. Qed.
#[local] Hint Resolve sender_dns_verify_leaves mx_client_verify_leaves : leaves.

Lemma pt_mailfrom_leaves str len : harmless (pt_mailfrom str len).
Proof. unfold pt_mailfrom, mailfrom_user, mailfrom_domain, mailfrom_rate, mailfrom_dns, on_plus. leave. Qed.

Lemma rcpt_tail_leaves buf pass : (forall p a len, leaves client any_stop (pass p a len)) ->
  forall p a len, leaves client any_stop (rcpt_tail buf pass p a len).
Proof. intros H p a len. unfold rcpt_tail, rcpt_mx, rcpt_rbl, client_dns_verify, on_plus. leave. Qed.

Lemma rcpt_ours_leaves : harmless rcpt_ours.
Proof. unfold rcpt_ours. leave. Qed.
Lemma rcpt_domain_leaves d n : leaves client any_stop (rcpt_domain d n).
Proof. unfold rcpt_domain. leave. Qed.
#[local] Hint Resolve rcpt_tail_leaves rcpt_ours_leaves rcpt_domain_leaves : leaves.

Lemma rcpt_pass_leaves buf lb : forall p a len, leaves client any_stop (rcpt_pass buf lb p a len).
Proof.
  induction lb as [|lb IH]; intros p a len; cbn [rcpt_pass]; [leave|]. destruct lb; [leave|].
  leave.
Qed.
#[local] Hint Resolve rcpt_pass_leaves : leaves.

Lemma rcpt_user_leaves str len : leaves client any_stop (rcpt_user str len).
Proof. unfold rcpt_user, rcpt_rbl, on_plus. leave. Qed.
#[local] Hint Resolve rcpt_user_leaves : leaves.

Lemma pt_rcptto_leaves str len : harmless (pt_rcptto str len).
Proof. unfold pt_rcptto. leave. Qed.
Lemma pt_rcptpostmaster_leaves str len : harmless (pt_rcptpostmaster str len).
Proof. unfold pt_rcptpostmaster, on_plus. leave. Qed.
End searches.

#[export] Hint Resolve @ask_leaves getv_leaves isset_leaves setv_leaves freev_leaves valueeq_leaves PICK_PA_MSG_leaves
  set_if_none_message_leaves checkaddr_leaves check_domain_leaves check_user_leaves sender_dns_verify_leaves
  mx_client_verify_leaves pt_mailfrom_leaves rcpt_tail_leaves rcpt_ours_leaves rcpt_domain_leaves rcpt_pass_leaves
  rcpt_user_leaves pt_rcptto_leaves pt_rcptpostmaster_leaves : leaves.
