(* ===== verification/PolicyRelay.v ===== *)
(** * When a recipient is accepted

    What pt_rcptto() has seen when it accepts a recipient from a client
    that is not trusted. *)

From Stdlib Require Import ZArith Lia.
From stdpp Require Import base tactics numbers list option gmap.
From S2P Require Import Prelude Policy PolicyFrame.

#[local] Open Scope Z_scope.

Section relay.
Context {PE : PolicyEnv}.

(** The client is not trusted, and nothing is held against it. *)
Definition plain_client (s : policystate) : Prop :=
  always_accept s = false /\ full_trust s = false /\ trust_recipients s = false /\ authuser s = None.

Variable buf : list Z.

(** The last lookup in the DNS was about a part of [buf], and found what it
    was to find. *)
Definition dns_agreed (s : policystate) : Prop :=
  exists n l mode, fst (dnsmxlookup (pred (clock s)) (take l (drop n buf)) mode) = 1.

(** What the last entry that was found says. *)
Definition target (s : policystate) : Prop := values s !! P_A_RELAYTARGET = Some (Text plus).
Definition no_opinion (s : policystate) : Prop :=
  values s !! P_A_RELAYTARGET <> Some (Text minus) /\ values s !! P_A_ACCEPTifMX = None /\
  values s !! P_A_ACCEPTifDNS = None.

Definition permitted (s : policystate) : Prop := target s \/ dns_agreed s \/ no_opinion s.

Definition answer (rc : Z) (s : policystate) : Prop := rc = 0 -> permitted s.
Definition stopped (e : policystop) (s : policystate) : Prop := if e is Return rc then answer rc s else True.

Lemma wpx_valueeq a t (Q : bool -> policystate -> Prop) s :
  (values s !! a = Some (Text t) -> Q true s) -> (values s !! a <> Some (Text t) -> Q false s) ->
  wpx (valueeq a t) stopped Q s.
Proof.
  intros Ht Hf. unfold valueeq, getv. do 2 wpx_step. cbn.
  destruct (values s !! a) as [[u|]|] eqn:E; cbn.
  - wpx_steps. case_bool_decide as H; [apply Ht | apply Hf]; congruence.
  - done.
  - wpx_steps. by apply Hf.
Qed.

Lemma wpx_getv a (Q : option (list Z) -> policystate -> Prop) s : (forall t, Q t s) -> wpx (getv a) stopped Q s.
Proof. intros H. unfold getv. do 2 wpx_step. by destruct (values s !! a) as [[u|]|]; [apply H | | apply H]. Qed.

Lemma wpx_isset a (Q : bool -> policystate -> Prop) s :
  (is_Some (values s !! a) -> Q true s) -> (values s !! a = None -> Q false s) -> wpx (isset a) stopped Q s.
Proof.
  intros Ht Hf. unfold isset. wpx_steps. case_bool_decide as H; [by apply Ht | by apply Hf, eq_None_not_Some].
Qed.

Lemma wpx_pick a (Q : unit -> policystate -> Prop) s :
  (forall m ms, Q tt (set_messages ms (set_message m s))) -> wpx (PICK_PA_MSG a) stopped Q s.
Proof. intros H. unfold PICK_PA_MSG. wpx_steps. apply H. Qed.

Lemma wpx_call {A} (m : pol A) (Q : A -> policystate -> Prop) s :
  harmless m -> (forall a s', client s' = client s -> Q a s') -> wpx m stopped Q s.
Proof. intros H HQ. apply wpx_calm; [done | by intros [] | done]. Qed.

Lemma wpx_on_plus a act rc (Q : unit -> policystate -> Prop) s :
  (values s !! a = Some (Text plus) -> forall m ms, answer rc (set_messages ms (set_message m (act s)))) ->
  (values s !! a <> Some (Text plus) -> Q tt s) ->
  wpx (on_plus a act rc) stopped Q s.
Proof.
  intros Ha Hq. unfold on_plus. wpx_step. apply wpx_valueeq; intros H.
  - do 2 wpx_step. apply wpx_bind, wpx_pick. intros m ms. wpx_steps. by apply Ha.
  - wpx_steps. by apply Hq.
Qed.

Lemma wpx_rbl (Q : unit -> policystate -> Prop) s : Q tt s -> wpx rcpt_rbl stopped Q s.
Proof.
  intros HQ. unfold rcpt_rbl. wpx_step. apply wpx_valueeq; intros H; wpx_steps; [|done].
  destruct (rblmsg s); [|done]. wpx_steps. done.
Qed.

(** A lookup in the DNS about a part of [buf]. *)
Lemma wpx_lookup n l mode (Q : Z -> policystate -> Prop) s :
  (forall rc s', client s' = client s -> (rc = 1 -> dns_agreed s') -> Q rc s') ->
  wpx (mx_lookup (take l (drop n buf)) mode) stopped Q s.
Proof.
  intros HQ. unfold mx_lookup, ask. wpx_steps. cbn.
  destruct (dnsmxlookup _ _ _) as [rc loc] eqn:E. destruct loc as [v|]; wpx_steps; apply HQ;
    [done | | done | ]; intros ->; exists n, l, mode; cbn; by rewrite E.
Qed.

Lemma wpx_verify r n l (Q : Z -> policystate -> Prop) s :
  (forall rc s', client s' = client s -> answer rc s' -> Q rc s') ->
  wpx (client_dns_verify r (take l (drop n buf))) stopped Q s.
Proof.
  intros HQ. unfold client_dns_verify, sender_dns_verify. rewrite take_take. wpx_step.
  apply wpx_lookup. intros rc s' Hc Hd. wpx_steps. apply HQ; [done|]. intros H. right. left.
  apply Hd. destruct (rc =? 1) eqn:E; [by apply Z.eqb_eq in E|]. repeat case_match; discriminate.
Qed.

Lemma wpx_mx_verify r n l (Q : Z -> policystate -> Prop) s :
  (forall rc s', client s' = client s -> answer rc s' -> Q rc s') ->
  wpx (mx_client_verify r (take l (drop n buf))) stopped Q s.
Proof.
  intros HQ. unfold mx_client_verify. rewrite take_take. wpx_step.
  apply wpx_lookup. intros rc s' Hc Hd. wpx_steps. apply HQ; [done|]. intros H. right. left.
  apply Hd. destruct (rc =? 1) eqn:E; [by apply Z.eqb_eq in E|]. repeat case_match; discriminate.
Qed.

(** What is permitted stays so when only messages change, or an attribute
    that is not looked at. *)
Lemma answer_frame rc s s' :
  (forall a, a <> P_A_LocalDomain -> values s' !! a = values s !! a) -> clock s' = clock s -> answer rc s -> answer rc s'.
Proof.
  unfold answer, permitted, target, dns_agreed, no_opinion. intros Hv ->.
  by rewrite !Hv.
Qed.

Lemma wpx_freev a (Q : unit -> policystate -> Prop) s : Q tt s -> wpx (freev a) stopped Q s.
Proof. intros HQ. unfold freev. wpx_steps. by destruct (values s !! a) as [[]|]. Qed.

Lemma always_accept_client s s' : client s' = client s -> always_accept s = false -> always_accept s' = false.
Proof. unfold client. intros H. injection H. congruence. Qed.

Section tail.
Variable pass : nat -> nat -> Z -> pol Z.
Hypothesis pass_ok : forall p a len s, always_accept s = false -> wpx (pass p a len) stopped answer s.

Lemma wpx_mx p a len s (Q : unit -> policystate -> Prop) :
  always_accept s = false -> wpx (rcpt_mx buf pass p a len) stopped Q s.
Proof.
  intros Hs. unfold rcpt_mx. wpx_step. apply wpx_getv. intros t. do 3 wpx_step. apply wpx_mx_verify.
  intros rc s' Hc Ha. do 3 wpx_step.
  assert (always_accept s' = false) as Hs' by by eapply always_accept_client.
  wpx_step.
  - wpx_step. apply wpx_bind, wpx_pick. intros m ms. wpx_step. by apply (answer_frame _ s').
  - wpx_step. apply wpx_freev. unfold setv. wpx_steps.
    assert (wpx (PICK_PA_MSG P_A_ACCEPTifMX;; exit (Return rc)) stopped Q
              (set_values (<[P_A_LocalDomain := Text plus]> (values s')) s')).
    { apply wpx_bind, wpx_pick. intros m ms. wpx_step. apply (answer_frame _ s'); [|done|done].
      intros a' Ha'. cbn. by rewrite lookup_insert_ne. }
    assert (wpx (rc ← pass p a len; exit (Return rc) : pol unit) stopped
      (fun _ => wpx (PICK_PA_MSG P_A_ACCEPTifMX;; exit (Return rc)) stopped Q)
              (set_values (<[P_A_LocalDomain := Text plus]> (values s')) s')).
    { wpx_step. eapply wpx_mono; [by apply pass_ok | done |]. intros r s2 H2. by wpx_step. }
    by repeat case_match.
Qed.

Lemma wpx_tail p a len s : always_accept s = false -> wpx (rcpt_tail buf pass p a len) stopped answer s.
Proof.
  intros Hs. unfold rcpt_tail. wpx_step. apply wpx_valueeq; intros Hm; wpx_step.
  { apply wpx_bind, wpx_pick. intros m ms. by wpx_steps. }
  wpx_steps. apply wpx_on_plus; [done|]. intros _. wpx_step. apply wpx_rbl. wpx_step.
  apply wpx_on_plus; [intros H m ms _; by left|]. intros Hp. do 2 wpx_step. unfold id. rewrite Hs.
  do 3 wpx_step. apply wpx_isset; intros Hmx; [|destruct (sender_norelay s)]; cbn [orb];
    [wpx_step; by apply wpx_mx..|].
  do 3 wpx_step. apply wpx_isset; intros Hd.
  - do 2 wpx_step. apply wpx_getv. intros t. wpx_step. apply wpx_verify. intros rc s' Hc Ha.
    wpx_step. apply wpx_pick. intros m ms. wpx_step. by apply (answer_frame _ s').
  - wpx_steps. intros _. right. right. done.
Qed.
End tail.

(** The loop. *)
Lemma wpx_domain d n (Q : unit -> policystate -> Prop) s :
  (forall s', client s' = client s -> Q tt s') -> wpx (rcpt_domain d n) stopped Q s.
Proof.
  intros HQ. unfold rcpt_domain, ret_if. do 3 wpx_step. apply wpx_call; [auto with leaves|].
  intros r s' Hc. wpx_steps; [done | by apply HQ].
Qed.

Lemma wpx_again (m1 m2 : pol Z) s :
  (forall s', client s' = client s -> wpx m1 stopped answer s') ->
  (forall s', client s' = client s -> wpx m2 stopped answer s') ->
  wpx (b ← rcpt_ours; if b : bool then m1 else m2) stopped answer s.
Proof. intros H1 H2. wpx_step. apply wpx_call; [auto with leaves|]. intros b s' Hc. destruct b; auto. Qed.

Definition again_pass (lb p a : nat) (len : Z) : pol Z :=
  b ← rcpt_ours; if b : bool then rcpt_pass buf lb p a len else rcpt_tail buf (rcpt_pass buf lb) p a len.

Lemma rcpt_pass_S lb p a len : rcpt_pass buf (S (S lb)) p a len =
  match (if percent_accept <? 0 then find_from buf ($"!") p (a - p) else None) with
  | Some phack => rcpt_domain (drop p buf) (phack - p);; again_pass (S lb) (phack + 1)%nat a len
  | None =>
      match find_from buf ($"%") p (a - p) with
      | Some phack =>
          let phack := last_percent buf (a - phack) phack a in
          let llen := (a - phack - 1)%nat in
          rcpt_domain (drop (phack + 1) buf) llen;;
          again_pass (S lb) p phack (1 + (Z.of_nat phack - Z.of_nat p) + Z.of_nat llen)
      | None => rcpt_tail buf (rcpt_pass buf (S lb)) p a len
      end
  end.
Proof. done. Qed.

Lemma wpx_pass lb : forall p a len s, always_accept s = false -> wpx (rcpt_pass buf lb p a len) stopped answer s.
Proof.
  induction lb as [|lb IH]; intros p a len s Hs; [done|]. destruct lb as [|lb']; [done|].
  assert (forall d n p a len, wpx (rcpt_domain d n;; again_pass (S lb') p a len) stopped answer s) as Hagain.
  { intros d n p' a' len'. wpx_step. apply wpx_domain. intros s' Hc.
    assert (always_accept s' = false) as Hs' by by eapply always_accept_client.
    apply wpx_again; intros s2 H2; [apply IH | apply wpx_tail; [exact IH|]]; by eapply always_accept_client. }
  rewrite rcpt_pass_S. repeat case_match; try apply Hagain; by apply wpx_tail.
Qed.

Lemma wpx_user str len (Q : unit -> policystate -> Prop) s :
  (forall s', client s' = client s -> Q tt s') -> wpx (rcpt_user str len) stopped Q s.
Proof.
  intros HQ. unfold rcpt_user. do 3 wpx_step. apply wpx_call; [auto with leaves|].
  intros r s' Hc. wpx_step; [|wpx_steps; by apply HQ]. wpx_step.
  apply wpx_on_plus; [intros ? m ms _; by left|]. intros _. wpx_step.
  apply wpx_valueeq; intros Hm; wpx_step.
  { apply wpx_bind, wpx_pick. intros m ms. by wpx_steps. }
  wpx_steps. apply wpx_on_plus; [done|]. intros _. apply wpx_rbl. by apply HQ.
Qed.

Lemma wpx_fn (m : pol Z) s : wpx m stopped answer s -> wpx (fn m) (fun _ _ => True) answer s.
Proof. unfold wpx, fn. by destruct (m s) as [[[]|] ?]. Qed.
End relay.

Section rcptto.
Context {PE : PolicyEnv}.

Lemma relay_permitted str len s : plain_client s ->
  wpx (pt_rcptto str len) (fun _ _ => True) (answer str) s.
Proof.
  intros (Ha & Hf & Ht & Hu). unfold pt_rcptto. apply wpx_fn. do 2 wpx_step. unfold id.
  rewrite Ha, Hf, Ht, Hu. rewrite bool_decide_eq_false_2 by (intros [? ?]; done). unfold ret_if.
  do 4 (wpx_step; wpx_step; [done|]; wpx_step). do 3 (wpx_step; wpx_step).
  wpx_step. apply wpx_user. intros s1 Hc1. do 2 wpx_step.
  assert (always_accept s1 = false) as Hs1 by by eapply always_accept_client.
  destruct (find_nonqchr _ _ _ _) as [a|]; [|by wpx_steps].
  wpx_step. apply wpx_domain. intros s2 Hc2.
  assert (always_accept s2 = false) as Hs2 by by eapply always_accept_client.
  apply wpx_again; intros s3 Hc3; [apply wpx_pass | apply wpx_tail; [apply wpx_pass|]]; by eapply always_accept_client.
Qed.
End rcptto.
