(* ===== verification/PolicyProps.v ===== *)
(** * Properties of the policy database *)

From Stdlib Require Import ZArith Lia.
From stdpp Require Import base tactics numbers list option gmap.
From S2P Require Import Prelude Policy PolicyKeys PolicyFrame PolicyRelay.

#[local] Open Scope Z_scope.

(** ** A small database *)

Definition demo_db : list (list Z * list Z) :=
  [ (name_key P_K_DOMAIN ($$".example.org"), [4; P_A_RELAYTARGET; $"+"; 0]);
    (name_key P_K_DOMAIN ($$"bad.example.org"), [4; P_A_RELAYTARGET; $"-"; 0]);
    (name_key P_K_DOMAIN ($$"rbl.example.org"), [6; P_A_RcptDnsRBL; $"_"; $"n"; $"o"; 0]);
    ([7; P_K_IPv4; 10; 0; 0; 0; 8], [4; P_A_RELAYCUSTNET; $"+"; 0]);
    ([7; P_K_IPv4; 10; 66; 0; 0; 16], [4; P_A_REJECTNET; $"+"; 0]) ].

Definition assoc (k : list Z) (l : list (list Z * list Z)) : option (list Z) :=
  snd <$> list_find (fun p => p.1 = k) l ≫= fun p => Some (snd p).

Definition demo : PolicyEnv := {|
  db k := assoc k demo_db;
  percent_accept := 0;
  matchmyaddress _ := false;
  inet_pton4 _ := None;
  inet_pton6 _ := None;
  dnsmxlookup _ _ _ := (- EX_NOHOST, None);
  gethostbyname _ _ := None;
  txt_lookup _ _ := None;
  call_rate_counter _ _ _ := (0, 0, 0)
|}.

Definition fresh : policystate := policyinit true.

(** ** Sequences of tests *)

Section tests.
Context {PE : PolicyEnv}.

(** What one session asks: the kind of test, and the string. *)
Definition query : Type := PolicyWhat * list Z * Z.

Fixpoint run_tests (l : list query) : pol (list Z) :=
  match l with
  | [] => mret []
  | (what, str, len) :: l => rc ← policytest what str len None; rest ← run_tests l; mret (rc :: rest)
  end.

(** HELO may reject or freeze the client, no more. *)
Lemma heloname_trust str len : leaves trust is_crash (pt_heloname str len).
Proof. unfold pt_heloname, on_plus. leave. Qed.
#[local] Hint Resolve heloname_trust : leaves.

Lemma policyswitch_trust what str len :
  what <> POLICY_SOURCEDOMAIN -> leaves trust is_crash (policyswitch what str len).
Proof. intros Hw. unfold policyswitch. leave; done. Qed.

(** policytest() without a user: the message is dropped first. *)
Lemma policytest_run what str len s :
  policytest what str len None s =
  if has_db s then policyswitch what str len (set_message None s) else (inr 0, s).
Proof.
  unfold policytest, mbind, ex_bind, read, update. destruct (has_db s); [|done]. cbn.
  destruct (authuser s) as [u|] eqn:E; [done|]. cbn. f_equal. destruct s. cbn in *. by rewrite E.
Qed.

Lemma policytest_trust what str len : what <> POLICY_SOURCEDOMAIN -> leaves trust is_crash (policytest what str len None).
Proof.
  intros Hw s. rewrite policytest_run. destruct (has_db s); [|done].
  destruct (policyswitch_trust what str len Hw (set_message None s)) as [-> H]. done.
Qed.

(** C26: A client's trust does not grow with what it says.  Whatever it gives
    as its HELO name, senders and recipients, in any order, and whatever is
    in the database and in the DNS, the flags that make a client trusted stay
    as the tests of its address and of the domain of its address left them. *)
Theorem trust_not_earned (l : list query) (s : policystate) :
  Forall (fun q => q.1.1 <> POLICY_SOURCEDOMAIN) l -> trust (snd (run_tests l s)) = trust s.
Proof.
  intros Hl. enough (leaves trust is_crash (run_tests l)) as H by apply H.
  induction Hl as [|[[what str] len] l Hq Hl IH]; cbn [run_tests]; [leave|].
  apply leaves_bind; [by apply policytest_trust|]. intros rc. by leave.
Qed.

(** ** A client that is rejected *)

Definition asks_client (what : PolicyWhat) : bool :=
  match what with
  | POLICY_HELONAME | POLICY_SOURCEDOMAIN | POLICY_MAILFROM | POLICY_RCPTTO => true
  | _ => false
  end.

Definition rejected (s : policystate) : Prop := has_db s = true /\ always_reject s = true.

Lemma rejected_client s s' : client s' = client s -> rejected s -> rejected s'.
Proof. unfold client, rejected. intros H. injection H. intros. naive_solver congruence. Qed.

Lemma calm_rejected (m : pol Z) (P : Z -> Prop) s : harmless m -> rejected s -> (forall rc, P rc) ->
  wpx m (fun _ _ => True) (fun rc s' => rejected s' /\ P rc) s.
Proof. intros Hm Hs HP. apply wpx_calm; [done | done |]. intros rc s' Hc. split; [by eapply rejected_client | done]. Qed.

(** A function that begins with the test of [always_reject]. *)
Lemma fn_rejected (k : policystate -> pol Z) s : rejected s ->
  fn (s ← read id; ret_if (always_reject s) (-1);; k s) s = (inr (-1), s).
Proof. intros [_ Hr]. unfold fn, ret_if, mbind, ex_bind, read, id. by rewrite Hr. Qed.

Lemma pt_mailfrom_rejected str len s : rejected s ->
  exists s', pt_mailfrom str len s = (inr (-1), s') /\ rejected s'.
Proof.
  intros [Hd Hr]. eexists. unfold pt_mailfrom, fn, ret_if, mbind, ex_bind, update, read, id.
  cbn [always_reject set_sender_reject set_sender_freeze set_sender_norelay]. by rewrite Hr.
Qed.

Lemma policytest_rejected what str len s : rejected s ->
  wpx (policytest what str len None) (fun _ _ => True)
    (fun rc s' => rejected s' /\ (asks_client what = true -> rc = -1)) s.
Proof.
  intros [Hd Hr]. unfold wpx. rewrite policytest_run, Hd.
  assert (rejected (set_message None s)) as Hs by done. revert Hs. generalize (set_message None s) as s1.
  clear s Hd Hr. intros s Hs.
  destruct what; cbn [asks_client policyswitch]; try (apply calm_rejected; [leave | done | done]); try done.
  - unfold pt_heloname. by rewrite fn_rejected.
  - unfold pt_sourcedomain. by rewrite fn_rejected.
  - by destruct (pt_mailfrom_rejected str (Z.to_nat len) s Hs) as (s' & -> & H').
  - unfold pt_rcptto. by rewrite fn_rejected.
Qed.

(** A rejected client stays rejected: once the network, the domain or the
    HELO name of a client is found to be one that is rejected, every HELO,
    MAIL and RCPT of the session is answered -1. *)
Theorem rejected_for_good (l : list query) (s s' : policystate) (rcs : list Z) :
  rejected s -> run_tests l s = (inr rcs, s') ->
  rejected s' /\ Forall2 (fun q rc => asks_client q.1.1 = true -> rc = -1) l rcs.
Proof.
  intros Hs Hrun. enough (wpx (run_tests l) (fun _ _ => True)
    (fun rcs s' => rejected s' /\ Forall2 (fun q rc => asks_client q.1.1 = true -> rc = -1) l rcs) s) as H.
  { unfold wpx in H. by rewrite Hrun in H. }
  clear rcs s' Hrun. revert s Hs. induction l as [|[[what str] len] l IH]; intros s Hs; cbn [run_tests]; [done|].
  wpx_step. eapply wpx_mono; [by apply policytest_rejected | done |]. intros rc s1 [H1 Hrc].
  wpx_step. eapply wpx_mono; [by apply IH | done |]. intros rcs s2 [H2 Hrcs]. wpx_step.
  split; [done|]. by constructor.
Qed.

(** ** Searching *)

(** C28: The most specific entry of a domain is found: a domain is looked for
    as it is written, in lower case, then the entries for its suffixes that
    begin with a dot, the longest first, and at last the single dot; the first
    entry that exists ends the search.  The buffer that holds the key, its
    length byte and the moves in it never get in the way for names of at most
    251 characters. *)
Theorem most_specific_domain (d : list Z) (s : policystate) :
  forallb not_nul d = true -> (length d <= 251)%nat -> hd 0 d <> $"[" ->
  check_domain d (length d) s = search_names (candidates (strlower d)) s.
Proof. apply domain_search. Qed.

(** The smallest network of an IPv4 address is found: the address is
    looked for with all its 32 bits, then with the last bit cleared and the
    width 31, and so on until the network of all addresses.  An address that
    came in as an IPv4-mapped IPv6 address is treated the same. *)
Theorem smallest_network (a : Z) (s : policystate) :
  exists key,
    address_key (V4 (bytes4 a)) = Some key /\ address_key (V6 (zv4mapprefix ++ bytes4 a)) = Some key /\
    checkaddr (key ++ repeat 0 (64 - length key)) s = search_keys (network_key a <$> widths 32) s.
Proof. eexists. split; [reflexivity|]. split; [reflexivity|]. exact (address_search a _ s). Qed.

(** ** The end of the buffer *)

Lemma shift_loop_full i b : length b = S (S (S i)) -> shift_loop (S (S i)) b = None.
Proof. intros Hb. cbn [shift_loop]. by rewrite Hb, Nat.ltb_irrefl. Qed.

(** A name that is not in the database. *)
Lemma resolve_unknown name s : db (name_key P_K_DOMAIN name) = None -> (length name <= 252)%nat ->
  Freed ∉ (map_to_list (values s)).*2 ->
  resolveattributes MAXRECURSIONS (name_key P_K_DOMAIN name) s = (inr (-1), set_messages ∅ (set_values ∅ s)).
Proof.
  intros Hdb Hl Hv. unfold resolveattributes, mbind, ex_bind, read, update.
  rewrite bool_decide_eq_false_2 by done. cbn [MAXRECURSIONS resolve].
  unfold dbquery, name_key. cbn [hd]. rewrite Nat2Z.id, take_ge by (cbn; rewrite length_app; cbn; lia).
  fold (name_key P_K_DOMAIN name). by rewrite Hdb.
Qed.

(** A domain of 252 characters is one too long for the dot that is put in
    front of it: when the database has no entry for the domain itself, the
    move of the key by one place writes behind the buffer. *)
Theorem long_domain_overruns (d : list Z) (s : policystate) :
  forallb not_nul d = true -> length d = 252%nat -> hd 0 d <> $"[" -> hd 0 d <> $"." ->
  db (name_key P_K_DOMAIN (strlower d)) = None -> Freed ∉ (map_to_list (values s)).*2 ->
  fst (check_domain d (length d) s) = inl Overrun.
Proof.
  intros Hd Hl Hb Hdot Hdb Hv. unfold check_domain. rewrite Nat.min_l, take_ge by lia.
  pose proof (key_buffer_name d Hd ltac:(lia)) as Hk. pose proof (holds_name_first _ _ _ Hk) as E.
  change (nth 2 (key_buffer 256 d) 0 = hd 0 (strlower d)) in E.
  rewrite E, hd_strlower, (proj2 (Z.eqb_neq _ _) Hb) by done.
  change DOMAIN_FUEL with (S 599). generalize 599%nat as fuel. intros fuel. cbn [suffix_loop].
  rewrite (checkaddr_name _ _ Hk), bind_eval, resolve_unknown;
    [|done | unfold strlower; rewrite length_fmap; lia | done].
  rewrite (holds_name_first _ _ _ Hk), hd_strlower, (proj2 (Z.eqb_neq _ _) Hdot) by done. cbn [negb].
  destruct Hk as (junk & -> & Hlen). unfold add_dot. cbn [hd]. rewrite Nat2Z.id.
  replace (length (strlower d) + 3)%nat with (S (S 253)) by (unfold strlower; rewrite length_fmap; lia).
  by rewrite shift_loop_full.
Qed.

(** ** Recipients *)

End tests.

(** ** Witnesses and examples *)

Definition ask_rcpt (addr : list Z) : query := (POLICY_RCPTTO, addr, Z.of_nat (length addr)).
Definition ask_mail (addr : list Z) : query := (POLICY_MAILFROM, addr, Z.of_nat (length addr)).
Definition session (l : list query) (s : policystate) := @run_tests demo l s.

(** Clients from two networks. *)
Definition customer : policystate := snd (@policytestaddr demo (V4 [10; 1; 2; 3]) fresh).
Definition outcast : policystate := snd (@policytestaddr demo (V4 [10; 66; 2; 3]) fresh).
Definition stranger : policystate := snd (@policytestaddr demo (V4 [192; 168; 0; 1]) fresh).

Example customer_accepted : always_accept customer = true.
Proof. vm_compute. reflexivity. Qed.
Example outcast_rejected : (has_db outcast, always_reject outcast) = (true, true).
Proof. vm_compute. reflexivity. Qed.

Definition demo_session : list query :=
  [(POLICY_HELONAME, $$"mail.example.com", 16); ask_mail ($$"a@b.example.com"); ask_rcpt ($$"joe@Sub.Example.org");
   ask_rcpt ($$"joe@bad.example.org")].

Example stranger_answers : fst (session demo_session stranger) = inr [0; 0; 0; -1].
Proof. vm_compute. reflexivity. Qed.

Lemma trust_not_earned_witness :
  Forall (fun q => q.1.1 <> POLICY_SOURCEDOMAIN) demo_session /\ trust (snd (session demo_session stranger)) = trust stranger.
Proof.
  split; [repeat constructor; done|]. apply (@trust_not_earned demo). repeat constructor; done.
Defined.

Lemma rejected_for_good_witness :
  rejected outcast /\
  exists rcs s', session demo_session outcast = (inr rcs, s') /\ rejected s' /\
    Forall2 (fun q rc => asks_client q.1.1 = true -> rc = -1) demo_session rcs.
Proof.
  split; [by vm_compute|]. exists [-1; -1; -1; -1], (snd (session demo_session outcast)).
  split; [vm_compute; reflexivity|].
  apply (@rejected_for_good demo _ outcast); [by vm_compute | vm_compute; reflexivity].
Defined.

Lemma most_specific_domain_witness :
  @check_domain demo ($$"Mail.Example.org") 16 fresh =
    @search_names demo ((fun n => $$n) <$> ["mail.example.org"; ".mail.example.org"; ".example.org"; ".org"; "."]%string) fresh.
Proof. apply (@most_specific_domain demo ($$"Mail.Example.org")); [reflexivity | cbn; lia | done]. Defined.

Definition long_name : list Z := replicate 252 ($"a").

Lemma long_domain_overruns_witness : length long_name = 252%nat /\ fst (@check_domain demo long_name 252 fresh) = inl Overrun.
Proof.
  split; [reflexivity|].
  apply (@long_domain_overruns demo long_name fresh); [reflexivity | reflexivity | done | done | vm_compute; reflexivity |].
  cbn. by apply not_elem_of_nil.
Defined.

Definition relay_addr : list Z := $$"joe%sub.example.org@mail.example.org".


(** ** What the examples show *)

(** A recipient in a domain that no entry of the database names is accepted,
    although the client is not trusted. *)
Lemma unknown_domain_accepted : fst (session [ask_mail ($$"a@b"); ask_rcpt ($$"joe@elsewhere")] stranger) = inr [0; 0].
Proof. vm_compute. reflexivity. Qed.

(** A recipient without a domain is refused, but accepted when it follows a
    recipient that was accepted: check_user() looks nothing up and the values
    of the recipient before it are still there. *)
Lemma stale_values_accept :
  fst (session [ask_mail ($$"a@b"); ask_rcpt ($$"joe")] stranger) = inr [0; -1] /\
  fst (session [ask_mail ($$"a@b"); ask_rcpt ($$"joe@sub.example.org"); ask_rcpt ($$"joe")] stranger) = inr [0; 0; 0].
Proof. vm_compute. split; reflexivity. Qed.

(** The value that pt_sourcedomain() frees is used by the next test. *)
Lemma source_domain_value_freed :
  fst (session [(POLICY_SOURCEDOMAIN, $$"rbl.example.org", 15); (POLICY_HELONAME, $$"x", 1)] stranger) = inl UseAfterFree.
Proof. vm_compute. reflexivity. Qed.
