(* ===== verification/SmtpState.v ===== *)
(** * State and output of an SMTP session

    The session record of smtpserver/smtpserver.h, the configuration it
    reads, the outside world it talks to, and the routines every command
    uses: [type], [type821err] and [smtp_tarpit] of smtpserver.c, and the
    client side of the interactive router in subdaemon-rtr.c. *)

From Stdlib Require Import ZArith Lia.
From stdpp Require Import base tactics numbers list option.
From S2P Require Import Prelude StrMatch Rfc821.

#[local] Open Scope Z_scope.

(** ** Data *)

Inductive Command :=
| Null | Hello | Mail | MailOrHello | Recipient
| RecipientOrData | Data | Send | SendOrMail
| SendAndMail | Reset | Verify | Expand | Help
| NoOp | Quit | Turn | Tick | Verbose | DebugIdent
| Turnme | BData | DebugMode | Auth | Report
| Hello2 | Mail2 | Send2 | Verify2
| HelloL
| Silent.

#[export] Instance Command_eq_dec : EqDecision Command.
Proof. solve_decision. Defined.

Definition cmd_eqb (a b : Command) : bool := bool_decide (a = b).

(** What policytest() is asked about. *)
Inductive policy_test :=
| POLICY_HELONAME | POLICY_MAILFROM | POLICY_RCPTTO | POLICY_RCPTPOSTMASTER | POLICY_DATAABORT
| POLICY_DATAOK | POLICY_AUTHFAIL.

(** The counters of the monitoring block the handlers increment. *)
Inductive mib_counter :=
| IncomingSMTP_HELO | IncomingSMTP_EHLO | IncomingSMTP_MAIL | IncomingSMTP_MAIL_ok
| IncomingSMTP_MAIL_bad | IncomingSMTP_RCPT | IncomingSMTP_RCPT_ok | IncomingSMTP_RCPT_bad
| IncomingSMTP_RSET | IncomingSMTP_VRFY | IncomingSMTP_EXPN | IncomingSMTP_TURN
| IncomingSMTP_NOOP | IncomingSMTP_VERBOSE | IncomingSMTP_TICK | IncomingSMTP_QUIT
| IncomingSMTP_OPT_RET | IncomingSMTP_OPT_BODY_8BITMIME | IncomingSMTP_OPT_BODY_BINARYMIME
| IncomingSMTP_OPT_BODY_7BIT | IncomingSMTP_OPT_SIZE | IncomingSMTP_OPT_ENVID
| IncomingSMTP_OPT_AUTH | IncomingSMTP_OPT_DELIVERBY | IncomingSMTP_OPT_NOTIFY
| IncomingSMTP_OPT_ORCPT | IncomingCommands_unknown | IncomingSmtpTarpits
| ReceivedMessagesSs | ReceivedRecipientsSs (n : Z)
| TransmittedMessagesSs | TransmittedRecipientsSs (n : Z)
| IncomingSMTP_DATA | IncomingSMTP_DATA_ok | IncomingSMTP_DATA_bad | IncomingSMTP_DATA_KBYTES (n : Z)
| IncomingSMTP_BDAT | IncomingSMTP_BDAT_ok | IncomingSMTP_BDAT_bad | IncomingSMTP_BDAT_KBYTES (n : Z)
| IncomingSMTP_spool_KBYTES (n : Z).

Inductive event :=
| EvReply (code : Z) (line : list Z)      (** a reply line, [code <= 0] for a continuation *)
| EvCaret (line : list Z)                 (** the marker line of [type821err] *)
| EvTarpit                                (** smtp_tarpit() was called *)
| EvPolicy (t : policy_test) (arg : list Z) (len : Z) (user : option (list Z))
| EvMailOpen
| EvMailAbort
| EvMailClose (file : list Z)             (** mail_close(): the file goes to the router *)
| EvMailAlternate (dir suffix file : list Z)  (** mail_close_alternate(): to another directory *)
| EvContentPolicy (file : list Z)         (** the content filter is asked *)
| EvPassword (user password : list Z) (ok : bool)  (** a password was checked *)
| EvRouter (function arg : list Z)        (** a question to the interactive router *)
| EvRouterLine                            (** one line read from it *)
| EvMib (c : mib_counter).

(** struct rtr_state: is the output stream open, was the prompt seen, and
    the reply line held back. *)
Record rtr_state := Rtr { outfp : bool; sawhungry : bool; pbuf : option (list Z) }.

(** The fields of struct SmtpState that the modelled code uses, followed by
    the globals it changes, the unread input and the trace. *)
Record SmtpState := MkSmtpState {
  mfp : option (list Z);  (** the spool file: what was written since it was opened or rewound *)
  messagesize : Z;
  sizeoptval : Z;
  sizeoptsum : Z;
  with_protocol_set : Z;
  state : Command;
  policyresult : Z;
  rhostflags : Z;
  smtpfrom : option (list Z);  (** [MAIL FROM] address *)
  deliverby_time : Z;
  deliverby_flags : Z;
  from_box : bool;
  rcpt_count : Z;
  ok_rcpt_count : Z;
  sender_ok : bool;
  authuser : option (list Z);  (** set by AUTH *)
  helobuf : list Z;  (** HELO line, at most 199 characters *)
  cfinfo : option (list Z);  (** flags of the matching configuration entry *)
  irouter_state : option rtr_state;  (** connection to the interactive router *)
  err821 : rfc821_err;  (** rfc821_error and rfc821_error_ptr *)
  availspace : Z;  (** global *)
  interface_fail_count : Z;  (** of subdaemon-rtr.c *)
  mustexit : Z;
  unknown_cmd_count : Z;
  bdata_blocknum : Z;  (** BDAT commands of this transaction so far *)
  mvbstate : Z;  (** the last character of the BDAT data *)
  mail_priority : Z;  (** global, of libc/mail.c *)
  s_status : bool;  (** the end of the input was seen *)
  pipeauthchild_status : Z;  (** of zpwmatch-pipe.c: the last exit status of the password program *)
  input : list Z;  (** what the client has sent and was not read yet *)
  trace : list event  (** what the server did, latest first *)
}.

(** Assignment to one field. *)
Definition set_mfp (v : option (list Z)) (ss : SmtpState) : SmtpState :=
  MkSmtpState v (messagesize ss) (sizeoptval ss) (sizeoptsum ss) (with_protocol_set ss) (state ss) (policyresult ss) (rhostflags ss) (smtpfrom ss) (deliverby_time ss) (deliverby_flags ss) (from_box ss) (rcpt_count ss) (ok_rcpt_count ss) (sender_ok ss) (authuser ss) (helobuf ss) (cfinfo ss) (irouter_state ss) (err821 ss) (availspace ss) (interface_fail_count ss) (mustexit ss) (unknown_cmd_count ss) (bdata_blocknum ss) (mvbstate ss) (mail_priority ss) (s_status ss) (pipeauthchild_status ss) (input ss) (trace ss).
Definition set_messagesize (v : Z) (ss : SmtpState) : SmtpState :=
  MkSmtpState (mfp ss) v (sizeoptval ss) (sizeoptsum ss) (with_protocol_set ss) (state ss) (policyresult ss) (rhostflags ss) (smtpfrom ss) (deliverby_time ss) (deliverby_flags ss) (from_box ss) (rcpt_count ss) (ok_rcpt_count ss) (sender_ok ss) (authuser ss) (helobuf ss) (cfinfo ss) (irouter_state ss) (err821 ss) (availspace ss) (interface_fail_count ss) (mustexit ss) (unknown_cmd_count ss) (bdata_blocknum ss) (mvbstate ss) (mail_priority ss) (s_status ss) (pipeauthchild_status ss) (input ss) (trace ss).
Definition set_sizeoptval (v : Z) (ss : SmtpState) : SmtpState :=
  MkSmtpState (mfp ss) (messagesize ss) v (sizeoptsum ss) (with_protocol_set ss) (state ss) (policyresult ss) (rhostflags ss) (smtpfrom ss) (deliverby_time ss) (deliverby_flags ss) (from_box ss) (rcpt_count ss) (ok_rcpt_count ss) (sender_ok ss) (authuser ss) (helobuf ss) (cfinfo ss) (irouter_state ss) (err821 ss) (availspace ss) (interface_fail_count ss) (mustexit ss) (unknown_cmd_count ss) (bdata_blocknum ss) (mvbstate ss) (mail_priority ss) (s_status ss) (pipeauthchild_status ss) (input ss) (trace ss).
Definition set_sizeoptsum (v : Z) (ss : SmtpState) : SmtpState :=
  MkSmtpState (mfp ss) (messagesize ss) (sizeoptval ss) v (with_protocol_set ss) (state ss) (policyresult ss) (rhostflags ss) (smtpfrom ss) (deliverby_time ss) (deliverby_flags ss) (from_box ss) (rcpt_count ss) (ok_rcpt_count ss) (sender_ok ss) (authuser ss) (helobuf ss) (cfinfo ss) (irouter_state ss) (err821 ss) (availspace ss) (interface_fail_count ss) (mustexit ss) (unknown_cmd_count ss) (bdata_blocknum ss) (mvbstate ss) (mail_priority ss) (s_status ss) (pipeauthchild_status ss) (input ss) (trace ss).
Definition set_with_protocol_set (v : Z) (ss : SmtpState) : SmtpState :=
  MkSmtpState (mfp ss) (messagesize ss) (sizeoptval ss) (sizeoptsum ss) v (state ss) (policyresult ss) (rhostflags ss) (smtpfrom ss) (deliverby_time ss) (deliverby_flags ss) (from_box ss) (rcpt_count ss) (ok_rcpt_count ss) (sender_ok ss) (authuser ss) (helobuf ss) (cfinfo ss) (irouter_state ss) (err821 ss) (availspace ss) (interface_fail_count ss) (mustexit ss) (unknown_cmd_count ss) (bdata_blocknum ss) (mvbstate ss) (mail_priority ss) (s_status ss) (pipeauthchild_status ss) (input ss) (trace ss).
Definition set_state (v : Command) (ss : SmtpState) : SmtpState :=
  MkSmtpState (mfp ss) (messagesize ss) (sizeoptval ss) (sizeoptsum ss) (with_protocol_set ss) v (policyresult ss) (rhostflags ss) (smtpfrom ss) (deliverby_time ss) (deliverby_flags ss) (from_box ss) (rcpt_count ss) (ok_rcpt_count ss) (sender_ok ss) (authuser ss) (helobuf ss) (cfinfo ss) (irouter_state ss) (err821 ss) (availspace ss) (interface_fail_count ss) (mustexit ss) (unknown_cmd_count ss) (bdata_blocknum ss) (mvbstate ss) (mail_priority ss) (s_status ss) (pipeauthchild_status ss) (input ss) (trace ss).
Definition set_policyresult (v : Z) (ss : SmtpState) : SmtpState :=
  MkSmtpState (mfp ss) (messagesize ss) (sizeoptval ss) (sizeoptsum ss) (with_protocol_set ss) (state ss) v (rhostflags ss) (smtpfrom ss) (deliverby_time ss) (deliverby_flags ss) (from_box ss) (rcpt_count ss) (ok_rcpt_count ss) (sender_ok ss) (authuser ss) (helobuf ss) (cfinfo ss) (irouter_state ss) (err821 ss) (availspace ss) (interface_fail_count ss) (mustexit ss) (unknown_cmd_count ss) (bdata_blocknum ss) (mvbstate ss) (mail_priority ss) (s_status ss) (pipeauthchild_status ss) (input ss) (trace ss).
Definition set_rhostflags (v : Z) (ss : SmtpState) : SmtpState :=
  MkSmtpState (mfp ss) (messagesize ss) (sizeoptval ss) (sizeoptsum ss) (with_protocol_set ss) (state ss) (policyresult ss) v (smtpfrom ss) (deliverby_time ss) (deliverby_flags ss) (from_box ss) (rcpt_count ss) (ok_rcpt_count ss) (sender_ok ss) (authuser ss) (helobuf ss) (cfinfo ss) (irouter_state ss) (err821 ss) (availspace ss) (interface_fail_count ss) (mustexit ss) (unknown_cmd_count ss) (bdata_blocknum ss) (mvbstate ss) (mail_priority ss) (s_status ss) (pipeauthchild_status ss) (input ss) (trace ss).
Definition set_smtpfrom (v : option (list Z)) (ss : SmtpState) : SmtpState :=
  MkSmtpState (mfp ss) (messagesize ss) (sizeoptval ss) (sizeoptsum ss) (with_protocol_set ss) (state ss) (policyresult ss) (rhostflags ss) v (deliverby_time ss) (deliverby_flags ss) (from_box ss) (rcpt_count ss) (ok_rcpt_count ss) (sender_ok ss) (authuser ss) (helobuf ss) (cfinfo ss) (irouter_state ss) (err821 ss) (availspace ss) (interface_fail_count ss) (mustexit ss) (unknown_cmd_count ss) (bdata_blocknum ss) (mvbstate ss) (mail_priority ss) (s_status ss) (pipeauthchild_status ss) (input ss) (trace ss).
Definition set_deliverby_time (v : Z) (ss : SmtpState) : SmtpState :=
  MkSmtpState (mfp ss) (messagesize ss) (sizeoptval ss) (sizeoptsum ss) (with_protocol_set ss) (state ss) (policyresult ss) (rhostflags ss) (smtpfrom ss) v (deliverby_flags ss) (from_box ss) (rcpt_count ss) (ok_rcpt_count ss) (sender_ok ss) (authuser ss) (helobuf ss) (cfinfo ss) (irouter_state ss) (err821 ss) (availspace ss) (interface_fail_count ss) (mustexit ss) (unknown_cmd_count ss) (bdata_blocknum ss) (mvbstate ss) (mail_priority ss) (s_status ss) (pipeauthchild_status ss) (input ss) (trace ss).
Definition set_deliverby_flags (v : Z) (ss : SmtpState) : SmtpState :=
  MkSmtpState (mfp ss) (messagesize ss) (sizeoptval ss) (sizeoptsum ss) (with_protocol_set ss) (state ss) (policyresult ss) (rhostflags ss) (smtpfrom ss) (deliverby_time ss) v (from_box ss) (rcpt_count ss) (ok_rcpt_count ss) (sender_ok ss) (authuser ss) (helobuf ss) (cfinfo ss) (irouter_state ss) (err821 ss) (availspace ss) (interface_fail_count ss) (mustexit ss) (unknown_cmd_count ss) (bdata_blocknum ss) (mvbstate ss) (mail_priority ss) (s_status ss) (pipeauthchild_status ss) (input ss) (trace ss).
Definition set_from_box (v : bool) (ss : SmtpState) : SmtpState :=
  MkSmtpState (mfp ss) (messagesize ss) (sizeoptval ss) (sizeoptsum ss) (with_protocol_set ss) (state ss) (policyresult ss) (rhostflags ss) (smtpfrom ss) (deliverby_time ss) (deliverby_flags ss) v (rcpt_count ss) (ok_rcpt_count ss) (sender_ok ss) (authuser ss) (helobuf ss) (cfinfo ss) (irouter_state ss) (err821 ss) (availspace ss) (interface_fail_count ss) (mustexit ss) (unknown_cmd_count ss) (bdata_blocknum ss) (mvbstate ss) (mail_priority ss) (s_status ss) (pipeauthchild_status ss) (input ss) (trace ss).
Definition set_rcpt_count (v : Z) (ss : SmtpState) : SmtpState :=
  MkSmtpState (mfp ss) (messagesize ss) (sizeoptval ss) (sizeoptsum ss) (with_protocol_set ss) (state ss) (policyresult ss) (rhostflags ss) (smtpfrom ss) (deliverby_time ss) (deliverby_flags ss) (from_box ss) v (ok_rcpt_count ss) (sender_ok ss) (authuser ss) (helobuf ss) (cfinfo ss) (irouter_state ss) (err821 ss) (availspace ss) (interface_fail_count ss) (mustexit ss) (unknown_cmd_count ss) (bdata_blocknum ss) (mvbstate ss) (mail_priority ss) (s_status ss) (pipeauthchild_status ss) (input ss) (trace ss).
Definition set_ok_rcpt_count (v : Z) (ss : SmtpState) : SmtpState :=
  MkSmtpState (mfp ss) (messagesize ss) (sizeoptval ss) (sizeoptsum ss) (with_protocol_set ss) (state ss) (policyresult ss) (rhostflags ss) (smtpfrom ss) (deliverby_time ss) (deliverby_flags ss) (from_box ss) (rcpt_count ss) v (sender_ok ss) (authuser ss) (helobuf ss) (cfinfo ss) (irouter_state ss) (err821 ss) (availspace ss) (interface_fail_count ss) (mustexit ss) (unknown_cmd_count ss) (bdata_blocknum ss) (mvbstate ss) (mail_priority ss) (s_status ss) (pipeauthchild_status ss) (input ss) (trace ss).
Definition set_sender_ok (v : bool) (ss : SmtpState) : SmtpState :=
  MkSmtpState (mfp ss) (messagesize ss) (sizeoptval ss) (sizeoptsum ss) (with_protocol_set ss) (state ss) (policyresult ss) (rhostflags ss) (smtpfrom ss) (deliverby_time ss) (deliverby_flags ss) (from_box ss) (rcpt_count ss) (ok_rcpt_count ss) v (authuser ss) (helobuf ss) (cfinfo ss) (irouter_state ss) (err821 ss) (availspace ss) (interface_fail_count ss) (mustexit ss) (unknown_cmd_count ss) (bdata_blocknum ss) (mvbstate ss) (mail_priority ss) (s_status ss) (pipeauthchild_status ss) (input ss) (trace ss).
Definition set_authuser (v : option (list Z)) (ss : SmtpState) : SmtpState :=
  MkSmtpState (mfp ss) (messagesize ss) (sizeoptval ss) (sizeoptsum ss) (with_protocol_set ss) (state ss) (policyresult ss) (rhostflags ss) (smtpfrom ss) (deliverby_time ss) (deliverby_flags ss) (from_box ss) (rcpt_count ss) (ok_rcpt_count ss) (sender_ok ss) v (helobuf ss) (cfinfo ss) (irouter_state ss) (err821 ss) (availspace ss) (interface_fail_count ss) (mustexit ss) (unknown_cmd_count ss) (bdata_blocknum ss) (mvbstate ss) (mail_priority ss) (s_status ss) (pipeauthchild_status ss) (input ss) (trace ss).
Definition set_helobuf (v : list Z) (ss : SmtpState) : SmtpState :=
  MkSmtpState (mfp ss) (messagesize ss) (sizeoptval ss) (sizeoptsum ss) (with_protocol_set ss) (state ss) (policyresult ss) (rhostflags ss) (smtpfrom ss) (deliverby_time ss) (deliverby_flags ss) (from_box ss) (rcpt_count ss) (ok_rcpt_count ss) (sender_ok ss) (authuser ss) v (cfinfo ss) (irouter_state ss) (err821 ss) (availspace ss) (interface_fail_count ss) (mustexit ss) (unknown_cmd_count ss) (bdata_blocknum ss) (mvbstate ss) (mail_priority ss) (s_status ss) (pipeauthchild_status ss) (input ss) (trace ss).
Definition set_cfinfo (v : option (list Z)) (ss : SmtpState) : SmtpState :=
  MkSmtpState (mfp ss) (messagesize ss) (sizeoptval ss) (sizeoptsum ss) (with_protocol_set ss) (state ss) (policyresult ss) (rhostflags ss) (smtpfrom ss) (deliverby_time ss) (deliverby_flags ss) (from_box ss) (rcpt_count ss) (ok_rcpt_count ss) (sender_ok ss) (authuser ss) (helobuf ss) v (irouter_state ss) (err821 ss) (availspace ss) (interface_fail_count ss) (mustexit ss) (unknown_cmd_count ss) (bdata_blocknum ss) (mvbstate ss) (mail_priority ss) (s_status ss) (pipeauthchild_status ss) (input ss) (trace ss).
Definition set_irouter_state (v : option rtr_state) (ss : SmtpState) : SmtpState :=
  MkSmtpState (mfp ss) (messagesize ss) (sizeoptval ss) (sizeoptsum ss) (with_protocol_set ss) (state ss) (policyresult ss) (rhostflags ss) (smtpfrom ss) (deliverby_time ss) (deliverby_flags ss) (from_box ss) (rcpt_count ss) (ok_rcpt_count ss) (sender_ok ss) (authuser ss) (helobuf ss) (cfinfo ss) v (err821 ss) (availspace ss) (interface_fail_count ss) (mustexit ss) (unknown_cmd_count ss) (bdata_blocknum ss) (mvbstate ss) (mail_priority ss) (s_status ss) (pipeauthchild_status ss) (input ss) (trace ss).
Definition set_err821 (v : rfc821_err) (ss : SmtpState) : SmtpState :=
  MkSmtpState (mfp ss) (messagesize ss) (sizeoptval ss) (sizeoptsum ss) (with_protocol_set ss) (state ss) (policyresult ss) (rhostflags ss) (smtpfrom ss) (deliverby_time ss) (deliverby_flags ss) (from_box ss) (rcpt_count ss) (ok_rcpt_count ss) (sender_ok ss) (authuser ss) (helobuf ss) (cfinfo ss) (irouter_state ss) v (availspace ss) (interface_fail_count ss) (mustexit ss) (unknown_cmd_count ss) (bdata_blocknum ss) (mvbstate ss) (mail_priority ss) (s_status ss) (pipeauthchild_status ss) (input ss) (trace ss).
Definition set_availspace (v : Z) (ss : SmtpState) : SmtpState :=
  MkSmtpState (mfp ss) (messagesize ss) (sizeoptval ss) (sizeoptsum ss) (with_protocol_set ss) (state ss) (policyresult ss) (rhostflags ss) (smtpfrom ss) (deliverby_time ss) (deliverby_flags ss) (from_box ss) (rcpt_count ss) (ok_rcpt_count ss) (sender_ok ss) (authuser ss) (helobuf ss) (cfinfo ss) (irouter_state ss) (err821 ss) v (interface_fail_count ss) (mustexit ss) (unknown_cmd_count ss) (bdata_blocknum ss) (mvbstate ss) (mail_priority ss) (s_status ss) (pipeauthchild_status ss) (input ss) (trace ss).
Definition set_interface_fail_count (v : Z) (ss : SmtpState) : SmtpState :=
  MkSmtpState (mfp ss) (messagesize ss) (sizeoptval ss) (sizeoptsum ss) (with_protocol_set ss) (state ss) (policyresult ss) (rhostflags ss) (smtpfrom ss) (deliverby_time ss) (deliverby_flags ss) (from_box ss) (rcpt_count ss) (ok_rcpt_count ss) (sender_ok ss) (authuser ss) (helobuf ss) (cfinfo ss) (irouter_state ss) (err821 ss) (availspace ss) v (mustexit ss) (unknown_cmd_count ss) (bdata_blocknum ss) (mvbstate ss) (mail_priority ss) (s_status ss) (pipeauthchild_status ss) (input ss) (trace ss).
Definition set_mustexit (v : Z) (ss : SmtpState) : SmtpState :=
  MkSmtpState (mfp ss) (messagesize ss) (sizeoptval ss) (sizeoptsum ss) (with_protocol_set ss) (state ss) (policyresult ss) (rhostflags ss) (smtpfrom ss) (deliverby_time ss) (deliverby_flags ss) (from_box ss) (rcpt_count ss) (ok_rcpt_count ss) (sender_ok ss) (authuser ss) (helobuf ss) (cfinfo ss) (irouter_state ss) (err821 ss) (availspace ss) (interface_fail_count ss) v (unknown_cmd_count ss) (bdata_blocknum ss) (mvbstate ss) (mail_priority ss) (s_status ss) (pipeauthchild_status ss) (input ss) (trace ss).
Definition set_unknown_cmd_count (v : Z) (ss : SmtpState) : SmtpState :=
  MkSmtpState (mfp ss) (messagesize ss) (sizeoptval ss) (sizeoptsum ss) (with_protocol_set ss) (state ss) (policyresult ss) (rhostflags ss) (smtpfrom ss) (deliverby_time ss) (deliverby_flags ss) (from_box ss) (rcpt_count ss) (ok_rcpt_count ss) (sender_ok ss) (authuser ss) (helobuf ss) (cfinfo ss) (irouter_state ss) (err821 ss) (availspace ss) (interface_fail_count ss) (mustexit ss) v (bdata_blocknum ss) (mvbstate ss) (mail_priority ss) (s_status ss) (pipeauthchild_status ss) (input ss) (trace ss).
Definition set_bdata_blocknum (v : Z) (ss : SmtpState) : SmtpState :=
  MkSmtpState (mfp ss) (messagesize ss) (sizeoptval ss) (sizeoptsum ss) (with_protocol_set ss) (state ss) (policyresult ss) (rhostflags ss) (smtpfrom ss) (deliverby_time ss) (deliverby_flags ss) (from_box ss) (rcpt_count ss) (ok_rcpt_count ss) (sender_ok ss) (authuser ss) (helobuf ss) (cfinfo ss) (irouter_state ss) (err821 ss) (availspace ss) (interface_fail_count ss) (mustexit ss) (unknown_cmd_count ss) v (mvbstate ss) (mail_priority ss) (s_status ss) (pipeauthchild_status ss) (input ss) (trace ss).
Definition set_mvbstate (v : Z) (ss : SmtpState) : SmtpState :=
  MkSmtpState (mfp ss) (messagesize ss) (sizeoptval ss) (sizeoptsum ss) (with_protocol_set ss) (state ss) (policyresult ss) (rhostflags ss) (smtpfrom ss) (deliverby_time ss) (deliverby_flags ss) (from_box ss) (rcpt_count ss) (ok_rcpt_count ss) (sender_ok ss) (authuser ss) (helobuf ss) (cfinfo ss) (irouter_state ss) (err821 ss) (availspace ss) (interface_fail_count ss) (mustexit ss) (unknown_cmd_count ss) (bdata_blocknum ss) v (mail_priority ss) (s_status ss) (pipeauthchild_status ss) (input ss) (trace ss).
Definition set_mail_priority (v : Z) (ss : SmtpState) : SmtpState :=
  MkSmtpState (mfp ss) (messagesize ss) (sizeoptval ss) (sizeoptsum ss) (with_protocol_set ss) (state ss) (policyresult ss) (rhostflags ss) (smtpfrom ss) (deliverby_time ss) (deliverby_flags ss) (from_box ss) (rcpt_count ss) (ok_rcpt_count ss) (sender_ok ss) (authuser ss) (helobuf ss) (cfinfo ss) (irouter_state ss) (err821 ss) (availspace ss) (interface_fail_count ss) (mustexit ss) (unknown_cmd_count ss) (bdata_blocknum ss) (mvbstate ss) v (s_status ss) (pipeauthchild_status ss) (input ss) (trace ss).
Definition set_s_status (v : bool) (ss : SmtpState) : SmtpState :=
  MkSmtpState (mfp ss) (messagesize ss) (sizeoptval ss) (sizeoptsum ss) (with_protocol_set ss) (state ss) (policyresult ss) (rhostflags ss) (smtpfrom ss) (deliverby_time ss) (deliverby_flags ss) (from_box ss) (rcpt_count ss) (ok_rcpt_count ss) (sender_ok ss) (authuser ss) (helobuf ss) (cfinfo ss) (irouter_state ss) (err821 ss) (availspace ss) (interface_fail_count ss) (mustexit ss) (unknown_cmd_count ss) (bdata_blocknum ss) (mvbstate ss) (mail_priority ss) v (pipeauthchild_status ss) (input ss) (trace ss).
Definition set_pipeauthchild_status (v : Z) (ss : SmtpState) : SmtpState :=
  MkSmtpState (mfp ss) (messagesize ss) (sizeoptval ss) (sizeoptsum ss) (with_protocol_set ss) (state ss) (policyresult ss) (rhostflags ss) (smtpfrom ss) (deliverby_time ss) (deliverby_flags ss) (from_box ss) (rcpt_count ss) (ok_rcpt_count ss) (sender_ok ss) (authuser ss) (helobuf ss) (cfinfo ss) (irouter_state ss) (err821 ss) (availspace ss) (interface_fail_count ss) (mustexit ss) (unknown_cmd_count ss) (bdata_blocknum ss) (mvbstate ss) (mail_priority ss) (s_status ss) v (input ss) (trace ss).
Definition set_input (v : list Z) (ss : SmtpState) : SmtpState :=
  MkSmtpState (mfp ss) (messagesize ss) (sizeoptval ss) (sizeoptsum ss) (with_protocol_set ss) (state ss) (policyresult ss) (rhostflags ss) (smtpfrom ss) (deliverby_time ss) (deliverby_flags ss) (from_box ss) (rcpt_count ss) (ok_rcpt_count ss) (sender_ok ss) (authuser ss) (helobuf ss) (cfinfo ss) (irouter_state ss) (err821 ss) (availspace ss) (interface_fail_count ss) (mustexit ss) (unknown_cmd_count ss) (bdata_blocknum ss) (mvbstate ss) (mail_priority ss) (s_status ss) (pipeauthchild_status ss) v (trace ss).
Definition set_trace (v : list event) (ss : SmtpState) : SmtpState :=
  MkSmtpState (mfp ss) (messagesize ss) (sizeoptval ss) (sizeoptsum ss) (with_protocol_set ss) (state ss) (policyresult ss) (rhostflags ss) (smtpfrom ss) (deliverby_time ss) (deliverby_flags ss) (from_box ss) (rcpt_count ss) (ok_rcpt_count ss) (sender_ok ss) (authuser ss) (helobuf ss) (cfinfo ss) (irouter_state ss) (err821 ss) (availspace ss) (interface_fail_count ss) (mustexit ss) (unknown_cmd_count ss) (bdata_blocknum ss) (mvbstate ss) (mail_priority ss) (s_status ss) (pipeauthchild_status ss) (input ss) v.

(** ** Configuration and environment *)

(** Global parameters, the [OCP] set, and what is fixed for a connection. *)
Class Config := {
  style : list Z;
  cfhead : list (list Z * list Z);        (** host patterns with their flags *)
  msa_mode : bool; lmtp_mode : bool; daemon_flg : bool;
  strict_protocol : Z;
  allow_source_route : bool; enable_router : bool; sum_sizeoption_value : bool;
  maxsize : Z; minimum_availspace : Z;
  checkhelo : bool; skeptical : bool; ident_flag : bool;
  interface_fail_limit : Z; unknown_cmd_limit : Z; configuration_ok : bool;
  dsn_ok : bool; mime8bitok : bool; auth_ok : bool; deliverby_ok : Z;
  pipeliningok : bool; chunkingok : bool; enhancedstatusok : bool;
  expncmdok : bool; vrfycmdok : bool; etrn_ok : bool; ehlo_ok : bool; debugcmdok : bool;
  multilinereplies : bool; policydb : bool;
  rcptlimitcnt : Z; MaxErrorRecipients : Z; force_rcpt_notify_never : bool;
  log_rcvd_ident : bool; log_rcvd_authuser : bool;
  rhostname : list Z; rhostaddr : list Z; rport : Z; myhostname : list Z;
  ident_username : list Z; netconnected_flg : bool; postmasteronly : bool;
  contact_pointer_message : list Z; policystatus : Z; reject_net : bool;
  always_accept_or_trust : bool;
  no_smtp_auth_on_25 : bool; auth_login_without_tls : bool; smtpauth_via_pipe : bool;
  smtp_auth_username_prompt : option (list Z); smtp_auth_password_prompt : option (list Z)
}.

(** Outcomes of smtprouter_init() and of one fdgets() on its connection. *)
Inductive rtr_init := Init_unavailable | Init_no_socket | Init_greeting_timeout
                    | Init_not_hungry | Init_ok.
Inductive fdgets_result := Line (l : list Z) | Eof | Timed_out.

(** The routines outside this model.  Each takes the trace so far, so that
    calls at different moments may answer differently. *)
Class Env := {
  ext_policytest : list event -> policy_test -> list Z -> Z -> option (list Z) -> Z;
  ext_policymsg : list event -> option (list Z);
  ext_policyinsizelimit : list event -> Z;
  ext_addr_match : list event -> list Z -> bool;  (** getaddrinfo() found the peer's address *)
  ext_zpwmatch : list event -> list Z -> list Z -> option (list Z);  (** zpwmatch(): [None], or why not *)
  ext_pwchild : list event -> list Z -> list Z -> option Z;
    (** exit status of the password program; [None] when it cannot be started *)
  ext_mail_open : list event -> bool;
  ext_ferror : list event -> bool;
  ext_statfs : list event -> option Z;            (** free space in kB *)
  ext_time : list event -> Z;
  ext_router_init : list event -> rtr_init;
  ext_router_write_error : list event -> bool;
  ext_router_lines : list event -> list fdgets_result;
  ext_hasinput : list event -> bool;              (** more input is waiting *)
  ext_bail_out : list event -> bool;              (** its end was seen, in the tarpit *)
  ext_contentpolicy : list event -> list Z -> Z;  (** verdict of the content filter on a file *)
  ext_fstat : list event -> Z * Z * Z;            (** inode, mtime and its nanoseconds of the spool file *)
  ext_mail_close : list event -> bool;            (** mail_close() succeeds *)
  ext_mail_close_alternate : list event -> bool   (** mail_close_alternate() succeeds *)
}.

(** ** The command monad *)

(** How a handler ends before its last statement: by [return], or by using
    a null or wild pointer. *)
Inductive stop := Return (rc : Z) | Segv.

Abbreviation cmd := (EX SmtpState stop).

(** A call of a function: its [return] is caught, a crash is not. *)
Definition catch (body : cmd Z) : cmd Z := fun ss =>
  match body ss with
  | (inl (Return rc), ss') => (inr rc, ss')
  | r => r
  end.

Definition emit (e : event) : cmd unit := update (fun ss => set_trace (e :: trace ss) ss).
Definition mib (c : mib_counter) : cmd unit := emit (EvMib c).

(** A scanner of rfc821scn.c, on the session's error globals. *)
Definition scan {A} (m : ST rfc821_err A) : cmd A := fun ss =>
  let '(a, e) := m (err821 ss) in (inr a, set_err821 e ss).

(** [fputs(l, SS->mfp)] *)
Definition fputs (l : list Z) : cmd unit :=
  f ← read mfp;
  match f with
  | Some b => update (set_mfp (Some (b ++ l)))
  | None => exit Segv
  end.

(** [fwrite(p, 1, n, SS->mfp)]; a negative count is a huge one. *)
Definition fwrite (p : ptr) (n : Z) : cmd unit :=
  if n <? 0 then exit Segv else fputs (take (Z.to_nat n) (mem p)).

Definition when (b : bool) (m : cmd unit) : cmd unit := if b then m else mret tt.

Section output.
Context {cf : Config} {env : Env}.

Definition STYLE (info : option (list Z)) (c : Z) : bool := has_char (default style info) c.

(** cfgread.c: the first entry whose pattern matches the lower-cased name. *)
Fixpoint find_entry (cfs : list (list Z * list Z)) (cp : list Z) : option (list Z) :=
  match cfs with
  | [] => None
  | (pattern, flags) :: cfs' =>
      if strmatch pattern cp then Some flags else find_entry cfs' cp
  end.
Definition findcf (h : list Z) : option (list Z) := find_entry cfhead (tolower <$> h).

(** *** Replies *)

(** The format strings of [type] by code; [%s] is filled with [arg]. *)
Definition default_text (code : Z) (arg : list Z) : list Z :=
  if code =? 211 then arg
  else if code =? 214 then arg
  else if (code =? 220) || (code =? 221) || (code =? 421) then
    prec 200 myhostname ++ [$" "] ++ arg
  else if code =? 250 then $$"Ok"
  else if code =? 251 then $$"User not local; will forward to <" ++ arg ++ $$">"
  else if code =? 252 then
    $$"Cannot VRFY user, but will accept message and attempt delivery"
  else if code =? 354 then $$"Start mail input; end with <CRLF>.<CRLF>"
  else if code =? 450 then $$"Requested mail action not taken: mailbox unavailable"
  else if code =? 451 then $$"Requested action aborted: local error in processing"
  else if code =? 452 then $$"Requested action not taken: insufficient storage"
  else if code =? 500 then $$"Syntax error, command unrecognized"
  else if code =? 501 then $$"Syntax error in parameters or arguments"
  else if code =? 502 then $$"Command not implemented"
  else if code =? 503 then $$"Bad sequence of commands"
  else if code =? 504 then $$"Command parameter not implemented"
  else if code =? 550 then $$"Requested action not taken: mailbox unavailable"
  else if code =? 551 then $$"User not local; please try <" ++ arg ++ $$">"
  else if code =? 552 then $$"Requested mail action aborted: exceeded storage allocation"
  else if code =? 553 then $$"Requested action not taken: mailbox name not allowed"
  else if code =? 554 then $$"Transaction failed"
  else $$"code unknown, program bug!".

Definition SIZEOF_BUF : Z := 6000.

(** The line [type] sends: code, separator, status, text and CR LF.  [fmt]
    is the formatted text of the caller; vsnprintf() keeps what fits. *)
Definition type_line (Code : Z) (status fmt : option (list Z)) (arg : list Z) : list Z :=
  let code := Z.abs Code in
  let c := if Code <=? 0 then $"-" else $" " in
  let st := default [] status in
  let hd := dec03 code ++ [c] ++
            (if enhancedstatusok && negb (bool_decide (st = [])) then st ++ [$" "] else []) in
  let bufspc := SIZEOF_BUF - Z.of_nat (length hd) - 8 in
  let body := default (default_text code arg) fmt in
  hd ++ take (Z.to_nat (bufspc - 1)) body ++ [13; 10].

Definition type_arg (Code : Z) (status fmt : option (list Z)) (arg : list Z) : cmd unit :=
  emit (EvReply Code (type_line Code status fmt arg)).
Definition type (Code : Z) (status : option (list Z)) (text : list Z) : cmd unit :=
  type_arg Code status (Some text) [].

(** The [^] line under the error position, 200 columns at most. *)
Definition caret_line (code : Z) (status : list Z) (inbuf : ptr) (err_ptr : option Z) : list Z :=
  let abscode := if code <? 0 then - code else code in
  let s := addr inbuf + 3 + 1 in
  let '(hd, s) := if enhancedstatusok
                  then (dec03 abscode ++ [$"-"] ++ status ++ [$" "], s + Z.of_nat (length status) + 1)
                  else (dec03 abscode ++ $$"- ", s + 1) in
  let cols := match err_ptr with Some a => Z.min 200 (a - s) | None => 0 end in
  hd ++ replicate (Z.to_nat cols) $" " ++ $$"^" ++ [13; 10].

Definition type821err (code : Z) (status : list Z) (inbuf : ptr) (msg : list Z) : cmd unit :=
  e ← read err821;
  (if multilinereplies then emit (EvCaret (caret_line code status inbuf (rfc821_error_ptr e)))
   else mret tt);;
  type code (Some status) msg.

(** smtp_tarpit() delays the session; it changes nothing the commands read. *)
Definition smtp_tarpit : cmd unit := emit EvTarpit.

(** *** The interactive router (subdaemon-rtr.c) *)

Definition smtprouter_kill (st : rtr_state) : rtr_state := Rtr false (sawhungry st) (pbuf st).

(** The connection after smtprouter_init(), which is called only when it is
    not open; [None] is a null pointer. *)
Definition smtprouter_init (o : rtr_init) (st : option rtr_state) : option rtr_state :=
  let fresh := default (Rtr false false None) st in
  match o with
  | Init_unavailable => st
  | Init_no_socket => Some fresh
  | Init_greeting_timeout => Some (smtprouter_kill fresh)
  | Init_not_hungry => Some (Rtr true (sawhungry fresh) (pbuf fresh))
  | Init_ok => Some (Rtr true true (pbuf fresh))
  end.

Definition count_interface_failure : cmd unit :=
  update (fun ss => set_interface_fail_count (interface_fail_count ss + 1) ss);;
  n ← read interface_fail_count;
  when (n >? interface_fail_limit) (update (fun ss => set_mustexit (mustexit ss + 1) ss)).

(** Send one line of the router to the client, as a continuation line or
    as the last one. *)
Definition present_line (final : bool) (p : list Z) : cmd unit :=
  let sgn z := if final : bool then z else - z in
  if (3 <? Z.of_nat (length p)) && isdigit (nth 0 p 0) && isdigit (nth 1 p 0) &&
     isdigit (nth 2 p 0) && ((nth 3 p 0 =? $" ") || (nth 3 p 0 =? $"-")) then
    let code := atoi p in
    let s := drop 4 p in
    let n := span (fun c => isdigit c || (c =? $".")) s in
    let '(s, p) := if hd 0 (drop n s) =? $" " then (take n s, drop (n + 1) s)
                   else (s, drop n s) in
    if negb (code / 100 =? 2) then
      type (sgn code) (Some s) ($$"Hi " ++ rhostaddr ++ $$", " ++ p)
    else type (sgn code) (Some s) p
  else type (sgn 250) None p.

(** The reply collection loop; [None] when the connection was lost. *)
Fixpoint router_loop (rs : list fdgets_result) (st : rtr_state) : cmd (option rtr_state) :=
  let lost why :=
    update (set_irouter_state (Some (smtprouter_kill st)));;
    type 450 (Some ($$"4.5.0")) ($$"Interactive router " ++ why ++ $$"!");;
    count_interface_failure;; mret None in
  match rs with
  | [] => lost ($$"timed out")
  | r :: rs' =>
      emit EvRouterLine;;
      match r with
      | Timed_out => lost ($$"timed out")
      | Eof => lost ($$"EOFed")
      | Line l =>
          let buf := if List.last l 0 =? 10 then List.removelast l else l in
          if bool_decide (buf = []) then lost ($$"EOFed")
          else if bool_decide (cstr buf = $$"#hungry") then
            mret (Some (Rtr (outfp st) true (pbuf st)))
          else
            (if pbuf st is Some p then present_line false p else mret tt);;
            router_loop rs' (Rtr (outfp st) false (Some (cstr buf)))
      end
  end.

(** The part of router() behind the opening of the connection. *)
Definition router_ask (st : rtr_state) (function : list Z) (holdlast : bool)
    (arg : list Z) : cmd (option (list Z)) :=
  update (set_irouter_state (Some st));;
  if negb (sawhungry st) then
    update (set_irouter_state (Some (smtprouter_kill st)));;
    type 440 (Some ($$"4.4.0")) ($$"I am sick: Interactive router subsystem lost internal sync ??");;
    count_interface_failure;; mret None
  else
    emit (EvRouter function arg);;
    tr ← read trace;
    if ext_router_write_error tr then
      update (set_irouter_state (Some (Rtr false (sawhungry st) (pbuf st))));; mret None
    else
      res ← router_loop (ext_router_lines tr) (Rtr (outfp st) false (pbuf st));
      match res with
      | None => mret None
      | Some st =>
          match pbuf st with
          | None =>
              update (set_irouter_state (Some (smtprouter_kill st)));;
              if holdlast then
                mret (Some ($$"250 2.7.1 Interactive policy router failed, letting this thru..."))
              else
                type 250 (Some ($$"2.7.1")) ($$"Interactive policy router failed, letting this thru...");;
                mret None
          | Some p =>
              update (set_irouter_state (Some (Rtr (outfp st) (sawhungry st) None)));;
              if holdlast then mret (Some p)
              else present_line true p;; mret (Some [])
          end
      end.

(** router(): [None] is a null result. *)
Definition router (function : list Z) (holdlast : bool) (arg : list Z) : cmd (option (list Z)) :=
  if negb enable_router then
    type 400 (Some ($$"4.4.0")) ($$"I am sick: Interactive routing subsystem is not enabled");;
    count_interface_failure;; mret None
  else
    st0 ← read irouter_state;
    match st0 with
    | Some (Rtr true h p) => router_ask (Rtr true h p) function holdlast arg
    | _ =>
        tr ← read trace;
        let st := smtprouter_init (ext_router_init tr) st0 in
        match st with
        | Some (Rtr true true p) => router_ask (Rtr true true p) function holdlast arg
        | _ =>
            (if st0 is Some _ then update (set_irouter_state st) else mret tt);;
            if negb daemon_flg then mret (Some ($$"200 No interactive router run;"))
            else
              type 440 (Some ($$"4.4.0")) ($$"I am sick: Failed to init interactive router subsystem");;
              match st with
              | None => exit Segv
              | Some st =>
                  (if st0 is Some _ then update (set_irouter_state (Some (smtprouter_kill st)))
                   else mret tt);;
                  count_interface_failure;; mret None
              end
        end
    end.
End output.

(** ** Texts *)

Definition m200 : list Z := $$"2.0.0".
Definition m400 : list Z := $$"4.0.0".
Definition m430 : list Z := $$"4.3.0".
Definition m431 : list Z := $$"4.3.1".
Definition m443 : list Z := $$"4.4.3".
Definition m454 : list Z := $$"4.5.4".
Definition m471 : list Z := $$"4.7.1".
Definition m513 : list Z := $$"5.1.3".
Definition m517 : list Z := $$"5.1.7".
Definition m530 : list Z := $$"5.3.0".
Definition m534 : list Z := $$"5.3.4".
Definition m540 : list Z := $$"5.4.0".
Definition m543 : list Z := $$"5.4.3".
Definition m550 : list Z := $$"5.5.0".
Definition m551 : list Z := $$"5.5.1".
Definition m552 : list Z := $$"5.5.2".
Definition m554 : list Z := $$"5.5.4".
Definition m571 : list Z := $$"5.7.1".

(** [%s] of a pointer that may be null. *)
Definition str_or_null (s : option (list Z)) : list Z := default ($$"(null)") s.

Definition error_string (t : rfc821_text) : list Z :=
  match t with
  | Invalid_RFC822_atom => $$"Invalid RFC822 atom"
  | Invalid_character_in_XTEXT_string => $$"Invalid character in XTEXT string"
  | Spurious_junk_after_DOMAIN => $$"Spurious junk after the DOMAIN in HELO/EHLO argument"
  | At_domain_missing_initial_at => $$"<at-domain> missing initial " ++ [34] ++ $$"@" ++ [34] ++ []
  | Missing_domain_entry => $$"missing domain entry"
  | Leading_double_colon_must_have_a_pair => $$"Leading double-colon must have a pair in <v6dotnum>"
  | Too_big_value_for_v6dotnum_element => $$"Too big value for <v6dotnum> element"
  | Illegal_intermediate_double_colon => $$"Illegal intermediate double-colon in <v6dotnum>"
  | Too_many_colon_separated_components => $$"Too many colon-separated components in <v6dotnum>"
  | V6dotnum_error => $$"<v6dotnum> error ?"
  | Too_few_colon_separated_components => $$"Too few colon-separated components in <v6dotnum>"
  | Bad_syntax_of_dotnum_v6dotnum_value => $$"Bad syntax of <dotnum/v6dotnum> value"
  | Bad_syntax_of_dotnum_value => $$"Bad syntax of <dotnum> value"
  | Bad_syntax_of_dotnum_missing_dot => $$"Bad syntax of <dotnum>, missing '.'"
  | RFC821_name_bad_syntax => $$"RFC821 <name> bad syntax"
  | RFC821_No_input => $$"RFC821: No input"
  | Dotnum_missing_terminating_bracket => $$"RFC821 <dotnum> element missing terminating " ++ [34] ++ $$"]" ++ [34] ++ []
  | Domain_numbers_inadequate_count => $$"RFC821 Domain " ++ [34] ++ $$"#numbers" ++ [34] ++ $$" has inadequate count of numbers"
  | Domain_does_not_start_with_dot => $$"A domain-name does not start with a dot (.)"
  | Spurious_dot_at_end_of_domain => $$"Spurious dot (.) at the end of the domain name"
  | Should_this_be_of_dotnum_format => $$"Should this be of <dotnum> format ? ( [nn.nn.nn.nn] )"
  | Bad_syntax_on_domain => $$"bad syntax on domain"
  | Perhaps_dot_instead_of_colon => $$"Perhaps this should have been a dot (.) instead of colon (:) ?"
  | Missing_at_from_mailbox => $$"Missing " ++ [34] ++ $$"@" ++ [34] ++ $$" from mailbox definition"
  | Improper_8bit_character_in_string => $$"Improper 8-bit character in string"
  | Unsuitable_characters_for_string => $$"Had characters unsuitable for an rfc821-string"
  | Localpart_must_not_end_with_unquoted_dot => $$"Localpart must not end with unquoted dot!"
  | Improper_8bit_character_in_qtext => $$"Improper 8-bit character in qtext"
  | RFC821_qtext_data_failure => $$"RFC821 qtext data failure"
  | Quoted_string_without_initial_quote => $$"Quoted string w/o initial quote (" ++ [34] ++ $$")"
  | Quoted_string_without_final_quote => $$"Quoted string w/o final quote (" ++ [34] ++ $$")"
  | No_input => $$"No input"
  | No_local_part_before_leading_at => $$"No local part before leading @-character ?"
  | Missing_colon_from_source_route => $$"Missing colon (:) from <@xxx:yyy@zzz>"
  | Missing_lt_from_beginning => $$"Missing " ++ [34] ++ $$"<" ++ [34] ++ $$" from begining"
  | Premature_end => $$"Premature end of input"
  | Missing_gt_at_end => $$"Missing " ++ [34] ++ $$">" ++ [34] ++ $$" at end"
  | Extra_garbage_before_terminating_gt => $$"Extra garbage before terminating " ++ [34] ++ $$">" ++ [34] ++ []
  end.
Definition rfc821_error_text (e : rfc821_err) : list Z :=
  str_or_null (error_string <$> rfc821_error e).
