(* ===== verification/SmtpCmds.v ===== *)
(** * SMTP commands (smtpserver/smtpcmds.c)

    The handlers of HELO/EHLO, MAIL, RCPT, VRFY and EXPN, piece by piece in
    the order of the C code.  A handler runs in the monad [cmd]: it reads
    and writes the session state, records what it sends and does in the
    trace, and may leave early.  Built without OpenSSL, Whoson and embedded
    Perl; the local log lines ([type(NULL, ...)]) are left out. *)

From Stdlib Require Import ZArith Lia.
From stdpp Require Import base tactics numbers list option.
From S2P Require Import Prelude StrMatch Rfc821 SmtpState.

#[local] Open Scope Z_scope.

(** ** Protocol and host flags (smtpserver.h) *)

Definition WITH_HELO : Z := 0x0001.
Definition WITH_EHLO : Z := 0x0002.
Definition WITH_SMTP : Z := 0x0004.
Definition WITH_SUBMIT : Z := 0x0008.
Definition WITH_TLS : Z := 0x0020.
Definition WITH_AUTH : Z := 0x0040.
Definition WITH_LMTP : Z := 0x0080.
Definition WITH_BSMTP : Z := 0x0100.

Definition RHOST_REVERSED_OK : Z := 0x0001.
Definition RHOST_REVERSED_FAIL : Z := 0x0002.
Definition RHOST_VERIFIED_OK : Z := 0x0010.
Definition RHOST_VERIFIED_FAIL : Z := 0x0020.
Definition RHOST_HELO_SYNTAX_OK : Z := 0x0100.
Definition RHOST_HELO_SYNTAX_FAIL : Z := 0x0200.
Definition RHOST_HELO_VERIFY_OK : Z := 0x1000.
Definition RHOST_HELO_VERIFY_FAIL : Z := 0x2000.

Definition DELIVERBY_R : Z := 1.
Definition DELIVERBY_N : Z := 2.
Definition DELIVERBY_T : Z := 4.

Definition NOTIFY_SUCCESS : Z := 1.
Definition NOTIFY_FAILURE : Z := 2.
Definition NOTIFY_DELAY : Z := 4.
Definition NOTIFY_NEVER : Z := 8.

Definition flag (word bit : Z) : bool := negb (Z.land word bit =? 0).

(** The C string at [p]. *)
Definition str (p : ptr) : list Z := cstr (mem p).
(** [%.*s] with [n] and [p] *)
Definition strn (n : Z) (p : ptr) : list Z := take (Z.to_nat n) (str p).

(** ** Text helpers *)

(** [%03o] of a byte *)
Definition oct3 (c : Z) : list Z :=
  [$"0" + c / 64 mod 8; $"0" + c / 8 mod 8; $"0" + c mod 8].

(** What rfc822commentprint() writes. *)
Definition rfc822comment (l : list Z) : list Z :=
  [34] ++ concat ((fun c =>
    if (c <? 0x20) || (c >? 0x7e) then $"\" :: oct3 c
    else if (c =? 34) || (c =? $"\") || (c =? $"(") || (c =? $")") then [$"\"; c]
    else [c]) <$> l) ++ [34].
Definition rfc822commentprint (l : list Z) : cmd unit := fputs (rfc822comment l).

(** The copying loop of rfc821to822quote() with [n] characters to go: what
    it copied, how many are left, and the source behind it. *)
Fixpoint quote_loop (n : nat) (l : list Z) : list Z * nat * list Z :=
  match n, l with
  | O, _ | _, [] => ([], O, l)
  | S n', c :: l' =>
      if c =? $"@" then ([], n, l)
      else if (c =? $"\") && negb (hd 0 l' =? 0) then
        match l' with
        | [] => ([c], n', l')
        | d :: l2 =>
            match n' with
            | O => ([c; d], O, l2)
            | S n2 => let '(o, k, r) := quote_loop n2 l2 in (c :: d :: o, k, r)
            end
        end
      else let '(o, k, r) := quote_loop n' l' in (c :: o, k, r)
  end.

(** rfc821to822quote(): the address, in a new buffer when it had to be
    quoted, and its length. *)
Definition rfc821to822quote (cp : ptr) (alen : Z) : ptr * Z :=
  if existsb (Z.eqb $"\") (take (Z.to_nat alen) (mem cp)) && negb (deref cp =? 34) then
    let '(o, k, r) := quote_loop (Z.to_nat alen) (mem cp) in
    let s2 := [34] ++ o ++ [34] ++ take k r in
    (Ptr 0 s2, Z.of_nat (length s2))
  else (cp, alen).

(** The xtext encoding of one character in a [todsn] line.  The variable
    is a signed [char]: [%02X] prints a code above 127 with its sign. *)
Definition hexdigit (d : Z) : Z := if d <? 10 then $"0" + d else $"A" + (d - 10).
Definition xtext_char (c : Z) : list Z :=
  if ($"!" <=? c) && (c <=? $"~") && negb (c =? $"+") && negb (c =? $"=") then [c]
  else [$"+"] ++ (if c <? 128 then [] else $$"FFFFFF") ++ [hexdigit (c / 16); hexdigit (c mod 16)].
Definition xtext_encode (l : list Z) : list Z := concat (xtext_char <$> l).

(** [while ( *cp != ':') ++cp;] runs off the buffer when there is no colon. *)
Definition skip_to_colon (cp : ptr) : cmd ptr :=
  let n := span (fun c => negb (c =? $":")) (mem cp) in
  if (n <? length (mem cp))%nat then mret (cp [+] n) else exit Segv.

(** The enhanced status code in front of a router message, if any. *)
Definition split_status (msg : list Z) : option (list Z) * list Z :=
  if isdigit (nth 0 msg 0) && (nth 1 msg 0 =? $".") then
    let n := span (fun c => isdigit c || (c =? $".")) msg in
    if hd 0 (drop n msg) =? $" " then (Some (take n msg), drop (n + 1) msg)
    else (Some msg, drop n msg)
  else (None, msg).

Section commands.
Context {cf : Config} {env : Env}.

Definition policytest (t : policy_test) (arg : list Z) (len : Z) (user : option (list Z)) : cmd Z :=
  tr ← read trace;
  let r := ext_policytest tr t arg len user in
  emit (EvPolicy t arg len user);; mret r.

Definition policymsg : cmd (option (list Z)) := read (fun ss => ext_policymsg (trace ss)).

(** mail_abort() with the bookkeeping that always goes with it. *)
Definition abort_mail : cmd unit :=
  emit EvMailAbort;;
  n ← read rcpt_count;
  policytest POLICY_DATAABORT [] n None;;
  update (set_mfp None).

Definition return_ {A} (rc : Z) : cmd A := exit (Return rc).

(** [smtp_tarpit(SS); type(SS, code, status, text); return -1;] *)
Definition refuse {A} (code : Z) (status : list Z) (text : list Z) : cmd A :=
  smtp_tarpit;; type code (Some status) text;; return_ (-1).

Definition skip_blanks_if (b : bool) (cp : ptr) : ptr := if b then skip_while is_blank cp else cp.
Definition skip_space (cp : ptr) : ptr := if deref cp =? $" " then pinc cp else cp.

(** ** HELO, EHLO, LHLO *)

Definition helo_reset (verb : Command) : cmd unit :=
  match verb with
  | Hello2 => mib IncomingSMTP_EHLO
  | Hello => mib IncomingSMTP_HELO
  | _ => mret tt
  end;;
  f ← read mfp;
  when (if f is Some _ then true else false) abort_mail.

(** Syntax and address check of the argument; the result of partridge(). *)
Definition helo_check (cp : ptr) : cmd bool :=
  rc ← scan (partridge cp);
  update (fun ss => set_rhostflags (Z.lor (rhostflags ss)
    (if rc : bool then RHOST_HELO_SYNTAX_FAIL else RHOST_HELO_SYNTAX_OK)) ss);;
  tr ← read trace;
  let ok := negb rc && ext_addr_match tr (str cp) in
  update (fun ss => set_rhostflags (Z.lor (rhostflags ss)
    (if ok then RHOST_HELO_VERIFY_OK else RHOST_HELO_VERIFY_FAIL)) ss);;
  mret rc.

(** The router's opinion on the client host (configuration flag [h]). *)
Definition helo_router : cmd unit :=
  info ← read cfinfo;
  when (STYLE info $"h")
    (let arg := prec 99 (if bool_decide (rhostaddr = []) then $$"[0.0.0.0]" else rhostaddr)
                ++ [$" "] ++ prec 99 rhostname in
     r ← router ($$"hello") true arg;
     match r with
     | None => return_ 0
     | Some s =>
         if negb (Z.quot (atoi s) 100 =? 2) then
           smtp_tarpit;; type (atoi s) None (drop 4 s);; return_ 0
         else type (- atoi s) None (drop 4 s)
     end).

(** The size announced with EHLO. *)
Definition max_in_limit (policyinlimit : Z) : Z :=
  let m := if 0 <=? policyinlimit then policyinlimit else maxsize in
  let m := if negb (maxsize =? 0) && (maxsize <? m) then maxsize else m in
  if negb (maxsize =? 0) && (m =? 0) then maxsize else m.

Definition cont250 (b : bool) (text : list Z) : cmd unit := when b (type (-250) None text).

(** The AUTH lines, of smtpauth.c. *)
Definition auth_login_lines : cmd unit :=
  when (auth_ok && auth_login_without_tls)
    (type (-250) None ($$"AUTH=LOGIN");; type (-250) None ($$"AUTH LOGIN")).
Definition smtpauth_ehloresponse : cmd unit :=
  w ← read with_protocol_set;
  when (negb (no_smtp_auth_on_25 && flag w WITH_SMTP)) auth_login_lines.

Definition ehlo_extensions : cmd unit :=
  tr ← read trace;
  info ← read cfinfo;
  type (-250) None ($$"SIZE " ++ dec (max_in_limit (ext_policyinsizelimit tr)));;
  cont250 mime8bitok ($$"8BITMIME");;
  cont250 pipeliningok ($$"PIPELINING");;
  cont250 chunkingok ($$"CHUNKING");;
  cont250 enhancedstatusok ($$"ENHANCEDSTATUSCODES");;
  cont250 (expncmdok && STYLE info $"e") ($$"EXPN");;
  cont250 (vrfycmdok && STYLE info $"v") ($$"VRFY");;
  cont250 dsn_ok ($$"DSN");;
  (if deliverby_ok =? 0 then type (-250) None ($$"DELIVERBY")
   else cont250 (0 <? deliverby_ok) ($$"DELIVERBY " ++ dec deliverby_ok));;
  cont250 (rcptlimitcnt >? 100) ($$"X-RCPTLIMIT " ++ dec rcptlimitcnt);;
  smtpauth_ehloresponse;;
  cont250 (etrn_ok && negb msa_mode) ($$"ETRN");;
  type 250 None ($$"HELP").

Definition helo_greet (verb : Command) (verbname : list Z) (cp : ptr) : cmd unit :=
  let code := if cmd_eqb verb Hello2 then -250 else 250 in
  if skeptical && negb (bool_decide (rhostaddr = [])) && negb (bool_decide (rhostname = []))
     && negb (hd 0 rhostname =? $"[") && negb (CISTREQ (str cp) rhostname) then
    when checkhelo
      (type (-250) None (myhostname ++ $$" That hostname is inconsistent with");;
       type (-250) None (myhostname ++ $$" your address to name mapping."));;
    type code None (myhostname ++ $$" expected " ++ [34] ++ verbname ++ [$" "] ++ rhostname ++ [34])
  else type code None (myhostname ++ $$" Hello " ++ str cp).

Definition helo_body (verb : Command) (verbname : list Z) (buf cp : ptr) : cmd Z :=
  helo_reset verb;;
  let cp := skip_space cp in
  update (set_cfinfo (findcf (str cp)));;
  update (set_helobuf (take 199 (str buf)));;
  rc ← helo_check cp;
  let cp := skip_blanks_if (strict_protocol <? 1) cp in
  user ← read authuser;
  pr ← (if netconnected_flg then
          policytest POLICY_HELONAME (str cp) (Z.of_nat (length (str cp))) user
        else mret 0);
  update (set_policyresult pr);;
  let invalid := $$"Invalid `" ++ prec 200 (str buf) ++ $$"' parameter!" in
  e ← read err821;
  let sorry := $$"Sorry " ++ rhostaddr ++ $$", Err: " ++ rfc821_error_text e in
  when (checkhelo && skeptical && rc)
    (smtp_tarpit;; type821err (-501) [] buf invalid;; type 501 (Some m571) sorry;;
     update (set_helobuf ($$"Bad.Helo.Input"));; return_ 0);;
  when (negb checkhelo && rc && negb (cmd_eqb verb Hello))
    (type821err (-250) [] buf invalid;; type (-250) (Some m571) sorry);;
  update (set_cfinfo (findcf (str cp)));;
  info ← read cfinfo;
  (if info is Some flags then
     when (hd 0 flags =? $"!")
       (smtp_tarpit;;
        type 501 (Some m571)
          ($$"Sorry " ++ rhostaddr ++ $$", " ++
           (if bool_decide (tl flags = []) then $$"access denied." else tl flags));;
        return_ 0)
   else mret tt);;
  helo_router;;
  helo_greet verb verbname cp;;
  (if cmd_eqb verb Hello2 then
     ehlo_extensions;;
     update (fun ss => set_with_protocol_set (Z.lor (with_protocol_set ss) WITH_EHLO) ss)
   else update (set_with_protocol_set WITH_HELO));;
  update (set_state MailOrHello);;
  mret 0.

Definition smtp_helo (verb : Command) (verbname : list Z) (buf cp : ptr) : cmd Z :=
  catch (helo_body verb verbname buf cp).

(** ** MAIL *)

Definition Hello_ (text : list Z) : list Z := $$"Hello " ++ rhostaddr ++ $$", " ++ text.
Definition Hi_ (text : list Z) : list Z := $$"Hi " ++ rhostaddr ++ $$", " ++ text.

(** The configuration flags [R] and [S]; sloppy takes precedence. *)
Definition strict_sloppy : cmd (bool * bool) :=
  info ← read cfinfo;
  let strict := STYLE info $"R" in
  let sloppy := STYLE info $"S" in
  mret (strict && negb sloppy, sloppy).

(** State and authentication checks. *)
Definition mail_state_check : cmd unit :=
  update (set_sender_ok false);;
  update (set_deliverby_time 0);;
  update (set_deliverby_flags 0);;
  st ← read state;
  when (negb (cmd_eqb st Mail) && negb (cmd_eqb st MailOrHello))
    (refuse 503 m551 (Hello_
       match st with
       | Hello => $$"Waiting for HELO/EHLO command"
       | Recipient => $$"Waiting for RCPT command"
       | _ => $$"(null)"
       end));;
  user ← read authuser;
  when (msa_mode && (if user is None then true else false))
    (refuse 530 m551 (Hello_ ($$"In SUBMISSION mode sender must authenticate first!")));;
  update (set_rcpt_count 0);;
  update (set_ok_rcpt_count 0).

(** Up to the address: the [From:] keyword and what may stand behind it. *)
Definition mail_find_path (sloppy : bool) (cp : ptr) : cmd ptr :=
  let lax := (strict_protocol <? 1) || sloppy in
  let picky := negb sloppy && (0 <=? strict_protocol) in
  let cp := skip_blanks_if lax (skip_space cp) in
  when (negb (CISTREQN (mem cp) ($$"From:")))
    (refuse 501 m552 (Hello_ ($$"where is From: in that?")));;
  let cp := cp [+] 5 in
  let cp := if lax then skip_while isspace cp else cp in
  when (lax && negb (deref cp =? 0) && negb (deref cp =? $"<") && picky)
    (refuse 501 m517 (Hello_ ($$"where is <...> in that?")));;
  when (deref cp =? 0)
    (refuse 501 m517 (Hello_ ($$"where is <...> in this: " ++ str cp)));;
  when (negb (deref cp =? $"<") && picky)
    (refuse 501 m517 (Hello_ ($$"strangeness between ':' and '<': " ++ str cp)));;
  let cp := if sloppy then cp [+] span (Z.eqb $"<") (tl (mem cp)) else cp in
  when (peek cp 1 =? $"<")
    (refuse 501 m517 ($$"there are too many <'s in this: " ++ str cp));;
  mret cp.

(** A syntax error of the path: the scanner's text and the input. *)
Definition mail_path_error {A} (buf cp : ptr) (text : list Z) : cmd A :=
  type821err (-501) m517 buf text;;
  refuse 501 m517 (Hi_ ($$"that was for input: " ++ str cp)).

Definition path_data_text : cmd (list Z) :=
  e ← read err821; mret ($$"Path data: " ++ prec 200 (rfc821_error_text e)).

Definition route_ignored : list Z := $$", source route ignored".

(** The address itself: its start, its length, the position behind it, and
    the remark on source routes.  Three ways, by the bracket and [sloppy]. *)
Definition mail_path_strict (strict : bool) (buf cp : ptr) : cmd (ptr * Z * ptr * list Z) :=
  '(s, cp) ← scan (rfc821_path cp (strict || (0 <? strict_protocol)));
  when (peq s cp) (t ← path_data_text; mail_path_error buf cp t);;
  when (deref s =? $">")
    (refuse 501 m517 (Hi_ ($$"there are too many >'s in this: <" ++ str cp)));;
  '(cp, note) ← (if (peek cp 1 =? $"@") && negb allow_source_route then
                   cp ← skip_to_colon cp; mret (cp, route_ignored)
                 else mret (cp, []));
  let cp := pinc cp in
  mret (cp, psub s cp - 1, s, note).

Definition mail_path_sloppy (buf cp : ptr) : cmd (ptr * Z * ptr * list Z) :=
  let cp := skip_while is_blank (pinc cp) in
  s ← scan (rfc821_path2 cp false);
  when (peq s cp && negb (deref s =? $">")) (t ← path_data_text; mail_path_error buf cp t);;
  '(cp, note) ← (if (deref cp =? $"@") && negb allow_source_route then
                   cp ← skip_to_colon cp; mret (pinc cp, route_ignored)
                 else mret (cp, []));
  let addrlen := psub s cp in
  let s := skip_while is_blank s in
  when (negb (deref s =? $">"))
    (update (fun ss => set_err821 (Err (rfc821_error (err821 ss)) (Some (addr s))) ss);;
     mail_path_error buf cp ($$"Missing ending '>' bracket"));;
  mret (cp, addrlen, pinc s, note).

Definition mail_path_bare (strict : bool) (buf cp : ptr) : cmd (ptr * Z * ptr * list Z) :=
  s ← scan (rfc821_path2 cp strict);
  when (peq s cp) (t ← path_data_text; mail_path_error buf cp t);;
  when (deref s =? $">") (refuse 501 m517 (Hi_ ($$"there are too many >'s in that!")));;
  '(cp, note) ← (if (deref cp =? $"@") && negb allow_source_route then
                   cp ← skip_to_colon cp; mret (cp, route_ignored)
                 else mret (cp, []));
  mret (cp, psub s cp, s, note).

Definition mail_path (strict sloppy : bool) (buf cp : ptr) : cmd (ptr * Z * ptr * list Z) :=
  if deref cp =? $"<" then
    if negb sloppy then mail_path_strict strict buf cp else mail_path_sloppy buf cp
  else mail_path_bare strict buf cp.

(** *** MAIL parameters *)

(** The texts collected from the parameters ([None] is a null pointer). *)
Record mail_opts := MailOpts {
  bodytype : option (list Z);
  drpt_ret : option (list Z);
  drpt_envid : option (list Z);
  auth_param : option (list Z)
}.

(** [*s && *s != ' ' && *s != '\t'] *)
Definition junk_at (s : ptr) : bool := negb (deref s =? 0) && negb (is_blank (deref s)).

Definition is_some {A} (o : option A) : bool := if o is Some _ then true else false.

(** The blanks in front of a parameter: one in the strict modes. *)
Definition skip_separator (strict sloppy : bool) (s : ptr) : ptr :=
  let is_sep c := (c =? $" ") || (sloppy && (c =? 9)) in
  if (0 <? strict_protocol) || (strict && negb sloppy) then
    if is_sep (deref s) then pinc s else s
  else skip_while is_sep s.

Definition mail_opt_ret (o : mail_opts) (s : ptr) : cmd (mail_opts * ptr) :=
  when (is_some (drpt_ret o)) (refuse 501 m554 ($$"RET-param double defined!"));;
  let s := s [+] 4 in
  let p := if CISTREQN (mem s) ($$"FULL") || CISTREQN (mem s) ($$"HDRS") then s [+] 4 else s in
  when (negb (deref p =? 0) && negb (deref p =? $" ") && (deref p =? 9))
    (refuse 501 m454 ($$"RET-param data error"));;
  mib IncomingSMTP_OPT_RET;;
  mret (MailOpts (bodytype o) (Some (take (Z.to_nat (psub p s)) (mem s)))
          (drpt_envid o) (auth_param o), p).

Definition mail_opt_body (o : mail_opts) (s : ptr) : cmd (mail_opts * ptr) :=
  let s := s [+] 5 in
  when (is_some (bodytype o)) (refuse 501 m554 ($$"BODY= double definition!"));;
  '(b, s) ←
    (if CISTREQN (mem s) ($$"8BITMIME") then
       mib IncomingSMTP_OPT_BODY_8BITMIME;; mret (Some ($$"8BITMIME"), s [+] 8)
     else if CISTREQN (mem s) ($$"BINARYMIME") then
       mib IncomingSMTP_OPT_BODY_BINARYMIME;; mret (Some ($$"BINARYMIME"), s [+] 10)
     else if CISTREQN (mem s) ($$"7BIT") then
       mib IncomingSMTP_OPT_BODY_7BIT;; mret (Some ($$"7BIT"), s [+] 4)
     else mret (bodytype o, s));
  when (junk_at s)
    (refuse 501 m554 ($$"BODY-param data error, must be one of: 8BITMIME/BINARYMIME/7BIT"));;
  mret (MailOpts b (drpt_ret o) (drpt_envid o) (auth_param o), s).

(** The digit loop of [SIZE=]: the value, and the number of digits read. *)
Fixpoint size_loop (v : Z) (l : list Z) : Z * nat :=
  match l with
  | [] => (v, O)
  | c :: l' =>
      if isdigit c && negb (v >? 100000000) then
        let '(v', n) := size_loop (v * 10 + (c - $"0")) l' in (v', S n)
      else (v, O)
  end.

Definition mail_opt_size (o : mail_opts) (s : ptr) : cmd (mail_opts * ptr) :=
  let s := s [+] 5 in
  v0 ← read sizeoptval;
  when (negb (v0 =? -1)) (refuse 501 m554 ($$"SIZE-param double definition!"));;
  let '(v, n) := size_loop 0 (mem s) in
  update (set_sizeoptval v);;
  let s := s [+] n in
  when (junk_at s || (v >? 1000000000)) (refuse 501 m554 ($$"SIZE-param data error"));;
  mib IncomingSMTP_OPT_SIZE;;
  mret (o, s).

Definition mail_opt_envid (buf : ptr) (o : mail_opts) (s : ptr) : cmd (mail_opts * ptr) :=
  when (is_some (drpt_envid o)) (refuse 501 m554 ($$"ENVID double definition!"));;
  let v := s [+] 6 in
  p ← scan (xtext_string v);
  when (peq p v)
    (smtp_tarpit;;
     type821err (-501) m554 buf ($$"Invalid ENVID value '" ++ prec 200 (str v) ++ $$"'");;
     type 501 (Some m554) ($$"ENVID data contains illegal characters!");; return_ (-1));;
  when (psub p v =? 0) (refuse 501 m554 ($$"ENVID= without data!"));;
  mib IncomingSMTP_OPT_ENVID;;
  mret (MailOpts (bodytype o) (drpt_ret o) (Some (take (Z.to_nat (psub p v)) (mem v)))
          (auth_param o), pinc p).

Definition mail_opt_auth (buf : ptr) (o : mail_opts) (s : ptr) : cmd (mail_opts * ptr) :=
  let v := s [+] 5 in
  p ← scan (xtext_string v);
  when (peq p v)
    (type821err (-501) m554 buf ($$"Invalid AUTH value '" ++ prec 200 (str v) ++ $$"'");;
     refuse 501 m554 ($$"AUTH data contains illegal characters!"));;
  when (psub p v =? 0) (refuse 501 m554 ($$"AUTH= without data!"));;
  mib IncomingSMTP_OPT_AUTH;;
  mret (MailOpts (bodytype o) (drpt_ret o) (drpt_envid o)
          (Some (take (Z.to_nat (psub p v)) (mem v))), pinc p).

(** The letters behind the [;] of [BY=]: the flags and their number, [None]
    for invalid data. *)
Fixpoint by_flags (neg : Z) (l : list Z) : option (Z * nat) :=
  match l with
  | [] => Some (neg, O)
  | c :: l' =>
      if (c =? 0) || is_blank c then Some (neg, O)
      else
        let next neg' := '(r, n) ← by_flags neg' l'; Some (r, S n) in
        if (c =? $"T") || (c =? $"t") then
          if flag neg DELIVERBY_T then None else next (Z.lor neg DELIVERBY_T)
        else if (c =? $"N") || (c =? $"n") then
          if flag neg (Z.lor DELIVERBY_R DELIVERBY_N) then None else next (Z.lor neg DELIVERBY_N)
        else if (c =? $"R") || (c =? $"r") then
          if flag neg (Z.lor DELIVERBY_R DELIVERBY_N) then None else next (Z.lor neg DELIVERBY_R)
        else None
  end.

(** The whole value of [BY=]: the time, the flags, and the position behind. *)
Definition by_value (p : ptr) : option (Z * Z * ptr) :=
  let minus := deref p =? $"-" in
  let p := if minus then pinc p else p in
  let cnt := span isdigit (mem p) in
  let val := fold_left (fun v c => v * 10 + (c - $"0")) (take cnt (mem p)) 0 in
  let p := p [+] cnt in
  if (9 <? cnt)%nat then None
  else
    let val := if minus then - val else val in
    if negb (deref p =? $";") then None
    else
      '(neg, n) ← by_flags 0 (mem (pinc p));
      if negb (flag neg (Z.lor DELIVERBY_N DELIVERBY_R)) then None
      else Some (val, neg, pinc p [+] n).

Definition mail_opt_by (buf : ptr) (o : mail_opts) (s : ptr) : cmd (mail_opts * ptr) :=
  match by_value (s [+] 3) with
  | None =>
      smtp_tarpit;;
      type821err 501 m554 buf
        ($$"Invalid data at BY= parameter: '" ++ prec 200 (str s) ++ $$"'");;
      return_ (-1)
  | Some (val, neg, p) =>
      when (flag neg DELIVERBY_R && (val <=? 0))
        (refuse 501 m554 ($$"The strict delivery deadline is already past: BY=" ++ dec val ++
           $$";R" ++ (if flag neg DELIVERBY_T then $$"T" else [])));;
      when (flag neg DELIVERBY_R && (0 <? deliverby_ok) && (val <? deliverby_ok))
        (refuse 553 m571
           ($$"Too small short delivery deadline value given: " ++ dec val ++ [10]));;
      tr ← read trace;
      update (set_deliverby_time (ext_time tr + val));;
      update (set_deliverby_flags neg);;
      mib IncomingSMTP_OPT_DELIVERBY;;
      mret (o, p)
  end.

(** One round of the parameter loop at [s], behind the separator. *)
Definition mail_option (buf : ptr) (o : mail_opts) (s : ptr) : cmd (mail_opts * ptr) :=
  if dsn_ok && CISTREQN (mem s) ($$"RET=") then mail_opt_ret o s
  else if mime8bitok && CISTREQN (mem s) ($$"BODY=") then mail_opt_body o s
  else if CISTREQN (mem s) ($$"SIZE=") then mail_opt_size o s
  else if dsn_ok && CISTREQN (mem s) ($$"ENVID=") then mail_opt_envid buf o s
  else if auth_ok && CISTREQN (mem s) ($$"AUTH=") then mail_opt_auth buf o s
  else if (0 <=? deliverby_ok) && CISTREQN (mem s) ($$"BY=") then mail_opt_by buf o s
  else refuse 501 m554 ($$"Unknown MAIL FROM:<> parameter: " ++ str s).

(** The parameter loop.  Every round that goes on has read a keyword, so
    the length of the buffer bounds the number of rounds. *)
Fixpoint mail_options_loop (fuel : nat) (strict sloppy : bool) (buf : ptr)
    (o : mail_opts) (s : ptr) : cmd mail_opts :=
  if deref s =? 0 then mret o
  else
    match fuel with
    | O => mret o
    | S fuel' =>
        '(o, s) ← mail_option buf o (skip_separator strict sloppy s);
        mail_options_loop fuel' strict sloppy buf o s
    end.

Definition mail_options (strict sloppy : bool) (buf s : ptr) : cmd mail_opts :=
  update (set_sizeoptval (-1));;
  update (set_sizeoptsum (-1));;
  mail_options_loop (length (mem s)) strict sloppy buf (MailOpts None None None None) s.

(** *** MAIL: policy and router *)

Definition mail_policy_reject (pr : Z) (a : list Z) : cmd unit :=
  ss ← policymsg;
  match ss with
  | Some msg =>
      smtp_tarpit;;
      let text := Hello_ ($$"for your MAIL FROM address <" ++ a ++
                          $$"> policy analysis reported: " ++ msg) in
      if -99 <=? pr then type 553 (Some m571) text else type 451 (Some m471) text
  | None =>
      smtp_tarpit;;
      if pr <? -99 then
        if pr <? -103 then
          type 451 (Some m443) (Hello_ ($$"for your input: <" ++ a ++
            $$"> policy analysis reports temporary DNS error with your source domain."))
        else if pr <? -100 then
          type 451 (Some m443) (Hello_ ($$"for your input: <" ++ a ++
            $$"> policy analysis reports DNS error with your source domain."))
        else
          type 451 (Some m471) (Hello_ ($$"for address <" ++ a ++
            $$"> access denied by the policy analysis functions."))
      else if pr <? -1 then
        type 553 (Some m543) (Hello_ ($$"for MAIL FROM address <" ++ a ++
          $$"> the policy analysis reports DNS error with your source domain."))
      else
        type 553 (Some m571) (Hello_ ($$"for MAIL FROM address <" ++ a ++
          $$"> access is denied by the policy analysis functions."))
  end.

Definition mail_policy (cp : ptr) (addrlen : Z) : cmd unit :=
  user ← read authuser;
  pr ← (if netconnected_flg then
          policytest POLICY_MAILFROM (take (Z.to_nat addrlen) (mem cp)) addrlen user
        else mret 0);
  update (set_policyresult pr);;
  when (pr <? 0) (mail_policy_reject pr (strn addrlen cp);; return_ (-1)).

(** Ask the router about an address; [None] when it is not consulted, and a
    reply of the 2xx class otherwise. *)
Definition ask_router (function : list Z) (skip : bool) (cp : ptr) (addrlen : Z)
  : cmd (option (list Z)) :=
  if enable_router && negb skip then
    r ← router function true (take (Z.to_nat addrlen) (mem cp));
    match r with
    | None => return_ (-1)
    | Some s =>
        if negb (Z.quot (atoi s) 100 =? 2) then
          let '(esc, msg) := split_status (drop 4 s) in
          smtp_tarpit;; type (atoi s) esc (Hi_ msg);; return_ (-1)
        else mret (Some s)
    end
  else mret None.

(** *** MAIL: the spool file *)

Definition mail_open_spool : cmd unit :=
  f ← read mfp;
  match f with
  | Some _ => mret tt
  | None =>
      tr ← read trace;
      if ext_mail_open tr then emit EvMailOpen;; update (set_mfp (Some []))
      else smtp_tarpit;; type_arg 452 (Some m430) None [];; return_ (-1)
  end;;
  update (set_messagesize 0);;
  update (set_mfp (Some [])).

Definition host_and_port : list Z :=
  if bool_decide (rhostaddr = []) then [] else rhostaddr ++ $$":" ++ dec rport ++ $$" ".

Definition rhost_flags_text (fl : Z) : list Z :=
  let verdict ok bad none :=
    if flag fl ok then $$"OK" else if flag fl bad then $$"FAIL" else none in
  $$" rhost-flags-" ++ verdict RHOST_REVERSED_OK RHOST_REVERSED_FAIL ($$"??") ++ $$"-" ++
  verdict RHOST_VERIFIED_OK RHOST_VERIFIED_FAIL ($$"FAIL") ++ $$"-" ++
  verdict RHOST_HELO_SYNTAX_OK RHOST_HELO_SYNTAX_FAIL ($$"??") ++ $$"-" ++
  verdict RHOST_HELO_VERIFY_OK RHOST_HELO_VERIFY_FAIL ($$"FAIL") ++ $$")" ++ [10].

Definition auth_text (user : option (list Z)) : list Z :=
  $$" smtp-auth: " ++ (if user is Some u then rfc822comment u else $$"<none>").

(** The [external], [comment] and [rcvdfrom] lines. *)
Definition mail_origin (insecure : bool) : cmd unit :=
  when insecure (fputs ($$"external" ++ [10]));;
  user ← read authuser;
  (if user is Some u then
     fputs ($$"comment smtp-auth: ");; rfc822commentprint u;; fputs [10]
   else mret tt);;
  fl ← read rhostflags;
  helo ← read helobuf;
  when netconnected_flg
    (fputs ($$"rcvdfrom " ++ prec 200 rhostname ++ $$" (" ++ host_and_port);;
     rfc822commentprint helo;;
     when (ident_flag && log_rcvd_ident)
       (fputs ($$" ident: ");; rfc822commentprint ident_username);;
     when log_rcvd_authuser (fputs (auth_text user));;
     fputs (rhost_flags_text fl);;
     fputs ($$"comment " ++ rhostname ++ $$" " ++ host_and_port);;
     rfc822commentprint helo;;
     fputs (auth_text user);;
     fputs (rhost_flags_text fl)).

Definition with_text (w : Z) : list Z :=
  let suffix :=
    let k := Z.land w (Z.lor WITH_AUTH WITH_TLS) in
    if k =? 0 then [] else if k =? WITH_AUTH then $$"A"
    else if k =? WITH_TLS then $$"S" else $$"SA" in
  if flag w WITH_BSMTP then $$"BSMTP"
  else if flag w WITH_LMTP then $$"LMTP" ++ suffix
  else if flag w WITH_SUBMIT then $$"SUBMIT" ++ suffix
  else if flag w WITH_EHLO then $$"ESMTP" ++ suffix
  else $$"SMTP".

Definition mail_with (o : mail_opts) : cmd unit :=
  (if bodytype o is Some b then fputs ($$"bodytype " ++ b ++ [10]) else mret tt);;
  w ← read with_protocol_set;
  fputs ($$"with " ++ with_text w ++ [10]);;
  when ident_flag (fputs ($$"identinfo " ++ ident_username ++ [10])).

Definition mail_from (o : mail_opts) (cp : ptr) (addrlen : Z) : cmd unit :=
  update (set_smtpfrom (Some (take (Z.to_nat addrlen) (mem cp))));;
  (if addrlen =? 0 then fputs ($$"channel error" ++ [10])
   else fputs ($$"from <");; fwrite cp addrlen;; fputs ($$">" ++ [10]));;
  pr ← read policyresult;
  when (0 <? pr) (fputs ($$"comment policytest() reported freeze state" ++ [10]));;
  (if drpt_envid o is Some v then fputs ($$"envid " ++ v ++ [10]) else mret tt);;
  (if drpt_ret o is Some v then fputs ($$"notaryret " ++ v ++ [10]) else mret tt).

Definition LONG_MAX : Z := 2 ^ 63 - 1.

(** The space left for messages, in bytes, from the free kilobytes. *)
Definition avail_bytes (bavail : Z) : Z :=
  Z.min (bavail - minimum_availspace) (LONG_MAX / 1024) * 1024.

(** The reply, and the next state if the spool file is still open. *)
Definition mail_finish (s : option (list Z)) (note : list Z) (addrlen : Z) : cmd unit :=
  tr ← read trace;
  (if ext_statfs tr is Some bavail then update (set_availspace (avail_bytes bavail)) else mret tt);;
  size ← read sizeoptval;
  avail ← read availspace;
  (if ext_ferror tr then
     smtp_tarpit;; type_arg 452 (Some m430) None [];; abort_mail
   else if (size >? maxsize) && (0 <? maxsize) then
     smtp_tarpit;;
     type 552 (Some m534) ($$"This message is larger, than our maximum acceptable incoming message size of  "
       ++ dec maxsize ++ $$"  chars.");;
     abort_mail
   else if size >? avail then
     smtp_tarpit;;
     type 452 (Some m431) ($$"Try again later, insufficient storage available at the moment");;
     abort_mail
   else
     match s with
     | Some s =>
         when (400 <=? atoi s) (smtp_tarpit;; abort_mail);;
         type (atoi s) None (drop 4 s ++ $$"; Ok")
     | None => type 250 (Some ($$"2.1.0")) ($$"Sender syntax Ok; " ++ note)
     end;;
     update (set_sender_ok true));;
  f ← read mfp;
  when (is_some f) (update (set_state Recipient));;
  update (set_from_box (addrlen =? 0)).

Definition mail_body (buf cp : ptr) (insecure : bool) : cmd Z :=
  '(strict, sloppy) ← strict_sloppy;
  mail_state_check;;
  cp ← mail_find_path sloppy cp;
  '(cp, addrlen, s, note) ← mail_path strict sloppy buf cp;
  o ← mail_options strict sloppy buf s;
  let '(cp, addrlen) := rfc821to822quote cp addrlen in
  mail_policy cp addrlen;;
  info ← read cfinfo;
  r ← ask_router ($$"from") (STYLE info $"F") cp addrlen;
  mail_open_spool;;
  mail_origin insecure;;
  mail_with o;;
  mail_from o cp addrlen;;
  mail_finish r note addrlen;;
  mret 0.

Definition smtp_mail (buf cp : ptr) (insecure : bool) : cmd Z := catch (mail_body buf cp insecure).

(** ** RCPT *)

Definition rcpt_state_check : cmd unit :=
  update (fun ss => set_rcpt_count (rcpt_count ss + 1) ss);;
  user ← read authuser;
  when (msa_mode && negb (is_some user))
    (refuse 530 m551 (Hello_ ($$"In SUBMISSION mode sender must authenticate first!")));;
  st ← read state;
  pr ← read policyresult;
  when ((cmd_eqb st MailOrHello || cmd_eqb st Mail) && policydb && (pr <? 0))
    (refuse 550 m571
       (Hello_ ($$"access denied by the policy analysis functions by earlier rejection")));;
  when (negb (cmd_eqb st Recipient) && negb (cmd_eqb st RecipientOrData))
    (refuse 503 m551 (Hello_
       match st with
       | Hello => $$"Waiting for HELO command"
       | Mail | MailOrHello => $$"Waiting for MAIL command"
       | _ => $$"(null)"
       end)).

Definition rcpt_find_path (sloppy : bool) (cp : ptr) : cmd ptr :=
  let lax := (strict_protocol <? 1) || sloppy in
  let picky := negb sloppy && (0 <=? strict_protocol) in
  let cp := skip_blanks_if (strict_protocol <? 1) (skip_space cp) in
  when (negb (CISTREQN (mem cp) ($$"To:")))
    (refuse 501 m552 ($$"where is To: in this?  " ++ str cp));;
  let cp := cp [+] 3 in
  let cp := if lax then skip_while isspace cp else cp in
  when (lax && negb (deref cp =? 0) && negb (deref cp =? $"<") && picky)
    (refuse 501 m513 ($$"where is <...> in this?  " ++ str cp));;
  when (deref cp =? 0) (refuse 501 m513 ($$"where is <...> in this?  " ++ str cp));;
  when (negb (deref cp =? $"<") && picky)
    (refuse 501 m513 ($$"strangeness between ':' and '<': " ++ str cp));;
  when (peek cp 1 =? $">")
    (refuse 501 m513 ($$"Null address valid only as source: " ++ str cp));;
  when (peek cp 1 =? $"<")
    (refuse 501 m513 ($$"there are too many <'s in this: " ++ str cp));;
  mret cp.

Definition rcpt_path_error {A} (status : list Z) (buf : ptr) : cmd A :=
  t ← path_data_text; type821err 501 status buf t;; return_ (-1).

(** The address in brackets; rfc821_path() has run already in both modes. *)
Definition rcpt_path_strict (buf s cp : ptr) : cmd (ptr * Z * ptr * list Z) :=
  s ← (if peq s cp then
         if CISTREQN (mem cp) ($$"<POSTMASTER>") then mret (cp [+] 12)
         else e ← read err821;
              type821err 501 m513 buf ($$"Path data: " ++ rfc821_error_text e);; return_ (-1)
       else mret s);
  when (deref s =? $">") (refuse 501 m513 ($$"there are too many >'s in this: " ++ str cp));;
  '(cp, note) ← (if (peek cp 1 =? $"@") && negb allow_source_route then
                   cp ← skip_to_colon cp; mret (cp, route_ignored)
                 else mret (cp, []));
  let cp := pinc cp in
  mret (cp, psub s cp - 1, s, note).

Definition rcpt_path_sloppy (buf cp : ptr) : cmd (ptr * Z * ptr * list Z) :=
  let cp := skip_while is_blank (pinc cp) in
  s ← scan (rfc821_path2 cp false);
  when (peq s cp) (rcpt_path_error m517 buf);;
  '(cp, note) ← (if (deref cp =? $"@") && negb allow_source_route then
                   cp ← skip_to_colon cp; mret (pinc cp, route_ignored)
                 else mret (cp, []));
  let addrlen := psub s cp in
  let s := skip_while is_blank s in
  when (negb (deref s =? $">"))
    (update (fun ss => set_err821 (Err (rfc821_error (err821 ss)) (Some (addr s))) ss);;
     type821err 501 m517 buf ($$"Missing ending '>' bracket: " ++ str cp);; return_ (-1));;
  mret (cp, addrlen, pinc s, note).

Definition rcpt_path_bare (strict : bool) (buf cp : ptr) : cmd (ptr * Z * ptr * list Z) :=
  s ← scan (rfc821_path2 cp (strict || (0 <? strict_protocol)));
  when (peq s cp) (rcpt_path_error m513 buf);;
  when (deref s =? $">") (refuse 501 m513 ($$"there are too many >'s in that!"));;
  '(cp, note) ← (if (deref cp =? $"@") && negb allow_source_route then
                   cp ← skip_to_colon cp; mret (cp, route_ignored)
                 else mret (cp, []));
  mret (cp, psub s cp, s, note).

Definition rcpt_path (strict sloppy : bool) (buf cp : ptr) : cmd (ptr * Z * ptr * list Z) :=
  r ← (if deref cp =? $"<" then
         '(s, cp) ← scan (rfc821_path cp (strict || (0 <? strict_protocol)));
         if negb sloppy then rcpt_path_strict buf s cp else rcpt_path_sloppy buf cp
       else rcpt_path_bare strict buf cp);
  let '(cp, addrlen, s, note) := r in
  when (addrlen <? 1) (refuse 501 m513 ($$"What is an empty recipient?"));;
  mret r.

(** *** RCPT parameters *)

(** The texts of [NOTIFY=] and [ORCPT=], keyword included, and the flags. *)
Record rcpt_opts := RcptOpts {
  drpt_notify : option (list Z);
  notifyflgs : Z;
  drpt_orcpt : option (list Z)
}.

(** The word list of [NOTIFY=]: the flags, and the number of characters.
    The words are not empty, so that the length of [l] is enough rounds. *)
Fixpoint notify_words (fuel : nat) (flgs : Z) (l : list Z) : Z * nat :=
  match fuel with
  | O => (flgs, O)
  | S fuel' =>
      if hd 0 l =? 0 then (flgs, O)
      else
        let '(flgs, k) :=
          if CISTREQN l ($$"SUCCESS") then (Z.lor flgs NOTIFY_SUCCESS, 7%nat)
          else if CISTREQN l ($$"FAILURE") then (Z.lor flgs NOTIFY_FAILURE, 7%nat)
          else if CISTREQN l ($$"DELAY") then (Z.lor flgs NOTIFY_DELAY, 5%nat)
          else if CISTREQN l ($$"NEVER") then (Z.lor flgs NOTIFY_NEVER, 5%nat)
          else (flgs, O) in
        let l := drop k l in
        if negb (hd 0 l =? $",") then (flgs, k)
        else let '(flgs, n) := notify_words fuel' flgs (tl l) in (flgs, (k + 1 + n)%nat)
  end.

Definition rcpt_opt_notify (o : rcpt_opts) (s : ptr) : cmd (rcpt_opts * ptr) :=
  when (is_some (drpt_notify o)) (refuse 501 m554 ($$"NOTIFY-param double defined!"));;
  let v := s [+] 7 in
  let '(flgs, n) := notify_words (length (mem v)) (notifyflgs o) (mem v) in
  let p := v [+] n in
  when (junk_at p) (refuse 455 m454 ($$"NOTIFY-param data error"));;
  mib IncomingSMTP_OPT_NOTIFY;;
  mret (RcptOpts (Some (take (Z.to_nat (psub p s)) (mem s))) flgs (drpt_orcpt o), p).

Definition rcpt_opt_orcpt (buf : ptr) (o : rcpt_opts) (s : ptr) : cmd (rcpt_opts * ptr) :=
  when (is_some (drpt_orcpt o)) (refuse 501 m554 ($$"ORCPT-param double defined!"));;
  r ← scan (orcpt_string (s [+] 6));
  match r with
  | None =>
      type821err (-501) m454 buf ($$"Invalid ORCPT value '" ++ str s ++ $$"'");;
      refuse 501 m454 ($$"ORCPT-param data error!")
  | Some p =>
      mib IncomingSMTP_OPT_ORCPT;;
      mret (RcptOpts (drpt_notify o) (notifyflgs o)
              (Some (take (Z.to_nat (psub p s)) (mem s))), p)
  end.

Definition rcpt_option (buf : ptr) (o : rcpt_opts) (s : ptr) : cmd (rcpt_opts * ptr) :=
  if dsn_ok && CISTREQN (mem s) ($$"NOTIFY=") then rcpt_opt_notify o s
  else if dsn_ok && CISTREQN (mem s) ($$"ORCPT=") then rcpt_opt_orcpt buf o s
  else refuse 555 m554 ($$"Unknown RCPT TO:<> parameter: " ++ str s).

Fixpoint rcpt_options_loop (fuel : nat) (strict sloppy : bool) (buf : ptr)
    (o : rcpt_opts) (s : ptr) : cmd rcpt_opts :=
  if deref s =? 0 then mret o
  else
    match fuel with
    | O => mret o
    | S fuel' =>
        '(o, s) ← rcpt_option buf o (skip_separator strict sloppy s);
        rcpt_options_loop fuel' strict sloppy buf o s
    end.

Definition rcpt_options (strict sloppy : bool) (buf s : ptr) : cmd rcpt_opts :=
  o ← rcpt_options_loop (length (mem s)) strict sloppy buf (RcptOpts None 0 None) s;
  n ← read rcpt_count;
  when (rcptlimitcnt <=? n) (refuse 452 ($$"4.5.2") ($$"Too many recipients in one go!"));;
  mret o.

(** *** RCPT: policy *)

Definition rcpt_policy_reject (pr : Z) (ss : option (list Z)) (a : list Z) : cmd unit :=
  if pr <? -99 then
    match ss with
    | Some msg => type 451 (Some m471) (Hello_ ($$"for recipient address <" ++ a ++
                    $$"> the policy analysis reported: " ++ msg))
    | None =>
        if pr <? -103 then
          type 451 (Some m443) (Hello_
            ($$"policy analysis reports temporary DNS error with the target domain: <" ++ a ++ $$">"))
        else if pr <? -102 then
          type 451 (Some m471) ($$"Your IP address " ++ rhostaddr ++
            $$" is not allowed to relay to email address <" ++ a ++ $$"> via our server; MX rule")
        else if pr <? -100 then
          type 451 (Some m443) (Hello_
            ($$"Policy analysis found DNS error on the target address: <" ++ a ++ $$">"))
        else
          type 451 (Some m443) (Hello_
            ($$"Policy rejection on the target address: <" ++ a ++ $$">"))
    end
  else
    match ss with
    | Some msg => type 550 (Some m571) (Hello_ ($$"Policy analysis reported: " ++ msg ++
                    $$" rcpt=<" ++ a ++ $$">"))
    | None =>
        if pr <? -2 then
          type 550 (Some m571) ($$"Your IP address " ++ rhostaddr ++
            $$" is not allowed to relay to email address <" ++ a ++ $$"> via our server; MX rule")
        else if pr <? -1 then
          type 550 (Some m543) (Hello_
            ($$"Policy analysis found DNS error on the target domain: <" ++ a ++ $$">"))
        else
          type 550 (Some m571) (Hello_
            ($$"Policy rejection on the target address: <" ++ a ++ $$">"))
    end.

(** A rejected postmaster may still get through. *)
Definition rcpt_postmaster (cp : ptr) (addrlen : Z) (pr : Z) : cmd unit :=
  if (postmasteronly || (pr <? 0)) && CISTREQN (mem cp) ($$"postmaster") then
    if addrlen =? 10 then update (set_policyresult 0)
    else
      when (policydb && (-100 <? pr))
        (user ← read authuser;
         rc ← (if netconnected_flg then
                 policytest POLICY_RCPTPOSTMASTER (take (Z.to_nat addrlen) (mem cp)) addrlen user
               else mret 0);
         when (rc =? 0) (update (set_policyresult 0)))
  else mret tt.

Definition rcpt_policy (cp : ptr) (addrlen : Z) : cmd unit :=
  user ← read authuser;
  pr ← (if netconnected_flg then
          policytest POLICY_RCPTTO (take (Z.to_nat addrlen) (mem cp)) addrlen user
        else mret 0);
  update (set_policyresult pr);;
  rcpt_postmaster cp addrlen pr;;
  pr ← read policyresult;
  when (pr <? 0)
    (ss ← policymsg;
     fputs ($$"comment policytest() rejected rcptaddr: <");;
     fwrite cp addrlen;; fputs ($$">" ++ [10]);;
     smtp_tarpit;;
     rcpt_policy_reject pr ss (strn addrlen cp);; return_ (-1)).

(** *** RCPT: the spool file *)

(** The delivery notification part of the [todsn] line. *)
Definition todsn_notify (o : rcpt_opts) (byflags : Z) : list Z :=
  if force_rcpt_notify_never then $$" NOTIFY=NEVER"
  else
    let trace := if flag byflags DELIVERBY_T then $$",TRACE" else [] in
    match drpt_notify o with
    | Some v =>
        [$" "] ++ v ++
        (if negb (flag (notifyflgs o) NOTIFY_NEVER) && negb (flag (notifyflgs o) NOTIFY_DELAY)
            && flag byflags DELIVERBY_N then $$",DELAY" else []) ++ trace
    | None => $$" NOTIFY=FAILURE,DELAY" ++ trace
    end.

Definition todsn_by (bytime byflags : Z) : list Z :=
  if bytime =? 0 then []
  else $$" BY=" ++ dec bytime ++ $$";" ++ (if flag byflags DELIVERBY_R then $$"R" else []) ++
       (if flag byflags DELIVERBY_N then $$"N" else []) ++
       (if flag byflags DELIVERBY_T then $$"T" else []).

(** The [todsn] and [to] lines of a recipient. *)
Definition rcpt_write (o : rcpt_opts) (cp : ptr) (addrlen : Z) : cmd unit :=
  bytime ← read deliverby_time;
  byflags ← read deliverby_flags;
  from ← read smtpfrom;
  let inrcpt := xtext_encode (strn addrlen cp) in
  fputs ($$"todsn" ++ todsn_notify o byflags ++ todsn_by bytime byflags);;
  fputs (match drpt_orcpt o with
         | Some v => [$" "] ++ v
         | None => $$" ORCPT=rfc822;" ++ inrcpt
         end);;
  fputs ($$" INRCPT=rfc822;" ++ inrcpt ++ $$" INFROM=rfc822;");;
  match from with
  | None => exit Segv
  | Some f => fputs (xtext_encode (cstr f) ++ [10])
  end;;
  fputs ($$"to <");; fwrite cp addrlen;; fputs ($$">" ++ [10]);;
  pr ← read policyresult;
  when (0 <? pr)
    (fputs ($$"comment policytest() reported freeze state " ++ dec pr ++ [10])).

Definition SPAM_trap : list Z := $$"SPAM trap -- too many recipients for an empty source address!".

(** The reply; the result is [err]. *)
Definition rcpt_reply (r : option (list Z)) (note : list Z) (cp : ptr) (addrlen : Z) : cmd Z :=
  update (fun ss => set_sizeoptval (if sizeoptval ss <? 0 then 0 else sizeoptval ss) ss);;
  update (fun ss => set_sizeoptsum
    (if sum_sizeoption_value then sizeoptsum ss + sizeoptval ss else sizeoptval ss) ss);;
  tr ← read trace;
  size ← read sizeoptval;
  sum ← read sizeoptsum;
  avail ← read availspace;
  box ← read from_box;
  n ← read rcpt_count;
  let a := strn addrlen cp in
  let trap := box && (n >? MaxErrorRecipients) in
  if ext_ferror tr then
    smtp_tarpit;; type_arg 452 (Some m430) None [];; mret 1
  else if (0 <? maxsize) && (size >? maxsize) then
    smtp_tarpit;;
    type 552 (Some m534) ($$"Message size exceeds fixed maximum size of " ++ dec maxsize ++
      $$" chars for acceptable email; rcpt=<" ++ a ++ $$">");; mret 1
  else if sum >? avail then
    smtp_tarpit;; type 452 (Some m431) ($$"insufficient storage space, try again later");; mret 1
  else
    match r with
    | Some s =>
        if trap then smtp_tarpit;; type 552 (Some m571) SPAM_trap;; mret 1
        else
          when (400 <=? atoi s) (smtp_tarpit;; abort_mail);;
          type (atoi s) None (drop 4 s);;
          mret (if atoi s <? 400 then 0 else atoi s)
    | None =>
        (if trap then smtp_tarpit;; type 552 (Some m571) SPAM_trap
         else if negb (size =? 0) then
           type 250 (Some ($$"2.1.5")) ($$"Ok; can accomodate " ++ dec size ++ $$" byte message" ++
             note ++ $$" for <" ++ a ++ $$">")
         else
           type 250 (Some ($$"2.1.5")) ($$"Recipient address syntax Ok" ++ note ++ $$"; rcpt=<" ++
             a ++ $$">"));;
        mret 0
    end.

Definition rcpt_body (buf cp : ptr) : cmd Z :=
  '(strict, sloppy) ← strict_sloppy;
  rcpt_state_check;;
  cp ← rcpt_find_path sloppy cp;
  '(cp, addrlen, s, note) ← rcpt_path strict sloppy buf cp;
  o ← rcpt_options strict sloppy buf s;
  let '(cp, addrlen) := rfc821to822quote cp addrlen in
  rcpt_policy cp addrlen;;
  info ← read cfinfo;
  r ← ask_router ($$"to") (STYLE info $"T") cp addrlen;
  rcpt_write o cp addrlen;;
  err ← rcpt_reply r note cp addrlen;
  when (err =? 0)
    (update (fun ss => set_ok_rcpt_count (ok_rcpt_count ss + 1) ss);;
     update (set_state RecipientOrData));;
  mret err.

Definition smtp_rcpt (buf cp : ptr) : cmd Z := catch (rcpt_body buf cp).

(** ** VRFY and EXPN *)

Definition verify_body (cp : ptr) : cmd Z :=
  mib IncomingSMTP_VRFY;;
  st ← read state;
  when (cmd_eqb st Hello)
    (smtp_tarpit;; type 503 (Some m551) ($$"Waiting for HELO/EHLO command");; return_ 0);;
  let cp := skip_while is_blank cp in
  info ← read cfinfo;
  let '(cp, addrlen) := rfc821to822quote cp (Z.of_nat (strlen (mem cp))) in
  if STYLE info $"v" && enable_router then
    s ← router ($$"verify") false (take (Z.to_nat addrlen) (mem cp));
    (if s is None then
       smtp_tarpit;; type 501 (Some m540) ($$"Unable to verify that address")
     else mret tt);;
    mret 0
  else type_arg 252 (Some ($$"2.5.2")) None [];; mret 0.

Definition smtp_verify (buf cp : ptr) : cmd Z := catch (verify_body cp).

Definition expand_body (cp : ptr) : cmd Z :=
  mib IncomingSMTP_EXPN;;
  st ← read state;
  when (cmd_eqb st Hello)
    (smtp_tarpit;; type 503 (Some m551) ($$"Waiting for HELO/EHLO command");; return_ 0);;
  let cp := skip_while is_blank cp in
  info ← read cfinfo;
  if STYLE info $"e" && enable_router then
    let '(cp, addrlen) := rfc821to822quote cp (Z.of_nat (strlen (mem cp))) in
    s ← router ($$"expand") false (take (Z.to_nat addrlen) (mem cp));
    (if s is None then
       smtp_tarpit;; type 501 (Some m540) ($$"Unable to expand that address")
     else mret tt);;
    mret 0
  else smtp_tarpit;; type_arg 502 (Some m540) None [];; mret 0.

Definition smtp_expand (buf cp : ptr) : cmd Z := catch (expand_body cp).
End commands.
