(* ===== verification/SmtpLine.v ===== *)
(** * Reading a line (smtpserver/smtpserver.c)

    s_gets(), with which the session loop reads commands and AUTH the
    answers to its prompts. *)

From Stdlib Require Import ZArith Lia.
From stdpp Require Import base tactics numbers list option.
From S2P Require Import Prelude StrMatch Rfc821 SmtpState SmtpCmds.

#[local] Open Scope Z_scope.

Definition EOF : Z := -1.

Definition SMTPLINESIZE : Z := 8192.

(** Is this the first character the protocol does not allow? *)
Definition illegal (co c : Z) : bool :=
  (co =? 13) || (c =? 0) || negb (Z.land c 0x80 =? 0) ||
  (negb (c =? 13) && negb (c =? 9) && ((c <? 32) || (c =? 127))).

(** The reading loop: the last character read or [EOF], the one before,
    the position of the first illegal one, what was stored, and the input
    left.  [i] is the index of the last character stored. *)
Record line_read := LineRead {
  lr_c : Z; lr_co : Z; lr_rc : Z; lr_stored : list Z; lr_rest : list Z
}.

Fixpoint s_gets_loop (buflen i co rc : Z) (stored input : list Z) : line_read :=
  match input with
  | [] => LineRead EOF co rc stored []
  | c :: rest =>
      if i <? buflen then
        let i := i + 1 in
        let stored := stored ++ [c] in
        if c =? 10 then LineRead c co rc stored rest
        else s_gets_loop buflen i c (if (rc <? 0) && illegal co c then i else rc) stored rest
      else LineRead c co rc stored rest
  end.

(** [buf[k] = 0], when [k] is an index of the buffer. *)
Definition zap (k : Z) (buf : list Z) : list Z :=
  if k <? 0 then buf else <[Z.to_nat k := 0]> buf.

(** The result of s_gets(): its value, the buffer, [rc], [co] and [c], the
    input left, the indices it wrote to behind the loop, and whether it saw
    the end of the input. *)
Record gets := Gets {
  g_i : Z; g_buf : list Z; g_rc : Z; g_co : Z; g_c : Z; g_rest : list Z; g_writes : list Z;
  g_eof : bool
}.

Definition s_gets (buflen : Z) (input : list Z) : gets :=
  let buflen := buflen - 1 in
  let r := s_gets_loop buflen (-1) (-1) (-1) [] input in
  let i := Z.of_nat (length (lr_stored r)) in
  let nl := lr_c r =? 10 in
  let cr := lr_co r =? 13 in
  let buf := lr_stored r ++ [0] in
  let buf := if nl then zap (i - 1) buf else buf in
  let buf := if cr then zap (i - 2) buf else buf in
  let oversized := (buflen <=? i) && negb (lr_c r =? EOF) && negb nl in
  let eaten := span (fun c => negb (c =? 10)) (lr_rest r) in
  let rest := if oversized then drop (S eaten) (lr_rest r) else lr_rest r in
  Gets i buf (lr_rc r) (lr_co r) (lr_c r) rest
    ([i] ++ (if nl then [i - 1] else []) ++ (if cr then [i - 2] else []))
    ((lr_c r =? EOF) || (oversized && (eaten =? length (lr_rest r))%nat)).

Section line.
Context {cf : Config} {env : Env}.

(** s_gets() on the session's input; it aborts an open mail when the
    connection ends. *)
Definition get_line : cmd gets :=
  inp ← read input;
  let g := s_gets SMTPLINESIZE inp in
  update (set_input (g_rest g));;
  when (g_eof g) (update (set_s_status true));;
  f ← read mfp;
  when ((g_c g =? EOF) && (g_i g =? 0) && is_some f) abort_mail;;
  mret g.
End line.
