(* ===== verification/SmtpData.v ===== *)
(** * Message data (smtpserver/smtpdata.c)

    DATA and BDAT.  mvdata() copies the message from the connection to the
    spool file: a table-driven machine turns CR LF into LF, removes the dots
    the client has put in front of lines, and stops behind the line with a
    single dot; the header lines are collected and looked at on the way.
    mvbdata() copies a counted block.  smtp_data() and smtp_bdata() check
    the transaction, call them, ask the content filter, and dispose of the
    spool file.  Built without USE_TRANSLATION, USE_ANTISPAM_HACKS, SPF and
    embedded Perl. *)

From Stdlib Require Import ZArith Lia.
From stdpp Require Import base tactics numbers list option.
From S2P Require Import Prelude StrMatch Rfc821 SpoolId SmtpState SmtpCmds SmtpLine.

#[local] Open Scope Z_scope.

(** ** The machine of mvdata() *)

Definition O_ : Z := Z.shiftl 0x80 8.   (** do not print *)
Definition N_ : Z := Z.shiftl 13 8.     (** print CR, then the character *)
Definition X_ : Z := Z.lnot 0.          (** exit *)

(** Rows: during a line, [^.], [^] (start), CR seen, [^.] CR seen; columns:
    any character, CR, LF, dot, end of file. *)
Definition states : list Z := [
  0;          Z.lor O_ 15; 10; 0;          X_;
  0;          Z.lor O_ 20; X_; 0;          X_;
  0;          Z.lor O_ 15; 10; Z.lor O_ 5; X_;
  Z.lor N_ 0; 15;          10; Z.lor N_ 0; X_;
  Z.lor N_ 0; 15;          X_; Z.lor N_ 0; X_ ].

(** The column of a character; entry 0 is that of [EOF]. *)
Definition indexnum : list Z :=
  4 :: ((fun c => if c =? 13 then 1 else if c =? 10 then 2 else if c =? $"." then 3 else 0)
        <$> all_bytes).
Definition idxnum (c : Z) : Z := nth (Z.to_nat (c + 1)) indexnum 0.

(** One step on a character: the next state and what to print; [None] at
    the end of the message. *)
Definition dot_step (state c : Z) : option (Z * list Z) :=
  let state := nth (Z.to_nat (state + idxnum c)) states 0 in
  if negb (Z.land state (Z.lnot 0xff) =? 0) then
    if negb (Z.land state O_ =? 0) then
      if state =? X_ then None else Some (Z.land state 0xff, [])
    else Some (Z.land state 0xff, [Z.shiftr state 8; c])
  else Some (state, [c]).

Definition START : Z := 10.

(** What a copying loop did: the characters it counted, what it printed,
    the input behind it, and whether it ran into the end of the input. *)
Record moved := Moved { mv_cnt : Z; mv_out : list Z; mv_rest : list Z; mv_eof : bool }.

(** The loop over the body.  A file in error takes no more characters. *)
Fixpoint mvbody (ferror : bool) (state cnt : Z) (out input : list Z) : moved :=
  match input with
  | [] => Moved (cnt + 1) out [] true
  | c :: rest =>
      match dot_step state c with
      | None => Moved (cnt + 1) out rest false
      | Some (state, o) => mvbody ferror state (cnt + 1) (if ferror then out else out ++ o) rest
      end
  end.

(** ** Header lines *)

Definition SIZEOF_LINEBUF : Z := 4000.
Definition FREEZE__X_ADVERTISEMENT_FOUND : Z := 951.
Definition MAILPRIO_HIGH : Z := 0.
Definition MAILPRIO_NORMAL : Z := 0.
Definition MAILPRIO_BULK : Z := 1.
Definition MAILPRIO_JUNK : Z := 9.

(** header_to_mime() of smtpserver.c has an empty body. *)
Definition header_to_mime (buf : list Z) : list Z := buf.

(** The locals of the header loop, what it has written, and the two values
    it sets.  [linebuf] is its first [col] characters. *)
Record header := Header {
  h_state : Z; linebuf : list Z; has8bit : bool; linecnt : Z;
  h_out : list Z; h_policyresult : Z; h_priority : Z
}.

Definition put_line (o : list Z) (buf : list Z) : list Z :=
  fold_left (fun buf c => if Z.of_nat (length buf) <? SIZEOF_LINEBUF - 1 then buf ++ [c] else buf) o buf.

Definition is_white (c : Z) : bool := (c =? $" ") || (c =? 9) || (c =? 13) || (c =? 10).

(** [Precedence:]; the flag says that the value is too short, which leaves
    the line in the buffer. *)
Definition precedence (line : list Z) (prio : Z) : Z * bool :=
  if CISTREQN line ($$"Precedence:") then
    let s := drop 11 line in
    let s := drop (span is_blank s) s in
    let left := Z.of_nat (length s) in
    if left <? 4 then (prio, true)
    else if CISTREQN s ($$"high") then (MAILPRIO_HIGH, false)
    else if CISTREQN s ($$"junk") then (MAILPRIO_JUNK, false)
    else if CISTREQN s ($$"bulk") then (MAILPRIO_BULK, false)
    else if (6 <=? left) && CISTREQN s ($$"normal") then (MAILPRIO_NORMAL, false)
    else (prio, false)
  else (prio, false).

Definition starts_with (w line : list Z) : bool := bool_decide (take (length w) line = w).

(** The end of a line: [inl] when the header goes on, [inr] with all that
    was written when the line was blank and the body begins. *)
Definition header_line (h : header) : header + header :=
  let line := linebuf h in
  let flush n out pr prio := Header (h_state h) [] false n (h_out h ++ out) pr prio in
  let mime := if has8bit h then header_to_mime line else line in
  if forallb is_white line then inr (flush (linecnt h) line (h_policyresult h) (h_priority h))
  else
    let n := linecnt h + 1 in
    if is_blank (hd 0 line) then inl (flush n mime (h_policyresult h) (h_priority h))
    else
      let pr := if CISTREQN line ($$"X-Advertisement:") || CISTREQN line ($$"X-Advertisment:")
                then FREEZE__X_ADVERTISEMENT_FOUND else h_policyresult h in
      let '(prio, short) := precedence line (h_priority h) in
      if short : bool then inl (Header (h_state h) line (has8bit h) n (h_out h) pr prio)
      else if (n =? 1) && (starts_with ($$"From ") line || starts_with ($$">From ") line)
      then inl (flush n [] pr prio)
      else inl (flush n mime pr prio).

(** The loop over the header; it gives the characters counted, the locals
    at its end, the input behind it, and how it ended. *)
Inductive header_end := Header_eof | Header_done | Header_body.

Fixpoint mvheader (h : header) (cnt : Z) (input : list Z) : Z * header * list Z * header_end :=
  match input with
  | [] => (EOF, h, [], Header_eof)
  | c :: rest =>
      let cnt := cnt + 1 in
      match dot_step (h_state h) c with
      | None =>
          let mime := if has8bit h then header_to_mime (linebuf h) else linebuf h in
          (cnt, Header (h_state h) (linebuf h) (has8bit h) (linecnt h) (h_out h ++ mime)
                  (h_policyresult h) (h_priority h), rest, Header_done)
      | Some (state, []) =>
          mvheader (Header state (linebuf h) (has8bit h) (linecnt h) (h_out h)
                      (h_policyresult h) (h_priority h)) cnt rest
      | Some (state, o) =>
          let h := Header state (put_line o (linebuf h))
                     (has8bit h || negb (Z.land 0x80 c =? 0)) (linecnt h) (h_out h)
                     (h_policyresult h) (h_priority h) in
          if negb (c =? 10) then mvheader h cnt rest
          else
            match header_line h with
            | inl h => mvheader h cnt rest
            | inr h => (cnt, h, rest, Header_body)
            end
      end
  end.

Definition header_start (pr : Z) : header := Header START [] false 0 [] pr MAILPRIO_NORMAL.

(** mvdata() on the input: what was moved, [policyresult] and
    [mail_priority].  An end of the input in the header counts as [EOF]. *)
Definition mvdata_run (ferror : bool) (pr : Z) (input : list Z) : moved * Z * Z :=
  let '(cnt, h, rest, how) := mvheader (header_start pr) 0 input in
  let m := match how with
           | Header_eof => Moved cnt (h_out h) rest true
           | Header_done => Moved cnt (h_out h) rest false
           | Header_body => mvbody ferror (h_state h) cnt (h_out h) rest
           end in
  (m, h_policyresult h, h_priority h).

(** ** The copying loop of mvbdata()

    [mvb] is the character before; a CR is held back until the next one. *)
Fixpoint mvbblock (incount mvb cnt : Z) (out input : list Z) : moved * Z :=
  if incount <=? 0 then (Moved cnt out input false, mvb)
  else
    match input with
    | [] => (Moved cnt out [] true, mvb)
    | c :: rest =>
        let o := if c =? 13 then []
                 else if mvb =? 13 then if negb (c =? 10) then [mvb; c] else [c]
                 else [c] in
        mvbblock (incount - 1) c (cnt + 1) (out ++ o) rest
    end.

(** ** Texts of the content filter *)

(** parsestatcode(): the code, the enhanced status and the text behind. *)
Definition parsestatcode (s : list Z) : Z * option (list Z) * list Z :=
  let n := span isdigit s in
  let code := if (n =? 0)%nat then -1
              else fold_left (fun v c => v * 10 + (c - $"0")) (take n s) 0 in
  let s := drop n s in
  let s := drop (span is_blank s) s in
  let '(st, s) :=
    if isdigit (nth 0 s 0) && (nth 1 s 0 =? $".") && isdigit (nth 2 s 0) &&
       (nth 3 s 0 =? $".") && isdigit (nth 4 s 0)
    then (Some (take 5 s), drop 5 s) else (None, s) in
  (if (code <? 200) || (599 <? code) then 0 else code, st, drop (span is_blank s) s).

(** The text split at its first 17 CRs. *)
Fixpoint split_cr (n : nat) (s : list Z) : list Z * list (list Z) :=
  match n with
  | O => (s, [])
  | S n' =>
      let k := span (fun c => negb (c =? 13)) s in
      if (k <? length s)%nat then
        let '(l, ls) := split_cr n' (drop (S k) s) in (take k s, l :: ls)
      else (s, [])
  end.

(** What the filter's message gives for the reply: code, status, the first
    line, and the further lines, of which the first is lost when the
    message starts with a CR. *)
Record filter_text := FilterText {
  ft_code : Z; ft_status : option (list Z); ft_ss : list Z; ft_lines : list (option (list Z))
}.

Definition filter_message (result : Z) (msg : option (list Z)) : filter_text :=
  let other := if result <? 0 then $$"rejected, no further explanations"
               else if result =? 0 then $$"accepted"
               else $$"accepted into freezer, no explanations" in
  match msg with
  | None => FilterText 0 None other []
  | Some m =>
      let '(code, st, ss) := parsestatcode m in
      let '(ss, ls) := split_cr 17 ss in
      if bool_decide (ss = []) then
        FilterText code st other (match ls with [] => [] | _ :: ls => None :: (Some <$> ls) end)
      else FilterText code st ss (Some <$> ls)
  end.

Section data.
Context {cf : Config} {env : Env}.

(** Move a message from the input to the spool file. *)
Definition mvdata : cmd Z :=
  f ← read mfp;
  inp ← read input;
  pr ← read policyresult;
  tr ← read trace;
  match f with
  | None => exit Segv
  | Some b =>
      let '(m, pr, prio) := mvdata_run (ext_ferror tr) pr inp in
      update (set_policyresult pr);;
      update (set_mail_priority prio);;
      update (set_mfp (Some (b ++ mv_out m)));;
      update (set_input (mv_rest m));;
      when (mv_eof m) (update (set_s_status true));;
      mret (mv_cnt m)
  end.

(** Move a block of [incount] characters; without a spool file, or with one
    in error, they are only counted. *)
Definition mvbdata (incount : Z) : cmd Z :=
  f ← read mfp;
  inp ← read input;
  mvb ← read mvbstate;
  tr ← read trace;
  let '(m, mvb) := mvbblock incount mvb 0 [] inp in
  update (set_mvbstate mvb);;
  when (negb (ext_ferror tr))
    (if f is Some b then update (set_mfp (Some (b ++ mv_out m))) else mret tt);;
  update (set_input (mv_rest m));;
  when (mv_eof m) (update (set_s_status true));;
  mret (mv_cnt m).

(** [m] once, and in LMTP mode, if [c], once more for each further
    recipient. *)
Definition for_rcpts_from (first : Z) (c : bool) (m : cmd unit) : cmd unit :=
  n ← read ok_rcpt_count;
  when (lmtp_mode && c) (Nat.iter (Z.to_nat (n - first)) (fun k : cmd unit => m;; k) (mret tt)).
Definition for_rcpts (c : bool) (m : cmd unit) : cmd unit := m;; for_rcpts_from 1 c m.

(** The spool file is removed; [policytest] is told when [told]. *)
Definition drop_mail (told : bool) : cmd unit :=
  emit EvMailAbort;;
  n ← read rcpt_count;
  when told (policytest POLICY_DATAABORT [] n None;; mret tt).

(** The end of a refused DATA command. *)
Definition data_bad {A} (rc : Z) : cmd A :=
  mib IncomingSMTP_DATA_bad;; update (set_mfp None);; return_ rc.

(** DATA outside of its place in the transaction *)
Definition data_sequence (st : Command) : cmd unit :=
  let cp := match st with
            | Hello => Some ($$"Waiting for HELO command")
            | Mail | MailOrHello => Some ($$"Waiting for MAIL command")
            | Recipient => Some ($$"Waiting for RCPT command")
            | BData => Some ($$"Must not intermix BDAT and DATA in same transaction!")
            | _ => None
            end in
  mib IncomingSMTP_DATA_bad;;
  type 503 (Some m552) ($$"Hi " ++ rhostaddr ++ $$", " ++ str_or_null cp);;
  f ← read mfp;
  when (is_some f) (emit EvMailAbort;; update (set_mfp None));;
  n ← read rcpt_count;
  when (negb (n =? 0)) (policytest POLICY_DATAABORT [] n None;; mret tt);;
  update (set_rcpt_count 0);;
  return_ 0.

Definition empty_source_trap : list Z :=
  $$"SPAM trap -- too many recipients for an empty source address!".

(** The checks in front of the data; ferror() uses its argument. *)
Definition data_checks (cp : ptr) : cmd unit :=
  mib ReceivedMessagesSs;;
  ok ← read ok_rcpt_count;
  mib (ReceivedRecipientsSs ok);;
  mib IncomingSMTP_DATA;;
  let cp := skip_blanks_if (strict_protocol <? 1) cp in
  when ((0 <? strict_protocol) && negb (deref cp =? 0))
    (mib IncomingSMTP_DATA_bad;; type 501 (Some m554) ($$"Extra junk after 'DATA' verb");; return_ 0);;
  st ← read state;
  when (negb (cmd_eqb st RecipientOrData)) (data_sequence st);;
  f ← read mfp;
  when (negb (is_some f)) (exit Segv);;
  tr ← read trace;
  when (ext_ferror tr) (type_arg 452 (Some m430) None [];; drop_mail true;; data_bad 0);;
  sender ← read sender_ok;
  when (negb sender)
    (type 550 (Some ($$"5.1.7")) ($$"No valid sender, rejecting all recipients");;
     update (set_state MailOrHello);; drop_mail true;; data_bad 0);;
  n ← read rcpt_count;
  when (n =? 0)
    (type 550 (Some ($$"5.1.3")) ($$"No valid recipients at RCPT addresses, or no RCPT addresses at all");;
     update (set_state MailOrHello);; drop_mail false;; data_bad 0);;
  box ← read from_box;
  when (box && (n >? MaxErrorRecipients))
    (type 550 (Some ($$"5.7.1")) empty_source_trap;;
     update (set_state MailOrHello);; drop_mail true;; data_bad 0).

(** The end of the envelope in the spool file. *)
Definition end_envelope : cmd unit :=
  fputs ($$"env-end" ++ [10]);;
  user ← read authuser;
  if user is Some u then
    when msa_mode (fputs ($$"X-Comment: RFC 2476 MSA function at " ++ myhostname ++
      $$" logged sender identity as: " ++ u ++ [10]))
  else mret tt.

(** fstat() and taspoolid() on the spool file: its name and its size. *)
Definition spool_id : cmd (list Z * Z) :=
  tr ← read trace;
  f ← read mfp;
  let '(ino, mtime, ns) := ext_fstat tr in
  mret (if f is Some b then (taspoolid ino mtime ns, Z.of_nat (length b)) else ($$"<NIL>", 0)).

Definition measure_space : cmd unit :=
  tr ← read trace;
  if ext_statfs tr is Some bavail then update (set_availspace (avail_bytes bavail)) else mret tt.

(** The end of the input before the end of the message *)
Definition premature_eof (bad : mib_counter) (suffix : list Z) : cmd unit :=
  info ← read cfinfo;
  f ← read mfp;
  (if STYLE info $"D" then emit (EvMailAlternate ($$"public") suffix (default [] f))
   else drop_mail true);;
  mib bad;; update (set_mfp None);; return_ (-1).

Definition too_large : list Z :=
  $$"Size of this message exceeds the fixed maximum size of  " ++ dec maxsize ++
  $$"  chars for received email ".

(** *** Replies with the filter's text *)

Definition more_lines (code : Z) (st prefix : list Z) (ls : list (option (list Z))) : cmd unit :=
  foldr (fun l (k : cmd unit) => type (- code) (Some st) (prefix ++ str_or_null l);; k) (mret tt) ls.

Definition reject_reply (code : Z) (st ss taspid : list Z) (ls : list (option (list Z))) : cmd unit :=
  let long :=
    type (- code) (Some st) ($$"Content-Policy msg: " ++ ss ++ $$"; " ++ taspid);;
    more_lines code st ($$"msg: ") ls;;
    type code (Some st) ($$"Content-Policy analysis rejected this message") in
  (if bool_decide (ls = []) then
     type code (Some st) ($$"Content-Policy reject msg: " ++ ss ++ $$"; " ++ taspid)
   else long);;
  for_rcpts_from 1 true long.

Definition freezer_text (result : Z) (taspid : list Z) : list Z :=
  $$"Content-Policy accepted this message into freezer-" ++ dec result ++ $$"; " ++ taspid.

Definition freezer_reply (result code : Z) (st ss taspid : list Z) (ls : list (option (list Z))) : cmd unit :=
  (if bool_decide (ls = []) then
     type code (Some st) ($$"Content-Policy accept-into-freezer-" ++ dec result ++ $$" msg: " ++
       ss ++ $$"; " ++ taspid)
   else
     type (- code) (Some st) ($$"Content-Policy msg: " ++ ss ++ $$"; " ++ taspid);;
     more_lines code st ($$"msg: ") ls;;
     type code (Some st) (freezer_text result taspid));;
  for_rcpts_from 1 true
    (type (- code) (Some st) (ss ++ $$"; " ++ taspid);;
     more_lines code st [] ls;;
     type code (Some st) (freezer_text result taspid)).

Definition accept_reply (code : Z) (st ss taspid : list Z) (ls : list (option (list Z))) : cmd unit :=
  for_rcpts true
    (type (if bool_decide (ls = []) then code else - code) (Some st) (ss ++ $$"; " ++ taspid);;
     more_lines code st [] ls;;
     when (negb (bool_decide (ls = [])))
       (type code (Some st) ($$"Content-Policy accepted this message; " ++ taspid))).

Definition default_code (other code : Z) : Z := if code =? 0 then other else code.

Definition KBYTES (n : Z) : Z := Z.quot (n + 1023) 1024.

(** The message is complete: the filter, and what becomes of the file. *)
Definition data_dispose (b taspid : list Z) (tell : Z) : cmd unit :=
  emit (EvContentPolicy b);;
  tr ← read trace;
  let result := ext_contentpolicy tr b in
  update (set_policyresult result);;
  msg ← policymsg;
  let t := filter_message result msg in
  if result <? 0 then
    reject_reply (default_code 552 (ft_code t)) (default m571 (ft_status t)) (ft_ss t) taspid (ft_lines t);;
    drop_mail true;; mib IncomingSMTP_DATA_bad;; update (set_mfp None)
  else if 0 <? result then
    emit (EvMailAlternate ($$"freezer") ($$"policy-" ++ dec result) b);;
    tr ← read trace;
    (if negb (ext_mail_close_alternate tr) then
       for_rcpts true (type 452 (Some m430) ($$"Message file disposition failed; " ++ taspid))
     else
       smtp_tarpit;;
       freezer_reply result (default_code 250 (ft_code t)) (default ($$"2.7.1") (ft_status t))
         (ft_ss t) taspid (ft_lines t));;
    update (set_mfp None);; mib IncomingSMTP_DATA_bad
  else
    emit (EvMailClose b);;
    tr ← read trace;
    if negb (ext_mail_close tr) then
      for_rcpts true (type_arg 452 (Some m430) None []);;
      update (set_mfp None);; mib IncomingSMTP_DATA_bad
    else
      update (set_mfp None);;
      accept_reply (default_code 250 (ft_code t)) (default ($$"2.0.0") (ft_status t))
        (ft_ss t) taspid (ft_lines t);;
      n ← read rcpt_count;
      policytest POLICY_DATAOK [] n None;;
      mib IncomingSMTP_DATA_ok;;
      mib TransmittedMessagesSs;;
      ok ← read ok_rcpt_count;
      mib (TransmittedRecipientsSs ok);;
      size ← read messagesize;
      mib (IncomingSMTP_DATA_KBYTES (KBYTES size));;
      mib (IncomingSMTP_spool_KBYTES (KBYTES tell)).

(** Behind mvdata(), which has counted [filsiz] characters. *)
Definition data_finish (filsiz : Z) : cmd unit :=
  update (set_messagesize filsiz);;
  '(taspid, tell) ← spool_id;
  measure_space;;
  eof ← read s_status;
  when eof (premature_eof IncomingSMTP_DATA_bad ($$".DATA-EOF"));;
  tr ← read trace;
  avail ← read availspace;
  f ← read mfp;
  (if (avail <? 0) || ext_ferror tr then
     for_rcpts true (type_arg 452 (Some m430) None []);;
     drop_mail true;; mib IncomingSMTP_DATA_bad;; update (set_mfp None)
   else if (0 <? maxsize) && (filsiz >? maxsize) then
     drop_mail true;; mib IncomingSMTP_DATA_bad;; update (set_mfp None);;
     for_rcpts true (type 552 (Some ($$"5.3.4")) too_large)
   else data_dispose (default [] f) taspid tell);;
  update (set_state MailOrHello).

(** From the 354 reply on. *)
Definition data_transfer : cmd unit :=
  type_arg 354 None None [];;
  end_envelope;;
  filsiz ← mvdata;
  data_finish filsiz.

Definition data_body (cp : ptr) : cmd Z :=
  data_checks cp;; data_transfer;; mret 0.
Definition smtp_data (buf cp : ptr) : cmd Z := catch (data_body cp).

(** ** BDAT *)

(** [%7s]: the word, if there is one, and the text behind it. *)
Definition scan_word (s : list Z) : option (list Z * list Z) :=
  let s := drop (span isspace s) s in
  let n := Nat.min 7 (span (fun c => negb (isspace c)) s) in
  if (n =? 0)%nat then None else Some (take n s, drop n s).

(** [%ld]; a number too large is cut off at the ends of [long]. *)
Definition scan_long (s : list Z) : option (Z * list Z) :=
  let s := drop (span isspace s) s in
  let '(neg, s) := match s with
                   | c :: s' => if c =? $"-" then (true, s')
                                else if c =? $"+" then (false, s') else (false, s)
                   | [] => (false, [])
                   end in
  let n := span isdigit s in
  if (n =? 0)%nat then None
  else
    let v := fold_left (fun v c => v * 10 + (c - $"0")) (take n s) 0 in
    Some (if neg then Z.max (- v) (- LONG_MAX - 1) else Z.min v LONG_MAX, drop n s).

(** [sscanf(cp, "%ld %7s %7s", ...)]: the size and the keyword, when the
    arguments are one number and perhaps [LAST]. *)
Definition bdat_args (s : list Z) : option (Z * bool) :=
  match scan_long s with
  | None => None
  | Some (size, s) =>
      if size <? 0 then None
      else
        match scan_word s with
        | None => Some (size, false)
        | Some (w, s) =>
            if CISTREQ w ($$"LAST") then
              match scan_word s with None => Some (size, true) | Some _ => None end
            else None
        end
  end.

(** The end of a refused BDAT command. *)
Definition bdat_bad {A} : cmd A :=
  mib IncomingSMTP_BDAT_bad;; update (set_mfp None);; return_ 0.

Definition drop_if_open : cmd unit :=
  f ← read mfp;
  when (is_some f) (drop_mail true).

Definition bdat_sequence (st : Command) (bdata_last : bool) : cmd unit :=
  let cp := match st with
            | Hello => Some ($$"Waiting for HELO command")
            | Mail | MailOrHello => Some ($$"Waiting for MAIL command")
            | Recipient => Some ($$"Waiting for RCPT command")
            | _ => None
            end in
  for_rcpts bdata_last (type_arg 503 (Some m552) cp []);;
  drop_if_open;; bdat_bad.

(** The checks of the first block *)
Definition bdat_first (bdata_last : bool) : cmd unit :=
  sender ← read sender_ok;
  n ← read rcpt_count;
  when (negb sender || (n =? 0))
    (for_rcpts bdata_last (type 550 (Some ($$"5.1.3"))
       (if sender then $$"No valid recipient at RCPT addresses, or no RCPT addresses at all"
        else $$"No valid sender, rejecting all recipients"));;
     update (set_state MailOrHello);; drop_if_open;; bdat_bad);;
  box ← read from_box;
  when (box && (n >? MaxErrorRecipients))
    (for_rcpts bdata_last (type 550 (Some ($$"5.7.1")) empty_source_trap);;
     update (set_state MailOrHello);; drop_mail true;; bdat_bad);;
  update (set_rcpt_count 0);;
  update (set_sender_ok false).

(** The last block is in: the filter, and what becomes of the file. *)
Definition bdat_dispose (b taspid : list Z) (chunksize tell : Z) : cmd unit :=
  emit (EvContentPolicy b);;
  tr ← read trace;
  let result := ext_contentpolicy tr b in
  update (set_policyresult result);;
  msg ← policymsg;
  let t := filter_message result msg in
  if result <? 0 then
    reject_reply (default_code 552 (ft_code t)) (default m571 (ft_status t)) (ft_ss t) taspid (ft_lines t);;
    drop_mail true;; mib IncomingSMTP_BDAT_bad;; update (set_mfp None)
  else if 0 <? result then
    emit (EvMailAlternate ($$"freezer") ($$"policy") b);;
    tr ← read trace;
    (if negb (ext_mail_close_alternate tr) then
       let sorry := type 452 (Some m430) ($$"Message file disposition failed; " ++ taspid) in
       sorry;; for_rcpts_from 0 true sorry
     else
       smtp_tarpit;;
       freezer_reply result (default_code 250 (ft_code t)) (default ($$"2.7.1") (ft_status t))
         (ft_ss t) taspid (ft_lines t));;
    update (set_mfp None);; mib IncomingSMTP_BDAT_bad
  else
    emit (EvMailClose b);;
    tr ← read trace;
    if negb (ext_mail_close tr) then
      for_rcpts true (type_arg 452 (Some m400) None []);;
      update (set_mfp None);; mib IncomingSMTP_BDAT_bad
    else
      update (set_mfp None);;
      for_rcpts true (type 250 (Some ($$"2.0.0")) (taspid ++ $$" Roger, got " ++ dec chunksize ++
        $$" bytes in the last chunk, stored " ++ dec tell ++ $$" bytes into spool"));;
      n ← read rcpt_count;
      policytest POLICY_DATAOK [] n None;;
      mib IncomingSMTP_BDAT_ok;;
      mib TransmittedMessagesSs;;
      ok ← read ok_rcpt_count;
      mib (TransmittedRecipientsSs ok);;
      size ← read messagesize;
      mib (IncomingSMTP_BDAT_KBYTES (KBYTES size));;
      mib (IncomingSMTP_spool_KBYTES (KBYTES tell)).

(** What is done with a block that has been moved. *)
Definition bdat_finish (chunksize : Z) (bdata_last : bool) (taspid : list Z) (tell : Z) : cmd unit :=
  eof ← read s_status;
  avail ← read availspace;
  tr ← read trace;
  f ← read mfp;
  match f with
  | None =>
      for_rcpts bdata_last (type 452 (Some m430) ($$"BDAT block discarded due to earlier error"));;
      mib IncomingSMTP_BDAT_bad
  | Some b =>
      if eof : bool then premature_eof IncomingSMTP_BDAT_bad ($$".BDAT-EOF")
      else if (avail <? 0) || ext_ferror tr then
        for_rcpts bdata_last (type_arg 452 (Some m400) None []);;
        drop_mail true;; mib IncomingSMTP_BDAT_bad;; update (set_mfp None)
      else if (0 <? maxsize) && (tell >? maxsize) then
        drop_mail true;; mib IncomingSMTP_BDAT_bad;; update (set_mfp None);;
        for_rcpts bdata_last (type 552 (Some ($$"5.3.4")) too_large)
      else if bdata_last then bdat_dispose b taspid chunksize tell
      else type 250 (Some ($$"2.0.0")) ($$"Received " ++ dec chunksize ++ $$" bytes")
  end.

(** A block of the announced size. *)
Definition bdat_block (chunksize : Z) (bdata_last : bool) : cmd Z :=
  k ← read bdata_blocknum;
  f ← read mfp;
  when ((k =? 1) && is_some f) end_envelope;;
  filsiz ← mvbdata chunksize;
  update (fun ss => set_messagesize (messagesize ss + filsiz) ss);;
  '(taspid, tell) ← spool_id;
  st ← read state;
  when (negb (cmd_eqb st BData)) (bdat_sequence st bdata_last);;
  when (k =? 1) (bdat_first bdata_last);;
  f ← read mfp;
  when (negb (is_some f)) (exit Segv);;
  measure_space;;
  bdat_finish chunksize bdata_last taspid tell;;
  when bdata_last (update (set_state MailOrHello));;
  mret 0.

(** The first block turns the transaction into one of blocks. *)
Definition bdat_body (cp : ptr) : cmd Z :=
  mib ReceivedMessagesSs;;
  ok ← read ok_rcpt_count;
  mib (ReceivedRecipientsSs ok);;
  mib IncomingSMTP_BDAT;;
  st ← read state;
  when (cmd_eqb st RecipientOrData)
    (update (set_state BData);; update (set_bdata_blocknum 0);; update (set_mvbstate (-1)));;
  update (fun ss => set_bdata_blocknum (bdata_blocknum ss + 1) ss);;
  match bdat_args (str cp) with
  | None => type_arg 501 (Some m552) None [];; mib IncomingSMTP_BDAT_bad;; return_ 0
  | Some (chunksize, bdata_last) => bdat_block chunksize bdata_last
  end.
Definition smtp_bdata (buf cp : ptr) : cmd Z := catch (bdat_body cp).
End data.
