(* ===== verification/SmtpAuth.v ===== *)
(** * AUTH (smtpserver/smtpauth.c, zpwmatch-pipe.c)

    smtp_auth() with the LOGIN mechanism, as it is built without SASL and
    OpenSSL and run without debugging output.  The password is checked by
    zpwmatch(), which asks the system and is a parameter, or by the program
    that pipezpwmatch() starts. *)

From Stdlib Require Import ZArith Lia.
From stdpp Require Import base tactics numbers list option.
From S2P Require Import Prelude StrMatch Rfc821 Base64 SmtpState SmtpCmds SmtpLine.

#[local] Open Scope Z_scope.

Section auth.
Context {cf : Config} {env : Env}.

(** An attempt that failed: it is counted, and answered after a delay. *)
Definition auth_fail (uname : list Z) (code : Z) (status : option (list Z)) (text : list Z) : cmd unit :=
  user ← read authuser;
  policytest POLICY_AUTHFAIL uname 1 user;;
  smtp_tarpit;;
  type code status text.

(** In front of the mechanism *)
Definition auth_checks : cmd unit :=
  w ← read with_protocol_set;
  when (no_smtp_auth_on_25 && flag w WITH_SMTP)
    (smtp_tarpit;; smtp_tarpit;;
     type 503 (Some m551) ($$"Hi " ++ rhostaddr ++ $$", AUTH NOT SUPPORTED AT PORT 25!");; return_ 0);;
  user ← read authuser;
  rc ← policytest POLICY_AUTHFAIL [] 0 user;
  when (rc <? 0)
    (smtp_tarpit;;
     type 503 (Some m551) ($$"Hi " ++ rhostaddr ++
       $$", Too many authentication failures from your IP this hour..");; return_ 0);;
  st ← read state;
  when (cmd_eqb st Hello)
    (auth_fail [] 503 (Some m551) ($$"Hi " ++ rhostaddr ++ $$", EHLO first, then - perhaps - AUTH!");;
     return_ 0);;
  when (negb (cmd_eqb st MailOrHello) && negb (cmd_eqb st Mail))
    (auth_fail [] 503 (Some m551) ($$"Hi " ++ rhostaddr ++ $$", AUTH not allowed during MAIL transaction!");;
     return_ 0);;
  when (is_some user)
    (auth_fail [] 503 (Some m551) ($$"Hello " ++ rhostaddr ++
       $$", already authenticated, second attempt rejected!");; return_ 0).

(** Skip one blank, or all of them when the protocol is not strict. *)
Definition skip_one (cp : ptr) : ptr :=
  skip_blanks_if (strict_protocol <? 1) (skip_space cp).

(** The mechanism; the text behind it. *)
Definition auth_mechanism (cp : ptr) : cmd ptr :=
  let cp := skip_one cp in
  when (negb (CISTREQN (mem cp) ($$"LOGIN")))
    (auth_fail [] 504 (Some m571) ($$"Hello " ++ rhostaddr ++ $$", Only 'AUTH LOGIN' supported.");;
     return_ 0);;
  when (negb auth_login_without_tls)
    (auth_fail [] 503 (Some m571) ($$"Hello " ++ rhostaddr ++
       $$", Plaintext password authentication is not enabled in this system");; return_ 0);;
  mret (skip_one (cp [+] 5)).

(** The text in [bbuf] behind decodebase64string(), up to its NUL. *)
Definition decoded (out : list Z) : list Z := cstr (take (Z.to_nat (SMTPLINESIZE - 1)) out).

(** A prompt, and the answer of the client: how many characters were read,
    and [abuf]. *)
Definition auth_prompt (prompt : list Z) : cmd (Z * list Z) :=
  let text := take (Z.to_nat (SMTPLINESIZE - 1)) (encodebase64string prompt SMTPLINESIZE) in
  type 334 None text;;
  g ← get_line;
  mret (g_i g, <[Z.to_nat (SMTPLINESIZE - 1) := 0]> (g_buf g)).

(** The answer decoded, unless the client gave up. *)
Definition auth_answer (prompt : list Z) : cmd (list Z) :=
  '(i, abuf) ← auth_prompt prompt;
  when (i =? 0) (type 501 None ($$"Err... Seen EOF during AUTH ??");; return_ 0);;
  when (bool_decide (cstr abuf = [$"*"]))
    (auth_fail [] 501 None ($$"AUTH command cancelled");; return_ 0);;
  mret (decoded (decodebase64string abuf (Z.to_nat i) SMTPLINESIZE).1).

(** The user name, from the command line or asked for. *)
Definition auth_username (cp : ptr) : cmd (list Z) :=
  if negb (deref cp =? 0) then
    let '(out, ccp) := decodebase64string (mem cp) (length (str cp)) SMTPLINESIZE in
    when (negb (hd 0 ccp =? 0))
      (auth_fail [] 501 (Some m552) ($$"unrecognized input/extra junk ??");; return_ 0);;
    mret (decoded out)
  else auth_answer (default ($$"Username:") smtp_auth_username_prompt).

(** pipezpwmatch(): the result is that of the last program that ran. *)
Definition pipezpwmatch (uname password : list Z) : cmd (option (list Z)) :=
  tr ← read trace;
  (if ext_pwchild tr uname password is Some status
   then update (set_pipeauthchild_status status) else mret tt);;
  status ← read pipeauthchild_status;
  mret (if negb (status =? 0) then Some ($$"Authentication failed") else None).

Definition pwmatch (uname password : list Z) : cmd (option (list Z)) :=
  zpw ← (if smtpauth_via_pipe then pipezpwmatch uname password
         else tr ← read trace; mret (ext_zpwmatch tr uname password));
  emit (EvPassword uname password (negb (is_some zpw)));;
  mret zpw.

Definition auth_body (cp : ptr) : cmd Z :=
  auth_checks;;
  cp ← auth_mechanism cp;
  uname ← auth_username cp;
  password ← auth_answer (default ($$"Password:") smtp_auth_password_prompt);
  zpw ← pwmatch uname password;
  match zpw with
  | None =>
      update (set_authuser (Some uname));;
      type 235 None ($$"Authentication successful.");;
      update (fun ss => set_with_protocol_set (Z.lor (with_protocol_set ss) WITH_AUTH) ss);;
      mret 0
  | Some why => auth_fail uname 535 None why;; mret 0
  end.
Definition smtp_auth (buf cp : ptr) : cmd Z := catch (auth_body cp).
End auth.
