(* ===== verification/SmtpDot.v ===== *)
(** * The message on the wire and the message in the spool file

    What the table-driven machine of mvdata() in smtpserver/smtpdata.c
    implements: a message is a sequence of lines that ends with a line of a
    single dot; a CR in front of the LF is dropped, and so is a leading dot.
    The header processing around it, and the machine of mvbdata(). *)

From Stdlib Require Import ZArith Lia.
From stdpp Require Import base tactics numbers list option sets.
From S2P Require Import Prelude StrMatch Rfc821 SmtpState SmtpCmds SmtpLine SmtpData.

#[local] Open Scope Z_scope.

(** ** The transparency procedure (RFC 5321, 4.5.2) *)

Abbreviation LF := 10.
Abbreviation CR := 13.
Abbreviation DOT := 46.

Definition byte (c : Z) : Prop := 0 <= c < 256.

(** The line without the CR in front of its LF. *)
Abbreviation last := list.last.
Definition strip_cr (l : list Z) : list Z :=
  if bool_decide (last l = Some CR) then removelast l else l.
(** The line without the dot the client has put in front of it. *)
Definition unstuff (l : list Z) : list Z :=
  match l with c :: l' => if c =? DOT then l' else l | [] => [] end.
(** What the client does. *)
Definition stuff (l : list Z) : list Z :=
  match l with c :: _ => if c =? DOT then DOT :: l else l | [] => [] end.

(** [dotted inp ls rest]: the input starts with the lines [ls] of a message
    and its final dot, and [rest] is behind it. *)
Inductive dotted : list Z -> list (list Z) -> list Z -> Prop :=
| dotted_end l rest : LF ∉ l -> strip_cr l = [DOT] -> dotted (l ++ LF :: rest) [] rest
| dotted_line l inp ls rest :
    LF ∉ l -> strip_cr l <> [DOT] -> dotted inp ls rest ->
    dotted (l ++ LF :: inp) (unstuff (strip_cr l) :: ls) rest.

(** The text of a message in the spool file. *)
Definition unlines (ls : list (list Z)) : list Z := concat ((fun l => l ++ [LF]) <$> ls).

(** The message as a client sends it. *)
Definition wire (ls : list (list Z)) : list Z :=
  concat ((fun l => stuff l ++ [CR; LF]) <$> ls) ++ [DOT; CR; LF].

Lemma strip_cr_snoc l : strip_cr (l ++ [CR]) = l.
Proof. unfold strip_cr. rewrite last_snoc, bool_decide_true by done. apply removelast_last. Qed.

Lemma strip_cr_id l : last l <> Some CR -> strip_cr l = l.
Proof. intros H. unfold strip_cr. by rewrite bool_decide_false. Qed.

(** ** The machine *)

Lemma idxnum_other c : byte c -> c <> LF -> c <> CR -> c <> DOT -> idxnum c = 0.
Proof.
  intros Hb H1 H2 H3.
  pose proof (byte_cases (fun c => (c =? LF) || (c =? CR) || (c =? DOT) || (idxnum c =? 0)) eq_refl c Hb) as H.
  cbv beta in H. rewrite (proj2 (Z.eqb_neq c LF) H1), (proj2 (Z.eqb_neq c CR) H2), (proj2 (Z.eqb_neq c DOT) H3) in H.
  by apply Z.eqb_eq in H.
Qed.

(** The machine on a text in which the message does not end. *)
Fixpoint dot_prefix (st : Z) (w : list Z) : option (Z * list Z) :=
  match w with
  | [] => Some (st, [])
  | c :: w =>
      '(st, o) ← dot_step st c;
      '(st, os) ← dot_prefix st w;
      Some (st, o ++ os)
  end.

Lemma dot_prefix_snoc w c : forall st,
  dot_prefix st (w ++ [c]) =
  '(st, os) ← dot_prefix st w; '(st, o) ← dot_step st c; Some (st, os ++ o).
Proof.
  induction w as [|d w IH]; intros st; cbn.
  - destruct (dot_step st c) as [[st' o]|]; cbn; [|done]. by rewrite app_nil_r.
  - destruct (dot_step st d) as [[st' o]|]; cbn; [|done]. rewrite IH.
    destruct (dot_prefix st' w) as [[st2 os]|]; cbn; [|done].
    destruct (dot_step st2 c) as [[st3 o3]|]; cbn; [|done]. by rewrite app_assoc.
Qed.

(** What each state says about the part [l] of a line read and [out]. *)
Definition line_state (st : Z) (l out : list Z) : Prop :=
  (st = 10 /\ l = [] /\ out = []) \/
  (st = 5 /\ l = [DOT] /\ out = []) \/
  (st = 20 /\ l = [DOT; CR] /\ out = []) \/
  (st = 0 /\ out = unstuff l /\ l <> [] /\ l <> [DOT] /\ last l <> Some CR) \/
  (st = 15 /\ exists l', l = l' ++ [CR] /\ out = unstuff l' /\ l' <> [DOT]).

Lemma unstuff_snoc l c : l <> [] -> unstuff (l ++ [c]) = unstuff l ++ [c].
Proof. destruct l as [|d l]; [done|]. intros _. cbn. by destruct (d =? DOT). Qed.

(** A suspended CR and the character behind it. *)
Lemma unstuff_cr l c : unstuff ((l ++ [CR]) ++ [c]) = unstuff l ++ [CR; c].
Proof. rewrite <- app_assoc. destruct l as [|d l]; [done|]. cbn. by destruct (d =? DOT). Qed.

(** The state during a line. *)
Lemma line_state_during l c :
  c <> CR -> l <> [] \/ c <> DOT -> line_state 0 (l ++ [c]) (unstuff (l ++ [c])).
Proof.
  intros Hc Hl. do 3 right; left. split_and!; [done | done | by destruct l | | by rewrite last_snoc; intros [= ->]].
  intros E. destruct l as [|d [|]]; cbn in E; [|done..]. destruct Hl as [|Hl]; [done|]. by injection E.
Qed.

Lemma dot_step_other st c : byte c -> c <> LF -> c <> CR -> c <> DOT ->
  In st [0; 5; 10; 15; 20] ->
  dot_step st c = Some (0, if (st =? 15) || (st =? 20) then [CR; c] else [c]).
Proof.
  intros Hb H1 H2 H3 Hst. unfold dot_step. rewrite idxnum_other by done.
  by repeat (destruct Hst as [<-|Hst]; [reflexivity|]).
Qed.

Lemma line_state_step st l out c :
  byte c -> c <> LF -> line_state st l out ->
  exists st' o, dot_step st c = Some (st', o) /\ line_state st' (l ++ [c]) (out ++ o).
Proof.
  intros Hb Hlf H.
  destruct (decide (c = CR)) as [->|Hcr]; [|destruct (decide (c = DOT)) as [->|Hdot]].
  - destruct H as [(-> & -> & ->) | [(-> & -> & ->) | [(-> & -> & ->) | [(-> & -> & Hne & Hd & Hl) | (-> & l' & -> & -> & Hd)]]]];
      eexists _, _; (split; [reflexivity|]); cbn [app].
    + do 4 right. split; [done|]. by exists [].
    + by right; right; left.
    + do 4 right. split; [done|]. by exists [DOT; CR].
    + do 4 right. split; [done|]. exists l. by rewrite app_nil_r.
    + do 4 right. split; [done|]. exists (l' ++ [CR]). split_and!; [done | |].
      * destruct l' as [|d l']; [done|]. by rewrite unstuff_snoc.
      * intros [= E]. by apply (f_equal length) in E as ?; destruct l' as [|? [|]].
  - destruct H as [(-> & -> & ->) | [(-> & -> & ->) | [(-> & -> & ->) | [(-> & -> & Hne & Hd & Hl) | (-> & l' & -> & -> & Hd)]]]];
      eexists _, _; (split; [reflexivity|]); [by right; left | ..].
    + apply (line_state_during [DOT]); auto.
    + apply (line_state_during [DOT; CR]); auto.
    + rewrite <- unstuff_snoc by done. apply line_state_during; auto.
    + rewrite <- unstuff_cr. apply line_state_during; [done|]. left. by destruct l'.
  - assert (forall l, line_state 0 (l ++ [c]) (unstuff (l ++ [c]))) as Hd0 by auto using line_state_during.
    destruct H as [(-> & -> & ->) | [(-> & -> & ->) | [(-> & -> & ->) | [(-> & -> & Hne & Hd & Hl) | (-> & l' & -> & -> & Hd)]]]];
      eexists _, _; (split; [by apply dot_step_other; [done..|cbn; tauto]|]).
    + specialize (Hd0 []). cbn in Hd0. by rewrite (proj2 (Z.eqb_neq c DOT) Hdot) in Hd0.
    + apply (Hd0 [DOT]).
    + apply (Hd0 [DOT; CR]).
    + cbn [Z.eqb orb]. rewrite <- unstuff_snoc by done. apply Hd0.
    + cbn [Z.eqb orb Pos.eqb]. rewrite <- unstuff_cr. apply Hd0.
Qed.

Lemma dot_prefix_state l : Forall byte l -> LF ∉ l ->
  exists st out, dot_prefix START l = Some (st, out) /\ line_state st l out.
Proof.
  induction l as [|c l IH] using rev_ind; intros Hb Hlf.
  - exists START, []. split; [done|]. by left.
  - apply Forall_app in Hb as [Hb Hc]. rewrite not_elem_of_app in Hlf. destruct Hlf as [Hlf Hcl].
    destruct IH as (st & out & E & Hst); [done..|].
    destruct (line_state_step st l out c) as (st' & o & Es & Hst'); [by inversion Hc | set_solver | done |].
    exists st', (out ++ o). split; [|done]. by rewrite dot_prefix_snoc, E; cbn; rewrite Es.
Qed.

(** The machine at the end of a line. *)
Lemma dot_line l : Forall byte l -> LF ∉ l ->
  exists st out, dot_prefix START l = Some (st, out) /\
  ((strip_cr l = [DOT] /\ dot_step st LF = None) \/
   (strip_cr l <> [DOT] /\ dot_step st LF = Some (START, [LF]) /\ out = unstuff (strip_cr l))).
Proof.
  intros Hb Hlf. destruct (dot_prefix_state l Hb Hlf) as (st & out & E & H). exists st, out. split; [done|].
  destruct H as [(-> & -> & ->) | [(-> & -> & ->) | [(-> & -> & ->) | [(-> & -> & Hne & Hd & Hl) | (-> & l' & -> & -> & Hd)]]]].
  - by right.
  - by left.
  - by left.
  - right. rewrite strip_cr_id by done. done.
  - right. rewrite strip_cr_snoc. done.
Qed.

(** ** Running to the end of the message *)

(** What the machine prints, the input behind the message, and whether the
    message ended. *)
Fixpoint dot_run (st : Z) (inp : list Z) : list Z * list Z * bool :=
  match inp with
  | [] => ([], [], false)
  | c :: rest =>
      match dot_step st c with
      | None => ([], rest, true)
      | Some (st, o) => let '(out, r, e) := dot_run st rest in (o ++ out, r, e)
      end
  end.

Lemma dot_run_shorter st inp : (length (dot_run st inp).1.2 <= length inp)%nat.
Proof.
  revert st. induction inp as [|c inp IH]; intros st; cbn; [done|].
  destruct (dot_step st c) as [[st' o]|]; cbn; [|lia].
  specialize (IH st'). destruct (dot_run st' inp) as [[? ?] ?]. cbn in *. lia.
Qed.

Lemma dot_run_prefix w inp : forall st st' os,
  dot_prefix st w = Some (st', os) ->
  dot_run st (w ++ inp) = let '(out, r, e) := dot_run st' inp in (os ++ out, r, e).
Proof.
  induction w as [|c w IH]; intros st st' os E; cbn in *.
  - injection E as <- <-. by destruct (dot_run st inp) as [[? ?] ?].
  - destruct (dot_step st c) as [[st1 o]|]; cbn in E; [|done].
    destruct (dot_prefix st1 w) as [[st2 os2]|] eqn:Ep; cbn in E; [|done]. injection E as <- <-.
    rewrite (IH _ _ _ Ep). destruct (dot_run st2 inp) as [[? ?] ?]. by rewrite app_assoc.
Qed.

Lemma dot_run_line l inp : Forall byte l -> LF ∉ l ->
  dot_run START (l ++ LF :: inp) =
  if decide (strip_cr l = [DOT]) then ((dot_run START (l ++ [LF])).1.1, inp, true)
  else let '(out, r, e) := dot_run START inp in (unstuff (strip_cr l) ++ [LF] ++ out, r, e).
Proof.
  intros Hb Hlf. destruct (dot_line l Hb Hlf) as (st & out & E & H).
  rewrite !(dot_run_prefix _ _ _ _ _ E). cbn [dot_run].
  destruct H as [(Hd & ->) | (Hd & -> & ->)]; case_decide; [|done|done|].
  - done.
  - destruct (dot_run START inp) as [[? ?] ?]. done.
Qed.

(** The final dot itself prints nothing. *)
Lemma dot_run_final l inp : Forall byte l -> LF ∉ l -> strip_cr l = [DOT] ->
  dot_run START (l ++ LF :: inp) = ([], inp, true).
Proof.
  intros Hb Hlf Hs. assert (l = [DOT] \/ l = [DOT; CR]) as [-> | ->]; [|reflexivity..].
  unfold strip_cr in Hs. case_bool_decide as Hl; [|by left].
  apply last_Some in Hl as [l' ->]. rewrite removelast_last in Hs. subst l'. by right.
Qed.

Lemma dotted_run inp ls rest :
  Forall byte inp -> dotted inp ls rest -> dot_run START inp = (unlines ls, rest, true).
Proof.
  intros Hb Hd. induction Hd as [l rest Hlf Hs | l inp ls rest Hlf Hs _ IH].
  - apply Forall_app in Hb as [Hb _]. by apply dot_run_final.
  - apply Forall_app in Hb as [Hb Hi]. apply Forall_cons in Hi as [_ Hi].
    rewrite dot_run_line by done. rewrite decide_False by done. rewrite IH by done.
    unfold unlines. cbn. by rewrite <- app_assoc.
Qed.

(** Every input is a line and more, or has no line end. *)
Lemma split_line (inp : list Z) : LF ∉ inp \/ exists l rest, inp = l ++ LF :: rest /\ LF ∉ l.
Proof.
  induction inp as [|c inp IH]; [left; set_solver|].
  destruct (decide (c = LF)) as [->|Hc]; [right; exists [], inp; set_solver|].
  destruct IH as [IH | (l & rest & -> & Hl)]; [left; set_solver|].
  right. exists (c :: l), rest. split; [done | set_solver].
Qed.

Lemma dot_run_dotted n : forall inp out rest, (length inp < n)%nat -> Forall byte inp ->
  dot_run START inp = (out, rest, true) -> exists ls, dotted inp ls rest.
Proof.
  induction n as [|n IH]; intros inp out rest Hn Hb E; [lia|].
  destruct (split_line inp) as [Hlf | (l & r & -> & Hlf)].
  - destruct (dot_prefix_state inp Hb Hlf) as (st & os & Ep & _).
    pose proof (dot_run_prefix inp [] _ _ _ Ep) as H. rewrite app_nil_r, E in H. by injection H.
  - apply Forall_app in Hb as [Hb Hi]. apply Forall_cons in Hi as [_ Hi].
    rewrite dot_run_line in E by done. case_decide as Hs.
    + injection E as _ <-. exists []. by constructor.
    + destruct (dot_run START r) as [[o2 r2] e2] eqn:E2. injection E as _ -> ->.
      destruct (IH r o2 rest) as [ls Hls]; [rewrite length_app in Hn; cbn in Hn; lia | done | done |].
      exists (unstuff (strip_cr l) :: ls). by constructor.
Qed.

(** The client's encoding is decoded. *)
Lemma strip_cr_stuff l : strip_cr (stuff l ++ [CR]) = stuff l.
Proof. apply strip_cr_snoc. Qed.

Lemma unstuff_stuff l : unstuff (stuff l) = l.
Proof. destruct l as [|c l]; [done|]. cbn. by destruct (c =? DOT) eqn:E; cbn; rewrite ?E. Qed.

Lemma stuff_not_dot l : stuff l <> [DOT].
Proof. destruct l as [|c l]; [done|]. cbn. destruct (c =? DOT) eqn:E; [done|]. by intros [= -> _]. Qed.

Lemma wire_dotted ls rest :
  Forall (fun l => LF ∉ l) ls -> dotted (wire ls ++ rest) ls rest.
Proof.
  intros H. unfold wire. rewrite <- app_assoc. induction H as [|l ls Hl _ IH]; cbn [fmap list_fmap concat].
  - apply (dotted_end [DOT; CR]); [set_solver | done].
  - rewrite <- !app_assoc. change ([CR; LF] ++ ?x) with ([CR] ++ LF :: x). rewrite app_assoc.
    rewrite <- (unstuff_stuff l) at 2. rewrite <- (strip_cr_stuff l) at 2. constructor; [| |done].
    + destruct l as [|c l]; cbn; [set_solver|]. destruct (c =? DOT); set_solver.
    + rewrite strip_cr_stuff. apply stuff_not_dot.
Qed.

(** ** The body loop *)

Lemma mvbody_run ferror inp : forall st cnt out,
  mvbody ferror st cnt out inp =
  let '(o, r, e) := dot_run st inp in
  Moved (cnt + Z.of_nat (length inp - length r) + (if e then 0 else 1))
    (if ferror then out else out ++ o) r (negb e).
Proof.
  induction inp as [|c inp IH]; intros st cnt out; cbn [mvbody dot_run].
  - cbn. rewrite app_nil_r. destruct ferror; f_equal; lia.
  - destruct (dot_step st c) as [[st' o]|].
    + rewrite IH. pose proof (dot_run_shorter st' inp) as Hl. destruct (dot_run st' inp) as [[o' r] e].
      cbn [fst snd length] in *. destruct ferror; f_equal; rewrite <- ?app_assoc; try done; destruct e; lia.
    + cbn [length negb]. rewrite app_nil_r. destruct ferror; f_equal; lia.
Qed.

(** ** The header loop *)

(** The header loop on a part of a line that does not end it. *)
Lemma mvheader_prefix w inp : forall h cnt st os,
  LF ∉ w -> dot_prefix (h_state h) w = Some (st, os) ->
  exists b, mvheader h cnt (w ++ inp) =
    mvheader (Header st (put_line os (linebuf h)) b (linecnt h) (h_out h) (h_policyresult h) (h_priority h))
      (cnt + Z.of_nat (length w)) inp.
Proof.
  induction w as [|c w IH]; intros h cnt st os Hlf E; cbn in E.
  - injection E as <- <-. exists (has8bit h). cbn. rewrite Z.add_0_r. by destruct h.
  - apply not_elem_of_cons in Hlf as [Hc Hlf].
    destruct (dot_step (h_state h) c) as [[st1 o]|] eqn:Es; cbn in E; [|done].
    destruct (dot_prefix st1 w) as [[st2 os2]|] eqn:Ep; cbn in E; [|done]. injection E as <- <-.
    cbn [app mvheader]. rewrite Es. replace (c =? LF) with false by lia. cbn [negb].
    destruct o as [|o1 o].
    + edestruct (IH (Header st1 (linebuf h) (has8bit h) (linecnt h) (h_out h) (h_policyresult h) (h_priority h)))
        as [b ->]; [done | exact Ep |]. exists b. cbn. f_equal; lia.
    + edestruct (IH (Header st1 (put_line (o1 :: o) (linebuf h)) (has8bit h || negb (Z.land 0x80 c =? 0))
        (linecnt h) (h_out h) (h_policyresult h) (h_priority h))) as [b ->]; [done | exact Ep |].
      exists b. cbn [linebuf linecnt h_out h_policyresult h_priority length].
      unfold put_line at 1 3. rewrite fold_left_app. f_equal; lia.
Qed.

(** A line of the header that is stored completely. *)
Definition fits (l : list Z) : Prop := Z.of_nat (length l) < SIZEOF_LINEBUF - 1.

Lemma put_line_fits o buf :
  Z.of_nat (length buf + length o) <= SIZEOF_LINEBUF - 1 -> put_line o buf = buf ++ o.
Proof.
  revert buf. induction o as [|c o IH]; intros buf H; cbn; [by rewrite app_nil_r|].
  cbn in H. rewrite (proj2 (Z.ltb_lt _ _)) by lia. change (fold_left _ o ?b) with (put_line o b).
  rewrite IH by (rewrite length_app; cbn; lia). by rewrite <- app_assoc.
Qed.

Lemma mvheader_line l inp h cnt :
  Forall byte l -> LF ∉ l -> h_state h = START -> linebuf h = [] ->
  strip_cr l <> [DOT] -> fits (unstuff (strip_cr l)) ->
  exists b, mvheader h cnt (l ++ LF :: inp) =
    match header_line (Header START (unstuff (strip_cr l) ++ [LF]) b (linecnt h) (h_out h)
                         (h_policyresult h) (h_priority h)) with
    | inl h => mvheader h (cnt + Z.of_nat (length l) + 1) inp
    | inr h => (cnt + Z.of_nat (length l) + 1, h, inp, Header_body)
    end.
Proof.
  intros Hb Hlf Hst Hbuf Hs Hfit. destruct (dot_line l Hb Hlf) as (st & out & E & H).
  destruct H as [[H _] | (_ & Es & ->)]; [done|]. rewrite <- Hst in E.
  destruct (mvheader_prefix l (LF :: inp) h cnt st _ Hlf E) as [b ->]. cbn [mvheader h_state]. rewrite Es.
  cbn [linebuf has8bit linecnt h_out h_policyresult h_priority]. rewrite Hbuf.
  rewrite (put_line_fits (unstuff _)) by (cbn [length]; unfold fits in Hfit; lia). cbn [app].
  rewrite put_line_fits by (unfold fits in Hfit; cbn [length]; lia). cbn [Z.eqb Pos.eqb negb].
  by eexists.
Qed.

Lemma mvheader_final l inp h cnt :
  Forall byte l -> LF ∉ l -> h_state h = START -> strip_cr l = [DOT] -> linebuf h = [] ->
  exists h', mvheader h cnt (l ++ LF :: inp) = (cnt + Z.of_nat (length l) + 1, h', inp, Header_done) /\
    h_out h' = h_out h.
Proof.
  intros Hb Hlf Hst Hs Hbuf. assert (l = [DOT] \/ l = [DOT; CR]) as Hl.
  { unfold strip_cr in Hs. case_bool_decide as Hl; [|by left].
    apply last_Some in Hl as [l' ->]. rewrite removelast_last in Hs. subst l'. by right. }
  destruct h as [st buf b n out pr prio]. cbn in Hst, Hbuf. subst st buf.
  exists (mvheader (Header START [] b n out pr prio) cnt (l ++ LF :: inp)).1.1.2.
  destruct Hl as [-> | ->]; (split; [|by cbn; destruct b; rewrite app_nil_r]).
  - change (Z.of_nat (length [DOT])) with 1. done.
  - change (Z.of_nat (length [DOT; CR])) with 2. cbn. do 3 f_equal. lia.
Qed.

Lemma header_line_state h : match header_line h with inl h' | inr h' => h_state h' = h_state h end.
Proof.
  unfold header_line. destruct (forallb _ _); [done|]. destruct (is_blank _); [done|].
  destruct (precedence _ _) as [prio []]; [done|]. by destruct (_ && _).
Qed.

(** The header loop reads what the machine reads. *)
Lemma mvheader_reads inp : forall h cnt,
  let '(cnt', h', r, how) := mvheader h cnt inp in
  (length r <= length inp)%nat /\
  match how with
  | Header_eof => exists o, dot_run (h_state h) inp = (o, [], false) /\ r = []
  | Header_done => exists o, dot_run (h_state h) inp = (o, r, true) /\
      cnt' = cnt + Z.of_nat (length inp - length r)
  | Header_body => exists o, dot_run (h_state h) inp =
        (let '(o', r', e) := dot_run (h_state h') r in (o ++ o', r', e)) /\
      cnt' = cnt + Z.of_nat (length inp - length r)
  end.
Proof.
  induction inp as [|c inp IH]; intros h cnt; cbn [mvheader dot_run].
  { split; [done|]. by exists []. }
  destruct (dot_step (h_state h) c) as [[st o]|] eqn:Es.
  2: { split; [cbn; lia|]. exists []. split; [done|]. cbn. lia. }
  assert (forall h', h_state h' = st ->
    let '(cnt', h'', r, how) := mvheader h' (cnt + 1) inp in
    (length r <= length (c :: inp))%nat /\
    match how with
    | Header_eof => exists o', (let '(out, r, e) := dot_run st inp in (o ++ out, r, e)) = (o', [], false) /\ r = []
    | Header_done => exists o', (let '(out, r, e) := dot_run st inp in (o ++ out, r, e)) = (o', r, true) /\
        cnt' = cnt + Z.of_nat (length (c :: inp) - length r)
    | Header_body => exists o', (let '(out, r, e) := dot_run st inp in (o ++ out, r, e)) =
          (let '(o2, r', e) := dot_run (h_state h'') r in (o' ++ o2, r', e)) /\
        cnt' = cnt + Z.of_nat (length (c :: inp) - length r)
    end) as Hgo.
  { intros h' Hst. specialize (IH h' (cnt + 1)). rewrite Hst in IH.
    destruct (mvheader h' (cnt + 1) inp) as [[[cnt' h''] r] how]. destruct IH as [Hl IH].
    split; [cbn; lia|]. destruct how; destruct IH as (o' & E & Hr).
    - rewrite E. eauto.
    - rewrite E. exists (o ++ o'). split; [done|]. rewrite Hr. cbn. lia.
    - exists (o ++ o'). rewrite E. destruct (dot_run (h_state h'') r) as [[o2 r2] e2].
      split; [by rewrite app_assoc|]. rewrite Hr. cbn. lia. }
  destruct o as [|o1 o]; [by apply Hgo|]. cbv zeta. destruct (negb _); [by apply Hgo|].
  set (h1 := Header st _ _ _ _ _ _). pose proof (header_line_state h1) as Hh.
  destruct (header_line h1) as [h'|h']; [by apply Hgo|]. split; [cbn; lia|].
  cbn [h_state h1] in Hh. rewrite Hh. exists (o1 :: o). split; [done|]. cbn. lia.
Qed.

(** mvdata() reads what the machine reads, and counts it. *)
Lemma mvdata_reads ferror pr inp :
  let m := (mvdata_run ferror pr inp).1.1 in
  let '(o, r, e) := dot_run START inp in
  mv_rest m = r /\ mv_eof m = negb e /\
  (e = true -> mv_cnt m = Z.of_nat (length inp - length r)).
Proof.
  unfold mvdata_run. pose proof (mvheader_reads inp (header_start pr) 0) as H.
  destruct (mvheader _ _ _) as [[[cnt h] r] how]. cbn [h_state header_start] in H. destruct H as [Hl H].
  destruct how; destruct H as (o & -> & Hr); cbn.
  - by rewrite Hr.
  - split_and!; [done | done |]. intros _. lia.
  - rewrite mvbody_run. pose proof (dot_run_shorter (h_state h) r) as Hs.
    destruct (dot_run (h_state h) r) as [[o2 r2] e2]. cbn in *. split_and!; [done | done |]. intros ->. lia.
Qed.

(** ** Messages whose header is kept as it is *)

(** [Precedence:] with a value of fewer than four characters, the line end
    included *)
Definition short_precedence (l : list Z) : bool := (precedence (l ++ [LF]) 0).2.
Definition from_line_start (l : list Z) : bool :=
  starts_with ($$"From ") (l ++ [LF]) || starts_with ($$">From ") (l ++ [LF]).
Definition blank_line (l : list Z) : bool := forallb is_white (l ++ [LF]).

(** The lines up to the first blank one, the first being number [n]. *)
Fixpoint plain_header (n : Z) (ls : list (list Z)) : Prop :=
  match ls with
  | [] => True
  | l :: ls =>
      fits l /\
      if blank_line l then True
      else short_precedence l = false /\ (n = 0 -> from_line_start l = false) /\ plain_header (n + 1) ls
  end.

Lemma precedence_short l p q : (precedence l p).2 = (precedence l q).2.
Proof. unfold precedence. cbv zeta. destruct (CISTREQN l _); [|done]. by repeat case_match. Qed.

Lemma header_line_plain l b n out pr prio :
  0 <= n -> short_precedence l = false -> (n = 0 -> from_line_start l = false) ->
  match header_line (Header START (l ++ [LF]) b n out pr prio) with
  | inl h => blank_line l = false /\ linebuf h = [] /\ linecnt h = n + 1 /\ h_out h = out ++ l ++ [LF] /\ h_state h = START
  | inr h => blank_line l = true /\ h_out h = out ++ l ++ [LF] /\ h_state h = START
  end.
Proof.
  intros Hn Hp Hf. unfold header_line, header_to_mime. cbn [linebuf has8bit linecnt h_out h_policyresult h_priority h_state].
  fold (blank_line l). replace (if b then l ++ [LF] else l ++ [LF]) with (l ++ [LF]) by by destruct b.
  destruct (blank_line l); [done|]. destruct (is_blank _); [done|].
  unfold short_precedence in Hp. rewrite (precedence_short _ _ prio) in Hp.
  destruct (precedence _ prio) as [p short]. cbn in Hp. subst short.
  fold (from_line_start l). destruct (n + 1 =? 1) eqn:E; [|done]. rewrite Hf by lia. done.
Qed.

Lemma mvheader_plain inp ls rest : dotted inp ls rest -> forall h cnt,
  Forall byte inp -> h_state h = START -> linebuf h = [] -> 0 <= linecnt h -> plain_header (linecnt h) ls ->
  let '(cnt', h', r, how) := mvheader h cnt inp in
  match how with
  | Header_eof => False
  | Header_done => h_out h' = h_out h ++ unlines ls
  | Header_body => exists ls1 ls2, ls = ls1 ++ ls2 /\ h_out h' = h_out h ++ unlines ls1 /\
      dotted r ls2 rest /\ h_state h' = START /\ Forall byte r
  end.
Proof.
  induction 1 as [l rest Hlf Hs | l inp ls rest Hlf Hs Hd IH]; intros h cnt Hb Hst Hbuf Hn Hp;
    apply Forall_app in Hb as [Hb Hi]; apply Forall_cons in Hi as [_ Hi].
  - destruct (mvheader_final l rest h cnt) as (h' & -> & Ho); [done..|]. rewrite Ho. by rewrite app_nil_r.
  - destruct Hp as [Hfit Hp]. destruct (mvheader_line l inp h cnt) as [b ->]; [done..|].
    set (l' := unstuff (strip_cr l)) in *. destruct (blank_line l') eqn:Eb.
    + unfold header_line. cbn [linebuf has8bit linecnt h_out h_policyresult h_priority h_state].
      fold (blank_line l'). rewrite Eb. exists [l'], ls. split_and!; [done | | done | done | done].
      cbn. by rewrite app_nil_r.
    + destruct Hp as (Hp & Hf & Hls).
      pose proof (header_line_plain l' b (linecnt h) (h_out h) (h_policyresult h) (h_priority h) Hn Hp Hf) as H.
      destruct (header_line _) as [h1|h1]; [|by destruct H as [H _]; rewrite Eb in H].
      destruct H as (_ & Hbuf1 & Hn1 & Ho1 & Hst1).
      specialize (IH h1 (cnt + Z.of_nat (length l) + 1) Hi Hst1 Hbuf1).
      rewrite Hn1 in IH. specialize (IH ltac:(lia) Hls).
      destruct (mvheader h1 _ inp) as [[[cnt' h'] r] []]; [done | |].
      * rewrite IH, Ho1. unfold unlines. cbn. by rewrite <- !app_assoc.
      * destruct IH as (ls1 & ls2 & -> & Ho & ? & ? & ?). exists (l' :: ls1), ls2. split_and!; [done | | done..].
        rewrite Ho, Ho1. unfold unlines. cbn. by rewrite <- !app_assoc.
Qed.

Lemma unlines_app a b : unlines (a ++ b) = unlines a ++ unlines b.
Proof. unfold unlines. by rewrite fmap_app, concat_app. Qed.

(** The whole message arrives in the spool file. *)
Lemma mvdata_plain pr inp ls rest :
  Forall byte inp -> dotted inp ls rest -> plain_header 0 ls ->
  mv_out (mvdata_run false pr inp).1.1 = unlines ls.
Proof.
  intros Hb Hd Hp. unfold mvdata_run.
  pose proof (mvheader_plain inp ls rest Hd (header_start pr) 0 Hb eq_refl eq_refl ltac:(done) Hp) as H.
  destruct (mvheader _ _ _) as [[[cnt h] r] []]; [done | done |].
  destruct H as (ls1 & ls2 & -> & Ho & Hd2 & Hst & Hb2). rewrite Hst. cbn [fst]. rewrite mvbody_run.
  rewrite (dotted_run _ _ _ Hb2 Hd2). cbn [mv_out]. rewrite Ho. cbn. by rewrite unlines_app.
Qed.

Lemma wire_bytes ls : Forall (Forall byte) ls -> Forall byte (wire ls).
Proof.
  intros H. unfold wire. apply Forall_app. split; [|by repeat constructor].
  induction H as [|l ls Hl _ IH]; cbn; [constructor|]. rewrite !Forall_app. split_and!; [|by repeat constructor|done].
  destruct l as [|c l]; [done|]. cbn. destruct (c =? DOT); [|done]. by constructor.
Qed.

(** An encoded message is moved as it was meant. *)
Lemma mvdata_wire pr ls rest :
  Forall (Forall byte) ls -> Forall byte rest -> Forall (fun l => LF ∉ l) ls -> plain_header 0 ls ->
  let m := (mvdata_run false pr (wire ls ++ rest)).1.1 in
  mv_out m = unlines ls /\ mv_rest m = rest /\ mv_eof m = false /\
  mv_cnt m = Z.of_nat (length (wire ls)).
Proof.
  intros Hb Hr Hlf Hp m. pose proof (wire_dotted ls rest Hlf) as Hd.
  assert (Forall byte (wire ls ++ rest)) as Hw by (apply Forall_app; split; [by apply wire_bytes | done]).
  pose proof (mvdata_reads false pr (wire ls ++ rest)) as H. cbv zeta in H. fold m in H.
  rewrite (dotted_run _ _ _ Hw Hd) in H. destruct H as (E1 & E2 & E3).
  split_and!; [by eapply mvdata_plain | done | done |].
  rewrite E3 by done. rewrite length_app. lia.
Qed.

(** ** The machine of mvbdata() *)

(** What a block prints behind the character [mvb]. *)
Fixpoint canon (mvb : Z) (data : list Z) : list Z :=
  match data with
  | [] => []
  | c :: data =>
      (if c =? CR then []
       else if mvb =? CR then if negb (c =? LF) then [mvb; c] else [c]
       else [c]) ++ canon c data
  end.

Lemma last_cons (c x : Z) l : List.last (c :: l) x = List.last l c.
Proof. revert c x. induction l as [|d l IH]; intros c x; [done|]. exact (eq_trans (IH d x) (eq_sym (IH d c))). Qed.

Lemma mvbblock_run data rest : forall mvb cnt out,
  mvbblock (Z.of_nat (length data)) mvb cnt out (data ++ rest) =
  (Moved (cnt + Z.of_nat (length data)) (out ++ canon mvb data) rest false, List.last data mvb).
Proof.
  induction data as [|c data IH]; intros mvb cnt out.
  - cbn [length app canon]. rewrite app_nil_r, Z.add_0_r. by destruct rest.
  - cbn [app mvbblock]. rewrite (proj2 (Z.leb_gt _ _)) by (cbn; lia).
    replace (Z.of_nat (length (c :: data)) - 1) with (Z.of_nat (length data)) by (cbn; lia).
    rewrite IH, last_cons. cbn [canon]. rewrite <- app_assoc. f_equal. f_equal. cbn. lia.
Qed.

(** Blocks may be cut anywhere, also between CR and LF. *)
Lemma canon_app a b : forall mvb, canon mvb (a ++ b) = canon mvb a ++ canon (List.last a mvb) b.
Proof.
  induction a as [|c a IH]; intros mvb; [done|]. cbn [app canon]. by rewrite IH, <- app_assoc, last_cons.
Qed.

(** The text of the lines [ls] on the wire. *)
Definition crlf (ls : list (list Z)) : list Z := concat ((fun l => l ++ [CR; LF]) <$> ls).

Lemma canon_plain l mvb : mvb <> CR -> CR ∉ l -> canon mvb l = l /\ List.last l mvb <> CR.
Proof.
  revert mvb. induction l as [|c l IH]; intros mvb Hm Hl; [done|].
  apply not_elem_of_cons in Hl as [Hc Hl]. destruct (IH c ltac:(done) Hl) as [E Hlast].
  cbn [canon]. rewrite E. replace (c =? CR) with false by lia. replace (mvb =? CR) with false by lia.
  split; [done|]. by rewrite last_cons.
Qed.

Lemma canon_crlf ls : Forall (fun l => CR ∉ l) ls -> forall mvb, mvb <> CR ->
  canon mvb (crlf ls) = unlines ls.
Proof.
  induction 1 as [|l ls Hl _ IH]; intros mvb Hm; [done|].
  unfold crlf, unlines. cbn. rewrite <- !app_assoc. rewrite canon_app.
  destruct (canon_plain l mvb Hm Hl) as [-> Hlast]. f_equal. cbn. f_equal. by apply IH.
Qed.
