(* ===== verification/SmtpSpec.v ===== *)
(** * Specifications of the building blocks of the SMTP commands

    Triples for the output routines, the router client and the scanners as
    the handlers of SmtpCmds.v call them.  A block is [guarded] when it
    either goes on without a final reply, or returns -1 after exactly one,
    and does not touch the mail transaction in either case. *)

From Stdlib Require Import ZArith Lia.
From stdpp Require Import base tactics numbers list option.
From S2P Require Import Prelude StrMatch Rfc821 Rfc821Grammar Rfc821Complete SmtpState SmtpCmds.
Import Grammar.

#[local] Open Scope Z_scope.

(** ** Replies in a trace *)

Definition is_final (e : event) : bool := if e is EvReply code _ then 0 <? code else false.
Definition finals (tr : list event) : nat := length (filter is_final tr).
#[global] Arguments finals : simpl never.

Lemma finals_cons e tr : finals (e :: tr) = ((if is_final e then 1 else 0) + finals tr)%nat.
Proof. unfold finals. rewrite filter_cons. destruct (is_final e); done. Qed.

(** ** What the interactive router promises *)

(** The line fdgets() delivers, without its newline. *)
Definition chomp (l : list Z) : list Z := if List.last l 0 =? 10 then List.removelast l else l.

(** A reply line with a code. *)
Definition sane_line (l : list Z) : Prop := 100 <= atoi (cstr (chomp l)).
Definition sane_pbuf (st : rtr_state) : Prop := forall p, pbuf st = Some p -> 100 <= atoi p.
Definition sane (ss : SmtpState) : Prop := forall st, irouter_state ss = Some st -> sane_pbuf st.

(** The connection can be set up, its pipe takes the question, and each
    line but the prompt starts with a reply code. *)
Class SaneRouter {env : Env} := {
  router_available tr : ext_router_init tr <> Init_unavailable;
  router_writable tr : ext_router_write_error tr = false;
  router_lines tr l : In (Line l) (ext_router_lines tr) ->
    cstr (chomp l) <> $$"#hungry" -> sane_line l
}.

Abbreviation anything := (fun _ => True).

(** ** The session invariant *)

(** In a transaction the spool file is open and the sender is known. *)
Definition in_transaction (c : Command) : bool :=
  cmd_eqb c Recipient || cmd_eqb c RecipientOrData.
Definition session_inv (ss : SmtpState) : Prop :=
  in_transaction (state ss) = true -> is_some (mfp ss) = true /\ is_some (smtpfrom ss) = true.

(** ** Guarded blocks *)

(** The mail transaction, and the count of its recipients. *)
Definition same_transaction (ss ss' : SmtpState) : Prop :=
  mfp ss' = mfp ss /\ state ss' = state ss /\ smtpfrom ss' = smtpfrom ss /\
  cfinfo ss' = cfinfo ss /\ authuser ss' = authuser ss.
Definition same_mail (ss ss' : SmtpState) : Prop :=
  same_transaction ss ss' /\ ok_rcpt_count ss' = ok_rcpt_count ss.

#[export] Instance same_transaction_preorder : PreOrder same_transaction.
Proof.
  split; [by intros ?|]. intros ? ? ? (?&?&?&?&?) (?&?&?&?&?). unfold same_transaction.
  split_and!; etransitivity; eauto.
Qed.

#[export] Instance same_mail_preorder : PreOrder same_mail.
Proof.
  split; [by intros ?|]. intros ? ? ? [? ?] [? ?]. split; [by etransitivity | congruence].
Qed.

Definition replies (n : nat) (ss ss' : SmtpState) : Prop :=
  finals (trace ss') = (n + finals (trace ss))%nat.

Definition left_guard (ss : SmtpState) (r : stop) (ss' : SmtpState) : Prop :=
  r = Return (-1) /\ same_mail ss ss' /\ replies 1 ss ss' /\ sane ss'.
Definition passed_guard {A} (Q : A -> Prop) (ss : SmtpState) (a : A) (ss' : SmtpState) : Prop :=
  same_mail ss ss' /\ replies 0 ss ss' /\ sane ss' /\ Q a.

Definition guarded {A} (m : cmd A) (Q : A -> Prop) : Prop :=
  forall ss, sane ss -> wpx m (left_guard ss) (passed_guard Q ss) ss.

(** The block does not leave at all. *)
Definition silent {A} (m : cmd A) (Q : A -> Prop) : Prop :=
  forall ss, sane ss -> wpx m (fun _ _ => False) (passed_guard Q ss) ss.

Lemma silent_guarded {A} (m : cmd A) Q : silent m Q -> guarded m Q.
Proof. intros H ss Hs. eapply wpx_mono; [by apply H|done|done]. Qed.

Lemma silent_bind {A B} (m : cmd A) (k : A -> cmd B) P Q :
  silent m P -> (forall a, P a -> silent (k a) Q) -> silent (m ≫= k) Q.
Proof.
  intros Hm Hk ss Hs. apply wpx_bind. eapply wpx_mono; [by apply Hm|done|].
  cbv beta. intros a ss1 (Hc & Hr & Hs1 & HP). eapply wpx_mono; [by apply Hk|done|].
  cbv beta. intros b ss2 (Hc2 & Hr2 & Hs2 & HQ). unfold passed_guard, replies in *.
  split_and!; [by etransitivity | lia | done | done].
Qed.

Lemma silent_ret {A} (a : A) (Q : A -> Prop) : Q a -> silent (mret a) Q.
Proof. intros HQ ss Hs. apply wpx_ret. by split_and!. Qed.

Lemma silent_if {A} (b : bool) (m1 m2 : cmd A) Q :
  (b = true -> silent m1 Q) -> (b = false -> silent m2 Q) -> silent (if b then m1 else m2) Q.
Proof. destruct b; auto. Qed.

Lemma silent_read {A} (f : SmtpState -> A) : silent (read f) anything.
Proof. intros ss Hs. apply wpx_read. by split_and!. Qed.

(** Assignments outside the mail transaction. *)
Definition harmless (f : SmtpState -> SmtpState) : Prop :=
  forall ss, same_mail ss (f ss) /\ trace (f ss) = trace ss /\ irouter_state (f ss) = irouter_state ss.

Lemma silent_update f : harmless f -> silent (update f) anything.
Proof.
  intros H ss Hs. apply wpx_update. destruct (H ss) as (Hc & Ht & Hi).
  unfold passed_guard, replies, sane. rewrite Ht, Hi. by split_and!.
Qed.

Lemma silent_emit e : is_final e = false -> silent (emit e) anything.
Proof.
  intros He ss Hs. apply wpx_update. unfold passed_guard, replies. cbn [trace set_trace].
  rewrite finals_cons, He. by split_and!.
Qed.

Lemma guarded_bind {A B} (m : cmd A) (k : A -> cmd B) P Q :
  guarded m P -> (forall a, P a -> guarded (k a) Q) -> guarded (m ≫= k) Q.
Proof.
  intros Hm Hk ss Hs. apply wpx_bind. eapply wpx_mono; [by apply Hm|done|].
  cbv beta. intros a ss1 (Hc & Hr & Hs1 & HP).
  eapply wpx_mono; [by apply Hk|..]; cbv beta.
  - intros r ss2 (-> & Hc2 & Hr2 & Hs2). unfold left_guard, replies in *.
    split_and!; [done | by etransitivity | lia | done].
  - intros b ss2 (Hc2 & Hr2 & Hs2 & HQ). unfold passed_guard, replies in *.
    split_and!; [by etransitivity | lia | done | done].
Qed.

Lemma guarded_ret {A} (a : A) (Q : A -> Prop) : Q a -> guarded (mret a) Q.
Proof. intros. by apply silent_guarded, silent_ret. Qed.

Lemma guarded_weaken {A} (m : cmd A) (P Q : A -> Prop) :
  guarded m P -> (forall a, P a -> Q a) -> guarded m Q.
Proof.
  intros Hm HPQ ss Hs. eapply wpx_mono; [by apply Hm|done|].
  intros a ss' (?&?&?&?). split_and!; auto.
Qed.

Lemma guarded_if {A} (b : bool) (m1 m2 : cmd A) Q :
  (b = true -> guarded m1 Q) -> (b = false -> guarded m2 Q) ->
  guarded (if b then m1 else m2) Q.
Proof. destruct b; auto. Qed.

Lemma guarded_when b (m : cmd unit) :
  (b = true -> guarded m (fun _ => True)) -> guarded (when b m) (fun _ => True).
Proof. intros H. destruct b; [by apply H|]. by apply guarded_ret. Qed.

(** [when b m] for an [m] that always leaves. *)
Lemma guarded_check b (m : cmd unit) :
  (b = true -> guarded m (fun _ => False)) -> guarded (when b m) (fun _ => b = false).
Proof. intros H. destruct b; [eapply guarded_weaken; [by apply H | done]|]. by apply guarded_ret. Qed.

Lemma guarded_read {A} (f : SmtpState -> A) : guarded (read f) anything.
Proof. apply silent_guarded, silent_read. Qed.

Lemma guarded_update f : harmless f -> guarded (update f) anything.
Proof. intros. by apply silent_guarded, silent_update. Qed.

Lemma guarded_emit e : is_final e = false -> guarded (emit e) anything.
Proof. intros. by apply silent_guarded, silent_emit. Qed.

Lemma guarded_scan {A} (m : ST rfc821_err A) (Q : A -> Prop) :
  (forall e, wp m (fun a _ => Q a) e) -> guarded (scan m) Q.
Proof.
  intros H ss Hs. unfold wpx, scan. specialize (H (err821 ss)). unfold wp in H.
  destruct (m (err821 ss)) as [a e]. by split_and!.
Qed.

(** The middle of a block that replies and leaves: [n] final replies and
    then a return. *)
Definition leaving {A} (m : cmd A) : Prop := guarded m (fun _ => False).

Lemma leaving_weaken {A} (m : cmd A) Q : leaving m -> guarded m Q.
Proof. intros H. eapply guarded_weaken; [exact H | done]. Qed.

Lemma wpx_catch (m : cmd Z) (Q : Z -> SmtpState -> Prop) ss :
  wpx m (fun r ss' => if r is Return rc then Q rc ss' else False) Q ss ->
  wpx (catch m) (fun _ _ => False) Q ss.
Proof. unfold wpx, catch. destruct (m ss) as [[[]|] ?]; done. Qed.

(** Run a guarded block in front of the rest of a handler. *)
Lemma guarded_then {A B} (m : cmd A) (k : A -> cmd B) P E Q ss ss0 :
  guarded m P -> same_mail ss0 ss -> replies 0 ss0 ss -> sane ss ->
  (forall r ss', left_guard ss0 r ss' -> E r ss') ->
  (forall a ss', same_mail ss0 ss' -> replies 0 ss0 ss' -> sane ss' -> P a -> wpx (k a) E Q ss') ->
  wpx (m ≫= k) E Q ss.
Proof.
  intros Hm Hc Hr Hs HE Hk. apply wpx_bind. eapply wpx_mono; [by apply Hm|..]; cbv beta.
  - intros r ss' (-> & Hc' & Hr' & Hs'). apply HE. unfold left_guard, replies in *.
    split_and!; [done | by etransitivity | lia | done].
  - intros a ss' (Hc' & Hr' & Hs' & HP). apply Hk; [by etransitivity | unfold replies in *; lia | done | done].
Qed.

Section blocks.
Context {cf : Config} {env : Env}.

Lemma leaving_reply {A} code st fmt arg :
  0 < code -> leaving (A := A) (type_arg code st fmt arg;; return_ (-1)).
Proof.
  intros Hc ss Hs. apply wpx_bind, wpx_update, wpx_exit.
  unfold left_guard, replies. cbn [trace set_trace]. rewrite finals_cons. cbn [is_final].
  replace (0 <? code) with true by lia. by split_and!.
Qed.

Lemma guarded_cont code st text : code <= 0 -> guarded (type code st text) (fun _ => True).
Proof. intros Hc. apply guarded_emit. cbn. lia. Qed.

Lemma leaving_tarpit_reply {A} code st fmt arg :
  0 < code -> leaving (A := A) (smtp_tarpit;; type_arg code st fmt arg;; return_ (-1)).
Proof.
  intros Hc. eapply guarded_bind; [by apply guarded_emit|]. intros _ _.
  by apply leaving_reply.
Qed.

Lemma leaving_refuse {A} code st text : 0 < code -> leaving (A := A) (refuse code st text).
Proof. apply leaving_tarpit_reply. Qed.

Lemma guarded_type821err code st buf text :
  code <= 0 -> guarded (type821err code st buf text) (fun _ => True).
Proof.
  intros Hc. eapply guarded_bind; [apply guarded_read|]. intros e _.
  eapply guarded_bind; [|intros _ _; by apply guarded_cont].
  apply guarded_if; intros _; [by apply guarded_emit | by apply guarded_ret].
Qed.

Lemma leaving_type821err {A} code st buf text :
  0 < code -> leaving (A := A) (type821err code st buf text;; return_ (-1)).
Proof.
  intros Hc ss Hs. unfold type821err. do 2 apply wpx_bind. apply wpx_read, wpx_bind.
  apply wpx_mono with (E := fun _ _ => False)
    (Q := fun _ ss' => same_mail ss ss' /\ replies 0 ss ss' /\ sane ss').
  - unfold replies, emit. wpx_steps; [|by split_and!]. cbn [trace set_trace]. by rewrite finals_cons.
  - done.
  - intros _ ss' (Hm & Hr & Hs'). apply wpx_update, wpx_exit.
    unfold left_guard, replies in *. cbn [trace set_trace]. rewrite finals_cons. cbn [is_final].
    replace (0 <? code) with true by lia. split_and!; [done|exact Hm|lia|done].
Qed.

Lemma guarded_mib c : guarded (mib c) (fun _ => True).
Proof. by apply guarded_emit. Qed.

Lemma guarded_tarpit : guarded smtp_tarpit (fun _ => True).
Proof. by apply guarded_emit. Qed.

Lemma guarded_policytest t arg len user : guarded (policytest t arg len user) (fun _ => True).
Proof.
  eapply guarded_bind; [apply guarded_read|]. intros tr _.
  eapply guarded_bind; [by apply guarded_emit|]. intros _ _. by apply guarded_ret.
Qed.

Lemma guarded_policymsg : guarded policymsg (fun _ => True).
Proof. apply guarded_read. Qed.
End blocks.

(** Symbolic execution of a guarded block: one step per statement. *)
Ltac g_step :=
  lazymatch goal with
  | |- guarded (mret _) _ => apply guarded_ret
  | |- guarded (update _) _ => eapply guarded_weaken; [apply guarded_update; by intros ?|]
  | |- guarded (read _) _ => eapply guarded_weaken; [apply guarded_read|]
  | |- guarded (when _ _) (fun _ => True) => apply guarded_when; intros ?
  | |- guarded (if ?b then _ else _) _ =>
      lazymatch type of b with bool => apply guarded_if; intros ? end
  | |- guarded (refuse _ _ _) _ => apply leaving_weaken, leaving_refuse; lia
  | |- guarded (mbind (fun _ => return_ (-1)) (type _ _ _)) _ =>
      apply leaving_weaken, leaving_reply; lia
  | |- guarded (mbind (fun _ => return_ (-1)) (type_arg _ _ _ _)) _ =>
      apply leaving_weaken, leaving_reply; lia
  | |- guarded (mbind (fun _ => return_ (-1)) (type821err _ _ _ _)) _ =>
      apply leaving_weaken, leaving_type821err; lia
  | |- guarded (mbind _ (when _ _)) _ => eapply guarded_bind; [apply guarded_check; intros ? | intros ? ?]
  | |- guarded (mbind _ (read _)) _ => eapply guarded_bind; [apply guarded_read | intros ? _]
  | |- guarded (mbind _ (update _)) _ =>
      eapply guarded_bind; [apply guarded_update; by intros ? | intros ? _]
  | |- guarded (mbind _ (type821err _ _ _ _)) _ =>
      eapply guarded_bind; [apply guarded_type821err; lia | intros ? _]
  | |- guarded (mbind _ (type _ _ _)) _ =>
      eapply guarded_bind; [apply guarded_cont; lia | intros ? _]
  | |- guarded (mbind _ smtp_tarpit) _ => eapply guarded_bind; [apply guarded_tarpit | intros ? _]
  | |- guarded (mbind _ (mib _)) _ => eapply guarded_bind; [apply guarded_mib | intros ? _]
  | |- guarded (mbind _ policymsg) _ => eapply guarded_bind; [apply guarded_policymsg | intros ? _]
  end.
Ltac g_steps := repeat g_step.

Section mail_blocks.
Context {cf : Config} {env : Env}.

Lemma guarded_strict_sloppy : guarded strict_sloppy (fun _ => True).
Proof. unfold strict_sloppy. g_steps. done. Qed.

(** The checks of MAIL in front of the reset of the counters. *)
Lemma mail_state_check_spec ss :
  sane ss ->
  wpx mail_state_check (left_guard ss) (fun _ ss' =>
    same_transaction ss ss' /\ replies 0 ss ss' /\ sane ss' /\
    (state ss = Mail \/ state ss = MailOrHello) /\ ok_rcpt_count ss' = 0 /\ rcpt_count ss' = 0) ss.
Proof.
  intros Hs. unfold mail_state_check. do 3 apply wpx_bind, wpx_update. apply wpx_bind, wpx_read.
  set (ss1 := set_deliverby_flags 0 _).
  assert (same_mail ss ss1) as H1 by done. assert (replies 0 ss ss1) as R1 by done.
  eapply guarded_then with (ss0 := ss); [apply guarded_check; intros ?; g_step | done..|].
  intros ? ss2 H2 R2 S2 Hst; cbv beta in Hst.
  eapply guarded_then with (ss0 := ss); [apply guarded_read | done..|]. intros user ss3 H3 R3 S3 _.
  eapply guarded_then with (ss0 := ss); [apply guarded_check; intros ?; g_step | done..|].
  intros _ ss4 H4 R4 S4 _. apply wpx_bind, wpx_update, wpx_update.
  split_and!; [apply H4 | done | done | | done | done].
  unfold cmd_eqb in Hst. change (state ss1) with (state ss) in Hst.
  do 2 case_bool_decide; by auto.
Qed.

Lemma guarded_mail_find_path sloppy cp :
  guarded (mail_find_path sloppy cp) (fun _ => True).
Proof. unfold mail_find_path. g_steps. done. Qed.

(** *** Addresses *)

Lemma mailbox_no_at strict w : mailbox strict w -> hd 0 w <> $"@".
Proof.
  assert (forall l r, local_part strict l -> hd 0 (l ++ r) <> $"@") as H.
  { intros l r Hl E. pose proof (local_part_nonempty _ _ Hl) as Hne.
    destruct l as [|c l]; [done|]. cbn in E. subst c.
    pose proof (local_part_first strict (Ptr 0 ($"@" :: l)) ($"@" :: l) (Ptr (0 + Z.of_nat (S (length l))) []) $"@") as F.
    assert ((deref (Ptr 0 ($"@" :: l)) =? $"@") = false) as Hf; [|done].
    apply F; try done. split; [|done]. cbn. by rewrite app_nil_r. }
  intros [(l & d & -> & Hl & _) | (_ & Hl)]; [by apply H|].
  rewrite <- (app_nil_r w). by apply H.
Qed.

Lemma path2_colon strict w : path2 strict w -> hd 0 w = $"@" -> $":" ∈ w.
Proof.
  intros [Hm | (r & m & -> & _)] Hd; [by apply mailbox_no_at in Hm|].
  apply elem_of_app. right. left.
Qed.

Lemma path_colon strict w : Grammar.path strict w -> nth 1 w 0 = $"@" -> $":" ∈ w.
Proof.
  intros [-> | (v & b & -> & Hp & Hb)] Hn; [done|]. cbn in Hn.
  destruct v as [|c v].
  - exfalso. destruct Hp as [Hm | (r & m & E & _)]; [|by destruct r].
    destruct Hm as [(l & d & E & _) | (_ & Hl)]; [by destruct l|].
    by apply local_part_nonempty in Hl.
  - right. apply elem_of_app. left. by eapply path2_colon.
Qed.

(** The first colon of a buffer. *)
Lemma span_colon (w l : list Z) : $":" ∈ w ->
  (span (fun c => negb (c =? $":")%Z) (w ++ l) < length w)%nat.
Proof.
  induction w as [|c w IH]; [by intros ?%elem_of_nil|]. intros H. cbn.
  destruct (Z.eqb_spec c $":"); cbn; [lia|].
  apply elem_of_cons in H as [<- | H]; [done|]. specialize (IH H). lia.
Qed.

Lemma guarded_skip_to_colon cp w l :
  mem cp = w ++ l -> $":" ∈ w ->
  guarded (skip_to_colon cp) (fun r => exists i, (i < length w)%nat /\ r = cp [+] i).
Proof.
  intros E Hw. unfold skip_to_colon. rewrite E. pose proof (span_colon w l Hw) as Hi.
  rewrite length_app. destruct (Nat.ltb_spec (span (fun c => negb (c =? $":")) (w ++ l)) (length w + length l)%nat); [|lia].
  apply guarded_ret. eauto.
Qed.

(** What a path block returns: an address inside the buffer. *)
Definition found_path (r : ptr * Z * ptr * list Z) : Prop :=
  let '(cp, addrlen, s, note) := r in 0 <= addrlen <= Z.of_nat (length (mem cp)).

Lemma found_path_behind cp w s i k note :
  behind cp w s -> (i + k <= length w)%nat ->
  found_path (cp [+] i, psub s (cp [+] i) - Z.of_nat k, s, note).
Proof.
  intros [E A] Hi. unfold found_path, psub. cbn [addr padd mem]. rewrite A, length_drop, E, length_app. lia.
Qed.

(** What the scanners tell about a position they moved past. *)
Lemma path_addr strict cp e : wp (rfc821_path cp strict) (fun r _ => addr r.2 = addr cp) e.
Proof.
  unfold rfc821_path. wp_steps; try done.
  apply wp_mono with (Q := fun _ _ => True); [done|]. intros q e' _. wp_steps; done.
Qed.

Lemma path_word_colon v b strict :
  Grammar.path strict (v ++ b ++ [$">"]) -> forallb is_blank b = true ->
  v <> [] /\ (nth 1 (v ++ [$">"]) 0 = $"@" -> $":" ∈ v).
Proof.
  intros Hp Hb.
  assert (forall c, is_blank c = false -> c ∉ b) as Hnb.
  { intros c Hc Hin. rewrite forallb_forall in Hb. apply list_elem_of_In in Hin.
    apply Hb in Hin. congruence. }
  assert (v <> []) as Hv.
  { intros ->. cbn in Hp. assert (hd 0 (b ++ [$">"]) = $"<") as E.
    { destruct Hp as [-> | (u & c & -> & _)]; done. }
    destruct b as [|c b]; [done|]. cbn in E. subst c. done. }
  split; [done|]. intros Hn.
  assert (nth 1 (v ++ b ++ [$">"]) 0 = $"@") as Hn'.
  { destruct v as [|x [|y v]]; done. }
  pose proof (path_colon _ _ Hp Hn') as Hin.
  apply elem_of_app in Hin as [?|Hin]; [done|].
  apply elem_of_app in Hin as [Hin|Hin]; [by apply Hnb in Hin|].
  by apply list_elem_of_singleton in Hin.
Qed.

Lemma path_scanned strict cp e :
  wp (rfc821_path cp strict) (fun r _ =>
    peq r.1 r.2 = false ->
    exists v, v <> [] /\ behind r.2 (v ++ [$">"]) r.1 /\ (peek r.2 1 = $"@" -> $":" ∈ v)) e.
Proof.
  eapply wp_mono; [apply wp_and; [apply path_spec | apply path_addr]|].
  cbv beta. intros [r s'] e' [Hp Ha] Hne; cbn [fst snd] in *.
  destruct Hp as [[Heq _] | (w & l & _ & _ & Hg & v & Hb & _ & b & Hbl & -> & _)]; cbn [fst snd] in *.
  { unfold peq in *. rewrite Ha in Hne. congruence. }
  destruct (path_word_colon v b strict Hg Hbl) as [Hv Hc].
  exists v. split_and!; [done | done |]. intros Hp. apply Hc.
  destruct Hb as [E _]. unfold peek in Hp. rewrite E in Hp. destruct v as [|x [|y v]]; done.
Qed.

Lemma path2_scanned strict cp e :
  wp (rfc821_path2 cp strict) (fun s _ =>
    s = cp \/ exists w, behind cp w s /\ (deref cp = $"@" -> $":" ∈ w)) e.
Proof.
  eapply wp_mono; [apply path2_spec|]. cbv beta. intros s e' [[-> | (w & Hw & Hb & Hp)] _]; [by left|].
  right. exists w. split; [done|]. intros Hd. eapply path2_colon; [done|].
  destruct Hb as [E _]. unfold deref in Hd. rewrite E in Hd. by destruct w.
Qed.

(** The source route is skipped within the word scanned. *)
Definition in_word (cp : ptr) (w : list Z) (r : ptr * list Z) : Prop :=
  exists i, r.1 = cp [+] i /\ (i <= length w)%nat /\ (w <> [] -> (i < length w)%nat).

Lemma guarded_route (b : bool) cp w s :
  behind cp w s -> (b = true -> $":" ∈ w) ->
  guarded (if b then cp ← skip_to_colon cp; mret (cp, route_ignored) else mret (cp, []))
    (in_word cp w).
Proof.
  intros Hb Hc. destruct b.
  - destruct Hb as [E _]. eapply guarded_bind; [eapply guarded_skip_to_colon; [done | auto]|].
    intros r (i & Hi & ->). apply guarded_ret. exists i. cbn. split_and!; [done | lia | done].
  - apply guarded_ret. exists 0%nat. cbn. rewrite padd_0. split_and!; [done | lia |].
    destruct w; cbn; [done | lia].
Qed.

Lemma guarded_route_inc (b : bool) cp w s :
  behind cp w s -> (b = true -> $":" ∈ w) ->
  guarded (if b then cp ← skip_to_colon cp; mret (pinc cp, route_ignored) else mret (cp, []))
    (fun r => exists i, r.1 = cp [+] i /\ (i <= length w)%nat).
Proof.
  intros Hb Hc. destruct b.
  - destruct Hb as [E _]. eapply guarded_bind; [eapply guarded_skip_to_colon; [done | auto]|].
    intros r (i & Hi & ->). apply guarded_ret. exists (i + 1)%nat. cbn.
    split; [apply padd_padd | lia].
  - apply guarded_ret. exists 0%nat. cbn. rewrite padd_0. split; [done | lia].
Qed.

Lemma leaving_mail_path_error {A} buf cp text : leaving (A := A) (mail_path_error buf cp text).
Proof. unfold leaving, mail_path_error. g_steps. Qed.

Lemma leaving_path_data {A} (k : list Z -> cmd A) :
  (forall t, leaving (k t)) -> leaving (t ← path_data_text; k t).
Proof.
  intros Hk. unfold leaving, path_data_text. eapply guarded_bind with (P := fun _ => True).
  - g_steps. done.
  - intros t _. apply Hk.
Qed.

Lemma guarded_mail_path_strict strict buf cp :
  guarded (mail_path_strict strict buf cp) found_path.
Proof.
  unfold mail_path_strict. eapply guarded_bind; [apply guarded_scan; intros e; apply path_scanned|].
  intros [s cp'] Hscan; cbn [fst snd] in Hscan.
  eapply guarded_bind; [apply guarded_check; intros _; apply leaving_path_data; intros; apply leaving_mail_path_error|].
  intros ? Hne; cbv beta in Hne. destruct (Hscan Hne) as (v & Hv & Hb & Hc). clear Hscan.
  g_step; [g_step|].
  destruct (behind_app _ _ _ _ Hb) as (q & Hbv & _).
  eapply guarded_bind; [eapply guarded_route; [apply Hbv|]|].
  { intros Hat. zbool. auto. }
  intros [cp2 note] (i & E & _ & Hi); cbn [fst] in *. subst cp2. apply guarded_ret.
  change (pinc (cp' [+] i)) with (cp' [+] i [+] 1). rewrite padd_padd.
  apply (found_path_behind cp' (v ++ [$">"]) s (i + 1) 1); [done|].
  specialize (Hi Hv). rewrite length_app. cbn. lia.
Qed.

Lemma guarded_mail_path_sloppy buf cp : guarded (mail_path_sloppy buf cp) found_path.
Proof.
  unfold mail_path_sloppy. set (cp1 := skip_while is_blank (pinc cp)).
  eapply guarded_bind; [apply guarded_scan; intros e; apply path2_scanned|].
  intros s Hscan.
  eapply guarded_bind; [apply guarded_check; intros _; apply leaving_path_data; intros; apply leaving_mail_path_error|].
  intros ? Hne; cbv beta in Hne.
  assert (exists w, behind cp1 w s /\ ((deref cp1 =? $"@") && negb allow_source_route = true -> $":" ∈ w))
    as (w & Hb & Hc).
  { destruct Hscan as [-> | (w & Hb & Hc)].
    - exists []. split; [split; cbn; [done | lia]|]. intros H. rewrite peq_refl in Hne. zbool.
      destruct Hne as [? | ?]; zbool; [done | congruence].
    - exists w. split; [done|]. intros H. zbool. auto. }
  eapply guarded_bind; [eapply guarded_route_inc; [apply Hb | apply Hc]|].
  intros [cp2 note] (i & E & Hi); cbn [fst] in *. subst cp2. g_step.
  { g_step. apply leaving_mail_path_error. }
  apply guarded_ret. unfold found_path.
  pose proof (found_path_behind cp1 w s i 0 note Hb) as Hf. cbn in Hf. rewrite Z.sub_0_r in Hf.
  apply Hf. lia.
Qed.

Lemma guarded_mail_path_bare strict buf cp : guarded (mail_path_bare strict buf cp) found_path.
Proof.
  unfold mail_path_bare.
  eapply guarded_bind; [apply guarded_scan; intros e; apply path2_scanned|].
  intros s Hscan.
  eapply guarded_bind; [apply guarded_check; intros _; apply leaving_path_data; intros; apply leaving_mail_path_error|].
  intros ? Hne; cbv beta in Hne. destruct Hscan as [-> | (w & Hb & Hc)]; [by rewrite peq_refl in Hne|].
  g_step; [g_step|].
  eapply guarded_bind; [eapply guarded_route; [apply Hb|]|].
  { intros H0. zbool. auto. }
  intros [cp2 note] (i & E & Hi & _); cbn [fst] in *. subst cp2. apply guarded_ret.
  pose proof (found_path_behind cp w s i 0 note Hb) as H0. cbn in H0. rewrite Z.sub_0_r in H0.
  apply H0. lia.
Qed.

Lemma guarded_mail_path strict sloppy buf cp :
  guarded (mail_path strict sloppy buf cp) found_path.
Proof.
  unfold mail_path. g_steps.
  - apply guarded_mail_path_strict.
  - apply guarded_mail_path_sloppy.
  - apply guarded_mail_path_bare.
Qed.

(** *** Parameters *)

Lemma guarded_mail_opt_ret o s : guarded (mail_opt_ret o s) anything.
Proof. unfold mail_opt_ret. by g_steps. Qed.

Lemma guarded_mail_opt_body o s : guarded (mail_opt_body o s) anything.
Proof.
  unfold mail_opt_body. g_step; [by g_steps|].
  eapply guarded_bind with (P := anything); [by g_steps|]. intros [b s'] _. by g_steps.
Qed.

Lemma guarded_mail_opt_size o s : guarded (mail_opt_size o s) anything.
Proof. unfold mail_opt_size. g_steps. destruct (size_loop _ _) as [v n]. by g_steps. Qed.

Lemma guarded_xtext v : guarded (scan (xtext_string v)) anything.
Proof. by apply guarded_scan. Qed.

Lemma guarded_mail_opt_envid buf o s : guarded (mail_opt_envid buf o s) anything.
Proof.
  unfold mail_opt_envid. g_steps. eapply guarded_bind; [apply guarded_xtext|]. intros p _. by g_steps.
Qed.

Lemma guarded_mail_opt_auth buf o s : guarded (mail_opt_auth buf o s) anything.
Proof.
  unfold mail_opt_auth. eapply guarded_bind; [apply guarded_xtext|]. intros p _. by g_steps.
Qed.

Lemma guarded_mail_opt_by buf o s : guarded (mail_opt_by buf o s) anything.
Proof. unfold mail_opt_by. destruct (by_value _) as [[[val neg] p]|]; by g_steps. Qed.

Lemma guarded_mail_option buf o s : guarded (mail_option buf o s) anything.
Proof.
  unfold mail_option. g_steps.
  - apply guarded_mail_opt_ret.
  - apply guarded_mail_opt_body.
  - apply guarded_mail_opt_size.
  - apply guarded_mail_opt_envid.
  - apply guarded_mail_opt_auth.
  - apply guarded_mail_opt_by.
Qed.

Lemma guarded_mail_options strict sloppy buf s :
  guarded (mail_options strict sloppy buf s) anything.
Proof.
  unfold mail_options. do 2 g_step. generalize (MailOpts None None None None).
  generalize (length (mem s)) as fuel. intros fuel. revert s.
  induction fuel as [|fuel IH]; intros s o; cbn [mail_options_loop]; g_steps; try done.
  eapply guarded_bind; [apply guarded_mail_option|]. intros [o' s'] _. apply IH.
Qed.

(** *** Policy and router *)

(** The block sends exactly one final reply and goes on. *)
Definition answers (m : cmd unit) : Prop :=
  forall ss, sane ss ->
  wpx m (fun _ _ => False) (fun _ ss' => same_mail ss ss' /\ replies 1 ss ss' /\ sane ss') ss.

Lemma answers_type code st fmt arg : 0 < code -> answers (type_arg code st fmt arg).
Proof.
  intros Hc ss Hs. apply wpx_update. unfold replies. cbn [trace set_trace].
  rewrite finals_cons. cbn [is_final]. replace (0 <? code) with true by lia. by split_and!.
Qed.

Lemma answers_quiet {A} (m : cmd A) (k : A -> cmd unit) :
  silent m anything -> (forall a, answers (k a)) -> answers (m ≫= k).
Proof.
  intros Hm Hk ss Hs. apply wpx_bind. eapply wpx_mono; [by apply Hm|done|].
  cbv beta. intros a ss1 (Hc & Hr & Hs1 & _). eapply wpx_mono; [by apply Hk|done|].
  cbv beta. intros _ ss2 (Hc2 & Hr2 & Hs2). unfold replies in *.
  split_and!; [by etransitivity | lia | done].
Qed.

Lemma silent_tarpit : silent smtp_tarpit anything.
Proof. by apply silent_emit. Qed.

Lemma silent_policymsg : silent policymsg anything.
Proof. apply silent_read. Qed.

Lemma leaving_answers {A} (m : cmd unit) :
  answers m -> leaving (A := A) (m;; return_ (-1)).
Proof.
  intros Hm ss Hs. apply wpx_bind. eapply wpx_mono; [by apply Hm|done|].
  cbv beta. intros _ ss' (?&?&?). apply wpx_exit. by split_and!.
Qed.

Ltac answer_steps :=
  repeat lazymatch goal with
  | |- answers (mbind _ smtp_tarpit) => apply answers_quiet; [apply silent_tarpit | intros _]
  | |- answers (mbind _ policymsg) => apply answers_quiet; [apply silent_policymsg | intros ?]
  | |- answers (if ?b then _ else _) => destruct b
  | |- answers (match ?o with Some _ => _ | None => _ end) => destruct o
  | |- answers (type _ _ _) => apply answers_type; lia
  end.

Lemma answers_mail_policy_reject pr a : answers (mail_policy_reject pr a).
Proof. unfold mail_policy_reject. cbv zeta. answer_steps. Qed.

Lemma answers_rcpt_policy_reject pr ss a : answers (rcpt_policy_reject pr ss a).
Proof. unfold rcpt_policy_reject. answer_steps. Qed.

Lemma guarded_policy_or_0 t arg len user :
  guarded (if netconnected_flg then policytest t arg len user else mret 0) anything.
Proof. g_steps; [apply guarded_policytest | done]. Qed.

Lemma guarded_mail_policy cp addrlen : guarded (mail_policy cp addrlen) anything.
Proof.
  unfold mail_policy. g_step. eapply guarded_bind; [apply guarded_policy_or_0|].
  intros pr _. g_step. apply guarded_when. intros _.
  apply leaving_weaken, leaving_answers, answers_mail_policy_reject.
Qed.
End mail_blocks.

(** ** The router client *)

Section router.
Context {cf : Config} {env : Env} {SR : SaneRouter}.

Lemma silent_cont code st text : code <= 0 -> silent (type code st text) anything.
Proof. intros Hc. apply silent_emit. cbn. lia. Qed.

Lemma silent_present_line p : 100 <= atoi p -> silent (present_line false p) anything.
Proof.
  intros Hp. unfold present_line. apply silent_if; intros _; [|apply silent_cont; lia].
  destruct (if _ : bool then _ else _) as [st text].
  apply silent_if; intros _; apply silent_cont; lia.
Qed.

Lemma silent_set_irouter st : sane_pbuf st -> silent (update (set_irouter_state (Some st))) anything.
Proof.
  intros Hst ss Hs. apply wpx_update. split_and!; try done. intros st' [= <-]. done.
Qed.

Lemma silent_count_failure : silent count_interface_failure anything.
Proof.
  unfold count_interface_failure. eapply silent_bind; [by apply silent_update|]. intros _ _.
  eapply silent_bind; [apply silent_read|]. intros n _.
  apply silent_if; intros _; [by apply silent_update | by apply silent_ret].
Qed.

(** A question to the router: no answer and one final reply to the client,
    or an answer and no final reply. *)
Definition asked {A} (Q : A -> Prop) (ss : SmtpState) (r : option A) (ss' : SmtpState) : Prop :=
  same_mail ss ss' /\ sane ss' /\
  match r with None => replies 1 ss ss' | Some a => replies 0 ss ss' /\ Q a end.
Definition asking {A} (m : cmd (option A)) (Q : A -> Prop) : Prop :=
  forall ss, sane ss -> wpx m (fun _ _ => False) (asked Q ss) ss.

Lemma asking_bind {A B} (m : cmd A) (k : A -> cmd (option B)) P Q :
  silent m P -> (forall a, P a -> asking (k a) Q) -> asking (m ≫= k) Q.
Proof.
  intros Hm Hk ss Hs. apply wpx_bind. eapply wpx_mono; [by apply Hm|done|].
  cbv beta. intros a ss1 (Hc & Hr & Hs1 & HP). eapply wpx_mono; [by apply Hk|done|].
  cbv beta. intros r ss2 (Hc2 & Hs2 & HQ). split_and!; [by etransitivity | done |].
  unfold replies in *. destruct r; [destruct HQ as [? ?]; split; [lia | done] | lia].
Qed.

Lemma asking_some {A} (a : A) (Q : A -> Prop) : Q a -> asking (mret (Some a)) Q.
Proof. intros HQ ss Hs. apply wpx_ret. by split_and!. Qed.

Lemma asking_failure {A} code st text (Q : A -> Prop) :
  0 < code -> asking (type code st text;; count_interface_failure;; mret None) Q.
Proof.
  intros Hc ss Hs. apply wpx_bind. eapply wpx_mono; [by apply answers_type|done|].
  cbv beta. intros _ ss1 (Hm & Hr & Hs1). apply wpx_bind.
  eapply wpx_mono; [by apply silent_count_failure|done|].
  cbv beta. intros _ ss2 (Hm2 & Hr2 & Hs2 & _). apply wpx_ret. unfold asked, replies in *.
  split_and!; [by etransitivity | done | lia].
Qed.

Lemma asking_router_loop rs st :
  (forall l, In (Line l) rs -> cstr (chomp l) <> $$"#hungry" -> sane_line l) ->
  sane_pbuf st -> asking (router_loop rs st) sane_pbuf.
Proof.
  assert (forall st why, sane_pbuf st -> asking
    (update (set_irouter_state (Some (smtprouter_kill st)));;
     type 450 (Some ($$"4.5.0")) ($$"Interactive router " ++ why ++ $$"!");;
     count_interface_failure;; mret None) sane_pbuf) as Hlost.
  { intros st' why Hst. eapply asking_bind; [by apply silent_set_irouter|]. intros _ _.
    apply asking_failure. lia. }
  revert st. induction rs as [|r rs IH]; intros st Hrs Hst; cbn [router_loop]; [by apply Hlost|].
  eapply asking_bind; [by apply silent_emit|]. intros _ _.
  destruct r as [l| |]; [|by apply Hlost..]. fold (chomp l).
  case_bool_decide as Hn; [by apply Hlost|]. case_bool_decide as Hh; [by apply asking_some|].
  eapply asking_bind with (P := anything).
  { destruct (pbuf st) eqn:E; [by apply silent_present_line, Hst | by apply silent_ret]. }
  intros _ _. apply IH.
  - intros l' Hl'. apply Hrs. by right.
  - intros p [= <-]. apply Hrs; [by left | done].
Qed.

Lemma asking_router_ask st f arg :
  outfp st = true -> sane_pbuf st -> asking (router_ask st f true arg) (fun s => 100 <= atoi s).
Proof.
  intros Ho Hst. unfold router_ask. eapply asking_bind; [by apply silent_set_irouter|]. intros _ _.
  destruct (negb (sawhungry st)).
  { eapply asking_bind; [by apply silent_set_irouter|]. intros _ _. apply asking_failure. lia. }
  eapply asking_bind; [by apply silent_emit|]. intros _ _.
  eapply asking_bind; [apply silent_read|]. intros tr _. rewrite router_writable.
  intros ss Hs. apply wpx_bind.
  eapply wpx_mono; [apply asking_router_loop; [apply router_lines | done | done]|done|].
  cbv beta. intros [st'|] ss1 (Hm & Hs1 & Hr).
  - destruct Hr as [Hr Hst']. destruct (pbuf st') as [p|] eqn:Ep.
    + apply wpx_bind, wpx_update, wpx_ret. split_and!; [done | by intros ? [= <-] | done |]. auto.
    + apply wpx_bind, wpx_update, wpx_ret. split_and!; [done | by intros ? [= <-] | done | done].
  - apply wpx_ret. by split_and!.
Qed.

Lemma smtprouter_init_sane o st st' :
  (forall x, st = Some x -> sane_pbuf x) -> smtprouter_init o st = Some st' -> sane_pbuf st'.
Proof.
  intros H E. assert (sane_pbuf (default (Rtr false false None) st)) as Hf.
  { destruct st as [x|]; [by apply H | done]. }
  destruct o; cbn in E; [by apply H|..]; injection E as <-; done.
Qed.

(** The last resort when the connection cannot be opened. *)
Lemma asking_init_failure st0 st :
  (forall x, st0 = Some x -> sane_pbuf x) -> sane_pbuf st ->
  asking ((if st0 is Some _ then update (set_irouter_state (Some st)) else mret tt);;
          if negb daemon_flg then mret (Some ($$"200 No interactive router run;"))
          else
            type 440 (Some ($$"4.4.0")) ($$"I am sick: Failed to init interactive router subsystem");;
            (if st0 is Some _ then update (set_irouter_state (Some (smtprouter_kill st)))
             else mret tt);;
            count_interface_failure;; mret None)
    (fun s => 100 <= atoi s).
Proof.
  intros H0 Hst. eapply asking_bind with (P := anything).
  { destruct st0; [by apply silent_set_irouter | by apply silent_ret]. }
  intros _ _. destruct (negb daemon_flg); [by apply asking_some|].
  intros ss Hs. apply wpx_bind. eapply wpx_mono; [by apply answers_type|done|].
  cbv beta. intros _ ss1 (Hm & Hr & Hs1). apply wpx_bind.
  apply wpx_mono with (E := fun _ _ => False) (Q := passed_guard anything ss1).
  { destruct st0; [by apply silent_set_irouter | by apply silent_ret]. }
  { done. }
  intros _ ss2 (Hm2 & Hr2 & Hs2 & _). apply wpx_bind.
  eapply wpx_mono; [by apply silent_count_failure|done|].
  cbv beta. intros _ ss3 (Hm3 & Hr3 & Hs3 & _). apply wpx_ret. unfold asked, replies in *.
  split_and!; [do 2 (etransitivity; [done|]); done | done | lia].
Qed.

Lemma asking_router f arg : asking (router f true arg) (fun s => 100 <= atoi s).
Proof.
  unfold router. destruct (negb enable_router); [apply asking_failure; lia|].
  intros ss Hs. apply wpx_bind, wpx_read.
  assert (forall st0, (forall x, st0 = Some x -> sane_pbuf x) ->
    asking (tr ← read trace;
      let st := smtprouter_init (ext_router_init tr) st0 in
      match st with
      | Some (Rtr true true p) => router_ask (Rtr true true p) f true arg
      | _ =>
          (if st0 is Some _ then update (set_irouter_state st) else mret tt);;
          if negb daemon_flg then mret (Some ($$"200 No interactive router run;"))
          else
            type 440 (Some ($$"4.4.0")) ($$"I am sick: Failed to init interactive router subsystem");;
            match st with
            | None => exit Segv
            | Some st =>
                (if st0 is Some _ then update (set_irouter_state (Some (smtprouter_kill st)))
                 else mret tt);;
                count_interface_failure;; mret None
            end
      end) (fun s => 100 <= atoi s)) as Hopen.
  { intros st0 H0. eapply asking_bind; [apply silent_read|]. intros tr _. cbv zeta.
    destruct (smtprouter_init (ext_router_init tr) st0) as [st|] eqn:E.
    - pose proof (smtprouter_init_sane _ _ _ H0 E) as Hst.
      destruct st as [[] [] p]; [by apply asking_router_ask|..]; by apply asking_init_failure.
    - exfalso. pose proof (router_available tr). by destruct (ext_router_init tr). }
  destruct (irouter_state ss) as [[[] h p]|] eqn:Ei.
  - apply asking_router_ask; [done | by apply Hs | done].
  - apply Hopen; [|done]. intros x [= <-]. by apply Hs.
  - by apply Hopen.
Qed.

Lemma guarded_ask_router f skip cp addrlen :
  guarded (ask_router f skip cp addrlen)
    (fun r => forall s, r = Some s -> 200 <= atoi s < 300).
Proof.
  unfold ask_router. g_step; [|by g_step].
  intros ss Hs. apply wpx_bind. eapply wpx_mono; [by apply asking_router|done|].
  cbv beta. intros [s|] ss1 (Hm & Hs1 & Hr).
  - destruct Hr as [Hr Hc]. apply wpx_if; intros Hq.
    + destruct (split_status (drop 4 s)) as [esc msg].
      eapply wpx_mono; [apply leaving_tarpit_reply; [lia | done]|..].
      * intros r ss2 (-> & Hm2 & Hr2 & Hs2). unfold left_guard, replies in *.
        split_and!; [done | by etransitivity | lia | done].
      * by intros ? ? (_ & _ & _ & []).
    + apply wpx_ret. unfold passed_guard. split_and!; try done. intros s' [= <-]. zbool.
      assert (0 <= atoi s) by lia.
      rewrite Z.quot_div_nonneg in Hq by lia. split.
      * pose proof (Z.mul_div_le (atoi s) 100). lia.
      * pose proof (Z.mul_succ_div_gt (atoi s) 100). lia.
  - apply wpx_exit. by split_and!.
Qed.
End router.
