(* ===== verification/SmtpDataSpec.v ===== *)
(** * Specifications of DATA and BDAT

    The blocks of smtp_data() and smtp_bdata() that only talk, the number of
    replies they send and what they do with the spool file; from these the
    outcomes of the two commands. *)

From Stdlib Require Import ZArith Lia.
From stdpp Require Import base tactics numbers list option relations.
From S2P Require Import Prelude StrMatch Rfc821 SpoolId SmtpState SmtpCmds SmtpLine SmtpData SmtpSpec.

#[local] Open Scope Z_scope.

(** ** What becomes of a spool file *)

Definition is_disposal (e : event) : bool :=
  match e with EvMailAbort | EvMailClose _ | EvMailAlternate _ _ _ => true | _ => false end.
Definition disposals (tr : list event) : list event := filter is_disposal tr.

Lemma finals_app t u : finals (t ++ u) = (finals t + finals u)%nat.
Proof. unfold finals. by rewrite filter_app, length_app. Qed.

Lemma disposals_app t u : disposals (t ++ u) = disposals t ++ disposals u.
Proof. apply filter_app. Qed.

(** ** Blocks that only talk

    [m] changes nothing but the trace: [n] final replies, and the disposals
    [d], latest first, for a transaction with [ok] good recipients. *)

Definition speaks (ok : Z) (n : nat) (d : list event) (m : cmd unit) : Prop :=
  forall ss, ok_rcpt_count ss = ok ->
  exists evs, m ss = (inr tt, set_trace (evs ++ trace ss) ss) /\ finals evs = n /\ disposals evs = d.

Section speaking.
Context {cf : Config} {env : Env} {ok : Z}.

Lemma speaks_bind n1 n2 d1 d2 m (k : unit -> cmd unit) :
  speaks ok n1 d1 m -> speaks ok n2 d2 (k tt) -> speaks ok (n1 + n2) (d2 ++ d1) (m ≫= k).
Proof.
  intros Hm Hk ss Hok. destruct (Hm ss Hok) as (e1 & E1 & F1 & D1).
  destruct (Hk (set_trace (e1 ++ trace ss) ss) Hok) as (e2 & E2 & F2 & D2).
  exists (e2 ++ e1). unfold mbind, ex_bind. rewrite E1, E2.
  split_and!; [by cbn [trace set_trace]; rewrite app_assoc | |].
  - rewrite finals_app. lia.
  - rewrite disposals_app. by rewrite D1, D2.
Qed.

Lemma speaks_read {A} (f : SmtpState -> A) n d (k : A -> cmd unit) :
  (forall a, speaks ok n d (k a)) -> speaks ok n d (read f ≫= k).
Proof. intros Hk ss Hok. by apply Hk. Qed.

Lemma speaks_read_ok n d (k : Z -> cmd unit) :
  speaks ok n d (k ok) -> speaks ok n d (read ok_rcpt_count ≫= k).
Proof. intros Hk ss Hok. unfold mbind, ex_bind, read. rewrite Hok. by apply Hk. Qed.

Lemma speaks_ret : speaks ok 0 [] (mret tt).
Proof. intros ss _. exists []. by destruct ss. Qed.

Lemma speaks_emit e :
  speaks ok (if is_final e then 1 else 0) (if is_disposal e then [e] else []) (emit e).
Proof. intros ss _. exists [e]. unfold finals, disposals. destruct e; cbn; try done. by destruct (0 <? code). Qed.

Lemma speaks_mib c : speaks ok 0 [] (mib c).
Proof. apply (speaks_emit (EvMib c)). Qed.

Lemma speaks_tarpit : speaks ok 0 [] smtp_tarpit.
Proof. apply (speaks_emit EvTarpit). Qed.

Lemma speaks_type (code : Z) st text n : n = (if 0 <? code then 1%nat else 0%nat) -> speaks ok n [] (type code st text).
Proof. intros ->. apply (speaks_emit (EvReply code _)). Qed.

Lemma speaks_type_arg (code : Z) st fmt arg n :
  n = (if 0 <? code then 1%nat else 0%nat) -> speaks ok n [] (type_arg code st fmt arg).
Proof. intros ->. apply (speaks_emit (EvReply code _)). Qed.

Lemma speaks_policytest t arg len user n d (k : Z -> cmd unit) :
  (forall r, speaks ok n d (k r)) -> speaks ok n d (policytest t arg len user ≫= k).
Proof.
  intros Hk ss Hok. pose proof (Hk (ext_policytest (trace ss) t arg len user)
    (set_trace (EvPolicy t arg len user :: trace ss) ss) Hok) as (evs & E & F & D).
  exists (evs ++ [EvPolicy t arg len user]). rewrite finals_app, disposals_app. cbn. rewrite app_nil_r, Nat.add_0_r.
  split_and!; [|done..]. rewrite <- app_assoc. exact E.
Qed.

Lemma speaks_when (b : bool) n d m :
  (b = true -> speaks ok n d m) -> (b = false -> n = O /\ d = []) -> speaks ok n d (when b m).
Proof. destruct b; intros H1 H2; [by apply H1|]. destruct H2 as [-> ->]; [done|]. apply speaks_ret. Qed.

Lemma speaks_eq n n' d d' m : speaks ok n d m -> n = n' -> d = d' -> speaks ok n' d' m.
Proof. by intros ? -> ->. Qed.

Lemma speaks_iter n m k : speaks ok n [] m ->
  speaks ok (k * n) [] (Nat.iter k (fun j : cmd unit => m;; j) (mret tt)).
Proof.
  intros Hm. induction k as [|k IH]; [apply speaks_ret|].
  eapply speaks_eq; [eapply speaks_bind; [exact Hm | exact IH] | lia | done].
Qed.

(** The replies due at the end of a message: one, or one per recipient. *)
Definition further (first : Z) (c : bool) : nat :=
  if lmtp_mode && c then Z.to_nat (ok - first) else 0.
Definition due (c : bool) : nat := S (further 1 c).

Lemma speaks_for_rcpts_from first c m :
  speaks ok 1 [] m -> speaks ok (further first c) [] (for_rcpts_from first c m).
Proof.
  intros Hm. unfold for_rcpts_from. apply speaks_read_ok. unfold further.
  destruct (lmtp_mode && c); cbn [when]; [|apply speaks_ret].
  eapply speaks_eq; [by apply speaks_iter | lia | done].
Qed.

Lemma speaks_for_rcpts c m : speaks ok 1 [] m -> speaks ok (due c) [] (for_rcpts c m).
Proof.
  intros Hm. unfold for_rcpts. eapply speaks_eq;
    [eapply speaks_bind; [exact Hm | by apply speaks_for_rcpts_from] | done | done].
Qed.

Lemma speaks_drop_mail told : speaks ok 0 [EvMailAbort] (drop_mail told).
Proof.
  apply (speaks_bind 0 0 [EvMailAbort] []); [apply (speaks_emit EvMailAbort)|].
  apply speaks_read. intros n. apply speaks_when; [|done]. intros _. apply speaks_policytest. intros _. apply speaks_ret.
Qed.

Lemma speaks_more_lines code st prefix ls : 0 < code -> speaks ok 0 [] (more_lines code st prefix ls).
Proof.
  intros Hc. induction ls as [|l ls IH]; [apply speaks_ret|].
  apply (speaks_bind 0 0 [] []); [|exact IH]. apply speaks_type. by replace (0 <? - code) with false by lia.
Qed.
End speaking.

#[global] Arguments further {cf} ok first c.
#[global] Arguments due {cf} ok c.

(** Walk through a block that only talks. *)
Ltac sp_step :=
  lazymatch goal with
  | |- speaks _ _ _ (read _ ≫= _) => apply speaks_read; intros ?
  | |- speaks _ _ _ (mbind _ (policytest _ _ _ _)) => apply speaks_policytest; intros ?
  | |- speaks _ _ _ (mbind _ _) => eapply speaks_bind
  | |- speaks _ _ _ (mret tt) => apply speaks_ret
  | |- speaks _ _ _ (type _ _ _) => apply speaks_type; reflexivity
  | |- speaks _ _ _ (type_arg _ _ _ _) => apply speaks_type_arg; reflexivity
  | |- speaks _ _ _ (mib _) => apply speaks_mib
  | |- speaks _ _ _ smtp_tarpit => apply speaks_tarpit
  | |- speaks _ _ _ (drop_mail _) => apply speaks_drop_mail
  | |- speaks _ _ _ (more_lines _ _ _ _) => apply speaks_more_lines
  | |- speaks _ _ _ (for_rcpts_from _ _ _) => apply speaks_for_rcpts_from
  | |- speaks _ _ _ (for_rcpts _ _) => apply speaks_for_rcpts
  end.
(** The counts are computed behind the walk. *)
Ltac speak := eapply speaks_eq; [repeat sp_step | | ]; try done.

(** ** The replies with the filter's text *)

Section filter_replies.
Context {cf : Config} {env : Env} {ok : Z}.

Lemma reject_reply_speaks code st ss taspid ls :
  0 < code -> speaks ok (due ok true) [] (reject_reply code st ss taspid ls).
Proof.
  intros Hc. unfold reject_reply.
  assert (speaks ok 1 [] (type (- code) (Some st) ($$"Content-Policy msg: " ++ ss ++ $$"; " ++ taspid);;
    more_lines code st ($$"msg: ") ls;;
    type code (Some st) ($$"Content-Policy analysis rejected this message"))) as Hl.
  { speak. replace (0 <? - code) with false by lia. by replace (0 <? code) with true by lia. }
  eapply speaks_eq; [eapply speaks_bind with (n1 := 1%nat) (d1 := []); [|by apply speaks_for_rcpts_from] | done | done].
  case_bool_decide; [|done]. apply speaks_type. by replace (0 <? code) with true by lia.
Qed.

Lemma freezer_reply_speaks result code st ss taspid ls :
  0 < code -> speaks ok (due ok true) [] (freezer_reply result code st ss taspid ls).
Proof.
  intros Hc. unfold freezer_reply.
  eapply speaks_eq; [eapply speaks_bind with (n1 := 1%nat) (d1 := []); [|apply speaks_for_rcpts_from] | done | done].
  - case_bool_decide; speak; replace (0 <? code) with true by lia; try done.
    by replace (0 <? - code) with false by lia.
  - speak. replace (0 <? - code) with false by lia. by replace (0 <? code) with true by lia.
Qed.

Lemma accept_reply_speaks code st ss taspid ls :
  0 < code -> speaks ok (due ok true) [] (accept_reply code st ss taspid ls).
Proof.
  intros Hc. unfold accept_reply. apply speaks_for_rcpts. case_bool_decide as E; cbn [negb when].
  - speak. by replace (0 <? code) with true by lia.
  - speak. replace (0 <? - code) with false by lia. by replace (0 <? code) with true by lia.
Qed.

(** A code in a reply is positive, whatever the filter says. *)
Lemma default_code_pos other m result :
  0 < other -> 0 < default_code other (ft_code (filter_message result m)).
Proof.
  intros Ho. unfold default_code, filter_message. destruct m as [m|]; [|done].
  destruct (parsestatcode m) as [[code st] s] eqn:E. destruct (split_cr 17 s) as [l ls].
  assert (code = 0 \/ 200 <= code) as Hc.
  { unfold parsestatcode in E. destruct (if _ && _ : bool then _ else _) as [? ?].
    injection E as <- _ _. destruct (_ || _) eqn:Ec; [by left|]. zbool. right. lia. }
  case_bool_decide; cbn [ft_code]; (destruct (code =? 0) eqn:E0; [done|]); zbool; lia.
Qed.
End filter_replies.

(** ** The end of a message *)

Section outcomes.
Context {cf : Config} {env : Env}.

(** [ss] is [ss0] with the assignments [g] done, [n] final replies sent and
    the spool file disposed of as [d] says. *)
Definition after (ss0 : SmtpState) (g : SmtpState -> SmtpState) (n : nat) (d : list event)
    (ss : SmtpState) : Prop :=
  exists evs, ss = set_trace (evs ++ trace ss0) (g ss0) /\ finals evs = n /\ disposals evs = d.

Lemma after_start ss : after ss id 0 [] ss.
Proof. exists []. by destruct ss. Qed.

Lemma after_speak {A} ok n d n2 d2 m (k : unit -> cmd A) ss0 g ss E Q :
  after ss0 g n d ss -> speaks ok n2 d2 m -> ok_rcpt_count (g ss0) = ok ->
  (forall ss', after ss0 g (n + n2) (d2 ++ d) ss' -> wpx (k tt) E Q ss') ->
  wpx (m ≫= k) E Q ss.
Proof.
  intros (e1 & -> & F1 & D1) Hm Hok Hk.
  destruct (Hm (set_trace (e1 ++ trace ss0) (g ss0)) Hok) as (e2 & E2 & F2 & D2).
  apply wpx_bind. unfold wpx at 1. rewrite E2. apply Hk. exists (e2 ++ e1).
  rewrite finals_app, disposals_app, D1, D2. split_and!; [by rewrite <- app_assoc | lia | done].
Qed.

Lemma after_update {A} n d f (k : unit -> cmd A) ss0 g ss E Q :
  after ss0 g n d ss -> (forall t s, f (set_trace t s) = set_trace t (f s)) ->
  (forall ss', after ss0 (f ∘ g) n d ss' -> wpx (k tt) E Q ss') ->
  wpx (update f ≫= k) E Q ss.
Proof.
  intros (e1 & -> & F1 & D1) Hf Hk. apply wpx_bind, wpx_update. apply Hk. exists e1.
  by rewrite Hf.
Qed.

Lemma after_emit ss0 g n d ss e :
  after ss0 g n d ss ->
  after ss0 g ((if is_final e then 1 else 0) + n) ((if is_disposal e then [e] else []) ++ d)
    (set_trace (e :: trace ss) ss).
Proof.
  intros (e1 & -> & F1 & D1). exists (e :: e1). subst. split_and!; [done | by rewrite finals_cons |].
  unfold disposals. cbn. by destruct (is_disposal e).
Qed.

Lemma after_set ss0 g n d ss f :
  after ss0 g n d ss -> (forall t s, f (set_trace t s) = set_trace t (f s)) ->
  after ss0 (f ∘ g) n d (f ss).
Proof. intros (e1 & -> & F1 & D1) Hf. exists e1. by rewrite Hf. Qed.

Lemma after_eq ss0 g g' n n' d d' ss :
  after ss0 g n d ss -> g ss0 = g' ss0 -> n = n' -> d = d' -> after ss0 g' n' d' ss.
Proof. intros (e & -> & F & D) -> <- <-. by exists e. Qed.

(** The last statement of a block. *)
Lemma after_last (m : cmd unit) E Q ss :
  wpx (m ≫= fun _ => mret tt) E Q ss -> wpx m E Q ss.
Proof. unfold wpx, mbind, ex_bind. destruct (m ss) as [[r|[]] s']; done. Qed.

(** What the filter's verdict on the file [b] does with it. *)
Definition verdict (tr : list event) (b : list Z) : Z := ext_contentpolicy (EvContentPolicy b :: tr) b.
Definition disposal_of (result : Z) (suffix b : list Z) : event :=
  if result <? 0 then EvMailAbort
  else if 0 <? result then EvMailAlternate ($$"freezer") suffix b
  else EvMailClose b.
End outcomes.

(** Continue behind a block that only talks, with its number of replies. *)
Ltac af_speak H tac :=
  eapply (after_speak _ _ _ _ _ _ _ _ _ _ _ _ H); [tac; repeat sp_step | done |]; clear H; intros ? H.
Ltac af_update H := eapply (after_update _ _ _ _ _ _ _ _ _ H); [done|]; clear H; intros ? H.

Section outcomes.
Context {cf : Config} {env : Env}.

Lemma data_dispose_spec b taspid tell ss0 ss g n d :
  after ss0 g n d ss ->
  let r := verdict (trace ss) b in
  wpx (data_dispose b taspid tell) (fun _ _ => False)
    (fun _ => after ss0 (set_mfp None ∘ set_policyresult r ∘ g) (n + due (ok_rcpt_count (g ss0)) true)
      (disposal_of r ($$"policy-" ++ dec r) b :: d)) ss.
Proof.
  intros H r. unfold data_dispose. set (ok := ok_rcpt_count (g ss0)).
  apply wpx_bind, wpx_update, wpx_bind, wpx_read. cbn [trace set_trace].
  fold (verdict (trace ss) b). fold r. apply (after_emit _ _ _ _ _ (EvContentPolicy b)) in H.
  cbn [is_final is_disposal app Nat.add] in H.
  cbv zeta. af_update H. unfold policymsg. apply wpx_bind, wpx_read.
  set (t := filter_message _ _). unfold disposal_of. destruct (r <? 0); [|destruct (0 <? r)].
  - af_speak H ltac:(by apply reject_reply_speaks, default_code_pos). af_speak H idtac. af_speak H idtac.
    apply wpx_update. eapply after_eq; [by apply after_set | done | cbn -[due]; try unfold ok; lia | done].
  - apply wpx_bind, wpx_update, wpx_bind, wpx_read. eapply (after_emit _ _ _ _ _ _) in H.
    cbn [is_final is_disposal app Nat.add] in H.
    eapply (after_speak ok _ _ (due ok true) []); [exact H | | done |].
    { destruct (negb _); [by apply speaks_for_rcpts, speaks_type|].
      apply (speaks_bind 0 (due ok true) [] []); [apply speaks_tarpit|].
      by apply freezer_reply_speaks, default_code_pos. }
    clear H. intros s1 H. af_update H. apply after_last. af_speak H idtac.
    apply wpx_ret. eapply after_eq; [exact H | done | cbn -[due]; try unfold ok; lia | done].
  - apply wpx_bind, wpx_update, wpx_bind, wpx_read. eapply (after_emit _ _ _ _ _ _) in H.
    cbn [is_final is_disposal app Nat.add] in H. apply wpx_if; intros _.
    + eapply (after_speak ok _ _ (due ok true) []); [exact H | by apply speaks_for_rcpts, speaks_type_arg | done |].
      clear H. intros s1 H. af_update H. apply after_last. af_speak H idtac.
      apply wpx_ret. eapply after_eq; [exact H | done | cbn -[due]; try unfold ok; lia | done].
    + af_update H. eapply (after_speak ok _ _ (due ok true) []);
        [exact H | by apply accept_reply_speaks, default_code_pos | done |].
      clear H. intros s1 H. apply after_last.
      eapply (after_speak ok _ _ 0 []); [exact H | | done |].
      { speak. }
      clear H. intros s2 H. apply wpx_ret. eapply after_eq; [exact H | done | cbn -[due]; try unfold ok; lia | done].
Qed.

(** ** DATA *)

(** What stands between the envelope and the message. *)
Definition envelope_end (ss : SmtpState) : list Z :=
  $$"env-end" ++ [10] ++
  (if authuser ss is Some u then
     if msa_mode then $$"X-Comment: RFC 2476 MSA function at " ++ myhostname ++
       $$" logged sender identity as: " ++ u ++ [10] else []
   else []).

Lemma end_envelope_run ss b :
  mfp ss = Some b -> end_envelope ss = (inr tt, set_mfp (Some (b ++ envelope_end ss)) ss).
Proof.
  intros Hm. unfold end_envelope, fputs, envelope_end, mbind, ex_bind, read, when. rewrite Hm. cbn.
  destruct (authuser ss); [|done]. destruct msa_mode; [|done]. cbn. by rewrite <- app_assoc.
Qed.

Definition assign_moved (b : list Z) (m : moved) (pr prio : Z) (ss : SmtpState) : SmtpState :=
  (if mv_eof m then set_s_status true else id)
    (set_input (mv_rest m) (set_mfp (Some (b ++ mv_out m))
      (set_mail_priority prio (set_policyresult pr ss)))).

Lemma mvdata_spec ss b :
  mfp ss = Some b ->
  let '(m, pr, prio) := mvdata_run (ext_ferror (trace ss)) (policyresult ss) (input ss) in
  mvdata ss = (inr (mv_cnt m), assign_moved b m pr prio ss).
Proof.
  intros Hm. destruct (mvdata_run _ _ _) as [[m pr] prio] eqn:E.
  unfold mvdata, mbind, ex_bind, read. rewrite Hm, E. cbn. unfold assign_moved, when.
  by destruct (mv_eof m).
Qed.

(** The free space is known anew, or as before. *)
Definition measured (old v : Z) : Prop :=
  exists tr, v = default old (avail_bytes <$> ext_statfs tr).

(** The outcome of a DATA command that got as far as the 354 reply, with
    the file [b] so far and [m] moved to it.  Either the connection ended,
    the file was given up and the session ends; or the message is complete,
    and the file was disposed of as [d] says. *)
Definition transferred (b : list Z) (m : moved) (ss : SmtpState) (rc : Z) (ss' : SmtpState) : Prop :=
  mfp ss' = None /\ input ss' = mv_rest m /\ messagesize ss' = mv_cnt m /\
  smtpfrom ss' = smtpfrom ss /\ irouter_state ss' = irouter_state ss /\
  exists d, disposals (trace ss') = d :: disposals (trace ss) /\
  if mv_eof m || s_status ss then
    rc = -1 /\ replies 1 ss ss' /\ (forall f, d <> EvMailClose f)
  else
    rc = 0 /\ state ss' = MailOrHello /\ replies (1 + due (ok_rcpt_count ss) true) ss ss' /\
    measured (availspace ss) (availspace ss') /\
    exists tr, let f := b ++ envelope_end ss ++ mv_out m in
      d = if (availspace ss' <? 0) || ext_ferror tr || ((0 <? maxsize) && (mv_cnt m >? maxsize))
          then EvMailAbort
          else disposal_of (verdict tr f) ($$"policy-" ++ dec (verdict tr f)) f.

Lemma after_replies ss0 g n d ss :
  after ss0 g n d ss -> replies n ss0 ss /\ disposals (trace ss) = (d ++ disposals (trace ss0)).
Proof.
  intros (evs & -> & F & D). unfold replies. cbn [trace set_trace].
  rewrite finals_app, disposals_app. split; [lia | by rewrite D].
Qed.

Lemma after_read {B} (f : SmtpState -> B) ss0 g n d ss :
  after ss0 g n d ss -> (forall t s, f (set_trace t s) = f s) -> f ss = f (g ss0).
Proof. intros (e & -> & _) Hf. apply Hf. Qed.

(** What DATA moves, for a file that is in error or not. *)
Definition data_moved (ferror : bool) (ss : SmtpState) : moved :=
  (mvdata_run ferror (policyresult ss) (input ss)).1.1.

Lemma measure_space_then {A} ss0 g n d ss (k : unit -> cmd A) E Q :
  after ss0 g n d ss ->
  (forall v ss', measured (availspace (g ss0)) v ->
    after ss0 (set_availspace v ∘ g) n d ss' -> wpx (k tt) E Q ss') ->
  wpx (measure_space ≫= k) E Q ss.
Proof.
  intros H Hk. apply wpx_bind. unfold measure_space. apply wpx_bind, wpx_read.
  destruct (ext_statfs _) as [v|] eqn:Es.
  - apply wpx_update, (Hk (avail_bytes v)); [exists (trace ss); by rewrite Es|]. by apply after_set.
  - apply wpx_ret, (Hk (availspace (g ss0))); [exists (trace ss); by rewrite Es|].
    eapply after_eq; [exact H | | done..].
    cbn. by destruct (g ss0).
Qed.

Lemma spool_id_then (Q : list Z * Z -> SmtpState -> Prop) E ss :
  (forall taspid tell, Q (taspid, tell) ss) -> wpx spool_id E Q ss.
Proof.
  intros HQ. unfold spool_id. apply wpx_bind, wpx_read, wpx_bind, wpx_read.
  destruct (ext_fstat _) as [[ino mtime] ns], (mfp ss); by apply wpx_ret.
Qed.

Lemma premature_eof_spec bad suffix ss0 g n d ss :
  after ss0 g n d ss ->
  wpx (premature_eof bad suffix) (fun r ss' => r = Return (-1) /\
    exists e, (forall f, e <> EvMailClose f) /\ after ss0 (set_mfp None ∘ g) n (e :: d) ss')
    (fun _ _ => False) ss.
Proof.
  intros H. unfold premature_eof. apply wpx_bind, wpx_read, wpx_bind, wpx_read.
  destruct (STYLE _ _).
  - eapply (after_speak (ok_rcpt_count (g ss0))); [exact H | apply speaks_emit | done |].
    clear H. intros ss1 H. af_speak H idtac. af_update H. apply wpx_exit. split; [done|].
    eexists. split; [|eapply after_eq; [exact H | done | cbn; lia | done]]. done.
  - af_speak H idtac. af_speak H idtac. af_update H. apply wpx_exit. split; [done|].
    eexists. split; [|eapply after_eq; [exact H | done | cbn; lia | done]]. done.
Qed.

(** The disposal of a complete message [f] of [size] characters. *)
Definition message_disposal (avail : Z) (tr : list event) (size : Z) (f : list Z) : event :=
  if (avail <? 0) || ext_ferror tr || ((0 <? maxsize) && (size >? maxsize)) then EvMailAbort
  else disposal_of (verdict tr f) ($$"policy-" ++ dec (verdict tr f)) f.

Lemma data_finish_spec filsiz ss0 ss g n f :
  after ss0 g n [] ss -> mfp (g ss0) = Some f ->
  wpx (data_finish filsiz)
    (fun r ss' => r = Return (-1) /\ s_status (g ss0) = true /\
      exists e v, (forall f, e <> EvMailClose f) /\
        after ss0 (set_mfp None ∘ set_availspace v ∘ set_messagesize filsiz ∘ g) n [e] ss')
    (fun _ ss' => s_status (g ss0) = false /\
      exists v tr pr, measured (availspace (g ss0)) v /\ after ss0
        (set_state MailOrHello ∘ set_mfp None ∘ set_policyresult pr ∘ set_availspace v ∘ set_messagesize filsiz ∘ g)
        (n + due (ok_rcpt_count (g ss0)) true) [message_disposal v tr filsiz f] ss') ss.
Proof.
  intros H Hf. unfold data_finish. af_update H. apply wpx_bind. apply spool_id_then. intros taspid tell.
  eapply measure_space_then; [exact H|]. clear H. intros v s1 Hv H. apply wpx_bind, wpx_read.
  rewrite (after_read s_status _ _ _ _ _ H) by done. cbn [compose s_status set_availspace set_messagesize].
  apply wpx_bind. destruct (s_status (g ss0)) eqn:Es; cbn [when].
  { eapply wpx_mono; [by eapply premature_eof_spec | | done].
    intros r s2 (-> & e & He & H2). split_and!; [done..|]. by exists e, v. }
  apply wpx_ret, wpx_bind, wpx_read, wpx_bind, wpx_read, wpx_bind, wpx_read.
  rewrite (after_read availspace _ _ _ _ _ H), (after_read mfp _ _ _ _ _ H) by done.
  cbn [compose availspace mfp set_availspace set_messagesize]. rewrite Hf. cbn [default].
  apply wpx_bind. eapply (wpx_mono _ (fun _ _ => False) _ (fun _ s2 => exists pr,
    after ss0 (set_mfp None ∘ set_policyresult pr ∘ set_availspace v ∘ set_messagesize filsiz ∘ g)
      (n + due (ok_rcpt_count (g ss0)) true) [message_disposal v (trace s1) filsiz f] s2)).
  - unfold message_disposal. destruct ((v <? 0) || ext_ferror (trace s1)); cbn [orb].
    + eapply (after_speak (ok_rcpt_count (g ss0)) _ _ (due (ok_rcpt_count (g ss0)) true) []);
        [exact H | by apply speaks_for_rcpts, speaks_type_arg | done |].
      clear H. intros s2 H. af_speak H idtac. af_speak H idtac. apply wpx_update.
      exists (policyresult (g ss0)). eapply after_eq; [by apply after_set | | cbn -[due]; lia | done].
      cbn. by destruct (g ss0).
    + destruct ((0 <? maxsize) && (filsiz >? maxsize)).
      * af_speak H idtac. af_speak H idtac. af_update H. apply after_last.
        eapply (after_speak (ok_rcpt_count (g ss0)) _ _ (due (ok_rcpt_count (g ss0)) true) []);
          [exact H | by apply speaks_for_rcpts, speaks_type | done |].
        clear H. intros s2 H. apply wpx_ret. exists (policyresult (g ss0)).
        eapply after_eq; [exact H | | cbn -[due]; lia | done]. cbn. by destruct (g ss0).
      * eapply wpx_mono; [eapply data_dispose_spec, H | done |]. cbv beta. intros _ s2 H2.
        exists (verdict (trace s1) f). exact H2.
  - done.
  - intros _ s2 [pr H2]. apply wpx_update. split; [done|]. exists v, (trace s1), pr. split; [exact Hv|]. eapply after_eq; [by apply (after_set _ _ _ _ _ (set_state MailOrHello)) in H2 | done..].
Qed.

Lemma data_transfer_spec ss b :
  mfp ss = Some b ->
  exists tr, let m := data_moved (ext_ferror tr) ss in
  wpx data_transfer (fun r ss' => exists rc, r = Return rc /\ transferred b m ss rc ss')
    (fun _ => transferred b m ss 0) ss.
Proof.
  intros Hm. unfold data_transfer.
  set (ss1 := set_trace (EvReply 354 (type_line 354 None None []) :: trace ss) ss).
  exists (trace ss1). cbv zeta. apply wpx_bind, wpx_update. fold ss1.
  apply wpx_bind. unfold wpx at 1. rewrite (end_envelope_run ss1 b) by done.
  set (f := b ++ envelope_end ss1). set (ss2 := set_mfp (Some f) ss1). apply wpx_bind. unfold wpx at 1.
  pose proof (mvdata_spec ss2 f eq_refl) as Hmv. change (trace ss2) with (trace ss1) in Hmv.
  change (policyresult ss2) with (policyresult ss) in Hmv. change (input ss2) with (input ss) in Hmv.
  unfold data_moved. destruct (mvdata_run _ _ _) as [[m pr] prio]. rewrite Hmv. cbn [fst].
  assert (after ss (assign_moved f m pr prio ∘ set_mfp (Some f)) 1 [] (assign_moved f m pr prio ss2)) as H.
  { exists [EvReply 354 (type_line 354 None None [])]. split_and!; [|done..].
    unfold assign_moved. cbn. by destruct (mv_eof m). }
  set (fin := f ++ mv_out m). assert (mfp ((assign_moved f m pr prio ∘ set_mfp (Some f)) ss) = Some fin) as Hf.
  { cbn. unfold assign_moved. by destruct (mv_eof m). }
  assert (s_status ((assign_moved f m pr prio ∘ set_mfp (Some f)) ss) = mv_eof m || s_status ss) as Hst.
  { cbn. unfold assign_moved. by destruct (mv_eof m). }
  eapply wpx_mono; [by eapply data_finish_spec|..]; cbv beta.
  - intros r ss' (-> & Hs & e & v & He & H2). exists (-1). split; [done|].
    destruct (after_replies _ _ _ _ _ H2) as [Hr Hd]. destruct H2 as (evs & -> & _).
    unfold transferred. rewrite <- Hst, Hs. split_and!; try (cbn; unfold assign_moved; by destruct (mv_eof m)).
    exists e. by split_and!.
  - intros _ ss' (Hs & v & tr & pr' & Hv & H2).
    destruct (after_replies _ _ _ _ _ H2) as [Hr Hd]. destruct H2 as (evs & -> & _).
    unfold transferred. rewrite <- Hst, Hs. split_and!; try (cbn; unfold assign_moved; by destruct (mv_eof m)).
    eexists. split; [exact Hd|]. split_and!; [done | done | | |].
    + unfold assign_moved in Hr. by destruct (mv_eof m).
    + unfold assign_moved in Hv. by destruct (mv_eof m).
    + exists tr. unfold message_disposal, fin, f. by rewrite <- app_assoc.
Qed.

(** The transaction may receive its message. *)
Definition data_ready (ss : SmtpState) : Prop :=
  state ss = RecipientOrData /\ is_some (mfp ss) = true /\ sender_ok ss = true /\ rcpt_count ss <> 0 /\
  (from_box ss = true -> rcpt_count ss <= MaxErrorRecipients).

(** How DATA is refused before the 354 reply: for junk behind the verb; out
    of sequence, which gives up the spool file and leaves the state; for an
    error of the spool file, which does the same; for want of a sender or of
    recipients. *)
Definition data_refused (ss ss' : SmtpState) : Prop :=
  (0 < strict_protocol /\ after ss id 1 [] ss') \/
  (state ss <> RecipientOrData /\
   after ss (set_rcpt_count 0 ∘ set_mfp None) 1 (if mfp ss is Some _ then [EvMailAbort] else []) ss') \/
  (state ss = RecipientOrData /\ (exists tr, ext_ferror tr = true) /\
   after ss (set_mfp None) 1 [EvMailAbort] ss') \/
  (state ss = RecipientOrData /\ ~ data_ready ss /\ after ss (set_mfp None ∘ set_state MailOrHello) 1 [EvMailAbort] ss').

Lemma data_bad_spec ss0 g n d ss E Q :
  after ss0 g n d ss -> (forall ss', after ss0 (set_mfp None ∘ g) n d ss' -> E (Return 0) ss') ->
  wpx (data_bad (A := unit) 0) E Q ss.
Proof.
  intros H HE. unfold data_bad. af_speak H idtac. af_update H. apply wpx_exit, HE.
  eapply after_eq; [exact H | done | lia | done].
Qed.

Lemma data_sequence_spec st ss0 ss :
  after ss0 id 0 [] ss ->
  wpx (data_sequence st) (fun r ss' => r = Return 0 /\
    after ss0 (set_rcpt_count 0 ∘ set_mfp None) 1 (if mfp ss0 is Some _ then [EvMailAbort] else []) ss')
    (fun _ _ => False) ss.
Proof.
  intros H. unfold data_sequence. af_speak H idtac. af_speak H idtac. apply wpx_bind, wpx_read.
  rewrite (after_read mfp _ _ _ _ _ H) by done. cbn [id].
  set (d := if mfp ss0 is Some _ then _ else _). apply wpx_bind.
  apply (wpx_mono _ (fun _ _ => False) _ (fun _ => after ss0 (set_mfp None) 1 d)); [| done |].
  - subst d. destruct (mfp ss0) as [b|] eqn:Em; cbn [is_some when].
    + eapply (after_speak (ok_rcpt_count ss0)); [exact H | apply speaks_emit | done |].
      clear H. intros s2 H. apply wpx_update. eapply after_eq; [by apply after_set | done..].
    + apply wpx_ret. eapply after_eq; [exact H | | done..]. cbn. destruct ss0. cbn in *. by subst.
  - intros _ s2 H2. apply wpx_bind, wpx_read. eapply (after_speak (ok_rcpt_count ss0) _ _ 0 []); [exact H2 | | done |].
    + apply speaks_when; [|done]. intros _. apply speaks_policytest. intros _. apply speaks_ret.
    + intros s3 H3. af_update H3. by apply wpx_exit.
Qed.

Lemma data_checks_spec cp ss :
  session_inv ss ->
  wpx (data_checks cp) (fun r ss' => r = Return 0 /\ data_refused ss ss')
    (fun _ ss' => data_ready ss /\ after ss id 0 [] ss') ss.
Proof.
  intros Hi. pose proof (after_start ss) as H. unfold data_checks.
  af_speak H idtac. apply wpx_bind, wpx_read. af_speak H idtac. af_speak H idtac.
  apply wpx_bind. destruct (_ && _) eqn:Ej; cbn [when].
  { af_speak H idtac. af_speak H idtac. apply wpx_exit. split; [done|]. zbool. by left. }
  apply wpx_ret, wpx_bind, wpx_read. rewrite (after_read state _ _ _ _ _ H) by done. cbn [id].
  apply wpx_bind. unfold cmd_eqb. destruct (bool_decide (state ss = RecipientOrData)) eqn:Est; cbn [negb when].
  2: { apply bool_decide_eq_false in Est. eapply wpx_mono; [by eapply data_sequence_spec | | done].
       intros r s' (-> & H2). split; [done|]. right; left. done. }
  apply bool_decide_eq_true in Est. apply wpx_ret, wpx_bind, wpx_read.
  rewrite (after_read mfp _ _ _ _ _ H) by done. cbn [id].
  destruct Hi as [Hm _]; [by rewrite Est|]. rewrite Hm. cbn [negb when].
  apply wpx_bind, wpx_ret, wpx_bind, wpx_read, wpx_bind.
  destruct (ext_ferror _) eqn:Ef; cbn [when].
  { af_speak H idtac. af_speak H idtac. eapply data_bad_spec; [exact H|].
    intros s' H'. split; [done|]. right; right; left. split_and!; [done | by eexists | exact H']. }
  apply wpx_ret, wpx_bind, wpx_read. rewrite (after_read sender_ok _ _ _ _ _ H) by done. cbn [id].
  apply wpx_bind. destruct (sender_ok ss) eqn:Eso; cbn [negb when].
  2: { af_speak H idtac. af_update H. af_speak H idtac. eapply data_bad_spec; [exact H|].
       intros s' H'. split; [done|]. do 3 right. split_and!; [done | | done]. intros (_ & _ & ? & _). congruence. }
  apply wpx_ret, wpx_bind, wpx_read. rewrite (after_read rcpt_count _ _ _ _ _ H) by done. cbn [id].
  apply wpx_bind. destruct (rcpt_count ss =? 0) eqn:Ern; cbn [negb when].
  { af_speak H idtac. af_update H. af_speak H idtac. eapply data_bad_spec; [exact H|].
    intros s' H'. split; [done|]. do 3 right. split_and!; [done | | done]. intros (_ & _ & _ & ? & _). zbool. congruence. }
  apply wpx_ret, wpx_bind, wpx_read. rewrite (after_read from_box _ _ _ _ _ H) by done. cbn [id].
  destruct (from_box ss && _) eqn:Eb; cbn [when].
  { af_speak H idtac. af_update H. af_speak H idtac. eapply data_bad_spec; [exact H|].
    intros s' H'. split; [done|]. do 3 right. split_and!; [done | | done]. intros (_ & _ & _ & _ & Hb). zbool.
    specialize (Hb ltac:(done)). lia. }
  apply wpx_ret. split; [|exact H]. zbool. split_and!; [done..|].
  intros Hb. rewrite Hb in Eb. cbn in Eb. zbool. destruct Eb as [?|Eb]; [done|]. zbool. lia.
Qed.

Lemma transferred_from b m ss ss1 rc ss' :
  after ss id 0 [] ss1 -> transferred b m ss1 rc ss' -> transferred b m ss rc ss'.
Proof.
  intros H T. destruct (after_replies _ _ _ _ _ H) as [Hr Hd]. destruct H as (evs & -> & _).
  unfold transferred in *. cbn [id smtpfrom irouter_state s_status set_trace ok_rcpt_count] in T.
  destruct T as (? & ? & ? & ? & ? & d & Hd' & T). split_and!; [done..|].
  exists d. split; [etransitivity; [exact Hd' | by f_equal]|]. unfold replies in *. cbn [trace set_trace] in *.
  destruct (mv_eof m || s_status ss).
  - destruct T as (? & ? & ?). split_and!; [done | lia | done].
  - destruct T as (? & ? & ? & ? & T). split_and!; [done | done | lia | done | exact T].
Qed.

Lemma smtp_data_spec buf cp ss :
  session_inv ss ->
  wpx (smtp_data buf cp) (fun _ _ => False) (fun rc ss' =>
    (rc = 0 /\ data_refused ss ss') \/
    (data_ready ss /\ exists b tr, mfp ss = Some b /\
       transferred b (data_moved (ext_ferror tr) ss) ss rc ss')) ss.
Proof.
  intros Hi. apply wpx_catch. unfold data_body. apply wpx_bind.
  eapply wpx_mono; [by apply data_checks_spec|..]; cbv beta.
  { intros r ss' (-> & H). by left. }
  intros _ ss1 (Hr & H1). pose proof Hr as (_ & Hm & _). destruct (mfp ss) as [b|] eqn:Em; [|done].
  destruct (data_transfer_spec ss1 b) as (tr & Ht).
  { by rewrite (after_read mfp _ _ _ _ _ H1). }
  assert (data_moved (ext_ferror tr) ss1 = data_moved (ext_ferror tr) ss) as Emv.
  { unfold data_moved. by rewrite (after_read policyresult _ _ _ _ _ H1), (after_read input _ _ _ _ _ H1). }
  cbv zeta in Ht. rewrite Emv in Ht.
  apply wpx_bind. eapply wpx_mono; [exact Ht|..]; cbv beta.
  - intros r ss' (rc & -> & T). right. split; [done|]. exists b, tr. split; [done|]. by eapply transferred_from.
  - intros _ ss' T. apply wpx_ret. right. split; [done|]. exists b, tr. split; [done|]. by eapply transferred_from.
Qed.

(** ** BDAT *)

(** [ss] is [ss0] with the assignments [g] and something said. *)
Definition behind (ss0 : SmtpState) (g : SmtpState -> SmtpState) (ss : SmtpState) : Prop :=
  exists n d, after ss0 g n d ss.

Lemma behind_eq ss0 g g' ss : behind ss0 g ss -> g ss0 = g' ss0 -> behind ss0 g' ss.
Proof. intros (n & d & H) E. exists n, d. by eapply after_eq. Qed.

Lemma behind_of ss0 g n d ss : after ss0 g n d ss -> behind ss0 g ss.
Proof. by exists n, d. Qed.

Lemma behind_speak {A} n2 d2 m (k : unit -> cmd A) ss0 g ss E Q :
  behind ss0 g ss -> speaks (ok_rcpt_count (g ss0)) n2 d2 m ->
  (forall ss', behind ss0 g ss' -> wpx (k tt) E Q ss') -> wpx (m ≫= k) E Q ss.
Proof.
  intros (n & d & H) Hm Hk. eapply after_speak; [exact H | exact Hm | done |].
  intros ss' H'. apply Hk. by eapply behind_of.
Qed.

Lemma behind_update {A} f (k : unit -> cmd A) ss0 g ss E Q :
  behind ss0 g ss -> (forall t s, f (set_trace t s) = set_trace t (f s)) ->
  (forall ss', behind ss0 (f ∘ g) ss' -> wpx (k tt) E Q ss') -> wpx (update f ≫= k) E Q ss.
Proof.
  intros (n & d & H) Hf Hk. eapply after_update; [exact H | done |].
  intros ss' H'. apply Hk. by eapply behind_of.
Qed.

Lemma behind_read {B} (f : SmtpState -> B) ss0 g ss :
  behind ss0 g ss -> (forall t s, f (set_trace t s) = f s) -> f ss = f (g ss0).
Proof. intros (n & d & H). by eapply after_read. Qed.
End outcomes.

Ltac be_speak H tac :=
  eapply (behind_speak _ _ _ _ _ _ _ _ _ H); [tac; repeat sp_step |]; clear H; intros ? H.
Ltac be_update H := eapply (behind_update _ _ _ _ _ _ _ H); [done|]; clear H; intros ? H.

Section outcomes.
Context {cf : Config} {env : Env}.

Lemma bdat_dispose_spec b taspid size tell ss0 ss g :
  behind ss0 g ss ->
  wpx (bdat_dispose b taspid size tell) (fun _ _ => False)
    (fun _ ss' => exists pr, behind ss0 (set_mfp None ∘ set_policyresult pr ∘ g) ss') ss.
Proof.
  intros H. unfold bdat_dispose. be_speak H ltac:(apply speaks_emit). apply wpx_bind, wpx_read.
  cbv zeta. set (r := ext_contentpolicy _ _). be_update H. unfold policymsg. apply wpx_bind, wpx_read.
  set (t := filter_message _ _). destruct (r <? 0); [|destruct (0 <? r)].
  - be_speak H ltac:(by apply reject_reply_speaks, default_code_pos). be_speak H idtac. be_speak H idtac.
    apply after_last. be_update H. apply wpx_ret. by exists r.
  - be_speak H ltac:(apply speaks_emit). apply wpx_bind, wpx_read. apply wpx_bind.
    apply (wpx_mono _ (fun _ _ => False) _ (fun _ => behind ss0 (set_policyresult r ∘ g))); [|done|].
    + apply after_last. destruct (negb _).
      * be_speak H ltac:(by apply (speaks_bind 1 (further (ok_rcpt_count (g ss0)) 0 true) [] []);
          [apply speaks_type | apply speaks_for_rcpts_from, speaks_type]). by apply wpx_ret.
      * eapply (behind_speak _ _ _ _ _ _ _ _ _ H); [|by intros s2 H2; apply wpx_ret].
        apply (speaks_bind 0 (due (ok_rcpt_count (g ss0)) true) [] []); [apply speaks_tarpit|].
        by apply freezer_reply_speaks, default_code_pos.
    + clear H. intros _ s1 H. be_update H. apply after_last. be_speak H idtac. apply wpx_ret. by exists r.
  - be_speak H ltac:(apply speaks_emit). apply wpx_bind, wpx_read. apply wpx_if; intros _.
    + be_speak H ltac:(by apply speaks_for_rcpts, speaks_type_arg). be_update H. apply after_last.
      be_speak H idtac. apply wpx_ret. by exists r.
    + be_update H. be_speak H ltac:(by apply speaks_for_rcpts, speaks_type). apply after_last.
      eapply (behind_speak 0 []); [exact H | speak |]. intros s2 H2. apply wpx_ret. by exists r.
Qed.

Lemma bdat_bad_spec ss0 g ss E Q :
  behind ss0 g ss -> (forall ss', behind ss0 (set_mfp None ∘ g) ss' -> E (Return 0) ss') ->
  wpx (bdat_bad (A := unit)) E Q ss.
Proof. intros H HE. unfold bdat_bad. be_speak H idtac. be_update H. by apply wpx_exit, HE. Qed.

Lemma drop_if_open_then {A} (k : unit -> cmd A) ss0 g ss E Q :
  behind ss0 g ss -> (forall ss', behind ss0 g ss' -> wpx (k tt) E Q ss') ->
  wpx (drop_if_open ≫= k) E Q ss.
Proof.
  intros H Hk. apply wpx_bind. unfold drop_if_open. apply wpx_bind, wpx_read. apply after_last.
  destruct (is_some _); cbn [when].
  - be_speak H idtac. apply wpx_ret. by apply Hk.
  - apply wpx_bind, wpx_ret, wpx_ret. by apply Hk.
Qed.

Lemma bdat_sequence_spec st last ss0 g ss Q :
  behind ss0 g ss ->
  wpx (bdat_sequence st last) (fun r ss' => r = Return 0 /\ behind ss0 (set_mfp None ∘ g) ss') Q ss.
Proof.
  intros H. unfold bdat_sequence. be_speak H ltac:(by apply speaks_for_rcpts, speaks_type_arg).
  eapply drop_if_open_then; [exact H|]. clear H. intros s1 H. by eapply bdat_bad_spec.
Qed.

Lemma bdat_first_spec last ss0 g ss :
  behind ss0 g ss ->
  wpx (bdat_first last)
    (fun r ss' => r = Return 0 /\ behind ss0 (set_mfp None ∘ set_state MailOrHello ∘ g) ss')
    (fun _ ss' => behind ss0 (set_sender_ok false ∘ set_rcpt_count 0 ∘ g) ss') ss.
Proof.
  intros H. unfold bdat_first. apply wpx_bind, wpx_read, wpx_bind, wpx_read, wpx_bind.
  destruct (_ || _); cbn [when].
  { be_speak H ltac:(by apply speaks_for_rcpts, speaks_type). be_update H.
    eapply drop_if_open_then; [exact H|]. clear H. intros s1 H. by eapply bdat_bad_spec. }
  apply wpx_ret, wpx_bind, wpx_read, wpx_bind. destruct (_ && _); cbn [when].
  { be_speak H ltac:(by apply speaks_for_rcpts, speaks_type). be_update H. be_speak H idtac.
    by eapply bdat_bad_spec. }
  apply wpx_ret. be_update H. apply after_last. be_update H. by apply wpx_ret.
Qed.

Lemma bdat_finish_spec size last taspid tell ss0 g ss :
  behind ss0 g ss ->
  wpx (bdat_finish size last taspid tell)
    (fun r ss' => r = Return (-1) /\ behind ss0 (set_mfp None ∘ g) ss')
    (fun _ ss' => behind ss0 g ss' \/ exists pr, behind ss0 (set_mfp None ∘ set_policyresult pr ∘ g) ss') ss.
Proof.
  intros H. unfold bdat_finish. apply wpx_bind, wpx_read, wpx_bind, wpx_read, wpx_bind, wpx_read, wpx_bind, wpx_read.
  assert (forall ss', behind ss0 (set_mfp None ∘ g) ss' -> behind ss0 g ss' \/
    exists pr, behind ss0 (set_mfp None ∘ set_policyresult pr ∘ g) ss') as Hnone.
  { intros ss' H'. right. exists (policyresult (g ss0)). eapply behind_eq; [exact H'|]. cbn. by destruct (g ss0). }
  destruct (mfp ss) as [b|].
  2: { be_speak H ltac:(by apply speaks_for_rcpts, speaks_type). apply after_last. be_speak H idtac.
       apply wpx_ret. by left. }
  destruct (s_status ss).
  { destruct H as (n & d & H). eapply wpx_mono; [by eapply premature_eof_spec | | done].
    intros r ss' (-> & e & _ & H'). split; [done|]. by eapply behind_of. }
  destruct (_ || _).
  { be_speak H ltac:(by apply speaks_for_rcpts, speaks_type_arg). be_speak H idtac. be_speak H idtac.
    apply after_last. be_update H. apply wpx_ret. auto. }
  destruct (_ && _).
  { be_speak H idtac. be_speak H idtac. be_update H. apply after_last.
    be_speak H ltac:(by apply speaks_for_rcpts, speaks_type). apply wpx_ret. auto. }
  destruct last.
  - eapply wpx_mono; [by eapply bdat_dispose_spec | done |]. cbv beta. intros _ s2 H2. by right.
  - apply after_last. be_speak H idtac. apply wpx_ret. by left.
Qed.

(** A block was written, or not; the transaction is the same. *)
Definition carried (ss ss' : SmtpState) : Prop :=
  state ss' = state ss /\ smtpfrom ss' = smtpfrom ss /\ irouter_state ss' = irouter_state ss /\
  is_some (mfp ss') = is_some (mfp ss).

Lemma carried_trans s1 s2 s3 : carried s1 s2 -> carried s2 s3 -> carried s1 s3.
Proof. intros (?&?&?&?) (?&?&?&?). unfold carried. split_and!; congruence. Qed.

Lemma mvbdata_spec n ss : wpx (mvbdata n) (fun _ _ => False) (fun _ => carried ss) ss.
Proof.
  unfold mvbdata. apply wpx_bind, wpx_read, wpx_bind, wpx_read, wpx_bind, wpx_read, wpx_bind, wpx_read.
  destruct (mvbblock _ _ _ _ _) as [m mvb]. apply wpx_bind, wpx_update, wpx_bind.
  apply (wpx_mono _ (fun _ _ => False) _ (fun _ => carried ss)); [|done|].
  - destruct (negb _); cbn [when]; [|by apply wpx_ret]. destruct (mfp ss) eqn:E; [apply wpx_update | apply wpx_ret];
      unfold carried; cbn; by rewrite E.
  - intros _ s1 H. apply wpx_bind, wpx_update, wpx_bind. destruct (mv_eof m); cbn [when].
    + by apply wpx_update, wpx_ret.
    + by apply wpx_ret, wpx_ret.
Qed.

Lemma end_envelope_then {A} (b : bool) (k : unit -> cmd A) E Q ss :
  (b = true -> is_some (mfp ss) = true) ->
  (forall ss', carried ss ss' -> wpx (k tt) E Q ss') -> wpx (when b end_envelope ≫= k) E Q ss.
Proof.
  intros Hb Hk. apply wpx_bind. destruct b; cbn [when]; [|by apply wpx_ret, Hk].
  destruct (mfp ss) as [f|] eqn:Em; [|by specialize (Hb eq_refl)].
  unfold wpx at 1. rewrite (end_envelope_run ss f) by done. apply Hk. unfold carried. cbn. by rewrite Em.
Qed.

(** The outcome of BDAT.  The session may end; else the command was refused
    for its syntax, or came out of sequence, or the transaction has become
    one of blocks, or it is over. *)
Definition bdat_outcome (ss : SmtpState) (rc : Z) (ss' : SmtpState) : Prop :=
  irouter_state ss' = irouter_state ss /\ smtpfrom ss' = smtpfrom ss /\
  (rc = -1 \/ (rc = 0 /\
    ((state ss <> RecipientOrData /\ state ss' = state ss /\ mfp ss' = mfp ss) \/
     state ss' = BData \/ state ss' = MailOrHello \/
     (state ss <> RecipientOrData /\ state ss <> BData /\ state ss' = state ss /\ mfp ss' = None)))).

Definition block_outcome (ss : SmtpState) (rc : Z) (ss' : SmtpState) : Prop :=
  irouter_state ss' = irouter_state ss /\ smtpfrom ss' = smtpfrom ss /\
  (rc = -1 \/ (rc = 0 /\
    ((state ss = BData /\ (state ss' = BData \/ state ss' = MailOrHello)) \/
     (state ss <> BData /\ state ss' = state ss /\ mfp ss' = None)))).

Lemma block_outcome_carried ss ss1 rc ss' :
  carried ss ss1 -> block_outcome ss1 rc ss' -> block_outcome ss rc ss'.
Proof. intros (Hst & Hf & Hi & _). unfold block_outcome. by rewrite Hst, Hf, Hi. Qed.

Lemma bdat_block_spec size last ss :
  (state ss = BData -> is_some (mfp ss) = true) ->
  wpx (bdat_block size last) (fun r ss' => exists rc, r = Return rc /\ block_outcome ss rc ss')
    (fun rc ss' => block_outcome ss rc ss') ss.
Proof.
  intros Hm. unfold bdat_block. apply wpx_bind, wpx_read, wpx_bind, wpx_read.
  apply end_envelope_then. { intros Hb. by apply andb_prop in Hb as [_ Hb]. }
  intros s1 C1. apply wpx_bind. eapply wpx_mono; [apply mvbdata_spec | done |].
  cbv beta. intros filsiz s2 C2. assert (carried ss s2) as C by by eapply carried_trans.
  apply wpx_bind, wpx_update. set (s3 := set_messagesize _ s2). assert (carried ss s3) as C3 by done.
  clearbody s3. clear C1 C2 C s1 s2. apply wpx_bind, spool_id_then. intros taspid tell.
  eapply wpx_mono with (E := fun r ss' => exists rc, r = Return rc /\ block_outcome s3 rc ss')
    (Q := fun rc ss' => block_outcome s3 rc ss');
    [|intros r ss' (rc & -> & HO); exists rc; split; [done|]; by eapply block_outcome_carried
     |intros rc ss' HO; by eapply block_outcome_carried].
  assert (state s3 = BData -> is_some (mfp s3) = true) as Hm3.
  { destruct C3 as (-> & _ & _ & ->). done. }
  generalize (bdata_blocknum ss) as k. intros k. clear C3 Hm ss. pose proof (behind_of _ _ _ _ _ (after_start s3)) as H.
  apply wpx_bind, wpx_read, wpx_bind. unfold cmd_eqb. case_bool_decide as Est; cbn [negb when].
  2: { eapply wpx_mono; [by eapply (bdat_sequence_spec _ _ _ _ _ (fun _ _ => False)) | | done].
       intros r s4 (-> & (n & d & evs & -> & _)). exists 0. split; [done|].
       split_and!; [done..|]. right. split; [done|]. by right. }
  apply wpx_ret, wpx_bind.
  apply (wpx_mono _ (fun r ss' => r = Return 0 /\ behind s3 (set_mfp None ∘ set_state MailOrHello) ss') _
    (fun _ ss' => behind s3 id ss' \/ behind s3 (set_sender_ok false ∘ set_rcpt_count 0) ss')).
  { destruct (_ =? 1); cbn [when]; [|apply wpx_ret; by left].
    eapply wpx_mono; [by eapply bdat_first_spec | done |]. cbv beta. intros _ s4 H4. by right. }
  { intros r s4 (-> & (n & d & evs & -> & _)). exists 0. split; [done|].
    split_and!; [done..|]. right. split; [done|]. left. split; [done|]. by right. }
  clear H. intros _ s4 H.
  assert (exists g, behind s3 g s4 /\ mfp (g s3) = mfp s3 /\ state (g s3) = state s3 /\
    smtpfrom (g s3) = smtpfrom s3 /\ irouter_state (g s3) = irouter_state s3) as (g & H4 & Gm & Gst & Gf & Gi).
  { destruct H as [H|H]; eexists; (split; [exact H|]); done. }
  clear H. apply wpx_bind, wpx_read. rewrite (behind_read mfp _ _ _ H4) by done. rewrite Gm, Hm3 by done. cbn [negb when].
  apply wpx_bind, wpx_ret. destruct H4 as (n & d & H4). eapply measure_space_then; [exact H4|].
  clear H4. intros v s5 _ H5. apply wpx_bind.
  eapply wpx_mono; [eapply bdat_finish_spec, behind_of, H5|..]; cbv beta.
  - intros r s6 (-> & (n6 & d6 & evs & -> & _)). exists (-1). split; [done|]. split_and!; [done..|]. by left.
  - intros _ s6 H6. apply wpx_bind.
    assert (irouter_state s6 = irouter_state s3 /\ smtpfrom s6 = smtpfrom s3 /\ state s6 = BData) as (Hi6 & Hf6 & Hst6).
    { destruct H6 as [(n6 & d6 & evs & -> & _) | (pr & n6 & d6 & evs & -> & _)]; cbn; split_and!; congruence. }
    destruct last; cbn [when]; [apply wpx_update, wpx_ret | apply wpx_ret, wpx_ret];
      (split_and!; [done..|]; right; split; [done|]; left; split; [done|]); [by right | by left].
Qed.

Lemma smtp_bdata_spec buf cp ss :
  session_inv ss -> (state ss = BData -> is_some (mfp ss) = true) ->
  wpx (smtp_bdata buf cp) (fun _ _ => False) (fun rc ss' => bdat_outcome ss rc ss') ss.
Proof.
  intros Hi Hb. apply wpx_catch. unfold bdat_body. pose proof (after_start ss) as H.
  af_speak H idtac. apply wpx_bind, wpx_read. af_speak H idtac. af_speak H idtac.
  apply wpx_bind, wpx_read. rewrite (after_read state _ _ _ _ _ H) by done. cbn [id].
  apply wpx_bind. apply (wpx_mono _ (fun _ _ => False) _ (fun _ s1 =>
    (state ss = RecipientOrData /\ state s1 = BData \/ state ss <> RecipientOrData /\ state s1 = state ss) /\
    mfp s1 = mfp ss /\ smtpfrom s1 = smtpfrom ss /\ irouter_state s1 = irouter_state ss)); [|done|].
  { unfold cmd_eqb. destruct H as (evs & -> & _). case_bool_decide; cbn [when].
    - wpx_steps. split; [by left | done].
    - apply wpx_ret. split; [by right | done]. }
  clear H. intros _ s1 (Hst & Hm & Hf & Hr). apply wpx_bind, wpx_update. set (s2 := set_bdata_blocknum _ s1).
  destruct (bdat_args _) as [[size last]|].
  - assert (state s2 = BData -> is_some (mfp s2) = true) as Hb2.
    { intros E. cbn in *. rewrite Hm. destruct Hst as [[E0 _]|[_ E1]].
      - apply Hi. by rewrite E0.
      - apply Hb. congruence. }
    assert (forall rc s3, block_outcome s2 rc s3 -> bdat_outcome ss rc s3) as HO.
    { intros rc s3 (O1 & O2 & O3). unfold bdat_outcome. cbn in O1, O2, O3. rewrite O1, O2.
      split_and!; [done..|]. destruct O3 as [?|[-> O3]]; [by left|]. right. split; [done|].
      destruct O3 as [[_ [?|?]]|(O3 & O4 & O5)]; [by right; left | by right; right; left |].
      destruct Hst as [[_ ?]|[? E]]; [done|]. right; right; right. split_and!; congruence. }
    eapply wpx_mono; [by apply bdat_block_spec|..]; cbv beta.
    + intros r s3 (rc & -> & O). by apply HO.
    + intros rc s3 O. by apply HO.
  - unfold type_arg, mib, emit. wpx_steps. unfold bdat_outcome. cbn. rewrite Hr, Hf, Hm.
    split_and!; [done..|]. right. split; [done|]. destruct Hst as [[_ ?]|[? ?]]; [right; by left | by left].
Qed.
End outcomes.
