(* ===== verification/SmtpMail.v ===== *)
(** * The MAIL command

    What smtp_mail() of smtpserver/smtpcmds.c does to the session: it
    answers exactly once, never uses a bad pointer, and either leaves the
    mail transaction alone or starts a new one. *)

From Stdlib Require Import ZArith Lia.
From stdpp Require Import base tactics numbers list option.
From S2P Require Import Prelude StrMatch Rfc821 Rfc821Grammar Rfc821Complete SmtpState SmtpCmds SmtpSpec.
Import Grammar.

#[local] Open Scope Z_scope.

(** ** Blocks that write the spool file *)

(** With the file open, [m] appends a text of [P] to it and does nothing else. *)
Definition writes (m : cmd unit) (P : list Z -> Prop) : Prop :=
  forall ss b, mfp ss = Some b ->
  wpx m (fun _ _ => False) (fun _ ss' => exists w, P w /\ ss' = set_mfp (Some (b ++ w)) ss) ss.

Section writing.
Context {cf : Config} {env : Env}.

Lemma set_mfp_id ss b : mfp ss = Some b -> set_mfp (Some (b ++ [])) ss = ss.
Proof. destruct ss. cbn. intros ->. by rewrite app_nil_r. Qed.

Lemma writes_ret (P : list Z -> Prop) : P [] -> writes (mret tt) P.
Proof. intros HP ss b Hb. apply wpx_ret. exists []. by rewrite set_mfp_id. Qed.

Lemma writes_fputs l : writes (fputs l) (eq l).
Proof.
  intros ss b Hb. unfold fputs. apply wpx_bind, wpx_read. rewrite Hb. apply wpx_update. by exists l.
Qed.

Lemma writes_bind m (k : cmd unit) P Q R :
  writes m P -> writes k Q -> (forall v w, P v -> Q w -> R (v ++ w)) -> writes (m;; k) R.
Proof.
  intros Hm Hk HR ss b Hb. apply wpx_bind. eapply wpx_mono; [by apply Hm|done|].
  cbv beta. intros _ ss1 (v & Hv & ->). eapply wpx_mono; [by apply Hk|done|].
  cbv beta. intros _ ss2 (w & Hw & ->). exists (v ++ w). split; [auto|]. by rewrite app_assoc.
Qed.

Lemma writes_weaken m (P Q : list Z -> Prop) : writes m P -> (forall w, P w -> Q w) -> writes m Q.
Proof.
  intros Hm HPQ ss b Hb. eapply wpx_mono; [by apply Hm|done|]. intros _ ss' (w & ? & ->). exists w. auto.
Qed.

Lemma writes_read {A} (f : SmtpState -> A) (k : A -> cmd unit) P :
  (forall a, writes (k a) P) -> writes (read f ≫= k) P.
Proof. intros Hk ss b Hb. apply wpx_bind, wpx_read. by apply Hk. Qed.

Lemma writes_when b m : writes m anything -> writes (when b m) anything.
Proof. intros H. destruct b; [done|]. by apply writes_ret. Qed.

Lemma writes_fwrite p n : 0 <= n -> writes (fwrite p n) (eq (take (Z.to_nat n) (mem p))).
Proof. intros Hn. unfold fwrite. replace (n <? 0) with false by lia. apply writes_fputs. Qed.

Lemma writes_seq m k : writes m anything -> writes k anything -> writes (m;; k) anything.
Proof. intros Hm Hk. by eapply writes_bind. Qed.
End writing.

Ltac w_steps :=
  repeat lazymatch goal with
  | |- writes (mbind _ (read _)) _ => apply writes_read; intros ?
  | |- writes (when _ _) anything => apply writes_when
  | |- writes (mbind (fun _ => _) _) anything => apply writes_seq
  | |- writes (fputs _) anything => eapply writes_weaken; [apply writes_fputs | done]
  | |- writes (rfc822commentprint _) anything => eapply writes_weaken; [apply writes_fputs | done]
  | |- writes (mret _) _ => apply writes_ret
  | |- writes (match ?o with Some _ => _ | None => _ end) _ => destruct o
  end.

Section mail.
Context {cf : Config} {env : Env}.

Lemma writes_mail_origin insecure : writes (mail_origin insecure) anything.
Proof. unfold mail_origin. w_steps; done. Qed.

Lemma writes_mail_with o : writes (mail_with o) anything.
Proof. unfold mail_with. w_steps; done. Qed.

(** The line that carries the sender. *)
Definition from_line (addrlen : Z) (cp : ptr) : list Z :=
  if addrlen =? 0 then $$"channel error" ++ [10]
  else $$"from <" ++ take (Z.to_nat addrlen) (mem cp) ++ $$">" ++ [10].

Lemma writes_from_line cp addrlen : 0 <= addrlen ->
  writes (if addrlen =? 0 then fputs ($$"channel error" ++ [10])
          else fputs ($$"from <");; fwrite cp addrlen;; fputs ($$">" ++ [10]))
    (eq (from_line addrlen cp)).
Proof.
  intros Hn. unfold from_line. destruct (addrlen =? 0); [apply writes_fputs|].
  eapply writes_bind with (Q := eq (take (Z.to_nat addrlen) (mem cp) ++ $$">" ++ [10]));
    [apply writes_fputs | | by intros ? ? <- <-].
  eapply writes_bind; [by apply writes_fwrite | apply writes_fputs | by intros ? ? <- <-].
Qed.

Lemma mail_from_spec o cp addrlen ss b :
  0 <= addrlen -> mfp ss = Some b ->
  wpx (mail_from o cp addrlen) (fun _ _ => False) (fun _ ss' => exists w,
    ss' = set_mfp (Some (b ++ from_line addrlen cp ++ w))
            (set_smtpfrom (Some (take (Z.to_nat addrlen) (mem cp))) ss)) ss.
Proof.
  intros Hn Hb. unfold mail_from. apply wpx_bind, wpx_update.
  eapply (wpx_mono _ (fun _ _ => False)); [|done|].
  - eapply writes_bind with (Q := anything) (R := fun t => exists w, t = from_line addrlen cp ++ w);
      [by apply writes_from_line | | | cbn; exact Hb].
    + w_steps; done.
    + intros v w <- _. by exists w.
  - cbv beta. intros _ ss' (w & (w' & ->) & ->). by exists w'.
Qed.

Lemma abort_mail_spec ss :
  wpx abort_mail (fun _ _ => False) (fun _ ss' =>
    mfp ss' = None /\ state ss' = state ss /\ smtpfrom ss' = smtpfrom ss /\
    replies 0 ss ss' /\ irouter_state ss' = irouter_state ss) ss.
Proof.
  unfold abort_mail, policytest, emit, replies. wpx_steps. cbn [trace set_trace mfp set_mfp].
  by rewrite !finals_cons.
Qed.

(** A transaction was started, or the file was given up. *)
Definition mail_started (b : list Z) (ss ss' : SmtpState) : Prop :=
  smtpfrom ss' = smtpfrom ss /\
  ((mfp ss' = Some b /\ state ss' = Recipient /\ sender_ok ss' = true /\
    (0 < maxsize -> sizeoptval ss' <= maxsize) /\ sizeoptval ss' <= availspace ss') \/
   (mfp ss' = None /\ state ss' = state ss)).

(** The end of smtp_mail(), behind the reply. *)
Lemma mail_tail_spec addrlen ss :
  wpx (f ← read mfp; when (is_some f) (update (set_state Recipient));;
       update (set_from_box (addrlen =? 0))) (fun _ _ => False)
    (fun _ ss' => ss' = set_from_box (addrlen =? 0)
       (if is_some (mfp ss) then set_state Recipient ss else ss)) ss.
Proof. wpx_steps. by destruct (mfp ss). Qed.

Lemma refused_file_spec code st fmt arg ss :
  0 < code ->
  wpx (smtp_tarpit;; type_arg code st fmt arg;; abort_mail) (fun _ _ => False) (fun _ ss' =>
    mfp ss' = None /\ state ss' = state ss /\ smtpfrom ss' = smtpfrom ss /\
    replies 1 ss ss' /\ irouter_state ss' = irouter_state ss) ss.
Proof.
  intros Hc. unfold smtp_tarpit, type_arg, emit. wpx_steps.
  eapply wpx_mono; [apply abort_mail_spec|done|].
  cbv beta. intros _ ss' (? & ? & ? & Hr & ?). split_and!; try done.
  unfold replies in *. cbn [trace set_trace] in Hr. rewrite !finals_cons in Hr. cbn [is_final] in Hr.
  replace (0 <? code) with true in Hr by lia. done.
Qed.

Lemma accepted_file_spec r note ss b :
  (forall s, r = Some s -> 200 <= atoi s < 300) -> mfp ss = Some b ->
  wpx (match r with
       | Some s =>
           when (400 <=? atoi s) (smtp_tarpit;; abort_mail);;
           type (atoi s) None (drop 4 s ++ $$"; Ok")
       | None => type 250 (Some ($$"2.1.0")) ($$"Sender syntax Ok; " ++ note)
       end;; update (set_sender_ok true)) (fun _ _ => False)
    (fun _ ss' => exists line code, 0 < code /\
       ss' = set_sender_ok true (set_trace (EvReply code line :: trace ss) ss)) ss.
Proof.
  intros Hr Hb. unfold type, type_arg, emit. destruct r as [s|].
  - specialize (Hr s eq_refl). replace (400 <=? atoi s) with false by lia. cbn [when].
    wpx_steps. eexists _, _. split; [|reflexivity]. lia.
  - wpx_steps. eexists _, _. split; [|reflexivity]. lia.
Qed.

Lemma mail_finish_spec r note addrlen ss b :
  (forall s, r = Some s -> 200 <= atoi s < 300) -> mfp ss = Some b ->
  wpx (mail_finish r note addrlen) (fun _ _ => False) (fun _ ss' =>
    replies 1 ss ss' /\ irouter_state ss' = irouter_state ss /\ mail_started b ss ss') ss.
Proof.
  intros Hr Hb. unfold mail_finish. apply wpx_bind, wpx_read, wpx_bind.
  apply wpx_mono with (E := fun _ _ => False) (Q := fun _ ss1 => exists a, ss1 = set_availspace a ss).
  { destruct (ext_statfs _); [apply wpx_update; eauto|]. apply wpx_ret. exists (availspace ss). by destruct ss. }
  { done. }
  intros _ ss1 (a & ->). do 2 apply wpx_bind, wpx_read. apply wpx_bind.
  repeat (apply wpx_if; intros ?);
    (eapply (wpx_mono _ (fun _ _ => False)); [| done |]);
    try (by apply refused_file_spec); try (by apply (accepted_file_spec _ _ _ b)); cbv beta.
  1-3: intros _ ss2 (Hm & Hst & Hf & Hrep & Hi);
    (eapply wpx_mono; [apply mail_tail_spec|done|]); cbv beta; intros _ ss3 ->;
    rewrite Hm; cbn; split_and!; [exact Hrep | done | split; [done|]; right; done].
  intros _ ss2 (line & code & Hc & ->).
  eapply wpx_mono; [apply mail_tail_spec|done|]. cbv beta. intros _ ss3 ->. cbn. rewrite Hb. cbn.
  split_and!; [|done|].
  - unfold replies. cbn. rewrite finals_cons. cbn. by replace (0 <? code) with true by lia.
  - split; [done|]. left. cbn in *. split_and!; try done; zbool; lia.
Qed.

(** Opening the spool file: it is there and empty, or the command ends. *)
Lemma mail_open_spec ss :
  sane ss ->
  wpx mail_open_spool (left_guard ss) (fun _ ss' =>
    replies 0 ss ss' /\ sane ss' /\ mfp ss' = Some [] /\ state ss' = state ss) ss.
Proof.
  intros Hs. unfold mail_open_spool. apply wpx_bind, wpx_read, wpx_bind.
  apply wpx_mono with (E := left_guard ss)
    (Q := fun _ ss1 => replies 0 ss ss1 /\ sane ss1 /\ state ss1 = state ss).
  - destruct (mfp ss) eqn:Em; [by apply wpx_ret|].
    apply wpx_bind, wpx_read, wpx_if; intros _.
    + unfold emit. wpx_steps. unfold replies. cbn. by rewrite finals_cons.
    + eapply wpx_mono; [by apply leaving_tarpit_reply|done|]. by intros ? ? (_ & _ & _ & []).
  - done.
  - intros _ ss1 (Hr & Hs1 & Hst). wpx_steps. by split_and!.
Qed.

(** The handler from the point where the sender was accepted. *)
Lemma mail_spool_spec insecure o cp addrlen r note ss :
  sane ss -> 0 <= addrlen -> (forall s, r = Some s -> 200 <= atoi s < 300) ->
  wpx (mail_open_spool;; mail_origin insecure;; mail_with o;; mail_from o cp addrlen;;
       mail_finish r note addrlen;; mret 0) (left_guard ss)
    (fun rc ss' => rc = 0 /\ replies 1 ss ss' /\ sane ss' /\
       smtpfrom ss' = Some (take (Z.to_nat addrlen) (mem cp)) /\
       ((mfp ss' = None /\ state ss' = state ss) \/
        (state ss' = Recipient /\ sender_ok ss' = true /\
         (0 < maxsize -> sizeoptval ss' <= maxsize) /\ sizeoptval ss' <= availspace ss' /\
         exists v w, mfp ss' = Some (v ++ from_line addrlen cp ++ w)))) ss.
Proof.
  intros Hs Hn Hr. apply wpx_bind. eapply wpx_mono; [by apply mail_open_spec|done|].
  cbv beta. intros _ ss1 (Hr1 & Hs1 & Hm1 & Hst1).
  apply wpx_bind. eapply wpx_mono; [by apply writes_mail_origin|done|].
  cbv beta. intros _ ss2 (w1 & _ & ->).
  apply wpx_bind. eapply wpx_mono; [by apply writes_mail_with|done|].
  cbv beta. intros _ ss3 (w2 & _ & ->).
  apply wpx_bind. eapply wpx_mono; [by apply mail_from_spec|done|].
  cbv beta. intros _ ss4 (w3 & ->).
  apply wpx_bind. eapply wpx_mono; [by apply mail_finish_spec|done|].
  cbv beta. intros _ ss5 (Hr5 & Hi5 & Hf5 & Hend). apply wpx_ret.
  split_and!; [done | unfold replies in *; cbn in Hr5; lia | | exact Hf5 |].
  - intros st E. rewrite Hi5 in E. by apply Hs1.
  - destruct Hend as [(Hm & Hst & Hok & Hmax & Hav) | [Hm Hst]].
    + right. split_and!; [done..|]. exists (([] ++ w1) ++ w2), w3. exact Hm.
    + left. split; [done|]. by rewrite Hst.
Qed.

(** The address, quoted if need be, stays inside its buffer. *)
Lemma quote_bounds cp addrlen cp' addrlen' :
  0 <= addrlen -> rfc821to822quote cp addrlen = (cp', addrlen') -> 0 <= addrlen'.
Proof.
  unfold rfc821to822quote. intros Hn. destruct (_ && _); [|by intros [= <- <-]].
  destruct (quote_loop _ _) as [[o k] r]. intros [= <- <-]. lia.
Qed.

(** What [smtp_mail] does, from any session state. *)
Definition mail_outcome (ss : SmtpState) (rc : Z) (ss' : SmtpState) : Prop :=
  replies 1 ss ss' /\ sane ss' /\
  ((rc = -1 /\ same_transaction ss ss') \/
   (rc = 0 /\ in_transaction (state ss) = false /\ exists cp addrlen, smtpfrom ss' = Some (take (Z.to_nat addrlen) (mem cp)) /\
      ((mfp ss' = None /\ state ss' = state ss) \/
       (state ss' = Recipient /\ sender_ok ss' = true /\
        (0 < maxsize -> sizeoptval ss' <= maxsize) /\ sizeoptval ss' <= availspace ss' /\
        exists v w, mfp ss' = Some (v ++ from_line addrlen cp ++ w))))).

Lemma smtp_mail_spec {SR : SaneRouter} buf cp insecure ss :
  sane ss -> wpx (smtp_mail buf cp insecure) (fun _ _ => False) (mail_outcome ss) ss.
Proof.
  intros Hs. apply wpx_catch. unfold mail_body.
  set (E := fun r ss' => if r is Return rc then mail_outcome ss rc ss' else False).
  assert (forall ss0 r ss', same_transaction ss ss0 -> replies 0 ss ss0 ->
    left_guard ss0 r ss' -> E r ss') as HE0.
  { intros ss0 r ss' Hs0 Hr0 (-> & [Hc _] & Hr & Hs'). unfold E, mail_outcome, replies in *.
    split_and!; [lia | done |]. left. split; [done | by etransitivity]. }
  assert (forall r ss', left_guard ss r ss' -> E r ss') as HE by (intros; by eapply HE0).
  assert (same_mail ss ss) as H0 by done. assert (replies 0 ss ss) as R0 by done.
  eapply guarded_then; [apply guarded_strict_sloppy | done..|]. intros [strict sloppy] ss1 H1 R1 S1 _.
  apply wpx_bind. eapply wpx_mono; [by apply mail_state_check_spec|..].
  { intros r ss'. apply HE0; [apply H1 | done]. }
  cbv beta. intros _ ss2 (T2 & R2' & S2 & Hin & _).
  assert (in_transaction (state ss) = false) as Hout.
  { assert (state ss1 = state ss) as <- by apply H1. by destruct Hin as [-> | ->]. }
  assert (same_transaction ss ss2) as T by (etransitivity; [apply H1 | done]).
  assert (replies 0 ss ss2) as R2 by (unfold replies in *; lia). clear ss1 H1 R1 S1 T2 R2' Hin H0 R0 HE.
  assert (forall r ss', left_guard ss2 r ss' -> E r ss') as HE by (intros; by eapply HE0).
  assert (same_mail ss2 ss2) as H0 by done. assert (replies 0 ss2 ss2) as R0 by done.
  eapply guarded_then; [apply guarded_mail_find_path | done..|]. intros cp3 ss3 H3 R3 S3 _.
  eapply guarded_then; [apply guarded_mail_path | done..|].
  intros [[[cp4 n4] s4] note] ss4 H4 R4 S4 Hn4.
  eapply guarded_then; [apply guarded_mail_options | done..|]. intros o ss5 H5 R5 S5 _.
  destruct (rfc821to822quote cp4 n4) as [cp6 n6] eqn:Eq.
  assert (0 <= n6) as Hn by (eapply quote_bounds; [|exact Eq]; apply Hn4).
  eapply guarded_then; [apply guarded_mail_policy | done..|]. intros _ ss7 H7 R7 S7 _.
  eapply guarded_then; [apply guarded_read | done..|]. intros info ss8 H8 R8 S8 _.
  eapply guarded_then; [apply guarded_ask_router | done..|]. intros r ss9 H9 R9 S9 Hr.
  eapply wpx_mono; [by apply mail_spool_spec|..].
  - intros x ss' (-> & Hc & Hrep & Hs'). apply HE. unfold left_guard, replies in *.
    split_and!; [done | by etransitivity | lia | done].
  - cbv beta. intros rc ss' (-> & Hrep & Hs' & Hf & Hend). unfold mail_outcome, replies in *.
    split_and!; [lia | done |]. right. split_and!; [done..|]. exists cp6, n6. split; [done|].
    destruct Hend as [[Hm Hst] | Hend]; [left | by right]. split; [done|].
    rewrite Hst. destruct T as (_ & <- & _). apply H9.
Qed.
End mail.
