(* ===== verification/SmtpRcpt.v ===== *)
(** * The RCPT command

    What smtp_rcpt() of smtpserver/smtpcmds.c does within a mail
    transaction: one final reply, no use of a bad pointer, and the lines it
    adds to the spool file. *)

From Stdlib Require Import ZArith Lia.
From stdpp Require Import base tactics numbers list option.
From S2P Require Import Prelude StrMatch Rfc821 Rfc821Grammar Rfc821Complete.
From S2P Require Import SmtpState SmtpCmds SmtpSpec SmtpMail.
Import Grammar.

#[local] Open Scope Z_scope.

Section rcpt.
Context {cf : Config} {env : Env}.

Lemma rcpt_state_check_spec ss :
  sane ss ->
  wpx rcpt_state_check (left_guard ss) (fun _ ss' =>
    same_mail ss ss' /\ replies 0 ss ss' /\ sane ss' /\ in_transaction (state ss) = true) ss.
Proof.
  intros Hs. unfold rcpt_state_check. apply wpx_bind, wpx_update.
  set (ss1 := set_rcpt_count _ _).
  assert (same_mail ss ss1) as H1 by done. assert (replies 0 ss ss1) as R1 by done.
  eapply guarded_then with (ss0 := ss); [apply guarded_read | done..|]. intros user ss2 H2 R2 S2 _.
  eapply guarded_then with (ss0 := ss); [apply guarded_check; intros ?; g_step | done..|].
  intros ? ss3 H3 R3 S3 _. do 2 apply wpx_bind, wpx_read.
  eapply guarded_then with (ss0 := ss); [apply guarded_check; intros ?; g_step | done..|].
  intros ? ss4 H4 R4 S4 _.
  eapply wpx_mono; [apply guarded_check with (b := negb _ && negb _); [intros ?; g_step | done]|..].
  - intros r ss' (-> & Hc & Hr & Hs'). unfold left_guard, replies in *.
    split_and!; [done | by etransitivity | lia | done].
  - cbv beta. intros ? ss' (Hc & Hr & Hs' & Hst). unfold replies in *.
    split_and!; [by etransitivity | lia | done |].
    assert (state ss3 = state ss) as <- by apply H3.
    unfold in_transaction. by destruct (cmd_eqb _ Recipient), (cmd_eqb _ RecipientOrData).
Qed.

Lemma guarded_rcpt_find_path sloppy cp : guarded (rcpt_find_path sloppy cp) anything.
Proof. unfold rcpt_find_path. g_steps. done. Qed.

Lemma leaving_rcpt_path_error {A} status buf : leaving (A := A) (rcpt_path_error status buf).
Proof. unfold rcpt_path_error. apply leaving_path_data. intros t. unfold leaving. g_steps. Qed.

Lemma CISTREQN_nth l w i :
  CISTREQN l w = true -> (i < length w)%nat ->
  (length w <= length l)%nat /\ tolower (nth i l 0) = tolower (nth i w 0).
Proof.
  revert l i. induction w as [|c w IH]; intros [|d l] i H Hi; cbn in *; try lia; try done.
  zbool. destruct i as [|i]; cbn.
  - split; [|done]. destruct w as [|c' w]; [cbn; lia|]. cbn in *.
    destruct (IH l 0%nat) as [? _]; [done | lia | lia].
  - destruct (IH l i) as [? ?]; [done | lia |]. split; [lia | done].
Qed.

(** The address in brackets, when the scanner moved or the text is the
    plain <postmaster>. *)
Lemma guarded_rcpt_path_strict buf s cp :
  (peq s cp = false ->
   exists v, v <> [] /\ behind cp (v ++ [$">"]) s /\ (peek cp 1 = $"@" -> $":" ∈ v)) ->
  guarded (rcpt_path_strict buf s cp) found_path.
Proof.
  intros Hscan. unfold rcpt_path_strict.
  eapply guarded_bind with (P := fun s' => exists v, v <> [] /\ behind cp (v ++ [$">"]) s' /\
                                    (peek cp 1 = $"@" -> $":" ∈ v) \/
                                    CISTREQN (mem cp) ($$"<POSTMASTER>") = true /\ s' = cp [+] 12).
  { g_step; [g_step; [g_step; by exists []; right | by g_steps]|]. g_step.
    destruct (Hscan H) as (v & ? & ? & ?). exists v. by left. }
  intros s' (v & Hs'). g_step; [g_step|].
  destruct Hs' as [(Hv & Hb & Hc) | [Hpm ->]].
  - destruct (behind_app _ _ _ _ Hb) as (q & Hbv & _).
    eapply guarded_bind; [eapply guarded_route; [apply Hbv|]|].
    { intros Hat. zbool. auto. }
    intros [cp2 note] (i & E & _ & Hi); cbn [fst] in *. subst cp2. apply guarded_ret.
    change (pinc (cp [+] i)) with (cp [+] i [+] 1). rewrite padd_padd.
    apply (found_path_behind cp (v ++ [$">"]) s' (i + 1) 1); [done|].
    specialize (Hi Hv). rewrite length_app. cbn. lia.
  - destruct (CISTREQN_nth _ _ 1 Hpm) as [Hl Hn]; [cbn; lia|]. cbn in Hl.
    replace (peek cp 1 =? $"@") with false.
    2:{ symmetry. apply Z.eqb_neq. unfold peek. intros E. by rewrite E in Hn. }
    eapply guarded_bind with (P := fun r => r.1 = cp); [by apply guarded_ret|].
    intros [cp2 note] E; cbn in E; subst cp2. apply guarded_ret.
    unfold found_path, psub. cbn [addr padd pinc mem]. rewrite length_drop. lia.
Qed.

Lemma guarded_rcpt_path_sloppy buf cp : guarded (rcpt_path_sloppy buf cp) found_path.
Proof.
  unfold rcpt_path_sloppy. set (cp1 := skip_while is_blank (pinc cp)).
  eapply guarded_bind; [apply guarded_scan; intros e; apply path2_scanned|].
  intros s Hscan.
  eapply guarded_bind; [apply guarded_check; intros _; apply leaving_rcpt_path_error|].
  intros ? Hne; cbv beta in Hne. destruct Hscan as [-> | (w & Hb & Hc)]; [by rewrite peq_refl in Hne|].
  eapply guarded_bind; [eapply guarded_route_inc; [apply Hb|]|].
  { intros Hat. zbool. auto. }
  intros [cp2 note] (i & E & Hi); cbn [fst] in *. subst cp2. g_step; [by g_steps|].
  apply guarded_ret. unfold found_path.
  pose proof (found_path_behind cp1 w s i 0 note Hb) as Hf. cbn in Hf. rewrite Z.sub_0_r in Hf.
  apply Hf. lia.
Qed.

Lemma guarded_rcpt_path_bare strict buf cp : guarded (rcpt_path_bare strict buf cp) found_path.
Proof.
  unfold rcpt_path_bare.
  eapply guarded_bind; [apply guarded_scan; intros e; apply path2_scanned|].
  intros s Hscan.
  eapply guarded_bind; [apply guarded_check; intros _; apply leaving_rcpt_path_error|].
  intros ? Hne; cbv beta in Hne. destruct Hscan as [-> | (w & Hb & Hc)]; [by rewrite peq_refl in Hne|].
  g_step; [g_step|]. eapply guarded_bind; [eapply guarded_route; [apply Hb|]|].
  { intros Hat. zbool. auto. }
  intros [cp2 note] (i & E & Hi & _); cbn [fst] in *. subst cp2. apply guarded_ret.
  pose proof (found_path_behind cp w s i 0 note Hb) as Hf. cbn in Hf. rewrite Z.sub_0_r in Hf.
  apply Hf. lia.
Qed.

Lemma guarded_rcpt_path strict sloppy buf cp :
  guarded (rcpt_path strict sloppy buf cp) (fun r => found_path r /\ 1 <= r.1.1.2).
Proof.
  unfold rcpt_path. eapply guarded_bind with (P := found_path).
  - g_step; [|apply guarded_rcpt_path_bare].
    eapply guarded_bind; [apply guarded_scan; intros e; apply path_scanned|].
    intros [s cp'] Hscan. g_step; [by apply guarded_rcpt_path_strict | apply guarded_rcpt_path_sloppy].
  - intros [[[cp' n] s] note] Hf. g_step; [g_step|]. apply guarded_ret. split; [done|]. cbv beta in *. cbn. lia.
Qed.

(** ** Parameters *)

Lemma guarded_rcpt_opt_notify o s : guarded (rcpt_opt_notify o s) anything.
Proof. unfold rcpt_opt_notify. g_steps. destruct (notify_words _ _ _). by g_steps. Qed.

Lemma guarded_rcpt_opt_orcpt buf o s : guarded (rcpt_opt_orcpt buf o s) anything.
Proof.
  unfold rcpt_opt_orcpt. g_steps. eapply guarded_bind with (P := anything); [by apply guarded_scan|].
  intros [p|] _; by g_steps.
Qed.

Lemma guarded_rcpt_options strict sloppy buf s : guarded (rcpt_options strict sloppy buf s) anything.
Proof.
  unfold rcpt_options. eapply guarded_bind with (P := anything); [|intros; by g_steps].
  generalize (RcptOpts None 0 None). generalize (length (mem s)) as fuel. intros fuel. revert s.
  induction fuel as [|fuel IH]; intros s o; cbn [rcpt_options_loop]; g_steps; try done.
  eapply guarded_bind with (P := anything); [|intros [o' s'] _; apply IH].
  unfold rcpt_option. g_steps; [apply guarded_rcpt_opt_notify | apply guarded_rcpt_opt_orcpt].
Qed.

(** ** Policy, spool file and reply *)

Lemma guarded_rcpt_postmaster cp addrlen pr : guarded (rcpt_postmaster cp addrlen pr) anything.
Proof.
  unfold rcpt_postmaster. g_steps; try done. eapply guarded_bind; [apply guarded_policy_or_0|].
  intros rc _. by g_steps.
Qed.

(** The remark a policy rejection leaves in the spool file. *)
Definition rejection_remark (a : list Z) : list Z :=
  $$"comment policytest() rejected rcptaddr: <" ++ a ++ $$">" ++ [10].
Definition remarked (o o' : option (list Z)) : Prop :=
  o' = o \/ exists b a, o = Some b /\ o' = Some (b ++ rejection_remark a).

Definition refused (ss ss' : SmtpState) : Prop :=
  remarked (mfp ss) (mfp ss') /\ state ss' = state ss /\ smtpfrom ss' = smtpfrom ss /\
  ok_rcpt_count ss' = ok_rcpt_count ss.

Lemma same_mail_refused ss ss' : same_mail ss ss' -> refused ss ss'.
Proof. intros [(Hm & Hst & Hf & _) Hok]. unfold refused. split_and!; try done. by left. Qed.

Lemma wpx_fputs l b E (Q : unit -> SmtpState -> Prop) ss :
  mfp ss = Some b -> Q tt (set_mfp (Some (b ++ l)) ss) -> wpx (fputs l) E Q ss.
Proof. intros Hb HQ. unfold fputs. apply wpx_bind, wpx_read. rewrite Hb. by apply wpx_update. Qed.

Lemma rcpt_policy_spec cp addrlen ss b :
  sane ss -> 0 <= addrlen -> mfp ss = Some b ->
  wpx (rcpt_policy cp addrlen)
    (fun r ss' => r = Return (-1) /\ replies 1 ss ss' /\ sane ss' /\ refused ss ss')
    (fun _ ss' => same_mail ss ss' /\ replies 0 ss ss' /\ sane ss') ss.
Proof.
  intros Hs Hn Hb. unfold rcpt_policy.
  assert (same_mail ss ss) as H0 by done. assert (replies 0 ss ss) as R0 by done.
  set (E := fun r ss' => r = Return (-1) /\ replies 1 ss ss' /\ sane ss' /\ refused ss ss').
  assert (forall r ss', left_guard ss r ss' -> E r ss') as HE.
  { intros r ss' (-> & Hc & Hr & Hs'). split_and!; try done. by apply same_mail_refused. }
  eapply guarded_then; [apply guarded_read | done..|]. intros user ss1 H1 R1 S1 _.
  eapply guarded_then; [apply guarded_policy_or_0 | done..|]. intros pr ss2 H2 R2 S2 _.
  eapply guarded_then; [by apply guarded_update | done..|]. intros _ ss3 H3 R3 S3 _.
  eapply guarded_then; [apply guarded_rcpt_postmaster | done..|]. intros _ ss4 H4 R4 S4 _.
  apply wpx_bind, wpx_read, wpx_if; intros _; [|by apply wpx_ret].
  apply wpx_bind, wpx_read. assert (mfp ss4 = Some b) as Hb4 by (rewrite <- Hb; apply H4).
  apply wpx_bind, (wpx_fputs _ b); [done|]. apply wpx_bind.
  unfold fwrite. replace (addrlen <? 0) with false by lia. eapply wpx_fputs; [done|].
  apply wpx_bind. eapply wpx_fputs; [done|]. apply wpx_bind, wpx_update.
  set (ss5 := set_trace _ _).
  eapply wpx_mono; [eapply leaving_answers; [apply answers_rcpt_policy_reject|]|..].
  - exact S4.
  - intros r ss' (-> & Hc & Hr & Hs'). destruct H4 as [(_ & Hst & Hf & _) Hok].
    destruct Hc as [(Hm & Hst' & Hf' & _) Hok']. unfold ss5 in Hst', Hf', Hok'.
    cbn in Hst', Hf', Hok'. unfold E, refused, replies in *.
    split_and!; [done | | done | | congruence..].
    + rewrite Hr. unfold ss5. cbn [trace set_trace set_mfp]. rewrite finals_cons. cbn. lia.
    + rewrite Hm, Hb. right. exists b, (take (Z.to_nat addrlen) (mem cp)). split; [done|].
      unfold ss5, rejection_remark. cbn [mfp set_trace set_mfp]. f_equal. by rewrite <- !(app_assoc b), <- !app_assoc.
  - by intros ? ? (_ & _ & _ & []).
Qed.

(** The lines of one recipient. *)
Definition todsn_line (o : rcpt_opts) (cp : ptr) (addrlen : Z) (ss : SmtpState) (f : list Z) : list Z :=
  $$"todsn" ++ todsn_notify o (deliverby_flags ss) ++ todsn_by (deliverby_time ss) (deliverby_flags ss) ++
  match drpt_orcpt o with
  | Some v => [$" "] ++ v
  | None => $$" ORCPT=rfc822;" ++ xtext_encode (strn addrlen cp)
  end ++ $$" INRCPT=rfc822;" ++ xtext_encode (strn addrlen cp) ++
  $$" INFROM=rfc822;" ++ xtext_encode (cstr f) ++ [10].
Definition to_line (addrlen : Z) (cp : ptr) : list Z :=
  $$"to <" ++ take (Z.to_nat addrlen) (mem cp) ++ $$">" ++ [10].

Lemma set_mfp_twice v w ss : set_mfp v (set_mfp w ss) = set_mfp v ss.
Proof. done. Qed.

Lemma rcpt_write_spec o cp addrlen ss b f :
  0 <= addrlen -> mfp ss = Some b -> smtpfrom ss = Some f ->
  wpx (rcpt_write o cp addrlen) (fun _ _ => False) (fun _ ss' => exists w,
    ss' = set_mfp (Some (b ++ todsn_line o cp addrlen ss f ++ to_line addrlen cp ++ w)) ss) ss.
Proof.
  intros Hn Hb Hf. unfold rcpt_write. do 3 apply wpx_bind, wpx_read. rewrite Hf.
  do 4 (apply wpx_bind; eapply wpx_fputs; [reflexivity || exact Hb|]).
  apply wpx_bind. eapply wpx_fputs; [reflexivity || exact Hb|].
  apply wpx_bind. unfold fwrite. replace (addrlen <? 0) with false by lia.
  eapply wpx_fputs; [reflexivity || exact Hb|].
  apply wpx_bind. eapply wpx_fputs; [reflexivity || exact Hb|]. apply wpx_bind, wpx_read.
  apply wpx_if; intros _.
  - eapply wpx_fputs; [reflexivity || exact Hb|].
    exists ($$"comment policytest() reported freeze state " ++ dec (policyresult ss) ++ [10]).
    unfold todsn_line, to_line.
    rewrite !set_mfp_twice. do 2 f_equal. rewrite <- !app_assoc. reflexivity.
  - apply wpx_ret. exists []. unfold todsn_line, to_line. rewrite app_nil_r.
    rewrite !set_mfp_twice. do 2 f_equal. by rewrite <- !app_assoc.
Qed.

(** The reply to a recipient the router did not object to; the transaction
    is not touched. *)
Definition replied (ss : SmtpState) (err : Z) (ss' : SmtpState) : Prop :=
  (err = 0 \/ err = 1) /\ replies 1 ss ss' /\ same_mail ss ss' /\
  irouter_state ss' = irouter_state ss.

Lemma reply_spec code st fmt arg err ss :
  0 < code -> err = 0 \/ err = 1 ->
  wpx (type_arg code st fmt arg;; mret err) (fun _ _ => False) (replied ss) ss.
Proof.
  intros Hc He. apply wpx_bind, wpx_update, wpx_ret. split_and!; try done.
  unfold replies. cbn. rewrite finals_cons. cbn. by replace (0 <? code) with true by lia.
Qed.

Lemma tarpit_reply_spec code st fmt arg err ss :
  0 < code -> err = 0 \/ err = 1 ->
  wpx (smtp_tarpit;; type_arg code st fmt arg;; mret err) (fun _ _ => False) (replied ss) ss.
Proof.
  intros Hc He. apply wpx_bind, wpx_update. set (ss1 := set_trace _ _).
  eapply wpx_mono; [by apply reply_spec|done|]. cbv beta.
  intros e ss' (? & Hr & Hm & Hi). by split_and!.
Qed.

Lemma rcpt_reply_spec r note cp addrlen ss :
  (forall s, r = Some s -> 200 <= atoi s < 300) ->
  wpx (rcpt_reply r note cp addrlen) (fun _ _ => False) (replied ss) ss.
Proof.
  intros Hr. unfold rcpt_reply. do 2 apply wpx_bind, wpx_update.
  do 6 apply wpx_bind, wpx_read. set (ss1 := set_sizeoptsum _ _).
  apply (wpx_mono _ (fun _ _ => False) _ (replied ss1)); [|done|].
  2:{ intros err ss' H. exact H. }
  repeat (apply wpx_if; intros ?); try (apply tarpit_reply_spec; [lia | auto]).
  destruct r as [s|].
  - specialize (Hr s eq_refl). apply wpx_if; intros ?; [apply tarpit_reply_spec; [lia | auto]|].
    replace (400 <=? atoi s) with false by lia. replace (atoi s <? 400) with true by lia.
    apply wpx_bind, wpx_ret, reply_spec; [lia | auto].
  - destruct (from_box ss1 && _); [|destruct (negb _)]; cbn [type].
    + exact (tarpit_reply_spec 552 (Some m571) (Some SPAM_trap) [] 0 ss1 ltac:(lia) ltac:(auto)).
    + apply reply_spec; [lia | auto].
    + apply reply_spec; [lia | auto].
Qed.

(** The lines of a recipient were added to the spool file. *)
Definition recorded (ss ss' : SmtpState) : Prop :=
  exists b o cp addrlen ss1 f w, mfp ss = Some b /\ smtpfrom ss = Some f /\ 0 <= addrlen /\
    mfp ss' = Some (b ++ todsn_line o cp addrlen ss1 f ++ to_line addrlen cp ++ w).

(** What [smtp_rcpt] does in a session that keeps the invariant: refuse
    early, refuse when the lines are written, or accept. *)
Definition rcpt_outcome (ss : SmtpState) (rc : Z) (ss' : SmtpState) : Prop :=
  replies 1 ss ss' /\ sane ss' /\
  ((rc = -1 /\ refused ss ss') \/
   (rc = 1 /\ recorded ss ss' /\ state ss' = state ss /\ smtpfrom ss' = smtpfrom ss /\
    ok_rcpt_count ss' = ok_rcpt_count ss) \/
   (rc = 0 /\ recorded ss ss' /\ state ss' = RecipientOrData /\ smtpfrom ss' = smtpfrom ss /\
    ok_rcpt_count ss' = ok_rcpt_count ss + 1)).

(** From the point where policy and router have let the recipient pass. *)
Lemma rcpt_tail_spec o cp addrlen r note ss b f :
  sane ss -> 0 <= addrlen -> mfp ss = Some b -> smtpfrom ss = Some f ->
  (forall s, r = Some s -> 200 <= atoi s < 300) ->
  wpx (rcpt_write o cp addrlen;;
       err ← rcpt_reply r note cp addrlen;
       when (err =? 0)
         (update (fun ss => set_ok_rcpt_count (ok_rcpt_count ss + 1) ss);;
          update (set_state RecipientOrData));;
       mret err) (fun _ _ => False) (rcpt_outcome ss) ss.
Proof.
  intros Hs Hn Hb Hf Hr. apply wpx_bind. eapply wpx_mono; [by eapply rcpt_write_spec|done|].
  cbv beta. intros _ ss1 (w & ->).
  apply wpx_bind. eapply wpx_mono; [by apply rcpt_reply_spec|done|].
  cbv beta. intros err ss2 (Herr & Rr & [(Hm & Hst & Hfr & _) Hok] & Hi). cbn in Hm, Hst, Hfr, Hok, Hi.
  assert (sane ss2) as S2 by (intros st E; rewrite Hi in E; by apply Hs).
  assert (recorded ss ss2) as Hrec by (exists b, o, cp, addrlen, ss, f, w; by split_and!).
  destruct Herr as [-> | ->]; cbn [Z.eqb when Pos.eqb].
  - wpx_steps. split_and!; [exact Rr | done |]. right; right. cbn. split_and!; [done..| by rewrite Hok].
  - wpx_steps. split_and!; [exact Rr | done |]. right; left. by split_and!.
Qed.

Lemma rcpt_outcome_mono ss ss1 rc ss' :
  same_mail ss ss1 -> replies 0 ss ss1 -> rcpt_outcome ss1 rc ss' -> rcpt_outcome ss rc ss'.
Proof.
  intros [(Hm & Hst & Hf & _) Hok] R (Rr & S & H). split_and!; [unfold replies in *; lia | done |].
  unfold refused, recorded in *. rewrite Hm, Hst, Hf, Hok in H. exact H.
Qed.

(** The checks in front: in a transaction, with an address and parameters. *)
Lemma rcpt_enter_spec ss :
  sane ss -> session_inv ss ->
  wpx rcpt_state_check (left_guard ss) (fun _ ss' =>
    same_mail ss ss' /\ replies 0 ss ss' /\ sane ss' /\
    exists b f, mfp ss = Some b /\ smtpfrom ss = Some f) ss.
Proof.
  intros Hs Hinv. eapply wpx_mono; [by apply rcpt_state_check_spec|done|].
  cbv beta. intros _ ss' (? & ? & ? & Hin). destruct (Hinv Hin) as [Hm Hf].
  destruct (mfp ss) as [b|]; [|done]. destruct (smtpfrom ss) as [f|]; [|done].
  split_and!; try done. by exists b, f.
Qed.

Lemma smtp_rcpt_spec {SR : SaneRouter} buf cp ss :
  sane ss -> session_inv ss ->
  wpx (smtp_rcpt buf cp) (fun _ _ => False) (rcpt_outcome ss) ss.
Proof.
  intros Hs Hinv. apply wpx_catch. unfold rcpt_body.
  set (E := fun r ss' => if r is Return rc then rcpt_outcome ss rc ss' else False).
  assert (forall r ss', left_guard ss r ss' -> E r ss') as HE.
  { intros r ss' (-> & ? & ? & ?). split_and!; [done..|]. left. split; [done|]. by apply same_mail_refused. }
  apply wpx_bind. unfold strict_sloppy. apply wpx_bind, wpx_read, wpx_ret.
  apply wpx_bind. eapply wpx_mono; [by apply rcpt_enter_spec | exact HE |].
  cbv beta. intros _ ss2 (H2 & R2 & S2 & b & f & Em & Ef).
  eapply guarded_then; [apply guarded_rcpt_find_path | done..|]. intros cp3 ss3 H3 R3 S3 _.
  eapply guarded_then; [apply guarded_rcpt_path | done..|].
  intros [[[cp4 n4] s4] note] ss4 H4 R4 S4 [Hn4 _].
  eapply guarded_then; [apply guarded_rcpt_options | done..|]. intros o ss5 H5 R5 S5 _.
  destruct (rfc821to822quote cp4 n4) as [cp6 n6] eqn:Eq.
  assert (0 <= n6) as Hn by (eapply quote_bounds; [|exact Eq]; apply Hn4).
  assert (mfp ss5 = Some b) as Em5 by (rewrite <- Em; apply H5).
  apply wpx_bind. eapply wpx_mono; [by eapply rcpt_policy_spec|..].
  { intros r ss' (-> & Hr & Hs' & Hrf). eapply (rcpt_outcome_mono _ ss5); [done..|].
    split_and!; [done..|]. by left. }
  cbv beta. intros _ ss6 (H6 & R6 & S6).
  assert (same_mail ss ss6) as H7 by (by etransitivity).
  assert (replies 0 ss ss6) as R7 by (unfold replies in *; lia).
  eapply guarded_then; [apply guarded_read | done..|]. intros info ss8 H8 R8 S8 _.
  eapply guarded_then; [apply guarded_ask_router | done..|]. intros r ss9 H9 R9 S9 Hr.
  eapply (wpx_mono _ (fun _ _ => False) _ (rcpt_outcome ss9)); [|done|].
  - apply (rcpt_tail_spec _ _ _ _ _ _ b f); try done.
    + rewrite <- Em. apply H9.
    + rewrite <- Ef. apply H9.
  - intros rc ss'. by apply rcpt_outcome_mono.
Qed.
End rcpt.
