(* ===== verification/SmtpServer.v ===== *)
(** * The SMTP session loop (smtpserver/smtpserver.c)

    The body of the loop of smtpserver(): the checks in front of a command,
    the command table and the dispatch.  The handlers that are not modelled
    are operations of the class [Handlers]. *)

From Stdlib Require Import ZArith Lia.
From stdpp Require Import base tactics numbers list option.
From S2P Require Import Prelude StrMatch Rfc821 SmtpState SmtpCmds SmtpLine SmtpData SmtpAuth.

#[local] Open Scope Z_scope.

(** ** The command table *)

Definition command_list : list (list Z * Command) :=
  [($$"EHLO", Hello2); ($$"HELO", Hello); ($$"LHLO", HelloL); ($$"MAIL", Mail);
   ($$"RCPT", Recipient); ($$"DATA", Data); ($$"BDAT", BData); ($$"RSET", Reset);
   ($$"VRFY", Verify); ($$"EXPN", Expand); ($$"HELP", Help); ($$"NOOP", NoOp);
   ($$"QUIT", Quit); ($$"TURNME", Turnme); ($$"ETRN", Turnme); ($$"AUTH", Auth);
   ($$"VERB", Verbose); ($$"ONEX", NoOp); ($$"SEND", Send); ($$"SOML", SendOrMail);
   ($$"SAML", SendAndMail); ($$"TURN", Turn); ($$"TICK", Tick); ($$"EMAL", Mail2);
   ($$"ESND", Send2); ($$"ESOM", Send2); ($$"ESAM", Send2); ($$"EVFY", Verify2);
   ($$"Z-IDENT", DebugIdent); ($$"Z-DEBUG", DebugMode); ($$"Z-REPORT", Report);
   ($$"550", Silent)].

Fixpoint find_command (cs : list (list Z * Command)) (w : list Z) : option (list Z * Command) :=
  match cs with
  | [] => None
  | (verb, c) :: cs' => if CISTREQ verb w then Some (verb, c) else find_command cs' w
  end.

(** ** Dispatch *)

Class Handlers := {
  smtp_turnme : list Z -> ptr -> cmd Z;
  smtp_report : ptr -> ptr -> cmd Z;
  help : ptr -> cmd Z;
  debug_report : ptr -> cmd Z;
  show_ident : cmd Z;
  verb_text : list Z; copyright_text : list Z; copyright2_text : list Z
}.

(** What the loop does after a line: [continue], [break] or [return]. *)
Inductive next := Continue | Break | Quit_.

Section server.
Context {cf : Config} {env : Env} {hd : Handlers}.

Definition unknown_command (buf : ptr) : cmd next :=
  mib IncomingCommands_unknown;;
  update (fun ss => set_unknown_cmd_count (unknown_cmd_count ss + 1) ss);;
  n ← read unknown_cmd_count;
  if unknown_cmd_limit <=? n then
    type 550 (Some m552) (Hi_ ($$"One too many unknown command '" ++ str buf ++ $$"'"));;
    mret Break
  else
    smtp_tarpit;;
    type 550 (Some m552) ($$"Unknown command '" ++ str buf ++ $$"'");;
    mret Continue.

(** Commands that the configuration turns off. *)
Definition disabled (c : Command) : bool :=
  (negb lmtp_mode && cmd_eqb c HelloL) ||
  (lmtp_mode && (cmd_eqb c Hello || cmd_eqb c Hello2)) ||
  (cmd_eqb c DebugMode && negb debugcmdok) ||
  (cmd_eqb c Expand && negb expncmdok) ||
  (cmd_eqb c Verify && negb vrfycmdok) ||
  (cmd_eqb c Verify2 && negb vrfycmdok) ||
  (cmd_eqb c Hello2 && negb ehlo_ok) ||
  (cmd_eqb c Turnme && negb etrn_ok) ||
  (cmd_eqb c Auth && negb auth_ok) ||
  (cmd_eqb c BData && negb chunkingok).

Definition always_allowed (c : Command) : bool := cmd_eqb c Quit || cmd_eqb c Help.

(** Commands an unauthenticated client may use in submission mode. *)
Definition submission_open (c : Command) : bool :=
  match c with Auth | Hello | Hello2 | NoOp | Reset | Quit => true | _ => false end.

Definition then_continue {A} (m : cmd A) : cmd next := m;; mret Continue.

(** [RSET] *)
Definition do_reset (cp : ptr) : cmd unit :=
  mib IncomingSMTP_RSET;;
  f ← read mfp;
  when (is_some f) abort_mail;;
  st ← read state;
  when (negb (cmd_eqb st Hello)) (update (set_state MailOrHello));;
  (if negb (deref cp =? 0) && (0 <? strict_protocol) then
     type 501 (Some m554) ($$"Extra junk after 'RSET' verb; RSET processed anyway")
   else type 250 (Some m200) ($$"Reset processed, now waiting for MAIL command"));;
  update (set_policyresult 0).

(** [MAIL] and its relatives *)
Definition do_mail (buf cp : ptr) (insecure : bool) : cmd unit :=
  mib IncomingSMTP_MAIL;;
  rc ← smtp_mail buf cp insecure;
  f ← read mfp;
  if negb (rc =? 0) || negb (is_some f) then
    when (negb (is_some f)) (policytest POLICY_DATAABORT [] 1 None;; mret tt);;
    mib IncomingSMTP_MAIL_bad
  else mib IncomingSMTP_MAIL_ok.

Definition do_rcpt (buf cp : ptr) : cmd unit :=
  mib IncomingSMTP_RCPT;;
  rc ← smtp_rcpt buf cp;
  f ← read mfp;
  if negb (rc =? 0) || negb (is_some f) then mib IncomingSMTP_RCPT_bad
  else mib IncomingSMTP_RCPT_ok.

Definition do_quit (cp : ptr) : cmd unit :=
  mib IncomingSMTP_QUIT;;
  info ← read cfinfo;
  when (negb (deref cp =? 0) && STYLE info $"R")
    (type (-221) (Some m554) ($$"Extra junk after 'QUIT' verb"));;
  f ← read mfp;
  when (is_some f) abort_mail;;
  update (set_mfp None);;
  type_arg 221 (Some m200) None ($$"Out").

(** The [switch] on the command. *)
Definition dispatch (verb : list Z) (c : Command) (buf cp : ptr) (insecure : bool) : cmd next :=
  info ← read cfinfo;
  let junk := negb (deref cp =? 0) && STYLE info $"R" in
  match c with
  | Silent => mret Continue
  | Null => then_continue (type 550 (Some m550) ($$"panic!"))
  | Report => rc ← smtp_report buf cp; if rc <? 0 then unknown_command buf else mret Continue
  | Hello | Hello2 | HelloL => then_continue (smtp_helo c verb buf cp)
  | Auth => then_continue (smtp_auth buf cp)
  | Mail | Mail2 | Send | Send2 | SendOrMail | SendAndMail =>
      then_continue (do_mail buf cp insecure)
  | Recipient => then_continue (do_rcpt buf cp)
  | Data => rc ← smtp_data buf cp; mret (if rc <? 0 then Quit_ else Continue)
  | BData => rc ← smtp_bdata buf cp; mret (if rc <? 0 then Quit_ else Continue)
  | Reset => then_continue (do_reset cp)
  | Help => then_continue (help cp)
  | Verify | Verify2 => then_continue (smtp_verify buf cp)
  | Expand => then_continue (smtp_expand buf cp)
  | Turnme => then_continue (smtp_turnme verb cp)
  | Turn =>
      mib IncomingSMTP_TURN;;
      when junk (type (-502) (Some m554) ($$"Extra junk after 'TURN' verb"));;
      type_arg 502 (Some m551) None [];; mret Continue
  | NoOp =>
      mib IncomingSMTP_NOOP;;
      (if junk then type 501 (Some m554) ($$"Extra junk after 'NOOP' verb")
       else type_arg 250 (Some m200) None []);;
      mret Continue
  | Verbose =>
      mib IncomingSMTP_VERBOSE;;
      type (-250) (Some m200) verb_text;; type (-250) (Some m200) copyright_text;;
      type 250 (Some m200) copyright2_text;; mret Continue
  | DebugMode => then_continue (debug_report buf)
  | DebugIdent => then_continue show_ident
  | Tick =>
      mib IncomingSMTP_TICK;; type 250 (Some m200) (str buf);;
      update (fun ss => set_with_protocol_set (Z.lor (with_protocol_set ss) WITH_BSMTP) ss);;
      mret Continue
  | Quit => do_quit cp;; mret Quit_
  | MailOrHello | RecipientOrData => mret Continue
  end.

(** The checks between the command table and the [switch]. *)
Definition allow_command (c : Command) : cmd bool :=
  if netconnected_flg && negb configuration_ok then
    smtp_tarpit;;
    type (-400) (Some ($$"4.7.0")) ($$"This SMTP server has not been configured!");; mret false
  else if negb (policystatus =? 0) && negb (always_allowed c) then
    smtp_tarpit;;
    type (-400) (Some ($$"4.7.0")) contact_pointer_message;;
    type 400 (Some ($$"4.7.0")) ($$"Policy database problem: " ++
      (if policystatus =? 1 then $$"Configuration bug"
       else if policystatus =? 2 then $$"db Open failure" else $$"NO BUG??"));;
    mret false
  else if reject_net && negb (always_allowed c) then
    type (-550) (Some m571) ($$"Hello " ++ rhostaddr ++ $$"; " ++ contact_pointer_message);;
    type (-550) (Some m571) ($$"If you feel we mistreat you, do contact us.");;
    smtp_tarpit;;
    type 550 (Some m571) ($$"Hello " ++ rhostaddr ++
      $$"; you are on our reject-IP-address -list, GO AWAY!");;
    mret false
  else
    user ← read authuser;
    if msa_mode && negb (is_some user) && negb always_accept_or_trust && negb (submission_open c) then
      type 530 (Some m530) ($$"Sorry " ++ rhostaddr ++ $$"; Authentication required");; mret false
    else mret true.

(** Chop trailing blanks, from [eobuf = &buf[i-1]] downwards: [k] is
    [eobuf - buf]. *)
Fixpoint chop_blanks (k : nat) (buf : list Z) : list Z :=
  match k with
  | O => buf
  | S k' => if is_blank (nth k' buf 0) then chop_blanks k' (<[k' := 0]> buf) else buf
  end.

Definition input_error_text (buf : list Z) (rc : Z) : list Z :=
  let c := nth (Z.to_nat rc) buf 0 in
  $$"Illegal input characters: " ++
  (if c =? 0 then $$"NUL on SMTP input"
   else if negb (Z.land c 0x80 =? 0) then $$"8-bit char on SMTP input"
   else $$"Control chars on SMTP input").

(** The length of the command verb. *)
Definition verb_length (buf : ptr) : nat :=
  span (fun c => negb (c =? 0) && negb (is_blank c)) (mem buf).

(** The entry of the command table a line selects. *)
Definition command_of (buf : ptr) : option (list Z * Command) :=
  let n := verb_length buf in
  if (8 <? n)%nat then None else find_command command_list (take n (mem buf)).

(** From the command verb on. *)
Definition run_command (buf : ptr) (insecure : bool) : cmd next :=
  match command_of buf with
  | None => unknown_command buf
  | Some (verb, c) =>
      if disabled c then unknown_command buf
      else
        ok ← allow_command c;
        if ok : bool then dispatch verb c buf (buf [+] verb_length buf) insecure else mret Continue
  end.

(** The line behind the chopping of trailing blanks. *)
Definition command_text (g : gets) : list Z :=
  if strict_protocol <? 1 then chop_blanks (Z.to_nat (g_i g - 1)) (g_buf g) else g_buf g.

(** One round of the session loop on the line that s_gets() returned. *)
Definition serve_line (g : gets) (insecure : bool) : cmd next :=
  me ← read mustexit;
  if negb (me =? 0) || (g_i g <=? 0) then mret Break
  else
    tr ← read trace;
    w ← read with_protocol_set;
    if ext_hasinput tr && ext_bail_out tr then mret Break
    else if ext_hasinput tr && negb (flag w WITH_EHLO) then
      type 550 (Some m571) ($$"HELLO " ++ rhostaddr ++
        $$", YOU ARE SENDING PIPELINED INPUT, BUT DIDN'T GREET PROPERLY WITH EHLO");;
      mret Break
    else
      let buf := command_text g in
      let rc := if (0 <=? g_rc g) && (strict_protocol <? 1) &&
                   (CISTREQN buf ($$"HELO") || CISTREQN buf ($$"EHLO"))
                then -1 else g_rc g in
      if 0 <=? rc then
        update (fun ss => set_err821 (Err (rfc821_error (err821 ss)) (Some rc)) ss);;
        type821err 500 m552 (Ptr 0 buf) (input_error_text buf rc);;
        mib IncomingCommands_unknown;;
        mret Continue
      else
        let lenient := negb (g_c g =? 10) && (3 <? g_i g) && negb (CISTREQ (cstr buf) ($$"QUIT")) in
        let co := if lenient then 13 else g_co g in
        let c := if lenient then 10 else g_c g in
        if ((0 <? strict_protocol) && (negb (c =? 10) || negb (co =? 13))) || negb (c =? 10) then
          (if g_i g <? SMTPLINESIZE - 1 then type 500 (Some m552) ($$"Line not terminated with CRLF..")
           else type 500 (Some m552) ($$"Line too long (" ++ dec (g_i g) ++ $$" chars)"));;
          mib IncomingCommands_unknown;;
          mret Continue
        else run_command (Ptr 0 buf) insecure.

(** The session loop, one unit of [fuel] per line. *)
Fixpoint session_loop (fuel : nat) (insecure : bool) : cmd next :=
  match fuel with
  | O => mret Break
  | S fuel' =>
      g ← get_line;
      r ← serve_line g insecure;
      match r with
      | Continue => session_loop fuel' insecure
      | _ => mret r
      end
  end.

(** The loop of smtpserver() on a finite input, and the cleanup behind it. *)
Definition smtpserver (insecure : bool) : cmd unit :=
  inp ← read input;
  r ← session_loop (S (length inp)) insecure;
  match r with
  | Quit_ => mret tt
  | _ =>
      f ← read mfp;
      when (is_some f) (emit EvMailAbort;; update (set_mfp None));;
      n ← read rcpt_count;
      when (negb (n =? 0)) (policytest POLICY_DATAABORT [] n None;; mret tt)
  end.
End server.
