(* ===== verification/SmtpWalk.v ===== *)
(** * Walks through the SMTP commands

    A command [walks] within a relation on session states when running it,
    to its end or to an early return, relates the states in front of and
    behind it.  Two relations are shown for all handlers: those outside of
    DATA and AUTH read forward in the input, leave the authenticated user
    alone, and neither hand over a message nor check a password; DATA and
    BDAT may hand over messages. *)

From Stdlib Require Import ZArith Lia.
From stdpp Require Import base tactics numbers list option relations.
From S2P Require Import Prelude StrMatch Rfc821 SmtpState SmtpCmds SmtpLine SmtpData SmtpAuth SmtpServer.

#[local] Open Scope Z_scope.

(** ** Walks *)

(** [E] says which early ends are possible. *)
Definition walks {A} (E : stop -> Prop) (R : relation SmtpState) (m : cmd A) : Prop :=
  forall ss, R ss (m ss).2 /\ (forall r, (m ss).1 = inl r -> E r).

Section walks.
Context {E : stop -> Prop} {R : relation SmtpState} `{!PreOrder R}.

Lemma walks_ret {A} (a : A) : walks E R (mret a).
Proof. intros ss. by split. Qed.

Lemma walks_bind {A B} (m : cmd A) (k : A -> cmd B) :
  walks E R m -> (forall a, walks E R (k a)) -> walks E R (m ≫= k).
Proof.
  intros Hm Hk ss. specialize (Hm ss). unfold mbind, ex_bind.
  destruct (m ss) as [[r|a] ss1]; cbn in *; [naive_solver|]. destruct (Hk a ss1) as [H1 H2].
  split; [etransitivity; [apply Hm | done] | done].
Qed.

Lemma walks_read {A} (f : SmtpState -> A) : walks E R (read f).
Proof. intros ss. by split. Qed.

Lemma walks_exit {A} r : E r -> walks (A := A) E R (exit r).
Proof. intros H ss. split; [done|]. by intros r' [= <-]. Qed.

Lemma walks_update f : (forall ss, R ss (f ss)) -> walks E R (update f).
Proof. intros H ss. by split. Qed.

Lemma walks_catch m : walks E R m -> walks E R (catch m).
Proof. intros H ss. specialize (H ss). unfold catch. destruct (m ss) as [[[]|] ?]; [|done..]. by destruct H. Qed.

Lemma walks_when b (m : cmd unit) : walks E R m -> walks E R (when b m).
Proof. by destruct b; [|intros _; apply walks_ret]. Qed.

Lemma walks_iter k (m : cmd unit) :
  walks E R m -> walks E R (Nat.iter k (fun j : cmd unit => m;; j) (mret tt)).
Proof. intros Hm. induction k as [|k IH]; cbn; [apply walks_ret|]. by apply walks_bind. Qed.

Lemma walks_for_rcpts_from {cf : Config} first c m : walks E R m -> walks E R (for_rcpts_from first c m).
Proof.
  intros Hm. unfold for_rcpts_from. apply walks_bind; [apply walks_read|]. intros n.
  by apply walks_when, walks_iter.
Qed.

Lemma walks_for_rcpts {cf : Config} c m : walks E R m -> walks E R (for_rcpts c m).
Proof. intros Hm. apply walks_bind; [done|]. intros _. by apply walks_for_rcpts_from. Qed.
End walks.

Lemma walks_mono {A} (E E' : stop -> Prop) (R R' : relation SmtpState) (m : cmd A) :
  (forall r, E r -> E' r) -> (forall ss ss', R ss ss' -> R' ss ss') -> walks E R m -> walks E' R' m.
Proof. intros HE HR H ss. destruct (H ss). split; [by apply HR|]. intros r Hr. by apply HE, H1. Qed.

(** ** The two relations *)

(** The trace has grown by events of which [P] holds. *)
Definition extends (P : event -> Prop) (tr tr' : list event) : Prop :=
  exists new, tr' = new ++ tr /\ Forall P new.

#[export] Instance extends_preorder P : PreOrder (extends P).
Proof.
  split.
  - intros tr. by exists [].
  - intros tr1 tr2 tr3 (n1 & -> & H1) (n2 & -> & H2). exists (n2 ++ n1). rewrite app_assoc.
    split; [done | by apply Forall_app].
Qed.

(** [P] holds of what is done; input is only read, nobody is logged in. *)
Definition moves (P : event -> Prop) (ss ss' : SmtpState) : Prop :=
  (length (input ss') <= length (input ss))%nat /\ authuser ss' = authuser ss /\
  extends P (trace ss) (trace ss').

#[export] Instance moves_preorder P : PreOrder (moves P).
Proof.
  split.
  - intros ss. by split_and!.
  - intros s1 s2 s3 (? & ? & ?) (? & ? & ?). split_and!; [lia | congruence | by etransitivity].
Qed.

(** No message is handed over, and no password checked. *)
Definition quiet (e : event) : Prop :=
  match e with EvMailClose _ | EvPassword _ _ _ => False | _ => True end.
(** No password is checked. *)
Definition unsworn (e : event) : Prop := match e with EvPassword _ _ _ => False | _ => True end.

Abbreviation chats := (moves quiet).
Abbreviation talks := (moves unsworn).
Abbreviation any_end := (fun _ : stop => True).

Lemma quiet_unsworn e : quiet e -> unsworn e.
Proof. by destruct e. Qed.

Lemma moves_mono (P P' : event -> Prop) ss ss' : (forall e, P e -> P' e) -> moves P ss ss' -> moves P' ss ss'.
Proof.
  intros H (? & ? & new & ? & HP). split_and!; [done..|]. exists new. split; [done|]. by eapply Forall_impl.
Qed.

Lemma chats_talks {A} E (m : cmd A) : walks E chats m -> walks E talks m.
Proof. apply walks_mono; [done|]. intros ss ss'. apply moves_mono, quiet_unsworn. Qed.

Section moves.
Context {E : stop -> Prop} {P : event -> Prop}.

Lemma walks_set f :
  (forall ss, input (f ss) = input ss /\ authuser (f ss) = authuser ss /\ trace (f ss) = trace ss) ->
  walks E (moves P) (update f).
Proof. intros H. apply walks_update. intros ss. destruct (H ss) as (Hi & Ha & Ht). unfold moves. by rewrite Hi, Ha, Ht. Qed.

Lemma walks_emit e : P e -> walks E (moves P) (emit e).
Proof.
  intros He. apply walks_update. intros ss. split_and!; [done..|]. exists [e]. split; [done|]. by constructor.
Qed.

Lemma walks_scan {A} (m : ST rfc821_err A) : walks E (moves P) (scan m).
Proof.
  intros ss. unfold scan. destruct (m (err821 ss)) as [a e]. cbn. split; [|done].
  split_and!; [done..|]. by exists [].
Qed.
End moves.

Ltac head_of m := lazymatch m with ?f _ => head_of f | ?f => f end.

(** Walk through a command, unfolding what it calls. *)
Ltac walk_step :=
  lazymatch goal with
  | |- walks _ _ (mbind _ _) => apply walks_bind; [|intros ?]
  | |- walks _ _ (mret _) => apply walks_ret
  | |- walks _ _ (read _) => apply walks_read
  | |- walks _ _ (exit _) => apply walks_exit; first [exact I | discriminate | solve [auto with zm]]
  | |- walks _ (moves _) (emit _) => apply walks_emit; exact I
  | |- walks _ (moves _) (update _) => apply walks_set; by intros ?
  | |- walks _ _ (update _) => apply walks_update; intros ?; first [done | exact (Nat.le_refl _)]
  | |- walks _ _ (scan _) => apply walks_scan
  | |- walks _ _ (catch _) => apply walks_catch
  | |- walks _ _ (when _ _) => apply walks_when
  | |- walks _ _ (for_rcpts _ _) => apply walks_for_rcpts
  | |- walks _ _ (for_rcpts_from _ _ _) => apply walks_for_rcpts_from
  | |- walks _ _ (match ?x with _ => _ end) => destruct x
  | |- walks _ _ ?m => first [solve [auto with zm] | let h := head_of m in unfold h; cbv beta zeta]
  end.
Ltac walk_steps := repeat walk_step.

(** ** The handlers *)

Section handlers.
Context {cf : Config} {env : Env}.

Lemma chats_router_loop rs : forall st, walks any_end chats (router_loop rs st).
Proof. induction rs as [|r rs IH]; intros st; cbn [router_loop]; cbv zeta; walk_steps; apply IH. Qed.

#[local] Hint Resolve chats_router_loop : zm.

Lemma chats_router f hold arg : walks any_end chats (router f hold arg).
Proof. walk_steps. Qed.

#[local] Hint Resolve chats_router : zm.

Lemma chats_mail_options_loop fuel strict sloppy buf : forall o s,
  walks any_end chats (mail_options_loop fuel strict sloppy buf o s).
Proof.
  induction fuel as [|fuel IH]; intros o s; cbn [mail_options_loop]; walk_step; try apply walks_ret.
  apply walks_bind; [|intros []; apply IH]. walk_steps.
Qed.

Lemma chats_rcpt_options_loop fuel strict sloppy buf : forall o s,
  walks any_end chats (rcpt_options_loop fuel strict sloppy buf o s).
Proof.
  induction fuel as [|fuel IH]; intros o s; cbn [rcpt_options_loop]; walk_step; try apply walks_ret.
  apply walks_bind; [|intros []; apply IH]. walk_steps.
Qed.

#[local] Hint Resolve chats_mail_options_loop chats_rcpt_options_loop : zm.

Lemma chats_helo verb verbname buf cp : walks any_end chats (smtp_helo verb verbname buf cp).
Proof. walk_steps. Qed.

Lemma chats_mail buf cp insecure : walks any_end chats (do_mail buf cp insecure).
Proof. walk_steps. Qed.

Lemma chats_rcpt buf cp : walks any_end chats (do_rcpt buf cp).
Proof. walk_steps. Qed.

Lemma chats_verify buf cp : walks any_end chats (smtp_verify buf cp).
Proof. walk_steps. Qed.

Lemma chats_expand buf cp : walks any_end chats (smtp_expand buf cp).
Proof. walk_steps. Qed.
End handlers.

#[export] Hint Resolve chats_router chats_helo chats_mail chats_rcpt chats_verify chats_expand : zm.

(** The loops that move message data. *)
Lemma mvbody_rest f inp : forall st cnt out,
  (length (mv_rest (mvbody f st cnt out inp)) <= length inp)%nat.
Proof.
  induction inp as [|c inp IH]; intros st cnt out; cbn [mvbody]; [done|].
  destruct (dot_step st c) as [[st' o]|]; cbn [mv_rest length]; [|lia]. etransitivity; [apply IH | lia].
Qed.

Lemma mvheader_rest inp : forall h cnt, (length (mvheader h cnt inp).1.2 <= length inp)%nat.
Proof.
  induction inp as [|c inp IH]; intros h cnt; cbn [mvheader]; [done|].
  assert (forall h cnt, (length (mvheader h cnt inp).1.2 <= length (c :: inp))%nat) as IH'.
  { intros h' cnt'. etransitivity; [apply IH | cbn; lia]. }
  destruct (dot_step _ c) as [[st [|o os]]|]; [apply IH' | | cbn; lia]. cbv zeta.
  destruct (negb _); [apply IH'|]. destruct (header_line _); [apply IH' | cbn; lia].
Qed.

Lemma mvdata_run_rest f pr inp : (length (mv_rest (mvdata_run f pr inp).1.1) <= length inp)%nat.
Proof.
  unfold mvdata_run. pose proof (mvheader_rest inp (header_start pr) 0) as H.
  destruct (mvheader _ _ _) as [[[cnt h] rest] []]; cbn in *; try done.
  etransitivity; [apply mvbody_rest | done].
Qed.

Lemma mvbblock_rest inp : forall n mvb cnt out,
  (length (mv_rest (mvbblock n mvb cnt out inp).1) <= length inp)%nat.
Proof.
  induction inp as [|c inp IH]; intros n mvb cnt out; cbn [mvbblock]; destruct (n <=? 0); cbn; try lia.
  etransitivity; [apply IH | lia].
Qed.

Section transfer.
Context {cf : Config} {env : Env} {E : stop -> Prop}.
Hypothesis crash : E Segv.

Lemma moves_mvdata P : walks E (moves P) mvdata.
Proof.
  intros ss. unfold mvdata, mbind, ex_bind, read. destruct (mfp ss); [|by split; [|intros ? [= <-]]].
  pose proof (mvdata_run_rest (ext_ferror (trace ss)) (policyresult ss) (input ss)) as H.
  destruct (mvdata_run _ _ _) as [[m pr] prio]. unfold update, when. cbn in *.
  destruct (mv_eof m); (split; [|done]); split_and!; try done; by exists [].
Qed.

Lemma moves_mvbdata P n : walks E (moves P) (mvbdata n).
Proof.
  intros ss. unfold mvbdata, mbind, ex_bind, read.
  pose proof (mvbblock_rest (input ss) n (mvbstate ss) 0 []) as H.
  destruct (mvbblock _ _ _ _ _) as [m mvb]. unfold update, when. cbn in *.
  destruct (negb _), (mfp ss), (mv_eof m); (split; [|done]); split_and!; try done; by exists [].
Qed.

Lemma talks_more_lines code st prefix ls : walks E talks (more_lines code st prefix ls).
Proof. unfold more_lines. induction ls; cbn [foldr]; walk_steps; done. Qed.
End transfer.

#[export] Hint Resolve moves_mvdata moves_mvbdata talks_more_lines : zm.

(** Reading a line *)

Lemma s_gets_loop_rest b inp : forall i co rc stored,
  (length (lr_rest (s_gets_loop b i co rc stored inp)) <= length inp)%nat /\
  (inp <> [] -> length (lr_rest (s_gets_loop b i co rc stored inp)) < length inp)%nat.
Proof.
  induction inp as [|c inp IH]; intros i co rc stored; cbn [s_gets_loop]; [done|].
  destruct (i <? b); [destruct (c =? 10)|]; cbn [lr_rest length]; [lia | | lia].
  destruct (IH (i + 1) c (if (rc <? 0) && illegal co c then i + 1 else rc) (stored ++ [c])). lia.
Qed.

(** A line that is not empty takes something from the input. *)
Lemma s_gets_consumes b inp :
  inp <> [] -> (length (g_rest (s_gets b inp)) < length inp)%nat.
Proof.
  intros Hne. destruct (s_gets_loop_rest (b - 1) inp (-1) (-1) (-1) []) as [_ H]. specialize (H Hne).
  unfold s_gets. cbn [g_rest]. destruct (_ && _); [|done]. rewrite length_drop. lia.
Qed.

Lemma s_gets_shrinks b inp : (length (g_rest (s_gets b inp)) <= length inp)%nat.
Proof.
  destruct inp as [|c inp]; [|apply Nat.lt_le_incl, s_gets_consumes; done].
  unfold s_gets. cbn [s_gets_loop lr_c lr_rest g_rest]. change (EOF =? EOF) with true. by rewrite andb_false_r.
Qed.

Lemma moves_get_line {cf : Config} {env : Env} E : walks E chats get_line.
Proof.
  unfold get_line. intros ss. unfold mbind at 1, ex_bind at 1, read at 1.
  set (g := s_gets _ _).
  assert (walks E chats (when (g_eof g) (update (set_s_status true));;
    f ← read mfp; when ((g_c g =? EOF) && (g_i g =? 0) && is_some f) abort_mail;; mret g)) as H by walk_steps.
  unfold mbind at 1, ex_bind at 1. cbn [update]. unfold update at 1.
  destruct (H (set_input (g_rest g) ss)) as [HR HE]. split; [|exact HE]. etransitivity; [|exact HR].
  split_and!; [apply s_gets_shrinks | done | by exists []].
Qed.

#[export] Hint Resolve moves_get_line : zm.

(** ** DATA, BDAT and the questions of AUTH *)

Section more.
Context {cf : Config} {env : Env}.

Lemma talks_data buf cp : walks any_end talks (smtp_data buf cp).
Proof. walk_steps. Qed.

Lemma talks_bdata buf cp : walks any_end talks (smtp_bdata buf cp).
Proof. walk_steps. Qed.

Definition no_crash (r : stop) : Prop := r <> Segv.

Lemma chats_auth_username cp : walks no_crash chats (auth_username cp).
Proof. walk_steps. Qed.

Lemma chats_auth_answer prompt : walks no_crash chats (auth_answer prompt).
Proof. walk_steps. Qed.

Lemma chats_auth_front cp : walks no_crash chats (auth_checks;; auth_mechanism cp).
Proof. walk_steps. Qed.
End more.

#[export] Hint Resolve talks_data talks_bdata : zm.

(** ** AUTH *)

(** No message is handed over. *)
Definition held (e : event) : Prop := match e with EvMailClose _ => False | _ => True end.

(** The user has changed only to one whose password was checked. *)
Definition logs_in (ss ss' : SmtpState) : Prop :=
  (length (input ss') <= length (input ss))%nat /\ extends held (trace ss) (trace ss') /\
  (authuser ss' = authuser ss \/
   exists u p, authuser ss' = Some u /\ EvPassword u p true ∈ trace ss').

#[export] Instance logs_in_preorder : PreOrder logs_in.
Proof.
  split.
  - intros ss. split_and!; [done | done | by left].
  - intros s1 s2 s3 (Hi1 & He1 & Ha1) (Hi2 & He2 & Ha2). split_and!; [lia | by etransitivity |].
    destruct Ha2 as [-> | Ha2]; [|by right]. destruct Ha1 as [-> | (u & p & -> & Hin)]; [by left|].
    right. exists u, p. split; [done|]. destruct He2 as (new & -> & _). set_solver.
Qed.

Lemma chats_logs_in ss ss' : chats ss ss' -> logs_in ss ss'.
Proof.
  intros (? & ? & new & ? & H). split_and!; [done | | by left]. exists new. split; [done|].
  eapply Forall_impl; [done|]. by intros [].
Qed.

Lemma walks_logs_in {A} E (m : cmd A) : walks E chats m -> walks E logs_in m.
Proof. apply walks_mono; [done | apply chats_logs_in]. Qed.

Section auth.
Context {cf : Config} {env : Env}.

(** Behind the check of the password *)
Lemma auth_verdict uname password (q : cmd (option (list Z))) :
  walks no_crash chats q ->
  walks no_crash logs_in (zpw ← (zpw ← q; emit (EvPassword uname password (negb (is_some zpw)));; mret zpw);
    match zpw with
    | None =>
        update (set_authuser (Some uname));;
        type 235 None ($$"Authentication successful.");;
        update (fun ss => set_with_protocol_set (Z.lor (with_protocol_set ss) WITH_AUTH) ss);;
        mret 0
    | Some why => auth_fail uname 535 None why;; mret 0
    end).
Proof.
  intros Hq ss. destruct (Hq ss) as [HR HE]. unfold mbind, ex_bind. destruct (q ss) as [[r|zpw] ss1]; cbn in HR, HE.
  { split; [by apply chats_logs_in | cbn; naive_solver]. }
  apply chats_logs_in in HR. unfold auth_fail, policytest, smtp_tarpit, type, type_arg, emit, update, mret, ex_ret, read.
  assert (forall ss2, logs_in ss1 ss2 -> logs_in ss ss2) as Ht by (intros ss2 H2; by etransitivity).
  destruct zpw as [why|]; (split; [apply Ht | intros r Hr; discriminate Hr]).
  - split_and!; [done | | by left]. cbn [trace set_trace is_some negb snd].
    exists [EvReply 535 (type_line 535 None (Some why) []); EvTarpit; EvPolicy POLICY_AUTHFAIL uname 1 (authuser ss1); EvPassword uname password false].
    split; [done|]. by repeat constructor.
  - split_and!; [done | |].
    + exists [EvReply 235 (type_line 235 None (Some ($$"Authentication successful.")) []); EvPassword uname password true].
      split; [done|]. by repeat constructor.
    + right. exists uname, password. split; [done|]. cbn. set_solver.
Qed.

Lemma auth_logs_in buf cp : walks no_crash logs_in (smtp_auth buf cp).
Proof.
  apply walks_catch. unfold auth_body.
  assert (forall k : ptr -> cmd Z, (forall cp, walks no_crash logs_in (k cp)) ->
    walks no_crash logs_in (auth_checks;; cp ← auth_mechanism cp; k cp)) as Hf.
  { intros k Hk. apply walks_bind; [|intros _; apply walks_bind; [|done]]; apply walks_logs_in; walk_steps. }
  apply Hf. intros cp'.
  apply walks_bind; [apply walks_logs_in, chats_auth_username|]. intros uname.
  apply walks_bind; [apply walks_logs_in, chats_auth_answer|]. intros password.
  unfold pwmatch. apply auth_verdict. walk_steps.
Qed.
End auth.

#[export] Hint Resolve auth_logs_in : zm.

(** ** Reading forward *)

Definition shrinks (ss ss' : SmtpState) : Prop := (length (input ss') <= length (input ss))%nat.

#[export] Instance shrinks_preorder : PreOrder shrinks.
Proof. split; unfold shrinks; [by intros ?|]. intros ? ? ? ? ?. lia. Qed.

Lemma shrinks_chats {A} (m : cmd A) : walks any_end chats m -> walks any_end shrinks m.
Proof. apply walks_mono; [done|]. by intros ss ss' [? _]. Qed.

Lemma shrinks_talks {A} (m : cmd A) : walks any_end talks m -> walks any_end shrinks m.
Proof. apply walks_mono; [done|]. by intros ss ss' [? _]. Qed.

Lemma shrinks_logs_in {A} (m : cmd A) : walks no_crash logs_in m -> walks any_end shrinks m.
Proof. apply walks_mono; [done|]. by intros ss ss' [? _]. Qed.

(** The handlers outside the model read the input forward, and neither
    authenticate anybody nor hand over messages. *)
Class QuietHandlers {hd : Handlers} := {
  quiet_turnme verb cp : walks any_end chats (smtp_turnme verb cp);
  quiet_report buf cp : walks any_end chats (smtp_report buf cp);
  quiet_help cp : walks any_end chats (help cp);
  quiet_debug buf : walks any_end chats (debug_report buf);
  quiet_ident : walks any_end chats show_ident
}.

#[export] Hint Resolve quiet_turnme quiet_report quiet_help quiet_debug quiet_ident : zm.

Section serving.
Context {cf : Config} {env : Env} {hd : Handlers} {QH : QuietHandlers}.

#[local] Hint Resolve shrinks_chats shrinks_talks shrinks_logs_in : zm.

(** A line puts nothing back into the input. *)
Lemma shrinks_serve_line g insecure : walks any_end shrinks (serve_line g insecure).
Proof. walk_steps. Qed.
End serving.
