(* ===== verification/SmtpSession.v ===== *)
(** * The session invariant

    Every round of the session loop of smtpserver/smtpserver.c keeps the
    invariant that an open transaction has its spool file and its sender,
    and so never writes through a null pointer, as long as no HELO is
    refused, the spool file can be written, and the client sends DATA and
    BDAT in their places.  The handlers outside the model enter through the
    laws of [LawfulHandlers]. *)

From Stdlib Require Import ZArith Lia.
From stdpp Require Import base tactics numbers list option relations.
From S2P Require Import Prelude StrMatch Rfc821 SmtpState SmtpCmds SmtpLine SmtpData SmtpSpec SmtpDataSpec SmtpMail SmtpRcpt SmtpAuth SmtpServer SmtpWalk.

#[local] Open Scope Z_scope.

(** ** Blocks that leave the transaction alone *)

Definition calm (ss ss' : SmtpState) : Prop :=
  mfp ss' = mfp ss /\ state ss' = state ss /\ smtpfrom ss' = smtpfrom ss.

#[export] Instance calm_preorder : PreOrder calm.
Proof. split; [done|]. intros ? ? ? (?&?&?) (?&?&?). unfold calm. split_and!; congruence. Qed.

(** [m] is calm; it may return 0 early only when [P]. *)
Definition calmly {A} (P : Prop) (m : cmd A) : Prop :=
  forall ss, sane ss ->
  wpx m (fun r ss' => r = Return 0 /\ calm ss ss' /\ sane ss' /\ P)
    (fun _ ss' => calm ss ss' /\ sane ss') ss.

Section calm.
Context {cf : Config} {env : Env} {P : Prop}.

Lemma calmly_bind {A B} (m : cmd A) (k : A -> cmd B) :
  calmly P m -> (forall a, calmly P (k a)) -> calmly P (m ≫= k).
Proof.
  intros Hm Hk ss Hs. apply wpx_bind. eapply wpx_mono; [by apply Hm|done|].
  cbv beta. intros a ss1 (Hc & Hs1). eapply wpx_mono; [by apply Hk|..]; cbv beta.
  - intros r ss2 (-> & ? & ? & ?). split_and!; [done | by etransitivity | done..].
  - intros b ss2 (? & ?). split; [by etransitivity | done].
Qed.

Lemma calmly_ret {A} (a : A) : calmly P (mret a).
Proof. intros ss Hs. by apply wpx_ret. Qed.

Lemma calmly_read {A} (f : SmtpState -> A) : calmly P (read f).
Proof. intros ss Hs. by apply wpx_read. Qed.

Lemma calmly_update f :
  (forall ss, calm ss (f ss) /\ irouter_state (f ss) = irouter_state ss) -> calmly P (update f).
Proof. intros H ss Hs. apply wpx_update. destruct (H ss) as [? Hi]. split; [done|]. unfold sane. by rewrite Hi. Qed.

Lemma calmly_emit e : calmly P (emit e).
Proof. by apply calmly_update. Qed.

Lemma calmly_scan {A} (m : ST rfc821_err A) : calmly P (scan m).
Proof. intros ss Hs. unfold wpx, scan. by destruct (m (err821 ss)). Qed.

Lemma calmly_if {A} (b : bool) (m1 m2 : cmd A) :
  (b = true -> calmly P m1) -> (b = false -> calmly P m2) -> calmly P (if b then m1 else m2).
Proof. destruct b; auto. Qed.

Lemma calmly_when b (m : cmd unit) : (b = true -> calmly P m) -> calmly P (when b m).
Proof. intros H. destruct b; [by apply H | apply calmly_ret]. Qed.

Lemma calmly_return {A} : P -> calmly (A := A) P (return_ 0).
Proof. intros HP ss Hs. by apply wpx_exit. Qed.

Lemma calmly_silent {A} (m : cmd A) Q : silent m Q -> calmly P m.
Proof.
  intros H ss Hs. eapply wpx_mono; [by apply H|done|]. intros a ss' (Hm & _ & ? & _).
  split; [|done]. destruct Hm as [(? & ? & ? & _) _]. by split_and!.
Qed.

Lemma calmly_policytest t arg len user : calmly P (policytest t arg len user).
Proof.
  unfold policytest. apply calmly_bind; [apply calmly_read|]. intros tr.
  apply calmly_bind; [apply calmly_emit|]. intros _. apply calmly_ret.
Qed.

Lemma calmly_type821err code st buf text : calmly P (type821err code st buf text).
Proof.
  unfold type821err. apply calmly_bind; [apply calmly_read|]. intros e.
  apply calmly_bind; [|intros _; apply calmly_emit].
  apply calmly_if; intros _; [apply calmly_emit | apply calmly_ret].
Qed.
End calm.

Ltac c_steps :=
  repeat lazymatch goal with
  | |- calmly _ (mbind _ _) => apply calmly_bind; [|intros ?]
  | |- calmly _ (mret _) => apply calmly_ret
  | |- calmly _ (read _) => apply calmly_read
  | |- calmly _ (update _) => by apply calmly_update
  | |- calmly _ (emit _) => apply calmly_emit
  | |- calmly _ smtp_tarpit => apply calmly_emit
  | |- calmly _ (mib _) => apply calmly_emit
  | |- calmly _ (type _ _ _) => apply calmly_emit
  | |- calmly _ (type_arg _ _ _ _) => apply calmly_emit
  | |- calmly _ (type821err _ _ _ _) => apply calmly_type821err
  | |- calmly _ (cont250 _ _) => apply calmly_when; intros ?
  | |- calmly _ (policytest _ _ _ _) => apply calmly_policytest
  | |- calmly _ (scan _) => apply calmly_scan
  | |- calmly _ (when _ _) => apply calmly_when; intros ?
  | |- calmly _ (if ?b then _ else _) =>
      lazymatch type of b with
      | bool => apply calmly_if; intros ?
      | option _ => destruct b
      end
  end.

(** ** HELO *)

(** Configurations in which a greeting may be refused. *)
Definition may_refuse_helo {cf : Config} : Prop :=
  checkhelo && skeptical = true \/
  existsb (fun e => (hd 0 e.2 =? $"!") || has_char e.2 $"h") cfhead = true \/
  has_char style $"h" = true.

Section session.
Context {cf : Config} {env : Env} {SR : SaneRouter}.

Lemma findcf_refuse h flags : findcf h = Some flags ->
  (hd 0 flags =? $"!") || has_char flags $"h" = true -> may_refuse_helo.
Proof.
  unfold findcf, may_refuse_helo. intros Hf Hr. right; left.
  induction cfhead as [|[pat fl] cfs IH]; [done|].
  cbn [find_entry existsb snd] in *. destruct (strmatch _ _); [injection Hf as ->; by rewrite Hr|].
  rewrite IH by done. apply orb_true_r.
Qed.

Lemma calmly_helo_check cp : calmly may_refuse_helo (helo_check cp).
Proof. unfold helo_check. c_steps. Qed.

Lemma calmly_router f arg : calmly may_refuse_helo (router f true arg).
Proof.
  intros ss Hs. eapply wpx_mono; [by apply asking_router|done|].
  cbv beta. intros r ss' ([(? & ? & ? & _) _] & ? & _). by split_and!.
Qed.

Lemma calmly_ehlo_extensions P : calmly P ehlo_extensions.
Proof. unfold ehlo_extensions, smtpauth_ehloresponse, auth_login_lines. c_steps. Qed.

Lemma calmly_helo_greet P verb verbname cp : calmly P (helo_greet verb verbname cp).
Proof. unfold helo_greet. c_steps. Qed.

Lemma calmly_helo_router : 
  forall ss, sane ss ->
  (forall flags, cfinfo ss = Some flags -> has_char flags $"h" = true -> may_refuse_helo) ->
  wpx helo_router (fun r ss' => r = Return 0 /\ calm ss ss' /\ sane ss' /\ may_refuse_helo)
    (fun _ ss' => calm ss ss' /\ sane ss') ss.
Proof.
  intros ss Hs Hinfo. unfold helo_router. apply wpx_bind, wpx_read.
  destruct (STYLE (cfinfo ss) $"h") eqn:Est; [|by apply wpx_ret].
  assert (may_refuse_helo) as HP.
  { unfold STYLE in Est. destruct (cfinfo ss) as [flags|]; [by eapply Hinfo | by right; right]. }
  cbn [when]. apply calmly_bind; [apply calmly_router | | done].
  intros [s|]; [|by apply calmly_return]. c_steps. by apply calmly_return.
Qed.

(** Behind the greeting checks: the state is reset, or the greeting was
    refused and only the spool file is gone. *)
Definition greeted (ss ss' : SmtpState) : Prop :=
  sane ss' /\ mfp ss' = None /\
  (state ss' = MailOrHello \/ (may_refuse_helo /\ state ss' = state ss)).

Lemma helo_reset_spec verb ss :
  sane ss ->
  wpx (helo_reset verb) (fun _ _ => False) (fun _ ss' =>
    mfp ss' = None /\ state ss' = state ss /\ sane ss') ss.
Proof.
  intros Hs. unfold helo_reset. apply wpx_bind.
  apply wpx_mono with (E := fun _ _ => False) (Q := fun _ ss' => calm ss ss' /\ sane ss').
  - destruct verb; (by apply wpx_ret) || (by apply wpx_update).
  - done.
  - intros _ ss1 ((Hm & Hst & _) & Hs1). apply wpx_bind, wpx_read.
    destruct (mfp ss1) eqn:E1; [|by apply wpx_ret].
    eapply wpx_mono; [apply abort_mail_spec|done|].
    cbv beta. intros _ ss2 (? & ? & _ & _ & Hi). split_and!; [done | congruence |].
    unfold sane. by rewrite Hi.
Qed.

Lemma calm_then {A B} (m : cmd A) (k : A -> cmd B) P E Q ss ss0 :
  calmly P m -> calm ss0 ss -> sane ss ->
  (forall r ss', r = Return 0 -> calm ss0 ss' -> sane ss' -> P -> E r ss') ->
  (forall a ss', calm ss0 ss' -> sane ss' -> wpx (k a) E Q ss') ->
  wpx (m ≫= k) E Q ss.
Proof.
  intros Hm Hc Hs HE Hk. apply wpx_bind. eapply wpx_mono; [by apply Hm|..]; cbv beta.
  - intros r ss' (-> & ? & ? & ?). apply HE; [done | by etransitivity | done | done].
  - intros a ss' (? & ?). apply Hk; [by etransitivity | done].
Qed.

(** The end of smtp_helo(): greeting, extensions and the new state. *)
Lemma helo_tail_spec verb verbname cp ss :
  sane ss -> mfp ss = None ->
  (forall flags, cfinfo ss = Some flags -> has_char flags $"h" = true -> may_refuse_helo) ->
  wpx (helo_router;; helo_greet verb verbname cp;;
       (if cmd_eqb verb Hello2 then
          ehlo_extensions;;
          update (fun ss => set_with_protocol_set (Z.lor (with_protocol_set ss) WITH_EHLO) ss)
        else update (set_with_protocol_set WITH_HELO));;
       update (set_state MailOrHello);;
       mret 0)
    (fun r ss' => r = Return 0 /\ calm ss ss' /\ sane ss' /\ may_refuse_helo)
    (fun _ ss' => sane ss' /\ mfp ss' = None /\ state ss' = MailOrHello) ss.
Proof.
  intros Hs Hm Hinfo. apply wpx_bind. eapply wpx_mono; [by apply calmly_helo_router|done|].
  cbv beta. intros _ ss1 (C1 & S1).
  eapply calm_then with (ss0 := ss); [apply (calmly_helo_greet False) | done..|].
  intros _ ss2 C2 S2. eapply calm_then with (ss0 := ss) (P := False); [| done..|].
  { c_steps. apply calmly_ehlo_extensions. }
  intros _ ss3 C3 S3. wpx_steps. split_and!; [done | | done]. cbn. rewrite <- Hm. apply C3.
Qed.

Lemma smtp_helo_spec verb verbname buf cp ss :
  sane ss -> wpx (smtp_helo verb verbname buf cp) (fun _ _ => False) (fun _ ss' => greeted ss ss') ss.
Proof.
  intros Hs. apply wpx_catch. unfold helo_body.
  apply wpx_bind. eapply wpx_mono; [by apply helo_reset_spec|done|].
  cbv beta. intros _ ss0 (Hm0 & Hst0 & S0).
  set (E := fun r ss' => if r is Return _ then greeted ss ss' else False).
  assert (forall r ss', r = Return 0 -> calm ss0 ss' -> sane ss' -> may_refuse_helo -> E r ss') as HE.
  { intros r ss' -> (Hm & Hst & _) Hs' HP. split_and!; [done | congruence |]. right. split; [done | congruence]. }
  assert (calm ss0 ss0) as C0 by done.
  eapply calm_then; [by apply calmly_update | done..|]. intros _ ss1 C1 S1.
  eapply calm_then; [by apply calmly_update | done..|]. intros _ ss2 C2 S2.
  eapply calm_then; [apply calmly_helo_check | done..|]. intros rc ss3 C3 S3.
  eapply calm_then; [apply calmly_read | done..|]. intros user ss4 C4 S4.
  eapply calm_then with (P := may_refuse_helo); [by c_steps | done..|]. intros pr ss5 C5 S5.
  eapply calm_then; [by apply calmly_update | done..|]. intros _ ss6 C6 S6.
  eapply calm_then; [apply calmly_read | done..|]. intros e ss7 C7 S7.
  eapply calm_then with (P := may_refuse_helo); [| done..|].
  { c_steps. apply calmly_return. left. by zbool; rewrite H, H1. }
  intros _ ss8 C8 S8. eapply calm_then with (P := may_refuse_helo); [by c_steps | done..|].
  intros _ ss9 C9 S9. apply wpx_bind, wpx_update, wpx_bind, wpx_read. cbn [cfinfo set_cfinfo].
  set (cp' := skip_blanks_if _ _). set (ss10 := set_cfinfo _ _).
  apply wpx_bind. eapply (wpx_mono _ (fun r ss' => r = Return 0 /\ calm ss0 ss' /\ sane ss' /\ may_refuse_helo) _
    (fun _ ss' => ss' = ss10)).
  { destruct (findcf (str cp')) as [flags|] eqn:Ef; [|by apply wpx_ret].
    destruct (hd 0 flags =? $"!") eqn:Eb; [|by apply wpx_ret]. cbn [when].
    assert (may_refuse_helo) by (eapply findcf_refuse; [exact Ef | by rewrite Eb]).
    unfold smtp_tarpit, type, type_arg, emit. wpx_steps. by split_and!. }
  { intros r ss' (? & ? & ? & ?). by apply HE. }
  intros _ ss' ->. eapply wpx_mono; [apply helo_tail_spec|..].
  - done.
  - cbn. rewrite <- Hm0. apply C9.
  - intros flags Hf Hh. cbn in Hf. eapply findcf_refuse; [exact Hf|]. rewrite Hh. apply orb_true_r.
  - intros r ss' (? & C & ? & ?). apply HE; [done | | done..]. etransitivity; [exact C9 | exact C].
  - cbv beta. intros _ ss' (? & ? & ?). split_and!; [done..|]. by left.
Qed.

(** ** VRFY and EXPN *)

Lemma calmly_asking {A} P (m : cmd (option A)) Q : asking m Q -> calmly P m.
Proof.
  intros H ss Hs. eapply wpx_mono; [by apply H|done|].
  cbv beta. intros r ss' ([(? & ? & ? & _) _] & ? & _). by split_and!.
Qed.

Lemma calmly_present_line P final p : calmly P (present_line final p).
Proof.
  unfold present_line. c_steps. destruct (if _ : bool then _ else _) as [st text]. c_steps.
Qed.

Lemma calmly_set_irouter P st : sane_pbuf st -> calmly P (update (set_irouter_state (Some st))).
Proof. intros. by eapply calmly_silent, silent_set_irouter. Qed.

Lemma calmly_count_failure P : calmly P count_interface_failure.
Proof. eapply calmly_silent, silent_count_failure. Qed.

Lemma calmly_router_ask P st f hold arg : sane_pbuf st -> calmly P (router_ask st f hold arg).
Proof.
  intros Hst. unfold router_ask. apply calmly_bind; [by apply calmly_set_irouter|]. intros _.
  destruct (negb (sawhungry st)).
  { apply calmly_bind; [by apply calmly_set_irouter|]. intros _. c_steps. apply calmly_count_failure. }
  apply calmly_bind; [apply calmly_emit|]. intros _. apply calmly_bind; [apply calmly_read|]. intros tr.
  rewrite router_writable. intros ss Hs. apply wpx_bind.
  eapply wpx_mono; [apply asking_router_loop; [apply router_lines | done | done]|done|].
  cbv beta. intros r ss1 ([(Hm & Hst1 & Hf & _) _] & Hs1 & Hr).
  assert (calm ss ss1) as C by done.
  assert (forall m : cmd (option (list Z)), calmly P m ->
    wpx m (fun r ss' => r = Return 0 /\ calm ss ss' /\ sane ss' /\ P)
      (fun _ ss' => calm ss ss' /\ sane ss') ss1) as Hk.
  { intros m Hc. eapply wpx_mono; [by apply Hc|..]; cbv beta.
    - intros r' ss' (? & ? & ? & ?). split_and!; [done | by etransitivity | done..].
    - intros r' ss' (? & ?). split; [by etransitivity | done]. }
  apply Hk. destruct r as [st'|]; [|c_steps]. destruct Hr as [_ Hst'].
  destruct (pbuf st') as [p|] eqn:Ep; (apply calmly_bind; [by apply calmly_set_irouter|]); intros _; c_steps.
  apply calmly_present_line.
Qed.

Lemma calmly_router_any P f hold arg : calmly P (router f hold arg).
Proof.
  unfold router. apply calmly_if; intros _; [c_steps; apply calmly_count_failure|].
  intros ss Hs. apply wpx_bind, wpx_read.
  destruct (irouter_state ss) as [[[] h p]|] eqn:Ei; [by apply calmly_router_ask; [apply Hs|]|..].
  all: apply wpx_bind, wpx_read; cbv zeta;
    destruct (smtprouter_init (ext_router_init (trace ss)) _) as [st|] eqn:E;
    [|exfalso; pose proof (router_available (trace ss)); by destruct (ext_router_init (trace ss))].
  all: assert (sane_pbuf st) as Hst by (eapply smtprouter_init_sane; [|exact E];
         first [by intros x [= <-]; apply Hs | done]).
  all: destruct st as [[] [] p']; try (by apply calmly_router_ask);
    (apply calmly_bind; [first [by apply calmly_set_irouter | apply calmly_ret] | intros _ | done]);
    c_steps; try apply calmly_count_failure; by apply calmly_set_irouter.
Qed.

Lemma calmly_catch P (m : cmd Z) ss :
  calmly P m -> sane ss ->
  wpx (catch m) (fun _ _ => False) (fun _ ss' => calm ss ss' /\ sane ss') ss.
Proof.
  intros Hm Hs. apply wpx_catch. eapply wpx_mono; [by apply Hm|..]; cbv beta; [|done].
  intros r ss' (-> & ? & ? & _). done.
Qed.

Lemma smtp_verify_spec buf cp ss :
  sane ss -> wpx (smtp_verify buf cp) (fun _ _ => False) (fun _ ss' => calm ss ss' /\ sane ss') ss.
Proof.
  apply (calmly_catch True). unfold verify_body. c_steps; [by apply calmly_return|].
  destruct (rfc821to822quote _ _) as [cp' n]. c_steps. apply calmly_router_any.
Qed.

Lemma smtp_expand_spec buf cp ss :
  sane ss -> wpx (smtp_expand buf cp) (fun _ _ => False) (fun _ ss' => calm ss ss' /\ sane ss') ss.
Proof.
  apply (calmly_catch True). unfold expand_body. c_steps; [by apply calmly_return|].
  destruct (rfc821to822quote _ _) as [cp' n]. c_steps. apply calmly_router_any.
Qed.

(** ** Rounds of the session loop *)

(** What the loop may assume of the session in front of a round, and what
    it promises behind one that continues. *)
Definition healthy (ss : SmtpState) : Prop := sane ss /\ session_inv ss.

Lemma calm_healthy ss ss' : healthy ss -> calm ss ss' -> sane ss' -> healthy ss'.
Proof. intros [_ Hi] (Hm & Hst & Hf) Hs. split; [done|]. unfold session_inv. by rewrite Hm, Hst, Hf. Qed.

Lemma mail_outcome_healthy ss rc ss' : healthy ss -> mail_outcome ss rc ss' -> healthy ss'.
Proof.
  intros [Hs Hi] (_ & Hs' & [(-> & T) | (-> & Hout & cp & n & Hf & Hend)]).
  - apply (calm_healthy ss); [done | | done]. destruct T as (? & ? & ? & _). by split_and!.
  - split; [done|]. intros Hin. destruct Hend as [[_ Hst] | (_ & _ & _ & _ & v & w & Hm)].
    + rewrite Hst in Hin. congruence.
    + by rewrite Hm, Hf.
Qed.

Lemma rcpt_outcome_healthy ss rc ss' : healthy ss -> rcpt_outcome ss rc ss' -> healthy ss'.
Proof.
  intros [Hs Hi] (_ & Hs' & H). split; [done|]. intros Hin.
  destruct H as [(_ & Hg & Hst & Hf & _) | H].
  - rewrite Hst in Hin. destruct (Hi Hin) as [Hm Hfr]. rewrite Hf. split; [|done].
    destruct Hg as [-> | (b & a & _ & ->)]; done.
  - assert (recorded ss ss' /\ smtpfrom ss' = smtpfrom ss) as [Hr Hf] by (destruct H as [H|H]; split; apply H).
    destruct Hr as (b & o & cp & n & ss1 & f & w & _ & Hff & _ & Hm). by rewrite Hm, Hf, Hff.
Qed.
End session.

Definition keeps {A} (m : cmd A) : Prop :=
  forall ss, healthy ss -> wpx m (fun _ _ => False) (fun _ ss' => healthy ss') ss.

(** What the handlers outside the model promise: they do not crash, and
    keep the invariant. *)
Class LawfulHandlers {hd : Handlers} := {
  lawful_turnme verb cp : keeps (smtp_turnme verb cp);
  lawful_report buf cp : keeps (smtp_report buf cp);
  lawful_help cp : keeps (help cp);
  lawful_debug buf : keeps (debug_report buf);
  lawful_ident : keeps show_ident
}.

(** DATA and BDAT at places where they do no harm: not between MAIL and the
    first accepted RCPT, and no BDAT behind a block that has failed. *)
Definition orderly (c : Command) (ss : SmtpState) : Prop :=
  match c with
  | Data => state ss <> Recipient
  | BData => state ss <> Recipient /\ (state ss = BData -> is_some (mfp ss) = true)
  | _ => True
  end.
Definition orderly_line {cf : Config} (g : gets) (ss : SmtpState) : Prop :=
  forall verb c, command_of (Ptr 0 (command_text g)) = Some (verb, c) -> orderly c ss.

Lemma orderly_calm c ss ss' : calm ss ss' -> orderly c ss -> orderly c ss'.
Proof. intros (Hm & Hst & _). unfold orderly. by rewrite Hm, Hst. Qed.

Section rounds.
Context {cf : Config} {env : Env} {SR : SaneRouter} {hd : Handlers} {LH : LawfulHandlers}.
Hypothesis helo_accepted : ~ may_refuse_helo.
Hypothesis spool_writable : forall tr, ext_ferror tr = false.

Lemma keeps_bind {A B} (m : cmd A) (k : A -> cmd B) :
  keeps m -> (forall a, keeps (k a)) -> keeps (m ≫= k).
Proof.
  intros Hm Hk ss Hs. apply wpx_bind. eapply wpx_mono; [by apply Hm|done|].
  intros a ss1 H1. by apply Hk.
Qed.

Lemma keeps_calm {A} (m : cmd A) : calmly False m -> keeps m.
Proof.
  intros Hm ss Hh. pose proof Hh as [Hs _]. eapply wpx_mono; [by apply Hm|..]; cbv beta.
  - tauto.
  - intros a ss' (? & ?). by eapply calm_healthy.
Qed.

Lemma keeps_do_mail buf cp insecure : keeps (do_mail buf cp insecure).
Proof.
  unfold do_mail. apply keeps_bind; [by apply keeps_calm; c_steps|]. intros _.
  apply keeps_bind; [|intros rc; apply keeps_calm; c_steps].
  intros ss Hh. eapply wpx_mono; [apply smtp_mail_spec, Hh|done|].
  intros rc ss'. by apply mail_outcome_healthy.
Qed.

Lemma keeps_do_rcpt buf cp : keeps (do_rcpt buf cp).
Proof.
  unfold do_rcpt. apply keeps_bind; [by apply keeps_calm; c_steps|]. intros _.
  apply keeps_bind; [|intros rc; apply keeps_calm; c_steps].
  intros ss Hh. eapply wpx_mono; [apply smtp_rcpt_spec; apply Hh|done|].
  intros rc ss'. by apply rcpt_outcome_healthy.
Qed.

Lemma keeps_do_reset cp : keeps (do_reset cp).
Proof.
  intros ss [Hs Hi]. unfold do_reset, mib, emit. apply wpx_bind, wpx_update, wpx_bind, wpx_read, wpx_bind.
  apply wpx_mono with (E := fun _ _ => False) (Q := fun _ ss1 => sane ss1).
  - cbn [mfp set_trace]. destruct (mfp ss); cbn [is_some when]; [|by apply wpx_ret]. eapply wpx_mono; [apply abort_mail_spec|done|].
    cbv beta. intros _ ss1 (_ & _ & _ & _ & Hr). unfold sane. by rewrite Hr.
  - done.
  - intros _ ss1 Hs1. apply wpx_bind, wpx_read, wpx_bind.
    apply wpx_mono with (E := fun _ _ => False) (Q := fun _ ss2 => sane ss2 /\ in_transaction (state ss2) = false).
    + destruct (negb (cmd_eqb (state ss1) Hello)) eqn:E; cbn [when]; [by apply wpx_update|].
      apply wpx_ret. split; [done|]. unfold cmd_eqb in E. case_bool_decide as Hst; [by rewrite Hst | done].
    + done.
    + intros _ ss2 [Hs2 Hst2]. unfold type, type_arg, emit.
      wpx_steps; (split; [done|]); intros Hin; cbn in Hin; congruence.
Qed.

Lemma keeps_helo verb verbname buf cp : keeps (smtp_helo verb verbname buf cp).
Proof.
  intros ss [Hs _]. eapply wpx_mono; [by apply smtp_helo_spec|done|].
  cbv beta. intros _ ss' (Hs' & _ & [Hst | [? _]]); [|done]. split; [done|]. intros Hin. by rewrite Hst in Hin.
Qed.

Lemma keeps_vrfy buf cp : keeps (smtp_verify buf cp).
Proof.
  intros ss Hh. eapply wpx_mono; [apply smtp_verify_spec, Hh|done|]. intros _ ss' [? ?]. by eapply calm_healthy.
Qed.

Lemma keeps_expn buf cp : keeps (smtp_expand buf cp).
Proof.
  intros ss Hh. eapply wpx_mono; [apply smtp_expand_spec, Hh|done|]. intros _ ss' [? ?]. by eapply calm_healthy.
Qed.

(** AUTH leaves the state alone, and refuses to run in a transaction. *)
Definition stays (ss ss' : SmtpState) : Prop :=
  state ss' = state ss /\ irouter_state ss' = irouter_state ss.

#[local] Instance stays_preorder : PreOrder stays.
Proof. split; [done|]. intros ? ? ? [? ?] [? ?]. split; congruence. Qed.

Lemma stays_auth cp : walks no_crash stays (auth_body cp).
Proof. walk_steps. Qed.

Lemma not_in_transaction st : st <> Recipient -> st <> RecipientOrData -> in_transaction st = false.
Proof. intros. unfold in_transaction, cmd_eqb. by rewrite !bool_decide_false. Qed.

Lemma auth_checks_spec ss : sane ss ->
  wpx auth_checks (fun r ss' => r = Return 0 /\ calm ss ss' /\ sane ss')
    (fun _ _ => in_transaction (state ss) = false) ss.
Proof.
  intros S0. unfold auth_checks, auth_fail.
  set (E := fun (r : stop) ss' => r = Return 0 /\ calm ss ss' /\ sane ss').
  assert (forall r ss', r = Return 0 -> calm ss ss' -> sane ss' -> True -> E r ss') as HE by done.
  assert (calm ss ss) as C0 by done.
  eapply (calm_then _ _ True); [apply calmly_read | done..|]. intros w s1 C1 S1.
  eapply (calm_then _ _ True); [c_steps; by apply calmly_return | done..|]. intros _ s2 C2 S2.
  eapply (calm_then _ _ True); [apply calmly_read | done..|]. intros user s3 C3 S3.
  eapply (calm_then _ _ True); [apply calmly_policytest | done..|]. intros rc s4 C4 S4.
  eapply (calm_then _ _ True); [c_steps; by apply calmly_return | done..|]. intros _ s5 C5 S5.
  apply wpx_bind, wpx_read. replace (state s5) with (state ss) by (symmetry; apply C5).
  eapply (calm_then _ _ True); [c_steps; by apply calmly_return | done..|]. intros _ s6 C6 S6.
  destruct (cmd_eqb (state ss) MailOrHello || cmd_eqb (state ss) Mail) eqn:Est.
  - assert (in_transaction (state ss) = false) as ->.
    { apply not_in_transaction; intros E1; by rewrite E1 in Est. }
    replace (_ && _) with false by (by destruct (cmd_eqb (state ss) MailOrHello), (cmd_eqb (state ss) Mail)).
    cbn [when]. apply wpx_bind, wpx_ret.
    eapply wpx_mono; [apply (calmly_when (P := True)); [intros _; c_steps; by apply calmly_return | done]|..]; cbv beta.
    + intros r ss' (? & ? & ? & _). apply HE; [done | by etransitivity | done | done].
    + done.
  - replace (_ && _) with true by (by destruct (cmd_eqb (state ss) MailOrHello), (cmd_eqb (state ss) Mail)).
    cbn [when]. apply wpx_bind.
    eapply (calm_then _ _ True); [c_steps | done..|]. intros _ s7 C7 S7. by apply wpx_exit, HE.
Qed.

Lemma healthy_outside ss ss' :
  healthy ss -> irouter_state ss' = irouter_state ss -> in_transaction (state ss') = false -> healthy ss'.
Proof. intros [Hs _] Hi Hst. split; [unfold sane; by rewrite Hi|]. intros Hin. congruence. Qed.

Lemma keeps_auth buf cp : keeps (smtp_auth buf cp).
Proof.
  intros ss Hh. pose proof Hh as [Hs Hi]. apply wpx_catch.
  destruct (in_transaction (state ss)) eqn:Hin.
  - unfold auth_body. apply wpx_bind. eapply wpx_mono; [by apply auth_checks_spec|..]; cbv beta.
    + intros r ss' (-> & ? & ?). by eapply calm_healthy.
    + intros _ ss' H. congruence.
  - destruct (stays_auth cp ss) as [[Hst Hr] HE]. unfold wpx. destruct (auth_body cp ss) as [[[]|] ss']; cbn in *.
    + apply (healthy_outside ss); [done..|]. congruence.
    + by destruct (HE Segv eq_refl).
    + apply (healthy_outside ss); [done..|]. congruence.
Qed.

Lemma data_healthy buf cp ss :
  healthy ss -> state ss <> Recipient ->
  wpx (smtp_data buf cp) (fun _ _ => False) (fun rc ss' => 0 <= rc -> healthy ss') ss.
Proof.
  intros Hh Hst. pose proof Hh as [_ Hi]. eapply wpx_mono; [by apply smtp_data_spec | done |].
  cbv beta. intros rc ss' [[-> HR] | [_ (b & tr & _ & T)]] Hrc.
  - destruct HR as [(_ & evs & -> & _) | [(Hs & evs & -> & _) | [(_ & (tr & Hf) & _) | (_ & _ & evs & -> & _)]]].
    + apply (calm_healthy ss); [done..|]. apply Hh.
    + apply (healthy_outside ss); [done..|]. by apply not_in_transaction.
    + by rewrite spool_writable in Hf.
    + by apply (healthy_outside ss).
  - destruct T as (_ & _ & _ & _ & Hr & d & _ & T). destruct (_ || _).
    + destruct T as [-> _]. lia.
    + destruct T as (_ & Hs & _). apply (healthy_outside ss); [done..|]. by rewrite Hs.
Qed.

Lemma bdata_healthy buf cp ss :
  healthy ss -> state ss <> Recipient -> (state ss = BData -> is_some (mfp ss) = true) ->
  wpx (smtp_bdata buf cp) (fun _ _ => False) (fun rc ss' => 0 <= rc -> healthy ss') ss.
Proof.
  intros Hh Hst Hb. pose proof Hh as [_ Hi]. eapply wpx_mono; [by apply smtp_bdata_spec | done |].
  cbv beta. intros rc ss' (Hr & Hf & [-> | [_ HO]]) Hrc; [lia|].
  assert (state ss' = state ss -> state ss <> RecipientOrData -> in_transaction (state ss') = false) as Hout.
  { intros -> ?. by apply not_in_transaction. }
  apply (healthy_outside ss); [done..|].
  destruct HO as [(? & ? & _) | [-> | [-> | (? & _ & ? & _)]]]; [by apply Hout | done | done | by apply Hout].
Qed.

(** A round that goes on keeps the invariant; one that ends the session
    only does not crash. *)
Definition rounds (P : SmtpState -> Prop) (m : cmd next) : Prop :=
  forall ss, healthy ss -> P ss -> wpx m (fun _ _ => False) (fun n ss' => n = Continue -> healthy ss') ss.

Lemma rounds_bind {A} P (m : cmd A) (k : A -> cmd next) :
  keeps m -> (forall a, rounds (fun _ => True) (k a)) -> rounds P (m ≫= k).
Proof.
  intros Hm Hk ss Hs _. apply wpx_bind. eapply wpx_mono; [by apply Hm|done|].
  intros a ss1 H1. by apply Hk.
Qed.

(** In front of the command nothing changes that [P] looks at. *)
Lemma rounds_calm {A} (P : SmtpState -> Prop) (m : cmd A) (k : A -> cmd next) :
  (forall ss ss', calm ss ss' -> P ss -> P ss') ->
  calmly False m -> (forall a, rounds P (k a)) -> rounds P (m ≫= k).
Proof.
  intros HP Hm Hk ss Hs Hp. pose proof Hs as [Hsane _]. apply wpx_bind. eapply wpx_mono; [by apply Hm|cbv beta; tauto|].
  cbv beta. intros a ss1 [C S1]. apply Hk; [by eapply calm_healthy | by eapply HP].
Qed.

Lemma rounds_keeps P (m : cmd next) : keeps m -> rounds P m.
Proof. intros Hm ss Hs _. eapply wpx_mono; [by apply Hm|done|done]. Qed.

Lemma rounds_continue {A} P (m : cmd A) : keeps m -> rounds P (then_continue m).
Proof. intros Hm. apply rounds_bind; [done|]. intros _. apply rounds_keeps, keeps_calm. c_steps. Qed.

Lemma rounds_quit P cp : rounds P (do_quit cp;; mret Quit_).
Proof.
  intros ss [Hs _] _. unfold do_quit. apply wpx_bind.
  apply wpx_mono with (E := fun _ _ => False) (Q := fun _ _ => True); [|done|by intros; apply wpx_ret].
  unfold mib, emit, type, type_arg. apply wpx_bind, wpx_update, wpx_bind, wpx_read, wpx_bind.
  apply wpx_mono with (E := fun _ _ => False) (Q := fun _ _ => True); [|done|].
  { unfold emit. destruct (_ && _); cbn [when]; [by apply wpx_update | by apply wpx_ret]. }
  intros _ ss1 _. apply wpx_bind, wpx_read, wpx_bind.
  apply wpx_mono with (E := fun _ _ => False) (Q := fun _ _ => True); [|done|].
  - destruct (is_some _); cbn [when]; [|by apply wpx_ret].
    eapply wpx_mono; [apply abort_mail_spec|done|done].
  - intros _ ss2 _. wpx_steps. done.
Qed.

(** DATA and BDAT: the session goes on only when they return 0. *)
Lemma rounds_returning (P : SmtpState -> Prop) (m : cmd Z) :
  (forall ss, healthy ss -> P ss ->
    wpx m (fun _ _ => False) (fun rc ss' => 0 <= rc -> healthy ss') ss) ->
  rounds P (rc ← m; mret (if rc <? 0 then Quit_ else Continue)).
Proof.
  intros Hm ss Hs Hp. apply wpx_bind. eapply wpx_mono; [by apply Hm|done|].
  cbv beta. intros rc ss' Hrc. apply wpx_ret. destruct (rc <? 0) eqn:E; [done|]. intros _. apply Hrc. zbool. lia.
Qed.

Lemma keeps_unknown_command buf : keeps (unknown_command buf).
Proof. apply keeps_calm. unfold unknown_command. c_steps. Qed.

Lemma rounds_dispatch verb c buf cp insecure : rounds (orderly c) (dispatch verb c buf cp insecure).
Proof.
  unfold dispatch. apply rounds_calm; [apply orderly_calm | c_steps |]. intros info.
  destruct c; lazymatch goal with |- rounds _ (then_continue _) => apply rounds_continue | _ => idtac end;
    eauto using keeps_do_mail, keeps_do_rcpt, keeps_do_reset, keeps_helo, keeps_vrfy, keeps_expn,
      keeps_auth, lawful_turnme, lawful_help, lawful_debug, lawful_ident, rounds_quit;
    try (apply keeps_calm; by c_steps); try (apply rounds_keeps, keeps_calm; by c_steps).
  - apply rounds_returning. intros ss Hs Ho. by apply data_healthy.
  - apply rounds_returning. intros ss Hs [Ho Hb]. by apply bdata_healthy.
  - apply rounds_bind; [apply lawful_report|]. intros rc. apply rounds_keeps.
    destruct (rc <? 0); [apply keeps_unknown_command | apply keeps_calm; c_steps].
Qed.

Lemma calmly_allow_command P c : calmly P (allow_command c).
Proof. unfold allow_command. c_steps. Qed.

Lemma rounds_run_command (P : SmtpState -> Prop) buf insecure :
  (forall verb c ss, command_of buf = Some (verb, c) -> P ss -> orderly c ss) ->
  rounds P (run_command buf insecure).
Proof.
  intros HP. unfold run_command.
  destruct (command_of buf) as [[verb c]|]; [|apply rounds_keeps, keeps_unknown_command].
  destruct (disabled c); [apply rounds_keeps, keeps_unknown_command|].
  intros ss Hs Hp. apply (rounds_calm (orderly c)); [apply orderly_calm | apply calmly_allow_command | | done | by eapply HP].
  intros []; [apply rounds_dispatch|]. apply rounds_keeps, keeps_calm. c_steps.
Qed.

Lemma rounds_serve_line g insecure : rounds (orderly_line g) (serve_line g insecure).
Proof.
  assert (forall ss ss', calm ss ss' -> orderly_line g ss -> orderly_line g ss') as HP.
  { intros ss ss' Hc Ho verb c E. eapply orderly_calm; [done|]. by eapply Ho. }
  unfold serve_line. apply rounds_calm; [done | c_steps |]. intros me.
  destruct (_ || _); [apply rounds_keeps, keeps_calm; c_steps|].
  do 2 (apply rounds_calm; [done | c_steps |]; intros ?).
  destruct (_ && _); [apply rounds_keeps, keeps_calm; c_steps|].
  destruct (_ && _); [apply rounds_keeps, keeps_calm; c_steps|]. cbv zeta.
  destruct (0 <=? _); [apply rounds_keeps, keeps_calm; c_steps|].
  destruct (_ || _); [apply rounds_keeps, keeps_calm; c_steps|].
  apply rounds_run_command. intros verb c ss E Ho. by eapply Ho.
Qed.
End rounds.
