(* ===== verification/SmtpDemo.v ===== *)
(** * A concrete server

    A configuration, an environment without a router, and a fresh session:
    the inputs on which the theorems about the SMTP server are exercised. *)

From Stdlib Require Import ZArith Lia.
From stdpp Require Import base tactics numbers list option.
From S2P Require Import Prelude StrMatch Rfc821 SmtpState SmtpCmds SmtpSpec SmtpLine SmtpAuth SmtpServer SmtpSession.

#[local] Open Scope Z_scope.

Definition demo_config_full (no25 via_pipe : bool) (limit : Z) (submission helo_check router_on : bool) : Config := {|
  style := $$"ve"; cfhead := []; msa_mode := submission; lmtp_mode := false; daemon_flg := true;
  strict_protocol := 0; allow_source_route := false; enable_router := router_on;
  sum_sizeoption_value := false; maxsize := limit; minimum_availspace := 5000;
  checkhelo := helo_check; skeptical := true; ident_flag := false;
  interface_fail_limit := 20; unknown_cmd_limit := 10; configuration_ok := true;
  dsn_ok := true; mime8bitok := true; auth_ok := true; deliverby_ok := 0;
  pipeliningok := true; chunkingok := true; enhancedstatusok := true;
  expncmdok := true; vrfycmdok := true; etrn_ok := true; ehlo_ok := true; debugcmdok := false;
  multilinereplies := true; policydb := false; rcptlimitcnt := 100; MaxErrorRecipients := 3;
  force_rcpt_notify_never := false; log_rcvd_ident := false; log_rcvd_authuser := false;
  rhostname := $$"client.org"; rhostaddr := $$"[10.0.0.9]"; rport := 1234;
  myhostname := $$"mx.org"; ident_username := []; netconnected_flg := true;
  postmasteronly := false; contact_pointer_message := []; policystatus := 0;
  reject_net := false; always_accept_or_trust := false;
  no_smtp_auth_on_25 := no25; auth_login_without_tls := true; smtpauth_via_pipe := via_pipe;
  smtp_auth_username_prompt := None; smtp_auth_password_prompt := None
|}.
Definition demo_config_at : Z -> bool -> bool -> bool -> Config := demo_config_full false false.
Definition demo_config_for : bool -> bool -> bool -> Config := demo_config_at 0.
Definition demo_config : bool -> bool -> Config := demo_config_for false.
Definition demo_sized (limit : Z) : Config := demo_config_at limit false false true.

(** A world in which the router answers [lines] to every question. *)
Definition demo_env_full (child : option Z) (write_error : bool) (lines : list fdgets_result) : Env := {|
  ext_policytest _ _ _ _ _ := 0; ext_policymsg _ := None; ext_policyinsizelimit _ := -1;
  ext_addr_match _ _ := true; ext_zpwmatch _ _ _ := None; ext_pwchild _ _ _ := child;
  ext_mail_open _ := true;
  ext_ferror _ := false; ext_statfs _ := Some 1000000; ext_time _ := 1000;
  ext_router_init _ := Init_ok; ext_router_write_error _ := write_error;
  ext_router_lines _ := lines; ext_hasinput _ := false; ext_bail_out _ := false;
  ext_contentpolicy _ _ := 0; ext_fstat _ := (4711, 1000000000, 0);
  ext_mail_close _ := true; ext_mail_close_alternate _ := true
|}.

Definition demo_env : bool -> list fdgets_result -> Env := demo_env_full (Some 0).

Definition router_answer : list fdgets_result :=
  [Line ($$"250 2.1.0 Fine" ++ [10]); Line ($$"#hungry" ++ [10])].

Lemma demo_router_sane : @SaneRouter (demo_env false router_answer).
Proof.
  split; [done | done |]. intros tr l Hin Hne.
  destruct Hin as [[= <-] | [[= <-] | []]]; [vm_compute; done | by vm_compute in Hne].
Qed.

Definition demo_session (inp : list Z) : SmtpState :=
  MkSmtpState None 0 0 0 4 Hello 0 0 None 0 0 false 0 0 false None [] None None
    (Err None None) (-1) 0 0 0 0 0 0 false 0 inp [].

(** A session in a transaction of [me@client.org]. *)
Definition demo_transaction : SmtpState :=
  set_state Recipient (set_smtpfrom (Some ($$"me@client.org"))
    (set_mfp (Some ($$"from <me@client.org>" ++ [10])) (set_availspace 1000000 (demo_session [])))).

Lemma demo_session_healthy inp : healthy (demo_session inp).
Proof. split; [done|]. intros H. done. Qed.

Lemma demo_transaction_healthy : healthy demo_transaction.
Proof. split; [done|]. intros _. done. Qed.

Definition line_of (s : list Z) : ptr := Ptr 0 (s ++ [0]).

(** Handlers that do nothing. *)
Definition demo_handlers : Handlers := {|
  smtp_turnme _ _ := mret 0; smtp_report _ _ := mret 0; help _ := mret 0;
  debug_report _ := mret 0; show_ident := mret 0;
  verb_text := []; copyright_text := []; copyright2_text := []
|}.

Lemma demo_handlers_lawful : @LawfulHandlers demo_handlers.
Proof. split; by intros; intros ss Hs; apply wpx_ret. Qed.
