(* ===== verification/SmtpText.v ===== *)
(** * Texts the SMTP server reads and writes

    The value of the [SIZE=] parameter, the form of reply lines, the xtext
    encoding of the spool file, and the quoting of local parts
    (smtpserver/smtpcmds.c, and type() of smtpserver.c). *)

From Stdlib Require Import ZArith Lia.
From stdpp Require Import base tactics numbers list option.
From S2P Require Import Prelude StrMatch Rfc821 Rfc821Grammar SmtpState SmtpCmds SmtpSpec SmtpDemo.
Import Grammar.

#[local] Open Scope Z_scope.

(** ** The SIZE parameter *)

(** The number a string of digits stands for. *)
Definition decimal (v : Z) (w : list Z) : Z := fold_left (fun v c => v * 10 + (c - $"0")) w v.

Lemma decimal_ge v w : 0 <= v -> forallb isdigit w = true -> v <= decimal v w.
Proof.
  revert v. induction w as [|c w IH]; intros v Hv Hw; [done|].
  cbn in Hw. apply andb_prop in Hw as [Hc Hw]. unfold isdigit in Hc. zbool.
  cbn [decimal fold_left]. etransitivity; [|apply IH; [lia | done]]. lia.
Qed.

(** The loop reads all digits when the value is small enough, and stops at
    a digit, with a value that is still a small number, when it is not. *)
Lemma size_loop_spec v w r :
  0 <= v <= 1000000009 -> forallb isdigit w = true -> isdigit (hd 0 r) = false ->
  (decimal v w <= 1000000000 -> size_loop v (w ++ r) = (decimal v w, length w)) /\
  exists v' n, size_loop v (w ++ r) = (v', n) /\ 0 <= v' <= 1000000009 /\ (n <= length w)%nat /\
    (n = length w -> v' = decimal v w).
Proof.
  revert v. induction w as [|c w IH]; intros v Hv Hw Hr.
  - assert (size_loop v r = (v, O)) as E by (destruct r; cbn in *; by rewrite ?Hr).
    cbn. rewrite E. split; [done|]. by exists v, O.
  - cbn in Hw. apply andb_prop in Hw as [Hc Hw]. cbn [app size_loop]. rewrite Hc. cbn [andb].
    assert (0 <= c - $"0" <= 9) as Hd by (unfold isdigit in Hc; zbool; lia).
    destruct (v >? 100000000) eqn:Ev; cbn [negb]; zbool.
    + split; [|exists v, O; split_and!; [done | lia | lia | lia | done]]. intros Hle.
      pose proof (decimal_ge (v * 10 + (c - $"0")) w ltac:(lia) Hw). cbn [decimal fold_left] in *. 
      unfold decimal in *. lia.
    + destruct (IH (v * 10 + (c - $"0")) ltac:(lia) Hw Hr) as [Hs (v' & n & E & ? & ? & Hall)]. split.
      * intros Hle. by rewrite Hs.
      * exists v', (S n). rewrite E. split_and!; [done | lia | lia | cbn; lia |].
        intros [= ->]. by apply Hall.
Qed.

Lemma digit_is_junk s : isdigit (deref s) = true -> junk_at s = true.
Proof. unfold junk_at, isdigit, is_blank. intros H. zbool. lia. Qed.

(** The [SIZE=] parameter.  At a keyword followed by digits and then a
    blank or the end, the announced size is accepted exactly when it is at
    most 1000000000: then it is the decimal value of the digits, and the
    scan goes on behind them.  Otherwise the command is refused with one
    reply, and the value kept never exceeds 1000000009, so that the
    accumulation does not overflow. *)
Theorem size_option {cf : Config} o s kw w r ss :
  mem s = kw ++ w ++ r -> length kw = 5%nat -> forallb isdigit w = true ->
  hd 0 r = 0 \/ is_blank (hd 0 r) = true -> sizeoptval ss = -1 ->
  if decimal 0 w <=? 1000000000 then
    mail_opt_size o s ss =
      (inr (o, s [+] (5 + length w)),
       set_trace (EvMib IncomingSMTP_OPT_SIZE :: trace ss) (set_sizeoptval (decimal 0 w) ss))
  else
    exists ss', mail_opt_size o s ss = (inl (Return (-1)), ss') /\ replies 1 ss ss' /\
      0 <= sizeoptval ss' <= 1000000009.
Proof.
  intros Hm Hk Hw Hr H1.
  assert (isdigit (hd 0 r) = false) as Hnd.
  { destruct Hr as [-> | Hr]; [done|]. unfold is_blank, isdigit in *. zbool. lia. }
  destruct (size_loop_spec 0 w r ltac:(lia) Hw Hnd) as [Hs (v & n & E & Hv & Hn & Hall)].
  assert (mem (s [+] 5) = w ++ r) as Hm5 by (cbn [mem padd]; by rewrite Hm, <- Hk, drop_app_length).
  assert (forall k, deref (s [+] 5 [+] k) = hd 0 (drop k (w ++ r))) as Hdr.
  { intros k. rewrite <- Hm5. done. }
  unfold mail_opt_size. unfold mbind, ex_bind, read. rewrite H1. cbn [Z.eqb negb when mret].
  rewrite Hm5. change ((-1 =? -1)) with true. cbn [negb when]. unfold mret, ex_ret.
  destruct (decimal 0 w <=? 1000000000) eqn:Hle; zbool.
  - rewrite (Hs Hle). unfold update. cbv beta iota.
    replace (junk_at (s [+] 5 [+] length w) || (decimal 0 w >? 1000000000)) with false.
    + cbn [when]. unfold mib, emit, update, mret, ex_ret. by rewrite padd_padd.
    + symmetry. apply orb_false_intro; [|lia]. unfold junk_at. rewrite Hdr, drop_app_length.
      destruct Hr as [-> | ->]; [done | by rewrite andb_false_r].
  - rewrite E. unfold update. cbv beta iota.
    replace (junk_at (s [+] 5 [+] n) || (v >? 1000000000)) with true.
    + cbn [when]. eexists. split; [done|]. by split.
    + symmetry. apply orb_true_iff. destruct (decide (n = length w)) as [->|].
      * rewrite (Hall eq_refl). right. lia.
      * left. apply digit_is_junk. rewrite Hdr, drop_app_le by lia.
        assert (n < length w)%nat as Hlt by lia. apply lookup_lt_is_Some in Hlt as [c Hc].
        rewrite (drop_S _ _ _ Hc). cbn [hd app].
        eapply forallb_forall in Hw; [exact Hw|]. by eapply list_elem_of_In, list_elem_of_lookup_2.
Qed.


Lemma size_option_witness :
  let s := Ptr 0 ($$"size=0012345 BODY=7BIT") in
  let ss := set_sizeoptval (-1) (demo_session []) in
  @mail_opt_size (demo_config false true) (MailOpts None None None None) s ss =
    (inr (MailOpts None None None None, s [+] 12),
     set_trace [EvMib IncomingSMTP_OPT_SIZE] (set_sizeoptval 12345 ss)).
Proof.
  intros s ss. exact (@size_option (demo_config false true)
    (MailOpts None None None None) s ($$"size=") ($$"0012345") ($$" BODY=7BIT")
    ss eq_refl eq_refl eq_refl (or_intror eq_refl) eq_refl).
Defined.

(** The size announced with EHLO on a server with a size limit: it is
    positive and never above the limit, and it is the limit of the policy
    for this client whenever that is set and smaller. *)
Theorem announced_size {cf : Config} policyinlimit :
  0 < maxsize ->
  0 < max_in_limit policyinlimit <= maxsize /\
  (0 < policyinlimit <= maxsize -> max_in_limit policyinlimit = policyinlimit) /\
  (policyinlimit <= 0 \/ maxsize < policyinlimit -> max_in_limit policyinlimit = maxsize).
Proof.
  intros Hm. unfold max_in_limit. replace (maxsize =? 0) with false by lia. cbn [negb andb].
  destruct (0 <=? policyinlimit) eqn:E1; [destruct (maxsize <? policyinlimit) eqn:E2|
    rewrite Z.ltb_irrefl]; zbool; (destruct (_ =? 0) eqn:E3); zbool; lia.
Qed.

Lemma announced_size_witness :
  let cf : Config := demo_sized 5000 in
  0 < max_in_limit 0 <= 5000 /\ max_in_limit 3000 = 3000.
Proof.
  intros cf. split.
  - apply (@announced_size cf 0). reflexivity.
  - apply (@announced_size cf 3000); [reflexivity | split; [reflexivity | discriminate]].
Defined.

(** ** Reply lines *)

(** No CR and no LF. *)
Definition one_line (l : list Z) : bool := forallb (fun c => negb (c =? 13) && negb (c =? 10)) l.

Lemma one_line_app l r : one_line (l ++ r) = one_line l && one_line r.
Proof. apply forallb_app. Qed.

Lemma one_line_take n l : one_line l = true -> one_line (take n l) = true.
Proof. intros H. rewrite <- (take_drop n l), one_line_app in H. by zbool. Qed.

Lemma default_text_one_line {cf : Config} code arg :
  one_line myhostname = true -> one_line arg = true -> one_line (default_text code arg) = true.
Proof.
  intros Hh Ha. unfold default_text.
  repeat (destruct (_ || _) || destruct (code =? _)); try done;
    rewrite ?one_line_app, ?Ha, ?andb_true_r; try done.
  all: unfold prec; by rewrite one_line_take.
Qed.

(** The three digits of a code. *)
Lemma dec03_code code : 0 <= code < 1000 ->
  length (dec03 code) = 3%nat /\ forallb isdigit (dec03 code) = true /\ atoi (dec03 code) = code.
Proof.
  intros Hc.
  assert (forallb (fun n => (length (dec03 n) =? 3)%nat && forallb isdigit (dec03 n) &&
    (atoi (dec03 n) =? n)) (Z.of_nat <$> seq 0 1000) = true) as H by (vm_compute; done).
  eapply forallb_forall with (x := code) in H.
  - zbool. split_and!; [by apply Nat.eqb_eq | done..].
  - apply list_elem_of_In, list_elem_of_fmap. exists (Z.to_nat code). rewrite elem_of_seq. split; lia.
Qed.

(** The form of a reply line.  It consists of the three digits of the
    code, a dash on a continuation line and a blank on the last one, and a
    text, closed by CR LF; it always fits the 6000 byte buffer of type();
    and when the host name, the status, the text and its argument contain
    no line end, neither does the text sent: the client sees one line. *)
Theorem reply_line_form {cf : Config} Code status fmt arg :
  -1000 < Code < 1000 -> Z.of_nat (length (default [] status)) <= 5900 ->
  exists num text,
    type_line Code status fmt arg = num ++ (if Code <=? 0 then $$"-" else $$" ") ++ text ++ [13; 10] /\
    length num = 3%nat /\ forallb isdigit num = true /\ atoi num = Z.abs Code /\
    Z.of_nat (length (type_line Code status fmt arg)) < SIZEOF_BUF /\
    (one_line myhostname = true -> one_line (default [] status) = true ->
     one_line (default [] fmt) = true -> one_line arg = true -> one_line text = true).
Proof.
  intros Hc Hst. destruct (dec03_code (Z.abs Code) ltac:(lia)) as (Hl & Hd & Ha).
  unfold type_line. set (st := default [] status) in *. set (body := default (default_text _ _) fmt).
  set (es := if _ && _ then st ++ [$" "] else []).
  set (bufspc := SIZEOF_BUF - _ - 8).
  exists (dec03 (Z.abs Code)), (es ++ take (Z.to_nat (bufspc - 1)) body).
  assert (Z.of_nat (length es) <= 5901) as Hes.
  { subst es. clearbody st. destruct (_ && _); [rewrite length_app|]; cbn [length]; lia. }
  split_and!; [by destruct (Code <=? 0); rewrite <- !app_assoc | done..| |].
  - subst bufspc. unfold SIZEOF_BUF. rewrite !length_app, length_take, Hl.
    cbn [length]. lia.
  - intros Hh H1 H2 H3. rewrite one_line_app. apply andb_true_intro. split.
    + subst es. destruct (_ && _); [by rewrite one_line_app, H1 | done].
    + apply one_line_take. subst body. destruct fmt; [done|]. by apply default_text_one_line.
Qed.

Lemma reply_line_form_witness :
  let line := @type_line (demo_config false true) (-250) (Some ($$"2.1.0")) (Some ($$"Sender Ok")) [] in
  line = $$"250-2.1.0 Sender Ok" ++ [13; 10] /\ Z.of_nat (length line) < SIZEOF_BUF.
Proof.
  intros line. split; [reflexivity|].
  destruct (@reply_line_form (demo_config false true) (-250) (Some ($$"2.1.0")) (Some ($$"Sender Ok")) [])
    as (num & text & _ & _ & _ & _ & H & _).
  - lia.
  - cbn. lia.
  - exact H.
Defined.

(** ** xtext *)

(** Reading xtext as RFC 1891 defines it. *)
Definition unhex (c : Z) : Z := if isdigit c then c - $"0" else c - $"A" + 10.
Fixpoint xtext_decode (l : list Z) : list Z :=
  match l with
  | c :: l1 =>
      if c =? $"+" then
        match l1 with
        | h1 :: h2 :: l2 => unhex h1 * 16 + unhex h2 :: xtext_decode l2
        | _ => []
        end
      else c :: xtext_decode l1
  | [] => []
  end.

Definition ascii (c : Z) : Prop := 0 < c < 128.

(** The three facts about one encoded character. *)
Definition xtext_char_ok (c : Z) : bool :=
  match xtext_char c with
  | [d] => (d =? c) && negb (d =? $"+") && is_xchar d && negb ((d =? 0) || is_blank d)
  | [p; h1; h2] => (p =? $"+") && (unhex h1 * 16 + unhex h2 =? c) &&
                   is_upper_xdigit h1 && is_upper_xdigit h2
  | _ => false
  end.

Lemma xtext_char_cases c : ascii c ->
  (xtext_char c = [c] /\ (c =? $"+") = false /\ is_xchar c = true /\ (c =? 0) || is_blank c = false) \/
  exists h1 h2, xtext_char c = [$"+"; h1; h2] /\ unhex h1 * 16 + unhex h2 = c /\
    is_upper_xdigit h1 = true /\ is_upper_xdigit h2 = true.
Proof.
  intros Hc. assert (implb ((0 <? c) && (c <? 128)) (xtext_char_ok c) = true) as H.
  { apply (byte_cases (fun c => implb ((0 <? c) && (c <? 128)) (xtext_char_ok c)));
      [vm_compute; done | unfold ascii in Hc; lia]. }
  unfold ascii in Hc. replace ((0 <? c) && (c <? 128)) with true in H by lia. cbn [implb] in H.
  unfold xtext_char_ok in H. destruct (xtext_char c) as [|p [|h1 [|h2 [|? ?]]]]; try discriminate H; zbool.
  - left. subst p. split_and!; [done | lia | done |]. apply orb_false_intro; [lia | done].
  - right. exists h1, h2. subst p. by split_and!.
Qed.

Lemma xtext_loop_encode l r a :
  Forall ascii l -> hd 0 r = 0 \/ is_blank (hd 0 r) = true ->
  xtext_loop a (xtext_encode l ++ r) = (true, a + Z.of_nat (length (xtext_encode l)), r).
Proof.
  intros Hl Hr. revert a. induction Hl as [|c l Hc _ IH]; intros a.
  - cbn. rewrite Z.add_0_r. destruct r as [|d r]; [done|]. cbn in *.
    destruct Hr as [-> | Hr]; [done|]. unfold is_blank in Hr. rewrite Hr. destruct (d =? 0); done.
  - unfold xtext_encode in *. cbn [fmap list_fmap concat].
    destruct (xtext_char_cases c Hc) as [(-> & Hp & Hx & H0) | (h1 & h2 & -> & _ & H1 & H2)].
    + cbn [app xtext_loop length]. unfold is_blank in H0. zbool.
      replace (c =? 0) with false by lia. replace ((c =? $" ") || (c =? 9)) with false by lia.
      rewrite Hx, IH. do 2 f_equal. lia.
    + cbn [app xtext_loop length]. change (is_xchar $"+") with false. cbn [Z.eqb orb Pos.eqb].
      rewrite H1, H2. cbn [negb]. rewrite IH. do 2 f_equal. lia.
Qed.

(** The xtext encoding of the [todsn] lines.  For a text of ASCII
    characters the encoding can be decoded to the text, and the scanner
    that checks the xtext parameters of clients accepts the encoding
    whole, up to the blank or the end behind it. *)
Theorem xtext_round_trip l r a e :
  Forall ascii l -> l <> [] -> hd 0 r = 0 \/ is_blank (hd 0 r) = true ->
  xtext_decode (xtext_encode l) = l /\
  xtext_string (Ptr a (xtext_encode l ++ r)) e =
    (Ptr (a + Z.of_nat (length (xtext_encode l))) r, e).
Proof.
  intros Hl Hne Hr. split.
  - clear Hne Hr. induction Hl as [|c l Hc _ IH]; [done|]. unfold xtext_encode in *. cbn [fmap list_fmap concat].
    destruct (xtext_char_cases c Hc) as [(-> & Hp & _) | (h1 & h2 & -> & Hv & _)].
    + cbn. by rewrite Hp, IH.
    + cbn. by rewrite Hv, IH.
  - unfold xtext_string. cbn [addr mem]. rewrite xtext_loop_encode by done. cbn [negb orb].
    replace (_ =? a) with false; [done|]. symmetry. apply Z.eqb_neq.
    destruct l as [|c l]; [done|]. unfold xtext_encode. cbn [fmap list_fmap concat]. rewrite length_app.
    apply Forall_cons_1 in Hl as [Hc _].
    destruct (xtext_char_cases c Hc) as [(-> & _) | (h1 & h2 & -> & _)]; cbn [length]; lia.
Qed.

Lemma xtext_round_trip_witness :
  xtext_encode ($$"a b+c") = $$"a+20b+2Bc" /\
  xtext_decode (xtext_encode ($$"a b+c")) = $$"a b+c".
Proof.
  split; [reflexivity|]. apply (xtext_round_trip ($$"a b+c") [] 0 (Err None None)).
  - repeat constructor.
  - discriminate.
  - by left.
Defined.

(** Characters above 127 do not survive: the code prints them through a
    signed [char], with the digits of a 32 bit integer, and a reader gets
    another text. *)
Theorem xtext_8bit c :
  128 <= c < 256 ->
  xtext_encode [c] = $$"+FFFFFF" ++ [hexdigit (c / 16); hexdigit (c mod 16)] /\
  xtext_decode (xtext_encode [c]) <> [c].
Proof.
  intros Hc. assert (xtext_encode [c] = $$"+FFFFFF" ++ [hexdigit (c / 16); hexdigit (c mod 16)]) as E.
  { unfold xtext_encode. cbn [fmap list_fmap concat]. rewrite app_nil_r. unfold xtext_char.
    replace (c <=? $"~") with false by lia. replace (c <? 128) with false by lia. 
    by rewrite andb_false_r. }
  split; [done|]. rewrite E. intros [=].
Qed.

Lemma xtext_8bit_witness : xtext_decode (xtext_encode [0xE4]) <> [0xE4].
Proof. apply (xtext_8bit 0xE4). lia. Defined.

(** ** Quoting of local parts *)

(** rfc821to822quote() never writes behind the [alen + 8] bytes it
    allocates: a quoted address is at most three bytes longer than the
    input, whatever the address is. *)
Theorem quote_fits cp alen cp' alen' :
  0 <= alen -> rfc821to822quote cp alen = (cp', alen') -> 0 <= alen' <= alen + 3.
Proof.
  intros Ha. unfold rfc821to822quote. destruct (_ && _); [|intros [= <- <-]; lia].
  destruct (quote_loop _ _) as [[o k] rest] eqn:E. intros [= _ <-].
  assert (length o + k <= Z.to_nat alen + 1)%nat as H.
  { clear -E. revert E. generalize (mem cp). generalize (Z.to_nat alen). intros n l. revert o k rest l.
    induction (lt_wf n) as [n _ IH]. intros o k rest l E. destruct n as [|n], l as [|c l]; cbn in E;
      try (injection E as <- <- <-; cbn; lia).
    destruct (c =? $"@"); [injection E as <- <- <-; cbn; lia|].
    destruct (_ && _).
    - destruct l as [|d l]; [injection E as <- <- <-; cbn; lia|].
      destruct n as [|n]; [injection E as <- <- <-; cbn; lia|].
      destruct (quote_loop n l) as [[o1 k1] r1] eqn:E1. injection E as <- <- <-.
      apply (IH n ltac:(lia)) in E1. cbn. lia.
    - destruct (quote_loop n l) as [[o1 k1] r1] eqn:E1. injection E as <- <- <-.
      apply (IH n ltac:(lia)) in E1. cbn. lia. }
  change ([34] ++ ?x) with (34 :: x). cbn [length]. rewrite length_app. change ([34] ++ ?x) with (34 :: x).
  cbn [length]. rewrite length_take. lia.
Qed.

Lemma quote_fits_witness :
  0 <= (rfc821to822quote (Ptr 0 ($$"a\b@c.d")) 7).2 <= 7 + 3.
Proof.
  apply (quote_fits (Ptr 0 ($$"a\b@c.d")) 7 (rfc821to822quote (Ptr 0 ($$"a\b@c.d")) 7).1); [lia | reflexivity].
Defined.

(** The characters of a dot-string outside quoted pairs. *)
Definition dot_char (c : Z) : bool := is_821_C c || (c =? $".").

Lemma qpairs_app P v w : qpairs P v -> qpairs P w -> qpairs P (v ++ w).
Proof. induction 1; cbn; intros; [done | apply qpairs_plain; auto | apply qpairs_pair; auto]. Qed.

Lemma qpairs_mono (P Q : Z -> bool) w :
  (forall c, P c = true -> Q c = true) -> qpairs P w -> qpairs Q w.
Proof. intros H. induction 1; [apply qpairs_nil | apply qpairs_plain; auto | apply qpairs_pair; auto]. Qed.

Lemma qpairs_join ls : Forall string821 ls -> qpairs dot_char (join $"." ls).
Proof.
  intros H. assert (forall w, string821 w -> qpairs dot_char w) as Hm.
  { intros w. apply qpairs_mono. intros c Hc. unfold dot_char. by rewrite Hc. }
  induction H as [|w ls Hw Hls IH]; [constructor|]. destruct ls as [|w' ls]; [by apply Hm|].
  cbn [join]. apply qpairs_app; [by apply Hm|]. by constructor.
Qed.

Lemma dot_char_class c : dot_char c = true -> c <> $"@" /\ c <> 34 /\ is_821_Q c = true.
Proof.
  unfold dot_char. intros [H | ->%Z.eqb_eq]%orb_true_iff; [|by vm_compute].
  assert (forall m, in_class m c = in_class m (Z.land c 0xFF)) as Hm.
  { intros m. unfold in_class, class_of. by rewrite <- Z.land_assoc. }
  unfold is_821_C, is_821_Q in *. rewrite Hm in H. rewrite Hm.
  assert (0 <= Z.land c 0xFF < 256) as Hb.
  { change 0xFF with (Z.ones 8). rewrite Z.land_ones by lia. apply Z.mod_pos_bound. lia. }
  assert (Z.land c 0xFF <> $"@" /\ Z.land c 0xFF <> 34 /\ in_class CHAR_Q (Z.land c 0xFF) = true) as Hc.
  { revert Hb H. generalize (Z.land c 0xFF). intros d Hd H.
    assert (implb (in_class CHAR_C d) (negb (d =? $"@") && negb (d =? 34) && in_class CHAR_Q d) = true) as Hi.
    { by apply (byte_cases (fun d => implb (in_class CHAR_C d)
        (negb (d =? $"@") && negb (d =? 34) && in_class CHAR_Q d))). }
    rewrite H in Hi. cbn [implb] in Hi. by zbool. }
  destruct Hc as (H1 & H2 & H3). split_and!; [by intros -> | by intros -> | done].
Qed.

Lemma quote_loop_local w r t :
  qpairs dot_char w -> r = [] \/ hd 0 r = $"@" ->
  quote_loop (length w + length r) (w ++ r ++ t) = (w, length r, r ++ t).
Proof.
  intros Hw Hr. induction Hw as [|c w Hc Hb H0 _ IH | x w Hx _ IH]; cbn [app length plus quote_loop].
  - destruct r as [|d r]; [done|]. destruct Hr as [|Hr]; [done|]. cbn in *. by subst d.
  - apply dot_char_class in Hc as (Hat & _). apply Z.eqb_neq in Hat as ->. apply Z.eqb_neq in Hb as ->.
    cbn [andb]. by rewrite IH.
  - change ($"\" =? $"@") with false. change ($"\" =? $"\") with true. cbn [andb hd].
    replace (x =? 0) with false; [by rewrite IH|]. symmetry. apply Z.eqb_neq. by intros ->.
Qed.

(** Quoting of a dot-string local part that contains a backslash.  For
    an address whose local part is a dot-string of the grammar, followed by
    its domain or by nothing, the result is the local part between double
    quotes with the domain behind it, and that local part is a quoted
    string of the grammar. *)
Theorem quote_dot_string strict l r t a :
  dot_string strict l -> In $"\" l -> r = [] \/ hd 0 r = $"@" ->
  rfc821to822quote (Ptr a (l ++ r ++ t)) (Z.of_nat (length l + length r)) =
    (Ptr 0 ((34 :: l ++ [34]) ++ r), Z.of_nat (length l + length r + 2)) /\
  quoted_string (34 :: l ++ [34]).
Proof.
  intros (Hne & ls & v & Hj & Hls & _) Hin Hr.
  assert (qpairs dot_char l) as Hq by (rewrite Hj; by apply qpairs_join).
  split.
  - unfold rfc821to822quote, deref. cbn [mem]. rewrite Nat2Z.id, quote_loop_local by done.
    rewrite (app_assoc l r t), <- (length_app l r), take_app_length, existsb_app.
    replace (existsb (Z.eqb $"\") l) with true by (symmetry; apply existsb_exists; by exists $"\").
    replace (hd 0 _ =? 34) with false.
    + cbn [andb orb negb app]. rewrite take_app_length, <- !app_assoc. cbn [app].
      do 2 f_equal. cbn [length]. rewrite !length_app. cbn [length]. lia.
    + symmetry. apply Z.eqb_neq. inversion Hq; subst; [done | | done]. cbn.
      by apply dot_char_class.
  - exists l. split_and!; [done | done |]. eapply qpairs_mono; [|exact Hq]. intros c Hc.
    by apply dot_char_class.
Qed.

Lemma quote_dot_string_witness :
  rfc821to822quote (Ptr 0 ($$"a\ b@c.d" ++ [0])) 8 =
    (Ptr 0 ([34] ++ $$"a\ b" ++ [34] ++ $$"@c.d"), 10).
Proof.
  apply (quote_dot_string true ($$"a\ b") ($$"@c.d") [0] 0).
  - split; [discriminate|]. exists [], ($$"a\ b"). split; [reflexivity|]. split; [|done].
    constructor; [|constructor]. constructor; [reflexivity | discriminate | discriminate |].
    constructor; [reflexivity|]. constructor; [reflexivity | discriminate | discriminate |]. constructor.
  - cbn. tauto.
  - by right.
Defined.
