(* ===== verification/SmtpInput.v ===== *)
(** * Reading command lines

    What s_gets() delivers and where it writes, what the session loop of
    smtpserver/smtpserver.c makes of odd lines, and that the loop ends. *)

From Stdlib Require Import ZArith Lia.
From stdpp Require Import base tactics numbers list option relations.
From S2P Require Import Prelude StrMatch Rfc821 SmtpState SmtpCmds SmtpLine SmtpData SmtpSpec SmtpAuth SmtpServer SmtpWalk SmtpSession SmtpDemo.

#[local] Open Scope Z_scope.

(** ** The reading loop *)

Definition not_lf (c : Z) : bool := negb (c =? 10).

(** The first line of the input, with its newline. *)
Definition first_line (inp : list Z) : list Z := take (S (span not_lf inp)) inp.

Lemma first_line_cons c inp :
  first_line (c :: inp) = c :: (if c =? 10 then [] else first_line inp).
Proof. unfold first_line. cbn [span]. unfold not_lf at 1. destruct (c =? 10); done. Qed.

(** The loop stores the first line, up to the size of the buffer. *)
Lemma s_gets_loop_stored b inp : forall i co rc stored, i <= b ->
  lr_stored (s_gets_loop b i co rc stored inp) = stored ++ take (Z.to_nat (b - i)) (first_line inp).
Proof.
  induction inp as [|c inp IH]; intros i co rc stored Hi.
  - cbn. by rewrite take_nil, app_nil_r.
  - cbn [s_gets_loop]. destruct (i <? b) eqn:Hb; zbool; cbn [lr_stored].
    + rewrite first_line_cons. replace (Z.to_nat (b - i)) with (S (Z.to_nat (b - (i + 1)))) by lia.
      cbn [take]. destruct (c =? 10) eqn:Ec; cbn [lr_stored].
      * by rewrite take_nil.
      * rewrite IH by lia. by rewrite <- app_assoc.
    + replace (Z.to_nat (b - i)) with O by lia. by rewrite app_nil_r.
Qed.

Lemma s_gets_i inp :
  g_i (s_gets SMTPLINESIZE inp) = Z.min SMTPLINESIZE (Z.of_nat (length (first_line inp))).
Proof.
  unfold s_gets. cbn [g_i]. rewrite s_gets_loop_stored by (unfold SMTPLINESIZE; lia).
  cbn [app]. rewrite length_take. unfold SMTPLINESIZE. lia.
Qed.

(** The characters of a line that raise no complaint. *)
Definition legal (c : Z) : bool := negb (illegal (-1) c) && negb (c =? 13) && negb (c =? 10).

Lemma illegal_co co c : co <> 13 -> illegal co c = illegal (-1) c.
Proof. intros H. unfold illegal. by apply Z.eqb_neq in H as ->. Qed.

Lemma s_gets_loop_legal b w : forall i co stored rest,
  forallb legal w = true -> co <> 13 -> i + Z.of_nat (length w) <= b ->
  exists co', co' <> 13 /\
    s_gets_loop b i co (-1) stored (w ++ rest) =
    s_gets_loop b (i + Z.of_nat (length w)) co' (-1) (stored ++ w) rest.
Proof.
  induction w as [|c w IH]; intros i co stored rest Hw Hco Hb.
  - exists co. split; [done|]. cbn. by rewrite Z.add_0_r, app_nil_r.
  - cbn in Hw. apply andb_prop in Hw as [Hc Hw]. unfold legal in Hc. zbool. cbn [app s_gets_loop].
    cbn [length] in Hb. rewrite illegal_co by done.
    replace (i <? b) with true by lia. apply Z.eqb_neq in H0 as ->. rewrite H, andb_false_r.
    destruct (IH (i + 1) c (stored ++ [c]) rest) as (co' & Hco' & ->); [done | done | lia |].
    exists co'. split; [done|]. rewrite <- app_assoc. cbn [app length]. f_equal. lia.
Qed.

Lemma zap_app l k r : (k < length r)%nat ->
  zap (Z.of_nat (length l) + Z.of_nat k) (l ++ r) = l ++ <[k := 0]> r.
Proof.
  intros Hk. unfold zap. rewrite (proj2 (Z.ltb_ge _ _)) by lia.
  rewrite insert_app_r_alt by lia. do 2 f_equal. lia.
Qed.

Lemma s_gets_crlf w rest :
  forallb legal w = true -> Z.of_nat (length w) + 2 < SMTPLINESIZE ->
  let g := s_gets SMTPLINESIZE (w ++ [13; 10] ++ rest) in
  g_buf g = w ++ [0; 0; 0] /\ cstr (g_buf g) = w /\ g_i g = Z.of_nat (length w) + 2 /\
  g_rc g = -1 /\ g_co g = 13 /\ g_c g = 10 /\ g_rest g = rest.
Proof.
  intros Hw Hl g. subst g. unfold s_gets, SMTPLINESIZE in *.
  destruct (s_gets_loop_legal (8192 - 1) w (-1) (-1) [] ([13; 10] ++ rest)) as (co & Hco & E);
    [done | lia | lia |]. rewrite E. cbn [app s_gets_loop]. clear E.
  rewrite illegal_co by done.
  replace (-1 + Z.of_nat (length w) <? 8192 - 1) with true by lia.
  change (13 =? 10) with false. change (10 =? 10) with true. change (illegal (-1) 13) with false.
  rewrite andb_false_r. replace (-1 + Z.of_nat (length w) + 1 <? 8192 - 1) with true by lia.
  cbn [lr_c lr_co lr_rc lr_stored lr_rest g_buf g_i g_rc g_co g_c g_rest].
  change (10 =? 10) with true. change (13 =? 13) with true. cbn match. rewrite <- !app_assoc. cbn [app].
  rewrite length_app. cbn [length].
  replace (Z.of_nat (length w + 2) - 1) with (Z.of_nat (length w) + Z.of_nat 1) by lia.
  rewrite zap_app by (cbn; lia). cbn [insert list_insert].
  replace (Z.of_nat (length w + 2) - 2) with (Z.of_nat (length w) + Z.of_nat 0) by lia.
  rewrite zap_app by (cbn; lia). cbn [insert list_insert]. rewrite andb_false_r.
  split_and!; try done; [|lia]. apply cstr_app.
  apply forallb_forall. intros c Hc. eapply forallb_forall in Hw; [|exact Hc].
  unfold legal, illegal in Hw. zbool. unfold not_nul. lia.
Qed.

(** The same with a bare LF. *)
Lemma s_gets_lf w rest :
  forallb legal w = true -> Z.of_nat (length w) + 1 < SMTPLINESIZE ->
  let g := s_gets SMTPLINESIZE (w ++ [10] ++ rest) in
  g_buf g = w ++ [0; 0] /\ g_i g = Z.of_nat (length w) + 1.
Proof.
  intros Hw Hl g. subst g. unfold s_gets, SMTPLINESIZE in *.
  destruct (s_gets_loop_legal (8192 - 1) w (-1) (-1) [] ([10] ++ rest)) as (co & Hco & E);
    [done | lia | lia |]. rewrite E. cbn [app s_gets_loop]. clear E.
  replace (-1 + Z.of_nat (length w) <? 8192 - 1) with true by lia.
  change (10 =? 10) with true. cbn [lr_c lr_co lr_rc lr_stored lr_rest g_buf g_i].
  change (10 =? 10) with true. apply Z.eqb_neq in Hco as ->. cbv iota. rewrite <- !app_assoc. cbn [app].
  rewrite length_app. cbn [length].
  replace (Z.of_nat (length w + 1) - 1) with (Z.of_nat (length w) + Z.of_nat 0) by lia.
  rewrite zap_app by (cbn; lia). cbn [insert list_insert]. split; [done | lia].
Qed.

(** s_gets() on a proper line: the text up to CR LF arrives unchanged
    in the buffer, without its line end, no character is reported as
    illegal, and the next call continues right behind the newline.  The
    length counts the two line end characters. *)
Theorem s_gets_line w rest :
  forallb legal w = true -> Z.of_nat (length w) + 2 < SMTPLINESIZE ->
  let g := s_gets SMTPLINESIZE (w ++ [13; 10] ++ rest) in
  g_buf g = w ++ [0; 0; 0] /\ cstr (g_buf g) = w /\ g_i g = Z.of_nat (length w) + 2 /\
  g_rc g = -1 /\ g_co g = 13 /\ g_c g = 10 /\ g_rest g = rest.
Proof. apply s_gets_crlf. Qed.

Lemma s_gets_line_witness :
  cstr (g_buf (s_gets SMTPLINESIZE ($$"NOOP  " ++ [13; 10] ++ $$"QUIT"))) = $$"NOOP  ".
Proof. apply (s_gets_line ($$"NOOP  ") ($$"QUIT")); [reflexivity | vm_compute; reflexivity]. Defined.

Lemma first_line_nonempty inp : inp <> [] -> first_line inp <> [].
Proof. destruct inp as [|c inp]; [done|]. intros _. by rewrite first_line_cons. Qed.

(** C39: Where s_gets() writes behind its loop: all stores are inside the
    8192 byte buffer exactly when the line with its newline is shorter than
    the buffer and the input is not a lone CR.  A longer line puts the
    terminating NUL one byte behind the buffer, and a CR at the end of the
    input one byte in front of it. *)
Theorem s_gets_in_bounds inp :
  (forall k, In k (g_writes (s_gets SMTPLINESIZE inp)) -> 0 <= k < SMTPLINESIZE) <->
  (Z.of_nat (length (first_line inp)) < SMTPLINESIZE /\ inp <> [13]).
Proof.
  pose proof (s_gets_i inp) as Hi. set (g := s_gets _ _) in *.
  assert (exists nl cr : bool, g_writes g =
    [g_i g] ++ (if nl then [g_i g - 1] else []) ++ (if cr then [g_i g - 2] else []) /\
    (inp <> [13] -> (nl = true -> 1 <= g_i g) /\ (cr = true -> 2 <= g_i g)) /\
    (inp = [13] -> cr = true)) as (nl & cr & -> & Hok & Hcr).
  { exists (lr_c (s_gets_loop (SMTPLINESIZE - 1) (-1) (-1) (-1) [] inp) =? 10),
      (lr_co (s_gets_loop (SMTPLINESIZE - 1) (-1) (-1) (-1) [] inp) =? 13).
    split; [done|]. split; [|by intros ->]. intros Hne. rewrite Hi.
    destruct inp as [|c [|d inp]].
    - split; discriminate.
    - unfold first_line, SMTPLINESIZE. cbn [s_gets_loop]. change (-1 <? 8192 - 1) with true. cbv iota.
      destruct (c =? 10) eqn:Ec; cbn; [split; [lia | discriminate]|].
      unfold not_lf. rewrite Ec. cbn. split; [discriminate|]. intros ->%Z.eqb_eq. congruence.
    - destruct (c =? 10) eqn:Ec.
      + cbn [s_gets_loop]. change (-1 <? SMTPLINESIZE - 1) with true. rewrite Ec. cbn [lr_c lr_co].
        unfold first_line. cbn [span]. unfold not_lf at 1 2. rewrite Ec. unfold SMTPLINESIZE. cbn. split; [lia|discriminate].
      + rewrite !first_line_cons, Ec. unfold SMTPLINESIZE. cbn [length]. split; lia. }
  unfold SMTPLINESIZE in *. split.
  - intros H. split; [pose proof (H (g_i g) ltac:(by left)); lia|]. intros ->.
    rewrite (Hcr eq_refl) in H. change (g_i g) with 1 in H.
    specialize (H (-1) ltac:(rewrite !in_app_iff; right; right; by left)). lia.
  - clearbody g. intros [Hl Hne] k Hk. destruct (Hok Hne) as [Hnl Hcr']. rewrite !in_app_iff in Hk.
    destruct nl, cr; cbn [In] in Hk; intuition lia.
Qed.

Lemma s_gets_in_bounds_overflow :
  g_writes (s_gets SMTPLINESIZE (replicate 8193 $"A")) = [8192].
Proof. vm_compute. reflexivity. Qed.

(** ** Trailing blanks and odd line ends *)

Lemma chop_blanks_id k buf : is_blank (nth (k - 1) buf 0) = false -> chop_blanks k buf = buf.
Proof. destruct k as [|k]; [done|]. cbn. rewrite Nat.sub_0_r. by intros ->. Qed.

Lemma chop_blanks_run v b r :
  forallb is_blank b = true -> is_blank (nth (length v - 1) v 0) = false ->
  chop_blanks (length v + length b) (v ++ b ++ r) = v ++ replicate (length b) 0 ++ r.
Proof.
  intros Hb Hv. revert r. induction b as [|c b IH] using rev_ind; intros r.
  - cbn [length app replicate]. rewrite Nat.add_0_r. destruct v as [|x v]; [done|].
    apply chop_blanks_id. rewrite app_nth1; [done|]. cbn. lia.
  - rewrite forallb_app in Hb. apply andb_prop in Hb as [Hb Hc]. cbn in Hc. rewrite andb_true_r in Hc.
    rewrite length_app. cbn [length]. replace (length v + (length b + 1))%nat with (S (length v + length b)) by lia.
    cbn [chop_blanks]. rewrite <- (app_assoc b). cbn [app].
    assert (nth (length v + length b) (v ++ b ++ c :: r) 0 = c) as ->.
    { rewrite app_assoc, app_nth2; rewrite length_app; [by rewrite Nat.sub_diag | lia]. }
    rewrite Hc. assert (<[(length v + length b)%nat := 0]> (v ++ b ++ c :: r) = v ++ b ++ 0 :: r) as ->.
    { rewrite !app_assoc, <- (length_app v b). rewrite insert_app_r_alt by lia. by rewrite Nat.sub_diag. }
    rewrite IH by done. rewrite replicate_add, <- app_assoc. done.
Qed.

(** Blanks at the end of a command line.  On a line that ends with
    CR LF the chopping of trailing blanks does nothing: it starts at the
    NUL that replaced the CR.  Only on a line that ends with a bare LF are
    the blanks removed. *)
Theorem blanks_chopped_on_bare_lf w v b rest :
  forallb legal w = true -> w = v ++ b -> forallb is_blank b = true ->
  is_blank (nth (length v - 1) v 0) = false -> Z.of_nat (length w) + 2 < SMTPLINESIZE ->
  let chopped inp := let g := s_gets SMTPLINESIZE inp in
                     cstr (chop_blanks (Z.to_nat (g_i g - 1)) (g_buf g)) in
  chopped (w ++ [13; 10] ++ rest) = w /\ chopped (w ++ [10] ++ rest) = v.
Proof.
  intros Hw -> Hb Hv Hl chopped. subst chopped. cbv beta zeta.
  assert (forallb not_nul (v ++ b) = true) as Hn.
  { apply forallb_forall. intros c Hc. eapply forallb_forall in Hw; [|exact Hc].
    unfold legal, illegal in Hw. zbool. unfold not_nul. lia. }
  split.
  - destruct (s_gets_crlf (v ++ b) rest Hw Hl) as (-> & _ & -> & _).
    rewrite chop_blanks_id; [by apply cstr_app|].
    replace (Z.to_nat _ - 1)%nat with (length (v ++ b)) by lia.
    rewrite app_nth2 by lia. by rewrite Nat.sub_diag.
  - destruct (s_gets_lf (v ++ b) rest Hw ltac:(lia)) as (-> & ->).
    replace (Z.to_nat _) with (length v + length b)%nat by (rewrite length_app; lia).
    rewrite <- app_assoc, chop_blanks_run by done. rewrite forallb_app in Hn. zbool.
    destruct b; cbn; by apply cstr_app.
Qed.

Lemma blanks_chopped_on_bare_lf_witness :
  let chopped inp := let g := s_gets SMTPLINESIZE inp in
                     cstr (chop_blanks (Z.to_nat (g_i g - 1)) (g_buf g)) in
  chopped ($$"RSET  " ++ [13; 10]) = $$"RSET  " /\ chopped ($$"RSET  " ++ [10]) = $$"RSET".
Proof.
  apply (blanks_chopped_on_bare_lf ($$"RSET  ") ($$"RSET") ($$"  ") []); reflexivity.
Defined.

(** What s_gets() makes of a line that is too long. *)
Lemma s_gets_long w rest :
  forallb legal w = true -> SMTPLINESIZE < Z.of_nat (length w) ->
  let g := s_gets SMTPLINESIZE (w ++ rest) in
  g_buf g = take (Z.to_nat SMTPLINESIZE) w ++ [0] /\ g_i g = SMTPLINESIZE /\
  g_rc g = -1 /\ g_c g <> 10.
Proof.
  intros Hw Hl g. set (N := Z.to_nat SMTPLINESIZE).
  assert (SMTPLINESIZE = Z.of_nat N) as HN by (unfold N, SMTPLINESIZE; lia). clearbody N.
  assert (exists w1 c w2, w = w1 ++ c :: w2 /\ length w1 = N) as (w1 & c & w2 & -> & H1).
  { exists (take N w). assert (N < length w)%nat as Hlt by lia.
    apply lookup_lt_is_Some in Hlt as [c Hc]. exists c, (drop (S N) w).
    rewrite length_take, take_drop_middle by done. split; [done | lia]. }
  rewrite forallb_app in Hw. apply andb_prop in Hw as [Hw1 Hw]. cbn in Hw. apply andb_prop in Hw as [Hc _].
  subst g. unfold s_gets. rewrite <- app_assoc.
  destruct (s_gets_loop_legal (SMTPLINESIZE - 1) w1 (-1) (-1) [] ((c :: w2) ++ rest)) as (co & Hco & E);
    [done | lia | lia |]. rewrite E. clear E. cbn [app s_gets_loop].
  replace (-1 + Z.of_nat (length w1) <? SMTPLINESIZE - 1) with false by lia.
  cbn [lr_c lr_co lr_rc lr_stored lr_rest g_buf g_i g_rc g_c].
  unfold legal in Hc. zbool. apply Z.eqb_neq in Hco as ->. assert (c <> 10) as Hc10 by done.
  apply Z.eqb_neq in Hc10 as ->. rewrite <- H1, take_app_length. split_and!; [done | lia | done..].
Qed.

Section lines.
Context {cf : Config} {env : Env} {hd : Handlers}.

(** A line without its newline is executed unless it is QUIT. *)
Lemma unterminated_executed g insecure ss :
  mustexit ss = 0 -> ext_hasinput (trace ss) = false ->
  3 < g_i g -> g_rc g < 0 -> g_c g <> 10 -> CISTREQ (cstr (command_text g)) ($$"QUIT") = false ->
  serve_line g insecure ss = run_command (Ptr 0 (command_text g)) insecure ss.
Proof.
  intros Hm Hin Hi Hrc Hc Hq. unfold serve_line.
  unfold mbind, ex_bind, read. rewrite Hm.
  replace (g_i g <=? 0) with false by lia. cbn [negb orb Z.eqb]. rewrite Hin. cbn [andb].
  replace (0 <=? g_rc g) with false by lia. cbn [andb]. replace (0 <=? g_rc g) with false by lia.
  rewrite Hq. replace (g_c g =? 10) with false by lia. replace (3 <? g_i g) with true by lia.
  cbn [negb andb Z.eqb Pos.eqb orb]. by rewrite andb_false_r.
Qed.

(** A command line that does not fit the buffer is executed, although
    the code has a reply for it: the test that should excuse a QUIT without
    line end is inverted, so that every other line is excused, and the
    8192 characters that fit are executed as a command of their own. *)
Theorem long_line_executed w rest insecure ss :
  forallb legal w = true -> SMTPLINESIZE < Z.of_nat (length w) ->
  mustexit ss = 0 -> ext_hasinput (trace ss) = false ->
  let g := s_gets SMTPLINESIZE (w ++ rest) in
  CISTREQ (cstr (command_text g)) ($$"QUIT") = false ->
  g_buf g = take (Z.to_nat SMTPLINESIZE) w ++ [0] /\
  serve_line g insecure ss = run_command (Ptr 0 (command_text g)) insecure ss.
Proof.
  intros Hw Hl Hm Hin g Hq. destruct (s_gets_long w rest Hw Hl) as (Hb & Hi & Hrc & Hc). split; [done|].
  apply unterminated_executed; try done; subst g; rewrite ?Hi, ?Hrc; unfold SMTPLINESIZE; lia.
Qed.
End lines.

Lemma long_line_executed_witness :
  let w := $$"NOOP " ++ replicate 8192 $"x" in
  let g := s_gets SMTPLINESIZE (w ++ [13; 10]) in
  @serve_line (demo_config false true) (demo_env false router_answer) demo_handlers g true (demo_session []) =
  @run_command (demo_config false true) (demo_env false router_answer) demo_handlers
    (Ptr 0 (@command_text (demo_config false true) g)) true (demo_session []).
Proof.
  intros w g.
  apply (@long_line_executed (demo_config false true) (demo_env false router_answer) demo_handlers
    w [13; 10] true (demo_session [])); vm_compute; reflexivity.
Defined.

(** ** The session loop ends *)

Section ending.
Context {cf : Config} {env : Env} {hd : Handlers} {QH : QuietHandlers}.

Lemma get_line_run ss : exists ss1,
  get_line ss = (inr (s_gets SMTPLINESIZE (input ss)), ss1) /\
  input ss1 = g_rest (s_gets SMTPLINESIZE (input ss)).
Proof.
  unfold get_line. unfold mbind, ex_bind, read, update. cbn [mfp set_input].
  destruct (g_eof _); cbn [when mret ex_ret]; unfold update; cbn [mfp set_input set_s_status];
    (destruct (_ && _); cbn [when]); by eexists.
Qed.

Lemma serve_nothing g insecure ss : g_i g = 0 -> serve_line g insecure ss = (inr Break, ss).
Proof. intros Hi. unfold serve_line, mbind, ex_bind, read. by rewrite Hi, orb_true_r. Qed.

(** C38: The session loop ends: on a finite input every round takes at least
    one character or ends the loop, so that as many rounds as there are
    characters, and one for the end of the input, are enough: more fuel
    changes nothing. *)
Theorem session_loop_ends insecure fuel : forall ss,
  (length (input ss) < fuel)%nat ->
  session_loop fuel insecure ss = session_loop (S (length (input ss))) insecure ss.
Proof.
  induction (lt_wf fuel) as [fuel _ IH]. intros ss Hf. destruct fuel as [|fuel]; [lia|].
  cbn [session_loop]. unfold mbind, ex_bind. destruct (get_line_run ss) as (ss1 & -> & Hin).
  destruct (input ss) as [|c inp] eqn:E.
  { rewrite serve_nothing; [done|]. by vm_compute. }
  pose proof (s_gets_consumes SMTPLINESIZE (c :: inp) ltac:(done)) as Hlt.
  destruct (shrinks_serve_line (s_gets SMTPLINESIZE (c :: inp)) insecure ss1) as [Hs _]. unfold shrinks in Hs.
  destruct (serve_line _ _ ss1) as [[r|n] ss2]; [done|]. cbn [snd] in Hs. destruct n; try done.
  rewrite Hin in Hs. cbn [length] in *. rewrite (IH fuel ltac:(lia) ss2 ltac:(lia)).
  symmetry. apply (IH (S (length inp)) ltac:(lia) ss2). lia.
Qed.
End ending.

Lemma demo_handlers_quiet : @QuietHandlers demo_handlers.
Proof. split; intros; apply walks_ret. Qed.

Lemma session_loop_ends_witness :
  let ss := demo_session ($$"HELO x" ++ [10] ++ $$"NOOP" ++ [10]) in
  @session_loop (demo_config false true) (demo_env false router_answer) demo_handlers 1000 true ss =
  @session_loop (demo_config false true) (demo_env false router_answer) demo_handlers 13 true ss.
Proof.
  intros ss. apply (@session_loop_ends (demo_config false true) (demo_env false router_answer)
    demo_handlers demo_handlers_quiet true 1000 ss). vm_compute. lia.
Defined.
