(* ===== verification/SmtpOptions.v ===== *)
(** * The parameters of MAIL and RCPT

    The parameter loops of smtp_mail() and smtp_rcpt() of
    smtpserver/smtpcmds.c end, and what the [BY=] parameter admits. *)

From Stdlib Require Import ZArith Lia.
From stdpp Require Import base tactics numbers list option.
From S2P Require Import Prelude StrMatch Rfc821 SmtpState SmtpCmds SmtpSpec SmtpDemo.

#[local] Open Scope Z_scope.

(** ** The loops end *)

Abbreviation room p := (length (mem p)).

(** [m] ends in front of less text than there is at [s], or leaves. *)
Definition advances {O} (s : ptr) (m : cmd (O * ptr)) : Prop :=
  forall ss, wpx m (fun _ _ => True) (fun r _ => room r.2 < room s)%nat ss.

Lemma room_padd p n : room (p [+] n) = (room p - n)%nat.
Proof. apply length_drop. Qed.

Lemma room_span f p : (room (skip_while f p) <= room p)%nat.
Proof. unfold skip_while. rewrite room_padd. lia. Qed.

Lemma CISTREQN_room l w : CISTREQN l w = true -> (length w <= length l)%nat.
Proof.
  revert l. induction w as [|c w IH]; intros l H; cbn in *; [lia|].
  destruct l as [|d l]; [done|]. zbool. apply IH in H0. cbn. lia.
Qed.

Lemma xtext_loop_room n : forall l a, (length l <= n)%nat -> (length (xtext_loop a l).2 <= length l)%nat.
Proof.
  induction n as [|n IH]; intros [|c l] a Hn; cbn [length] in Hn; cbn [xtext_loop]; try (cbn; lia).
  assert (forall l' a', (length l' <= length l)%nat -> (length (xtext_loop a' l').2 <= S (length l))%nat) as H.
  { intros l' a' Hl. etransitivity; [apply IH|]; lia. }
  repeat match goal with
  | |- context [if ?b then _ else _] => destruct b
  | |- context [match ?l with [] => _ | _ => _ end] => is_var l; destruct l
  end; cbn [snd length] in *; try lia; apply H; cbn; lia.
Qed.

Lemma xtext_string_room s e : (room (xtext_string s e).1 <= room s)%nat.
Proof.
  unfold xtext_string. pose proof (xtext_loop_room (room s) (mem s) (addr s) ltac:(done)) as H.
  destruct (xtext_loop _ _) as [[ok a] l]. destruct (_ || _); [done|]. exact H.
Qed.

Lemma orcpt_string_room s e : if (orcpt_string s e).1 is Some p then (room p <= room s)%nat else True.
Proof.
  unfold orcpt_string, rfc822atom. pose proof (room_span is_822_atomchar s) as Hr.
  set (q := skip_while _ _) in *. clearbody q. unfold mbind, st_bind.
  destruct (peq q s); cbn; [by rewrite peq_refl|]. destruct (peq q s); [done|].
  destruct (negb _); [done|]. pose proof (xtext_string_room (q [+] 1) e) as Hx.
  destruct (xtext_string (q [+] 1) e) as [p e']. destruct (peq p _); [done|]. cbn in *.
  rewrite length_drop in Hx. lia.
Qed.

Lemma by_flags_room l : forall neg, if by_flags neg l is Some (_, n) then (n <= length l)%nat else True.
Proof.
  induction l as [|c l IH]; intros neg; cbn [by_flags]; [lia|].
  assert (forall neg', if '(r, n) ← by_flags neg' l; Some (r, S n) is Some (_, n)
                       then (n <= S (length l))%nat else True) as H.
  { intros neg'. specialize (IH neg'). destruct (by_flags neg' l) as [[? ?]|]; cbn in *; [lia | done]. }
  cbv zeta. repeat match goal with
  | |- context [if ?b then _ else _] => lazymatch type of b with bool => destruct b end
  end; first [done | apply H | cbn; lia].
Qed.

Lemma by_value_room p : if by_value p is Some (_, _, q) then (room q <= room p)%nat else True.
Proof.
  unfold by_value. set (q := if deref p =? $"-" then pinc p else p).
  assert (room q <= room p)%nat as Hq.
  { subst q. destruct (_ =? _); [|done]. unfold pinc. rewrite room_padd. lia. }
  clearbody q. destruct (_ <? _)%nat; [done|]. destruct (negb _); [done|].
  unfold mbind, option_bind. destruct (by_flags _ _) as [[neg n]|]; [|done]. destruct (negb _); [done|].
  unfold pinc. rewrite !room_padd. lia.
Qed.

Section loops.
Context {cf : Config} {env : Env} {O : Type}.
Implicit Types m : cmd (O * ptr).

Lemma advances_bind {A} s (k : A -> cmd (O * ptr)) (n : cmd A) :
  (forall a, advances s (k a)) -> advances s (n ≫= k).
Proof.
  intros Hk ss. apply wpx_bind. unfold wpx at 1. destruct (n ss) as [[r|a] ss']; [done | apply Hk].
Qed.

Lemma advances_scan {A} s (n : ST rfc821_err A) (P : A -> Prop) (k : A -> cmd (O * ptr)) :
  (forall e, P (n e).1) -> (forall a, P a -> advances s (k a)) -> advances s (scan n ≫= k).
Proof.
  intros Hn Hk ss. apply wpx_bind. unfold wpx at 1, scan. specialize (Hn (err821 ss)).
  destruct (n (err821 ss)) as [a e]. by apply Hk.
Qed.

Lemma advances_ret s (o : O) p : (room p < room s)%nat -> advances s (mret (o, p)).
Proof. intros H ss. by apply wpx_ret. Qed.

Lemma advances_exit s r : advances s (exit r : cmd (O * ptr)).
Proof. by intros ss. Qed.

Lemma advances_weaken s s' m : (room s' <= room s)%nat -> advances s' m -> advances s m.
Proof. intros Hr H ss. eapply wpx_mono; [apply H | done |]. cbv beta. lia. Qed.
End loops.

(** Walk to the result of a parameter block. *)
Ltac adv_step :=
  lazymatch goal with
  | |- advances _ (mbind _ (scan (xtext_string ?v))) =>
      apply advances_scan with (P := fun p => (room p <= room v)%nat);
        [apply xtext_string_room | intros ? ?]
  | |- advances _ (mbind _ (scan (orcpt_string ?v))) =>
      apply advances_scan with (P := fun r => if r is Some p then (room p <= room v)%nat else True);
        [apply orcpt_string_room | intros ? ?]
  | |- advances _ (mbind _ _) => apply advances_bind; intros ?
  | |- advances _ (exit _) => apply advances_exit
  | |- advances _ (return_ _) => apply advances_exit
  | |- advances _ (refuse _ _ _) => unfold refuse
  | |- advances _ (mret _) => apply advances_ret
  | |- advances _ (match ?x with _ => _ end) => destruct x eqn:?
  end.
Ltac adv_steps := repeat adv_step.

(** The amount of text behind pointer arithmetic. *)
Ltac rooms := unfold pinc in *; rewrite ?room_padd in *; lia.

Section parameters.
Context {cf : Config} {env : Env}.

(** What a keyword in front of a parameter says about the text. *)
Lemma keyword_room b w s : b && CISTREQN (mem s) w = true -> (length w <= room s)%nat.
Proof. intros H. zbool. by apply CISTREQN_room. Qed.

Ltac keywords := repeat match goal with
  | H : _ && CISTREQN _ _ = true |- _ => apply keyword_room in H; cbn [length] in H
  | H : CISTREQN _ _ = true |- _ => apply CISTREQN_room in H; cbn [length] in H
  end.

Lemma mail_opt_body_advances o s : (5 <= room s)%nat -> advances s (mail_opt_body o s).
Proof.
  intros Hs. unfold mail_opt_body. apply advances_bind. intros _ ss. apply wpx_bind.
  apply wpx_mono with (E := fun _ _ => True) (Q := fun r _ => (room r.2 < room s)%nat); [|done|].
  - unfold mib, emit. wpx_steps; cbn [snd]; rooms.
  - intros [b p] ss' Hp. revert ss'. cbn [snd] in Hp.
    change (advances s (when (junk_at p) (refuse 501 m554
      ($$"BODY-param data error, must be one of: 8BITMIME/BINARYMIME/7BIT"));;
      mret (MailOpts b (drpt_ret o) (drpt_envid o) (auth_param o), p))). by adv_steps.
Qed.

Lemma mail_option_advances buf o s : advances s (mail_option buf o s).
Proof.
  unfold mail_option. adv_steps; keywords.
  - unfold mail_opt_ret. adv_steps. destruct (_ || _); rooms.
  - by apply mail_opt_body_advances.
  - unfold mail_opt_size. adv_steps. rooms.
  - unfold mail_opt_envid. adv_steps. rooms.
  - unfold mail_opt_auth. adv_steps. rooms.
  - unfold mail_opt_by. pose proof (by_value_room (s [+] 3)) as Hr.
    destruct (by_value _) as [[[val neg] p]|]; adv_steps. rooms.
Qed.

Lemma rcpt_option_advances buf o s : advances s (rcpt_option buf o s).
Proof.
  unfold rcpt_option. adv_steps; keywords.
  - unfold rcpt_opt_notify. adv_steps. rooms.
  - unfold rcpt_opt_orcpt. adv_steps. cbv iota in *. rooms.
Qed.

Lemma skip_separator_room strict sloppy s : (room (skip_separator strict sloppy s) <= room s)%nat.
Proof.
  unfold skip_separator. destruct (_ || _); [|apply room_span].
  destruct (_ || _); [|done]. unfold pinc. rewrite room_padd. lia.
Qed.

Lemma deref_room s : deref s <> 0 -> (0 < room s)%nat.
Proof. unfold deref. destruct (mem s); cbn; [done | lia]. Qed.

(** The parameter loops of MAIL and RCPT end: each round reads at least
    its keyword, so that there are at most as many rounds as characters,
    and more fuel changes nothing. *)
Theorem parameter_loops_end strict sloppy buf fuel :
  (forall o s ss, (room s <= fuel)%nat ->
    mail_options_loop fuel strict sloppy buf o s ss =
    mail_options_loop (room s) strict sloppy buf o s ss) /\
  (forall o s ss, (room s <= fuel)%nat ->
    rcpt_options_loop fuel strict sloppy buf o s ss =
    rcpt_options_loop (room s) strict sloppy buf o s ss).
Proof.
  split; induction (lt_wf fuel) as [fuel _ IH]; intros o s ss Hf.
  all: destruct fuel as [|fuel]; [by replace (room s) with O by lia|].
  all: destruct (room s) as [|n] eqn:Er.
  1, 3: cbn; replace (deref s) with 0; [done|]; unfold deref; destruct (mem s); cbn in *; congruence.
  all: cbn; destruct (deref s =? 0); [done|]; unfold mbind, ex_bind.
  - pose proof (mail_option_advances buf o (skip_separator strict sloppy s) ss) as Ha. unfold wpx in Ha.
    pose proof (skip_separator_room strict sloppy s).
    destruct (mail_option _ _ _ ss) as [[r|[o' s']] ss']; [done|]. cbn [snd] in Ha.
    rewrite (IH fuel), (IH n) by lia. done.
  - pose proof (rcpt_option_advances buf o (skip_separator strict sloppy s) ss) as Ha. unfold wpx in Ha.
    pose proof (skip_separator_room strict sloppy s).
    destruct (rcpt_option _ _ _ ss) as [[r|[o' s']] ss']; [done|]. cbn [snd] in Ha.
    rewrite (IH fuel), (IH n) by lia. done.
Qed.
End parameters.

Lemma parameter_loops_end_witness :
  let s := Ptr 0 ($$" SIZE=5 BODY=7BIT") in
  @mail_options_loop (demo_config false true) (demo_env false router_answer) 100 false false s
    (MailOpts None None None None) s (set_sizeoptval (-1) (demo_session [])) =
  @mail_options_loop (demo_config false true) (demo_env false router_answer) 17 false false s
    (MailOpts None None None None) s (set_sizeoptval (-1) (demo_session [])).
Proof.
  intros s. apply (@parameter_loops_end (demo_config false true) (demo_env false router_answer)
    false false s 100). cbn. lia.
Defined.

(** ** The BY parameter *)

(** Flag words that arise from letters: at most one of R and N. *)
Definition by_word (neg : Z) : bool := existsb (Z.eqb neg) [0; 1; 2; 4; 5; 6].

Lemma by_flags_word l : forall neg r n,
  by_word neg = true -> by_flags neg l = Some (r, n) -> by_word r = true.
Proof.
  induction l as [|c l IH]; intros neg r n Hw; cbn [by_flags]; [by intros [= <- _]|].
  destruct (_ || _); [by intros [= <- _]|]. cbv zeta.
  assert (forall neg', by_word neg' = true ->
    ('(r, n) ← by_flags neg' l; Some (r, S n)) = Some (r, n) -> by_word r = true) as Hnext.
  { intros neg' Hw'. destruct (by_flags neg' l) as [[r' n']|] eqn:E; cbn; [|done].
    intros [= -> _]. by eapply IH. }
  assert (neg = 0 \/ neg = 1 \/ neg = 2 \/ neg = 4 \/ neg = 5 \/ neg = 6) as Hneg.
  { unfold by_word in Hw. cbn in Hw. repeat rewrite ?orb_true_iff, ?Z.eqb_eq in Hw. intuition done. }
  destruct (_ || _); [|destruct (_ || _); [|destruct (_ || _); [|done]]].
  all: destruct (flag _ _) eqn:Hf; [done|]; apply Hnext; 
    repeat destruct Hneg as [-> | Hneg]; try subst neg; cbn in Hf; done.
Qed.

Lemma decimal_bound w : forall v n, forallb isdigit w = true -> 0 <= v <= n ->
  0 <= fold_left (fun v c => v * 10 + (c - $"0")) w v <= (n + 1) * 10 ^ Z.of_nat (length w) - 1.
Proof.
  induction w as [|c w IH]; intros v n Hw Hv; cbn [fold_left length]; [lia|].
  cbn in Hw. apply andb_prop in Hw as [Hc Hw]. unfold isdigit in Hc. zbool.
  destruct (IH (v * 10 + (c - $"0")) (n * 10 + 9) Hw ltac:(lia)) as [H1 H2]. split; [done|].
  rewrite Nat2Z.inj_succ, Z.pow_succ_r by lia. nia.
Qed.

(** What the [BY=] parameter admits: a value of at most nine digits, which
    fits an [int], and a mode that is exactly one of R and N, with T as the
    only other letter. *)
Theorem by_value_bounds p val neg q :
  by_value p = Some (val, neg, q) ->
  -999999999 <= val <= 999999999 /\ flag neg DELIVERBY_R = negb (flag neg DELIVERBY_N) /\
  flag neg (Z.lnot (Z.lor DELIVERBY_T (Z.lor DELIVERBY_N DELIVERBY_R))) = false.
Proof.
  unfold by_value. set (p1 := if deref p =? $"-" then pinc p else p). clearbody p1.
  set (w := take (span isdigit (mem p1)) (mem p1)).
  destruct (9 <? span isdigit (mem p1))%nat eqn:Hc; [done|]. destruct (negb _); [done|].
  unfold mbind, option_bind. destruct (by_flags 0 _) as [[neg' n]|] eqn:E; [|done].
  destruct (negb (flag neg' _)) eqn:Hm; [done|]. intros [= <- <- _].
  assert (forallb isdigit w = true /\ (length w <= 9)%nat) as [Hw Hl].
  { subst w. destruct (span_app isdigit (mem p1)) as (v & r & Hm1 & Hs & Hv & _).
    rewrite Hs in Hc. rewrite Hs, Hm1, take_app_length. split; [done|]. apply Nat.ltb_ge in Hc. lia. }
  clearbody w. pose proof (decimal_bound w 0 0 Hw ltac:(lia)) as Hb.
  pose proof (Z.pow_le_mono_r 10 (Z.of_nat (length w)) 9 ltac:(lia) ltac:(lia)).
  split; [destruct (deref p =? $"-"); lia|].
  apply by_flags_word in E; [|done]. unfold by_word in E. cbn in E.
  rewrite !orb_true_iff, !Z.eqb_eq in E.
  repeat destruct E as [-> | E]; try done.
Qed.

Lemma by_value_bounds_witness :
  exists val neg q, by_value (Ptr 0 ($$"-1200;NT FOO")) = Some (val, neg, q) /\
    val = -1200 /\ flag neg DELIVERBY_R = negb (flag neg DELIVERBY_N).
Proof.
  exists (-1200), 6, (Ptr 8 ($$" FOO")). split; [reflexivity|]. split; [reflexivity|].
  apply (by_value_bounds (Ptr 0 ($$"-1200;NT FOO")) (-1200) 6 (Ptr 8 ($$" FOO"))). reflexivity.
Defined.
