(* ===== verification/SmtpReplies.v ===== *)
(** * Replies of HELO, RSET and VRFY, and who may talk

    HELO answers once, and what a refused HELO leaves behind; RSET; the
    router failures after which a command is answered never or twice; and
    the commands an unauthenticated client of a submission server gets
    through. *)

From Stdlib Require Import ZArith Lia.
From stdpp Require Import base tactics numbers list option.
From S2P Require Import Prelude StrMatch Rfc821 SmtpState SmtpCmds SmtpSpec SmtpMail SmtpLine SmtpAuth SmtpServer SmtpSession SmtpDemo.

#[local] Open Scope Z_scope.

(** ** HELO *)

(** With [i] final replies sent before, there are [j] behind [m]; an early
    return gives 0 and comes with the one reply of the command. *)
Definition says {A} (i j : nat) (m : cmd A) : Prop :=
  forall ss, sane ss ->
  wpx m (fun r ss' => r = Return 0 /\ (i + finals (trace ss') = 1 + finals (trace ss))%nat /\ sane ss')
    (fun _ ss' => (i + finals (trace ss') = j + finals (trace ss))%nat /\ sane ss') ss.

Lemma says_bind {A B} i j k (m : cmd A) (f : A -> cmd B) :
  says i j m -> (forall a, says j k (f a)) -> says i k (m ≫= f).
Proof.
  intros Hm Hf ss Hs. apply wpx_bind. eapply wpx_mono; [by apply Hm|done|].
  cbv beta. intros a ss1 (H1 & S1). eapply wpx_mono; [by apply Hf|..]; cbv beta.
  - intros r ss2 (-> & H2 & S2). split_and!; [done | lia | done].
  - intros b ss2 (H2 & S2). split; [lia | done].
Qed.

Lemma says_ret {A} i (a : A) : says i i (mret a).
Proof. intros ss Hs. by apply wpx_ret. Qed.

Lemma says_read {A} i (f : SmtpState -> A) : says i i (read f).
Proof. intros ss Hs. by apply wpx_read. Qed.

Lemma says_update i f :
  (forall ss, trace (f ss) = trace ss /\ irouter_state (f ss) = irouter_state ss) -> says i i (update f).
Proof.
  intros H ss Hs. apply wpx_update. destruct (H ss) as [-> Hi]. split; [done|]. unfold sane. by rewrite Hi.
Qed.

Lemma says_emit i e : is_final e = false -> says i i (emit e).
Proof. intros He ss Hs. apply wpx_update. cbn. by rewrite finals_cons, He. Qed.

Lemma says_final {cf : Config} code st fmt arg : 0 < code -> says 0 1 (type_arg code st fmt arg).
Proof.
  intros Hc ss Hs. apply wpx_update. cbn. rewrite finals_cons. cbn.
  by replace (0 <? code) with true by lia.
Qed.

Lemma says_cont {cf : Config} i code st fmt arg : code <= 0 -> says i i (type_arg code st fmt arg).
Proof. intros Hc. apply says_emit. cbn. lia. Qed.

Lemma says_exit {A} j : says (A := A) 1 j (return_ 0).
Proof. intros ss Hs. by apply wpx_exit. Qed.

Lemma says_if {A} (b : bool) i j (m1 m2 : cmd A) :
  (b = true -> says i j m1) -> (b = false -> says i j m2) -> says i j (if b then m1 else m2).
Proof. destruct b; auto. Qed.

Lemma says_when i b (m : cmd unit) : (b = true -> says i i m) -> says i i (when b m).
Proof. intros H. destruct b; [by apply H | apply says_ret]. Qed.

Lemma says_scan {A} i (m : ST rfc821_err A) : says i i (scan m).
Proof. intros ss Hs. unfold wpx, scan. by destruct (m (err821 ss)). Qed.

(** Walk through a block; the number of replies follows from the codes. *)
Ltac s_step :=
  lazymatch goal with
  | |- says _ _ (mbind _ _) => eapply says_bind; [|intros ?]
  | |- says _ _ (mret _) => apply says_ret
  | |- says _ _ (read _) => apply says_read
  | |- says _ _ policymsg => apply says_read
  | |- says _ _ (update _) => by apply says_update
  | |- says _ _ (emit _) => by apply says_emit
  | |- says _ _ smtp_tarpit => by apply says_emit
  | |- says _ _ (mib _) => by apply says_emit
  | |- says _ _ (return_ 0) => apply says_exit
  | |- says _ _ (scan _) => apply says_scan
  | |- says _ _ (when _ _) => apply says_when; intros ?
  | |- says _ _ (type ?code _ _) => first [apply says_cont; lia | apply says_final; lia]
  | |- says _ _ (type_arg ?code _ _ _) => first [apply says_cont; lia | apply says_final; lia]
  | |- says _ _ (cont250 _ _) => unfold cont250
  | |- says _ _ (policytest _ _ _ _) => unfold policytest
  | |- says _ _ (type821err _ _ _ _) => unfold type821err
  | |- says _ _ (if ?b then _ else _) =>
      lazymatch type of b with bool => apply says_if; intros ? | option _ => destruct b end
  | |- says _ _ (match ?x with Some _ => _ | None => _ end) => destruct x
  end.
Ltac s_steps := repeat s_step.

Section helo.
Context {cf : Config} {env : Env} {SR : SaneRouter}.

Lemma says_abort_mail i : says i i abort_mail.
Proof. unfold abort_mail. s_steps. Qed.

Lemma says_helo_reset verb : says 0 0 (helo_reset verb).
Proof.
  unfold helo_reset. eapply says_bind with (j := O); [destruct verb; s_steps|]. intros _. s_steps.
  apply says_abort_mail.
Qed.

Lemma says_helo_router : says 0 0 helo_router.
Proof.
  unfold helo_router. eapply says_bind; [apply says_read|]. intros info. apply says_when. intros _ ss Hs.
  apply wpx_bind.
  eapply wpx_mono; [by apply asking_router|done|]. cbv beta. intros [s|] ss1 (_ & S1 & Hr).
  - destruct Hr as [Hr Hc]. unfold replies in Hr.
    assert (says 0 0 (if negb (Z.quot (atoi s) 100 =? 2) then
           smtp_tarpit;; type (atoi s) None (drop 4 s);; return_ 0
         else type (- atoi s) None (drop 4 s))) as H by s_steps.
    eapply wpx_mono; [by apply H|..]; cbv beta.
    + intros r ss2 (-> & H2 & S2). split_and!; [done | lia | done].
    + intros _ ss2 (H2 & S2). split; [lia | done].
  - unfold replies in Hr. apply wpx_exit. split_and!; [done | lia | done].
Qed.

Lemma says_extensions : says 0 1 ehlo_extensions.
Proof. unfold ehlo_extensions, smtpauth_ehloresponse, auth_login_lines. s_steps. Qed.

Lemma says_helo_greet verb verbname cp :
  says 0 (if cmd_eqb verb Hello2 then 0 else 1) (helo_greet verb verbname cp).
Proof. unfold helo_greet. destruct (cmd_eqb verb Hello2); s_steps. Qed.

(** The end of smtp_helo(). *)
Lemma says_helo_tail verb verbname cp :
  says 0 1 (helo_router;; helo_greet verb verbname cp;;
    (if cmd_eqb verb Hello2 then
       ehlo_extensions;;
       update (fun ss => set_with_protocol_set (Z.lor (with_protocol_set ss) WITH_EHLO) ss)
     else update (set_with_protocol_set WITH_HELO));;
    update (set_state MailOrHello);;
    mret 0).
Proof.
  eapply says_bind; [apply says_helo_router|]. intros _.
  eapply says_bind; [apply says_helo_greet|]. intros _.
  eapply says_bind with (j := 1%nat); [|intros _; s_steps].
  destruct (cmd_eqb verb Hello2); [|s_steps]. eapply says_bind; [apply says_extensions|]. intros _. s_steps.
Qed.

Lemma says_helo_body verb verbname buf cp : says 0 1 (helo_body verb verbname buf cp).
Proof.
  unfold helo_body, helo_check. eapply says_bind; [apply says_helo_reset|]. intros _.
  do 12 (eapply says_bind with (j := O); [s_steps|]; intros ?). apply says_helo_tail.
Qed.

(** HELO, EHLO and LHLO from any session state: the handler comes back,
    sends exactly one final reply, and no mail transaction is open
    afterwards: its spool file is given up, and either the session waits
    for MAIL, or the greeting was refused and the state is as before. *)
Theorem helo_answers_once verb verbname buf cp ss :
  sane ss ->
  exists rc ss', smtp_helo verb verbname buf cp ss = (inr rc, ss') /\
    finals (trace ss') = S (finals (trace ss)) /\ mfp ss' = None /\
    (state ss' = MailOrHello \/ (may_refuse_helo /\ state ss' = state ss)).
Proof.
  intros Hs. pose proof (smtp_helo_spec verb verbname buf cp ss Hs) as Hg.
  assert (wpx (smtp_helo verb verbname buf cp) (fun _ _ => False)
    (fun _ ss' => finals (trace ss') = S (finals (trace ss))) ss) as Hr.
  { apply wpx_catch. eapply wpx_mono; [by apply says_helo_body|..]; cbv beta.
    - intros r ss' (-> & H & _). lia.
    - intros _ ss' (H & _). lia. }
  unfold wpx in *. destruct (smtp_helo _ _ _ _ ss) as [[|rc] ss']; [done|]. exists rc, ss'.
  destruct Hg as (_ & Hm & Hst). by split_and!.
Qed.
End helo.

Lemma helo_answers_once_witness :
  let l := line_of ($$"EHLO client.org") in
  exists rc ss', @smtp_helo (demo_config false true) (demo_env false router_answer)
      Hello2 ($$"EHLO") l (l [+] 4) demo_transaction = (inr rc, ss') /\
    finals (trace ss') = 1%nat /\ state ss' = MailOrHello.
Proof.
  intros l. destruct (@helo_answers_once (demo_config false true) (demo_env false router_answer)
    demo_router_sane Hello2 ($$"EHLO") l (l [+] 4) demo_transaction) as (rc & ss' & E & Hr & _).
  - apply demo_transaction_healthy.
  - exists rc, ss'. split; [exact E|]. split; [exact Hr|].
    vm_compute in E. injection E as _ <-. reflexivity.
Defined.

Section refusals.
Context {cf : Config} {env : Env}.

(** A refused HELO breaks the session invariant.  When greetings are
    checked and the argument is not a domain, a HELO during a transaction
    gives up the spool file and returns without touching the state: the
    session still waits for recipients, with a null spool file. *)
Theorem helo_refusal_breaks_invariant verb verbname buf cp b ss :
  checkhelo && skeptical = true ->
  (forall e, (partridge (skip_space cp) e).1 = true) ->
  mfp ss = Some b -> in_transaction (state ss) = true ->
  exists ss', smtp_helo verb verbname buf cp ss = (inr 0, ss') /\
    mfp ss' = None /\ state ss' = state ss /\ ~ session_inv ss'.
Proof.
  intros Hck Hbad Hm Hin.
  assert (wpx (smtp_helo verb verbname buf cp) (fun _ _ => False)
    (fun rc ss' => rc = 0 /\ mfp ss' = None /\ state ss' = state ss) ss) as H.
  { apply wpx_catch. unfold helo_body. apply wpx_bind.
    apply wpx_mono with (E := fun _ _ => False) (Q := fun _ ss' => mfp ss' = None /\ state ss' = state ss);
      [|done|].
    - unfold helo_reset. apply wpx_bind.
      apply wpx_mono with (E := fun _ _ => False) (Q := fun _ ss' => mfp ss' = Some b /\ state ss' = state ss);
        [destruct verb; (by apply wpx_ret) || (by apply wpx_update) | done|].
      intros _ ss1 [Hm1 Hst1]. apply wpx_bind, wpx_read. rewrite Hm1. cbn [when].
      eapply wpx_mono; [apply abort_mail_spec|done|]. cbv beta. intros _ ss2 (? & ? & _).
      split; congruence.
    - intros _ ss1 [Hm1 Hst1]. do 2 apply wpx_bind, wpx_update. unfold helo_check.
      apply wpx_bind, wpx_bind. unfold wpx at 1, scan. specialize (Hbad (err821 ss1)). cbn [err821 set_helobuf set_cfinfo].
      destruct (partridge _ _) as [bad e]. cbn [fst] in Hbad. subst bad.
      unfold type821err, type, type_arg, policytest, smtp_tarpit, emit, return_.
      wpx_steps. all: rewrite ?Hck; cbn [andb when]. all: wpx_steps. all: by split_and!. }
  unfold wpx in H. destruct (smtp_helo _ _ _ _ ss) as [[|rc] ss']; [done|].
  destruct H as (-> & Hm' & Hst'). exists ss'. split_and!; [done..|].
  intros Hi. unfold session_inv in Hi. rewrite Hst', Hm' in Hi. by destruct (Hi Hin).
Qed.
End refusals.

Lemma helo_refusal_breaks_invariant_witness :
  let l := line_of ($$"EHLO _") in
  exists ss', @smtp_helo (demo_config true true) (demo_env false router_answer)
      Hello2 ($$"EHLO") l (l [+] 4) demo_transaction = (inr 0, ss') /\
    mfp ss' = None /\ state ss' = Recipient.
Proof.
  intros l. destruct (@helo_refusal_breaks_invariant (demo_config true true) (demo_env false router_answer)
    Hello2 ($$"EHLO") l (l [+] 4) ($$"from <me@client.org>" ++ [10]) demo_transaction)
    as (ss' & E & Hm & Hst & _).
  - reflexivity.
  - intros e. reflexivity.
  - reflexivity.
  - reflexivity.
  - exists ss'. split; [exact E|]. split; [exact Hm | exact Hst].
Defined.

Definition crlf (l : list Z) : list Z := l ++ [13; 10].

(** The consequence: with checked greetings a client can make the server
    use a null pointer.  It opens a transaction, sends a greeting that is
    refused, and names a recipient, whose lines are then written through the
    null spool file. *)
Theorem refused_helo_crashes_rcpt :
  exists ss', @smtpserver (demo_config true true) (demo_env false router_answer) demo_handlers true
    (demo_session (crlf ($$"EHLO client.org") ++ crlf ($$"MAIL FROM:<me@client.org>") ++
       crlf ($$"EHLO _") ++ crlf ($$"RCPT TO:<you@mx.org>"))) = (inl Segv, ss').
Proof. eexists. vm_compute. reflexivity. Qed.

(** ** RSET *)

Section reset.
Context {cf : Config} {env : Env}.

(** RSET from any session state: one final reply, no spool file, the
    policy verdict is cleared, and the session waits for MAIL unless it was
    never greeted. *)
Theorem rset_resets cp ss :
  exists ss', do_reset cp ss = (inr tt, ss') /\
    finals (trace ss') = S (finals (trace ss)) /\ mfp ss' = None /\ policyresult ss' = 0 /\
    state ss' = (if cmd_eqb (state ss) Hello then Hello else MailOrHello).
Proof.
  assert (wpx (do_reset cp) (fun _ _ => False) (fun _ ss' =>
    finals (trace ss') = S (finals (trace ss)) /\ mfp ss' = None /\ policyresult ss' = 0 /\
    state ss' = (if cmd_eqb (state ss) Hello then Hello else MailOrHello)) ss) as H.
  { unfold do_reset, mib, type, type_arg, emit. apply wpx_bind, wpx_update, wpx_bind, wpx_read, wpx_bind.
    apply wpx_mono with (E := fun _ _ => False) (Q := fun _ ss' =>
      mfp ss' = None /\ state ss' = state ss /\ replies 0 ss ss'); [|done|].
    - cbn [mfp set_trace]. destruct (mfp ss) eqn:Em; cbn [is_some when].
      + eapply wpx_mono; [apply abort_mail_spec|done|]. cbv beta. intros _ ss' (? & ? & _ & Hr & _).
        split_and!; [done | done |]. unfold replies in *. cbn in Hr. rewrite finals_cons in Hr. done.
      + apply wpx_ret. split_and!; [done | done |]. unfold replies. cbn. by rewrite finals_cons.
    - intros _ ss1 (Hm & Hst & Hr). unfold replies in Hr. unfold when. wpx_steps.
      all: cbn; rewrite finals_cons; cbn; split_and!; try done; try lia.
      all: rewrite Hst in *; destruct (cmd_eqb (state ss) Hello) eqn:Ec; try done.
      all: unfold cmd_eqb in Ec; by apply bool_decide_eq_true in Ec. }
  unfold wpx in H. destruct (do_reset cp ss) as [[|[]] ss']; [done|]. by exists ss'.
Qed.
End reset.

(** ** Router failures *)

Section router_failures.
Context {cf : Config} {env : Env}.

(** When the pipe to the interactive router breaks, router() sends no
    reply, although its callers rely on it: a MAIL or RCPT that asks the
    router over an open connection returns -1 and the client gets no answer
    to its command. *)
Theorem router_write_error_unanswered f skip cp addrlen h p ss :
  enable_router = true -> skip = false -> irouter_state ss = Some (Rtr true h p) -> h = true ->
  ext_router_write_error (EvRouter f (take (Z.to_nat addrlen) (mem cp)) :: trace ss) = true ->
  exists ss', ask_router f skip cp addrlen ss = (inl (Return (-1)), ss') /\
    finals (trace ss') = finals (trace ss).
Proof.
  intros He -> Hi -> Hw. unfold ask_router, router. rewrite He. cbn [negb andb].
  unfold mbind, ex_bind, read. rewrite Hi. unfold router_ask, mbind, ex_bind, update, emit, read.
  cbn [sawhungry negb]. unfold update. cbn [trace set_trace set_irouter_state]. rewrite Hw.
  eexists. split; [done|]. cbn. by rewrite finals_cons.
Qed.

(** When the router has nothing to say about an address (it sends only
    its prompt), VRFY is answered twice: router() reports success with a 250
    reply and returns a null pointer, for which smtp_verify() sends a 501. *)
Theorem verify_answered_twice buf cp rs ss :
  state ss <> Hello -> STYLE (cfinfo ss) $"v" = true -> enable_router = true ->
  irouter_state ss = Some (Rtr true true None) ->
  (forall tr, ext_router_write_error tr = false /\
              ext_router_lines tr = Line ($$"#hungry" ++ [10]) :: rs) ->
  exists ss', smtp_verify buf cp ss = (inr 0, ss') /\
    finals (trace ss') = (2 + finals (trace ss))%nat.
Proof.
  intros Hst Hv He Hi Hr. unfold smtp_verify, catch, verify_body. unfold mbind, ex_bind, mib, emit, update, read.
  cbn [state set_trace cfinfo]. replace (cmd_eqb (state ss) Hello) with false.
  2:{ symmetry. by apply bool_decide_eq_false. }
  cbn [when]. unfold mret, ex_ret. cbv beta iota. cbn [cfinfo set_trace]. destruct (rfc821to822quote _ _) as [cp' n].
  rewrite Hv, He. cbn [andb]. unfold router. rewrite He. cbn [negb].
  unfold mbind, ex_bind, read. cbn [irouter_state set_trace]. rewrite Hi.
  unfold router_ask, mbind, ex_bind, update, emit, read. cbn [sawhungry negb]. unfold update.
  cbn [trace set_trace set_irouter_state].
  match goal with |- context [ext_router_write_error ?tr] => destruct (Hr tr) as [-> ->] end.
  cbn [router_loop]. unfold mbind, ex_bind, emit, update. cbn.
  eexists. split; [done|]. cbn. rewrite !finals_cons. cbn. lia.
Qed.
End router_failures.

Lemma router_write_error_unanswered_witness :
  exists ss', @ask_router (demo_config false true) (demo_env true router_answer) ($$"from") false
      (Ptr 0 ($$"me@client.org>")) 13 (set_irouter_state (Some (Rtr true true None)) (demo_session [])) =
      (inl (Return (-1)), ss') /\ finals (trace ss') = 0%nat.
Proof.
  apply (@router_write_error_unanswered (demo_config false true) (demo_env true router_answer)
    ($$"from") false (Ptr 0 ($$"me@client.org>")) 13 true None
    (set_irouter_state (Some (Rtr true true None)) (demo_session []))); reflexivity.
Defined.

Lemma verify_answered_twice_witness :
  let l := line_of ($$"VRFY you") in
  exists ss', @smtp_verify (demo_config false true) (demo_env false [Line ($$"#hungry" ++ [10])]) l (l [+] 4)
      (set_irouter_state (Some (Rtr true true None)) (set_state MailOrHello (demo_session []))) =
      (inr 0, ss') /\ finals (trace ss') = 2%nat.
Proof.
  intros l. apply (@verify_answered_twice (demo_config false true)
    (demo_env false [Line ($$"#hungry" ++ [10])]) l (l [+] 4) []
    (set_irouter_state (Some (Rtr true true None)) (set_state MailOrHello (demo_session [])))).
  - discriminate.
  - reflexivity.
  - reflexivity.
  - reflexivity.
  - intros tr. split; reflexivity.
Defined.

(** ** Submission *)

Section submission.
Context {cf : Config} {env : Env} {hd : Handlers}.

(** A submission server executes nothing for a client that has not
    authenticated, but for AUTH, HELO, EHLO, NOOP, RSET and QUIT: any other
    command line changes neither the transaction nor the session state, the
    configured handlers are not called, and the session goes on unless the
    client has sent too many unknown commands. *)
Theorem submission_requires_auth buf insecure ss :
  msa_mode = true -> authuser ss = None -> always_accept_or_trust = false ->
  (forall verb c, command_of buf = Some (verb, c) ->
     ~ In c [Auth; Hello; Hello2; NoOp; Reset; Quit]) ->
  exists n ss', run_command buf insecure ss = (inr n, ss') /\ n <> Quit_ /\
    mfp ss' = mfp ss /\ state ss' = state ss /\ smtpfrom ss' = smtpfrom ss.
Proof.
  intros Hmsa Hu Ht Hnot.
  assert (wpx (run_command buf insecure) (fun _ _ => False)
    (fun n ss' => n <> Quit_ /\ calm ss ss') ss) as H.
  { assert (wpx (unknown_command buf) (fun _ _ => False) (fun n ss' => n <> Quit_ /\ calm ss ss') ss) as Hun.
    { unfold unknown_command, type, type_arg, mib, smtp_tarpit, emit. wpx_steps; by split_and!. }
    unfold run_command. destruct (command_of buf) as [[verb c]|] eqn:Ef; [|done].
    assert (submission_open c = false) as Hc by (specialize (Hnot _ _ eq_refl); by destruct c; cbn in *; intuition congruence).
    apply wpx_if; intros _; [done|]. apply wpx_bind.
    apply wpx_mono with (E := fun _ _ => False) (Q := fun ok ss' => ok = false /\ calm ss ss'); [|done|].
    - unfold allow_command, type, type_arg, smtp_tarpit, emit. wpx_steps; try by split_and!.
      rewrite Hmsa, Hu, Ht, Hc in *. discriminate.
    - intros ok ss' [-> Hcalm]. by apply wpx_ret. }
  unfold wpx in H. destruct (run_command buf insecure ss) as [[|n] ss']; [done|].
  destruct H as (? & ? & ? & ?). by exists n, ss'.
Qed.
End submission.

Lemma submission_requires_auth_witness :
  exists n ss', @run_command (demo_config_for true false true) (demo_env false router_answer) demo_handlers
      (line_of ($$"MAIL FROM:<me@client.org>")) true (set_state MailOrHello (demo_session [])) = (inr n, ss') /\
    mfp ss' = None /\ state ss' = MailOrHello.
Proof.
  destruct (@submission_requires_auth (demo_config_for true false true) (demo_env false router_answer)
    demo_handlers (line_of ($$"MAIL FROM:<me@client.org>")) true (set_state MailOrHello (demo_session [])))
    as (n & ss' & E & _ & Hm & Hst & _).
  - reflexivity.
  - reflexivity.
  - reflexivity.
  - intros verb c H. vm_compute in H. injection H as <- <-. cbn. intuition discriminate.
  - exists n, ss'. split; [exact E|]. split; [exact Hm | exact Hst].
Defined.
