(* ===== verification/SmtpProps.v ===== *)
(** * Properties of the SMTP commands

    The theorems a maintainer of smtpserver/smtpcmds.c relies on: what each
    command does to the mail transaction, that it answers once, that no
    session reaches a null pointer, and the sessions in which this fails. *)

From Stdlib Require Import ZArith Lia.
From stdpp Require Import base tactics numbers list option relations.
From S2P Require Import Prelude StrMatch Rfc821 Rfc821Grammar Rfc821Complete.
From S2P Require Import SmtpState SmtpCmds SmtpData SmtpSpec SmtpMail SmtpRcpt SmtpLine SmtpServer SmtpSession SmtpDemo.

#[local] Open Scope Z_scope.

(** ** Helper lemmas *)

Lemma wpx_run {S R A} (m : EX S R A) (Q : A -> S -> Prop) s :
  wpx m (fun _ _ => False) Q s -> exists a s', m s = (inr a, s') /\ Q a s'.
Proof. unfold wpx. destruct (m s) as [[r|a] s']; [done|]. intros H. by exists a, s'. Qed.

(** ** MAIL and RCPT *)


Definition l_mail : ptr := line_of ($$"MAIL FROM:<me@client.org> SIZE=1000").



Definition l_rcpt : ptr := line_of ($$"RCPT TO:<you@mx.org> NOTIFY=NEVER").


(** ** Sessions *)

(** One round of the session loop that goes on to the next, with a client
    that sends DATA and BDAT only where they belong. *)
Inductive round {cf : Config} {env : Env} {hd : Handlers} (insecure : bool) :
    SmtpState -> SmtpState -> Prop :=
| round_intro ss g ss1 ss2 :
    get_line ss = (inr g, ss1) -> orderly_line g ss1 ->
    serve_line g insecure ss1 = (inr Continue, ss2) ->
    round insecure ss ss2.

(** Reading a line keeps the session healthy, unless it saw the end of the
    input, which ends the loop. *)
Lemma get_line_spec {cf : Config} {env : Env} ss :
  healthy ss ->
  wpx get_line (fun _ _ => False) (fun g ss' => sane ss' /\ (g_i g = 0 \/ healthy ss')) ss.
Proof.
  intros Hh. pose proof Hh as [Hs _]. unfold get_line.
  apply wpx_bind, wpx_read, wpx_bind, wpx_update. set (g := s_gets _ _). set (ss1 := set_input _ ss).
  assert (healthy ss1) as H1 by done. clearbody ss1 g. apply wpx_bind.
  apply (wpx_mono _ (fun _ _ => False) _ (fun _ => healthy)); [by destruct (g_eof g); [apply wpx_update | apply wpx_ret]|done|].
  clear ss Hh Hs ss1 H1. intros _ ss Hh. pose proof Hh as [Hs _].
  apply wpx_bind, wpx_read, wpx_bind. destruct (_ && _) eqn:E; cbn [when].
  - eapply wpx_mono; [apply abort_mail_spec|done|]. cbv beta. intros _ ss' (_ & _ & _ & _ & Hi).
    apply wpx_ret. zbool. split; [unfold sane; by rewrite Hi | by left].
  - apply wpx_ret, wpx_ret. split; [done | by right].
Qed.

Lemma break_on_eof {cf : Config} {env : Env} {hd : Handlers} g insecure ss :
  g_i g = 0 -> serve_line g insecure ss = (inr Break, ss).
Proof.
  intros Hi. unfold serve_line. unfold mbind, ex_bind, read. cbn [fst snd].
  by rewrite Hi, orb_true_r.
Qed.

Lemma round_healthy {cf : Config} {env : Env} {SR : SaneRouter} {hd : Handlers} {LH : LawfulHandlers}
    insecure ss ss' :
  ~ may_refuse_helo -> (forall tr, ext_ferror tr = false) ->
  healthy ss -> round insecure ss ss' -> healthy ss'.
Proof.
  intros Hcf Hsp Hh Hr. destruct Hr as [ss g ss1 ss2 Hg Ho Hs].
  pose proof (get_line_spec ss Hh) as H. unfold wpx in H. rewrite Hg in H. destruct H as [_ [Hi | H1]].
  - rewrite break_on_eof in Hs by done. congruence.
  - pose proof (rounds_serve_line Hcf Hsp g insecure ss1 H1 Ho) as H. unfold wpx in H. rewrite Hs in H. auto.
Qed.


Lemma demo_config_accepts : ~ @may_refuse_helo (demo_config false true).
Proof. intros [H | [H | H]]; discriminate. Qed.

