(* ===== verification/SmtpDataProps.v ===== *)
(** * Properties of DATA and BDAT

    What the client sends arrives in the spool file; a message is answered
    and disposed of exactly once; DATA and BDAT carry the same messages; and
    the sessions in which a refused DATA or BDAT brings the server down, or
    a message into the envelope. *)

From Stdlib Require Import ZArith Lia.
From stdpp Require Import base tactics numbers list option sets.
From S2P Require Import Prelude StrMatch Rfc821 SpoolId SmtpState SmtpCmds SmtpLine SmtpData SmtpDot.
From S2P Require Import SmtpSpec SmtpDataSpec SmtpServer SmtpSession SmtpDemo SmtpProps.

#[local] Open Scope Z_scope.

(** ** The wire format *)

(** C1: mvdata() implements the message format of SMTP on every input of
    bytes: it stops exactly when the input starts with lines that end with a
    line of a single dot (after which a CR may stand), whatever the header
    processing does; the unread input is then exactly what follows that
    line, and the result is the number of characters taken.  Otherwise it
    runs to the end of the input. *)
Theorem mvdata_refines_dotted ferror pr inp :
  Forall byte inp ->
  let m := (mvdata_run ferror pr inp).1.1 in
  (forall rest, (mv_eof m = false /\ mv_rest m = rest) <-> exists ls, dotted inp ls rest) /\
  (mv_eof m = false -> mv_cnt m = Z.of_nat (length inp - length (mv_rest m))).
Proof.
  intros Hb m. pose proof (mvdata_reads ferror pr inp) as H. cbv zeta in H. fold m in H.
  destruct (dot_run START inp) as [[o r] e] eqn:E. destruct H as (-> & -> & Hc). split.
  - intros rest. split.
    + intros [He <-]. apply negb_false_iff in He as ->. by apply (dot_run_dotted (S (length inp)) inp o r); [lia|..].
    + intros [ls Hd]. apply dotted_run in Hd; [|done]. rewrite E in Hd. by injection Hd as _ -> ->.
  - intros He. apply negb_false_iff in He. by apply Hc.
Qed.

Lemma mvdata_refines_dotted_witness :
  let inp := $$"hi" ++ [13; 10] ++ $$"." ++ [13; 10] ++ $$"QUIT" in
  mv_rest (mvdata_run false 0 inp).1.1 = $$"QUIT" /\ exists ls, dotted inp ls ($$"QUIT").
Proof.
  intros inp. destruct (mvdata_refines_dotted false 0 inp) as [H _].
  - apply Forall_forall. intros c Hc. repeat (apply elem_of_cons in Hc as [->|Hc]; [unfold byte; lia|]).
    by apply elem_of_nil in Hc.
  - split; [reflexivity|]. apply (H ($$"QUIT")). split; reflexivity.
Defined.

(** C2: A message survives the transfer: lines without LF, with a header
    whose lines fit the line buffer, none of which has a [Precedence:] of
    fewer than three characters, and the first of which is no [From_] line,
    encoded by the client as RFC 5321 says (CR LF line ends, a dot in front
    of each leading dot, a final dot), arrive in the spool file as they
    were, with LF line ends, and the input behind the message is untouched. *)
Theorem data_round_trip pr ls rest :
  Forall (Forall byte) ls -> Forall byte rest -> Forall (fun l => LF ∉ l) ls -> plain_header 0 ls ->
  let m := (mvdata_run false pr (wire ls ++ rest)).1.1 in
  mv_out m = unlines ls /\ mv_rest m = rest /\ mv_eof m = false /\
  mv_cnt m = Z.of_nat (length (wire ls)).
Proof.
  intros Hb Hr Hlf Hp. by apply mvdata_wire.
Qed.

Definition demo_lines : list (list Z) := [$$"Subject: dots"; []; $$".first"; $$"."; $$"last"].

Lemma demo_lines_bytes : Forall (Forall byte) demo_lines.
Proof. repeat constructor; done. Qed.

Lemma demo_lines_plain : plain_header 0 demo_lines.
Proof. split; [by vm_compute|]. vm_compute blank_line. split; [done|]. split; [done|]. by split; vm_compute. Qed.

Lemma demo_lines_lf : Forall (fun l => LF ∉ l) demo_lines.
Proof. repeat constructor; set_solver. Qed.

Lemma data_round_trip_witness :
  mv_out (mvdata_run false 0 (wire demo_lines ++ [81])).1.1 = unlines demo_lines.
Proof.
  destruct (data_round_trip 0 demo_lines [81]) as [H _].
  - exact demo_lines_bytes.
  - by repeat constructor.
  - exact demo_lines_lf.
  - exact demo_lines_plain.
  - exact H.
Defined.

(** ** DATA as a whole *)

(** C10: DATA in a session that keeps the invariant comes back, and either
    refuses with one reply before the data, after which the transaction is
    as before or has lost its spool file; or it sends 354, takes the message
    from the input, and closes the transaction: the spool file is given up,
    frozen or handed over exactly once.  A message that is complete gets
    one more reply, and in LMTP mode one for each good recipient; the state
    is then waiting for the next MAIL.  When the connection ends first, the
    message is not handed over and the session ends. *)
Theorem data_transaction {cf : Config} {env : Env} buf cp ss :
  session_inv ss ->
  exists rc ss', smtp_data buf cp ss = (inr rc, ss') /\
  ((rc = 0 /\ finals (trace ss') = S (finals (trace ss)) /\ input ss' = input ss /\
    ((mfp ss' = mfp ss /\ state ss' = state ss) \/ mfp ss' = None)) \/
   (data_ready ss /\ mfp ss' = None /\
    exists ferror d, let m := (mvdata_run ferror (policyresult ss) (input ss)).1.1 in
      input ss' = mv_rest m /\ disposals (trace ss') = d :: disposals (trace ss) /\
      if mv_eof m || s_status ss then
        rc = -1 /\ finals (trace ss') = S (finals (trace ss)) /\ (forall f, d <> EvMailClose f)
      else
        rc = 0 /\ state ss' = MailOrHello /\
        finals (trace ss') = (finals (trace ss) +
          1 + if lmtp_mode then Z.to_nat (Z.max 1 (ok_rcpt_count ss)) else 1)%nat)).
Proof.
  intros Hi. destruct (wpx_run _ _ _ (smtp_data_spec buf cp ss Hi)) as (rc & ss' & E & H).
  exists rc, ss'. split; [done|].
  destruct H as [[-> HR] | [Hrd (b & tr & Hm & T)]].
  - left. split; [done|].
    destruct HR as [(_ & HR) | [(_ & HR) | [(_ & _ & HR) | (_ & _ & HR)]]];
      destruct (after_replies _ _ _ _ _ HR) as [Hr _]; destruct HR as (evs & -> & _);
      (split; [exact Hr|]; split; [done|]); cbn; auto.
  - right. destruct T as (? & ? & _ & _ & _ & d & Hd & T). split_and!; [done..|].
    exists (ext_ferror tr), d. fold (data_moved (ext_ferror tr) ss). split_and!; [done..|].
    destruct (_ || _); [destruct T as (? & ? & ?); by split_and!|].
    destruct T as (? & ? & Hr & _). split_and!; [done | done |]. unfold replies, due, further in Hr.
    rewrite Hr, andb_true_r. destruct lmtp_mode; lia.
Qed.

Definition demo_ready (inp : list Z) : SmtpState :=
  set_state RecipientOrData (set_sender_ok true (set_rcpt_count 1 (set_ok_rcpt_count 1
    (set_smtpfrom (Some ($$"me@client.org")) (set_mfp (Some ($$"from <me@client.org>" ++ [10]))
      (demo_session inp)))))).

Lemma demo_ready_inv inp : session_inv (demo_ready inp).
Proof. by intros _. Qed.

Lemma data_transaction_witness :
  exists rc ss', @smtp_data (demo_config false true) (demo_env false router_answer)
      (line_of ($$"DATA")) (line_of []) (demo_ready (wire demo_lines)) = (inr rc, ss') /\
    rc = 0 /\ mfp ss' = None /\ finals (trace ss') = 2%nat.
Proof.
  destruct (@data_transaction (demo_config false true) (demo_env false router_answer)
    (line_of ($$"DATA")) (line_of []) (demo_ready (wire demo_lines)) (demo_ready_inv _)) as (rc & ss' & E & _).
  exists rc, ss'. split; [exact E|]. vm_compute in E. injection E as <- <-. split; [|split]; reflexivity.
Defined.

(** C6: Delivery: when a transaction is ready for its message, the client
    sends one (encoded as RFC 5321 says, with an ordinary header) that is
    within the size limit, the spool file and the file system take it, and
    the content filter and mail_close() accept it, then DATA returns 0, the
    file handed to the router is the envelope so far, the end mark of the
    envelope and the message itself, and the rest of the input is left for
    the next command. *)
Theorem data_delivers {cf : Config} {env : Env} buf cp ss b ls rest :
  data_ready ss -> smtpfrom ss <> None -> mfp ss = Some b -> s_status ss = false ->
  input ss = wire ls ++ rest -> Forall (Forall byte) ls -> Forall byte rest ->
  Forall (fun l => LF ∉ l) ls -> plain_header 0 ls ->
  strict_protocol < 1 -> (0 < maxsize -> Z.of_nat (length (wire ls)) <= maxsize) ->
  (forall tr, ext_ferror tr = false) -> (forall tr, exists k, ext_statfs tr = Some k /\ minimum_availspace <= k) ->
  (forall tr f, ext_contentpolicy tr f = 0) ->
  exists ss', smtp_data buf cp ss = (inr 0, ss') /\
    disposals (trace ss') = EvMailClose (b ++ envelope_end ss ++ unlines ls) :: disposals (trace ss) /\
    input ss' = rest /\ state ss' = MailOrHello /\ mfp ss' = None.
Proof.
  intros Hrd Hfrom Hm Hst Hin Hb Hr Hlf Hp Hsp Hmax Hfe Hfs Hcp.
  assert (session_inv ss) as Hi by (intros _; split; [by rewrite Hm | by destruct (smtpfrom ss)]).
  destruct (mvdata_wire (policyresult ss) ls rest Hb Hr Hlf Hp) as (Eo & Er & Ee & Ec).
  destruct (wpx_run _ _ _ (smtp_data_spec buf cp ss Hi)) as (rc & ss' & E & [[_ HR] | [_ (b' & tr & Hm' & T)]]).
  { exfalso. destruct HR as [(? & _) | [(Hs & _) | [(_ & (tr & Hf) & _) | (_ & ? & _)]]]; [lia | | | done].
    - by apply Hs, Hrd.
    - by rewrite Hfe in Hf. }
  rewrite Hm in Hm'. injection Hm' as <-. rewrite Hfe in T. unfold data_moved in T. rewrite Hin in T.
  destruct T as (Hn & Hin' & _ & _ & _ & d & Hd & T). rewrite Ee, Hst in T. cbn [orb] in T.
  destruct T as (-> & Hs & _ & (tr1 & Hav) & tr2 & Hdd). exists ss'. split_and!; [done | | by rewrite Hin' | done | done].
  rewrite Hd. f_equal. rewrite Hdd, Hfe, Eo, Ec. destruct (Hfs tr1) as (k & Hk & Hkm). rewrite Hk in Hav. cbn in Hav.
  assert (0 <= availspace ss') as Ha 
    by (rewrite Hav; apply Z.mul_nonneg_nonneg; [apply Z.min_glb; [lia | by vm_compute] | lia]).
  rewrite (proj2 (Z.ltb_ge _ _)) by lia.
  assert ((0 <? maxsize) && (Z.of_nat (length (wire ls)) >? maxsize) = false) as ->.
  { destruct (0 <? maxsize) eqn:E0; [|done]. zbool. specialize (Hmax E0). cbn. lia. }
  cbn [orb]. unfold disposal_of, verdict. by rewrite Hcp.
Qed.

Lemma data_delivers_witness :
  exists ss', @smtp_data (demo_config false true) (demo_env false router_answer)
      (line_of ($$"DATA")) (line_of []) (demo_ready (wire demo_lines ++ [81])) = (inr 0, ss') /\
    disposals (trace ss') = [EvMailClose ($$"from <me@client.org>" ++ [10] ++ $$"env-end" ++ [10] ++
      unlines demo_lines)].
Proof.
  destruct (@data_delivers (demo_config false true) (demo_env false router_answer)
    (line_of ($$"DATA")) (line_of []) (demo_ready (wire demo_lines ++ [81])) ($$"from <me@client.org>" ++ [10])
    demo_lines [81]) as (ss' & E & Hd & _).
  - by split_and!.
  - done.
  - reflexivity.
  - reflexivity.
  - reflexivity.
  - exact demo_lines_bytes.
  - by repeat constructor.
  - exact demo_lines_lf.
  - exact demo_lines_plain.
  - done.
  - done.
  - done.
  - intros tr. exists 1000000. by split.
  - done.
  - exists ss'. split; [exact E|]. rewrite Hd. reflexivity.
Defined.

(** ** BDAT *)

(** The client sends the blocks [bs] one after the other. *)
Fixpoint send_blocks {env : Env} (bs : list (list Z)) : cmd unit :=
  match bs with
  | [] => mret tt
  | b :: bs => mvbdata (Z.of_nat (length b));; send_blocks bs
  end.

Lemma mvbdata_block {env : Env} b rest ss f :
  mfp ss = Some f -> ext_ferror (trace ss) = false -> input ss = b ++ rest ->
  exists ss', mvbdata (Z.of_nat (length b)) ss = (inr (Z.of_nat (length b)), ss') /\
    mfp ss' = Some (f ++ canon (mvbstate ss) b) /\ mvbstate ss' = List.last b (mvbstate ss) /\
    input ss' = rest /\ trace ss' = trace ss.
Proof.
  intros Hm Hf Hin. unfold mvbdata, mbind, ex_bind, read. rewrite Hm, Hf, Hin, mvbblock_run. cbn.
  by eexists.
Qed.

Lemma send_blocks_run {env : Env} bs rest : forall ss f,
  (forall tr, ext_ferror tr = false) -> mfp ss = Some f -> input ss = concat bs ++ rest ->
  exists ss', send_blocks bs ss = (inr tt, ss') /\
    mfp ss' = Some (f ++ canon (mvbstate ss) (concat bs)) /\ input ss' = rest.
Proof.
  induction bs as [|b bs IH]; intros ss f Hf Hm Hin; cbn [send_blocks concat] in *.
  - exists ss. cbn. rewrite app_nil_r. by split_and!.
  - destruct (mvbdata_block b (concat bs ++ rest) ss f) as (s1 & E & Hm1 & Hb1 & Hi1 & _);
      [done | done | by rewrite Hin, <- app_assoc|].
    destruct (IH s1 _ Hf Hm1 Hi1) as (s2 & E2 & Hm2 & Hi2). exists s2.
    unfold mbind, ex_bind. rewrite E. split_and!; [done | | done].
    rewrite Hm2, Hb1, canon_app. by rewrite app_assoc.
Qed.

(** C11: DATA and BDAT carry the same messages: the lines of a message
    without CR and LF in them and with an ordinary header, sent with BDAT as
    CR LF terminated text cut into blocks at any places (also between a CR
    and its LF), are written to the spool file exactly as DATA writes their
    dot-encoded form. *)
Theorem bdat_same_as_data {env : Env} pr ss f ls bs rest :
  (forall tr, ext_ferror tr = false) -> mfp ss = Some f -> mvbstate ss = -1 ->
  concat bs = crlf ls -> input ss = concat bs ++ rest ->
  Forall (Forall byte) ls -> Forall (fun l => LF ∉ l /\ CR ∉ l) ls -> plain_header 0 ls ->
  exists ss', send_blocks bs ss = (inr tt, ss') /\ input ss' = rest /\
    mfp ss' = Some (f ++ mv_out (mvdata_run false pr (wire ls)).1.1).
Proof.
  intros Hf Hm Hb Hbs Hin Hby Hl Hp.
  destruct (send_blocks_run bs rest ss f Hf Hm Hin) as (ss' & E & Hm' & Hi').
  exists ss'. split_and!; [done | done |]. rewrite Hm', Hbs, Hb.
  rewrite canon_crlf; [| by eapply Forall_impl; [exact Hl|]; intros l [_ ?] | done].
  destruct (mvdata_wire pr ls [] Hby) as (Eo & _); [constructor | | done |].
  - eapply Forall_impl; [exact Hl|]. by intros l [? _].
  - rewrite app_nil_r in Eo. by rewrite Eo.
Qed.

Lemma bdat_same_as_data_witness :
  let ss := set_mfp (Some []) (set_mvbstate (-1) (demo_session (crlf demo_lines ++ [81]))) in
  exists ss', @send_blocks (demo_env false router_answer) [take 14 (crlf demo_lines); drop 14 (crlf demo_lines)] ss
      = (inr tt, ss') /\ input ss' = [81] /\
    mfp ss' = Some (mv_out (mvdata_run false 0 (wire demo_lines)).1.1).
Proof.
  intros ss. apply (@bdat_same_as_data (demo_env false router_answer) 0 ss [] demo_lines
    [take 14 (crlf demo_lines); drop 14 (crlf demo_lines)] [81]).
  - done.
  - reflexivity.
  - reflexivity.
  - vm_compute. reflexivity.
  - vm_compute. reflexivity.
  - exact demo_lines_bytes.
  - repeat constructor; set_solver.
  - exact demo_lines_plain.
Defined.

(** ** Sessions that go wrong *)

(** The lines of a session as the client sends them. *)
Definition session_of (ls : list (list Z)) : SmtpState :=
  demo_session (concat ((fun l => l ++ [CR; LF]) <$> ls)).
Definition serve (ss : SmtpState) : (stop + unit) * SmtpState :=
  @smtpserver (demo_config false true) (demo_env false router_answer) demo_handlers true ss.

(** C12: DATA between MAIL and the first RCPT is refused with 503, and the
    spool file is removed, but the state still says that recipients are
    expected: the session invariant is broken.  The next RCPT then writes to
    the closed file: EHLO, MAIL, DATA, RCPT brings the server process down. *)
Theorem data_before_rcpt_breaks {cf : Config} {env : Env} buf cp ss b :
  state ss = Recipient -> mfp ss = Some b -> is_some (smtpfrom ss) = true -> strict_protocol < 1 ->
  (exists ss', smtp_data buf cp ss = (inr 0, ss') /\ state ss' = Recipient /\ mfp ss' = None /\
     ~ session_inv ss') /\
  (serve (session_of [$$"EHLO x"; $$"MAIL FROM:<me@client.org>"; $$"DATA"; $$"RCPT TO:<you@mx.org>"])).1
    = inl Segv.
Proof.
  intros Hst Hm Hf Hs. split; [|by vm_compute].
  assert (session_inv ss) as Hi by (intros _; by rewrite Hm).
  destruct (wpx_run _ _ _ (smtp_data_spec buf cp ss Hi)) as (rc & ss' & E & [[-> HR] | [(Hst' & _) _]]);
    [|by rewrite Hst in Hst'].
  exists ss'. split; [done|].
  assert (state ss' = Recipient /\ mfp ss' = None) as [Hst' Hm'].
  { destruct HR as [(? & _) | [(_ & evs & -> & _) | [(Hst' & _) | (Hst' & _)]]]; [lia | done | congruence | congruence]. }
  split_and!; [done..|]. intros H. destruct H as [H _]; [by rewrite Hst'|]. by rewrite Hm' in H.
Qed.

Lemma data_before_rcpt_breaks_witness :
  (exists ss', @smtp_data (demo_config false true) (demo_env false router_answer)
      (line_of ($$"DATA")) (line_of []) demo_transaction = (inr 0, ss') /\
    state ss' = Recipient /\ mfp ss' = None /\ ~ session_inv ss') /\
  (serve (session_of [$$"EHLO x"; $$"MAIL FROM:<me@client.org>"; $$"DATA"; $$"RCPT TO:<you@mx.org>"])).1
    = inl Segv.
Proof.
  apply (@data_before_rcpt_breaks (demo_config false true) (demo_env false router_answer)
    (line_of ($$"DATA")) (line_of []) demo_transaction ($$"from <me@client.org>" ++ [10])); reflexivity.
Defined.

(** A block without a spool file, which is not the first. *)
Lemma bdat_block_crashes {cf : Config} {env : Env} size last ss :
  state ss = BData -> mfp ss = None -> bdata_blocknum ss <> 1 ->
  wpx (bdat_block size last) (fun r _ => r = Segv) (fun _ _ => False) ss.
Proof.
  intros Hst Hm Hk. unfold bdat_block. apply wpx_bind, wpx_read, wpx_bind, wpx_read.
  rewrite Hm, andb_false_r. apply wpx_bind, wpx_ret, wpx_bind.
  eapply wpx_mono; [apply mvbdata_spec|done|]. cbv beta. intros filsiz s1 (Hst1 & _ & _ & Hm1).
  apply wpx_bind, wpx_update, wpx_bind, spool_id_then. intros taspid tell.
  apply wpx_bind, wpx_read. cbn [state set_messagesize]. rewrite Hst1, Hst. apply wpx_bind, wpx_ret, wpx_bind.
  rewrite (proj2 (Z.eqb_neq _ _) Hk). apply wpx_ret, wpx_bind, wpx_read.
  cbn [mfp set_messagesize]. rewrite Hm1, Hm. by apply wpx_bind, wpx_exit.
Qed.

(** BDAT behind a block that has failed: when the transaction of blocks
    has lost its spool file, every further BDAT command, whatever its size,
    uses the null pointer (in front of the test that should report it), for
    instance after DATA came between two blocks. *)
Theorem bdat_after_failure_crashes {cf : Config} {env : Env} buf cp ss size last :
  state ss = BData -> mfp ss = None -> bdata_blocknum ss <> 0 ->
  bdat_args (str cp) = Some (size, last) ->
  (smtp_bdata buf cp ss).1 = inl Segv /\
  (serve (session_of [$$"EHLO x"; $$"MAIL FROM:<me@client.org>"; $$"RCPT TO:<you@mx.org>";
                      $$"BDAT 0"; $$"DATA"; $$"BDAT 0 LAST"])).1 = inl Segv.
Proof.
  intros Hst Hm Hk Ha. split; [|by vm_compute].
  assert (wpx (bdat_body cp) (fun r _ => r = Segv) (fun _ _ => False) ss) as H.
  { unfold bdat_body. rewrite Ha. pose proof (after_start ss) as H.
    af_speak H idtac. apply wpx_bind, wpx_read. af_speak H idtac. af_speak H idtac.
    apply wpx_bind, wpx_read. rewrite (after_read state _ _ _ _ _ H) by done. cbn [id]. rewrite Hst.
    apply wpx_bind, wpx_ret, wpx_bind, wpx_update. destruct H as (evs & -> & _).
    apply bdat_block_crashes; [done | done |]. cbn. lia. }
  unfold smtp_bdata, catch. unfold wpx in H. by destruct (bdat_body cp ss) as [[[]|] ?].
Qed.

Lemma bdat_after_failure_crashes_witness :
  (@smtp_bdata (demo_config false true) (demo_env false router_answer)
     (line_of ($$"BDAT 0")) (line_of ($$" 0"))
     (set_state BData (set_bdata_blocknum 1 (demo_session [])))).1 = inl Segv.
Proof.
  apply (@bdat_after_failure_crashes (demo_config false true) (demo_env false router_answer)
    (line_of ($$"BDAT 0")) (line_of ($$" 0")) (set_state BData (set_bdata_blocknum 1 (demo_session []))) 0 false);
    reflexivity || discriminate.
Defined.

(** Does the text [w] occur in [l]? *)
Fixpoint occurs (w l : list Z) : bool :=
  bool_decide (take (length w) l = w) || match l with [] => false | _ :: l => occurs w l end.

(** The files handed to the router in a session. *)
Definition handed_over (ss : SmtpState) : list (list Z) :=
  omap (fun e => if e is EvMailClose f then Some f else None) (trace ss).

(** A BDAT command with bad arguments, though refused with 501, counts
    as the first block of the message.  The next block is then accepted
    without the checks of the first one and without the mark that ends the
    envelope: what the client sends as the message becomes part of the
    envelope, where it can add recipients that no policy has seen. *)
Theorem bdat_error_opens_envelope :
  let r := serve (session_of [$$"EHLO x"; $$"MAIL FROM:<me@client.org>"; $$"RCPT TO:<you@mx.org>";
                              $$"BDAT ?"; $$"BDAT 17 LAST"; $$"to <spam@x.org>"]) in
  r.1 = inr tt /\
  exists f, handed_over r.2 = [f ++ $$"to <you@mx.org>" ++ [LF] ++ $$"to <spam@x.org>" ++ [LF]] /\
    occurs ($$"env-end") f = false.
Proof.
  intros r. split; [by vm_compute|]. set (f := hd [] (handed_over r.2)).
  exists (take (length f - 32) f). split; vm_compute; reflexivity.
Qed.

(** The 354 reply asks for CR LF . CR LF, but a line of a single dot
    between bare LFs ends the message too: the rest of what the client, or a
    relay that does not look at bare LFs, sends as the message is executed
    as commands. *)
Theorem bare_lf_ends_message ferror pr l rest :
  Forall byte (l ++ rest) -> LF ∉ l -> CR ∉ l -> l <> [DOT] ->
  let m := (mvdata_run ferror pr (l ++ [LF; DOT; LF] ++ rest)).1.1 in
  mv_eof m = false /\ mv_rest m = rest.
Proof.
  intros Hb Hlf Hcr Hd m. apply Forall_app in Hb as [Hl Hr].
  assert (strip_cr l = l) as Hs.
  { apply strip_cr_id. intros H. apply last_Some in H as [l' ->]. set_solver. }
  assert (dotted (l ++ LF :: [DOT] ++ LF :: rest) [unstuff (strip_cr l)] rest) as H.
  { constructor; [done | congruence |]. apply dotted_end; [set_solver | done]. }
  pose proof (mvdata_reads ferror pr (l ++ [LF; DOT; LF] ++ rest)) as E. cbv zeta in E. fold m in E.
  rewrite (dotted_run _ [unstuff (strip_cr l)] rest) in E; [| |exact H].
  - destruct E as (? & ? & _). done.
  - rewrite !Forall_app. split_and!; [done | by repeat constructor | done].
Qed.

Lemma bare_lf_ends_message_witness :
  mv_rest (mvdata_run false 0 ($$"text" ++ [LF; DOT; LF] ++ $$"QUIT")).1.1 = $$"QUIT".
Proof.
  apply (bare_lf_ends_message false 0 ($$"text") ($$"QUIT")); [by repeat constructor | set_solver.. | done].
Defined.

(** A header line that is longer than the line buffer. *)
Definition long_header (n : nat) : list Z := $$"X: " ++ replicate n $"x".

(** The line end of a header line that fills the line buffer is lost: the
    next line, which may be the blank one in front of the body, is appended
    to it.  The text of a message of one such header line and the body
    [body] then has no blank line. *)
Theorem long_header_merges :
  let m := (mvdata_run false 0 (wire [long_header 4000; []; $$"body"])).1.1 in
  mv_out m = long_header 3996 ++ [LF] ++ $$"body" ++ [LF].
Proof. by vm_compute. Qed.
