(* ===== verification/SmtpAuthProps.v ===== *)
(** * Authentication

    That a submission server hands over messages only behind a password
    check that succeeded; that AUTH LOGIN checks exactly the user name and
    the password the client has sent; and what happens when the password
    program cannot be started. *)

From Stdlib Require Import ZArith Lia.
From stdpp Require Import base tactics numbers list option relations.
From S2P Require Import Prelude StrMatch Rfc821 Base64 SmtpState SmtpCmds SmtpLine SmtpData SmtpAuth SmtpServer SmtpWalk SmtpSpec SmtpSession SmtpDemo SmtpInput.

#[local] Open Scope Z_scope.

(** ** Messages behind a password check *)

(** Somebody has logged in before the events of [tr]. *)
Definition vouched (tr : list event) : Prop := exists u p, EvPassword u p true ∈ tr.

Definition secure (ss : SmtpState) : Prop :=
  (is_some (authuser ss) = true -> vouched (trace ss)) /\
  (forall t1 f t2, trace ss = t1 ++ EvMailClose f :: t2 -> vouched t2).

Lemma vouched_app new tr : vouched tr -> vouched (new ++ tr).
Proof. intros (u & p & H). exists u, p. set_solver. Qed.

(** Where an event of a longer trace is. *)
Lemma event_in_app (new old t1 t2 : list event) e :
  new ++ old = t1 ++ e :: t2 ->
  (e ∈ new /\ exists l, t2 = l ++ old) \/ exists l, old = l ++ e :: t2.
Proof.
  intros H. apply app_eq_app in H as [l [[H1 H2] | [H1 H2]]].
  - destruct l as [|x l]; cbn in *; simplify_eq.
    + right. by exists [].
    + left. split; [set_solver | by exists l].
  - right. by exists l.
Qed.

(** New events with no hand-over, or behind a check. *)
Lemma secure_extends (P : event -> Prop) ss ss' :
  secure ss -> extends P (trace ss) (trace ss') ->
  ((forall f, ~ P (EvMailClose f)) \/ vouched (trace ss)) ->
  (is_some (authuser ss') = true -> is_some (authuser ss) = true \/ vouched (trace ss')) ->
  secure ss'.
Proof.
  intros [Ha Hc] (new & Ht & HP) Hm Hu. unfold secure. rewrite Ht in Hu |- *. split.
  - intros [H|H]%Hu; [|done]. by apply vouched_app, Ha.
  - intros t1 f t2 [[Hin (l & ->)] | (l & Hl)]%event_in_app; [|by eapply Hc].
    destruct Hm as [Hm | Hm]; [|by apply vouched_app].
    exfalso. apply (Hm f). by eapply (proj1 (Forall_forall _ _)) in Hin.
Qed.

Lemma chats_secure ss ss' : chats ss ss' -> secure ss -> secure ss'.
Proof.
  intros (_ & Ha & He) Hs. eapply secure_extends; [done..| left; by intros f [] | rewrite Ha; by left].
Qed.

Lemma logs_in_secure ss ss' : logs_in ss ss' -> secure ss -> secure ss'.
Proof.
  intros (_ & He & Ha) Hs. eapply secure_extends; [done..| left; by intros f [] |].
  destruct Ha as [-> | (u & p & _ & Hin)]; [by left | right; by exists u, p].
Qed.

Lemma talks_secure ss ss' : talks ss ss' -> is_some (authuser ss) = true -> secure ss -> secure ss'.
Proof.
  intros (_ & Ha & He) Hu Hs. eapply secure_extends; [done..| right; by apply Hs | rewrite Ha; by left].
Qed.

Section submission.
Context {cf : Config} {env : Env} {hd : Handlers} {QH : QuietHandlers}.
Hypothesis submission : msa_mode = true.
Hypothesis not_trusted : always_accept_or_trust = false.

(** A command that [c] selects, run when it is allowed. *)
Lemma dispatch_secure verb c buf cp insecure ss :
  secure ss -> is_some (authuser ss) = true \/ submission_open c = true ->
  secure (dispatch verb c buf cp insecure ss).2.
Proof.
  intros Hs Hok.
  destruct (match c with Auth | Data | BData => false | _ => true end) eqn:Hc.
  - assert (walks any_end chats (dispatch verb c buf cp insecure)) as Hw.
    { unfold dispatch. destruct c; try discriminate Hc; walk_steps. }
    by eapply chats_secure; [apply Hw|].
  - unfold dispatch, mbind, ex_bind, read. destruct c; try discriminate Hc.
    + destruct Hok as [Hu|]; [|done]. pose proof (talks_data buf cp ss) as [Hw _].
      assert (secure (smtp_data buf cp ss).2) by by eapply talks_secure.
      by destruct (smtp_data buf cp ss) as [[] ?].
    + destruct Hok as [Hu|]; [|done]. pose proof (talks_bdata buf cp ss) as [Hw _].
      assert (secure (smtp_bdata buf cp ss).2) by by eapply talks_secure.
      by destruct (smtp_bdata buf cp ss) as [[] ?].
    + pose proof (auth_logs_in buf cp ss) as [Hw _].
      assert (secure (smtp_auth buf cp ss).2) by by eapply logs_in_secure.
      unfold then_continue, mbind, ex_bind. by destruct (smtp_auth buf cp ss) as [[] ?].
Qed.

(** What the checks let through is open to everybody, or somebody has
    logged in. *)
Lemma allow_command_authentic c ss :
  chats ss (allow_command c ss).2 /\
  ((allow_command c ss).1 = inr true ->
   is_some (authuser (allow_command c ss).2) = true \/ submission_open c = true).
Proof.
  assert (walks any_end chats (allow_command c)) as Hw by walk_steps.
  split; [apply Hw|]. unfold allow_command. rewrite submission, not_trusted.
  repeat (case_match; [done|]). unfold mbind, ex_bind, read.
  destruct (is_some (authuser ss)) eqn:Eu, (submission_open c); cbn; rewrite ?Eu; by auto.
Qed.

Lemma run_command_secure buf insecure ss : secure ss -> secure (run_command buf insecure ss).2.
Proof.
  intros Hs. unfold run_command.
  assert (secure (unknown_command buf ss).2) as Hunk.
  { assert (walks any_end chats (unknown_command buf)) as Hw by walk_steps. by eapply chats_secure; [apply Hw|]. }
  destruct (command_of buf) as [[verb c]|]; [|done]. destruct (disabled c); [done|].
  destruct (allow_command_authentic c ss) as [Hch Hok]. unfold mbind, ex_bind.
  destruct (allow_command c ss) as [[r|[]] ss1]; cbn in *; try (by eapply chats_secure).
  apply dispatch_secure; [by eapply chats_secure | by apply Hok].
Qed.

(** Commands that keep a session secure *)
Definition guards (ss ss' : SmtpState) : Prop := secure ss -> secure ss'.

#[local] Instance guards_preorder : PreOrder guards.
Proof. split; unfold guards; [by intros ?|]. intros ? ? ? H1 H2 H. by apply H2, H1. Qed.

Lemma guards_chats {A} (m : cmd A) : walks any_end chats m -> walks any_end guards m.
Proof. apply walks_mono; [done|]. intros ss ss' H Hs. by eapply chats_secure. Qed.

Lemma guards_serve_line g insecure : walks any_end guards (serve_line g insecure).
Proof.
  unfold serve_line. apply walks_bind; [apply walks_read|]. intros me.
  destruct (_ || _); [apply walks_ret|].
  do 2 (apply walks_bind; [apply walks_read|]; intros ?).
  destruct (_ && _); [apply walks_ret|].
  destruct (_ && _); [apply guards_chats; walk_steps|]. cbv zeta.
  destruct (0 <=? _); [apply guards_chats; walk_steps|].
  destruct (_ || _); [apply guards_chats; walk_steps|].
  intros ss. split; [|done]. intros Hs. by apply run_command_secure.
Qed.

Lemma guards_session_loop insecure fuel : walks any_end guards (session_loop fuel insecure).
Proof.
  induction fuel as [|fuel IH]; cbn [session_loop]; [apply walks_ret|].
  apply walks_bind; [apply guards_chats, moves_get_line|]. intros g.
  apply walks_bind; [apply guards_serve_line|]. intros []; [apply IH | apply walks_ret..].
Qed.

Lemma guards_smtpserver insecure : walks any_end guards (smtpserver insecure).
Proof.
  unfold smtpserver. apply walks_bind; [apply walks_read|]. intros inp.
  apply walks_bind; [apply guards_session_loop|]. intros []; [|  |apply walks_ret];
    apply guards_chats; walk_steps.
Qed.

End submission.

(** ** AUTH LOGIN *)

(** Characters of a C string *)
Definition text8 (c : Z) : Prop := 0 < c < 256.

Lemma sextet_legal v : legal (sextet v) = true.
Proof.
  unfold sextet. rewrite land_63. pose proof (Z.mod_pos_bound v 64 ltac:(lia)) as H.
  pose proof (byte_cases (fun s => (64 <=? s) || legal (nth (Z.to_nat s) base64encode_array 0)) eq_refl
    (v mod 64) ltac:(lia)) as E.
  cbv beta in E. by replace (64 <=? v mod 64) with false in E by lia.
Qed.

Lemma b64text_legal bs : forallb legal (b64text bs) = true.
Proof.
  induction bs as [|a|a b|a b c bs IH] using three_ind; cbn [b64text].
  - done.
  - unfold b64group. cbn [length Nat.ltb Nat.leb Nat.eqb take forallb]. by rewrite !sextet_legal.
  - unfold b64group. cbn [length Nat.ltb Nat.leb Nat.eqb take forallb]. by rewrite !sextet_legal.
  - rewrite forallb_app, IH. unfold b64group. cbn [length Nat.ltb Nat.leb Nat.eqb take forallb].
    by rewrite !sextet_legal.
Qed.

(** No text is the lone star with which a client gives up. *)
Lemma b64text_not_star bs : b64text bs <> [$"*"].
Proof. by destruct bs as [|a [|b [|c bs]]]. Qed.

Section login.
Context {cf : Config} {env : Env}.

Lemma get_line_crlf w rest ss :
  forallb legal w = true -> Z.of_nat (length w) + 2 < SMTPLINESIZE ->
  input ss = w ++ [13; 10] ++ rest ->
  exists g st, get_line ss = (inr g, set_s_status st (set_input rest ss)) /\
    g_buf g = w ++ [0; 0; 0] /\ g_i g = Z.of_nat (length w) + 2.
Proof.
  intros Hw Hl Hin. destruct (s_gets_crlf w rest Hw Hl) as (Hb & _ & Hi & _ & _ & Hc & Hr).
  unfold get_line, mbind, ex_bind, read. rewrite Hin. cbn zeta. set (g := s_gets _ _) in *.
  unfold update. rewrite Hr, Hc. exists g.
  destruct (g_eof g); [exists true | exists (s_status ss)]; (split; [|done]).
  - done.
  - cbn. by destruct ss.
Qed.

Lemma b64text_long bs : Z.of_nat (length bs) <= Z.of_nat (length (b64text bs)).
Proof.
  rewrite b64text_length. cbv zeta. pose proof (Z.div_mod (Z.of_nat (length bs)) 3 ltac:(lia)).
  pose proof (Z.mod_pos_bound (Z.of_nat (length bs)) 3 ltac:(lia)). destruct (_ =? 0) eqn:E; zbool; lia.
Qed.

Lemma legal_not_nul w : forallb legal w = true -> forallb not_nul w = true.
Proof.
  intros Hw. apply forallb_forall. intros c Hc. eapply forallb_forall in Hw; [|exact Hc].
  unfold legal, illegal in Hw. zbool. unfold not_nul. lia.
Qed.

(** [abuf[sizeof(abuf)-1] = 0] changes nothing behind a proper line. *)
Lemma last_nul w : Z.of_nat (length w) + 2 < SMTPLINESIZE ->
  <[Z.to_nat (SMTPLINESIZE - 1) := 0]> (w ++ [0; 0; 0]) = w ++ [0; 0; 0].
Proof.
  unfold SMTPLINESIZE. intros Hl. set (k := Z.to_nat _). rewrite insert_app_r_alt by lia. f_equal.
  assert (2 <= k - length w)%nat as Hk by lia. clearbody k. revert Hk. generalize (k - length w)%nat as j.
  intros [|[|[|j]]] Hj; done || lia.
Qed.

Lemma decoded_text bs : Forall text8 bs -> Z.of_nat (length (b64text bs)) + 2 < SMTPLINESIZE ->
  decoded (decodebase64string (b64text bs ++ [0; 0; 0]) (Z.to_nat (Z.of_nat (length (b64text bs)) + 2)) SMTPLINESIZE).1 = bs.
Proof.
  intros Hb Hl. pose proof (b64text_long bs) as Hlen. unfold SMTPLINESIZE in *.
  replace (Z.to_nat _) with (length (b64text bs) + 2)%nat by lia. unfold decodebase64string.
  destruct (decode_loop_text 8192 2 [0; 0; 0] bs []) as (left & -> & _).
  - eapply Forall_impl; [exact Hb|]. unfold text8, byte8. lia.
  - repeat constructor; done.
  - cbn. lia.
  - cbn [fst app]. unfold decoded. rewrite take_ge by (unfold SMTPLINESIZE; lia).
    assert (forallb not_nul bs = true) as Hn.
    { apply forallb_forall. intros c Hc. apply list_elem_of_In in Hc. eapply Forall_forall in Hb; [|exact Hc].
      unfold text8 in Hb. unfold not_nul. lia. }
    rewrite <- (app_nil_r bs) at 1. unfold cstr, strlen. 
    clear -Hn. induction bs as [|c bs IH]; [done|]. cbn in *. zbool. rewrite H. cbn. f_equal. by apply IH.
Qed.

(** The answer to a prompt. *)
Lemma auth_answer_run prompt bs rest ss :
  Forall text8 bs -> Z.of_nat (length (b64text bs)) + 2 < SMTPLINESIZE ->
  input ss = b64text bs ++ [13; 10] ++ rest ->
  exists l st, auth_answer prompt ss =
    (inr bs, set_s_status st (set_input rest (set_trace (EvReply 334 l :: trace ss) ss))).
Proof.
  intros Hb Hl Hin. unfold auth_answer, auth_prompt, type, type_arg, emit. unfold update, mbind, ex_bind.
  set (ev := EvReply 334 _). destruct (get_line_crlf (b64text bs) rest (set_trace (ev :: trace ss) ss)
    (b64text_legal bs) Hl Hin) as (g & st & Eg & Hg & Hi).
  rewrite Eg. cbn [mret ex_ret]. rewrite Hg, Hi, last_nul by done.
  replace (Z.of_nat _ + 2 =? 0) with false by lia. cbn [when].
  rewrite bool_decide_false.
  - cbn [mret ex_ret]. rewrite decoded_text by done. by eexists _, st.
  - rewrite cstr_app by apply legal_not_nul, b64text_legal. apply b64text_not_star.
Qed.

(** The server is willing to authenticate the client. *)
Definition auth_open (ss : SmtpState) : Prop :=
  state ss = MailOrHello /\ authuser ss = None /\ auth_login_without_tls = true /\
  no_smtp_auth_on_25 && flag (with_protocol_set ss) WITH_SMTP = false /\
  0 <= ext_policytest (trace ss) POLICY_AUTHFAIL [] 0 None.

Lemma auth_checks_pass ss : auth_open ss ->
  auth_checks ss = (inr tt, set_trace (EvPolicy POLICY_AUTHFAIL [] 0 None :: trace ss) ss).
Proof.
  intros (Hst & Hu & _ & Hp & Hr). unfold auth_checks, policytest, emit, update, mbind, ex_bind, read.
  rewrite Hp. cbn [when mret ex_ret]. rewrite Hu. apply Z.ltb_ge in Hr. rewrite Hr. cbn. by rewrite Hst.
Qed.

(** The events of an exchange with one password check. *)
Definition checked (user password : list Z) (ok : bool) (tr tr' : list event) : Prop :=
  exists evs evs', tr' = evs ++ EvPassword user password ok :: evs' ++ tr /\
    Forall quiet evs /\ Forall quiet evs'.

End login.

(** A session of lines, and what a server makes of it. *)
Definition lines_session (ls : list (list Z)) : SmtpState :=
  demo_session (concat ((fun l => l ++ [13; 10]) <$> ls)).

Definition login_lines : list (list Z) :=
  [$$"AUTH LOGIN"; b64text ($$"user"); b64text ($$"secret")].
Definition message_lines : list (list Z) :=
  [$$"MAIL FROM:<me@client.org>"; $$"RCPT TO:<you@mx.org>"; $$"DATA"; $$"Subject: x"; []; $$"hi"; $$"."; $$"QUIT"].

Definition submission_run : SmtpState :=
  (@smtpserver (demo_config_for true false false) (demo_env false router_answer) demo_handlers true
    (lines_session ([$$"EHLO x"] ++ login_lines ++ message_lines))).2.

(** The file in the event at [n]. *)
Definition closed_at (n : nat) (ss : SmtpState) : list Z :=
  if nth n (trace ss) EvTarpit is EvMailClose f then f else [].


Definition auth_session : SmtpState :=
  set_state MailOrHello (demo_session (b64text ($$"user") ++ [13; 10] ++ b64text ($$"secret") ++ [13; 10] ++ $$"QUIT")).


(** ** Two ways around the checks *)

(** When the password program cannot be started, pipezpwmatch() reports
    the exit status of the last program that ran, which is 0 at first: any
    password is accepted for any user, as long as no check has failed in
    this process before.  A submission session without a valid password can
    so hand over a message. *)
Theorem auth_fork_failure_accepts {cf : Config} {env : Env} uname password ss :
  smtpauth_via_pipe = true -> ext_pwchild (trace ss) uname password = None -> pipeauthchild_status ss = 0 ->
  (exists ss', pwmatch uname password ss = (inr None, ss')) /\
  length (closed_at 9 (@smtpserver (demo_config_full false true 0 true false false)
    (demo_env_full None false router_answer) demo_handlers true
    (lines_session ([$$"EHLO x"] ++ login_lines ++ message_lines))).2) <> O.
Proof.
  intros Hp Hc Hs. split.
  - unfold pwmatch, pipezpwmatch, mbind, ex_bind, read. rewrite Hp, Hc. cbn [mret ex_ret]. rewrite Hs.
    by eexists.
  - vm_compute. discriminate.
Qed.

Lemma auth_fork_failure_accepts_witness :
  exists ss', @pwmatch (demo_config_full false true 0 true false false) (demo_env_full None false router_answer)
    ($$"root") ($$"guess") auth_session = (inr None, ss').
Proof.
  apply (@auth_fork_failure_accepts (demo_config_full false true 0 true false false)
    (demo_env_full None false router_answer) ($$"root") ($$"guess") auth_session); reflexivity.
Defined.

(** The option that turns AUTH off on port 25 is lifted by HELO, which
    overwrites the set of protocols with its own bit: behind EHLO the
    exchange is refused, behind HELO the client is authenticated. *)
Theorem auth_on_25_after_helo :
  let run greeting := (@smtpserver (demo_config_full true false 0 false false false)
    (demo_env false router_answer) demo_handlers true
    (lines_session ([greeting] ++ login_lines ++ [$$"QUIT"]))).2 in
  authuser (run ($$"EHLO x")) = None /\ authuser (run ($$"HELO x")) = Some ($$"user").
Proof. split; vm_compute; reflexivity. Qed.
