(* ===== verification/SmtpPolicy.v ===== *)
(** * The SMTP server with its policy database

    The command handlers call policytest() through the class [Env], which
    gives an answer for every trace of the session.  Here the answers are
    those of the model of policytest.c: the tests of the session so far are
    run again, from the state that the test of the client's address left.  A
    run that crashes counts as a refusal. *)

From Stdlib Require Import ZArith Lia.
From stdpp Require Import base tactics numbers list option relations.
From S2P Require Import Prelude StrMatch Rfc821 Policy PolicyFrame PolicyRelay PolicyProps.
From S2P Require Import SmtpState SmtpCmds SmtpSpec SmtpRcpt SmtpWalk SmtpServer SmtpDemo.

#[local] Open Scope Z_scope.

(** ** Policy answers for a trace *)

Definition what_of (t : policy_test) : PolicyWhat :=
  match t with
  | POLICY_HELONAME => Policy.POLICY_HELONAME
  | POLICY_MAILFROM => Policy.POLICY_MAILFROM
  | POLICY_RCPTTO => Policy.POLICY_RCPTTO
  | POLICY_RCPTPOSTMASTER => Policy.POLICY_RCPTPOSTMASTER
  | POLICY_DATAABORT => Policy.POLICY_DATAABORT
  | POLICY_DATAOK => Policy.POLICY_DATAOK
  | POLICY_AUTHFAIL => Policy.POLICY_AUTHFAIL
  end.

Section composition.
Context {PE : PolicyEnv}.

Definition one_test (t : policy_test) (arg : list Z) (len : Z) (user : option (list Z)) (ps : policystate) :
    option (Z * policystate) :=
  match Policy.policytest (what_of t) arg len user ps with
  | (inr rc, ps') => Some (rc, ps')
  | (inl _, _) => None
  end.

(** The newest event of a trace is its first. *)
Fixpoint replay (ps : policystate) (tr : list event) : option policystate :=
  match tr with
  | [] => Some ps
  | EvPolicy t arg len user :: tr => ps ← replay ps tr; snd <$> one_test t arg len user ps
  | _ :: tr => replay ps tr
  end.

Definition policy_answer (ps0 : policystate) (tr : list event) (t : policy_test) (arg : list Z) (len : Z)
    (user : option (list Z)) : Z :=
  default (-1) (ps ← replay ps0 tr; fst <$> one_test t arg len user ps).

(** [base] with the answers of the database. *)
Definition with_policy (ps0 : policystate) (base : Env) : Env := {|
  ext_policytest := policy_answer ps0;
  ext_policymsg tr := replay ps0 tr ≫= message;
  ext_policyinsizelimit tr := default (-1) (maxinsize <$> replay ps0 tr);
  ext_addr_match := ext_addr_match;
  ext_zpwmatch := ext_zpwmatch;
  ext_pwchild := ext_pwchild;
  ext_mail_open := ext_mail_open;
  ext_ferror := ext_ferror;
  ext_statfs := ext_statfs;
  ext_time := ext_time;
  ext_router_init := ext_router_init;
  ext_router_write_error := ext_router_write_error;
  ext_router_lines := ext_router_lines;
  ext_hasinput := ext_hasinput;
  ext_bail_out := ext_bail_out;
  ext_contentpolicy := ext_contentpolicy;
  ext_fstat := ext_fstat;
  ext_mail_close := ext_mail_close;
  ext_mail_close_alternate := ext_mail_close_alternate
|}.

(** Nobody has logged in. *)
Definition no_user (e : event) : bool := if e is EvPolicy _ _ _ (Some _) then false else true.

Lemma replay_trust ps0 tr ps : Forall no_user tr -> replay ps0 tr = Some ps -> trust ps = trust ps0.
Proof.
  revert ps. induction tr as [|e tr IH]; intros ps Hu; [by intros [= ->]|].
  apply Forall_cons in Hu as [He Hu]. destruct e; cbn [replay]; try (by apply IH).
  destruct user; [done|]. destruct (replay ps0 tr) as [ps1|] eqn:E1; [|done]. cbn. unfold one_test.
  intros H. rewrite <- (IH ps1) by done.
  assert (what_of t <> POLICY_SOURCEDOMAIN) as Hw by by destruct t.
  destruct (policytest_trust (what_of t) arg len Hw ps1) as [Ht _].
  destruct (Policy.policytest _ _ _ _ ps1) as [[|] ps2]; [done|]. cbn in H, Ht. by injection H as <-.
Qed.
End composition.

(** ** What RCPT asks *)

Section asks.
Context {cf : Config} {env : Env}.

Definition to_postmaster (cp : ptr) : Prop := CISTREQN (mem cp) ($$"postmaster") = true.

(** The database was asked about the recipient, and agreed. *)
Definition cleared (cp : ptr) (n : Z) (user : option (list Z)) (tr tr' : list event) : Prop :=
  exists new old, let a := take (Z.to_nat n) (mem cp) in
    tr' = new ++ EvPolicy POLICY_RCPTTO a n user :: old /\ extends quiet tr old /\
    (to_postmaster cp \/ 0 <= ext_policytest old POLICY_RCPTTO a n user).

Definition refusing (r : stop) : Prop := if r is Return rc then rc = -1 else True.
#[local] Hint Extern 0 (refusing _) => reflexivity : zm.

Lemma walks_wpx {A} E R (m : cmd A) ss : walks E R m -> wpx m (fun r ss' => E r /\ R ss ss') (fun _ ss' => R ss ss') ss.
Proof. intros H. destruct (H ss) as [HR HE]. unfold wpx. destruct (m ss) as [[r|a] ss']; [|done]. split; [by apply HE | done]. Qed.

Lemma refusing_find_path sloppy cp : walks refusing chats (rcpt_find_path sloppy cp).
Proof. walk_steps. Qed.
Lemma refusing_path strict sloppy buf cp : walks refusing chats (rcpt_path strict sloppy buf cp).
Proof. walk_steps. Qed.
Lemma refusing_state_check : walks refusing chats rcpt_state_check.
Proof. walk_steps. Qed.
Lemma refusing_options_loop fuel strict sloppy buf : forall o s,
  walks refusing chats (rcpt_options_loop fuel strict sloppy buf o s).
Proof.
  induction fuel as [|fuel IH]; intros o s; cbn [rcpt_options_loop]; walk_step; try apply walks_ret.
  apply walks_bind; [|intros []; apply IH]. walk_steps.
Qed.
#[local] Hint Resolve refusing_options_loop : zm.
Lemma refusing_options strict sloppy buf s : walks refusing chats (rcpt_options strict sloppy buf s).
Proof. walk_steps. Qed.
Lemma refusing_router_loop rs : forall st, walks refusing chats (router_loop rs st).
Proof. induction rs as [|r rs IH]; intros st; cbn [router_loop]; cbv zeta; walk_steps; apply IH. Qed.
#[local] Hint Resolve refusing_router_loop : zm.
Lemma refusing_ask_router verb wanted cp n : walks refusing chats (ask_router verb wanted cp n).
Proof. walk_steps. Qed.

(** A piece that comes first. *)
Lemma first_walks {A B} R (m : cmd A) (k : A -> cmd B) (E : stop -> SmtpState -> Prop) (Q : B -> SmtpState -> Prop) ss :
  walks refusing R m -> (forall r ss', refusing r -> E r ss') ->
  (forall a ss', R ss ss' -> wpx (k a) E Q ss') -> wpx (m ≫= k) E Q ss.
Proof.
  intros Hm HE Hk. apply wpx_bind. eapply wpx_mono; [by apply walks_wpx | |]; cbv beta.
  - intros r ss' [? _]. by apply HE.
  - intros a ss' H. by apply Hk.
Qed.

Lemma postmaster_only cp n pr ss :
  wpx (rcpt_postmaster cp n pr) (fun r _ => refusing r)
    (fun _ ss' => chats ss ss' /\ (policyresult ss' = policyresult ss \/ to_postmaster cp)) ss.
Proof.
  assert (walks refusing chats (rcpt_postmaster cp n pr)) as Hw by walk_steps.
  destruct (Hw ss) as [HR HE]. unfold wpx. destruct (rcpt_postmaster cp n pr ss) as [[r|u] ss'] eqn:Er; [by apply HE|].
  split; [done|]. unfold to_postmaster. destruct (CISTREQN (mem cp) _) eqn:Ec; [by right|]. left.
  unfold rcpt_postmaster in Er. rewrite Ec, andb_false_r in Er. by injection Er as _ <-.
Qed.

Lemma policy_clears cp n ss : netconnected_flg = true ->
  wpx (rcpt_policy cp n) (fun r _ => refusing r) (fun _ ss' => cleared cp n (authuser ss) (trace ss) (trace ss')) ss.
Proof.
  intros Hnet. unfold rcpt_policy. rewrite Hnet. unfold policytest, emit. wpx_steps. cbv beta.
  set (a := take _ _). set (ans := ext_policytest _ _ _ _ _). set (ss1 := set_policyresult _ _).
  eapply wpx_mono; [apply postmaster_only | done |]. cbv beta. intros _ ss2 [(_ & _ & new & Et & _) Hp].
  wpx_steps. destruct (policyresult ss2 <? 0) eqn:Hneg; cbn [when].
  - do 5 (eapply (first_walks chats); [walk_steps | done |]; intros ? ? _).
    eapply (first_walks chats); [unfold rcpt_policy_reject; walk_steps | done |]. intros ? ? _. done.
  - apply wpx_ret. exists new, (trace ss). split_and!; [exact Et | done |].
    apply Z.ltb_ge in Hneg. destruct Hp as [Hp | Hp]; [right; by rewrite Hp in Hneg | by left].
Qed.

Lemma cleared_grows cp n user tr tr1 tr2 : cleared cp n user tr tr1 -> extends quiet tr1 tr2 -> cleared cp n user tr tr2.
Proof. intros (new & old & -> & H) (new' & -> & _). exists (new' ++ new), old. by rewrite app_assoc. Qed.

Lemma cleared_before cp n user tr0 tr tr' : extends quiet tr0 tr -> cleared cp n user tr tr' -> cleared cp n user tr0 tr'.
Proof. intros H (new & old & ? & ? & ?). exists new, old. split_and!; [done | by etransitivity | done]. Qed.

(** *** The line in the spool file *)

Definition has_line (cp : ptr) (n : Z) (ss : SmtpState) : Prop :=
  exists w1 w2, mfp ss = Some (w1 ++ to_line n cp ++ w2).

Definition same_file (ss ss' : SmtpState) : Prop := mfp ss' = mfp ss.
#[local] Instance same_file_preorder : PreOrder same_file.
Proof. split; unfold same_file; [by intros ?|]. intros ? ? ? ? ?. congruence. Qed.

Lemma wpx_appends l (Q : unit -> SmtpState -> Prop) ss :
  (forall b, mfp ss = Some b -> Q tt (set_mfp (Some (b ++ l)) ss)) -> wpx (fputs l) (fun _ _ => True) Q ss.
Proof. intros H. unfold fputs. do 2 wpx_step. destruct (mfp ss) eqn:E; [|done]. wpx_steps. by apply H. Qed.

Lemma write_has_line o cp n ss : wpx (rcpt_write o cp n) (fun _ _ => True) (fun _ => has_line cp n) ss.
Proof.
  unfold rcpt_write. do 7 wpx_step. apply wpx_appends. intros b1 _. wpx_step. apply wpx_appends. intros b2 _.
  wpx_step. apply wpx_appends. intros b3 _. wpx_step.
  destruct (smtpfrom ss) as [f|]; [|done]. apply wpx_appends. intros b4 _.
  wpx_step. apply wpx_appends. intros b5 _. wpx_step. unfold fwrite. wpx_step; [done|]. apply wpx_appends. intros b6 E6.
  cbn in E6. injection E6 as <-. wpx_step. apply wpx_appends. intros b7 E7. cbn in E7. injection E7 as <-.
  do 2 wpx_step. unfold when. wpx_step.
  - apply wpx_appends. intros b8 E8. cbn in E8. injection E8 as <-. cbn.
    exists b5. eexists. cbn. unfold to_line. by rewrite <- !app_assoc.
  - wpx_step. exists b5, []. cbn. unfold to_line. by rewrite <- !app_assoc, app_nil_r.
Qed.

Lemma reply_same_file r note cp n ss :
  wpx (rcpt_reply r note cp n) (fun _ _ => True) (fun err ss' => err = 0 -> mfp ss' = mfp ss) ss.
Proof.
  unfold rcpt_reply. do 16 wpx_step. cbv zeta beta.
  set (ss1 := set_sizeoptsum _ _). change (mfp ss) with (mfp ss1). clearbody ss1.
  assert (forall m : cmd Z, walks any_end same_file m ->
    wpx m (fun _ _ => True) (fun err ss' => err = 0 -> mfp ss' = mfp ss1) ss1) as Hw.
  { intros m Hm. eapply wpx_mono; [by apply walks_wpx | done | cbv beta; done]. }
  repeat match goal with |- wpx (if ?b then _ else _) _ _ _ => destruct b eqn:? end;
    try solve [apply Hw; walk_steps].
  destruct r as [s|]; [|apply Hw; walk_steps]. destruct (from_box ss1 && _); [apply Hw; walk_steps|].
  destruct (400 <=? atoi s) eqn:E4; cbn [when].
  - apply wpx_bind. eapply wpx_mono; [apply (walks_wpx any_end chats); walk_steps | done |]. intros _ s2 _.
    apply wpx_bind. eapply wpx_mono; [apply (walks_wpx any_end chats); walk_steps | done |]. intros _ s3 _.
    apply Z.leb_le in E4. wpx_step. destruct (atoi s <? 400) eqn:E5; [apply Z.ltb_lt in E5; lia|]. lia.
  - apply Hw. walk_steps.
Qed.

(** A recipient that is accepted was cleared, and is in the spool file. *)
Lemma rcpt_clears buf cp ss : netconnected_flg = true ->
  wpx (smtp_rcpt buf cp) (fun _ _ => True)
    (fun rc ss' => rc = 0 -> exists cp n, cleared cp n (authuser ss) (trace ss) (trace ss') /\ has_line cp n ss') ss.
Proof.
  intros Hnet.
  set (C := fun ss' => exists cp n, cleared cp n (authuser ss) (trace ss) (trace ss') /\ has_line cp n ss').
  enough (wpx (rcpt_body buf cp) (fun r _ => r <> Return 0) (fun rc ss' => rc = 0 -> C ss') ss) as H.
  { unfold smtp_rcpt, catch, wpx in *. destruct (rcpt_body buf cp ss) as [[[]|] ss']; naive_solver. }
  assert (forall r (ss' : SmtpState), refusing r -> r <> Return 0) as HE.
  { intros [rc|] ss' H; [intros [= ->]; discriminate H | discriminate]. }
  unfold rcpt_body.
  eapply (first_walks chats); [walk_steps | done |]. intros [strict sloppy] s1 (_ & A1 & T1).
  eapply (first_walks chats); [apply refusing_state_check | done |]. intros _ s2 (_ & A2 & T2).
  eapply (first_walks chats); [apply refusing_find_path | done |]. intros cp3 s3 (_ & A3 & T3).
  eapply (first_walks chats); [apply refusing_path | done |]. intros [[[cp4 n4] e4] note] s4 (_ & A4 & T4).
  eapply (first_walks chats); [apply refusing_options | done |]. intros o s5 (_ & A5 & T5).
  destruct (rfc821to822quote cp4 n4) as [cp6 n6].
  assert (extends quiet (trace ss) (trace s5)) as T by (do 4 (etransitivity; [eassumption|]); done).
  apply wpx_bind. eapply wpx_mono; [by apply policy_clears | done |]. cbv beta. intros _ s6 Hc.
  apply (cleared_before _ _ _ (trace ss)) in Hc; [|done].
  replace (authuser s5) with (authuser ss) in Hc by congruence.
  eapply (first_walks chats); [walk_steps | done |]. intros info s7 (_ & _ & T7).
  eapply (first_walks chats); [apply refusing_ask_router | done |]. intros r s8 (_ & _ & T8).
  apply wpx_bind. eapply wpx_mono; [apply wpx_and; [apply write_has_line | apply (walks_wpx refusing chats); walk_steps] | |];
    cbv beta; [intros ? ? (_ & ? & _); eauto|]. intros _ s9 [H9 (_ & _ & T9)].
  apply wpx_bind. eapply wpx_mono; [apply wpx_and; [apply reply_same_file | apply (walks_wpx refusing chats); walk_steps] | |];
    cbv beta; [intros ? ? (_ & ? & _); eauto|]. intros err s10 [H10 (_ & _ & T10)].
  assert (err = 0 -> C s10) as HC.
  { intros Herr. exists cp6, n6. split.
    - do 3 (eapply cleared_grows in Hc; [|eassumption]). by eapply cleared_grows.
    - unfold has_line in *. by rewrite H10. }
  wpx_step. unfold when. destruct (err =? 0) eqn:Eerr; wpx_steps; done.
Qed.
End asks.

(** ** The server and the database *)

Section guarded_server.
Context {cf : Config} {PE : PolicyEnv} (base : Env) (ps0 : policystate).

(** A positive answer is the answer of a run. *)
Lemma answer_run tr a n user :
  0 <= policy_answer ps0 tr POLICY_RCPTTO a n user ->
  exists ps rc ps', replay ps0 tr = Some ps /\ 0 <= rc /\ Policy.policytest Policy.POLICY_RCPTTO a n user ps = (inr rc, ps').
Proof.
  unfold policy_answer. destruct (replay ps0 tr) as [ps|]; [|cbn; lia]. cbn. unfold one_test. cbn [what_of].
  destruct (Policy.policytest _ _ _ _ ps) as [[|rc] ps'] eqn:E; cbn; [lia|].
  intros H. exists ps, rc, ps'. by split_and!.
Qed.

Lemma plain_of_trust ps : trust ps = trust ps0 -> has_db ps0 = true -> plain_client ps0 ->
  has_db ps = true /\ plain_client ps.
Proof. unfold trust, plain_client. intros H Hd (? & ? & ? & ?). injection H as -> -> -> -> ->. done. Qed.

Lemma no_user_extends tr old : extends quiet tr old -> Forall no_user old -> Forall no_user tr.
Proof. intros (new & -> & _) [_ H]%Forall_app. done. Qed.

End guarded_server.

Definition l_rcpt_ours : ptr := line_of ($$"RCPT TO:<joe@sub.example.org>").

Definition demo_rcpt : (stop + Z) * SmtpState :=
  @smtp_rcpt (demo_config false true) (@with_policy demo stranger (demo_env false router_answer))
    l_rcpt_ours (l_rcpt_ours [+] 4) demo_transaction.
Definition demo_after : SmtpState := demo_rcpt.2.

Lemma demo_rcpt_accepted :
  @smtp_rcpt (demo_config false true) (@with_policy demo stranger (demo_env false router_answer))
    l_rcpt_ours (l_rcpt_ours [+] 4) demo_transaction = (inr 0, demo_after).
Proof. vm_compute. reflexivity. Qed.
Lemma stranger_plain : has_db stranger = true /\ plain_client stranger.
Proof. vm_compute. split_and!; reflexivity. Qed.
Lemma demo_no_user : Forall no_user (trace demo_after).
Proof. apply forallb_True. assert (forallb no_user (trace demo_after) = true) as -> by (vm_compute; reflexivity). done. Qed.

