(* ===== verification/TaFile.v ===== *)
(** * Control files of the transport agents: lines, fields and locks

    A control file is what the router writes for a message, one line for each
    sender and recipient.  Several transport agents have it open at a time;
    each marks the lines of the recipients it works on with its process id.
    This file has markoff() (transports/libta/markoff.c), lockaddr()
    (transports/libta/lockaddr.c), skip821address() (lib/), and the part of
    prctladdr() (router/rfc822.c) that writes a field. *)

From Stdlib Require Import ZArith Lia.
From stdpp Require Import base tactics numbers list option.
From S2P Require Import Prelude.

#[local] Open Scope Z_scope.

(** ** Tags and sizes (include/mail.h.in) *)

Definition _CFTAG_NORMAL : Z := $" ".
Definition _CFTAG_LOCK : Z := $"~".
Definition _CFTAG_OK : Z := $"+".
Definition _CFTAG_NOTOK : Z := $"-".
Definition _CFTAG_DEFER : Z := _CFTAG_NORMAL.
Definition _CFTAG_RCPTPIDSIZE : nat := 6.
Definition _CFTAG_RCPTDELAYSIZE : nat := 4.
Definition _CF_MSGHEADERS : Z := $"m".
Definition _CF_MIMESTRUCT : Z := $"M".

(** ** Fields *)

(** skip821address(): how many characters are skipped. *)
Fixpoint skip821address (quote : bool) (s : list Z) : nat :=
  match s with
  | [] => 0
  | c :: s1 =>
      if c =? 0 then 0
      else if c =? 92 then
        match s1 with
        | [] => 1
        | d :: s2 => if d =? 0 then 1 else S (S (skip821address quote s2))
        end
      else if quote && (c =? 34) then S (skip821address false s1)
      else if c =? 34 then S (skip821address true s1)
      else if negb quote && is_blank c then 0
      else S (skip821address quote s1)
  end.

(** The same scan in prctladdr(): whether it comes to the end of the string
    outside of quotes. *)
Fixpoint clean_field (quote : bool) (s : list Z) : bool :=
  match s with
  | [] => negb quote
  | c :: s1 =>
      if c =? 92 then match s1 with [] => negb quote | _ :: s2 => clean_field quote s2 end
      else if quote && (c =? 34) then clean_field false s1
      else if c =? 34 then clean_field true s1
      else if negb quote && is_blank c then false
      else clean_field quote s1
  end.

Definition escape (c : Z) : list Z := if (c =? 34) || (c =? 92) then [92; c] else [c].

(** What prctladdr() writes for a string. *)
Definition print_field (s : list Z) : list Z :=
  match s with
  | [] => $$"-"
  | _ => if clean_field false s then s else [34] ++ concat (escape <$> s) ++ [34]
  end.

(** ** Lines *)

(** Where the pointer of markoff() is: in a line, at the first character of
    one, or in the loop that looks for the end of a header block. *)
Inductive mark_mode := InLine | LineStart | InBlock.

Definition starts_block (c : Z) : bool := (c =? _CF_MSGHEADERS) || (c =? _CF_MIMESTRUCT).

(** The characters with the ends of lines overwritten, and the offsets of the
    lines; [None] when a header block runs off the file. *)
Fixpoint markoff_loop (mode : mark_mode) (off : nat) (l : list Z) : option (list Z * list nat) :=
  match l with
  | [] => Some ([], [])
  | c :: l =>
      match mode with
      | InLine =>
          '(o, offs) ← markoff_loop (if c =? 10 then LineStart else InLine) (S off) l;
          Some ((if c =? 10 then 0 else c) :: o, offs)
      | LineStart =>
          if starts_block c then
            match l with
            | [] => None
            | _ => '(o, offs) ← markoff_loop InBlock (S off) l; Some (c :: o, off :: offs)
            end
          else '(o, offs) ← markoff_loop InLine (S off) l; Some (c :: o, off :: offs)
      | InBlock =>
          match l with
          | [] => None
          | d :: _ =>
              '(o, offs) ← markoff_loop (if (c =? 10) && (d =? 10) then InLine else InBlock) (S off) l;
              Some (c :: o, offs)
          end
      end
  end.

(** markoff(): the contents and all offsets; [None] for -1. *)
Definition markoff (contents : list Z) : option (list Z * list nat) :=
  '(o, offs) ← markoff_loop InLine 0 contents; Some (o, O :: offs).

(** The room for offsets that ctlopen() gives to markoff(). *)
Definition offset_room (contents : list Z) : nat := length contents / 4.

(** ** The open file *)

(** The contents, the place of the next read or write, and the variable
    ta_lockmode of the process. *)
Record ctlfd := Ctlfd { f_bytes : list Z; f_pos : nat; ta_lockmode : option (list Z) }.

Definition set_bytes (b : list Z) (fd : ctlfd) : ctlfd := Ctlfd b (f_pos fd) (ta_lockmode fd).
Definition set_pos (p : nat) (fd : ctlfd) : ctlfd := Ctlfd (f_bytes fd) p (ta_lockmode fd).
Definition set_lockmode (m : list Z) (fd : ctlfd) : ctlfd := Ctlfd (f_bytes fd) (f_pos fd) (Some m).

(** What fstat() says of a message file. *)
Record msgstat := MsgStat { ms_regular : bool; ms_size : Z; ms_ino : Z; ms_mtime : Z; ms_nsec : Z }.

(** What surrounds a transport agent: its environment variables TALOCKMODE
    and TA_USE_MMAP, its process id, the clock, the variable
    ta_logs_diagnostics, how many bytes a write takes, and the message files
    that can be opened. *)
Class TaEnv := {
  talockmode : option (list Z);
  use_mmap : bool;
  ta_pid : Z;
  ta_now : Z;
  ta_logs_diagnostics : bool;
  write_takes : list Z -> nat;
  message_file : list Z -> option msgstat
}.

(** Bytes over the contents, with a hole of zeros behind the end. *)
Definition overlay (at_ : nat) (l b : list Z) : list Z :=
  take at_ b ++ replicate (at_ - length b) 0 ++ l ++ drop (at_ + length l) b.

Section lockaddr.
Context `{TaEnv}.

(** write(): whether everything was taken. *)
Definition fd_write (l : list Z) (fd : ctlfd) : bool * ctlfd :=
  let l' := take (write_takes l) l in
  (bool_decide (l' = l), Ctlfd (overlay (f_pos fd) l' (f_bytes fd)) (f_pos fd + length l') (ta_lockmode fd)).

Definition lock_mode (map_ : bool) (fd : ctlfd) : list Z * bool :=
  match ta_lockmode fd with
  | Some m => (m, false)
  | None =>
      let m := match talockmode with Some m => m | None => if use_mmap then $$"M" else $$"W" end in
      (m, (hd 0 m =? $"M") && map_)
  end.

Definition LOCKBUF : nat := 16.

(** The sixteen bytes; [None] for an error. *)
Definition lock_read (do_mmap : bool) (offset : nat) (fd : ctlfd) : option (list Z) * ctlfd :=
  let buf := take LOCKBUF (drop offset (f_bytes fd)) in
  if do_mmap then (Some (buf ++ replicate (LOCKBUF - length buf) 0), fd)
  else (if bool_decide (length buf = LOCKBUF) then Some buf else None, set_pos (offset + length buf) fd).

(** [%*d] *)
Definition pad_left (width : nat) (l : list Z) : list Z := replicate (width - length l) ($" ") ++ l.

(** The tag and the process id that are written. *)
Definition lock_text (was new : Z) (pid : list Z) : list Z :=
  new ::
  if new =? _CFTAG_LOCK then take _CFTAG_RCPTPIDSIZE (pad_left _CFTAG_RCPTPIDSIZE (dec ta_pid))
  else if new =? _CFTAG_DEFER then replicate _CFTAG_RCPTPIDSIZE ($" ")
  else if (was =? _CFTAG_NORMAL) && (new =? _CFTAG_OK) then pid
  else replicate _CFTAG_RCPTPIDSIZE ($" ").

Definition lock_write (do_mmap : bool) (offset : nat) (new : Z) (text : list Z) (fd : ctlfd) : bool * ctlfd :=
  let fd1 := if do_mmap then set_bytes (overlay offset text (f_bytes fd)) fd else fd in
  if negb do_mmap
     || (negb ((new =? _CFTAG_LOCK) || (new =? _CFTAG_DEFER)) && ((new =? _CFTAG_OK) || (new =? _CFTAG_NOTOK)))
  then fd_write text fd1
  else (true, fd1).

(** lockaddr(); [map_] says whether the file is mapped into memory. *)
Definition lockaddr (map_ : bool) (offset : nat) (was new : Z) (fd : ctlfd) : bool * ctlfd :=
  let '(mode, do_mmap) := lock_mode map_ fd in
  let '(buf, fd) := lock_read do_mmap offset (set_lockmode mode fd) in
  match buf with
  | None => (false, fd)
  | Some lockbuf =>
      let newlock := let c := nth 1 lockbuf 0 in (c =? $" ") || isdigit c in
      if nth 0 lockbuf 0 =? was then
        let fd := if map_ then fd else set_pos offset fd in
        if newlock then lock_write do_mmap offset new (lock_text was new (take _CFTAG_RCPTPIDSIZE (drop 1 lockbuf))) fd
        else (true, fd)
      else (false, fd)
  end.
End lockaddr.
