(* ===== verification/TaLock.v ===== *)
(** * What lockaddr() does to a control file *)

From Stdlib Require Import ZArith Lia.
From stdpp Require Import base tactics numbers list option sets relations.
From S2P Require Import Prelude TaFile.

#[local] Open Scope Z_scope.

(** ** Bytes over bytes *)

Lemma overlay_inside n l b : (n + length l <= length b)%nat -> overlay n l b = take n b ++ l ++ drop (n + length l) b.
Proof. intros H. unfold overlay. replace (n - length b)%nat with O by lia. done. Qed.

Lemma overlay_length n l b : (n + length l <= length b)%nat -> length (overlay n l b) = length b.
Proof. intros H. rewrite overlay_inside by done. rewrite !length_app, length_take, length_drop. lia. Qed.

Lemma overlay_twice n l1 l2 b : (n + length l1 <= length b)%nat -> length l2 = length l1 ->
  overlay n l2 (overlay n l1 b) = overlay n l2 b.
Proof.
  intros H Hl. rewrite (overlay_inside _ l2) by (rewrite overlay_length; lia).
  rewrite (overlay_inside _ l2 b), Hl by lia. rewrite overlay_inside by done.
  rewrite take_app_le by (rewrite length_take; lia). rewrite take_take, Nat.min_id. do 2 f_equal.
  rewrite drop_app_ge by (rewrite length_take; lia). rewrite drop_app_ge by (rewrite length_take; lia).
  rewrite length_take, drop_drop. f_equal. lia.
Qed.

(** The bytes of a region. *)
Definition region (n k : nat) (b : list Z) : list Z := take k (drop n b).

Lemma region_length n k b : (n + k <= length b)%nat -> length (region n k b) = k.
Proof. intros H. unfold region. rewrite length_take, length_drop. lia. Qed.

Lemma overlay_region n k b : (n + k <= length b)%nat -> overlay n (region n k b) b = b.
Proof.
  intros H. rewrite overlay_inside by (rewrite region_length; lia). rewrite region_length by done. unfold region.
  rewrite <- drop_drop, take_drop, take_drop. done.
Qed.

Lemma region_overlay n l b : (n + length l <= length b)%nat -> region n (length l) (overlay n l b) = l.
Proof.
  intros H. rewrite overlay_inside by done. unfold region.
  rewrite drop_app_ge by (rewrite length_take; lia). rewrite length_take, Nat.min_l, Nat.sub_diag by lia. cbn [drop].
  apply take_app_length.
Qed.

Lemma region_apart m k n l b : (n + length l <= length b)%nat -> (m + k <= n \/ n + length l <= m)%nat ->
  region m k (overlay n l b) = region m k b.
Proof.
  intros H Ha. rewrite overlay_inside by done. unfold region.
  destruct Ha as [Ha | Ha].
  - rewrite !take_drop_commute. f_equal. rewrite take_app_le by (rewrite length_take; lia).
    rewrite take_take. f_equal. lia.
  - f_equal. rewrite drop_app_ge by (rewrite length_take; lia). rewrite drop_app_ge by (rewrite length_take; lia).
    rewrite length_take, drop_drop. f_equal. lia.
Qed.

Lemma region_app n j k b : region n (j + k) b = region n j b ++ region (n + j) k b.
Proof. unfold region. rewrite <- take_take_drop. by rewrite drop_drop. Qed.

(** ** Process ids *)

Lemma digits_isdigit fuel : forall n acc, 0 <= n -> forallb isdigit acc = true -> forallb isdigit (digits fuel n acc) = true.
Proof.
  induction fuel as [|fuel IH]; intros n acc Hn Ha; cbn [digits]; [done|].
  assert (isdigit ($"0" + n mod 10) = true) as Hd.
  { pose proof (Z.mod_pos_bound n 10 ltac:(lia)). unfold isdigit. apply andb_true_intro. split; apply Z.leb_le; lia. }
  destruct (n <? 10); [cbn [forallb]; by rewrite Hd|]. apply IH; [apply Z.div_pos; lia|]. cbn [forallb]. by rewrite Hd.
Qed.

Definition pid_char (c : Z) : bool := (c =? $" ") || isdigit c.

Definition pid_text (pid : Z) : list Z := take _CFTAG_RCPTPIDSIZE (pad_left _CFTAG_RCPTPIDSIZE (dec pid)).

Lemma pid_text_length pid : length (pid_text pid) = _CFTAG_RCPTPIDSIZE.
Proof. unfold pid_text, pad_left. rewrite length_take, length_app, length_replicate. lia. Qed.

Lemma pid_text_chars pid : 0 <= pid -> forallb pid_char (pid_text pid) = true.
Proof.
  intros H. unfold pid_text. set (l := pad_left _ _). enough (forallb pid_char l = true) as Hl.
  { rewrite <- (take_drop _CFTAG_RCPTPIDSIZE l), forallb_app in Hl. by apply andb_prop in Hl as [Hl _]. }
  subst l. unfold pad_left. rewrite forallb_app. apply andb_true_intro. split.
  - apply forallb_forall. intros c [-> _]%list_elem_of_In%elem_of_replicate. done.
  - unfold dec. rewrite (proj2 (Z.ltb_ge _ _)) by lia. pose proof (digits_isdigit 64 pid [] H eq_refl) as Hd.
    rewrite forallb_forall in *. intros c Hc. unfold pid_char. by rewrite Hd, orb_true_r.
Qed.

Definition blanks6 : list Z := replicate _CFTAG_RCPTPIDSIZE ($" ").

Section locks.
Context `{TaEnv}.

(** Writes go through. *)
Definition disk_works : Prop := forall l, (length l <= write_takes l)%nat.

Lemma fd_write_works l fd : disk_works ->
  fd_write l fd = (true, Ctlfd (overlay (f_pos fd) l (f_bytes fd)) (f_pos fd + length l) (ta_lockmode fd)).
Proof. intros Hd. unfold fd_write. rewrite take_ge by apply Hd. by rewrite bool_decide_true. Qed.

(** A line with room for a tag and a process id. *)
Definition tag_slot (b : list Z) (offset : nat) : Prop :=
  (offset + LOCKBUF <= length b)%nat /\ pid_char (nth (S offset) b 0) = true.

Lemma lock_text_length was new pid : length pid = _CFTAG_RCPTPIDSIZE -> length (lock_text was new pid) = S _CFTAG_RCPTPIDSIZE.
Proof. intros Hp. unfold lock_text. cbn [length]. f_equal. repeat case_match; [apply pid_text_length | done | done | done]. Qed.

Lemma nth_region i n k b : (i < k)%nat -> nth i (region n k b) 0 = nth (n + i) b 0.
Proof. intros Hi. unfold region. rewrite !nth_lookup, lookup_take_lt, lookup_drop by done. done. Qed.

Lemma nth_region_0 n k b : (0 < k)%nat -> nth 0 (region n k b) 0 = nth n b 0.
Proof. intros Hk. rewrite nth_region by done. f_equal. lia. Qed.

(** lockaddr() on a file that is not mapped: the tag decides, and nothing but
    the tag and the process id is changed. *)
Lemma lockaddr_spec offset was new fd : disk_works -> tag_slot (f_bytes fd) offset ->
  exists pos mode, lockaddr false offset was new fd =
    (nth offset (f_bytes fd) 0 =? was,
     Ctlfd (if nth offset (f_bytes fd) 0 =? was
            then overlay offset (lock_text was new (region (S offset) _CFTAG_RCPTPIDSIZE (f_bytes fd))) (f_bytes fd)
            else f_bytes fd) pos (Some mode)).
Proof.
  intros Hd [Hlen Hc]. unfold lockaddr. destruct (lock_mode false fd) as [mode do_mmap] eqn:E.
  assert (do_mmap = false) as -> by (unfold lock_mode in E; destruct (ta_lockmode fd); [congruence|]; rewrite andb_false_r in E; congruence).
  unfold lock_read. cbn [f_bytes f_pos set_lockmode]. fold (region offset LOCKBUF (f_bytes fd)).
  rewrite region_length, bool_decide_true by done. cbn [set_pos f_bytes f_pos ta_lockmode].
  rewrite nth_region_0 by (unfold LOCKBUF; lia). destruct (_ =? was) eqn:Et; [|by eexists _, _].
  rewrite nth_region by (unfold LOCKBUF; lia). replace (offset + 1)%nat with (S offset) by lia.
  unfold pid_char in Hc. rewrite Hc. unfold lock_write. cbn [negb orb]. rewrite fd_write_works by done.
  cbn [set_pos f_bytes f_pos ta_lockmode]. eexists _, _. do 4 f_equal. unfold region.
  rewrite skipn_firstn_comm, take_take, drop_drop. f_equal; f_equal; unfold LOCKBUF, _CFTAG_RCPTPIDSIZE; lia.
Qed.
End locks.

(** ** Agents that share a control file *)

Definition ENTRY : nat := S _CFTAG_RCPTPIDSIZE.

(** An entry as it is while the process has the lock. *)
Definition locked_by (pid : Z) : list Z := _CFTAG_LOCK :: pid_text pid.

Section agents.
(** The agents' environments by process id, and the places of the tags. *)
Variables (env : Z -> TaEnv) (slots : list nat).
Hypothesis env_pid : forall p, @ta_pid (env p) = p.
Hypothesis env_disk : forall p, @disk_works (env p).
Hypothesis slots_apart : forall n m, n ∈ slots -> m ∈ slots -> n <> m -> (n + ENTRY <= m \/ m + ENTRY <= n)%nat.

(** The file, and who got which lock. *)
Definition shared : Type := list Z * list (Z * nat).

(** An agent calls lockaddr() to get a lock, or to give one back that it has. *)
Inductive agent_step : shared -> shared -> Prop :=
| agent_locks p n fd held ok fd' :
    0 <= p -> n ∈ slots ->
    @lockaddr (env p) false n _CFTAG_NORMAL _CFTAG_LOCK fd = (ok, fd') ->
    agent_step (f_bytes fd, held) (f_bytes fd', if ok then (p, n) :: held else held)
| agent_unlocks p n mark fd held ok fd' :
    (p, n) ∈ held -> mark ∈ [_CFTAG_DEFER; _CFTAG_OK; _CFTAG_NOTOK] ->
    @lockaddr (env p) false n _CFTAG_LOCK mark fd = (ok, fd') ->
    agent_step (f_bytes fd, held) (f_bytes fd', filter (fun h => h <> (p, n)) held).

Definition tag (b : list Z) (n : nat) : Z := nth n b 0.

(** The file differs only at the entries. *)
Definition same_elsewhere (b b' : list Z) : Prop :=
  length b' = length b /\ forall i k, (forall n, n ∈ slots -> (i + k <= n \/ n + ENTRY <= i)%nat) -> region i k b' = region i k b.

Record agents_inv (b0 : list Z) (st : shared) : Prop := {
  inv_slots : Forall (tag_slot st.1) slots;
  inv_nodup : NoDup (snd <$> st.2);
  inv_held : forall p n, (p, n) ∈ st.2 -> n ∈ slots /\ region n ENTRY st.1 = locked_by p;
  inv_tags : forall n, n ∈ slots -> tag st.1 n = _CFTAG_LOCK -> n ∈ (snd <$> st.2);
  inv_same : same_elsewhere b0 st.1
}.

Lemma slot_room b n : tag_slot b n -> (n + ENTRY <= length b)%nat.
Proof. intros [H _]. unfold LOCKBUF, ENTRY, _CFTAG_RCPTPIDSIZE in *. lia. Qed.

Lemma region_tag b n : tag b n = hd 0 (region n ENTRY b).
Proof.
  unfold tag, region. rewrite nth_lookup. rewrite <- (Nat.add_0_r n) at 1. rewrite <- lookup_drop.
  by destruct (drop n b).
Qed.

(** Writing an entry. *)
Lemma write_entry b n l m : Forall (tag_slot b) slots -> n ∈ slots -> m ∈ slots -> length l = ENTRY ->
  region m ENTRY (overlay n l b) = if decide (m = n) then l else region m ENTRY b.
Proof.
  intros Hs Hn Hm Hl. rewrite Forall_forall in Hs. pose proof (slot_room _ _ (Hs n Hn)) as Hr. rewrite <- Hl in Hr.
  destruct (decide (m = n)) as [->|Hne].
  - rewrite <- Hl. by apply region_overlay.
  - apply region_apart; [done|]. rewrite Hl. destruct (slots_apart n m Hn Hm); [congruence | lia | lia].
Qed.

Lemma write_slots b n c pid : Forall (tag_slot b) slots -> n ∈ slots -> length pid = _CFTAG_RCPTPIDSIZE ->
  forallb pid_char pid = true -> Forall (tag_slot (overlay n (c :: pid) b)) slots.
Proof.
  intros Hs Hn Hl Hp. rewrite Forall_forall in *. intros m Hm. pose proof (slot_room _ _ (Hs n Hn)) as Hr.
  assert (length (c :: pid) = ENTRY) as Hle by (cbn; by rewrite Hl). destruct (Hs m Hm) as [Hlen Hc].
  split; [rewrite overlay_length; [done | by rewrite Hle]|].
  replace (S m) with (m + 1)%nat by lia. rewrite <- (nth_region 1 m ENTRY) by (unfold ENTRY, _CFTAG_RCPTPIDSIZE; lia).
  rewrite write_entry by (by try apply Forall_forall). destruct (decide (m = n)).
  - destruct pid as [|d pid]; [done|]. cbn in Hp. by apply andb_prop in Hp as [Hd _].
  - rewrite nth_region by (unfold ENTRY, _CFTAG_RCPTPIDSIZE; lia). by replace (m + 1)%nat with (S m) by lia.
Qed.

Lemma write_elsewhere b0 b n l : same_elsewhere b0 b -> n ∈ slots -> tag_slot b n -> length l = ENTRY ->
  same_elsewhere b0 (overlay n l b).
Proof.
  intros [Hl H] Hn Hs Hle. pose proof (slot_room _ _ Hs) as Hr. rewrite <- Hle in Hr. split; [by rewrite overlay_length|].
  intros i k Hi. rewrite <- H by done. apply region_apart; [done|]. specialize (Hi n Hn). lia.
Qed.

(** The text that gives a lock back does not look like a lock. *)
Lemma unlock_text p mark pid : mark ∈ [_CFTAG_DEFER; _CFTAG_OK; _CFTAG_NOTOK] ->
  @lock_text (env p) _CFTAG_LOCK mark pid = mark :: blanks6 /\ mark <> _CFTAG_LOCK.
Proof. rewrite !elem_of_cons. intros [-> | [-> | [-> | []%elem_of_nil]]]; done. Qed.

Lemma held_unique (held : list (Z * nat)) p q n : NoDup (snd <$> held) -> (p, n) ∈ held -> (q, n) ∈ held -> q = p.
Proof.
  intros Hnd Hp Hq. induction held as [|[q' m'] held IH]; [by apply not_elem_of_nil in Hq|].
  cbn [fmap list_fmap snd] in Hnd. apply NoDup_cons in Hnd as [Hni Hnd].
  assert (forall r, (r, m') ∉ held) as Hni'.
  { intros r Hr. apply Hni. apply list_elem_of_fmap. by exists (r, m'). }
  apply elem_of_cons in Hq as [Hq | Hq]; apply elem_of_cons in Hp as [Hp | Hp]; simplify_eq; [done | by apply Hni' in Hp | by apply Hni' in Hq | by apply IH].
Qed.

Lemma nodup_filter (P : Z * nat -> Prop) `{!forall h, Decision (P h)} held : NoDup (snd <$> held) -> NoDup (snd <$> filter P held).
Proof.
  intros Hnd. induction held as [|h held IH]; [constructor|]. cbn [fmap list_fmap] in Hnd. apply NoDup_cons in Hnd as [Hni Hnd].
  rewrite filter_cons. destruct (decide _); [|by apply IH]. cbn [fmap list_fmap]. constructor; [|by apply IH].
  intros (h' & Eh & [_ Hin]%list_elem_of_filter)%list_elem_of_fmap. destruct Hni. rewrite Eh. apply list_elem_of_fmap. by exists h'.
Qed.

Lemma locked_inv b0 b held p n : agents_inv b0 (b, held) -> 0 <= p -> n ∈ slots -> tag b n = _CFTAG_NORMAL ->
  agents_inv b0 (overlay n (locked_by p) b, (p, n) :: held).
Proof.
  intros [Hs Hnd Hh Ht He] Hp Hn Et. cbn [fst snd] in *.
  assert (length (locked_by p) = ENTRY) as Hlt by (unfold locked_by; cbn [length]; by rewrite pid_text_length).
  assert (n ∉ (snd <$> held)) as Hfree.
  { intros ([q m] & -> & Hin)%list_elem_of_fmap. destruct (Hh q m Hin) as [_ Hr]. cbn [snd] in *.
    rewrite region_tag, Hr in Et. done. }
  constructor; cbn [fst snd].
  - apply write_slots; [done | done | apply pid_text_length | by apply pid_text_chars].
  - cbn [fmap list_fmap snd]. by constructor.
  - intros q m [[= -> ->] | Hin]%elem_of_cons.
    + split; [done|]. by rewrite write_entry, decide_True.
    + destruct (Hh q m Hin) as [Hms Hr]. split; [done|]. rewrite write_entry, decide_False; [done | | done | done | done | done].
      intros ->. apply Hfree. apply list_elem_of_fmap. by exists (q, n).
  - intros m Hm. rewrite region_tag, write_entry by done. cbn [fmap list_fmap snd]. rewrite elem_of_cons.
    destruct (decide (m = n)); [by left|]. rewrite <- region_tag. intros Hl. right. by apply Ht.
  - apply write_elsewhere; [done | done | rewrite Forall_forall in Hs; by apply Hs | done].
Qed.

Lemma unlocked_inv b0 b held p n mark : agents_inv b0 (b, held) -> (p, n) ∈ held -> mark <> _CFTAG_LOCK ->
  agents_inv b0 (overlay n (mark :: blanks6) b, filter (fun h => h <> (p, n)) held).
Proof.
  intros [Hs Hnd Hh Ht He] Hpn Hne. cbn [fst snd] in *. destruct (Hh p n Hpn) as [Hn Hr].
  assert (length (mark :: blanks6) = ENTRY) as Hlt by done.
  constructor; cbn [fst snd].
  - by apply write_slots.
  - by apply nodup_filter.
  - intros q m [Hqm Hin]%list_elem_of_filter. destruct (Hh q m Hin) as [Hms Hrm]. split; [done|].
    rewrite write_entry, decide_False; [done | | done | done | done | done]. intros ->. apply Hqm. f_equal. by eapply held_unique.
  - intros m Hms. rewrite region_tag, write_entry by done. destruct (decide (m = n)) as [->|Hmn]; [done|].
    rewrite <- region_tag. intros Hl. specialize (Ht m Hms Hl). apply list_elem_of_fmap in Ht as ([q m'] & -> & Hin).
    apply list_elem_of_fmap. exists (q, m'). split; [done|]. apply list_elem_of_filter. split; [|done].
    by intros [= _ ->].
  - apply write_elsewhere; [done | done | rewrite Forall_forall in Hs; by apply Hs | done].
Qed.

Lemma agent_step_inv b0 st st' : agents_inv b0 st -> agent_step st st' -> agents_inv b0 st'.
Proof.
  intros Hi Hst. destruct Hst as [p n fd held ok fd' Hp Hn E | p n mark fd held ok fd' Hpn Hm E].
  - assert (tag_slot (f_bytes fd) n) as Hs by (pose proof (inv_slots _ _ Hi) as Hs; rewrite Forall_forall in Hs; by apply Hs).
    destruct (@lockaddr_spec (env p) n _CFTAG_NORMAL _CFTAG_LOCK fd (env_disk p) Hs) as (pos & mode & E'). rewrite E' in E.
    injection E as <- <-. cbn [f_bytes]. destruct (_ =? _CFTAG_NORMAL) eqn:Et; [|done]. apply Z.eqb_eq in Et.
    pose proof (locked_inv b0 _ held p n Hi Hp Hn Et) as Hl. unfold lock_text. rewrite env_pid. exact Hl.
  - destruct (inv_held _ _ Hi p n Hpn) as [Hn Hr]. cbn [fst] in Hr.
    assert (tag_slot (f_bytes fd) n) as Hs by (pose proof (inv_slots _ _ Hi) as Hs; rewrite Forall_forall in Hs; by apply Hs).
    destruct (@lockaddr_spec (env p) n _CFTAG_LOCK mark fd (env_disk p) Hs) as (pos & mode & E'). rewrite E' in E.
    fold (tag (f_bytes fd) n) in E. rewrite region_tag, Hr in E. cbn [hd locked_by] in E. rewrite Z.eqb_refl in E.
    injection E as <- <-. cbn [f_bytes]. destruct (unlock_text p mark (region (S n) _CFTAG_RCPTPIDSIZE (f_bytes fd)) Hm) as [-> Hne].
    by apply unlocked_inv.
Qed.

Lemma agents_run b0 st st' : agents_inv b0 st -> rtc agent_step st st' -> agents_inv b0 st'.
Proof. intros Hi Hr. induction Hr as [|? ? ? Hstep _ IH]; [done|]. apply IH. by eapply agent_step_inv. Qed.

Lemma agents_start b0 : Forall (tag_slot b0) slots -> Forall (fun n => tag b0 n <> _CFTAG_LOCK) slots -> agents_inv b0 (b0, []).
Proof.
  intros Hs Ht. constructor; cbn [fst snd].
  - done.
  - constructor.
  - intros p n []%not_elem_of_nil.
  - intros n Hn Hl. rewrite Forall_forall in Ht. by destruct (Ht n Hn).
  - done.
Qed.
End agents.
