(* ===== verification/TaDiag.v ===== *)
(** * Diagnostics of the transport agents (transports/libta/diagnostic.c)

    diagnostic() tells the scheduler what became of a recipient, appends a
    line to the control file when the agent itself logs, and gives the lock of
    the recipient back. *)

From Stdlib Require Import ZArith Lia.
From stdpp Require Import base tactics numbers list option.
From S2P Require Import Prelude TaFile.

#[local] Open Scope Z_scope.

(** ** Data (include/ta.h) *)

(** The fields are offsets into the contents of the control file. *)
Record taddress := Taddress { a_channel : nat; a_host : nat; a_user : nat; a_misc : nat }.

(** A recipient; [r_sender] is the address its link points to, and a lock
    offset of 0 says that the lock was given back. *)
Record rcpt := Rcpt {
  r_addr : taddress;
  r_sender : taddress;
  r_id : nat;
  r_lockoffset : nat;
  r_delayslot : option nat;
  r_drptoffset : Z;
  r_headeroffset : Z;
  r_notify : option nat;
  r_notifyflgs : Z;
  r_deliverby : Z;
  r_deliverbyflgs : Z;
  r_orcpt : option nat;
  r_inrcpt : option nat;
  r_infrom : option nat;
  r_ezmlm : option nat;
  r_newmsgheader : option nat;
  r_status : Z
}.
Definition set_r_lockoffset (v : nat) (x : rcpt) : rcpt :=
  Rcpt (r_addr x) (r_sender x) (r_id x) v (r_delayslot x) (r_drptoffset x) (r_headeroffset x) (r_notify x) (r_notifyflgs x) (r_deliverby x) (r_deliverbyflgs x) (r_orcpt x) (r_inrcpt x) (r_infrom x) (r_ezmlm x) (r_newmsgheader x) (r_status x).
Definition set_r_drptoffset (v : Z) (x : rcpt) : rcpt :=
  Rcpt (r_addr x) (r_sender x) (r_id x) (r_lockoffset x) (r_delayslot x) v (r_headeroffset x) (r_notify x) (r_notifyflgs x) (r_deliverby x) (r_deliverbyflgs x) (r_orcpt x) (r_inrcpt x) (r_infrom x) (r_ezmlm x) (r_newmsgheader x) (r_status x).
Definition set_r_headeroffset (v : Z) (x : rcpt) : rcpt :=
  Rcpt (r_addr x) (r_sender x) (r_id x) (r_lockoffset x) (r_delayslot x) (r_drptoffset x) v (r_notify x) (r_notifyflgs x) (r_deliverby x) (r_deliverbyflgs x) (r_orcpt x) (r_inrcpt x) (r_infrom x) (r_ezmlm x) (r_newmsgheader x) (r_status x).
Definition set_r_notify (v : option nat) (x : rcpt) : rcpt :=
  Rcpt (r_addr x) (r_sender x) (r_id x) (r_lockoffset x) (r_delayslot x) (r_drptoffset x) (r_headeroffset x) v (r_notifyflgs x) (r_deliverby x) (r_deliverbyflgs x) (r_orcpt x) (r_inrcpt x) (r_infrom x) (r_ezmlm x) (r_newmsgheader x) (r_status x).
Definition set_r_notifyflgs (v : Z) (x : rcpt) : rcpt :=
  Rcpt (r_addr x) (r_sender x) (r_id x) (r_lockoffset x) (r_delayslot x) (r_drptoffset x) (r_headeroffset x) (r_notify x) v (r_deliverby x) (r_deliverbyflgs x) (r_orcpt x) (r_inrcpt x) (r_infrom x) (r_ezmlm x) (r_newmsgheader x) (r_status x).
Definition set_r_deliverby (v : Z) (x : rcpt) : rcpt :=
  Rcpt (r_addr x) (r_sender x) (r_id x) (r_lockoffset x) (r_delayslot x) (r_drptoffset x) (r_headeroffset x) (r_notify x) (r_notifyflgs x) v (r_deliverbyflgs x) (r_orcpt x) (r_inrcpt x) (r_infrom x) (r_ezmlm x) (r_newmsgheader x) (r_status x).
Definition set_r_deliverbyflgs (v : Z) (x : rcpt) : rcpt :=
  Rcpt (r_addr x) (r_sender x) (r_id x) (r_lockoffset x) (r_delayslot x) (r_drptoffset x) (r_headeroffset x) (r_notify x) (r_notifyflgs x) (r_deliverby x) v (r_orcpt x) (r_inrcpt x) (r_infrom x) (r_ezmlm x) (r_newmsgheader x) (r_status x).
Definition set_r_orcpt (v : option nat) (x : rcpt) : rcpt :=
  Rcpt (r_addr x) (r_sender x) (r_id x) (r_lockoffset x) (r_delayslot x) (r_drptoffset x) (r_headeroffset x) (r_notify x) (r_notifyflgs x) (r_deliverby x) (r_deliverbyflgs x) v (r_inrcpt x) (r_infrom x) (r_ezmlm x) (r_newmsgheader x) (r_status x).
Definition set_r_inrcpt (v : option nat) (x : rcpt) : rcpt :=
  Rcpt (r_addr x) (r_sender x) (r_id x) (r_lockoffset x) (r_delayslot x) (r_drptoffset x) (r_headeroffset x) (r_notify x) (r_notifyflgs x) (r_deliverby x) (r_deliverbyflgs x) (r_orcpt x) v (r_infrom x) (r_ezmlm x) (r_newmsgheader x) (r_status x).
Definition set_r_infrom (v : option nat) (x : rcpt) : rcpt :=
  Rcpt (r_addr x) (r_sender x) (r_id x) (r_lockoffset x) (r_delayslot x) (r_drptoffset x) (r_headeroffset x) (r_notify x) (r_notifyflgs x) (r_deliverby x) (r_deliverbyflgs x) (r_orcpt x) (r_inrcpt x) v (r_ezmlm x) (r_newmsgheader x) (r_status x).
Definition set_r_ezmlm (v : option nat) (x : rcpt) : rcpt :=
  Rcpt (r_addr x) (r_sender x) (r_id x) (r_lockoffset x) (r_delayslot x) (r_drptoffset x) (r_headeroffset x) (r_notify x) (r_notifyflgs x) (r_deliverby x) (r_deliverbyflgs x) (r_orcpt x) (r_inrcpt x) (r_infrom x) v (r_newmsgheader x) (r_status x).
Definition set_r_newmsgheader (v : option nat) (x : rcpt) : rcpt :=
  Rcpt (r_addr x) (r_sender x) (r_id x) (r_lockoffset x) (r_delayslot x) (r_drptoffset x) (r_headeroffset x) (r_notify x) (r_notifyflgs x) (r_deliverby x) (r_deliverbyflgs x) (r_orcpt x) (r_inrcpt x) (r_infrom x) (r_ezmlm x) v (r_status x).
Definition set_r_status (v : Z) (x : rcpt) : rcpt :=
  Rcpt (r_addr x) (r_sender x) (r_id x) (r_lockoffset x) (r_delayslot x) (r_drptoffset x) (r_headeroffset x) (r_notify x) (r_notifyflgs x) (r_deliverby x) (r_deliverbyflgs x) (r_orcpt x) (r_inrcpt x) (r_infrom x) (r_ezmlm x) (r_newmsgheader x) v.

Definition _DSN_NOTIFY_SUCCESS : Z := 1.
Definition _DSN_NOTIFY_FAILURE : Z := 2.
Definition _DSN_NOTIFY_DELAY : Z := 4.
Definition _DSN_NOTIFY_NEVER : Z := 8.
Definition _DSN_NOTIFY_TRACE : Z := 16.
Definition _DSN__DIAGDELAYMODE : Z := 2048.
Definition _DSN__TEMPFAIL_NO_UNLOCK : Z := 1024.

Definition flag_set (flgs bit : Z) : bool := negb (Z.land flgs bit =? 0).

(** <sysexits.h>, and EX_DEFERALL. *)
Definition EX_OK : Z := 0.
Definition EX_USAGE : Z := 64.
Definition EX_DATAERR : Z := 65.
Definition EX_NOUSER : Z := 67.
Definition EX_NOHOST : Z := 68.
Definition EX_UNAVAILABLE : Z := 69.
Definition EX_SOFTWARE : Z := 70.
Definition EX_OSERR : Z := 71.
Definition EX_CANTCREAT : Z := 73.
Definition EX_IOERR : Z := 74.
Definition EX_TEMPFAIL : Z := 75.
Definition EX_PROTOCOL : Z := 76.
Definition EX_NOPERM : Z := 77.
Definition EX_DEFERALL : Z := 100.

Definition one_of (codes : list Z) (rc : Z) : bool := existsb (Z.eqb rc) codes.
Definition temporary : list Z := [EX_TEMPFAIL; EX_IOERR; EX_OSERR; EX_CANTCREAT; EX_SOFTWARE].
Definition abnormal : list Z := [EX_NOPERM; EX_PROTOCOL; EX_USAGE].
Definition failures : list Z := [EX_NOUSER; EX_NOHOST; EX_UNAVAILABLE].

(** The variables of diagnostic.c. *)
Record notary := Notary {
  n_A1 : option (list Z);
  n_A2 : option (list Z);
  n_A3 : option (list Z);
  n_A4 : option (list Z);
  n_notarybuf : option (list Z);
  n_wtthost : option (list Z);
  n_wttip : option (list Z);
  n_wtttaid : option (list Z);
  n_wtttaidpid : Z
}.
Definition set_n_notarybuf (v : option (list Z)) (x : notary) : notary :=
  Notary (n_A1 x) (n_A2 x) (n_A3 x) (n_A4 x) v (n_wtthost x) (n_wttip x) (n_wtttaid x) (n_wtttaidpid x).
Definition set_n_wtthost (v : option (list Z)) (x : notary) : notary :=
  Notary (n_A1 x) (n_A2 x) (n_A3 x) (n_A4 x) (n_notarybuf x) v (n_wttip x) (n_wtttaid x) (n_wtttaidpid x).
Definition set_n_wttip (v : option (list Z)) (x : notary) : notary :=
  Notary (n_A1 x) (n_A2 x) (n_A3 x) (n_A4 x) (n_notarybuf x) (n_wtthost x) v (n_wtttaid x) (n_wtttaidpid x).

(** An agent: its open control file and whether it is mapped, the variables of
    diagnostic.c, the lines it has written to the scheduler, and whether an
    allocation has failed. *)
Record ta_state := TaState {
  t_fd : ctlfd;
  t_map : bool;
  t_notary : notary;
  t_out : list (list Z);
  t_zmalloc_failure : bool
}.
Definition set_t_fd (v : ctlfd) (x : ta_state) : ta_state :=
  TaState v (t_map x) (t_notary x) (t_out x) (t_zmalloc_failure x).
Definition set_t_notary (v : notary) (x : ta_state) : ta_state :=
  TaState (t_fd x) (t_map x) v (t_out x) (t_zmalloc_failure x).
Definition set_t_out (v : list (list Z)) (x : ta_state) : ta_state :=
  TaState (t_fd x) (t_map x) (t_notary x) v (t_zmalloc_failure x).
Definition set_t_zmalloc_failure (v : bool) (x : ta_state) : ta_state :=
  TaState (t_fd x) (t_map x) (t_notary x) (t_out x) v.

Inductive ta_end := ExitCode (rc : Z) | NullPointer.
Definition TA (A : Type) : Type := EX ta_state ta_end A.

Definition say (line : list Z) : TA unit := update (fun t => set_t_out (t_out t ++ [line]) t).

(** ** NOTARY reports *)

Definition MSGBUF : nat := 20.

(** notaryacct(); [inr] is what it writes into its static buffer. *)
Definition notaryacct (rc : Z) (okstr : list Z) : list Z + list Z :=
  if rc =? EX_OK then inl okstr
  else if one_of temporary rc then inl ($$"delayed")
  else if one_of failures rc then inl ($$"failed")
  else inr ($$"*SW-ERROR*not-act-rc=" ++ dec rc ++ $$"*").
Definition acct_text (r : list Z + list Z) : list Z := match r with inl s | inr s => s end.

Definition orelse (new old : option (list Z)) : option (list Z) := match new with Some _ => new | None => old end.
Definition txt (o : option (list Z)) : list Z := default [] o.

(** The size of the buffer that is allocated, and the text written into it. *)
Definition notary_room (n : notary) : Z :=
  5 + Z.of_nat (length (txt (n_A1 n)) + length (txt (n_A2 n)) + length (txt (n_A3 n)) + length (txt (n_A4 n))
                + length (txt (n_wtthost n)))
  + match n_wttip n with Some ip => Z.of_nat (length ip) + 5 | None => 0 end
  + match n_wtttaid n with Some id => Z.of_nat (length id) + 9 | None => 0 end.
Definition notary_text (n : notary) : list Z :=
  txt (n_A1 n) ++ [1] ++ txt (n_A2 n) ++ [1] ++ txt (n_A3 n) ++ [1] ++ txt (n_A4 n) ++ [1] ++ txt (n_wtthost n)
  ++ match n_wttip n with Some ip => $$" (" ++ ip ++ $$")" | None => [] end
  ++ match n_wtttaid n with Some id => [1] ++ id ++ $$"[" ++ dec (n_wtttaidpid n) ++ $$"]" | None => [] end.

Definition notaryreport (arg1 arg2 arg3 arg4 : option (list Z)) (n : notary) : notary :=
  let n := Notary (orelse arg1 (n_A1 n)) (orelse arg2 (n_A2 n)) (orelse arg3 (n_A3 n)) (orelse arg4 (n_A4 n))
             (n_notarybuf n) (n_wtthost n) (n_wttip n) (n_wtttaid n) (n_wtttaidpid n) in
  set_n_notarybuf (Some (notary_text n)) n.

Definition notaryflush (n : notary) : notary :=
  Notary None None None None (n_notarybuf n) (n_wtthost n) (n_wttip n) (n_wtttaid n) (n_wtttaidpid n).

Definition notary_setwtt (host : option (list Z)) : notary -> notary := set_n_wtthost host.
Definition notary_setwttip (ip : option (list Z)) : notary -> notary := set_n_wttip ip.
Definition notary_settaid (progname : option (list Z)) (pid : Z) (n : notary) : notary :=
  Notary (n_A1 n) (n_A2 n) (n_A3 n) (n_A4 n) (n_notarybuf n) (n_wtthost n) (n_wttip n) progname pid.

(** ** The message *)

Inductive fmt_arg := ArgS (s : list Z) | ArgD (d : Z).

Definition MESSAGE_SIZE : nat := 8192.
Definition ES : nat := MESSAGE_SIZE - 30.

(** The loop over the format; the callers give an argument for each place. *)
Fixpoint fmt_loop (fmt : list Z) (args : list fmt_arg) (out : list Z) : list Z :=
  match fmt with
  | [] => out
  | c :: fmt1 =>
      if (ES <=? length out)%nat then out
      else if negb (c =? $"%") then fmt_loop fmt1 args (out ++ [c])
      else
        match fmt1 with
        | [] => out
        | f :: fmt2 =>
            if f =? $"s" then
              match args with
              | ArgS s :: args => fmt_loop fmt2 args (out ++ take (ES - length out) s)
              | _ => out
              end
            else if f =? $"d" then
              if (ES - 10 <=? length out)%nat then fmt_loop fmt2 args out
              else
                match args with
                | ArgD d :: args => fmt_loop fmt2 args (out ++ dec d)
                | _ => out
                end
            else if f =? $"%" then fmt_loop fmt2 args (out ++ [f])
            else fmt_loop fmt2 args out
        end
  end.

Definition investigate : list Z := $$" (this is abnormal, investigate!)".

(** The message as it stands in its buffer, in front of the NUL. *)
Definition diag_message (rc : Z) (fmt : list Z) (args : list fmt_arg) : list Z :=
  let message := fmt_loop fmt args [] in
  if one_of abnormal rc then message ++ investigate else message.

Definition no_newlines (l : list Z) : list Z := (fun c => if c =? 10 then 13 else c) <$> l.

(** ** diagnostic() *)

Section diagnostic.
Context `{TaEnv}.

Definition ta_lockaddr (offset : nat) (was new : Z) : TA bool :=
  fun t => let '(ok, fd) := lockaddr (t_map t) offset was new (t_fd t) in (inr ok, set_t_fd fd t).

(** The status word, the tag, and whether the agent logs the report. *)
Definition diag_verdict (rc timeout : Z) (success : bool) : list Z * Z * bool :=
  let report_notary := negb ((rc =? EX_OK) && negb success) in
  if rc =? EX_OK then
    (if ta_logs_diagnostics then (if success then $$"ok2" else $$"ok3") else $$"ok", _CFTAG_OK,
     ta_logs_diagnostics && report_notary)
  else if one_of temporary rc then
    (if 0 <? timeout then $$"retryat +" ++ dec timeout else $$"deferred", _CFTAG_DEFER, false)
  else if rc =? EX_DEFERALL then ($$"deferall", _CFTAG_DEFER, false)
  else if one_of abnormal rc || one_of failures rc then
    (if ta_logs_diagnostics then $$"error2" else $$"error", _CFTAG_NOTOK, ta_logs_diagnostics)
  else ($$"error Unknown sysexits error code " ++ dec rc ++ $$"!", _CFTAG_NOTOK, false).

(** The line that is appended to the control file. *)
Definition diag_line (rp : rcpt) (notarybuf message : list Z) : list Z :=
  [$"d"; _CFTAG_NORMAL] ++ dec (Z.of_nat (r_id rp)) ++ $$":" ++ dec (r_headeroffset rp) ++ $$":" ++ dec (r_drptoffset rp)
  ++ $$"::" ++ dec ta_now ++ [9] ++ notarybuf ++ [9] ++ message ++ [10].

(** Appending; when not everything is taken, the file is cut off again and the
    process ends. *)
Definition append_line (l : list Z) : TA unit :=
  fd ← read t_fd;
  let '(ok, fd1) := fd_write l (set_pos (length (f_bytes fd)) fd) in
  if ok then update (set_t_fd fd1)
  else
    update (set_t_fd (set_bytes (f_bytes fd) fd1));;
    say ($$"#HELP! diagnostic writeout with bad results!: len=" ++ dec (Z.of_nat (length l)) ++ $$", rc="
         ++ dec (Z.of_nat (length (take (write_takes l) l))) ++ [10]);;
    exit (ExitCode EX_DATAERR).

(** The line for the scheduler. *)
Definition report_line (ctlid : Z) (rp : rcpt) (notarybuf statmsg message : list Z) : list Z :=
  dec ctlid ++ $$"/" ++ dec (Z.of_nat (r_id rp)) ++ [9] ++ notarybuf ++ [9] ++ statmsg ++ $$" " ++ message ++ [10].

(** An action must be there. *)
Definition need_action (rc : Z) : TA unit :=
  n ← read t_notary;
  match n_A2 n with
  | None => update (set_t_notary (notaryreport None (Some (acct_text (notaryacct rc ($$"delivered")))) None None n))
  | Some _ => mret tt
  end.

(** After a failed allocation. *)
Definition malloc_report (ctlid : Z) (rp : rcpt) : TA rcpt :=
  if (r_lockoffset rp =? 0)%nat then mret rp
  else
    n ← read t_notary;
    say (report_line ctlid rp (txt (n_notarybuf n)) ($$"deferred") ($$"MALLOC FAILURE!"));;
    ta_lockaddr (r_lockoffset rp) _CFTAG_LOCK _CFTAG_DEFER;;
    mret (set_r_lockoffset O rp).

(** The log, the report and the lock. *)
Definition diag_report (ctlid : Z) (rp : rcpt) (rc timeout : Z) (message : list Z) : TA rcpt :=
  let success := flag_set (r_notifyflgs rp) _DSN_NOTIFY_SUCCESS in
  let report_notary := negb ((rc =? EX_OK) && negb success) in
  let '(statmsg, mark, logreport) := diag_verdict rc timeout success in
  update (fun t => set_t_notary (set_n_notarybuf (no_newlines <$> n_notarybuf (t_notary t)) (t_notary t)) t);;
  n ← read t_notary;
  let notarybuf := txt (n_notarybuf n) in
  let message := no_newlines message in
  let logs := logreport && negb (r_lockoffset rp =? 0)%nat in
  (if logs then append_line (diag_line rp notarybuf message) else mret tt);;
  if negb (r_lockoffset rp =? 0)%nat && negb (flag_set (r_notifyflgs rp) _DSN__DIAGDELAYMODE) then
    say (report_line ctlid rp (if negb logs && report_notary then notarybuf else []) statmsg message);;
    if one_of [EX_IOERR; EX_TEMPFAIL] rc && flag_set (r_notifyflgs rp) _DSN__TEMPFAIL_NO_UNLOCK then mret rp
    else
      ta_lockaddr (r_lockoffset rp) _CFTAG_LOCK mark;;
      mret (set_r_lockoffset O rp)
  else mret rp.

Definition diagnostic (ctlid : Z) (verboselog : bool) (rp : rcpt) (rc timeout : Z) (fmt : list Z) (args : list fmt_arg) : TA rcpt :=
  if (r_lockoffset rp =? 0)%nat && negb verboselog then mret rp
  else
    let rp := set_r_status rc rp in
    need_action rc;;
    zfail ← read t_zmalloc_failure;
    if zfail && negb (flag_set (r_notifyflgs rp) _DSN__DIAGDELAYMODE) then malloc_report ctlid rp
    else diag_report ctlid rp rc timeout (diag_message rc fmt args).
End diagnostic.
