(* ===== verification/TaCtl.v ===== *)
(** * Opening and closing control files (transports/libta/ctlopen.c)

    ctlopen() reads the control file of a message, takes the locks of the
    recipients that the agent is to deliver to, and opens the message file;
    ctlclose() gives the locks back that are left.  The contents are one array
    that the parser cuts into strings by writing NULs into it; strings are
    offsets into it, and a character behind its end is a NUL. *)

From Stdlib Require Import ZArith Lia.
From stdpp Require Import base tactics numbers list option.
From S2P Require Import Prelude StrMatch SpoolId TaFile TaDiag.

#[local] Open Scope Z_scope.

(** ** The descriptor (include/ta.h)

    With the variables of ctlopen() that go from line to line: the format
    flags, the exit flag, prevrp (as the id of the recipient), the size of the
    largest header block, and hostref of ctlsticky(). *)
Record ctldesc := Ctldesc {
  d_contents : list Z;
  d_offset : list nat;
  d_ctlid : Z;
  d_senders : list taddress;
  d_recipients : list rcpt;
  d_rcpnts_total : Z;
  d_rcpnts_remaining : Z;
  d_rcpnts_failed : Z;
  d_logident : option nat;
  d_envid : option nat;
  d_dsnretmode : option nat;
  d_verbose : option nat;
  d_msgfile : option nat;
  d_msgbodyoffset : Z;
  d_msgheaders : list (list nat);
  d_largest_headersize : Z;
  d_format : Z;
  d_exitflag : bool;
  d_prevrp : option nat;
  d_hostref : option (list Z);
  d_msgmtime : Z;
  d_msginonumber : Z;
  d_msgsizeestimate : Z;
  d_taspoolid : list Z
}.
Definition set_d_contents (v : list Z) (x : ctldesc) : ctldesc :=
  Ctldesc v (d_offset x) (d_ctlid x) (d_senders x) (d_recipients x) (d_rcpnts_total x) (d_rcpnts_remaining x) (d_rcpnts_failed x) (d_logident x) (d_envid x) (d_dsnretmode x) (d_verbose x) (d_msgfile x) (d_msgbodyoffset x) (d_msgheaders x) (d_largest_headersize x) (d_format x) (d_exitflag x) (d_prevrp x) (d_hostref x) (d_msgmtime x) (d_msginonumber x) (d_msgsizeestimate x) (d_taspoolid x).
Definition set_d_senders (v : list taddress) (x : ctldesc) : ctldesc :=
  Ctldesc (d_contents x) (d_offset x) (d_ctlid x) v (d_recipients x) (d_rcpnts_total x) (d_rcpnts_remaining x) (d_rcpnts_failed x) (d_logident x) (d_envid x) (d_dsnretmode x) (d_verbose x) (d_msgfile x) (d_msgbodyoffset x) (d_msgheaders x) (d_largest_headersize x) (d_format x) (d_exitflag x) (d_prevrp x) (d_hostref x) (d_msgmtime x) (d_msginonumber x) (d_msgsizeestimate x) (d_taspoolid x).
Definition set_d_recipients (v : list rcpt) (x : ctldesc) : ctldesc :=
  Ctldesc (d_contents x) (d_offset x) (d_ctlid x) (d_senders x) v (d_rcpnts_total x) (d_rcpnts_remaining x) (d_rcpnts_failed x) (d_logident x) (d_envid x) (d_dsnretmode x) (d_verbose x) (d_msgfile x) (d_msgbodyoffset x) (d_msgheaders x) (d_largest_headersize x) (d_format x) (d_exitflag x) (d_prevrp x) (d_hostref x) (d_msgmtime x) (d_msginonumber x) (d_msgsizeestimate x) (d_taspoolid x).
Definition set_d_rcpnts_total (v : Z) (x : ctldesc) : ctldesc :=
  Ctldesc (d_contents x) (d_offset x) (d_ctlid x) (d_senders x) (d_recipients x) v (d_rcpnts_remaining x) (d_rcpnts_failed x) (d_logident x) (d_envid x) (d_dsnretmode x) (d_verbose x) (d_msgfile x) (d_msgbodyoffset x) (d_msgheaders x) (d_largest_headersize x) (d_format x) (d_exitflag x) (d_prevrp x) (d_hostref x) (d_msgmtime x) (d_msginonumber x) (d_msgsizeestimate x) (d_taspoolid x).
Definition set_d_rcpnts_remaining (v : Z) (x : ctldesc) : ctldesc :=
  Ctldesc (d_contents x) (d_offset x) (d_ctlid x) (d_senders x) (d_recipients x) (d_rcpnts_total x) v (d_rcpnts_failed x) (d_logident x) (d_envid x) (d_dsnretmode x) (d_verbose x) (d_msgfile x) (d_msgbodyoffset x) (d_msgheaders x) (d_largest_headersize x) (d_format x) (d_exitflag x) (d_prevrp x) (d_hostref x) (d_msgmtime x) (d_msginonumber x) (d_msgsizeestimate x) (d_taspoolid x).
Definition set_d_rcpnts_failed (v : Z) (x : ctldesc) : ctldesc :=
  Ctldesc (d_contents x) (d_offset x) (d_ctlid x) (d_senders x) (d_recipients x) (d_rcpnts_total x) (d_rcpnts_remaining x) v (d_logident x) (d_envid x) (d_dsnretmode x) (d_verbose x) (d_msgfile x) (d_msgbodyoffset x) (d_msgheaders x) (d_largest_headersize x) (d_format x) (d_exitflag x) (d_prevrp x) (d_hostref x) (d_msgmtime x) (d_msginonumber x) (d_msgsizeestimate x) (d_taspoolid x).
Definition set_d_logident (v : option nat) (x : ctldesc) : ctldesc :=
  Ctldesc (d_contents x) (d_offset x) (d_ctlid x) (d_senders x) (d_recipients x) (d_rcpnts_total x) (d_rcpnts_remaining x) (d_rcpnts_failed x) v (d_envid x) (d_dsnretmode x) (d_verbose x) (d_msgfile x) (d_msgbodyoffset x) (d_msgheaders x) (d_largest_headersize x) (d_format x) (d_exitflag x) (d_prevrp x) (d_hostref x) (d_msgmtime x) (d_msginonumber x) (d_msgsizeestimate x) (d_taspoolid x).
Definition set_d_envid (v : option nat) (x : ctldesc) : ctldesc :=
  Ctldesc (d_contents x) (d_offset x) (d_ctlid x) (d_senders x) (d_recipients x) (d_rcpnts_total x) (d_rcpnts_remaining x) (d_rcpnts_failed x) (d_logident x) v (d_dsnretmode x) (d_verbose x) (d_msgfile x) (d_msgbodyoffset x) (d_msgheaders x) (d_largest_headersize x) (d_format x) (d_exitflag x) (d_prevrp x) (d_hostref x) (d_msgmtime x) (d_msginonumber x) (d_msgsizeestimate x) (d_taspoolid x).
Definition set_d_dsnretmode (v : option nat) (x : ctldesc) : ctldesc :=
  Ctldesc (d_contents x) (d_offset x) (d_ctlid x) (d_senders x) (d_recipients x) (d_rcpnts_total x) (d_rcpnts_remaining x) (d_rcpnts_failed x) (d_logident x) (d_envid x) v (d_verbose x) (d_msgfile x) (d_msgbodyoffset x) (d_msgheaders x) (d_largest_headersize x) (d_format x) (d_exitflag x) (d_prevrp x) (d_hostref x) (d_msgmtime x) (d_msginonumber x) (d_msgsizeestimate x) (d_taspoolid x).
Definition set_d_verbose (v : option nat) (x : ctldesc) : ctldesc :=
  Ctldesc (d_contents x) (d_offset x) (d_ctlid x) (d_senders x) (d_recipients x) (d_rcpnts_total x) (d_rcpnts_remaining x) (d_rcpnts_failed x) (d_logident x) (d_envid x) (d_dsnretmode x) v (d_msgfile x) (d_msgbodyoffset x) (d_msgheaders x) (d_largest_headersize x) (d_format x) (d_exitflag x) (d_prevrp x) (d_hostref x) (d_msgmtime x) (d_msginonumber x) (d_msgsizeestimate x) (d_taspoolid x).
Definition set_d_msgfile (v : option nat) (x : ctldesc) : ctldesc :=
  Ctldesc (d_contents x) (d_offset x) (d_ctlid x) (d_senders x) (d_recipients x) (d_rcpnts_total x) (d_rcpnts_remaining x) (d_rcpnts_failed x) (d_logident x) (d_envid x) (d_dsnretmode x) (d_verbose x) v (d_msgbodyoffset x) (d_msgheaders x) (d_largest_headersize x) (d_format x) (d_exitflag x) (d_prevrp x) (d_hostref x) (d_msgmtime x) (d_msginonumber x) (d_msgsizeestimate x) (d_taspoolid x).
Definition set_d_msgbodyoffset (v : Z) (x : ctldesc) : ctldesc :=
  Ctldesc (d_contents x) (d_offset x) (d_ctlid x) (d_senders x) (d_recipients x) (d_rcpnts_total x) (d_rcpnts_remaining x) (d_rcpnts_failed x) (d_logident x) (d_envid x) (d_dsnretmode x) (d_verbose x) (d_msgfile x) v (d_msgheaders x) (d_largest_headersize x) (d_format x) (d_exitflag x) (d_prevrp x) (d_hostref x) (d_msgmtime x) (d_msginonumber x) (d_msgsizeestimate x) (d_taspoolid x).
Definition set_d_msgheaders (v : list (list nat)) (x : ctldesc) : ctldesc :=
  Ctldesc (d_contents x) (d_offset x) (d_ctlid x) (d_senders x) (d_recipients x) (d_rcpnts_total x) (d_rcpnts_remaining x) (d_rcpnts_failed x) (d_logident x) (d_envid x) (d_dsnretmode x) (d_verbose x) (d_msgfile x) (d_msgbodyoffset x) v (d_largest_headersize x) (d_format x) (d_exitflag x) (d_prevrp x) (d_hostref x) (d_msgmtime x) (d_msginonumber x) (d_msgsizeestimate x) (d_taspoolid x).
Definition set_d_largest_headersize (v : Z) (x : ctldesc) : ctldesc :=
  Ctldesc (d_contents x) (d_offset x) (d_ctlid x) (d_senders x) (d_recipients x) (d_rcpnts_total x) (d_rcpnts_remaining x) (d_rcpnts_failed x) (d_logident x) (d_envid x) (d_dsnretmode x) (d_verbose x) (d_msgfile x) (d_msgbodyoffset x) (d_msgheaders x) v (d_format x) (d_exitflag x) (d_prevrp x) (d_hostref x) (d_msgmtime x) (d_msginonumber x) (d_msgsizeestimate x) (d_taspoolid x).
Definition set_d_format (v : Z) (x : ctldesc) : ctldesc :=
  Ctldesc (d_contents x) (d_offset x) (d_ctlid x) (d_senders x) (d_recipients x) (d_rcpnts_total x) (d_rcpnts_remaining x) (d_rcpnts_failed x) (d_logident x) (d_envid x) (d_dsnretmode x) (d_verbose x) (d_msgfile x) (d_msgbodyoffset x) (d_msgheaders x) (d_largest_headersize x) v (d_exitflag x) (d_prevrp x) (d_hostref x) (d_msgmtime x) (d_msginonumber x) (d_msgsizeestimate x) (d_taspoolid x).
Definition set_d_exitflag (v : bool) (x : ctldesc) : ctldesc :=
  Ctldesc (d_contents x) (d_offset x) (d_ctlid x) (d_senders x) (d_recipients x) (d_rcpnts_total x) (d_rcpnts_remaining x) (d_rcpnts_failed x) (d_logident x) (d_envid x) (d_dsnretmode x) (d_verbose x) (d_msgfile x) (d_msgbodyoffset x) (d_msgheaders x) (d_largest_headersize x) (d_format x) v (d_prevrp x) (d_hostref x) (d_msgmtime x) (d_msginonumber x) (d_msgsizeestimate x) (d_taspoolid x).
Definition set_d_prevrp (v : option nat) (x : ctldesc) : ctldesc :=
  Ctldesc (d_contents x) (d_offset x) (d_ctlid x) (d_senders x) (d_recipients x) (d_rcpnts_total x) (d_rcpnts_remaining x) (d_rcpnts_failed x) (d_logident x) (d_envid x) (d_dsnretmode x) (d_verbose x) (d_msgfile x) (d_msgbodyoffset x) (d_msgheaders x) (d_largest_headersize x) (d_format x) (d_exitflag x) v (d_hostref x) (d_msgmtime x) (d_msginonumber x) (d_msgsizeestimate x) (d_taspoolid x).
Definition set_d_hostref (v : option (list Z)) (x : ctldesc) : ctldesc :=
  Ctldesc (d_contents x) (d_offset x) (d_ctlid x) (d_senders x) (d_recipients x) (d_rcpnts_total x) (d_rcpnts_remaining x) (d_rcpnts_failed x) (d_logident x) (d_envid x) (d_dsnretmode x) (d_verbose x) (d_msgfile x) (d_msgbodyoffset x) (d_msgheaders x) (d_largest_headersize x) (d_format x) (d_exitflag x) (d_prevrp x) v (d_msgmtime x) (d_msginonumber x) (d_msgsizeestimate x) (d_taspoolid x).
Definition set_d_msgmtime (v : Z) (x : ctldesc) : ctldesc :=
  Ctldesc (d_contents x) (d_offset x) (d_ctlid x) (d_senders x) (d_recipients x) (d_rcpnts_total x) (d_rcpnts_remaining x) (d_rcpnts_failed x) (d_logident x) (d_envid x) (d_dsnretmode x) (d_verbose x) (d_msgfile x) (d_msgbodyoffset x) (d_msgheaders x) (d_largest_headersize x) (d_format x) (d_exitflag x) (d_prevrp x) (d_hostref x) v (d_msginonumber x) (d_msgsizeestimate x) (d_taspoolid x).
Definition set_d_msginonumber (v : Z) (x : ctldesc) : ctldesc :=
  Ctldesc (d_contents x) (d_offset x) (d_ctlid x) (d_senders x) (d_recipients x) (d_rcpnts_total x) (d_rcpnts_remaining x) (d_rcpnts_failed x) (d_logident x) (d_envid x) (d_dsnretmode x) (d_verbose x) (d_msgfile x) (d_msgbodyoffset x) (d_msgheaders x) (d_largest_headersize x) (d_format x) (d_exitflag x) (d_prevrp x) (d_hostref x) (d_msgmtime x) v (d_msgsizeestimate x) (d_taspoolid x).
Definition set_d_msgsizeestimate (v : Z) (x : ctldesc) : ctldesc :=
  Ctldesc (d_contents x) (d_offset x) (d_ctlid x) (d_senders x) (d_recipients x) (d_rcpnts_total x) (d_rcpnts_remaining x) (d_rcpnts_failed x) (d_logident x) (d_envid x) (d_dsnretmode x) (d_verbose x) (d_msgfile x) (d_msgbodyoffset x) (d_msgheaders x) (d_largest_headersize x) (d_format x) (d_exitflag x) (d_prevrp x) (d_hostref x) (d_msgmtime x) (d_msginonumber x) v (d_taspoolid x).
Definition set_d_taspoolid (v : list Z) (x : ctldesc) : ctldesc :=
  Ctldesc (d_contents x) (d_offset x) (d_ctlid x) (d_senders x) (d_recipients x) (d_rcpnts_total x) (d_rcpnts_remaining x) (d_rcpnts_failed x) (d_logident x) (d_envid x) (d_dsnretmode x) (d_verbose x) (d_msgfile x) (d_msgbodyoffset x) (d_msgheaders x) (d_largest_headersize x) (d_format x) (d_exitflag x) (d_prevrp x) (d_hostref x) (d_msgmtime x) (d_msginonumber x) (d_msgsizeestimate x) v.

(** ** Text in the contents *)

Definition at_ (c : list Z) (s : nat) : Z := nth s c 0.
Definition ctlstr (c : list Z) (s : nat) : list Z := cstr (drop s c).

Definition skip_blanks (c : list Z) (s : nat) : nat := s + span is_blank (drop s c).
(** To the next blank or NUL. *)
Definition word_end (c : list Z) (s : nat) : nat := s + span (fun x => not_nul x && negb (is_blank x)) (drop s c).
(** [if ( *s ) *s++ = 0] *)
Definition cut_here (c : list Z) (s : nat) : list Z * nat := if at_ c s =? 0 then (c, s) else (<[s := 0]> c, S s).

(** ctladdr() *)
Definition ctladdr (c : list Z) (cp : nat) : taddress * list Z :=
  let channel := skip_blanks c cp in
  let '(c, cp) := cut_here c (channel + skip821address false (drop channel c)) in
  let host := skip_blanks c cp in
  let '(c, cp) := cut_here c (host + skip821address false (drop host c)) in
  let user := skip_blanks c cp in
  let '(c, cp) := cut_here c (user + skip821address false (drop user c)) in
  (Taddress channel host user cp, c).

(** [sscanf(s, "%li", &format)] *)
Definition hexval (x : Z) : Z :=
  if isdigit x then x - $"0" else if ($"a" <=? tolower x) && (tolower x <=? $"f") then tolower x - $"a" + 10 else 99.
Definition number (base : Z) (s : list Z) : Z :=
  foldl (fun v x => v * base + hexval x) 0 (take (span (fun x => hexval x <? base) s) s).
Definition scan_format (s : list Z) : Z :=
  let s := drop (span isspace s) s in
  let '(neg, s) := match s with x :: s' => if x =? $"-" then (true, s') else if x =? $"+" then (false, s') else (false, s) | [] => (false, []) end in
  let v := match s with
           | a :: b :: s' => if a =? $"0" then if tolower b =? $"x" then number 16 s' else number 8 (b :: s') else number 10 s
           | _ => number 10 s
           end in
  if neg : bool then - v else v.

Definition _CF_FORMAT_DELAY1 : Z := 2.
Definition _CF_FORMAT_KNOWN_SET : Z := 7.

(** ** DSN parameters *)

Definition dsn_words : list (list Z * Z) :=
  [($$"NEVER", _DSN_NOTIFY_NEVER); ($$"DELAY", _DSN_NOTIFY_DELAY); ($$"SUCCESS", _DSN_NOTIFY_SUCCESS);
   ($$"FAILURE", _DSN_NOTIFY_FAILURE); ($$"TRACE", _DSN_NOTIFY_TRACE)].

Fixpoint find_word (p : list Z) (words : list (list Z * Z)) : option (nat * Z) :=
  match words with
  | [] => None
  | (w, f) :: words => if CISTREQN p w then Some (length w, f) else find_word p words
  end.

(** The words behind NOTIFY=, up to one that is not known. *)
Fixpoint notify_flags (fuel : nat) (p : list Z) (flgs : Z) : Z :=
  match fuel, p with
  | S fuel, _ :: _ =>
      match find_word p dsn_words with
      | Some (n, f) =>
          let p := drop n p in
          let p := match p with x :: p' => if x =? $"," then p' else p | [] => [] end in
          notify_flags fuel p (Z.lor flgs f)
      | None => flgs
      end
  | _, _ => flgs
  end.

Definition by_letter (x : Z) : Z :=
  if tolower x =? $"r" then 2 else if tolower x =? $"n" then 1 else if tolower x =? $"t" then 4 else 0.

(** BY=: the value, the flags of its letters, and where the word ends. *)
Definition deliver_by (c : list Z) (s : nat) (flgs : Z) : Z * Z * nat :=
  let '(neg, s) := if at_ c s =? $"-" then (true, S s) else (false, s) in
  let k := span isdigit (drop s c) in
  let val := foldl (fun v x => v * 10 + (x - $"0")) 0 (take k (drop s c)) in
  let s := (s + k)%nat in
  let s := if at_ c s =? $";" then S s else s in
  let e := word_end c s in
  (if neg : bool then - val else val, foldl (fun f x => Z.lor f (by_letter x)) flgs (take (e - s) (drop s c)), e).

(** The loop over the parameters of a line of DSN data. *)
Fixpoint dsn_params (fuel : nat) (c : list Z) (s : nat) (rp : rcpt) : list Z * rcpt :=
  match fuel with
  | O => (c, rp)
  | S fuel =>
      if at_ c s =? 0 then (c, rp)
      else
        let s := skip_blanks c s in
        let key w := CISTREQN (drop s c) w in
        let value n (f : nat -> rcpt -> rcpt) :=
          let '(c, e) := cut_here c (word_end c (s + n)) in dsn_params fuel c e (f (s + n)%nat rp) in
        if key ($$"NOTIFY=") then
          let p := (s + 7)%nat in
          let '(c, e) := cut_here c (word_end c p) in
          dsn_params fuel c e (set_r_notifyflgs (notify_flags (length (ctlstr c p)) (ctlstr c p) 0) (set_r_notify (Some p) rp))
        else if key ($$"BY=") then
          let '(val, flgs, e) := deliver_by c (s + 3) (r_deliverbyflgs rp) in
          let '(c, e) := cut_here c e in
          dsn_params fuel c e (set_r_deliverbyflgs flgs (set_r_deliverby val rp))
        else if key ($$"ORCPT=") then value 6%nat (fun p => set_r_orcpt (Some p))
        else if key ($$"INRCPT=") then value 7%nat (fun p => set_r_inrcpt (Some p))
        else if key ($$"INFROM=") then value 7%nat (fun p => set_r_infrom (Some p))
        else if key ($$"EZMLM=") then value 6%nat (fun p => set_r_ezmlm (Some p))
        else dsn_params fuel c (word_end c s) rp
  end.

(** ** Header blocks *)

(** The end of a header: the newline that no blank follows, or the NUL. *)
Fixpoint hdr_end (l : list Z) : nat :=
  match l with
  | [] => 0
  | x :: l =>
      if x =? 0 then 0
      else if (x =? 10) && negb (match l with y :: _ => is_blank y | [] => false end) then 0
      else S (hdr_end l)
  end.

(** The headers of a block from [s] on. *)
Fixpoint header_lines (fuel : nat) (c : list Z) (s : nat) : list nat * list Z :=
  match fuel with
  | O => ([], c)
  | S fuel =>
      if at_ c s =? 0 then ([], c)
      else
        let e := (s + hdr_end (drop s c))%nat in
        let '(c, next) := if at_ c e =? 10 then (<[e := 0]> c, S e) else (c, e) in
        let '(hs, c) := header_lines fuel c next in (s :: hs, c)
  end.

(** The headers go to the newest recipients that have none. *)
Fixpoint give_headers (index : nat) (offset : Z) (rps : list rcpt) : list rcpt :=
  match rps with
  | [] => []
  | rp :: rps =>
      match r_newmsgheader rp with
      | None => set_r_headeroffset offset (set_r_newmsgheader (Some index) rp) :: give_headers index offset rps
      | Some _ => rp :: rps
      end
  end.

(** ** One line *)

(** How recipients are selected: by the host that was asked for, by
    ctlsticky(), or by a function of the agent. *)
Inductive selector :=
| NoSelect
| CtlSticky
| SelectAddr (f : option (list Z) -> list Z -> list Z -> list Z -> list Z -> bool).

(** ctlsticky(): hostref, and whether the host is the same. *)
Definition ctlsticky (spec_host : option (list Z)) (host : list Z) (hostref : option (list Z)) : option (list Z) * bool :=
  let h := match hostref with Some h => h | None => default host spec_host end in
  (Some h, cistrcmp h host =? 0).

Definition select (sel : selector) (host : option (list Z)) (c : list Z) (ap : taddress) (hostref : option (list Z))
    : option (list Z) * bool :=
  match sel with
  | NoSelect => (hostref, match host with Some h => cistrcmp h (ctlstr c (a_host ap)) =? 0 | None => true end)
  | CtlSticky => ctlsticky host (ctlstr c (a_host ap)) hostref
  | SelectAddr f => (hostref, f host (ctlstr c (a_channel ap)) (ctlstr c (a_host ap)) (ctlstr c (a_user ap)) (ctlstr c (a_misc ap)))
  end.

Definition update_rp (id : nat) (f : rcpt -> rcpt) (rps : list rcpt) : list rcpt :=
  (fun rp => if (r_id rp =? id)%nat then f rp else rp) <$> rps.

Section ctlopen.
Context `{TaEnv}.

Definition new_rcpt (off : nat) (ap sender : taddress) (delayslot : option nat) : rcpt :=
  Rcpt ap sender off (S off) delayslot (-1) (-1) None _DSN_NOTIFY_FAILURE 0 0 None None None None None EX_OK.

(** A recipient that the router left to the agents. *)
Definition take_recipient (channel host : option (list Z)) (sel : selector) (off : nat) (d : ctldesc) (sender : taddress)
    : TA ctldesc :=
  let c := d_contents d in
  let s := (off + 2 + _CFTAG_RCPTPIDSIZE)%nat in
  let '(delayslot, s) :=
    if flag_set (d_format d) _CF_FORMAT_DELAY1 || (at_ c s =? $" ") || isdigit (at_ c s)
    then (Some s, (s + _CFTAG_RCPTDELAYSIZE)%nat) else (None, s) in
  let '(ap, c) := ctladdr c s in
  let d := set_d_contents c d in
  if match channel with Some ch => negb (bool_decide (ch = ctlstr c (a_channel ap))) | None => false end then mret d
  else
    let '(hostref, chosen) := select sel host c ap (d_hostref d) in
    let d := set_d_hostref hostref d in
    if negb chosen then mret d
    else
      ok ← ta_lockaddr (S off) _CFTAG_NORMAL _CFTAG_LOCK;
      if negb ok then mret d
      else
        let rp := new_rcpt off ap sender delayslot in
        mret (set_d_prevrp (Some off) (set_d_recipients (rp :: d_recipients d) d)).

Definition recipient_line (channel host : option (list Z)) (sel : selector) (off : nat) (d : ctldesc) : TA ctldesc :=
  let tag := at_ (d_contents d) (S off) in
  let d := set_d_rcpnts_total (d_rcpnts_total d + 1) d in
  let d := if tag =? _CFTAG_NOTOK then set_d_prevrp None (set_d_rcpnts_failed (d_rcpnts_failed d + 1) d)
           else if negb (tag =? _CFTAG_OK) then set_d_rcpnts_remaining (d_rcpnts_remaining d + 1) d
           else d in
  match d_senders d with
  | sender :: _ => if tag =? _CFTAG_NORMAL then take_recipient channel host sel off d sender else mret d
  | [] => mret d
  end.

(** The DSN data go to the recipient of prevrp. *)
Definition notary_line (off : nat) (d : ctldesc) : ctldesc :=
  match d_prevrp d with
  | None => d
  | Some id =>
      match list_find (fun rp => r_id rp = id) (d_recipients d) with
      | None => d
      | Some (_, rp) =>
          let '(c, rp) := dsn_params (length (d_contents d)) (d_contents d) (S off) (set_r_drptoffset (Z.of_nat off) rp) in
          set_d_prevrp None (set_d_contents c (set_d_recipients (update_rp id (fun _ => rp) (d_recipients d)) d))
      end
  end.

Definition headers_line (off : nat) (d : ctldesc) : ctldesc :=
  let c := d_contents d in
  let size := Z.of_nat (length (ctlstr c off)) in
  let s := S (off + span (fun x => not_nul x && negb (x =? 10)) (drop off c)) in
  let '(hs, c) := header_lines (length c) c s in
  set_d_contents c (set_d_largest_headersize (Z.max (d_largest_headersize d) size)
    (set_d_msgheaders (d_msgheaders d ++ [hs])
      (set_d_recipients (give_headers (length (d_msgheaders d)) (Z.of_nat off + 2) (d_recipients d)) d))).

(** The body of the loop over the lines. *)
Definition ctl_line (channel host : option (list Z)) (sel : selector) (off : nat) (d : ctldesc) : TA ctldesc :=
  let c := d_contents d in
  let x := at_ c off in
  if x =? $"@" then
    let format := scan_format (drop (S off) c) in
    mret (let d := set_d_format format d in
          if negb (Z.land format (Z.lnot _CF_FORMAT_KNOWN_SET) =? 0) then set_d_exitflag true d else d)
  else if x =? $"s" then
    let '(ap, c) := ctladdr c (off + 2) in
    mret (set_d_senders (ap :: d_senders d) (set_d_contents c d))
  else if x =? $"r" then recipient_line channel host sel off d
  else if x =? $"N" then mret (notary_line off d)
  else if x =? _CF_MSGHEADERS then mret (headers_line off d)
  else if x =? $"i" then mret (set_d_msgfile (Some (off + 2)%nat) d)
  else if x =? $"n" then mret (set_d_envid (Some (off + 2)%nat) d)
  else if x =? $"R" then mret (set_d_dsnretmode (Some (off + 2)%nat) d)
  else if x =? $"o" then mret (set_d_msgbodyoffset (atoi (drop (off + 2) c)) d)
  else if x =? $"l" then mret (set_d_logident (Some (off + 2)%nat) d)
  else if x =? $"v" then mret (set_d_verbose (Some (off + 2)%nat) d)
  else mret d.

(** The exit flag stops the loop as long as no recipient was taken. *)
Fixpoint ctl_lines (channel host : option (list Z)) (sel : selector) (offs : list nat) (d : ctldesc) : TA ctldesc :=
  match offs with
  | [] => mret d
  | off :: offs =>
      if d_exitflag d && bool_decide (d_recipients d = []) then mret d
      else d ← ctl_line channel host sel off d; ctl_lines channel host sel offs d
  end.

(** ** ctlclose() and ctlopen() *)

Fixpoint diagnose_all (ctlid rc : Z) (msg : list Z) (rps : list rcpt) : TA (list rcpt) :=
  match rps with
  | [] => mret []
  | rp :: rps =>
      rp ← diagnostic ctlid false rp rc 0 msg [];
      rps ← diagnose_all ctlid rc msg rps;
      mret (rp :: rps)
  end.

Definition undiagnosed (d : ctldesc) (rp : rcpt) : list (list Z) :=
  if (r_lockoffset rp =? 0)%nat then []
  else [$$"# undiagnosed: " ++ match d_msgfile d with Some s => ctlstr (d_contents d) s | None => $$"(null)" end
        ++ $$" " ++ dec (Z.of_nat (r_id rp)) ++ [10]].

Definition ctlclose (d : ctldesc) : TA unit :=
  rps ← diagnose_all (d_ctlid d) EX_TEMPFAIL ($$"address was left locked!!") (d_recipients d);
  update (fun t => set_t_out (t_out t ++ concat (undiagnosed d <$> rps)) t).

(** The file name behind the last slash. *)
Fixpoint base_name (best file : list Z) : list Z :=
  match file with
  | [] => best
  | x :: file => base_name (if x =? $"/" then file else best) file
  end.

(** [char dirprefix[8]] *)
Definition dirprefix (file : list Z) : list Z :=
  if $"A" <=? hd 0 file then
    let p := take 7 file in
    if has_char p ($"/") then take (length p - length (base_name p p)) p else p
  else [].

Definition message_missing : list Z :=
  $$"message file is missing(!) -- possibly due to delivery scheduler restart.  Consider resending your message".
Definition message_not_regular : list Z := $$"Message file is not a regular file!".

Definition open_failed (d : ctldesc) (msg : list Z) : TA (option ctldesc) :=
  rps ← diagnose_all (d_ctlid d) EX_UNAVAILABLE msg (d_recipients d);
  ctlclose (set_d_recipients rps d);;
  mret None.

(** The message file. *)
Definition open_message (file : list Z) (d : ctldesc) : TA (option ctldesc) :=
  match d_msgfile d with
  | None => exit NullPointer
  | Some m =>
      match message_file ($$"../queue/" ++ dirprefix file ++ ctlstr (d_contents d) m) with
      | None => open_failed d message_missing
      | Some st =>
          if negb (ms_regular st) then open_failed d message_not_regular
          else
            let size := ms_size st - d_msgbodyoffset d + d_largest_headersize d in
            mret (Some (set_d_taspoolid (taspoolid (ms_ino st) (ms_mtime st) (ms_nsec st))
              (set_d_msgsizeestimate (size + Z.quot (3 * size) 100)
                (set_d_msginonumber (ms_ino st) (set_d_msgmtime (ms_mtime st) d)))))
      end
  end.

Definition start_desc (file contents : list Z) (offs : list nat) (exitflag : bool) : ctldesc :=
  Ctldesc contents offs (atoi (base_name file file)) [] [] 0 0 0 None None None None None 0 [] 80 0 exitflag None None 0 0 0 [].

(** ctlopen() of a file that can be opened. *)
Definition ctlopen (file : list Z) (channel host : option (list Z)) (exitflag : bool) (sel : selector) : TA (option ctldesc) :=
  contents ← read (fun t => f_bytes (t_fd t));
  update (fun t => set_t_fd (set_pos (length contents) (t_fd t)) t);;
  match markoff contents with
  | None => mret None
  | Some (contents, offs) =>
      if (length offs <? 4)%nat then mret None
      else
        d ← ctl_lines channel host sel offs (start_desc file contents offs exitflag);
        match d_recipients d with
        | [] => mret None
        | _ => open_message file d
        end
  end.
End ctlopen.
