(* ===== verification/TaOpen.v ===== *)
(** * What opening and closing a control file does to its locks *)

From Stdlib Require Import ZArith Lia.
From stdpp Require Import base tactics numbers list option sets sorting.
From S2P Require Import Prelude TaFile TaLock TaDiag TaCtl.

#[local] Open Scope Z_scope.

(** ** Offsets of lines *)

Lemma markoff_loop_sorted l : forall mode off o offs, markoff_loop mode off l = Some (o, offs) ->
  Forall (fun i => (off <= i)%nat) offs /\ StronglySorted lt offs.
Proof.
  induction l as [|c l IH]; intros mode off o offs; [intros [= <- <-]; repeat constructor|].
  assert (forall mode' o' offs', markoff_loop mode' (S off) l = Some (o', offs') ->
    Forall (fun i => (off <= i)%nat) offs' /\ StronglySorted lt offs' /\ StronglySorted lt (off :: offs')) as Hrest.
  { intros mode' o' offs' E. apply IH in E as [Hf Hs]. split_and!; [|done|].
    - eapply Forall_impl; [done|]. cbn. lia.
    - constructor; [done|]. eapply Forall_impl; [done|]. cbn. lia. }
  destruct mode; cbn [markoff_loop].
  - destruct (markoff_loop _ (S off) l) as [[o' offs']|] eqn:E; [|done]. intros [= <- <-]. apply Hrest in E. tauto.
  - assert (forall mode' r, ('(o, offs) ← markoff_loop mode' (S off) l; Some (c :: o, off :: offs)) = Some r ->
      Forall (fun i => (off <= i)%nat) r.2 /\ StronglySorted lt r.2) as Hcase.
    { intros mode' r. destruct (markoff_loop mode' (S off) l) as [[o' offs']|] eqn:E; [|done]. intros [= <-].
      apply Hrest in E as (Hf & _ & Hs). split; [constructor; [lia | done] | done]. }
    destruct (starts_block c); [destruct l; [done|]|]; intros Hr; apply Hcase in Hr; done.
  - destruct l as [|d l]; [done|]. destruct (markoff_loop _ (S off) (d :: l)) as [[o' offs']|] eqn:E; [|done].
    intros [= <- <-]. apply Hrest in E. tauto.
Qed.

Lemma markoff_nodup b c offs : markoff b = Some (c, offs) -> NoDup offs.
Proof.
  unfold markoff. destruct b as [|x b]; [intros [= <- <-]; apply NoDup_singleton|].
  cbn [markoff_loop]. destruct (markoff_loop _ 1 b) as [[o offs']|] eqn:E; [|done]. intros [= <- <-].
  apply markoff_loop_sorted in E as [Hf Hs]. constructor.
  - rewrite Forall_forall in Hf. intros Hin. specialize (Hf _ Hin). lia.
  - clear -Hs. induction Hs as [|a l _ IH Hl]; constructor; [|done]. rewrite Forall_forall in Hl. intros Hin.
    specialize (Hl _ Hin). lia.
Qed.

(** The parser overwrites characters with NULs and with nothing else. *)
Definition only_zeroed (b c : list Z) : Prop := forall i, at_ c i = 0 \/ at_ c i = at_ b i.

Lemma zeroed_refl b : only_zeroed b b.
Proof. by right. Qed.

Lemma zeroed_insert b c s : only_zeroed b c -> only_zeroed b (<[s := 0]> c).
Proof.
  intros Hz i. unfold at_. rewrite nth_lookup. destruct (decide (s = i)) as [->|Hne].
  - destruct (decide (i < length c)%nat).
    + rewrite list_lookup_insert_eq by done. by left.
    + rewrite lookup_ge_None_2 by (rewrite length_insert; lia). by left.
  - rewrite list_lookup_insert_ne by done. rewrite <- nth_lookup. apply Hz.
Qed.

Lemma markoff_loop_zeroed l : forall mode off o offs, markoff_loop mode off l = Some (o, offs) -> only_zeroed l o.
Proof.
  induction l as [|c l IH]; intros mode off o offs; [intros [= <- <-]; apply zeroed_refl|].
  assert (forall mode' x r, (x = 0 \/ x = c) -> (forall o offs, r = Some (o, offs) -> exists o' offs',
      markoff_loop mode' (S off) l = Some (o', offs') /\ o = x :: o') ->
      r = Some (o, offs) -> only_zeroed (c :: l) o) as Hcase.
  { intros mode' x r Hx Hr E. destruct (Hr _ _ E) as (o' & offs' & E' & ->). apply IH in E'. intros [|i]; [done | apply E']. }
  destruct mode; cbn [markoff_loop].
  - apply (Hcase (if c =? 10 then LineStart else InLine) (if c =? 10 then 0 else c)); [destruct (c =? 10); auto|].
    intros o1 offs1. destruct (markoff_loop _ (S off) l) as [[o' offs']|]; [|done]. intros [= <- <-]. by eexists _, _.
  - destruct (starts_block c).
    + destruct l as [|d l]; [done|]. apply (Hcase InBlock c); [by right|].
      intros o1 offs1. destruct (markoff_loop _ (S off) (d :: l)) as [[o' offs']|]; [|done]. intros [= <- <-]. by eexists _, _.
    + apply (Hcase InLine c); [by right|].
      intros o1 offs1. destruct (markoff_loop _ (S off) l) as [[o' offs']|]; [|done]. intros [= <- <-]. by eexists _, _.
  - destruct l as [|d l]; [done|]. apply (Hcase (if (c =? 10) && (d =? 10) then InLine else InBlock) c); [by right|].
    intros o1 offs1. destruct (markoff_loop _ (S off) (d :: l)) as [[o' offs']|]; [|done]. intros [= <- <-]. by eexists _, _.
Qed.

Lemma markoff_zeroed b c offs : markoff b = Some (c, offs) -> only_zeroed b c.
Proof.
  unfold markoff. destruct (markoff_loop _ _ _) as [[o offs']|] eqn:E; [|done]. intros [= <- _].
  by eapply markoff_loop_zeroed.
Qed.

Lemma cut_here_zeroed b c s : only_zeroed b c -> only_zeroed b (cut_here c s).1.
Proof. intros Hz. unfold cut_here. destruct (_ =? 0); [done|]. by apply zeroed_insert. Qed.

Lemma ctladdr_zeroed b c s : only_zeroed b c -> only_zeroed b (ctladdr c s).2.
Proof.
  intros Hz. unfold ctladdr.
  do 3 match goal with |- context [cut_here ?c ?s] =>
    let Hc := fresh in pose proof (cut_here_zeroed b c s ltac:(assumption)) as Hc; destruct (cut_here c s); cbn [fst] in Hc end.
  done.
Qed.

(** ** Flags *)

(** Flags that NOTIFY= can set. *)
Definition small (flgs : Z) : Prop := Z.land flgs (Z.lnot 31) = 0.

Lemma small_lor a b : small a -> small b -> small (Z.lor a b).
Proof. unfold small. intros Ha Hb. by rewrite Z.land_lor_distr_l, Ha, Hb. Qed.

Lemma small_flag f bit : small f -> Z.land (Z.lnot 31) bit = bit -> flag_set f bit = false.
Proof.
  unfold small, flag_set. intros Hf <-. rewrite Z.land_assoc, Hf, Z.land_0_l. done.
Qed.

Lemma find_word_small p n f : find_word p dsn_words = Some (n, f) -> small f.
Proof. unfold dsn_words. cbn [find_word]. repeat case_match; intros [= <- <-]; done. Qed.

Lemma notify_flags_small fuel : forall p flgs, small flgs -> small (notify_flags fuel p flgs).
Proof.
  induction fuel as [|fuel IH]; intros p flgs Hs; [by destruct p|]. destruct p as [|x p]; [done|]. cbn [notify_flags].
  destruct (find_word _ _) as [[n f]|] eqn:E; [|done]. apply IH, small_lor; [done|]. by eapply find_word_small.
Qed.

(** What the parameters leave alone. *)
Definition same_rcpt (rp rp' : rcpt) : Prop :=
  r_id rp' = r_id rp /\ r_lockoffset rp' = r_lockoffset rp /\ (small (r_notifyflgs rp) -> small (r_notifyflgs rp')).

Lemma same_rcpt_trans rp1 rp2 rp3 : same_rcpt rp1 rp2 -> same_rcpt rp2 rp3 -> same_rcpt rp1 rp3.
Proof. unfold same_rcpt. intros (? & ? & ?) (? & ? & ?). split_and!; [congruence | congruence | auto]. Qed.

Lemma dsn_params_ok b fuel : forall c s rp, only_zeroed b c ->
  only_zeroed b (dsn_params fuel c s rp).1 /\ same_rcpt rp (dsn_params fuel c s rp).2.
Proof.
  induction fuel as [|fuel IH]; intros c s rp Hz; [done|]. cbn [dsn_params]. destruct (at_ c s =? 0); [done|].
  set (s1 := skip_blanks c s).
  assert (forall c' e rp', only_zeroed b c' -> same_rcpt rp rp' ->
    only_zeroed b (dsn_params fuel c' e rp').1 /\ same_rcpt rp (dsn_params fuel c' e rp').2) as Hgo.
  { intros c' e rp' Hz' Hs'. destruct (IH c' e rp' Hz') as [H1 H2]. split; [done|]. by eapply same_rcpt_trans. }
  repeat case_match; subst;
    repeat match goal with E : cut_here ?c ?s = _ |- _ =>
      let Hc := fresh in pose proof (cut_here_zeroed b c s ltac:(assumption)) as Hc; rewrite E in Hc; cbn [fst] in Hc; clear E end;
    apply Hgo; try done.
  split_and!; [done | done |]. intros _. by apply notify_flags_small.
Qed.

Lemma header_lines_zeroed b fuel : forall c s, only_zeroed b c -> only_zeroed b (header_lines fuel c s).2.
Proof.
  induction fuel as [|fuel IH]; intros c s Hz; [done|]. cbn [header_lines]. destruct (at_ c s =? 0); [done|]. cbv zeta.
  destruct (at_ c _ =? 10).
  - pose proof (IH (<[(s + hdr_end (drop s c))%nat := 0]> c) (S (s + hdr_end (drop s c))) (zeroed_insert _ _ _ Hz)) as H.
    by destruct (header_lines _ _ _).
  - pose proof (IH c (s + hdr_end (drop s c))%nat Hz) as H. by destruct (header_lines _ _ _).
Qed.

(** ** The locks that were taken *)

Section opening.
Context `{TaEnv}.

(** A file whose recipient lines are as the router writes them, or were
    diagnosed. *)
Record router_file (b : list Z) (offs : list nat) : Prop := {
  rf_slots : forall off, off ∈ offs -> at_ b off = $"r" -> tag_slot b (S off);
  rf_blank : forall off, off ∈ offs -> at_ b off = $"r" -> tag b (S off) = _CFTAG_NORMAL ->
    region (S off) ENTRY b = _CFTAG_NORMAL :: blanks6;
  rf_apart : forall n m, n ∈ offs -> m ∈ offs -> at_ b n = $"r" -> at_ b m = $"r" -> n <> m ->
    (n + ENTRY < m \/ m + ENTRY < n)%nat;
  rf_inside : forall off, off ∈ offs -> (off < length b)%nat
}.

Definition lock_all (ids : list nat) (b : list Z) : list Z :=
  foldr (fun id b => overlay (S id) (locked_by ta_pid) b) b ids.

(** A recipient that was taken, with its lock. *)
Definition lock_taken (b : list Z) (offs : list nat) (rp : rcpt) : Prop :=
  r_id rp ∈ offs /\ at_ b (r_id rp) = $"r" /\ tag b (S (r_id rp)) = _CFTAG_NORMAL /\
  r_lockoffset rp = S (r_id rp) /\ small (r_notifyflgs rp).

Record opened (b : list Z) (offs : list nat) (d : ctldesc) (t : ta_state) : Prop := {
  op_map : t_map t = false;
  op_contents : only_zeroed b (d_contents d);
  op_file : f_bytes (t_fd t) = lock_all (r_id <$> d_recipients d) b;
  op_taken : Forall (lock_taken b offs) (d_recipients d);
  op_nodup : NoDup (r_id <$> d_recipients d)
}.

Variables (b : list Z) (offs : list nat).
Hypothesis disk : disk_works.
Hypothesis file : router_file b offs.
Hypothesis pid : 0 <= ta_pid.

Definition good_id (id : nat) : Prop := id ∈ offs /\ at_ b id = $"r" /\ tag b (S id) = _CFTAG_NORMAL.

Lemma locked_by_length p : length (locked_by p) = ENTRY.
Proof. unfold locked_by. cbn [length]. by rewrite pid_text_length. Qed.

Lemma lock_all_length ids : Forall good_id ids -> length (lock_all ids b) = length b.
Proof.
  induction 1 as [|id ids (Ho & Hr & _) _ IH]; [done|]. cbn [lock_all foldr]. fold (lock_all ids b).
  rewrite overlay_length; [done|]. rewrite IH, locked_by_length. apply slot_room. by apply (rf_slots _ _ file).
Qed.

(** The entry of a line that was not taken. *)
Lemma lock_all_other ids off : Forall good_id ids -> off ∈ offs -> at_ b off = $"r" -> off ∉ ids ->
  region (S off) ENTRY (lock_all ids b) = region (S off) ENTRY b.
Proof.
  intros Hg Ho Hr. induction Hg as [|id ids (Hio & Hir & Hit) Hg IH]; [done|]. rewrite not_elem_of_cons. intros [Hne Hni].
  cbn [lock_all foldr]. fold (lock_all ids b). rewrite region_apart; [by apply IH | |].
  - rewrite lock_all_length, locked_by_length by done. apply slot_room. by apply (rf_slots _ _ file).
  - rewrite locked_by_length. pose proof (rf_apart _ _ file off id Ho Hio Hr Hir Hne). lia.
Qed.

Lemma tag_region x n : tag x n = hd 0 (region n ENTRY x).
Proof. apply region_tag. Qed.

Lemma lock_all_slot ids off : Forall good_id ids -> off ∈ offs -> at_ b off = $"r" -> off ∉ ids -> tag_slot (lock_all ids b) (S off).
Proof.
  intros Hg Ho Hr Hni. destruct (rf_slots _ _ file off Ho Hr) as [Hl Hc]. split; [by rewrite lock_all_length|].
  replace (S (S off)) with (S off + 1)%nat in * by lia.
  rewrite <- (nth_region 1 (S off) ENTRY) in * by (unfold ENTRY, _CFTAG_RCPTPIDSIZE; lia).
  rewrite lock_all_other by done. done.
Qed.

(** Nothing was reported. *)
Definition said_nothing (t t' : ta_state) : Prop := t_out t' = t_out t /\ t_zmalloc_failure t' = t_zmalloc_failure t.

(** Taking a lock: it is given just when the tag says so. *)
Lemma take_lock ids off t : t_map t = false -> f_bytes (t_fd t) = lock_all ids b -> Forall good_id ids ->
  off ∈ offs -> at_ b off = $"r" -> off ∉ ids ->
  exists t', ta_lockaddr (S off) _CFTAG_NORMAL _CFTAG_LOCK t = (inr (tag b (S off) =? _CFTAG_NORMAL), t') /\
    t_map t' = false /\ said_nothing t t' /\
    f_bytes (t_fd t') = lock_all (if tag b (S off) =? _CFTAG_NORMAL then off :: ids else ids) b.
Proof.
  intros Hm Hf Hg Ho Hr Hni. unfold ta_lockaddr. rewrite Hm.
  pose proof (lock_all_slot ids off Hg Ho Hr Hni) as Hs. rewrite <- Hf in Hs.
  destruct (lockaddr_spec (S off) _CFTAG_NORMAL _CFTAG_LOCK (t_fd t) disk Hs) as (pos & mode & ->).
  assert (nth (S off) (f_bytes (t_fd t)) 0 = tag b (S off)) as ->.
  { fold (tag (f_bytes (t_fd t)) (S off)). by rewrite !tag_region, Hf, lock_all_other. }
  eexists. split; [done|]. split; [done|]. split; [done|]. cbn [set_t_fd t_fd f_bytes].
  destruct (_ =? _CFTAG_NORMAL); [|done]. cbn [lock_all foldr]. by rewrite Hf.
Qed.

Lemma same_ids rps rps' : Forall2 same_rcpt rps rps' -> r_id <$> rps' = r_id <$> rps.
Proof. induction 1 as [|rp rp' rps rps' [Hid _] _ IH]; [done|]. cbn [fmap list_fmap]. by rewrite Hid, IH. Qed.

(** Lines that take no lock. *)
Lemma opened_pure d d' t : opened b offs d t -> only_zeroed b (d_contents d') -> Forall2 same_rcpt (d_recipients d) (d_recipients d') ->
  opened b offs d' t.
Proof.
  intros [Hm Hz Hf Ht Hn] Hz' Hs. pose proof (same_ids _ _ Hs) as Hids. constructor; rewrite ?Hids; try done.
  clear -Ht Hs. induction Hs as [|rp rp' rps rps' (H1 & H2 & H3) _ IH]; [done|].
  apply Forall_cons_1 in Ht as [(T1 & T2 & T3 & T4 & T5) Ht]. constructor; [|by apply IH].
  unfold lock_taken. rewrite H1, H2. split_and!; auto.
Qed.

Lemma same_rcpt_refl rp : same_rcpt rp rp.
Proof. done. Qed.

Lemma same_rcpts_refl rps : Forall2 same_rcpt rps rps.
Proof. induction rps; by constructor. Qed.

Lemma give_headers_same index offset rps : Forall2 same_rcpt rps (give_headers index offset rps).
Proof.
  induction rps as [|rp rps IH]; [constructor|]. cbn [give_headers]. destruct (r_newmsgheader rp).
  - apply same_rcpts_refl.
  - by constructor.
Qed.

Lemma update_rp_same id f rps : (forall rp, rp ∈ rps -> r_id rp = id -> same_rcpt rp (f rp)) ->
  Forall2 same_rcpt rps (update_rp id f rps).
Proof.
  intros Hf. unfold update_rp. induction rps as [|rp rps IH]; [constructor|]. cbn [fmap list_fmap]. constructor.
  - destruct (Nat.eqb_spec (r_id rp) id); [|done]. apply Hf; [by left | done].
  - apply IH. intros rp' Hin. apply Hf. by right.
Qed.

Lemma nodup_id (rps : list rcpt) rp rp' : NoDup (r_id <$> rps) -> rp ∈ rps -> rp' ∈ rps -> r_id rp = r_id rp' -> rp = rp'.
Proof.
  induction rps as [|x rps IH]; intros Hn Hin Hin' Heq; [by apply not_elem_of_nil in Hin|].
  cbn [fmap list_fmap] in Hn. apply NoDup_cons in Hn as [Hni Hn].
  assert (forall y, y ∈ rps -> r_id x <> r_id y) as Hx.
  { intros y Hy He. apply Hni. apply list_elem_of_fmap. by exists y. }
  apply elem_of_cons in Hin as [-> | Hin]; apply elem_of_cons in Hin' as [-> | Hin']; [done | by destruct (Hx rp') | by destruct (Hx rp) | by apply IH].
Qed.

Lemma notary_line_opened off d t : opened b offs d t ->
  opened b offs (notary_line off d) t /\ r_id <$> d_recipients (notary_line off d) = r_id <$> d_recipients d.
Proof.
  intros Ho. unfold notary_line. destruct (d_prevrp d) as [id|]; [|done].
  destruct (list_find _ _) as [[i rp]|] eqn:Ef; [|done]. apply list_find_Some in Ef as (Hl & Hid & _).
  set (rp0 := set_r_drptoffset _ rp). destruct (dsn_params _ _ _ _) as [c rp'] eqn:E.
  destruct (dsn_params_ok b (length (d_contents d)) (d_contents d) (S off) rp0 (op_contents _ _ _ _ Ho)) as [Hz Hs].
  rewrite E in Hz, Hs. cbn [fst snd] in *.
  assert (Forall2 same_rcpt (d_recipients d) (update_rp id (fun _ => rp') (d_recipients d))) as Hsame.
  { apply update_rp_same. intros x Hx Hxid. assert (x = rp) as ->; [|done].
    eapply nodup_id; [apply (op_nodup _ _ _ _ Ho) | done | by eapply list_elem_of_lookup_2 | congruence]. }
  split; [by eapply opened_pure | by apply same_ids].
Qed.

Lemma headers_line_opened off d t : opened b offs d t ->
  opened b offs (headers_line off d) t /\ r_id <$> d_recipients (headers_line off d) = r_id <$> d_recipients d.
Proof.
  intros Ho. unfold headers_line. set (s := S _).
  pose proof (header_lines_zeroed b (length (d_contents d)) (d_contents d) s (op_contents _ _ _ _ Ho)) as Hz.
  destruct (header_lines _ _ _) as [hs c]. cbn [snd] in Hz.
  assert (Forall2 same_rcpt (d_recipients d) (give_headers (length (d_msgheaders d)) (Z.of_nat off + 2) (d_recipients d))) as Hs
    by apply give_headers_same.
  split; [by eapply opened_pure | by apply same_ids].
Qed.

(** What a line does: the file stays opened, nothing is reported, and a lock is
    taken for this line at most. *)
Definition line_done (off : nat) (d : ctldesc) (t : ta_state) (d' : ctldesc) (t' : ta_state) : Prop :=
  opened b offs d' t' /\ said_nothing t t' /\
  (r_id <$> d_recipients d' = r_id <$> d_recipients d \/ r_id <$> d_recipients d' = off :: (r_id <$> d_recipients d)).

Lemma opened_ids d t : opened b offs d t -> Forall good_id (r_id <$> d_recipients d).
Proof.
  intros Ho. pose proof (op_taken _ _ _ _ Ho) as Ht. rewrite Forall_forall in Ht. apply Forall_forall. intros id (rp & -> & Hin)%list_elem_of_fmap.
  destruct (Ht rp Hin) as (? & ? & ? & _). done.
Qed.

Lemma line_done_pure off d t d' : opened b offs d t -> only_zeroed b (d_contents d') -> d_recipients d' = d_recipients d ->
  line_done off d t d' t.
Proof.
  intros Ho Hz Hr. split_and!; [|done | left; by rewrite Hr]. eapply opened_pure; [done | done |].
  rewrite Hr. apply same_rcpts_refl.
Qed.

Lemma take_recipient_opened ch host sel off d sender t : opened b offs d t -> off ∈ offs -> at_ b off = $"r" ->
  off ∉ (r_id <$> d_recipients d) ->
  wpx (take_recipient ch host sel off d sender) (fun _ _ => False) (line_done off d t) t.
Proof.
  intros Ho Hoff Hr Hni. unfold take_recipient.
  destruct (if flag_set _ _ || _ || _ then _ else _) as [delayslot s].
  pose proof (ctladdr_zeroed b (d_contents d) s (op_contents _ _ _ _ Ho)) as Hz.
  destruct (ctladdr (d_contents d) s) as [ap c]. cbn [snd] in Hz. cbv zeta.
  apply wpx_if; intros _; [apply wpx_ret; by apply line_done_pure|].
  destruct (select _ _ _ _ _) as [hostref chosen]. apply wpx_if; intros _; [apply wpx_ret; by apply line_done_pure|].
  apply wpx_bind. unfold wpx at 1.
  destruct (take_lock (r_id <$> d_recipients d) off t (op_map _ _ _ _ Ho) (op_file _ _ _ _ Ho) (opened_ids _ _ Ho) Hoff Hr Hni)
    as (t' & E & Hm & Hout & Hf).
  rewrite E. destruct (tag b (S off) =? _CFTAG_NORMAL) eqn:Et; cbn [negb]; apply wpx_ret; split_and!; try done; [|by right| |by left].
  - constructor; cbn; [done | done | done | | ].
    + constructor; [|apply (op_taken _ _ _ _ Ho)]. apply Z.eqb_eq in Et. unfold lock_taken. cbn. split_and!; done.
    + constructor; [done | apply (op_nodup _ _ _ _ Ho)].
  - constructor; cbn; [done | done | done | apply (op_taken _ _ _ _ Ho) | apply (op_nodup _ _ _ _ Ho)].
Qed.

Lemma recipient_line_opened ch host sel off d t : opened b offs d t -> off ∈ offs -> at_ b off = $"r" ->
  off ∉ (r_id <$> d_recipients d) ->
  wpx (recipient_line ch host sel off d) (fun _ _ => False) (line_done off d t) t.
Proof.
  intros Ho Hoff Hr Hni. unfold recipient_line. cbv zeta. set (d1 := set_d_rcpnts_total _ d). set (tg := at_ _ _).
  set (d2 := if tg =? _CFTAG_NOTOK then _ else _).
  assert (d_recipients d2 = d_recipients d /\ d_contents d2 = d_contents d) as [Hrd Hcd]
    by (subst d2; destruct (tg =? _CFTAG_NOTOK); [done|]; by destruct (negb _)).
  assert (opened b offs d2 t) as Ho2.
  { apply (line_done_pure off d t d2); [done | rewrite Hcd; apply (op_contents _ _ _ _ Ho) | done]. }
  assert (line_done off d t d2 t) as Hd2 by (split_and!; [done | done | left; by rewrite Hrd]).
  destruct (d_senders d2) as [|sender senders]; [by apply wpx_ret|]. apply wpx_if; intros _; [|by apply wpx_ret].
  eapply wpx_mono; [apply take_recipient_opened; [done | done | done | by rewrite Hrd] | done|].
  cbn. intros d' t' (H1 & H2 & H3). rewrite Hrd in H3. done.
Qed.

Lemma ctl_line_opened ch host sel off d t : opened b offs d t -> off ∈ offs -> off ∉ (r_id <$> d_recipients d) ->
  wpx (ctl_line ch host sel off d) (fun _ _ => False) (line_done off d t) t.
Proof.
  intros Ho Hoff Hni. unfold ctl_line. cbv zeta. pose proof (op_contents _ _ _ _ Ho) as Hz.
  assert (forall d', d_contents d' = d_contents d -> d_recipients d' = d_recipients d -> line_done off d t d' t) as Hpure.
  { intros d' Hc Hr. apply line_done_pure; [done | by rewrite Hc | done]. }
  apply wpx_if; intros _; [apply wpx_ret; apply Hpure; by destruct (negb _)|].
  apply wpx_if; intros _.
  { pose proof (ctladdr_zeroed b (d_contents d) (off + 2) Hz) as Hz'. destruct (ctladdr _ _). apply wpx_ret. by apply line_done_pure. }
  apply wpx_if; intros Hx.
  { apply recipient_line_opened; [done | done | | done]. apply Z.eqb_eq in Hx. destruct (Hz off) as [H0 | H0]; congruence. }
  apply wpx_if; intros _; [apply wpx_ret; destruct (notary_line_opened off d t Ho) as [H1 H2]; split_and!; [done | done | by left]|].
  apply wpx_if; intros _; [apply wpx_ret; destruct (headers_line_opened off d t Ho) as [H1 H2]; split_and!; [done | done | by left]|].
  repeat (apply wpx_if; intros _; [apply wpx_ret; by apply Hpure|]). apply wpx_ret. by apply Hpure.
Qed.

Lemma ctl_lines_opened ch host sel ls : forall d t, opened b offs d t -> NoDup ls -> (forall off, off ∈ ls -> off ∈ offs) ->
  (forall off, off ∈ ls -> off ∉ (r_id <$> d_recipients d)) ->
  wpx (ctl_lines ch host sel ls d) (fun _ _ => False) (fun d' t' => opened b offs d' t' /\ said_nothing t t') t.
Proof.
  induction ls as [|off ls IH]; intros d t Ho Hnd Hin Hni; cbn [ctl_lines]; [by apply wpx_ret|].
  apply wpx_if; intros _; [by apply wpx_ret|]. apply wpx_bind. apply NoDup_cons in Hnd as [Hnoff Hnd].
  eapply wpx_mono; [apply ctl_line_opened; [done | apply Hin; by left | apply Hni; by left] | done|].
  cbn. intros d' t' (Ho' & [Hout Hzf] & Hids). unfold said_nothing. rewrite <- Hout, <- Hzf. apply IH; [done | done | |].
  - intros x Hx. apply Hin. by right.
  - intros x Hx Hx'. assert (x ∉ (r_id <$> d_recipients d)) as Hx0 by (apply Hni; by right).
    destruct Hids as [Hids | Hids]; rewrite Hids in Hx'; [done|]. apply elem_of_cons in Hx' as [-> | Hx']; done.
Qed.

(** Giving the lock back that was taken last. *)
Lemma give_back id ids mark t : t_map t = false -> f_bytes (t_fd t) = lock_all (id :: ids) b -> Forall good_id (id :: ids) ->
  id ∉ ids -> mark ∈ [_CFTAG_DEFER; _CFTAG_OK; _CFTAG_NOTOK] ->
  exists fd', ta_lockaddr (S id) _CFTAG_LOCK mark t = (inr true, set_t_fd fd' t) /\
    f_bytes fd' = overlay (S id) (mark :: blanks6) (lock_all ids b).
Proof.
  intros Hm Hf Hg Hni Hmark. pose proof Hg as [(Ho & Hr & Ht) Hg']%Forall_cons_1.
  pose proof (lock_all_slot ids id Hg' Ho Hr Hni) as Hs. pose proof (slot_room _ _ Hs) as Hroom.
  assert (region (S id) ENTRY (lock_all (id :: ids) b) = locked_by ta_pid) as Hreg.
  { cbn [lock_all foldr]. fold (lock_all ids b). rewrite <- (locked_by_length ta_pid). apply region_overlay. by rewrite locked_by_length. }
  assert (tag_slot (lock_all (id :: ids) b) (S id)) as Hs2.
  { destruct Hs as [Hl _]. split; [by rewrite (lock_all_length (id :: ids)) by done; rewrite (lock_all_length ids) in Hl by done|].
    replace (S (S id)) with (S id + 1)%nat by lia. rewrite <- (nth_region 1 (S id) ENTRY) by (unfold ENTRY, _CFTAG_RCPTPIDSIZE; lia).
    rewrite Hreg. pose proof (pid_text_chars ta_pid pid) as Hc. pose proof (pid_text_length ta_pid) as Hpl.
    unfold locked_by. destruct (pid_text ta_pid) as [|x xs]; [done|]. cbn in *. by apply andb_prop in Hc as [? _]. }
  unfold ta_lockaddr. rewrite Hm. rewrite <- Hf in Hs2.
  destruct (lockaddr_spec (S id) _CFTAG_LOCK mark (t_fd t) disk Hs2) as (pos & mode & ->).
  fold (tag (f_bytes (t_fd t)) (S id)). rewrite tag_region, Hf, Hreg. cbn [hd locked_by]. rewrite Z.eqb_refl.
  eexists. split; [done|]. cbn [f_bytes].
  assert (lock_text _CFTAG_LOCK mark (region (S (S id)) _CFTAG_RCPTPIDSIZE (lock_all (id :: ids) b)) = mark :: blanks6) as ->.
  { rewrite !elem_of_cons in Hmark. by destruct Hmark as [-> | [-> | [-> | []%elem_of_nil]]]. }
  cbn [lock_all foldr]. fold (lock_all ids b). apply overlay_twice; rewrite locked_by_length; done.
Qed.

Lemma defer_restores id ids : Forall good_id (id :: ids) -> id ∉ ids ->
  overlay (S id) (_CFTAG_DEFER :: blanks6) (lock_all ids b) = lock_all ids b.
Proof.
  intros [(Ho & Hr & Ht) Hg]%Forall_cons_1 Hni. pose proof (lock_all_slot ids id Hg Ho Hr Hni) as Hs.
  pose proof (overlay_region (S id) ENTRY (lock_all ids b) (slot_room _ _ Hs)) as E.
  rewrite lock_all_other, (rf_blank _ _ file) in E by done. exact E.
Qed.
End opening.

(** ** Giving locks back *)

Section closing.
Context `{TaEnv}.
Hypothesis disk : disk_works.
Hypothesis pid : 0 <= ta_pid.

(** An agent between two steps of a diagnostic: [t'] has the same file. *)
Definition same_ctlfile (t t' : ta_state) : Prop := t_map t' = t_map t /\ t_fd t' = t_fd t.

Lemma need_action_spec rc t : wpx (need_action rc) (fun _ _ => False) (fun _ t' => same_ctlfile t t' /\ t_out t' = t_out t) t.
Proof. unfold need_action. apply wpx_bind, wpx_read. destruct (n_A2 _); [apply wpx_ret | apply wpx_update]; done. Qed.

Lemma wpx_give_back b offs id ids mark E (Q : bool -> ta_state -> Prop) t :
  router_file b offs -> Forall (good_id b offs) (id :: ids) -> id ∉ ids -> mark ∈ [_CFTAG_DEFER; _CFTAG_OK; _CFTAG_NOTOK] ->
  t_map t = false -> f_bytes (t_fd t) = lock_all (id :: ids) b ->
  (forall fd', f_bytes fd' = overlay (S id) (mark :: blanks6) (lock_all ids b) -> Q true (set_t_fd fd' t)) ->
  wpx (ta_lockaddr (S id) _CFTAG_LOCK mark) E Q t.
Proof.
  intros Hfile Hg Hni Hmark Hm Hf HQ. unfold wpx.
  destruct (give_back b offs disk Hfile pid id ids mark t Hm Hf Hg Hni Hmark) as (fd' & -> & Hb). by apply HQ.
Qed.

(** The end of a diagnostic for a recipient whose lock was taken last: the
    result, and the agent afterwards. *)
Definition diagnosed (b : list Z) (ids : list nat) (mark : Z) (t : ta_state) (rp rp' : rcpt) (t' : ta_state) : Prop :=
  r_lockoffset rp' = O /\ t_map t' = false /\
  f_bytes (t_fd t') = overlay (S (r_id rp)) (mark :: blanks6) (lock_all ids b) /\ exists line, t_out t' = t_out t ++ [line].

Section one.
Variables (b : list Z) (offs : list nat) (rp : rcpt) (ids : list nat).
Hypothesis Hfile : router_file b offs.
Hypothesis Hrp : lock_taken b offs rp.
Hypothesis Hids : Forall (good_id b offs) ids.
Hypothesis Hni : r_id rp ∉ ids.

Lemma good_ids : Forall (good_id b offs) (r_id rp :: ids).
Proof. destruct Hrp as (? & ? & ? & _). by constructor. Qed.

Lemma malloc_report_spec ctlid rc t : t_map t = false -> f_bytes (t_fd t) = lock_all (r_id rp :: ids) b ->
  wpx (malloc_report ctlid (set_r_status rc rp)) (fun _ _ => False) (diagnosed b ids _CFTAG_DEFER t rp) t.
Proof.
  intros Hm Hf. destruct Hrp as (_ & _ & _ & Hlo & _). unfold malloc_report. cbn [r_lockoffset set_r_status]. rewrite Hlo.
  cbn [Nat.eqb]. apply wpx_bind, wpx_read, wpx_bind, wpx_update, wpx_bind.
  eapply wpx_give_back; [done | apply good_ids | done | by left | exact Hm | exact Hf |].
  intros fd' Hb. apply wpx_ret. split_and!; [done | done | done | by eexists].
Qed.

(** Reports of temporary errors. *)
Lemma verdict_temporary rc timeout success : rc ∈ temporary ->
  exists statmsg, diag_verdict rc timeout success = (statmsg, _CFTAG_DEFER, false).
Proof.
  intros Hrc. unfold diag_verdict, temporary in *. rewrite !elem_of_cons in Hrc.
  destruct Hrc as [-> | [-> | [-> | [-> | [-> | []%elem_of_nil]]]]]; by eexists.
Qed.

Lemma diag_report_deferred ctlid rc timeout message t : rc ∈ temporary ->
  t_map t = false -> f_bytes (t_fd t) = lock_all (r_id rp :: ids) b ->
  wpx (diag_report ctlid (set_r_status rc rp) rc timeout message) (fun _ _ => False) (diagnosed b ids _CFTAG_DEFER t rp) t.
Proof.
  intros Hrc Hm Hf. destruct Hrp as (_ & _ & _ & Hlo & Hsm). unfold diag_report. cbv zeta.
  cbn [r_lockoffset r_notifyflgs set_r_status]. rewrite Hlo. cbn [Nat.eqb negb].
  destruct (verdict_temporary rc timeout (flag_set (r_notifyflgs rp) _DSN_NOTIFY_SUCCESS) Hrc) as [statmsg ->].
  rewrite !(small_flag (r_notifyflgs rp)) by done. cbn [andb negb]. rewrite andb_false_r.
  apply wpx_bind, wpx_update, wpx_bind, wpx_read, wpx_bind, wpx_ret, wpx_bind, wpx_update, wpx_bind.
  eapply wpx_give_back; [done | apply good_ids | done | by left | exact Hm | exact Hf |].
  intros fd' Hb. apply wpx_ret. split_and!; [done | done | done | by eexists].
Qed.

(** A recipient that is deferred. *)
Lemma deferred_spec ctlid rc timeout fmt args t : rc ∈ temporary ->
  t_map t = false -> f_bytes (t_fd t) = lock_all (r_id rp :: ids) b ->
  wpx (diagnostic ctlid false rp rc timeout fmt args) (fun _ _ => False)
    (fun rp' t' => r_lockoffset rp' = O /\ t_map t' = false /\ f_bytes (t_fd t') = lock_all ids b /\
       exists line, t_out t' = t_out t ++ [line]) t.
Proof.
  intros Hrc Hm Hf. pose proof Hrp as (_ & _ & _ & Hlo & Hsm). unfold diagnostic. rewrite Hlo. cbn [Nat.eqb andb]. cbv zeta.
  apply wpx_bind. eapply wpx_mono; [apply need_action_spec | done|]. cbn. intros [] t1 [[Hm1 Hf1] Hout1].
  rewrite <- Hm1 in Hm. rewrite <- Hf1 in Hf. apply wpx_bind, wpx_read.
  assert (forall rp' t', diagnosed b ids _CFTAG_DEFER t1 rp rp' t' ->
    r_lockoffset rp' = O /\ t_map t' = false /\ f_bytes (t_fd t') = lock_all ids b /\ exists line, t_out t' = t_out t ++ [line]) as Hd.
  { intros rp' t' (D1 & D2 & D3 & D4). rewrite Hout1 in D4. split_and!; [done | done | | done]. rewrite D3.
    eapply defer_restores; [done | apply good_ids | done]. }
  apply wpx_if; intros _; (eapply wpx_mono; [first [by apply malloc_report_spec | by apply diag_report_deferred] | done | exact Hd]).
Qed.
End one.

(** *** All recipients *)

Lemma taken_ids b offs rps : Forall (lock_taken b offs) rps -> Forall (good_id b offs) (r_id <$> rps).
Proof.
  intros Ht. rewrite Forall_forall in Ht. apply Forall_forall. intros id (x & -> & Hx)%list_elem_of_fmap.
  destruct (Ht x Hx) as (? & ? & ? & _). done.
Qed.

(** Every lock that is left is given back. *)
Lemma defer_all b offs ctlid rc msg rps : rc ∈ temporary -> router_file b offs -> forall t,
  Forall (lock_taken b offs) rps -> NoDup (r_id <$> rps) ->
  t_map t = false -> f_bytes (t_fd t) = lock_all (r_id <$> rps) b ->
  wpx (diagnose_all ctlid rc msg rps) (fun _ _ => False)
    (fun rps' t' => Forall (fun rp => r_lockoffset rp = O) rps' /\ f_bytes (t_fd t') = b /\
       exists lines, t_out t' = t_out t ++ lines /\ length lines = length rps) t.
Proof.
  intros Hrc Hfile. induction rps as [|rp rps IH]; intros t Ht Hn Hm Hf; cbn [diagnose_all].
  { apply wpx_ret. split_and!; [constructor | done | exists []; by rewrite app_nil_r]. }
  apply Forall_cons_1 in Ht as [Hrp Ht]. cbn [fmap list_fmap] in Hn, Hf. apply NoDup_cons in Hn as [Hni Hn].
  pose proof (taken_ids _ _ _ Ht) as Hg.
  apply wpx_bind. eapply wpx_mono; [by eapply deferred_spec | done|]. cbv beta. intros rp' t1 (H1 & H2 & H3 & line & H4).
  apply wpx_bind. eapply wpx_mono; [by apply IH | done|]. cbv beta. intros rps' t2 (G1 & G2 & lines & G3 & G4). apply wpx_ret.
  split_and!; [by constructor | done |]. exists (line :: lines). rewrite G3, H4, <- app_assoc. cbn. split; [done | lia].
Qed.
End closing.

(** ** Bytes over bytes, one by one *)

Lemma overlay_lookup n l b i : (n + length l <= length b)%nat ->
  overlay n l b !! i = if decide (n <= i < n + length l)%nat then l !! (i - n)%nat else b !! i.
Proof.
  intros Hl. rewrite overlay_inside by done. destruct (decide (i < n)%nat).
  - rewrite decide_False by lia. rewrite lookup_app_l by (rewrite length_take; lia). by apply lookup_take_lt.
  - rewrite lookup_app_r by (rewrite length_take; lia). rewrite length_take, Nat.min_l by lia. case_decide.
    + by rewrite lookup_app_l by lia.
    + rewrite lookup_app_r by lia. rewrite lookup_drop. f_equal. lia.
Qed.

Lemma overlay_comm n m l1 l2 b : (n + length l1 <= length b)%nat -> (m + length l2 <= length b)%nat ->
  (n + length l1 <= m \/ m + length l2 <= n)%nat -> overlay n l1 (overlay m l2 b) = overlay m l2 (overlay n l1 b).
Proof.
  intros H1 H2 Ha. apply list_eq. intros i. rewrite !overlay_lookup by (rewrite ?overlay_length; done).
  repeat case_decide; try done; lia.
Qed.

Lemma overlay_app n l b x : (n + length l <= length b)%nat -> overlay n l (b ++ x) = overlay n l b ++ x.
Proof.
  intros Hl. rewrite !overlay_inside by (rewrite ?length_app; lia).
  rewrite take_app_le, drop_app_le by lia. by rewrite <- !app_assoc.
Qed.
