(* ===== verification/TaFail.v ===== *)
(** * What a failed delivery does to a control file *)

From Stdlib Require Import ZArith Lia.
From stdpp Require Import base tactics numbers list option sets.
From S2P Require Import Prelude TaFile TaLock TaDiag TaCtl TaOpen.

#[local] Open Scope Z_scope.

(** The entries of [ids] have the mark of a failure; lines may have been
    appended, and the rest is as it was. *)
Record failed_file (b : list Z) (ids : list nat) (b' : list Z) : Prop := {
  ff_marked : forall id, id ∈ ids -> region (S id) ENTRY b' = _CFTAG_NOTOK :: blanks6;
  ff_same : forall i k, (i + k <= length b)%nat ->
    (forall id, id ∈ ids -> i + k <= S id \/ S id + ENTRY <= i)%nat -> region i k b' = region i k b;
  ff_longer : (length b <= length b')%nat
}.

(** A line appended, and a failure marked. *)
Definition fail_mark (id : nat) (x b : list Z) : list Z := overlay (S id) (_CFTAG_NOTOK :: blanks6) (b ++ x).

Section marks.
Context `{TaEnv}.
Variables (b : list Z) (offs : list nat).
Hypothesis file : router_file b offs.

Lemma good_room id : good_id b offs id -> (S id + ENTRY <= length b)%nat.
Proof. intros (Ho & Hr & _). apply slot_room. by apply (rf_slots _ _ file). Qed.

Lemma lock_all_app ids x : Forall (good_id b offs) ids -> lock_all ids (b ++ x) = lock_all ids b ++ x.
Proof.
  induction 1 as [|id ids Hid Hg IH]; [done|]. cbn [lock_all foldr]. fold (lock_all ids (b ++ x)) (lock_all ids b).
  rewrite IH. apply overlay_app. rewrite locked_by_length, (lock_all_length b offs) by done. by apply good_room.
Qed.

Lemma lock_all_overlay id ids l : Forall (good_id b offs) (id :: ids) -> id ∉ ids -> length l = ENTRY ->
  overlay (S id) l (lock_all ids b) = lock_all ids (overlay (S id) l b).
Proof.
  intros [Hid Hg]%Forall_cons_1 Hni Hl. induction Hg as [|x ids Hx Hg IH]; [done|]. apply not_elem_of_cons in Hni as [Hne Hni].
  cbn [lock_all foldr]. fold (lock_all ids b) (lock_all ids (overlay (S id) l b)). rewrite <- IH by done.
  pose proof (good_room id Hid). pose proof (good_room x Hx).
  apply overlay_comm; rewrite ?(lock_all_length b offs), ?locked_by_length, ?Hl by done; [done | done |].
  destruct Hid as (Ho & Hr & _), Hx as (Hxo & Hxr & _). pose proof (rf_apart _ _ file id x Ho Hxo Hr Hxr Hne). lia.
Qed.

Lemma region_app_l i k (y x : list Z) : (i + k <= length y)%nat -> region i k (y ++ x) = region i k y.
Proof. intros Hl. unfold region. rewrite drop_app_le by lia. apply take_app_le. rewrite length_drop. lia. Qed.

Section mark.
Variables (id : nat) (x : list Z).
Hypothesis Hid : good_id b offs id.

Lemma mark_room : (S id + length (_CFTAG_NOTOK :: blanks6) <= length (b ++ x))%nat.
Proof. change (length (_CFTAG_NOTOK :: blanks6)) with ENTRY. pose proof (good_room id Hid). rewrite length_app. lia. Qed.

Lemma mark_region i k : (i + k <= length b)%nat -> (i + k <= S id \/ S id + ENTRY <= i)%nat ->
  region i k (fail_mark id x b) = region i k b.
Proof. intros Hi Ha. unfold fail_mark. rewrite region_apart by (done || apply mark_room). by apply region_app_l. Qed.

Lemma mark_entry : region (S id) ENTRY (fail_mark id x b) = _CFTAG_NOTOK :: blanks6.
Proof. unfold fail_mark. apply (region_overlay (S id) (_CFTAG_NOTOK :: blanks6)). apply mark_room. Qed.

Lemma mark_length : length (fail_mark id x b) = (length b + length x)%nat.
Proof. unfold fail_mark. rewrite overlay_length by apply mark_room. apply length_app. Qed.

Lemma at_region (y : list Z) i : at_ y i = hd 0 (region i 1 y).
Proof. unfold at_, region. rewrite nth_lookup. rewrite <- (Nat.add_0_r i) at 1. rewrite <- lookup_drop. by destruct (drop i y). Qed.

Lemma mark_at off : off ∈ offs -> at_ (fail_mark id x b) off = at_ b off \/ at_ (fail_mark id x b) off <> $"r" /\ (S id <= off < S id + ENTRY)%nat.
Proof.
  intros Ho. pose proof (rf_inside _ _ file off Ho) as Hin. destruct (decide (S id <= off < S id + ENTRY)%nat) as [Hr|Hr].
  - right. split; [|done]. unfold at_, fail_mark. rewrite nth_lookup, overlay_lookup by apply mark_room. rewrite decide_True by done.
    change (_CFTAG_NOTOK :: blanks6) with ($$"-      "). assert (off - S id < 7)%nat as Hlt by (unfold ENTRY, _CFTAG_RCPTPIDSIZE in Hr; lia).
    generalize dependent (off - S id)%nat. intros j Hlt. do 7 (destruct j as [|j]; [vm_compute; discriminate|]). lia.
  - left. rewrite !at_region. f_equal. apply mark_region; lia.
Qed.

Lemma mark_at_r off : off ∈ offs -> at_ b off = $"r" -> at_ (fail_mark id x b) off = $"r".
Proof.
  intros Ho Hr. destruct (mark_at off Ho) as [-> | [_ Hin]]; [done|]. destruct Hid as (Hio & Hir & _).
  destruct (decide (off = id)) as [->|Hne]; [lia|]. pose proof (rf_apart _ _ file off id Ho Hio Hr Hir Hne). lia.
Qed.

Lemma mark_at_inv off : off ∈ offs -> at_ (fail_mark id x b) off = $"r" -> at_ b off = $"r".
Proof. intros Ho Hr. destruct (mark_at off Ho) as [<- | [Hn _]]; done. Qed.

Lemma mark_other off : off ∈ offs -> at_ b off = $"r" -> off <> id -> region (S off) ENTRY (fail_mark id x b) = region (S off) ENTRY b.
Proof.
  intros Ho Hr Hne. destruct Hid as (Hio & Hir & _). pose proof (rf_apart _ _ file off id Ho Hio Hr Hir Hne).
  apply mark_region; [apply slot_room; by apply (rf_slots _ _ file) | lia].
Qed.

Lemma mark_router_file : router_file (fail_mark id x b) offs.
Proof.
  constructor.
  - intros off Ho Hr%(mark_at_inv off Ho). destruct (rf_slots _ _ file off Ho Hr) as [Hl Hc].
    split; [rewrite mark_length; lia|]. replace (S (S off)) with (S off + 1)%nat in * by lia.
    rewrite <- (nth_region 1 (S off) ENTRY) in * by (unfold ENTRY, _CFTAG_RCPTPIDSIZE; lia).
    destruct (decide (off = id)) as [->|Hne]; [by rewrite mark_entry | by rewrite mark_other].
  - intros off Ho Hr%(mark_at_inv off Ho). rewrite region_tag. destruct (decide (off = id)) as [->|Hne]; [by rewrite mark_entry|].
    rewrite mark_other by done. rewrite <- region_tag. by apply (rf_blank _ _ file).
  - intros n m Hn Hm Hnr%(mark_at_inv n Hn) Hmr%(mark_at_inv m Hm). by apply (rf_apart _ _ file).
  - intros off Ho. pose proof (rf_inside _ _ file off Ho). rewrite mark_length. lia.
Qed.

Lemma mark_taken rp : lock_taken b offs rp -> r_id rp <> id -> lock_taken (fail_mark id x b) offs rp.
Proof.
  intros (Ho & Hr & Ht & Hlo & Hsm) Hne. split_and!; [done | by apply mark_at_r | | done | done].
  rewrite region_tag, mark_other, <- region_tag by done. done.
Qed.

Lemma failed_cons ids b' : Forall (good_id b offs) ids -> id ∉ ids -> failed_file (fail_mark id x b) ids b' -> failed_file b (id :: ids) b'.
Proof.
  intros Hg Hni [Hm Hs Hl]. rewrite mark_length in Hl. constructor; [| |lia].
  - intros i [-> | Hi]%elem_of_cons; [|by apply Hm]. rewrite Hs, mark_entry; [done | |].
    + pose proof (good_room id Hid). rewrite mark_length. lia.
    + intros j Hj. rewrite Forall_forall in Hg. destruct (Hg j Hj) as (Hjo & Hjr & _), Hid as (Hio & Hir & _).
      assert (id <> j) as Hne by (intros ->; done). pose proof (rf_apart _ _ file id j Hio Hjo Hir Hjr Hne). lia.
  - intros i k Hi Ha. rewrite Hs, mark_region; [done | done | apply Ha; by left | rewrite mark_length; lia|].
    intros j Hj. apply Ha. by right.
Qed.
End mark.
End marks.

(** ** Lines appended *)

Lemma overlay_end l b : overlay (length b) l b = b ++ l.
Proof.
  unfold overlay. rewrite take_ge by done. rewrite Nat.sub_diag, drop_ge by lia. cbn [replicate app]. by rewrite app_nil_r.
Qed.

Lemma app_at b x off : (off < length b)%nat -> at_ (b ++ x) off = at_ b off.
Proof. intros Hl. unfold at_. by rewrite !nth_lookup, lookup_app_l. Qed.

Lemma slot_app b x off : tag_slot b off -> tag_slot (b ++ x) off.
Proof.
  intros [Hl Hc]. split; [rewrite length_app; lia|]. unfold LOCKBUF in Hl. fold (at_ (b ++ x) (S off)). rewrite app_at by lia. done.
Qed.

Lemma router_file_app b offs x : router_file b offs -> router_file (b ++ x) offs.
Proof.
  intros file.
  assert (forall off, off ∈ offs -> at_ (b ++ x) off = $"r" -> at_ b off = $"r") as Hr.
  { intros off Ho. by rewrite app_at by by apply (rf_inside _ _ file). }
  constructor.
  - intros off Ho Hof%(Hr off Ho). apply slot_app. by apply (rf_slots _ _ file).
  - intros off Ho Hof%(Hr off Ho). pose proof (rf_slots _ _ file off Ho Hof) as Hs. pose proof (slot_room _ _ Hs) as Hroom.
    rewrite region_tag, region_app_l, <- region_tag by done. by apply (rf_blank _ _ file).
  - intros n m Hn Hm Hnr%(Hr n Hn) Hmr%(Hr m Hm). by apply (rf_apart _ _ file).
  - intros off Ho. pose proof (rf_inside _ _ file off Ho). rewrite length_app. lia.
Qed.

Lemma good_id_app b offs x id : router_file b offs -> good_id b offs id -> good_id (b ++ x) offs id.
Proof.
  intros file (Ho & Hr & Ht). pose proof (rf_slots _ _ file id Ho Hr) as Hs. pose proof (slot_room _ _ Hs).
  split_and!; [done | by rewrite app_at by by apply (rf_inside _ _ file) |].
  rewrite region_tag, region_app_l, <- region_tag by done. done.
Qed.

(** ** Recipients that fail *)

Section failing.
Context `{TaEnv}.
Hypothesis disk : disk_works.
Hypothesis pid : 0 <= ta_pid.

Lemma append_line_spec l t : wpx (append_line l) (fun _ _ => False)
  (fun _ t' => t_map t' = t_map t /\ t_zmalloc_failure t' = t_zmalloc_failure t /\ t_out t' = t_out t /\
     f_bytes (t_fd t') = f_bytes (t_fd t) ++ l) t.
Proof.
  unfold append_line. apply wpx_bind, wpx_read. rewrite fd_write_works by done. apply wpx_update. split_and!; [done..|].
  cbn. apply overlay_end.
Qed.

Definition failed_one (b : list Z) (ids : list nat) (rp : rcpt) (t : ta_state) (rp' : rcpt) (t' : ta_state) : Prop :=
  r_lockoffset rp' = O /\ t_map t' = false /\ t_zmalloc_failure t' = t_zmalloc_failure t /\
  exists x line, f_bytes (t_fd t') = lock_all ids (fail_mark (r_id rp) x b) /\ t_out t' = t_out t ++ [line].

Section one.
Variables (b : list Z) (offs : list nat) (rp : rcpt) (ids : list nat).
Hypothesis Hfile : router_file b offs.
Hypothesis Hrp : lock_taken b offs rp.
Hypothesis Hids : Forall (good_id b offs) ids.
Hypothesis Hni : r_id rp ∉ ids.

Lemma give_back_failed x E (Q : bool -> ta_state -> Prop) t : t_map t = false -> f_bytes (t_fd t) = lock_all (r_id rp :: ids) b ++ x ->
  (forall fd', f_bytes fd' = lock_all ids (fail_mark (r_id rp) x b) -> Q true (set_t_fd fd' t)) ->
  wpx (ta_lockaddr (S (r_id rp)) _CFTAG_LOCK _CFTAG_NOTOK) E Q t.
Proof.
  intros Hm Hf HQ. pose proof (good_ids b offs rp ids Hrp Hids) as Hg.
  assert (Forall (good_id (b ++ x) offs) (r_id rp :: ids)) as Hgx.
  { eapply Forall_impl; [done|]. intros id. by apply good_id_app. }
  rewrite <- (lock_all_app b offs Hfile) in Hf by done.
  eapply (wpx_give_back disk pid (b ++ x) offs); [by apply router_file_app | done | done | by right; right; left | done | done|].
  intros fd' Hb. apply HQ. rewrite Hb. by apply (lock_all_overlay _ offs); [apply router_file_app|..].
Qed.

Lemma diag_report_failed ctlid timeout message t : t_map t = false -> f_bytes (t_fd t) = lock_all (r_id rp :: ids) b ->
  wpx (diag_report ctlid (set_r_status EX_UNAVAILABLE rp) EX_UNAVAILABLE timeout message) (fun _ _ => False) (failed_one b ids rp t) t.
Proof.
  intros Hm Hf. pose proof Hrp as (_ & _ & _ & Hlo & Hsm). unfold diag_report. cbv zeta.
  cbn [r_lockoffset r_notifyflgs set_r_status]. rewrite Hlo. cbn [Nat.eqb negb].
  rewrite (small_flag _ _DSN__DIAGDELAYMODE), (small_flag _ _DSN__TEMPFAIL_NO_UNLOCK) by done.
  change (diag_verdict EX_UNAVAILABLE timeout ?s) with (if ta_logs_diagnostics then $$"error2" else $$"error", _CFTAG_NOTOK, ta_logs_diagnostics).
  cbn [andb negb]. rewrite andb_true_r, andb_false_r.
  apply wpx_bind, wpx_update, wpx_bind, wpx_read, wpx_bind.
  set (t1 := set_t_notary _ t).
  enough (forall x t2, t_map t2 = false -> t_zmalloc_failure t2 = t_zmalloc_failure t -> t_out t2 = t_out t ->
    f_bytes (t_fd t2) = lock_all (r_id rp :: ids) b ++ x -> forall line rp', r_lockoffset rp' = O ->
    wpx (say line;; ta_lockaddr (S (r_id rp)) _CFTAG_LOCK _CFTAG_NOTOK;; mret rp' : TA rcpt) (fun _ _ => False) (failed_one b ids rp t) t2) as Hgo.
  { apply wpx_if; intros _.
    - eapply wpx_mono; [apply append_line_spec | done|]. cbv beta. intros [] t2 (H1 & H2 & H3 & H4).
      apply (Hgo (diag_line (set_r_status EX_UNAVAILABLE rp) (txt (n_notarybuf (t_notary t1))) (no_newlines message)));
        [by rewrite H1 | by rewrite H2 | by rewrite H3 | by rewrite H4, <- Hf | done].
    - apply wpx_ret. apply (Hgo []); [done.. | by rewrite app_nil_r | done]. }
  intros x t2 Hm2 Hz2 Ho2 Hf2 line rp' Hl'. apply wpx_bind, wpx_update, wpx_bind. apply (give_back_failed x); [done | done|].
  intros fd' Hb. apply wpx_ret. split_and!; [done | done | done|]. eexists x, line. cbn. by rewrite Ho2.
Qed.

Lemma failed_spec ctlid timeout fmt args t : t_zmalloc_failure t = false ->
  t_map t = false -> f_bytes (t_fd t) = lock_all (r_id rp :: ids) b ->
  wpx (diagnostic ctlid false rp EX_UNAVAILABLE timeout fmt args) (fun _ _ => False) (failed_one b ids rp t) t.
Proof.
  intros Hz Hm Hf. pose proof Hrp as (_ & _ & _ & Hlo & _). unfold diagnostic. rewrite Hlo. cbn [Nat.eqb andb]. cbv zeta.
  apply wpx_bind. unfold need_action. apply wpx_bind, wpx_read.
  enough (forall n, wpx (zfail ← read t_zmalloc_failure;
    if zfail && negb (flag_set (r_notifyflgs (set_r_status EX_UNAVAILABLE rp)) _DSN__DIAGDELAYMODE)
    then malloc_report ctlid (set_r_status EX_UNAVAILABLE rp)
    else diag_report ctlid (set_r_status EX_UNAVAILABLE rp) EX_UNAVAILABLE timeout (diag_message EX_UNAVAILABLE fmt args))
    (fun _ _ => False) (failed_one b ids rp t) (set_t_notary n t)) as Hgo.
  { destruct (n_A2 _); [apply wpx_ret | apply wpx_update; apply Hgo].
    replace t with (set_t_notary (t_notary t) t) at 2 by by destruct t. apply Hgo. }
  intros n. apply wpx_bind, wpx_read. cbn [t_zmalloc_failure set_t_notary]. rewrite Hz. cbn [andb].
  by apply (diag_report_failed ctlid timeout _ (set_t_notary n t)).
Qed.
End one.

Lemma fail_all ctlid msg offs rps : forall b t, router_file b offs -> Forall (lock_taken b offs) rps -> NoDup (r_id <$> rps) ->
  t_zmalloc_failure t = false -> t_map t = false -> f_bytes (t_fd t) = lock_all (r_id <$> rps) b ->
  wpx (diagnose_all ctlid EX_UNAVAILABLE msg rps) (fun _ _ => False)
    (fun rps' t' => Forall (fun rp => r_lockoffset rp = O) rps' /\ failed_file b (r_id <$> rps) (f_bytes (t_fd t')) /\
       exists lines, t_out t' = t_out t ++ lines /\ length lines = length rps) t.
Proof.
  induction rps as [|rp rps IH]; intros b t Hfile Ht Hn Hz Hm Hf; cbn [diagnose_all].
  { apply wpx_ret. split_and!; [constructor | | exists []; by rewrite app_nil_r]. cbn in Hf. rewrite Hf. constructor; [|done..].
    by intros id []%elem_of_nil. }
  apply Forall_cons_1 in Ht as [Hrp Ht]. cbn [fmap list_fmap] in Hn, Hf |- *. apply NoDup_cons in Hn as [Hni Hn].
  pose proof (taken_ids _ _ _ Ht) as Hg. pose proof Hrp as (Ho & Hr & Htag & _).
  apply wpx_bind. eapply wpx_mono; [by apply (failed_spec b offs rp (r_id <$> rps)) | done|].
  cbv beta. intros rp' t1 (H1 & H2 & H3 & x & line & H4 & H5). apply wpx_bind.
  eapply wpx_mono; [apply (IH (fail_mark (r_id rp) x b)) | done|].
  - by apply mark_router_file.
  - rewrite Forall_forall in Ht. apply Forall_forall. intros y Hy. apply mark_taken; [done | done | by apply Ht|].
    intros He. apply Hni. rewrite <- He. apply list_elem_of_fmap. by exists y.
  - done.
  - congruence.
  - done.
  - done.
  - cbv beta. intros rps' t2 (G1 & G2 & lines & G3 & G4). apply wpx_ret. split_and!; [by constructor | |].
    + eapply failed_cons; done.
    + exists (line :: lines). rewrite G3, H5, <- app_assoc. cbn. split; [done | lia].
Qed.
End failing.
