(* ===== verification/TaProps.v ===== *)
(** * Properties of the control files of the transport agents *)

From Stdlib Require Import ZArith Lia.
From stdpp Require Import base tactics numbers list option sets relations.
From S2P Require Import Prelude SpoolId TaFile TaLock TaDiag TaCtl TaOpen TaFail.

#[local] Open Scope Z_scope.

(** ** An agent for examples *)

(** An agent with process id 42 whose disk works and whose message files can be
    opened. *)
Definition demo_agent : TaEnv :=
  Build_TaEnv None false 42 1000 true (fun l => length l) (fun _ => Some (MsgStat true 1000 17 0 0)).

Lemma demo_disk : @disk_works demo_agent.
Proof. intros l. cbn. lia. Qed.

(** ** Opening and closing *)

Section open_close.
Context `{TaEnv}.
Hypothesis disk : disk_works.
Hypothesis pid : 0 <= ta_pid.

(** Recipients without a lock are not diagnosed. *)
Lemma diagnose_none ctlid rc msg rps t : Forall (fun rp => r_lockoffset rp = O) rps ->
  diagnose_all ctlid rc msg rps t = (inr rps, t).
Proof.
  induction 1 as [|rp rps Hl Hr IH]; [done|]. cbn [diagnose_all]. unfold diagnostic. rewrite Hl. cbn [Nat.eqb negb andb].
  unfold mbind, ex_bind, mret, ex_ret. by rewrite IH.
Qed.

Lemma undiagnosed_none d rps : Forall (fun rp => r_lockoffset rp = O) rps -> concat (undiagnosed d <$> rps) = [].
Proof. induction 1 as [|rp rps Hl Hr IH]; [done|]. cbn [fmap list_fmap concat]. unfold undiagnosed at 1. by rewrite Hl, IH. Qed.

Lemma close_unlocked d t : Forall (fun rp => r_lockoffset rp = O) (d_recipients d) ->
  wpx (ctlclose d) (fun _ _ => False) (fun _ t' => t' = t) t.
Proof.
  intros Hl. unfold ctlclose. apply wpx_bind. unfold wpx at 1. rewrite diagnose_none by done. apply wpx_update.
  rewrite undiagnosed_none, app_nil_r by done. by destruct t.
Qed.

Lemma give_up_spec b offs d msg t : router_file b offs -> opened b offs d t -> t_zmalloc_failure t = false ->
  wpx (open_failed d msg) (fun _ _ => False) (fun r t' => r = None /\ failed_file b (r_id <$> d_recipients d) (f_bytes (t_fd t')) /\
    exists lines, t_out t' = t_out t ++ lines /\ length lines = length (d_recipients d)) t.
Proof.
  intros Hfile [Hm Hz Hf Ht Hn] Hzf. unfold open_failed. apply wpx_bind. eapply wpx_mono; [by eapply fail_all | done|].
  cbv beta. intros rps t1 (H1 & H2 & H3). apply wpx_bind. eapply wpx_mono; [by apply close_unlocked | done|].
  cbv beta. intros [] t2 ->. apply wpx_ret. done.
Qed.
End open_close.

(** What the result of ctlopen() says of the control file [b]: a descriptor
    comes with the locks of its recipients and nothing else is changed; without
    one, the recipients whose message file cannot be used are marked as failed,
    and reported. *)
Definition open_outcome `{TaEnv} (b : list Z) (offs : list nat) (t : ta_state) (r : option ctldesc) (t' : ta_state) : Prop :=
  match r with
  | Some d => d_recipients d <> [] /\ opened b offs d t' /\ t_out t' = t_out t
  | None => exists ids, failed_file b ids (f_bytes (t_fd t')) /\
      exists lines, t_out t' = t_out t ++ lines /\ length lines = length ids
  end.

Lemma failed_nothing b : failed_file b [] b.
Proof. constructor; [by intros id []%elem_of_nil | done | done]. Qed.

Lemma open_outcome_none `{TaEnv} b offs t t' : f_bytes (t_fd t') = b -> t_out t' = t_out t -> open_outcome b offs t None t'.
Proof.
  intros Hf Ho. exists []. rewrite Hf. split; [apply failed_nothing|]. exists []. by rewrite app_nil_r.
Qed.

Section open_spec.
Context `{TaEnv}.
Hypothesis disk : disk_works.
Hypothesis pid : 0 <= ta_pid.

Lemma open_message_spec b offs file d t t0 : router_file b offs -> opened b offs d t -> t_zmalloc_failure t = false ->
  d_recipients d <> [] -> t_out t = t_out t0 ->
  wpx (open_message file d) (fun e _ => e = NullPointer) (open_outcome b offs t0) t.
Proof.
  intros Hfile Ho Hz Hne Hout. unfold open_message. destruct (d_msgfile d); [|by apply wpx_exit].
  assert (forall msg, wpx (open_failed d msg) (fun e _ => e = NullPointer) (open_outcome b offs t0) t) as Hgive.
  { intros msg. eapply wpx_mono; [by eapply give_up_spec | done|]. cbv beta. intros r t1 (-> & Hf & Hl). rewrite Hout in Hl.
    destruct Hl as (lines & H1 & H2). eexists. split; [done|]. exists lines. by rewrite length_fmap. }
  destruct (message_file _) as [st|]; [|apply Hgive]. apply wpx_if; intros _; [apply Hgive|]. apply wpx_ret.
  split_and!; [done | | done]. eapply opened_pure; [done | apply (op_contents _ _ _ _ Ho) | apply same_rcpts_refl].
Qed.
End open_spec.

Lemma ctlopen_spec `{TaEnv} (file : list Z) (channel host : option (list Z)) (exitflag : bool) (sel : selector)
    (t : ta_state) (c : list Z) (offs : list nat) :
  disk_works -> 0 <= ta_pid -> t_map t = false -> t_zmalloc_failure t = false ->
  markoff (f_bytes (t_fd t)) = Some (c, offs) -> router_file (f_bytes (t_fd t)) offs ->
  wpx (ctlopen file channel host exitflag sel) (fun e _ => e = NullPointer) (open_outcome (f_bytes (t_fd t)) offs t) t.
Proof.
  intros Hd Hp Hm Hz Hoff Hfile. set (b := f_bytes (t_fd t)) in *. unfold ctlopen.
  apply wpx_bind, wpx_read, wpx_bind, wpx_update. fold b. set (t1 := set_t_fd _ t). rewrite Hoff.
  apply wpx_if; intros _; [apply wpx_ret; by apply open_outcome_none|]. apply wpx_bind.
  eapply wpx_mono; [apply (ctl_lines_opened b offs Hd Hfile) | done|].
  - constructor; cbn; [done | by eapply markoff_zeroed | done | constructor | constructor].
  - by eapply markoff_nodup.
  - done.
  - intros off _ []%elem_of_nil.
  - cbv beta. intros d t2 (Ho & [Hout Hzf]). destruct (d_recipients d) as [|rp rps] eqn:Er.
    + apply wpx_ret. apply open_outcome_none; [|done]. rewrite (op_file _ _ _ _ Ho), Er. done.
    + apply open_message_spec; [done | done | done | done | by rewrite Hzf | by rewrite Er | done].
Qed.


(** A program that opens a control file and closes it again. *)
Definition open_and_close `{TaEnv} (file : list Z) (channel host : option (list Z)) (exitflag : bool) (sel : selector) : TA (option ctldesc) :=
  r ← ctlopen file channel host exitflag sel;
  match r with Some d => ctlclose d;; mret r | None => mret r end.


(** *** A control file *)

(** A test for [router_file]. *)
Definition router_ok (b : list Z) (offs : list nat) : bool :=
  let is_r off := at_ b off =? $"r" in
  forallb (fun off => (off <? length b)%nat && (negb (is_r off) ||
    ((S off + LOCKBUF <=? length b)%nat && pid_char (nth (S (S off)) b 0) &&
     (negb (tag b (S off) =? _CFTAG_NORMAL) || bool_decide (region (S off) ENTRY b = _CFTAG_NORMAL :: blanks6))))) offs &&
  forallb (fun n => forallb (fun m => (n =? m)%nat || negb (is_r n) || negb (is_r m) || (n + ENTRY <? m)%nat || (m + ENTRY <? n)%nat) offs) offs.

Lemma router_ok_sound b offs : router_ok b offs = true -> router_file b offs.
Proof.
  unfold router_ok. intros [H1 H2]%andb_prop. rewrite forallb_forall in H1, H2.
  assert (forall off, off ∈ offs -> (off < length b)%nat /\ (at_ b off = $"r" -> tag_slot b (S off) /\
    (tag b (S off) = _CFTAG_NORMAL -> region (S off) ENTRY b = _CFTAG_NORMAL :: blanks6))) as H.
  { intros off Ho%list_elem_of_In. specialize (H1 off Ho). apply andb_prop in H1 as [Hl%Nat.ltb_lt Hr]. split; [done|].
    intros E. rewrite E, Z.eqb_refl in Hr. cbn [negb orb] in Hr. apply andb_prop in Hr as [[Hs%Nat.leb_le Hc]%andb_prop Ht].
    split; [by split|]. intros Et. rewrite Et, Z.eqb_refl in Ht. cbn [negb orb] in Ht. by apply bool_decide_eq_true in Ht. }
  constructor.
  - intros off Ho Hr. by apply H.
  - intros off Ho Hr. by apply H.
  - intros n m Hn%list_elem_of_In Hm%list_elem_of_In Hnr Hmr Hne. specialize (H2 n Hn). rewrite forallb_forall in H2.
    specialize (H2 m Hm). rewrite Hnr, Hmr, Z.eqb_refl in H2. rewrite (proj2 (Nat.eqb_neq _ _)) in H2 by done.
    cbn [negb orb] in H2. apply orb_prop in H2 as [H2 | H2]; apply Nat.ltb_lt in H2; lia.
  - intros off Ho. by apply H.
Qed.

Definition join_lines (ls : list (list Z)) : list Z := concat ((fun l => l ++ [10]) <$> ls).
Definition demo_file : list Z := join_lines
  [$$"@ 0x00000007"; $$"i 17"; $$"o 10"; $$"l <id>"; $$"s local - root 0";
   $$"r           smtp a.org u1@a.org 0"; $$"r           local - u2 0"; $$"r           smtp b.org u3@b.org 0";
   $$"m"; $$"Subject: x"; []].
Definition demo_start : ta_state :=
  TaState (Ctlfd demo_file 0 None) false (Notary None None None None None None None None 0) [] false.

Definition marks_of (b : list Z) : list Z * list nat := default ([], []) (markoff b).
Lemma demo_marks : markoff demo_file = Some ((marks_of demo_file).1, (marks_of demo_file).2).
Proof. vm_compute. reflexivity. Qed.
Lemma demo_router_file : router_file demo_file (marks_of demo_file).2.
Proof. apply router_ok_sound. vm_compute. reflexivity. Qed.



(** The descriptor has the two recipients of the channel. *)
Example demo_opened : match (@ctlopen demo_agent ($$"17") (Some ($$"smtp")) None false NoSelect demo_start).1 with
  | inr (Some d) => (fun rp => ctlstr (d_contents d) (a_user (r_addr rp))) <$> d_recipients d = [$$"u3@b.org"; $$"u1@a.org"]
  | _ => False
  end.
Proof. vm_compute. reflexivity. Qed.

(** ** Locks *)


Definition agents_env (p : Z) : TaEnv := Build_TaEnv None false p 1000 true (fun l => length l) (fun _ => None).
Definition demo_slots : list Z := $$"r           smtp a.org u1 0" ++ [10].


(** Calls that overlap: two agents that read the entry before either has
    written it both get the lock, and the file has the process id of the one
    that wrote last. *)
Lemma lock_race (env : Z -> TaEnv) (p q : Z) (n : nat) (b : list Z) :
  (forall p, @disk_works (env p)) -> (forall p, @ta_pid (env p) = p) -> tag_slot b n -> tag b n = _CFTAG_NORMAL ->
  let text a := @lock_text (env a) _CFTAG_NORMAL _CFTAG_LOCK (region (S n) _CFTAG_RCPTPIDSIZE b) in
  exists buf fdp fdq,
    lock_read false n (Ctlfd b 0 None) = (Some buf, fdp) /\ lock_read false n (Ctlfd b 0 None) = (Some buf, fdq) /\
    nth 0 buf 0 = _CFTAG_NORMAL /\
    (@lock_write (env p) false n _CFTAG_LOCK (text p) (set_pos n fdp)).1 = true /\
    let b1 := f_bytes (@lock_write (env p) false n _CFTAG_LOCK (text p) (set_pos n fdp)).2 in
    (@lock_write (env q) false n _CFTAG_LOCK (text q) (set_pos n (set_bytes b1 fdq))).1 = true /\
    region n ENTRY (f_bytes (@lock_write (env q) false n _CFTAG_LOCK (text q) (set_pos n (set_bytes b1 fdq))).2) = locked_by q.
Proof.
  intros Hd Hp Hs Ht text. pose proof (slot_room _ _ Hs) as Hroom. destruct Hs as [Hl _].
  unfold lock_read. cbn [f_bytes f_pos]. fold (region n LOCKBUF b). rewrite region_length, bool_decide_true by done.
  eexists _, _, _. split; [done|]. split; [done|]. split; [by rewrite nth_region_0 by (unfold LOCKBUF; lia)|].
  assert (forall a, text a = locked_by a) as Htext by (intros a; unfold text, lock_text; rewrite Hp; done).
  unfold lock_write. cbn [negb orb]. rewrite !fd_write_works by done. cbn [fst snd f_bytes f_pos set_pos set_bytes]. rewrite !Htext.
  split; [done|]. split; [done|]. rewrite overlay_twice by (rewrite ?locked_by_length; done).
  rewrite <- (locked_by_length q). apply region_overlay. by rewrite locked_by_length.
Qed.

(** C24: With TA_USE_MMAP only the first lock of a process is written where it
    belongs.  Whether to use the map is decided in the first call; in every
    later call the entry is read from the file, the file is not positioned back
    because there is a map, and the lock is written sixteen bytes behind its
    place: lockaddr() reports success, the entry stays unlocked, and the text
    of the line is overwritten. *)
Theorem mmap_lock_misplaced `{TaEnv} (offset : nat) (fd : ctlfd) (mode : list Z) :
  disk_works -> ta_lockmode fd = Some mode -> tag_slot (f_bytes fd) offset -> tag (f_bytes fd) offset = _CFTAG_NORMAL ->
  let r := lockaddr true offset _CFTAG_NORMAL _CFTAG_LOCK fd in
  r.1 = true /\ f_bytes r.2 = overlay (offset + LOCKBUF) (locked_by ta_pid) (f_bytes fd) /\
  tag (f_bytes r.2) offset = _CFTAG_NORMAL.
Proof.
  intros Hd Hmode [Hl Hc] Ht. unfold lockaddr, lock_mode. rewrite Hmode. unfold lock_read. cbn [f_bytes set_lockmode].
  fold (region offset LOCKBUF (f_bytes fd)). rewrite region_length, bool_decide_true by done.
  rewrite nth_region_0 by (unfold LOCKBUF; lia). unfold tag in Ht. rewrite Ht, Z.eqb_refl.
  rewrite nth_region by (unfold LOCKBUF; lia). replace (offset + 1)%nat with (S offset) by lia.
  unfold pid_char in Hc. rewrite Hc. unfold lock_write. cbn [negb orb]. rewrite fd_write_works by done.
  cbn [fst snd f_bytes f_pos set_pos set_lockmode ta_lockmode]. split; [done|]. split; [done|].
  unfold tag, overlay. rewrite nth_lookup, lookup_app_l by (rewrite length_take; unfold LOCKBUF in *; lia).
  rewrite lookup_take_lt by (unfold LOCKBUF; lia). by rewrite <- nth_lookup.
Qed.

Lemma mmap_lock_misplaced_witness :
  let r := @lockaddr demo_agent true 1 _CFTAG_NORMAL _CFTAG_LOCK (Ctlfd demo_slots 0 (Some ($$"M"))) in
  r.1 = true /\ f_bytes r.2 = $$"r           smtp ~    421 0" ++ [10].
Proof.
  destruct (@mmap_lock_misplaced demo_agent 1 (Ctlfd demo_slots 0 (Some ($$"M"))) ($$"M") demo_disk eq_refl) as (H1 & H2 & _).
  - split; [by vm_compute; lia | reflexivity].
  - reflexivity.
  - cbv zeta. split; [exact H1|]. rewrite H2. vm_compute. reflexivity.
Defined.

(** ** DSN parameters *)

(** The DSN data of a recipient that the agent does not deliver to, here of
    another channel, go to the recipient it took last: u1 asked for nothing
    and gets the flags of u2, so that its failure would not be reported. *)
Example dsn_of_another_recipient :
  let file := join_lines
    [$$"@ 0x00000007"; $$"i 17"; $$"s local - root 0"; $$"r           smtp a.org u1@a.org 0";
     $$"r           local - u2 0"; $$"N NOTIFY=NEVER"; $$"m"; $$"Subject: x"; []] in
  match (@ctlopen demo_agent ($$"17") (Some ($$"smtp")) None false NoSelect (set_t_fd (Ctlfd file 0 None) demo_start)).1 with
  | inr (Some d) => (fun rp => (ctlstr (d_contents d) (a_user (r_addr rp)), r_notifyflgs rp)) <$> d_recipients d = [($$"u1@a.org", _DSN_NOTIFY_NEVER)]
  | _ => False
  end.
Proof. vm_compute. reflexivity. Qed.
