(* ===== verification/TaText.v ===== *)
(** * Properties of the texts of control files and of diagnostics *)

From Stdlib Require Import ZArith Lia.
From stdpp Require Import base tactics numbers list option sets.
From S2P Require Import Prelude SpoolId TaFile TaDiag TaCtl.

#[local] Open Scope Z_scope.

(** ** Fields *)

(** A string that ends in a backslash that quotes nothing. *)
Fixpoint dangling (s : list Z) : bool :=
  match s with
  | [] => false
  | c :: s1 => if c =? 92 then match s1 with [] => true | _ :: s2 => dangling s2 end else dangling s1
  end.

(** A string whose field can be found again. *)
Definition separable (s : list Z) : Prop :=
  forallb not_nul s = true /\ (clean_field false s = true -> dangling s = false).

Lemma not_nul_neq c : not_nul c = true -> (c =? 0) = false.
Proof. unfold not_nul. by intros ?%negb_true_iff. Qed.

(** The reader comes as far as the writer's scan. *)
Lemma skip_clean n : forall quote s c rest, (length s <= n)%nat -> forallb not_nul s = true -> dangling s = false ->
  clean_field quote s = true -> is_blank c = true -> skip821address quote (s ++ c :: rest) = length s.
Proof.
  induction n as [|n IH]; intros quote s c rest Hn Hs Hd Hcl Hb; (destruct s as [|x s]; [|cbn [length] in Hn]); try lia.
  1, 2: cbn in Hcl; apply negb_true_iff in Hcl as ->; cbn [app skip821address length];
    assert (c <> 0 /\ c <> 92 /\ c <> 34) as (H0 & H1 & H2) by (unfold is_blank in Hb; zbool; lia);
    rewrite !(proj2 (Z.eqb_neq c _)) by done; cbn [andb negb]; by rewrite Hb.
  cbn [forallb] in Hs. apply andb_prop in Hs as [Hx%not_nul_neq Hs]. cbn [app skip821address clean_field dangling length] in *.
  rewrite Hx. destruct (x =? 92).
  - destruct s as [|y s]; [done|]. cbn [forallb] in Hs. apply andb_prop in Hs as [Hy%not_nul_neq Hs]. cbn [app length] in *.
    rewrite Hy. do 2 f_equal. apply IH; [lia | done..].
  - destruct (quote && (x =? 34)); [f_equal; apply IH; [lia | done..]|]. destruct (x =? 34); [f_equal; apply IH; [lia | done..]|].
    destruct (negb quote && is_blank x); [done|]. f_equal. apply IH; [lia | done..].
Qed.

Lemma skip_escaped s tail : forallb not_nul s = true ->
  skip821address true (concat (escape <$> s) ++ 34 :: tail) = (length (concat (escape <$> s)) + S (skip821address false tail))%nat.
Proof.
  induction s as [|c s IH]; intros Hs; [done|]. cbn [forallb] in Hs. apply andb_prop in Hs as [Hc%not_nul_neq Hs].
  cbn [fmap list_fmap concat]. unfold escape at 1 3. destruct ((c =? 34) || (c =? 92)) eqn:E.
  - cbn [app skip821address length]. change (92 =? 0) with false. change (92 =? 92) with true. cbn iota. rewrite Hc, IH by done. lia.
  - apply orb_false_iff in E as [E1 E2]. cbn [app skip821address length]. rewrite Hc, E1, E2. cbn [andb negb]. rewrite IH by done. lia.
Qed.

Lemma print_field_skip s c rest : separable s -> is_blank c = true ->
  skip821address false (print_field s ++ c :: rest) = length (print_field s).
Proof.
  intros [Hn Hd] Hb. unfold print_field. destruct s as [|x s]; [by apply (skip_clean 1)|]. destruct (clean_field false (x :: s)) eqn:E.
  - apply (skip_clean (length (x :: s))); auto.
  - rewrite <- !app_assoc. cbn [app skip821address]. change (34 =? 0) with false. change (34 =? 92) with false.
    change (34 =? 34) with true. cbn [andb]. rewrite skip_escaped by done. cbn [length]. rewrite length_app. cbn [length].
    assert (skip821address false (c :: rest) = O) as ->; [|lia].
    apply (skip_clean 0 false [] c rest); done.
Qed.

Lemma print_field_first s : separable s -> exists x f, print_field s = x :: f /\ is_blank x = false.
Proof.
  intros _. unfold print_field. destruct s as [|x s]; [by eexists _, _|]. destruct (clean_field false (x :: s)) eqn:E; [|by eexists _, _].
  exists x, s. split; [done|]. cbn [clean_field] in E. destruct (is_blank x) eqn:Eb; [|done]. exfalso. revert E.
  assert (x <> 92 /\ x <> 34) as [H1 H2] by (unfold is_blank in Eb; zbool; lia). rewrite !(proj2 (Z.eqb_neq x _)) by done. done.
Qed.

Lemma print_field_not_nul s : separable s -> forallb not_nul (print_field s) = true.
Proof.
  intros [Hn _]. unfold print_field. destruct s as [|x s]; [done|]. destruct (clean_field _ _); [done|].
  rewrite !forallb_app. cbn [forallb]. rewrite !andb_true_r. rewrite andb_true_l.
  induction (x :: s) as [|c l IH]; [done|]. cbn [forallb fmap list_fmap concat] in *. apply andb_prop in Hn as [Hc Hn].
  rewrite forallb_app, IH by done. unfold escape. destruct (_ || _); cbn; by rewrite Hc.
Qed.

(** One field of a line that is being cut. *)
Lemma cut_field pre s rest : separable s ->
  let c := pre ++ print_field s ++ $" " :: rest in
  skip_blanks c (length pre) = length pre /\
  cut_here c (length pre + skip821address false (drop (length pre) c)) =
    (pre ++ print_field s ++ 0 :: rest, S (length pre + length (print_field s))).
Proof.
  intros Hs c. subst c. destruct (print_field_first s Hs) as (x & f & E & Hx). split.
  - unfold skip_blanks. rewrite drop_app_length, E. cbn [app span]. rewrite Hx. lia.
  - rewrite drop_app_length, print_field_skip by done. unfold cut_here, at_.
    rewrite nth_lookup, lookup_app_r by lia. rewrite lookup_app_r by lia.
    replace (length pre + length (print_field s) - length pre - length (print_field s))%nat with O by lia. cbn [lookup list_lookup from_option].
    change ($" " =? 0) with false. f_equal. rewrite app_assoc, insert_app_r_alt by (rewrite length_app; lia).
    rewrite length_app. replace (length pre + length (print_field s) - (length pre + length (print_field s)))%nat with O by lia.
    cbn [insert list_insert]. by rewrite <- app_assoc.
Qed.

Lemma str_field pre s rest : separable s -> ctlstr (pre ++ print_field s ++ 0 :: rest) (length pre) = print_field s.
Proof. intros Hs. unfold ctlstr. rewrite drop_app_length. apply cstr_app. by apply print_field_not_nul. Qed.

(** C25: What prctladdr() of the router writes is what ctladdr() of the agents
    reads: a line with the channel, host and user in the router's quoting is cut
    into exactly these texts, wherever it stands in the file, with the rest of
    the line as the privilege.  The strings may have blanks, quotes and
    backslashes; only one that needs no quotes and ends in a lone backslash is
    excluded. *)
Theorem control_fields_round_trip (pre channel host user misc rest : list Z) :
  separable channel -> separable host -> separable user -> forallb not_nul misc = true ->
  let line := print_field channel ++ $" " :: print_field host ++ $" " :: print_field user ++ $" " :: misc ++ 0 :: rest in
  let '(ap, c) := ctladdr (pre ++ line) (length pre) in
  ctlstr c (a_channel ap) = print_field channel /\ ctlstr c (a_host ap) = print_field host /\
  ctlstr c (a_user ap) = print_field user /\ ctlstr c (a_misc ap) = misc.
Proof.
  intros Hc Hh Hu Hm. cbv zeta. unfold ctladdr.
  set (H1 := print_field channel). set (H2 := print_field host). set (H3 := print_field user).
  destruct (cut_field pre channel (H2 ++ $" " :: H3 ++ $" " :: misc ++ 0 :: rest) Hc) as [E1 E2].
  fold H1 in E1, E2. rewrite E1, E2. set (pre2 := pre ++ H1 ++ [0]).
  assert (S (length pre + length H1) = length pre2) as -> by (subst pre2; rewrite !length_app; cbn; lia).
  assert (pre ++ H1 ++ 0 :: H2 ++ $" " :: H3 ++ $" " :: misc ++ 0 :: rest = pre2 ++ H2 ++ $" " :: H3 ++ $" " :: misc ++ 0 :: rest) as ->
    by (subst pre2; by rewrite <- !app_assoc).
  destruct (cut_field pre2 host (H3 ++ $" " :: misc ++ 0 :: rest) Hh) as [F1 F2]. fold H2 in F1, F2. rewrite F1, F2. set (pre3 := pre2 ++ H2 ++ [0]).
  assert (S (length pre2 + length H2) = length pre3) as -> by (subst pre3; rewrite (length_app pre2), (length_app H2); cbn [length]; lia).
  assert (pre2 ++ H2 ++ 0 :: H3 ++ $" " :: misc ++ 0 :: rest = pre3 ++ H3 ++ $" " :: misc ++ 0 :: rest) as ->
    by (subst pre3; by rewrite <- !app_assoc).
  destruct (cut_field pre3 user (misc ++ 0 :: rest) Hu) as [G1 G2]. fold H3 in G1, G2. rewrite G1, G2. cbn [a_channel a_host a_user a_misc].
  set (pre4 := pre3 ++ H3 ++ [0]).
  assert (S (length pre3 + length H3) = length pre4) as -> by (subst pre4; rewrite (length_app pre3), (length_app H3); cbn [length]; lia).
  split_and!.
  - subst pre3 pre2. rewrite <- !app_assoc. by apply str_field.
  - subst pre3. rewrite <- !app_assoc. by apply str_field.
  - by apply str_field.
  - assert (pre3 ++ H3 ++ 0 :: misc ++ 0 :: rest = pre4 ++ misc ++ 0 :: rest) as -> by (subst pre4; by rewrite <- !app_assoc).
    unfold ctlstr. rewrite drop_app_length. by apply cstr_app.
Qed.

Lemma control_fields_round_trip_witness :
  let line := print_field ($$"smtp") ++ $" " :: print_field [] ++ $" " :: print_field ($$"a b@c") ++ $" " :: $$"10" ++ 0 :: [] in
  let '(ap, c) := ctladdr ($$"s " ++ line) 2 in
  ctlstr c (a_channel ap) = $$"smtp" /\ ctlstr c (a_host ap) = $$"-" /\ ctlstr c (a_user ap) = [34] ++ $$"a b@c" ++ [34] /\ ctlstr c (a_misc ap) = $$"10".
Proof.
  refine (control_fields_round_trip ($$"s ") ($$"smtp") [] ($$"a b@c") ($$"10") [] _ _ _ _).
  1, 2, 3: split; [reflexivity | try reflexivity; try discriminate]; intros; discriminate.
  reflexivity.
Defined.

(** A user that ends in a backslash swallows the blank behind it: the reader
    takes the privilege for a part of the user. *)
Lemma trailing_backslash_swallows :
  let user := [$"u"; 92] in
  let line := print_field ($$"local") ++ $" " :: print_field [] ++ $" " :: print_field user ++ $" " :: $$"10" ++ [0] in
  let '(ap, c) := ctladdr line 0 in
  ctlstr c (a_user ap) = user ++ $$" 10" /\ ctlstr c (a_misc ap) = [].
Proof. vm_compute. done. Qed.

(** ** Lines *)

(** What a control file is made of: lines, and blocks of headers, which have
    newlines of their own and end with an empty line. *)
Inductive centry := CLine (text : list Z) | CBlock (text : list Z).

Definition entry_text (e : centry) : list Z := match e with CLine t => t ++ [10] | CBlock t => t ++ [10; 10] end.
Definition entry_cut (e : centry) : list Z := match e with CLine t => t ++ [0] | CBlock t => t ++ [10; 0] end.
Fixpoint entry_offsets (off : nat) (es : list centry) : list nat :=
  match es with [] => [] | e :: es => off :: entry_offsets (off + length (entry_text e)) es end.

(** No empty line inside, and no newline at the end. *)
Fixpoint block_text (t : list Z) : bool :=
  match t with
  | [] => true
  | c :: t => negb ((c =? 10) && match t with d :: _ => d =? 10 | [] => true end) && block_text t
  end.

Definition no_newline (c : Z) : bool := negb (c =? 10).
Definition wf_entry (e : centry) : Prop :=
  match e with
  | CLine t => match t with c :: _ => starts_block c = false | [] => False end /\ forallb no_newline t = true
  | CBlock t => match t with c :: _ => starts_block c = true | [] => False end /\ block_text t = true
  end.

Lemma in_line t : forall off rest o offs, forallb no_newline t = true ->
  markoff_loop LineStart (off + S (length t)) rest = Some (o, offs) ->
  markoff_loop InLine off (t ++ 10 :: rest) = Some (t ++ 0 :: o, offs).
Proof.
  induction t as [|c t IH]; intros off rest o offs Ht E.
  - cbn [app markoff_loop length] in *. rewrite Z.eqb_refl. replace (S off) with (off + 1)%nat by lia. by rewrite E.
  - cbn [forallb] in Ht. apply andb_prop in Ht as [Hc%negb_true_iff Ht]. cbn [app markoff_loop]. rewrite Hc.
    rewrite (IH (S off) rest o offs Ht); [done|]. rewrite <- E. f_equal. cbn [length]. lia.
Qed.

Lemma in_block t : forall off rest o offs, block_text t = true ->
  markoff_loop LineStart (off + S (S (length t))) rest = Some (o, offs) ->
  markoff_loop InBlock off (t ++ 10 :: 10 :: rest) = Some (t ++ 10 :: 0 :: o, offs).
Proof.
  induction t as [|c t IH]; intros off rest o offs Ht E.
  - cbn [app markoff_loop length] in *. change ((10 =? 10) && (10 =? 10)) with true. cbn iota. change (10 =? 10) with true. cbn iota.
    replace (S (S off)) with (off + 2)%nat by lia. by rewrite E.
  - cbn [block_text] in Ht. apply andb_prop in Ht as [Hc Ht]. assert (exists d l, t ++ 10 :: 10 :: rest = d :: l /\ (c =? 10) && (d =? 10) = false) as (d & l & El & Hd).
    { destruct t as [|d t]; [eexists 10, _|eexists d, _]; (split; [done|]); by apply negb_true_iff in Hc. }
    cbn [app markoff_loop]. rewrite El, Hd, <- El. rewrite (IH (S off) rest o offs Ht); [done|]. rewrite <- E. f_equal. cbn [length]. lia.
Qed.

Lemma markoff_entries es : forall off, Forall wf_entry es ->
  markoff_loop LineStart off (concat (entry_text <$> es)) = Some (concat (entry_cut <$> es), entry_offsets off es).
Proof.
  induction es as [|e es IH]; intros off Hwf; [done|]. apply Forall_cons_1 in Hwf as [He Hwf]. cbn [fmap list_fmap concat entry_offsets].
  destruct e as [t | t]; cbn [entry_text entry_cut wf_entry] in *; destruct t as [|c t]; try (by destruct He); destruct He as [Hc Ht].
  - cbn [app markoff_loop]. rewrite Hc. cbn [forallb] in Ht. apply andb_prop in Ht as [_ Ht]. rewrite <- !app_assoc. cbn [app].
    erewrite in_line; [|done|apply IH, Hwf]. cbn [mbind option_bind]. do 3 f_equal. cbn [app length]. rewrite length_app. cbn [length]. f_equal; lia.
  - cbn [app markoff_loop]. rewrite Hc. cbn [block_text] in Ht. apply andb_prop in Ht as [_ Ht]. rewrite <- !app_assoc. cbn [app].
    erewrite in_block; [|done|apply IH, Hwf]. cbn [mbind option_bind].
    destruct (t ++ 10 :: 10 :: concat (entry_text <$> es)) eqn:E; [by destruct t|].
    do 3 f_equal. cbn [app length]. rewrite length_app. cbn [length]. f_equal; lia.
Qed.

Lemma entry_offsets_length es : forall off, length (entry_offsets off es) = length es.
Proof. induction es as [|e es IH]; intros off; [done|]. cbn. by rewrite IH. Qed.

(** markoff() finds the lines: for a file of lines and header blocks, the
    first a line, it gives the offset of each, the contents have each ended by
    a NUL, and blocks keep the newlines inside.  When every line and block has
    at least four characters with its newline, the array that ctlopen()
    allocates for the offsets is large enough. *)
Theorem markoff_lines (first : list Z) (es : list centry) :
  forallb no_newline first = true -> Forall wf_entry es ->
  let file := concat (entry_text <$> CLine first :: es) in
  markoff file = Some (concat (entry_cut <$> CLine first :: es), entry_offsets 0 (CLine first :: es)) /\
  (Forall (fun e => 4 <= length (entry_text e))%nat (CLine first :: es) -> (length (CLine first :: es) <= offset_room file)%nat).
Proof.
  intros Hf Hes file. split.
  - unfold markoff. subst file. cbn [fmap list_fmap concat entry_text entry_cut]. rewrite <- !app_assoc. cbn [app].
    erewrite in_line; [|done|apply markoff_entries, Hes]. cbn [mbind option_bind entry_offsets entry_text]. do 4 f_equal.
    rewrite length_app. cbn [length]. lia.
  - intros H4. unfold offset_room. subst file. apply Nat.div_le_lower_bound; [lia|].
    induction H4 as [|e l He _ IH]; [cbn; lia|]. cbn [fmap list_fmap concat length]. rewrite length_app. lia.
Qed.

Lemma markoff_lines_witness :
  markoff ($$"i 17" ++ [10] ++ $$"s a b c" ++ [10] ++ $$"m" ++ [10] ++ $$"To: x" ++ [10; 10] ++ $$"d x" ++ [10]) =
  Some ($$"i 17" ++ [0] ++ $$"s a b c" ++ [0] ++ $$"m" ++ [10] ++ $$"To: x" ++ [10; 0] ++ $$"d x" ++ [0], [0; 5; 13; 22]%nat).
Proof.
  destruct (markoff_lines ($$"i 17") [CLine ($$"s a b c"); CBlock ($$"m" ++ [10] ++ $$"To: x"); CLine ($$"d x")]) as [H _].
  - reflexivity.
  - repeat apply Forall_cons_2; try apply Forall_nil_2; split; reflexivity.
  - exact H.
Defined.

(** Shorter lines make markoff() write behind the array. *)
Lemma short_lines_overrun :
  let file := $$"a" ++ [10] ++ $$"b" ++ [10] ++ $$"c" ++ [10] ++ $$"d" ++ [10] in
  exists c offs, markoff file = Some (c, offs) /\ (offset_room file < length offs)%nat.
Proof. eexists _, _. split; [vm_compute; reflexivity|]. vm_compute. lia. Qed.

(** ** Buffers of diagnostic.c *)

(** The text that notaryacct() makes for an exit code it does not know,
    which includes those for a protocol error, for missing permission and for
    the deferral of all recipients, never fits its static buffer of 20 bytes. *)
Theorem notaryacct_overruns (rc : Z) (okstr s : list Z) :
  notaryacct rc okstr = inr s -> (MSGBUF < length s + 1)%nat.
Proof.
  unfold notaryacct. destruct (rc =? EX_OK); [done|]. destruct (one_of temporary rc); [done|]. destruct (one_of failures rc); [done|].
  intros Hs. assert (s = $$"*SW-ERROR*not-act-rc=" ++ dec rc ++ $$"*") as -> by congruence.
  rewrite !length_app. change (length ($$"*SW-ERROR*not-act-rc=")) with 21%nat. unfold MSGBUF. lia.
Qed.

Lemma notaryacct_overruns_witness :
  exists s, notaryacct EX_PROTOCOL ($$"delivered") = inr s /\ (MSGBUF < length s + 1)%nat.
Proof.
  exists ($$"*SW-ERROR*not-act-rc=76*"). split; [reflexivity|].
  exact (notaryacct_overruns EX_PROTOCOL ($$"delivered") ($$"*SW-ERROR*not-act-rc=76*") eq_refl).
Defined.

(** The buffer of a NOTARY report is large enough exactly for process ids
    of up to six digits, or of eight when the address of the peer is part of
    the report. *)
Theorem notary_report_fits (n : notary) :
  0 <= n_wtttaidpid n ->
  (Z.of_nat (length (notary_text n)) + 1 <= notary_room n <->
   (n_wtttaid n = None \/ n_wtttaidpid n < match n_wttip n with Some _ => 100000000 | None => 1000000 end)).
Proof.
  intros Hp. pose proof (digits_length 64 (n_wtttaidpid n) [] 6 ltac:(lia) Hp) as H6.
  pose proof (digits_length 64 (n_wtttaidpid n) [] 8 ltac:(lia) Hp) as H8. cbn [length Nat.add] in H6, H8.
  change (10 ^ Z.of_nat 6) with 1000000 in H6. change (10 ^ Z.of_nat 8) with 100000000 in H8.
  unfold notary_text, notary_room, dec. rewrite (proj2 (Z.ltb_ge _ _)) by done. rewrite !length_app. cbn [length].
  destruct (n_wtttaid n) as [id|], (n_wttip n) as [ip|]; rewrite ?length_app; cbn [length];
    change (length ($$" (")) with 2%nat; change (length ($$")")) with 1%nat; change (length ($$"[")) with 1%nat; change (length ($$"]")) with 1%nat.
  - split; [intros Hl; right; apply H8; lia | intros [? | Hl]; [done | apply H8 in Hl; lia]].
  - split; [intros Hl; right; apply H6; lia | intros [? | Hl]; [done | apply H6 in Hl; lia]].
  - split; [by left | lia].
  - split; [by left | lia].
Qed.

Lemma notary_report_fits_witness :
  let n := notary_settaid (Some ($$"smtp")) 1234567 (Notary None None None None None None None None 0) in
  ~ Z.of_nat (length (notary_text n)) + 1 <= notary_room n.
Proof.
  intros n Hl. apply (notary_report_fits n) in Hl; [|vm_compute; discriminate]. destruct Hl as [Hl | Hl]; [discriminate Hl | vm_compute in Hl; discriminate Hl].
Defined.

(** Arguments of the type [int]. *)
Definition int_args (args : list fmt_arg) : Prop :=
  Forall (fun a => match a with ArgD d => - 2 ^ 31 <= d < 2 ^ 31 | ArgS _ => True end) args.

Lemma dec_int_length d : - 2 ^ 31 <= d < 2 ^ 31 -> (length (dec d) <= 11)%nat.
Proof.
  intros Hd. unfold dec. destruct (d <? 0) eqn:E; zbool.
  - cbn [length]. enough (length (digits 64 (- d) []) <= 10)%nat by lia.
    apply (digits_length 64 (- d) [] 10); [lia | lia | change (10 ^ Z.of_nat 10) with 10000000000; lia].
  - enough (length (digits 64 d []) <= 10)%nat by lia.
    apply (digits_length 64 d [] 10); [lia | lia | change (10 ^ Z.of_nat 10) with 10000000000; lia].
Qed.

Lemma fmt_loop_bound n : forall fmt args out, (length fmt <= n)%nat -> int_args args -> (length out <= ES)%nat ->
  (length (fmt_loop fmt args out) <= ES)%nat.
Proof.
  assert (10 < ES)%nat as HES by (apply (bool_decide_unpack _); by vm_compute).
  induction n as [|n IH]; intros fmt args out Hn Ha Ho; (destruct fmt as [|c fmt]; [done|]); cbn [length] in Hn; [lia|].
  cbn [fmt_loop]. destruct (ES <=? length out)%nat eqn:El; [done|]. apply Nat.leb_gt in El.
  destruct (negb (c =? $"%")); [apply IH; [lia | done | rewrite length_app; cbn [length]; lia]|].
  destruct fmt as [|f fmt]; [done|]. cbn [length] in Hn.
  destruct (f =? $"s").
  { destruct args as [|[s|d] args]; [done | | done]. apply Forall_cons_1 in Ha as [_ Ha].
    apply IH; [lia | done | rewrite length_app, length_take; lia]. }
  destruct (f =? $"d").
  { destruct (ES - 10 <=? length out)%nat eqn:Ed; [apply IH; [lia | done | lia]|]. apply Nat.leb_gt in Ed.
    destruct args as [|[s|d] args]; [done | done |]. apply Forall_cons_1 in Ha as [Hd Ha].
    apply IH; [lia | done | rewrite length_app; pose proof (dec_int_length d Hd); lia]. }
  destruct (f =? $"%"); apply IH; try lia; try done. rewrite length_app. cbn [length]. lia.
Qed.

(** A diagnostic message fits its buffer, with one exception: for the exit
    codes that are called abnormal the remark to investigate is appended without
    a look at the room, so that messages of more than 8158 characters run over
    the end, by four bytes at most. *)
Theorem diag_message_overruns (rc : Z) (fmt : list Z) (args : list fmt_arg) :
  int_args args ->
  (MESSAGE_SIZE < length (diag_message rc fmt args) + 1 <->
   one_of abnormal rc = true /\ MESSAGE_SIZE - 34 < length (fmt_loop fmt args []))%nat /\
  (length (diag_message rc fmt args) + 1 <= MESSAGE_SIZE + 4)%nat.
Proof.
  intros Ha. pose proof (fmt_loop_bound (length fmt) fmt args [] (le_n _) Ha (Nat.le_0_l _)) as Hb.
  unfold diag_message, ES in *. assert (34 < MESSAGE_SIZE)%nat by (apply (bool_decide_unpack _); by vm_compute).
  destruct (one_of abnormal rc).
  - rewrite length_app. change (length investigate) with 33%nat. split; [split; [intros; split; [done | lia] | intros [_ ?]; lia] | lia].
  - split; [split; [lia | by intros [? _]] | lia].
Qed.

Lemma diag_message_overruns_witness :
  (MESSAGE_SIZE < length (diag_message EX_PROTOCOL ($$"%s") [ArgS (replicate (MESSAGE_SIZE - 30) ($"x"))]) + 1)%nat.
Proof.
  apply (proj1 (diag_message_overruns EX_PROTOCOL ($$"%s") [ArgS (replicate (MESSAGE_SIZE - 30) ($"x"))]
    ltac:(apply Forall_singleton; exact I))). split; [reflexivity|].
  change (fmt_loop ($$"%s") [ArgS (replicate (MESSAGE_SIZE - 30) ($"x"))] []) with (take (ES - 0) (replicate (MESSAGE_SIZE - 30) ($"x"))).
  rewrite length_take, length_replicate. apply (bool_decide_unpack _). by vm_compute.
Defined.
