(* ===== verification/ScState.v ===== *)
(** * The SMTP client: state and environment (transports/smtp/smtp.h)

    The transport agent that delivers over SMTP: its session record, the
    stream to the remote server and what the outside world answers.  Built
    without OpenSSL; the debug log of the option -l, status reports on the
    command line and the statistics counters are left out. *)

From Stdlib Require Import ZArith Lia.
From stdpp Require Import base tactics numbers list option.
From S2P Require Import Prelude TaFile TaDiag TaCtl.

#[local] Open Scope Z_scope.

(** ** Constants *)

Definition ALARM_BLOCKSIZE : Z := 2000.
Definition CHUNK_MAX_SIZE : Z := 64000.
Definition REMOTEMSG_SIZE : nat := 16384.

Definition ESMTP_SIZEOPT : Z := 0x0001.
Definition ESMTP_8BITMIME : Z := 0x0002.
Definition ESMTP_DSN : Z := 0x0004.
Definition ESMTP_PIPELINING : Z := 0x0008.
Definition ESMTP_ENHSTATUS : Z := 0x0010.
Definition ESMTP_CHUNKING : Z := 0x0020.
Definition ESMTP_DELIVERBY : Z := 0x0080.
Definition ESMTP_AUTH : Z := 0x0100.

Definition HELOSTATE_400 : Z := 0x0002.
Definition HELOSTATE_500 : Z := 0x0004.
Definition FROMSTATE_OK : Z := 0x0010.
Definition FROMSTATE_400 : Z := 0x0020.
Definition FROMSTATE_500 : Z := 0x0040.
Definition RCPTSTATE_OK : Z := 0x0100.
Definition RCPTSTATE_400 : Z := 0x0200.
Definition RCPTSTATE_500 : Z := 0x0400.
Definition DATASTATE_OK : Z := 0x1000.
Definition DATASTATE_400 : Z := 0x2000.
Definition DATASTATE_500 : Z := 0x4000.

(** SMTPSTATES *)
Definition SMTPSTATE_MAILFROM : nat := 0.
Definition SMTPSTATE_RCPTTO : nat := 1.
Definition SMTPSTATE_DATA : nat := 2.
Definition SMTPSTATE_DATADOT : nat := 3.
Definition SMTPSTATE99 : nat := 99.

(** ** The session record *)

(** A command whose reply is awaited: its text, the recipient it is about
    (by its id), and the state in which it was sent. *)
Record pipecmd := Pipecmd { p_cmd : option (list Z); p_rcpt : option nat; p_state : nat }.

(** An address of a host, from getaddrinfo(): lists of them are the chains of
    ai_next. *)
Inductive family := AF_INET | AF_INET6 | AF_UNIX.
Record addrinfo := Addrinfo { ai_family : family; ai_addr : list Z; ai_canonname : option (list Z) }.

(** struct mxdata *)
Record mxdata := Mxdata { mx_host : option (list Z); mx_pref : Z; mx_expiry : Z; mx_ai : list addrinfo }.

(** The cache of CNAMEs: cells that are linked by their numbers, those in use
    from the head, the others from the free one; -1 ends a chain. *)
Record cnamecell := Cnamecell {
  cc_hash : Z;
  cc_next : Z;
  cc_ttl : Z;
  cc_name : option (list Z);
  cc_cname : option (list Z)
}.
Record cnamecache := Cnamecache { cn_head : Z; cn_free : Z; cn_cells : list cnamecell }.

(** The random numbers of lib/ranny.c *)
Record ranny_state := RannyState { rn_y : list Z; rn_j : nat; rn_k : nat; rn_done : bool }.

(** What happened, latest first: bytes given to the stream, flushes, reads,
    waits and closes of the connection; questions to the resolver and the
    system, and attempts to connect; final reply lines with the command they
    were taken to answer; reports of a recipient's fate. *)
Inductive event :=
| EvPut (l : list Z)
| EvFail
| EvSync
| EvNbread
| EvSelect
| EvReadable
| EvFile
| EvClose
| EvOpen
| EvFlush
| EvAsk
| EvConnect (a : addrinfo)
| EvReply (p : pipecmd) (code : Z)
| EvDiag (id : nat) (rc : Z).

(** [c_smtpfp] says that the stream is there, [c_fileno] that it has a file
    descriptor, [c_sferror] that it is in error.  [c_pipe] has the first
    [pipeindex] entries of pipecmds, pipercpts and pipestates, [c_pipebuf] the
    first [pipebufsize] bytes of pipebuf, [c_chunkbuf] the first [chunksize]
    bytes of the chunk.  [c_remotemsgs] are places in [c_remotemsg];
    [c_message] is the message file, [c_filepos] the place in it; [c_mxh] the
    hosts of the first [c_mxcount] entries of mxh.  The last fields are
    variables of the process, the descriptor of the message, and the state of
    the library of the transport agents. *)
Record client := Client {
  c_ehlo_capabilities : Z;
  c_esmtp_on_banner : Z;
  c_within_ehlo : bool;
  c_smtp_bufsize : Z;
  c_smtp_outcount : Z;
  c_block_written : bool;
  c_ehlo_sizeval : Z;
  c_ehlo_deliverbyval : Z;
  c_rcpt_limit : Z;
  c_smtpfd : bool;
  c_smtpfp : bool;
  c_fileno : bool;
  c_sferror : bool;
  c_do_rset : bool;
  c_hsize : Z;
  c_msize : Z;
  c_pipelining : bool;
  c_pipebuf : list Z;
  c_pipe : list pipecmd;
  c_pipereplies : nat;
  c_continuation_line : bool;
  c_first_line : bool;
  c_rcptcnt : Z;
  c_rcptstates : Z;
  c_state : bool;
  c_alarmcnt : Z;
  c_column : Z;
  c_lastch : Z;
  c_chunking : bool;
  c_doing_chunking : bool;
  c_chunkbuf : option (list Z);
  c_chunkspace : Z;
  c_remotemsg : list Z;
  c_remotemsgs : list (option nat);
  c_cmdstate : nat;
  c_prevcmdstate : nat;
  c_gotalarm : bool;
  c_getout : bool;
  c_close_after_data : bool;
  c_readalready : nat;
  c_message : list Z;
  c_let_buffer : list Z;
  c_filepos : nat;
  c_verboselog : bool;
  c_literalport : Z;
  c_firstmx : nat;
  c_mxcount : nat;
  c_mxh : list mxdata;
  c_myhostname : option (list Z);
  c_remotehost : list Z;
  c_ipaddress : list Z;
  c_ai : option addrinfo;
  c_ismx : Z;
  c_cnames : cnamecache;
  c_ranny : ranny_state;
  c_desc : ctldesc;
  c_ta : ta_state;
  c_trace : list event
}.
Definition set_c_ehlo_capabilities (v : Z) (x : client) : client :=
  Client v (c_esmtp_on_banner x) (c_within_ehlo x) (c_smtp_bufsize x) (c_smtp_outcount x) (c_block_written x) (c_ehlo_sizeval x) (c_ehlo_deliverbyval x) (c_rcpt_limit x) (c_smtpfd x) (c_smtpfp x) (c_fileno x) (c_sferror x) (c_do_rset x) (c_hsize x) (c_msize x) (c_pipelining x) (c_pipebuf x) (c_pipe x) (c_pipereplies x) (c_continuation_line x) (c_first_line x) (c_rcptcnt x) (c_rcptstates x) (c_state x) (c_alarmcnt x) (c_column x) (c_lastch x) (c_chunking x) (c_doing_chunking x) (c_chunkbuf x) (c_chunkspace x) (c_remotemsg x) (c_remotemsgs x) (c_cmdstate x) (c_prevcmdstate x) (c_gotalarm x) (c_getout x) (c_close_after_data x) (c_readalready x) (c_message x) (c_let_buffer x) (c_filepos x) (c_verboselog x) (c_literalport x) (c_firstmx x) (c_mxcount x) (c_mxh x) (c_myhostname x) (c_remotehost x) (c_ipaddress x) (c_ai x) (c_ismx x) (c_cnames x) (c_ranny x) (c_desc x) (c_ta x) (c_trace x).
Definition set_c_esmtp_on_banner (v : Z) (x : client) : client :=
  Client (c_ehlo_capabilities x) v (c_within_ehlo x) (c_smtp_bufsize x) (c_smtp_outcount x) (c_block_written x) (c_ehlo_sizeval x) (c_ehlo_deliverbyval x) (c_rcpt_limit x) (c_smtpfd x) (c_smtpfp x) (c_fileno x) (c_sferror x) (c_do_rset x) (c_hsize x) (c_msize x) (c_pipelining x) (c_pipebuf x) (c_pipe x) (c_pipereplies x) (c_continuation_line x) (c_first_line x) (c_rcptcnt x) (c_rcptstates x) (c_state x) (c_alarmcnt x) (c_column x) (c_lastch x) (c_chunking x) (c_doing_chunking x) (c_chunkbuf x) (c_chunkspace x) (c_remotemsg x) (c_remotemsgs x) (c_cmdstate x) (c_prevcmdstate x) (c_gotalarm x) (c_getout x) (c_close_after_data x) (c_readalready x) (c_message x) (c_let_buffer x) (c_filepos x) (c_verboselog x) (c_literalport x) (c_firstmx x) (c_mxcount x) (c_mxh x) (c_myhostname x) (c_remotehost x) (c_ipaddress x) (c_ai x) (c_ismx x) (c_cnames x) (c_ranny x) (c_desc x) (c_ta x) (c_trace x).
Definition set_c_within_ehlo (v : bool) (x : client) : client :=
  Client (c_ehlo_capabilities x) (c_esmtp_on_banner x) v (c_smtp_bufsize x) (c_smtp_outcount x) (c_block_written x) (c_ehlo_sizeval x) (c_ehlo_deliverbyval x) (c_rcpt_limit x) (c_smtpfd x) (c_smtpfp x) (c_fileno x) (c_sferror x) (c_do_rset x) (c_hsize x) (c_msize x) (c_pipelining x) (c_pipebuf x) (c_pipe x) (c_pipereplies x) (c_continuation_line x) (c_first_line x) (c_rcptcnt x) (c_rcptstates x) (c_state x) (c_alarmcnt x) (c_column x) (c_lastch x) (c_chunking x) (c_doing_chunking x) (c_chunkbuf x) (c_chunkspace x) (c_remotemsg x) (c_remotemsgs x) (c_cmdstate x) (c_prevcmdstate x) (c_gotalarm x) (c_getout x) (c_close_after_data x) (c_readalready x) (c_message x) (c_let_buffer x) (c_filepos x) (c_verboselog x) (c_literalport x) (c_firstmx x) (c_mxcount x) (c_mxh x) (c_myhostname x) (c_remotehost x) (c_ipaddress x) (c_ai x) (c_ismx x) (c_cnames x) (c_ranny x) (c_desc x) (c_ta x) (c_trace x).
Definition set_c_smtp_bufsize (v : Z) (x : client) : client :=
  Client (c_ehlo_capabilities x) (c_esmtp_on_banner x) (c_within_ehlo x) v (c_smtp_outcount x) (c_block_written x) (c_ehlo_sizeval x) (c_ehlo_deliverbyval x) (c_rcpt_limit x) (c_smtpfd x) (c_smtpfp x) (c_fileno x) (c_sferror x) (c_do_rset x) (c_hsize x) (c_msize x) (c_pipelining x) (c_pipebuf x) (c_pipe x) (c_pipereplies x) (c_continuation_line x) (c_first_line x) (c_rcptcnt x) (c_rcptstates x) (c_state x) (c_alarmcnt x) (c_column x) (c_lastch x) (c_chunking x) (c_doing_chunking x) (c_chunkbuf x) (c_chunkspace x) (c_remotemsg x) (c_remotemsgs x) (c_cmdstate x) (c_prevcmdstate x) (c_gotalarm x) (c_getout x) (c_close_after_data x) (c_readalready x) (c_message x) (c_let_buffer x) (c_filepos x) (c_verboselog x) (c_literalport x) (c_firstmx x) (c_mxcount x) (c_mxh x) (c_myhostname x) (c_remotehost x) (c_ipaddress x) (c_ai x) (c_ismx x) (c_cnames x) (c_ranny x) (c_desc x) (c_ta x) (c_trace x).
Definition set_c_smtp_outcount (v : Z) (x : client) : client :=
  Client (c_ehlo_capabilities x) (c_esmtp_on_banner x) (c_within_ehlo x) (c_smtp_bufsize x) v (c_block_written x) (c_ehlo_sizeval x) (c_ehlo_deliverbyval x) (c_rcpt_limit x) (c_smtpfd x) (c_smtpfp x) (c_fileno x) (c_sferror x) (c_do_rset x) (c_hsize x) (c_msize x) (c_pipelining x) (c_pipebuf x) (c_pipe x) (c_pipereplies x) (c_continuation_line x) (c_first_line x) (c_rcptcnt x) (c_rcptstates x) (c_state x) (c_alarmcnt x) (c_column x) (c_lastch x) (c_chunking x) (c_doing_chunking x) (c_chunkbuf x) (c_chunkspace x) (c_remotemsg x) (c_remotemsgs x) (c_cmdstate x) (c_prevcmdstate x) (c_gotalarm x) (c_getout x) (c_close_after_data x) (c_readalready x) (c_message x) (c_let_buffer x) (c_filepos x) (c_verboselog x) (c_literalport x) (c_firstmx x) (c_mxcount x) (c_mxh x) (c_myhostname x) (c_remotehost x) (c_ipaddress x) (c_ai x) (c_ismx x) (c_cnames x) (c_ranny x) (c_desc x) (c_ta x) (c_trace x).
Definition set_c_block_written (v : bool) (x : client) : client :=
  Client (c_ehlo_capabilities x) (c_esmtp_on_banner x) (c_within_ehlo x) (c_smtp_bufsize x) (c_smtp_outcount x) v (c_ehlo_sizeval x) (c_ehlo_deliverbyval x) (c_rcpt_limit x) (c_smtpfd x) (c_smtpfp x) (c_fileno x) (c_sferror x) (c_do_rset x) (c_hsize x) (c_msize x) (c_pipelining x) (c_pipebuf x) (c_pipe x) (c_pipereplies x) (c_continuation_line x) (c_first_line x) (c_rcptcnt x) (c_rcptstates x) (c_state x) (c_alarmcnt x) (c_column x) (c_lastch x) (c_chunking x) (c_doing_chunking x) (c_chunkbuf x) (c_chunkspace x) (c_remotemsg x) (c_remotemsgs x) (c_cmdstate x) (c_prevcmdstate x) (c_gotalarm x) (c_getout x) (c_close_after_data x) (c_readalready x) (c_message x) (c_let_buffer x) (c_filepos x) (c_verboselog x) (c_literalport x) (c_firstmx x) (c_mxcount x) (c_mxh x) (c_myhostname x) (c_remotehost x) (c_ipaddress x) (c_ai x) (c_ismx x) (c_cnames x) (c_ranny x) (c_desc x) (c_ta x) (c_trace x).
Definition set_c_ehlo_sizeval (v : Z) (x : client) : client :=
  Client (c_ehlo_capabilities x) (c_esmtp_on_banner x) (c_within_ehlo x) (c_smtp_bufsize x) (c_smtp_outcount x) (c_block_written x) v (c_ehlo_deliverbyval x) (c_rcpt_limit x) (c_smtpfd x) (c_smtpfp x) (c_fileno x) (c_sferror x) (c_do_rset x) (c_hsize x) (c_msize x) (c_pipelining x) (c_pipebuf x) (c_pipe x) (c_pipereplies x) (c_continuation_line x) (c_first_line x) (c_rcptcnt x) (c_rcptstates x) (c_state x) (c_alarmcnt x) (c_column x) (c_lastch x) (c_chunking x) (c_doing_chunking x) (c_chunkbuf x) (c_chunkspace x) (c_remotemsg x) (c_remotemsgs x) (c_cmdstate x) (c_prevcmdstate x) (c_gotalarm x) (c_getout x) (c_close_after_data x) (c_readalready x) (c_message x) (c_let_buffer x) (c_filepos x) (c_verboselog x) (c_literalport x) (c_firstmx x) (c_mxcount x) (c_mxh x) (c_myhostname x) (c_remotehost x) (c_ipaddress x) (c_ai x) (c_ismx x) (c_cnames x) (c_ranny x) (c_desc x) (c_ta x) (c_trace x).
Definition set_c_ehlo_deliverbyval (v : Z) (x : client) : client :=
  Client (c_ehlo_capabilities x) (c_esmtp_on_banner x) (c_within_ehlo x) (c_smtp_bufsize x) (c_smtp_outcount x) (c_block_written x) (c_ehlo_sizeval x) v (c_rcpt_limit x) (c_smtpfd x) (c_smtpfp x) (c_fileno x) (c_sferror x) (c_do_rset x) (c_hsize x) (c_msize x) (c_pipelining x) (c_pipebuf x) (c_pipe x) (c_pipereplies x) (c_continuation_line x) (c_first_line x) (c_rcptcnt x) (c_rcptstates x) (c_state x) (c_alarmcnt x) (c_column x) (c_lastch x) (c_chunking x) (c_doing_chunking x) (c_chunkbuf x) (c_chunkspace x) (c_remotemsg x) (c_remotemsgs x) (c_cmdstate x) (c_prevcmdstate x) (c_gotalarm x) (c_getout x) (c_close_after_data x) (c_readalready x) (c_message x) (c_let_buffer x) (c_filepos x) (c_verboselog x) (c_literalport x) (c_firstmx x) (c_mxcount x) (c_mxh x) (c_myhostname x) (c_remotehost x) (c_ipaddress x) (c_ai x) (c_ismx x) (c_cnames x) (c_ranny x) (c_desc x) (c_ta x) (c_trace x).
Definition set_c_rcpt_limit (v : Z) (x : client) : client :=
  Client (c_ehlo_capabilities x) (c_esmtp_on_banner x) (c_within_ehlo x) (c_smtp_bufsize x) (c_smtp_outcount x) (c_block_written x) (c_ehlo_sizeval x) (c_ehlo_deliverbyval x) v (c_smtpfd x) (c_smtpfp x) (c_fileno x) (c_sferror x) (c_do_rset x) (c_hsize x) (c_msize x) (c_pipelining x) (c_pipebuf x) (c_pipe x) (c_pipereplies x) (c_continuation_line x) (c_first_line x) (c_rcptcnt x) (c_rcptstates x) (c_state x) (c_alarmcnt x) (c_column x) (c_lastch x) (c_chunking x) (c_doing_chunking x) (c_chunkbuf x) (c_chunkspace x) (c_remotemsg x) (c_remotemsgs x) (c_cmdstate x) (c_prevcmdstate x) (c_gotalarm x) (c_getout x) (c_close_after_data x) (c_readalready x) (c_message x) (c_let_buffer x) (c_filepos x) (c_verboselog x) (c_literalport x) (c_firstmx x) (c_mxcount x) (c_mxh x) (c_myhostname x) (c_remotehost x) (c_ipaddress x) (c_ai x) (c_ismx x) (c_cnames x) (c_ranny x) (c_desc x) (c_ta x) (c_trace x).
Definition set_c_smtpfd (v : bool) (x : client) : client :=
  Client (c_ehlo_capabilities x) (c_esmtp_on_banner x) (c_within_ehlo x) (c_smtp_bufsize x) (c_smtp_outcount x) (c_block_written x) (c_ehlo_sizeval x) (c_ehlo_deliverbyval x) (c_rcpt_limit x) v (c_smtpfp x) (c_fileno x) (c_sferror x) (c_do_rset x) (c_hsize x) (c_msize x) (c_pipelining x) (c_pipebuf x) (c_pipe x) (c_pipereplies x) (c_continuation_line x) (c_first_line x) (c_rcptcnt x) (c_rcptstates x) (c_state x) (c_alarmcnt x) (c_column x) (c_lastch x) (c_chunking x) (c_doing_chunking x) (c_chunkbuf x) (c_chunkspace x) (c_remotemsg x) (c_remotemsgs x) (c_cmdstate x) (c_prevcmdstate x) (c_gotalarm x) (c_getout x) (c_close_after_data x) (c_readalready x) (c_message x) (c_let_buffer x) (c_filepos x) (c_verboselog x) (c_literalport x) (c_firstmx x) (c_mxcount x) (c_mxh x) (c_myhostname x) (c_remotehost x) (c_ipaddress x) (c_ai x) (c_ismx x) (c_cnames x) (c_ranny x) (c_desc x) (c_ta x) (c_trace x).
Definition set_c_smtpfp (v : bool) (x : client) : client :=
  Client (c_ehlo_capabilities x) (c_esmtp_on_banner x) (c_within_ehlo x) (c_smtp_bufsize x) (c_smtp_outcount x) (c_block_written x) (c_ehlo_sizeval x) (c_ehlo_deliverbyval x) (c_rcpt_limit x) (c_smtpfd x) v (c_fileno x) (c_sferror x) (c_do_rset x) (c_hsize x) (c_msize x) (c_pipelining x) (c_pipebuf x) (c_pipe x) (c_pipereplies x) (c_continuation_line x) (c_first_line x) (c_rcptcnt x) (c_rcptstates x) (c_state x) (c_alarmcnt x) (c_column x) (c_lastch x) (c_chunking x) (c_doing_chunking x) (c_chunkbuf x) (c_chunkspace x) (c_remotemsg x) (c_remotemsgs x) (c_cmdstate x) (c_prevcmdstate x) (c_gotalarm x) (c_getout x) (c_close_after_data x) (c_readalready x) (c_message x) (c_let_buffer x) (c_filepos x) (c_verboselog x) (c_literalport x) (c_firstmx x) (c_mxcount x) (c_mxh x) (c_myhostname x) (c_remotehost x) (c_ipaddress x) (c_ai x) (c_ismx x) (c_cnames x) (c_ranny x) (c_desc x) (c_ta x) (c_trace x).
Definition set_c_fileno (v : bool) (x : client) : client :=
  Client (c_ehlo_capabilities x) (c_esmtp_on_banner x) (c_within_ehlo x) (c_smtp_bufsize x) (c_smtp_outcount x) (c_block_written x) (c_ehlo_sizeval x) (c_ehlo_deliverbyval x) (c_rcpt_limit x) (c_smtpfd x) (c_smtpfp x) v (c_sferror x) (c_do_rset x) (c_hsize x) (c_msize x) (c_pipelining x) (c_pipebuf x) (c_pipe x) (c_pipereplies x) (c_continuation_line x) (c_first_line x) (c_rcptcnt x) (c_rcptstates x) (c_state x) (c_alarmcnt x) (c_column x) (c_lastch x) (c_chunking x) (c_doing_chunking x) (c_chunkbuf x) (c_chunkspace x) (c_remotemsg x) (c_remotemsgs x) (c_cmdstate x) (c_prevcmdstate x) (c_gotalarm x) (c_getout x) (c_close_after_data x) (c_readalready x) (c_message x) (c_let_buffer x) (c_filepos x) (c_verboselog x) (c_literalport x) (c_firstmx x) (c_mxcount x) (c_mxh x) (c_myhostname x) (c_remotehost x) (c_ipaddress x) (c_ai x) (c_ismx x) (c_cnames x) (c_ranny x) (c_desc x) (c_ta x) (c_trace x).
Definition set_c_sferror (v : bool) (x : client) : client :=
  Client (c_ehlo_capabilities x) (c_esmtp_on_banner x) (c_within_ehlo x) (c_smtp_bufsize x) (c_smtp_outcount x) (c_block_written x) (c_ehlo_sizeval x) (c_ehlo_deliverbyval x) (c_rcpt_limit x) (c_smtpfd x) (c_smtpfp x) (c_fileno x) v (c_do_rset x) (c_hsize x) (c_msize x) (c_pipelining x) (c_pipebuf x) (c_pipe x) (c_pipereplies x) (c_continuation_line x) (c_first_line x) (c_rcptcnt x) (c_rcptstates x) (c_state x) (c_alarmcnt x) (c_column x) (c_lastch x) (c_chunking x) (c_doing_chunking x) (c_chunkbuf x) (c_chunkspace x) (c_remotemsg x) (c_remotemsgs x) (c_cmdstate x) (c_prevcmdstate x) (c_gotalarm x) (c_getout x) (c_close_after_data x) (c_readalready x) (c_message x) (c_let_buffer x) (c_filepos x) (c_verboselog x) (c_literalport x) (c_firstmx x) (c_mxcount x) (c_mxh x) (c_myhostname x) (c_remotehost x) (c_ipaddress x) (c_ai x) (c_ismx x) (c_cnames x) (c_ranny x) (c_desc x) (c_ta x) (c_trace x).
Definition set_c_do_rset (v : bool) (x : client) : client :=
  Client (c_ehlo_capabilities x) (c_esmtp_on_banner x) (c_within_ehlo x) (c_smtp_bufsize x) (c_smtp_outcount x) (c_block_written x) (c_ehlo_sizeval x) (c_ehlo_deliverbyval x) (c_rcpt_limit x) (c_smtpfd x) (c_smtpfp x) (c_fileno x) (c_sferror x) v (c_hsize x) (c_msize x) (c_pipelining x) (c_pipebuf x) (c_pipe x) (c_pipereplies x) (c_continuation_line x) (c_first_line x) (c_rcptcnt x) (c_rcptstates x) (c_state x) (c_alarmcnt x) (c_column x) (c_lastch x) (c_chunking x) (c_doing_chunking x) (c_chunkbuf x) (c_chunkspace x) (c_remotemsg x) (c_remotemsgs x) (c_cmdstate x) (c_prevcmdstate x) (c_gotalarm x) (c_getout x) (c_close_after_data x) (c_readalready x) (c_message x) (c_let_buffer x) (c_filepos x) (c_verboselog x) (c_literalport x) (c_firstmx x) (c_mxcount x) (c_mxh x) (c_myhostname x) (c_remotehost x) (c_ipaddress x) (c_ai x) (c_ismx x) (c_cnames x) (c_ranny x) (c_desc x) (c_ta x) (c_trace x).
Definition set_c_hsize (v : Z) (x : client) : client :=
  Client (c_ehlo_capabilities x) (c_esmtp_on_banner x) (c_within_ehlo x) (c_smtp_bufsize x) (c_smtp_outcount x) (c_block_written x) (c_ehlo_sizeval x) (c_ehlo_deliverbyval x) (c_rcpt_limit x) (c_smtpfd x) (c_smtpfp x) (c_fileno x) (c_sferror x) (c_do_rset x) v (c_msize x) (c_pipelining x) (c_pipebuf x) (c_pipe x) (c_pipereplies x) (c_continuation_line x) (c_first_line x) (c_rcptcnt x) (c_rcptstates x) (c_state x) (c_alarmcnt x) (c_column x) (c_lastch x) (c_chunking x) (c_doing_chunking x) (c_chunkbuf x) (c_chunkspace x) (c_remotemsg x) (c_remotemsgs x) (c_cmdstate x) (c_prevcmdstate x) (c_gotalarm x) (c_getout x) (c_close_after_data x) (c_readalready x) (c_message x) (c_let_buffer x) (c_filepos x) (c_verboselog x) (c_literalport x) (c_firstmx x) (c_mxcount x) (c_mxh x) (c_myhostname x) (c_remotehost x) (c_ipaddress x) (c_ai x) (c_ismx x) (c_cnames x) (c_ranny x) (c_desc x) (c_ta x) (c_trace x).
Definition set_c_msize (v : Z) (x : client) : client :=
  Client (c_ehlo_capabilities x) (c_esmtp_on_banner x) (c_within_ehlo x) (c_smtp_bufsize x) (c_smtp_outcount x) (c_block_written x) (c_ehlo_sizeval x) (c_ehlo_deliverbyval x) (c_rcpt_limit x) (c_smtpfd x) (c_smtpfp x) (c_fileno x) (c_sferror x) (c_do_rset x) (c_hsize x) v (c_pipelining x) (c_pipebuf x) (c_pipe x) (c_pipereplies x) (c_continuation_line x) (c_first_line x) (c_rcptcnt x) (c_rcptstates x) (c_state x) (c_alarmcnt x) (c_column x) (c_lastch x) (c_chunking x) (c_doing_chunking x) (c_chunkbuf x) (c_chunkspace x) (c_remotemsg x) (c_remotemsgs x) (c_cmdstate x) (c_prevcmdstate x) (c_gotalarm x) (c_getout x) (c_close_after_data x) (c_readalready x) (c_message x) (c_let_buffer x) (c_filepos x) (c_verboselog x) (c_literalport x) (c_firstmx x) (c_mxcount x) (c_mxh x) (c_myhostname x) (c_remotehost x) (c_ipaddress x) (c_ai x) (c_ismx x) (c_cnames x) (c_ranny x) (c_desc x) (c_ta x) (c_trace x).
Definition set_c_pipelining (v : bool) (x : client) : client :=
  Client (c_ehlo_capabilities x) (c_esmtp_on_banner x) (c_within_ehlo x) (c_smtp_bufsize x) (c_smtp_outcount x) (c_block_written x) (c_ehlo_sizeval x) (c_ehlo_deliverbyval x) (c_rcpt_limit x) (c_smtpfd x) (c_smtpfp x) (c_fileno x) (c_sferror x) (c_do_rset x) (c_hsize x) (c_msize x) v (c_pipebuf x) (c_pipe x) (c_pipereplies x) (c_continuation_line x) (c_first_line x) (c_rcptcnt x) (c_rcptstates x) (c_state x) (c_alarmcnt x) (c_column x) (c_lastch x) (c_chunking x) (c_doing_chunking x) (c_chunkbuf x) (c_chunkspace x) (c_remotemsg x) (c_remotemsgs x) (c_cmdstate x) (c_prevcmdstate x) (c_gotalarm x) (c_getout x) (c_close_after_data x) (c_readalready x) (c_message x) (c_let_buffer x) (c_filepos x) (c_verboselog x) (c_literalport x) (c_firstmx x) (c_mxcount x) (c_mxh x) (c_myhostname x) (c_remotehost x) (c_ipaddress x) (c_ai x) (c_ismx x) (c_cnames x) (c_ranny x) (c_desc x) (c_ta x) (c_trace x).
Definition set_c_pipebuf (v : list Z) (x : client) : client :=
  Client (c_ehlo_capabilities x) (c_esmtp_on_banner x) (c_within_ehlo x) (c_smtp_bufsize x) (c_smtp_outcount x) (c_block_written x) (c_ehlo_sizeval x) (c_ehlo_deliverbyval x) (c_rcpt_limit x) (c_smtpfd x) (c_smtpfp x) (c_fileno x) (c_sferror x) (c_do_rset x) (c_hsize x) (c_msize x) (c_pipelining x) v (c_pipe x) (c_pipereplies x) (c_continuation_line x) (c_first_line x) (c_rcptcnt x) (c_rcptstates x) (c_state x) (c_alarmcnt x) (c_column x) (c_lastch x) (c_chunking x) (c_doing_chunking x) (c_chunkbuf x) (c_chunkspace x) (c_remotemsg x) (c_remotemsgs x) (c_cmdstate x) (c_prevcmdstate x) (c_gotalarm x) (c_getout x) (c_close_after_data x) (c_readalready x) (c_message x) (c_let_buffer x) (c_filepos x) (c_verboselog x) (c_literalport x) (c_firstmx x) (c_mxcount x) (c_mxh x) (c_myhostname x) (c_remotehost x) (c_ipaddress x) (c_ai x) (c_ismx x) (c_cnames x) (c_ranny x) (c_desc x) (c_ta x) (c_trace x).
Definition set_c_pipe (v : list pipecmd) (x : client) : client :=
  Client (c_ehlo_capabilities x) (c_esmtp_on_banner x) (c_within_ehlo x) (c_smtp_bufsize x) (c_smtp_outcount x) (c_block_written x) (c_ehlo_sizeval x) (c_ehlo_deliverbyval x) (c_rcpt_limit x) (c_smtpfd x) (c_smtpfp x) (c_fileno x) (c_sferror x) (c_do_rset x) (c_hsize x) (c_msize x) (c_pipelining x) (c_pipebuf x) v (c_pipereplies x) (c_continuation_line x) (c_first_line x) (c_rcptcnt x) (c_rcptstates x) (c_state x) (c_alarmcnt x) (c_column x) (c_lastch x) (c_chunking x) (c_doing_chunking x) (c_chunkbuf x) (c_chunkspace x) (c_remotemsg x) (c_remotemsgs x) (c_cmdstate x) (c_prevcmdstate x) (c_gotalarm x) (c_getout x) (c_close_after_data x) (c_readalready x) (c_message x) (c_let_buffer x) (c_filepos x) (c_verboselog x) (c_literalport x) (c_firstmx x) (c_mxcount x) (c_mxh x) (c_myhostname x) (c_remotehost x) (c_ipaddress x) (c_ai x) (c_ismx x) (c_cnames x) (c_ranny x) (c_desc x) (c_ta x) (c_trace x).
Definition set_c_pipereplies (v : nat) (x : client) : client :=
  Client (c_ehlo_capabilities x) (c_esmtp_on_banner x) (c_within_ehlo x) (c_smtp_bufsize x) (c_smtp_outcount x) (c_block_written x) (c_ehlo_sizeval x) (c_ehlo_deliverbyval x) (c_rcpt_limit x) (c_smtpfd x) (c_smtpfp x) (c_fileno x) (c_sferror x) (c_do_rset x) (c_hsize x) (c_msize x) (c_pipelining x) (c_pipebuf x) (c_pipe x) v (c_continuation_line x) (c_first_line x) (c_rcptcnt x) (c_rcptstates x) (c_state x) (c_alarmcnt x) (c_column x) (c_lastch x) (c_chunking x) (c_doing_chunking x) (c_chunkbuf x) (c_chunkspace x) (c_remotemsg x) (c_remotemsgs x) (c_cmdstate x) (c_prevcmdstate x) (c_gotalarm x) (c_getout x) (c_close_after_data x) (c_readalready x) (c_message x) (c_let_buffer x) (c_filepos x) (c_verboselog x) (c_literalport x) (c_firstmx x) (c_mxcount x) (c_mxh x) (c_myhostname x) (c_remotehost x) (c_ipaddress x) (c_ai x) (c_ismx x) (c_cnames x) (c_ranny x) (c_desc x) (c_ta x) (c_trace x).
Definition set_c_continuation_line (v : bool) (x : client) : client :=
  Client (c_ehlo_capabilities x) (c_esmtp_on_banner x) (c_within_ehlo x) (c_smtp_bufsize x) (c_smtp_outcount x) (c_block_written x) (c_ehlo_sizeval x) (c_ehlo_deliverbyval x) (c_rcpt_limit x) (c_smtpfd x) (c_smtpfp x) (c_fileno x) (c_sferror x) (c_do_rset x) (c_hsize x) (c_msize x) (c_pipelining x) (c_pipebuf x) (c_pipe x) (c_pipereplies x) v (c_first_line x) (c_rcptcnt x) (c_rcptstates x) (c_state x) (c_alarmcnt x) (c_column x) (c_lastch x) (c_chunking x) (c_doing_chunking x) (c_chunkbuf x) (c_chunkspace x) (c_remotemsg x) (c_remotemsgs x) (c_cmdstate x) (c_prevcmdstate x) (c_gotalarm x) (c_getout x) (c_close_after_data x) (c_readalready x) (c_message x) (c_let_buffer x) (c_filepos x) (c_verboselog x) (c_literalport x) (c_firstmx x) (c_mxcount x) (c_mxh x) (c_myhostname x) (c_remotehost x) (c_ipaddress x) (c_ai x) (c_ismx x) (c_cnames x) (c_ranny x) (c_desc x) (c_ta x) (c_trace x).
Definition set_c_first_line (v : bool) (x : client) : client :=
  Client (c_ehlo_capabilities x) (c_esmtp_on_banner x) (c_within_ehlo x) (c_smtp_bufsize x) (c_smtp_outcount x) (c_block_written x) (c_ehlo_sizeval x) (c_ehlo_deliverbyval x) (c_rcpt_limit x) (c_smtpfd x) (c_smtpfp x) (c_fileno x) (c_sferror x) (c_do_rset x) (c_hsize x) (c_msize x) (c_pipelining x) (c_pipebuf x) (c_pipe x) (c_pipereplies x) (c_continuation_line x) v (c_rcptcnt x) (c_rcptstates x) (c_state x) (c_alarmcnt x) (c_column x) (c_lastch x) (c_chunking x) (c_doing_chunking x) (c_chunkbuf x) (c_chunkspace x) (c_remotemsg x) (c_remotemsgs x) (c_cmdstate x) (c_prevcmdstate x) (c_gotalarm x) (c_getout x) (c_close_after_data x) (c_readalready x) (c_message x) (c_let_buffer x) (c_filepos x) (c_verboselog x) (c_literalport x) (c_firstmx x) (c_mxcount x) (c_mxh x) (c_myhostname x) (c_remotehost x) (c_ipaddress x) (c_ai x) (c_ismx x) (c_cnames x) (c_ranny x) (c_desc x) (c_ta x) (c_trace x).
Definition set_c_rcptcnt (v : Z) (x : client) : client :=
  Client (c_ehlo_capabilities x) (c_esmtp_on_banner x) (c_within_ehlo x) (c_smtp_bufsize x) (c_smtp_outcount x) (c_block_written x) (c_ehlo_sizeval x) (c_ehlo_deliverbyval x) (c_rcpt_limit x) (c_smtpfd x) (c_smtpfp x) (c_fileno x) (c_sferror x) (c_do_rset x) (c_hsize x) (c_msize x) (c_pipelining x) (c_pipebuf x) (c_pipe x) (c_pipereplies x) (c_continuation_line x) (c_first_line x) v (c_rcptstates x) (c_state x) (c_alarmcnt x) (c_column x) (c_lastch x) (c_chunking x) (c_doing_chunking x) (c_chunkbuf x) (c_chunkspace x) (c_remotemsg x) (c_remotemsgs x) (c_cmdstate x) (c_prevcmdstate x) (c_gotalarm x) (c_getout x) (c_close_after_data x) (c_readalready x) (c_message x) (c_let_buffer x) (c_filepos x) (c_verboselog x) (c_literalport x) (c_firstmx x) (c_mxcount x) (c_mxh x) (c_myhostname x) (c_remotehost x) (c_ipaddress x) (c_ai x) (c_ismx x) (c_cnames x) (c_ranny x) (c_desc x) (c_ta x) (c_trace x).
Definition set_c_rcptstates (v : Z) (x : client) : client :=
  Client (c_ehlo_capabilities x) (c_esmtp_on_banner x) (c_within_ehlo x) (c_smtp_bufsize x) (c_smtp_outcount x) (c_block_written x) (c_ehlo_sizeval x) (c_ehlo_deliverbyval x) (c_rcpt_limit x) (c_smtpfd x) (c_smtpfp x) (c_fileno x) (c_sferror x) (c_do_rset x) (c_hsize x) (c_msize x) (c_pipelining x) (c_pipebuf x) (c_pipe x) (c_pipereplies x) (c_continuation_line x) (c_first_line x) (c_rcptcnt x) v (c_state x) (c_alarmcnt x) (c_column x) (c_lastch x) (c_chunking x) (c_doing_chunking x) (c_chunkbuf x) (c_chunkspace x) (c_remotemsg x) (c_remotemsgs x) (c_cmdstate x) (c_prevcmdstate x) (c_gotalarm x) (c_getout x) (c_close_after_data x) (c_readalready x) (c_message x) (c_let_buffer x) (c_filepos x) (c_verboselog x) (c_literalport x) (c_firstmx x) (c_mxcount x) (c_mxh x) (c_myhostname x) (c_remotehost x) (c_ipaddress x) (c_ai x) (c_ismx x) (c_cnames x) (c_ranny x) (c_desc x) (c_ta x) (c_trace x).
Definition set_c_state (v : bool) (x : client) : client :=
  Client (c_ehlo_capabilities x) (c_esmtp_on_banner x) (c_within_ehlo x) (c_smtp_bufsize x) (c_smtp_outcount x) (c_block_written x) (c_ehlo_sizeval x) (c_ehlo_deliverbyval x) (c_rcpt_limit x) (c_smtpfd x) (c_smtpfp x) (c_fileno x) (c_sferror x) (c_do_rset x) (c_hsize x) (c_msize x) (c_pipelining x) (c_pipebuf x) (c_pipe x) (c_pipereplies x) (c_continuation_line x) (c_first_line x) (c_rcptcnt x) (c_rcptstates x) v (c_alarmcnt x) (c_column x) (c_lastch x) (c_chunking x) (c_doing_chunking x) (c_chunkbuf x) (c_chunkspace x) (c_remotemsg x) (c_remotemsgs x) (c_cmdstate x) (c_prevcmdstate x) (c_gotalarm x) (c_getout x) (c_close_after_data x) (c_readalready x) (c_message x) (c_let_buffer x) (c_filepos x) (c_verboselog x) (c_literalport x) (c_firstmx x) (c_mxcount x) (c_mxh x) (c_myhostname x) (c_remotehost x) (c_ipaddress x) (c_ai x) (c_ismx x) (c_cnames x) (c_ranny x) (c_desc x) (c_ta x) (c_trace x).
Definition set_c_alarmcnt (v : Z) (x : client) : client :=
  Client (c_ehlo_capabilities x) (c_esmtp_on_banner x) (c_within_ehlo x) (c_smtp_bufsize x) (c_smtp_outcount x) (c_block_written x) (c_ehlo_sizeval x) (c_ehlo_deliverbyval x) (c_rcpt_limit x) (c_smtpfd x) (c_smtpfp x) (c_fileno x) (c_sferror x) (c_do_rset x) (c_hsize x) (c_msize x) (c_pipelining x) (c_pipebuf x) (c_pipe x) (c_pipereplies x) (c_continuation_line x) (c_first_line x) (c_rcptcnt x) (c_rcptstates x) (c_state x) v (c_column x) (c_lastch x) (c_chunking x) (c_doing_chunking x) (c_chunkbuf x) (c_chunkspace x) (c_remotemsg x) (c_remotemsgs x) (c_cmdstate x) (c_prevcmdstate x) (c_gotalarm x) (c_getout x) (c_close_after_data x) (c_readalready x) (c_message x) (c_let_buffer x) (c_filepos x) (c_verboselog x) (c_literalport x) (c_firstmx x) (c_mxcount x) (c_mxh x) (c_myhostname x) (c_remotehost x) (c_ipaddress x) (c_ai x) (c_ismx x) (c_cnames x) (c_ranny x) (c_desc x) (c_ta x) (c_trace x).
Definition set_c_column (v : Z) (x : client) : client :=
  Client (c_ehlo_capabilities x) (c_esmtp_on_banner x) (c_within_ehlo x) (c_smtp_bufsize x) (c_smtp_outcount x) (c_block_written x) (c_ehlo_sizeval x) (c_ehlo_deliverbyval x) (c_rcpt_limit x) (c_smtpfd x) (c_smtpfp x) (c_fileno x) (c_sferror x) (c_do_rset x) (c_hsize x) (c_msize x) (c_pipelining x) (c_pipebuf x) (c_pipe x) (c_pipereplies x) (c_continuation_line x) (c_first_line x) (c_rcptcnt x) (c_rcptstates x) (c_state x) (c_alarmcnt x) v (c_lastch x) (c_chunking x) (c_doing_chunking x) (c_chunkbuf x) (c_chunkspace x) (c_remotemsg x) (c_remotemsgs x) (c_cmdstate x) (c_prevcmdstate x) (c_gotalarm x) (c_getout x) (c_close_after_data x) (c_readalready x) (c_message x) (c_let_buffer x) (c_filepos x) (c_verboselog x) (c_literalport x) (c_firstmx x) (c_mxcount x) (c_mxh x) (c_myhostname x) (c_remotehost x) (c_ipaddress x) (c_ai x) (c_ismx x) (c_cnames x) (c_ranny x) (c_desc x) (c_ta x) (c_trace x).
Definition set_c_lastch (v : Z) (x : client) : client :=
  Client (c_ehlo_capabilities x) (c_esmtp_on_banner x) (c_within_ehlo x) (c_smtp_bufsize x) (c_smtp_outcount x) (c_block_written x) (c_ehlo_sizeval x) (c_ehlo_deliverbyval x) (c_rcpt_limit x) (c_smtpfd x) (c_smtpfp x) (c_fileno x) (c_sferror x) (c_do_rset x) (c_hsize x) (c_msize x) (c_pipelining x) (c_pipebuf x) (c_pipe x) (c_pipereplies x) (c_continuation_line x) (c_first_line x) (c_rcptcnt x) (c_rcptstates x) (c_state x) (c_alarmcnt x) (c_column x) v (c_chunking x) (c_doing_chunking x) (c_chunkbuf x) (c_chunkspace x) (c_remotemsg x) (c_remotemsgs x) (c_cmdstate x) (c_prevcmdstate x) (c_gotalarm x) (c_getout x) (c_close_after_data x) (c_readalready x) (c_message x) (c_let_buffer x) (c_filepos x) (c_verboselog x) (c_literalport x) (c_firstmx x) (c_mxcount x) (c_mxh x) (c_myhostname x) (c_remotehost x) (c_ipaddress x) (c_ai x) (c_ismx x) (c_cnames x) (c_ranny x) (c_desc x) (c_ta x) (c_trace x).
Definition set_c_chunking (v : bool) (x : client) : client :=
  Client (c_ehlo_capabilities x) (c_esmtp_on_banner x) (c_within_ehlo x) (c_smtp_bufsize x) (c_smtp_outcount x) (c_block_written x) (c_ehlo_sizeval x) (c_ehlo_deliverbyval x) (c_rcpt_limit x) (c_smtpfd x) (c_smtpfp x) (c_fileno x) (c_sferror x) (c_do_rset x) (c_hsize x) (c_msize x) (c_pipelining x) (c_pipebuf x) (c_pipe x) (c_pipereplies x) (c_continuation_line x) (c_first_line x) (c_rcptcnt x) (c_rcptstates x) (c_state x) (c_alarmcnt x) (c_column x) (c_lastch x) v (c_doing_chunking x) (c_chunkbuf x) (c_chunkspace x) (c_remotemsg x) (c_remotemsgs x) (c_cmdstate x) (c_prevcmdstate x) (c_gotalarm x) (c_getout x) (c_close_after_data x) (c_readalready x) (c_message x) (c_let_buffer x) (c_filepos x) (c_verboselog x) (c_literalport x) (c_firstmx x) (c_mxcount x) (c_mxh x) (c_myhostname x) (c_remotehost x) (c_ipaddress x) (c_ai x) (c_ismx x) (c_cnames x) (c_ranny x) (c_desc x) (c_ta x) (c_trace x).
Definition set_c_doing_chunking (v : bool) (x : client) : client :=
  Client (c_ehlo_capabilities x) (c_esmtp_on_banner x) (c_within_ehlo x) (c_smtp_bufsize x) (c_smtp_outcount x) (c_block_written x) (c_ehlo_sizeval x) (c_ehlo_deliverbyval x) (c_rcpt_limit x) (c_smtpfd x) (c_smtpfp x) (c_fileno x) (c_sferror x) (c_do_rset x) (c_hsize x) (c_msize x) (c_pipelining x) (c_pipebuf x) (c_pipe x) (c_pipereplies x) (c_continuation_line x) (c_first_line x) (c_rcptcnt x) (c_rcptstates x) (c_state x) (c_alarmcnt x) (c_column x) (c_lastch x) (c_chunking x) v (c_chunkbuf x) (c_chunkspace x) (c_remotemsg x) (c_remotemsgs x) (c_cmdstate x) (c_prevcmdstate x) (c_gotalarm x) (c_getout x) (c_close_after_data x) (c_readalready x) (c_message x) (c_let_buffer x) (c_filepos x) (c_verboselog x) (c_literalport x) (c_firstmx x) (c_mxcount x) (c_mxh x) (c_myhostname x) (c_remotehost x) (c_ipaddress x) (c_ai x) (c_ismx x) (c_cnames x) (c_ranny x) (c_desc x) (c_ta x) (c_trace x).
Definition set_c_chunkbuf (v : option (list Z)) (x : client) : client :=
  Client (c_ehlo_capabilities x) (c_esmtp_on_banner x) (c_within_ehlo x) (c_smtp_bufsize x) (c_smtp_outcount x) (c_block_written x) (c_ehlo_sizeval x) (c_ehlo_deliverbyval x) (c_rcpt_limit x) (c_smtpfd x) (c_smtpfp x) (c_fileno x) (c_sferror x) (c_do_rset x) (c_hsize x) (c_msize x) (c_pipelining x) (c_pipebuf x) (c_pipe x) (c_pipereplies x) (c_continuation_line x) (c_first_line x) (c_rcptcnt x) (c_rcptstates x) (c_state x) (c_alarmcnt x) (c_column x) (c_lastch x) (c_chunking x) (c_doing_chunking x) v (c_chunkspace x) (c_remotemsg x) (c_remotemsgs x) (c_cmdstate x) (c_prevcmdstate x) (c_gotalarm x) (c_getout x) (c_close_after_data x) (c_readalready x) (c_message x) (c_let_buffer x) (c_filepos x) (c_verboselog x) (c_literalport x) (c_firstmx x) (c_mxcount x) (c_mxh x) (c_myhostname x) (c_remotehost x) (c_ipaddress x) (c_ai x) (c_ismx x) (c_cnames x) (c_ranny x) (c_desc x) (c_ta x) (c_trace x).
Definition set_c_chunkspace (v : Z) (x : client) : client :=
  Client (c_ehlo_capabilities x) (c_esmtp_on_banner x) (c_within_ehlo x) (c_smtp_bufsize x) (c_smtp_outcount x) (c_block_written x) (c_ehlo_sizeval x) (c_ehlo_deliverbyval x) (c_rcpt_limit x) (c_smtpfd x) (c_smtpfp x) (c_fileno x) (c_sferror x) (c_do_rset x) (c_hsize x) (c_msize x) (c_pipelining x) (c_pipebuf x) (c_pipe x) (c_pipereplies x) (c_continuation_line x) (c_first_line x) (c_rcptcnt x) (c_rcptstates x) (c_state x) (c_alarmcnt x) (c_column x) (c_lastch x) (c_chunking x) (c_doing_chunking x) (c_chunkbuf x) v (c_remotemsg x) (c_remotemsgs x) (c_cmdstate x) (c_prevcmdstate x) (c_gotalarm x) (c_getout x) (c_close_after_data x) (c_readalready x) (c_message x) (c_let_buffer x) (c_filepos x) (c_verboselog x) (c_literalport x) (c_firstmx x) (c_mxcount x) (c_mxh x) (c_myhostname x) (c_remotehost x) (c_ipaddress x) (c_ai x) (c_ismx x) (c_cnames x) (c_ranny x) (c_desc x) (c_ta x) (c_trace x).
Definition set_c_remotemsg (v : list Z) (x : client) : client :=
  Client (c_ehlo_capabilities x) (c_esmtp_on_banner x) (c_within_ehlo x) (c_smtp_bufsize x) (c_smtp_outcount x) (c_block_written x) (c_ehlo_sizeval x) (c_ehlo_deliverbyval x) (c_rcpt_limit x) (c_smtpfd x) (c_smtpfp x) (c_fileno x) (c_sferror x) (c_do_rset x) (c_hsize x) (c_msize x) (c_pipelining x) (c_pipebuf x) (c_pipe x) (c_pipereplies x) (c_continuation_line x) (c_first_line x) (c_rcptcnt x) (c_rcptstates x) (c_state x) (c_alarmcnt x) (c_column x) (c_lastch x) (c_chunking x) (c_doing_chunking x) (c_chunkbuf x) (c_chunkspace x) v (c_remotemsgs x) (c_cmdstate x) (c_prevcmdstate x) (c_gotalarm x) (c_getout x) (c_close_after_data x) (c_readalready x) (c_message x) (c_let_buffer x) (c_filepos x) (c_verboselog x) (c_literalport x) (c_firstmx x) (c_mxcount x) (c_mxh x) (c_myhostname x) (c_remotehost x) (c_ipaddress x) (c_ai x) (c_ismx x) (c_cnames x) (c_ranny x) (c_desc x) (c_ta x) (c_trace x).
Definition set_c_remotemsgs (v : list (option nat)) (x : client) : client :=
  Client (c_ehlo_capabilities x) (c_esmtp_on_banner x) (c_within_ehlo x) (c_smtp_bufsize x) (c_smtp_outcount x) (c_block_written x) (c_ehlo_sizeval x) (c_ehlo_deliverbyval x) (c_rcpt_limit x) (c_smtpfd x) (c_smtpfp x) (c_fileno x) (c_sferror x) (c_do_rset x) (c_hsize x) (c_msize x) (c_pipelining x) (c_pipebuf x) (c_pipe x) (c_pipereplies x) (c_continuation_line x) (c_first_line x) (c_rcptcnt x) (c_rcptstates x) (c_state x) (c_alarmcnt x) (c_column x) (c_lastch x) (c_chunking x) (c_doing_chunking x) (c_chunkbuf x) (c_chunkspace x) (c_remotemsg x) v (c_cmdstate x) (c_prevcmdstate x) (c_gotalarm x) (c_getout x) (c_close_after_data x) (c_readalready x) (c_message x) (c_let_buffer x) (c_filepos x) (c_verboselog x) (c_literalport x) (c_firstmx x) (c_mxcount x) (c_mxh x) (c_myhostname x) (c_remotehost x) (c_ipaddress x) (c_ai x) (c_ismx x) (c_cnames x) (c_ranny x) (c_desc x) (c_ta x) (c_trace x).
Definition set_c_cmdstate (v : nat) (x : client) : client :=
  Client (c_ehlo_capabilities x) (c_esmtp_on_banner x) (c_within_ehlo x) (c_smtp_bufsize x) (c_smtp_outcount x) (c_block_written x) (c_ehlo_sizeval x) (c_ehlo_deliverbyval x) (c_rcpt_limit x) (c_smtpfd x) (c_smtpfp x) (c_fileno x) (c_sferror x) (c_do_rset x) (c_hsize x) (c_msize x) (c_pipelining x) (c_pipebuf x) (c_pipe x) (c_pipereplies x) (c_continuation_line x) (c_first_line x) (c_rcptcnt x) (c_rcptstates x) (c_state x) (c_alarmcnt x) (c_column x) (c_lastch x) (c_chunking x) (c_doing_chunking x) (c_chunkbuf x) (c_chunkspace x) (c_remotemsg x) (c_remotemsgs x) v (c_prevcmdstate x) (c_gotalarm x) (c_getout x) (c_close_after_data x) (c_readalready x) (c_message x) (c_let_buffer x) (c_filepos x) (c_verboselog x) (c_literalport x) (c_firstmx x) (c_mxcount x) (c_mxh x) (c_myhostname x) (c_remotehost x) (c_ipaddress x) (c_ai x) (c_ismx x) (c_cnames x) (c_ranny x) (c_desc x) (c_ta x) (c_trace x).
Definition set_c_prevcmdstate (v : nat) (x : client) : client :=
  Client (c_ehlo_capabilities x) (c_esmtp_on_banner x) (c_within_ehlo x) (c_smtp_bufsize x) (c_smtp_outcount x) (c_block_written x) (c_ehlo_sizeval x) (c_ehlo_deliverbyval x) (c_rcpt_limit x) (c_smtpfd x) (c_smtpfp x) (c_fileno x) (c_sferror x) (c_do_rset x) (c_hsize x) (c_msize x) (c_pipelining x) (c_pipebuf x) (c_pipe x) (c_pipereplies x) (c_continuation_line x) (c_first_line x) (c_rcptcnt x) (c_rcptstates x) (c_state x) (c_alarmcnt x) (c_column x) (c_lastch x) (c_chunking x) (c_doing_chunking x) (c_chunkbuf x) (c_chunkspace x) (c_remotemsg x) (c_remotemsgs x) (c_cmdstate x) v (c_gotalarm x) (c_getout x) (c_close_after_data x) (c_readalready x) (c_message x) (c_let_buffer x) (c_filepos x) (c_verboselog x) (c_literalport x) (c_firstmx x) (c_mxcount x) (c_mxh x) (c_myhostname x) (c_remotehost x) (c_ipaddress x) (c_ai x) (c_ismx x) (c_cnames x) (c_ranny x) (c_desc x) (c_ta x) (c_trace x).
Definition set_c_gotalarm (v : bool) (x : client) : client :=
  Client (c_ehlo_capabilities x) (c_esmtp_on_banner x) (c_within_ehlo x) (c_smtp_bufsize x) (c_smtp_outcount x) (c_block_written x) (c_ehlo_sizeval x) (c_ehlo_deliverbyval x) (c_rcpt_limit x) (c_smtpfd x) (c_smtpfp x) (c_fileno x) (c_sferror x) (c_do_rset x) (c_hsize x) (c_msize x) (c_pipelining x) (c_pipebuf x) (c_pipe x) (c_pipereplies x) (c_continuation_line x) (c_first_line x) (c_rcptcnt x) (c_rcptstates x) (c_state x) (c_alarmcnt x) (c_column x) (c_lastch x) (c_chunking x) (c_doing_chunking x) (c_chunkbuf x) (c_chunkspace x) (c_remotemsg x) (c_remotemsgs x) (c_cmdstate x) (c_prevcmdstate x) v (c_getout x) (c_close_after_data x) (c_readalready x) (c_message x) (c_let_buffer x) (c_filepos x) (c_verboselog x) (c_literalport x) (c_firstmx x) (c_mxcount x) (c_mxh x) (c_myhostname x) (c_remotehost x) (c_ipaddress x) (c_ai x) (c_ismx x) (c_cnames x) (c_ranny x) (c_desc x) (c_ta x) (c_trace x).
Definition set_c_getout (v : bool) (x : client) : client :=
  Client (c_ehlo_capabilities x) (c_esmtp_on_banner x) (c_within_ehlo x) (c_smtp_bufsize x) (c_smtp_outcount x) (c_block_written x) (c_ehlo_sizeval x) (c_ehlo_deliverbyval x) (c_rcpt_limit x) (c_smtpfd x) (c_smtpfp x) (c_fileno x) (c_sferror x) (c_do_rset x) (c_hsize x) (c_msize x) (c_pipelining x) (c_pipebuf x) (c_pipe x) (c_pipereplies x) (c_continuation_line x) (c_first_line x) (c_rcptcnt x) (c_rcptstates x) (c_state x) (c_alarmcnt x) (c_column x) (c_lastch x) (c_chunking x) (c_doing_chunking x) (c_chunkbuf x) (c_chunkspace x) (c_remotemsg x) (c_remotemsgs x) (c_cmdstate x) (c_prevcmdstate x) (c_gotalarm x) v (c_close_after_data x) (c_readalready x) (c_message x) (c_let_buffer x) (c_filepos x) (c_verboselog x) (c_literalport x) (c_firstmx x) (c_mxcount x) (c_mxh x) (c_myhostname x) (c_remotehost x) (c_ipaddress x) (c_ai x) (c_ismx x) (c_cnames x) (c_ranny x) (c_desc x) (c_ta x) (c_trace x).
Definition set_c_close_after_data (v : bool) (x : client) : client :=
  Client (c_ehlo_capabilities x) (c_esmtp_on_banner x) (c_within_ehlo x) (c_smtp_bufsize x) (c_smtp_outcount x) (c_block_written x) (c_ehlo_sizeval x) (c_ehlo_deliverbyval x) (c_rcpt_limit x) (c_smtpfd x) (c_smtpfp x) (c_fileno x) (c_sferror x) (c_do_rset x) (c_hsize x) (c_msize x) (c_pipelining x) (c_pipebuf x) (c_pipe x) (c_pipereplies x) (c_continuation_line x) (c_first_line x) (c_rcptcnt x) (c_rcptstates x) (c_state x) (c_alarmcnt x) (c_column x) (c_lastch x) (c_chunking x) (c_doing_chunking x) (c_chunkbuf x) (c_chunkspace x) (c_remotemsg x) (c_remotemsgs x) (c_cmdstate x) (c_prevcmdstate x) (c_gotalarm x) (c_getout x) v (c_readalready x) (c_message x) (c_let_buffer x) (c_filepos x) (c_verboselog x) (c_literalport x) (c_firstmx x) (c_mxcount x) (c_mxh x) (c_myhostname x) (c_remotehost x) (c_ipaddress x) (c_ai x) (c_ismx x) (c_cnames x) (c_ranny x) (c_desc x) (c_ta x) (c_trace x).
Definition set_c_readalready (v : nat) (x : client) : client :=
  Client (c_ehlo_capabilities x) (c_esmtp_on_banner x) (c_within_ehlo x) (c_smtp_bufsize x) (c_smtp_outcount x) (c_block_written x) (c_ehlo_sizeval x) (c_ehlo_deliverbyval x) (c_rcpt_limit x) (c_smtpfd x) (c_smtpfp x) (c_fileno x) (c_sferror x) (c_do_rset x) (c_hsize x) (c_msize x) (c_pipelining x) (c_pipebuf x) (c_pipe x) (c_pipereplies x) (c_continuation_line x) (c_first_line x) (c_rcptcnt x) (c_rcptstates x) (c_state x) (c_alarmcnt x) (c_column x) (c_lastch x) (c_chunking x) (c_doing_chunking x) (c_chunkbuf x) (c_chunkspace x) (c_remotemsg x) (c_remotemsgs x) (c_cmdstate x) (c_prevcmdstate x) (c_gotalarm x) (c_getout x) (c_close_after_data x) v (c_message x) (c_let_buffer x) (c_filepos x) (c_verboselog x) (c_literalport x) (c_firstmx x) (c_mxcount x) (c_mxh x) (c_myhostname x) (c_remotehost x) (c_ipaddress x) (c_ai x) (c_ismx x) (c_cnames x) (c_ranny x) (c_desc x) (c_ta x) (c_trace x).
Definition set_c_message (v : list Z) (x : client) : client :=
  Client (c_ehlo_capabilities x) (c_esmtp_on_banner x) (c_within_ehlo x) (c_smtp_bufsize x) (c_smtp_outcount x) (c_block_written x) (c_ehlo_sizeval x) (c_ehlo_deliverbyval x) (c_rcpt_limit x) (c_smtpfd x) (c_smtpfp x) (c_fileno x) (c_sferror x) (c_do_rset x) (c_hsize x) (c_msize x) (c_pipelining x) (c_pipebuf x) (c_pipe x) (c_pipereplies x) (c_continuation_line x) (c_first_line x) (c_rcptcnt x) (c_rcptstates x) (c_state x) (c_alarmcnt x) (c_column x) (c_lastch x) (c_chunking x) (c_doing_chunking x) (c_chunkbuf x) (c_chunkspace x) (c_remotemsg x) (c_remotemsgs x) (c_cmdstate x) (c_prevcmdstate x) (c_gotalarm x) (c_getout x) (c_close_after_data x) (c_readalready x) v (c_let_buffer x) (c_filepos x) (c_verboselog x) (c_literalport x) (c_firstmx x) (c_mxcount x) (c_mxh x) (c_myhostname x) (c_remotehost x) (c_ipaddress x) (c_ai x) (c_ismx x) (c_cnames x) (c_ranny x) (c_desc x) (c_ta x) (c_trace x).
Definition set_c_let_buffer (v : list Z) (x : client) : client :=
  Client (c_ehlo_capabilities x) (c_esmtp_on_banner x) (c_within_ehlo x) (c_smtp_bufsize x) (c_smtp_outcount x) (c_block_written x) (c_ehlo_sizeval x) (c_ehlo_deliverbyval x) (c_rcpt_limit x) (c_smtpfd x) (c_smtpfp x) (c_fileno x) (c_sferror x) (c_do_rset x) (c_hsize x) (c_msize x) (c_pipelining x) (c_pipebuf x) (c_pipe x) (c_pipereplies x) (c_continuation_line x) (c_first_line x) (c_rcptcnt x) (c_rcptstates x) (c_state x) (c_alarmcnt x) (c_column x) (c_lastch x) (c_chunking x) (c_doing_chunking x) (c_chunkbuf x) (c_chunkspace x) (c_remotemsg x) (c_remotemsgs x) (c_cmdstate x) (c_prevcmdstate x) (c_gotalarm x) (c_getout x) (c_close_after_data x) (c_readalready x) (c_message x) v (c_filepos x) (c_verboselog x) (c_literalport x) (c_firstmx x) (c_mxcount x) (c_mxh x) (c_myhostname x) (c_remotehost x) (c_ipaddress x) (c_ai x) (c_ismx x) (c_cnames x) (c_ranny x) (c_desc x) (c_ta x) (c_trace x).
Definition set_c_filepos (v : nat) (x : client) : client :=
  Client (c_ehlo_capabilities x) (c_esmtp_on_banner x) (c_within_ehlo x) (c_smtp_bufsize x) (c_smtp_outcount x) (c_block_written x) (c_ehlo_sizeval x) (c_ehlo_deliverbyval x) (c_rcpt_limit x) (c_smtpfd x) (c_smtpfp x) (c_fileno x) (c_sferror x) (c_do_rset x) (c_hsize x) (c_msize x) (c_pipelining x) (c_pipebuf x) (c_pipe x) (c_pipereplies x) (c_continuation_line x) (c_first_line x) (c_rcptcnt x) (c_rcptstates x) (c_state x) (c_alarmcnt x) (c_column x) (c_lastch x) (c_chunking x) (c_doing_chunking x) (c_chunkbuf x) (c_chunkspace x) (c_remotemsg x) (c_remotemsgs x) (c_cmdstate x) (c_prevcmdstate x) (c_gotalarm x) (c_getout x) (c_close_after_data x) (c_readalready x) (c_message x) (c_let_buffer x) v (c_verboselog x) (c_literalport x) (c_firstmx x) (c_mxcount x) (c_mxh x) (c_myhostname x) (c_remotehost x) (c_ipaddress x) (c_ai x) (c_ismx x) (c_cnames x) (c_ranny x) (c_desc x) (c_ta x) (c_trace x).
Definition set_c_verboselog (v : bool) (x : client) : client :=
  Client (c_ehlo_capabilities x) (c_esmtp_on_banner x) (c_within_ehlo x) (c_smtp_bufsize x) (c_smtp_outcount x) (c_block_written x) (c_ehlo_sizeval x) (c_ehlo_deliverbyval x) (c_rcpt_limit x) (c_smtpfd x) (c_smtpfp x) (c_fileno x) (c_sferror x) (c_do_rset x) (c_hsize x) (c_msize x) (c_pipelining x) (c_pipebuf x) (c_pipe x) (c_pipereplies x) (c_continuation_line x) (c_first_line x) (c_rcptcnt x) (c_rcptstates x) (c_state x) (c_alarmcnt x) (c_column x) (c_lastch x) (c_chunking x) (c_doing_chunking x) (c_chunkbuf x) (c_chunkspace x) (c_remotemsg x) (c_remotemsgs x) (c_cmdstate x) (c_prevcmdstate x) (c_gotalarm x) (c_getout x) (c_close_after_data x) (c_readalready x) (c_message x) (c_let_buffer x) (c_filepos x) v (c_literalport x) (c_firstmx x) (c_mxcount x) (c_mxh x) (c_myhostname x) (c_remotehost x) (c_ipaddress x) (c_ai x) (c_ismx x) (c_cnames x) (c_ranny x) (c_desc x) (c_ta x) (c_trace x).
Definition set_c_literalport (v : Z) (x : client) : client :=
  Client (c_ehlo_capabilities x) (c_esmtp_on_banner x) (c_within_ehlo x) (c_smtp_bufsize x) (c_smtp_outcount x) (c_block_written x) (c_ehlo_sizeval x) (c_ehlo_deliverbyval x) (c_rcpt_limit x) (c_smtpfd x) (c_smtpfp x) (c_fileno x) (c_sferror x) (c_do_rset x) (c_hsize x) (c_msize x) (c_pipelining x) (c_pipebuf x) (c_pipe x) (c_pipereplies x) (c_continuation_line x) (c_first_line x) (c_rcptcnt x) (c_rcptstates x) (c_state x) (c_alarmcnt x) (c_column x) (c_lastch x) (c_chunking x) (c_doing_chunking x) (c_chunkbuf x) (c_chunkspace x) (c_remotemsg x) (c_remotemsgs x) (c_cmdstate x) (c_prevcmdstate x) (c_gotalarm x) (c_getout x) (c_close_after_data x) (c_readalready x) (c_message x) (c_let_buffer x) (c_filepos x) (c_verboselog x) v (c_firstmx x) (c_mxcount x) (c_mxh x) (c_myhostname x) (c_remotehost x) (c_ipaddress x) (c_ai x) (c_ismx x) (c_cnames x) (c_ranny x) (c_desc x) (c_ta x) (c_trace x).
Definition set_c_firstmx (v : nat) (x : client) : client :=
  Client (c_ehlo_capabilities x) (c_esmtp_on_banner x) (c_within_ehlo x) (c_smtp_bufsize x) (c_smtp_outcount x) (c_block_written x) (c_ehlo_sizeval x) (c_ehlo_deliverbyval x) (c_rcpt_limit x) (c_smtpfd x) (c_smtpfp x) (c_fileno x) (c_sferror x) (c_do_rset x) (c_hsize x) (c_msize x) (c_pipelining x) (c_pipebuf x) (c_pipe x) (c_pipereplies x) (c_continuation_line x) (c_first_line x) (c_rcptcnt x) (c_rcptstates x) (c_state x) (c_alarmcnt x) (c_column x) (c_lastch x) (c_chunking x) (c_doing_chunking x) (c_chunkbuf x) (c_chunkspace x) (c_remotemsg x) (c_remotemsgs x) (c_cmdstate x) (c_prevcmdstate x) (c_gotalarm x) (c_getout x) (c_close_after_data x) (c_readalready x) (c_message x) (c_let_buffer x) (c_filepos x) (c_verboselog x) (c_literalport x) v (c_mxcount x) (c_mxh x) (c_myhostname x) (c_remotehost x) (c_ipaddress x) (c_ai x) (c_ismx x) (c_cnames x) (c_ranny x) (c_desc x) (c_ta x) (c_trace x).
Definition set_c_mxcount (v : nat) (x : client) : client :=
  Client (c_ehlo_capabilities x) (c_esmtp_on_banner x) (c_within_ehlo x) (c_smtp_bufsize x) (c_smtp_outcount x) (c_block_written x) (c_ehlo_sizeval x) (c_ehlo_deliverbyval x) (c_rcpt_limit x) (c_smtpfd x) (c_smtpfp x) (c_fileno x) (c_sferror x) (c_do_rset x) (c_hsize x) (c_msize x) (c_pipelining x) (c_pipebuf x) (c_pipe x) (c_pipereplies x) (c_continuation_line x) (c_first_line x) (c_rcptcnt x) (c_rcptstates x) (c_state x) (c_alarmcnt x) (c_column x) (c_lastch x) (c_chunking x) (c_doing_chunking x) (c_chunkbuf x) (c_chunkspace x) (c_remotemsg x) (c_remotemsgs x) (c_cmdstate x) (c_prevcmdstate x) (c_gotalarm x) (c_getout x) (c_close_after_data x) (c_readalready x) (c_message x) (c_let_buffer x) (c_filepos x) (c_verboselog x) (c_literalport x) (c_firstmx x) v (c_mxh x) (c_myhostname x) (c_remotehost x) (c_ipaddress x) (c_ai x) (c_ismx x) (c_cnames x) (c_ranny x) (c_desc x) (c_ta x) (c_trace x).
Definition set_c_mxh (v : list mxdata) (x : client) : client :=
  Client (c_ehlo_capabilities x) (c_esmtp_on_banner x) (c_within_ehlo x) (c_smtp_bufsize x) (c_smtp_outcount x) (c_block_written x) (c_ehlo_sizeval x) (c_ehlo_deliverbyval x) (c_rcpt_limit x) (c_smtpfd x) (c_smtpfp x) (c_fileno x) (c_sferror x) (c_do_rset x) (c_hsize x) (c_msize x) (c_pipelining x) (c_pipebuf x) (c_pipe x) (c_pipereplies x) (c_continuation_line x) (c_first_line x) (c_rcptcnt x) (c_rcptstates x) (c_state x) (c_alarmcnt x) (c_column x) (c_lastch x) (c_chunking x) (c_doing_chunking x) (c_chunkbuf x) (c_chunkspace x) (c_remotemsg x) (c_remotemsgs x) (c_cmdstate x) (c_prevcmdstate x) (c_gotalarm x) (c_getout x) (c_close_after_data x) (c_readalready x) (c_message x) (c_let_buffer x) (c_filepos x) (c_verboselog x) (c_literalport x) (c_firstmx x) (c_mxcount x) v (c_myhostname x) (c_remotehost x) (c_ipaddress x) (c_ai x) (c_ismx x) (c_cnames x) (c_ranny x) (c_desc x) (c_ta x) (c_trace x).
Definition set_c_myhostname (v : option (list Z)) (x : client) : client :=
  Client (c_ehlo_capabilities x) (c_esmtp_on_banner x) (c_within_ehlo x) (c_smtp_bufsize x) (c_smtp_outcount x) (c_block_written x) (c_ehlo_sizeval x) (c_ehlo_deliverbyval x) (c_rcpt_limit x) (c_smtpfd x) (c_smtpfp x) (c_fileno x) (c_sferror x) (c_do_rset x) (c_hsize x) (c_msize x) (c_pipelining x) (c_pipebuf x) (c_pipe x) (c_pipereplies x) (c_continuation_line x) (c_first_line x) (c_rcptcnt x) (c_rcptstates x) (c_state x) (c_alarmcnt x) (c_column x) (c_lastch x) (c_chunking x) (c_doing_chunking x) (c_chunkbuf x) (c_chunkspace x) (c_remotemsg x) (c_remotemsgs x) (c_cmdstate x) (c_prevcmdstate x) (c_gotalarm x) (c_getout x) (c_close_after_data x) (c_readalready x) (c_message x) (c_let_buffer x) (c_filepos x) (c_verboselog x) (c_literalport x) (c_firstmx x) (c_mxcount x) (c_mxh x) v (c_remotehost x) (c_ipaddress x) (c_ai x) (c_ismx x) (c_cnames x) (c_ranny x) (c_desc x) (c_ta x) (c_trace x).
Definition set_c_remotehost (v : list Z) (x : client) : client :=
  Client (c_ehlo_capabilities x) (c_esmtp_on_banner x) (c_within_ehlo x) (c_smtp_bufsize x) (c_smtp_outcount x) (c_block_written x) (c_ehlo_sizeval x) (c_ehlo_deliverbyval x) (c_rcpt_limit x) (c_smtpfd x) (c_smtpfp x) (c_fileno x) (c_sferror x) (c_do_rset x) (c_hsize x) (c_msize x) (c_pipelining x) (c_pipebuf x) (c_pipe x) (c_pipereplies x) (c_continuation_line x) (c_first_line x) (c_rcptcnt x) (c_rcptstates x) (c_state x) (c_alarmcnt x) (c_column x) (c_lastch x) (c_chunking x) (c_doing_chunking x) (c_chunkbuf x) (c_chunkspace x) (c_remotemsg x) (c_remotemsgs x) (c_cmdstate x) (c_prevcmdstate x) (c_gotalarm x) (c_getout x) (c_close_after_data x) (c_readalready x) (c_message x) (c_let_buffer x) (c_filepos x) (c_verboselog x) (c_literalport x) (c_firstmx x) (c_mxcount x) (c_mxh x) (c_myhostname x) v (c_ipaddress x) (c_ai x) (c_ismx x) (c_cnames x) (c_ranny x) (c_desc x) (c_ta x) (c_trace x).
Definition set_c_ipaddress (v : list Z) (x : client) : client :=
  Client (c_ehlo_capabilities x) (c_esmtp_on_banner x) (c_within_ehlo x) (c_smtp_bufsize x) (c_smtp_outcount x) (c_block_written x) (c_ehlo_sizeval x) (c_ehlo_deliverbyval x) (c_rcpt_limit x) (c_smtpfd x) (c_smtpfp x) (c_fileno x) (c_sferror x) (c_do_rset x) (c_hsize x) (c_msize x) (c_pipelining x) (c_pipebuf x) (c_pipe x) (c_pipereplies x) (c_continuation_line x) (c_first_line x) (c_rcptcnt x) (c_rcptstates x) (c_state x) (c_alarmcnt x) (c_column x) (c_lastch x) (c_chunking x) (c_doing_chunking x) (c_chunkbuf x) (c_chunkspace x) (c_remotemsg x) (c_remotemsgs x) (c_cmdstate x) (c_prevcmdstate x) (c_gotalarm x) (c_getout x) (c_close_after_data x) (c_readalready x) (c_message x) (c_let_buffer x) (c_filepos x) (c_verboselog x) (c_literalport x) (c_firstmx x) (c_mxcount x) (c_mxh x) (c_myhostname x) (c_remotehost x) v (c_ai x) (c_ismx x) (c_cnames x) (c_ranny x) (c_desc x) (c_ta x) (c_trace x).
Definition set_c_ai (v : option addrinfo) (x : client) : client :=
  Client (c_ehlo_capabilities x) (c_esmtp_on_banner x) (c_within_ehlo x) (c_smtp_bufsize x) (c_smtp_outcount x) (c_block_written x) (c_ehlo_sizeval x) (c_ehlo_deliverbyval x) (c_rcpt_limit x) (c_smtpfd x) (c_smtpfp x) (c_fileno x) (c_sferror x) (c_do_rset x) (c_hsize x) (c_msize x) (c_pipelining x) (c_pipebuf x) (c_pipe x) (c_pipereplies x) (c_continuation_line x) (c_first_line x) (c_rcptcnt x) (c_rcptstates x) (c_state x) (c_alarmcnt x) (c_column x) (c_lastch x) (c_chunking x) (c_doing_chunking x) (c_chunkbuf x) (c_chunkspace x) (c_remotemsg x) (c_remotemsgs x) (c_cmdstate x) (c_prevcmdstate x) (c_gotalarm x) (c_getout x) (c_close_after_data x) (c_readalready x) (c_message x) (c_let_buffer x) (c_filepos x) (c_verboselog x) (c_literalport x) (c_firstmx x) (c_mxcount x) (c_mxh x) (c_myhostname x) (c_remotehost x) (c_ipaddress x) v (c_ismx x) (c_cnames x) (c_ranny x) (c_desc x) (c_ta x) (c_trace x).
Definition set_c_ismx (v : Z) (x : client) : client :=
  Client (c_ehlo_capabilities x) (c_esmtp_on_banner x) (c_within_ehlo x) (c_smtp_bufsize x) (c_smtp_outcount x) (c_block_written x) (c_ehlo_sizeval x) (c_ehlo_deliverbyval x) (c_rcpt_limit x) (c_smtpfd x) (c_smtpfp x) (c_fileno x) (c_sferror x) (c_do_rset x) (c_hsize x) (c_msize x) (c_pipelining x) (c_pipebuf x) (c_pipe x) (c_pipereplies x) (c_continuation_line x) (c_first_line x) (c_rcptcnt x) (c_rcptstates x) (c_state x) (c_alarmcnt x) (c_column x) (c_lastch x) (c_chunking x) (c_doing_chunking x) (c_chunkbuf x) (c_chunkspace x) (c_remotemsg x) (c_remotemsgs x) (c_cmdstate x) (c_prevcmdstate x) (c_gotalarm x) (c_getout x) (c_close_after_data x) (c_readalready x) (c_message x) (c_let_buffer x) (c_filepos x) (c_verboselog x) (c_literalport x) (c_firstmx x) (c_mxcount x) (c_mxh x) (c_myhostname x) (c_remotehost x) (c_ipaddress x) (c_ai x) v (c_cnames x) (c_ranny x) (c_desc x) (c_ta x) (c_trace x).
Definition set_c_cnames (v : cnamecache) (x : client) : client :=
  Client (c_ehlo_capabilities x) (c_esmtp_on_banner x) (c_within_ehlo x) (c_smtp_bufsize x) (c_smtp_outcount x) (c_block_written x) (c_ehlo_sizeval x) (c_ehlo_deliverbyval x) (c_rcpt_limit x) (c_smtpfd x) (c_smtpfp x) (c_fileno x) (c_sferror x) (c_do_rset x) (c_hsize x) (c_msize x) (c_pipelining x) (c_pipebuf x) (c_pipe x) (c_pipereplies x) (c_continuation_line x) (c_first_line x) (c_rcptcnt x) (c_rcptstates x) (c_state x) (c_alarmcnt x) (c_column x) (c_lastch x) (c_chunking x) (c_doing_chunking x) (c_chunkbuf x) (c_chunkspace x) (c_remotemsg x) (c_remotemsgs x) (c_cmdstate x) (c_prevcmdstate x) (c_gotalarm x) (c_getout x) (c_close_after_data x) (c_readalready x) (c_message x) (c_let_buffer x) (c_filepos x) (c_verboselog x) (c_literalport x) (c_firstmx x) (c_mxcount x) (c_mxh x) (c_myhostname x) (c_remotehost x) (c_ipaddress x) (c_ai x) (c_ismx x) v (c_ranny x) (c_desc x) (c_ta x) (c_trace x).
Definition set_c_ranny (v : ranny_state) (x : client) : client :=
  Client (c_ehlo_capabilities x) (c_esmtp_on_banner x) (c_within_ehlo x) (c_smtp_bufsize x) (c_smtp_outcount x) (c_block_written x) (c_ehlo_sizeval x) (c_ehlo_deliverbyval x) (c_rcpt_limit x) (c_smtpfd x) (c_smtpfp x) (c_fileno x) (c_sferror x) (c_do_rset x) (c_hsize x) (c_msize x) (c_pipelining x) (c_pipebuf x) (c_pipe x) (c_pipereplies x) (c_continuation_line x) (c_first_line x) (c_rcptcnt x) (c_rcptstates x) (c_state x) (c_alarmcnt x) (c_column x) (c_lastch x) (c_chunking x) (c_doing_chunking x) (c_chunkbuf x) (c_chunkspace x) (c_remotemsg x) (c_remotemsgs x) (c_cmdstate x) (c_prevcmdstate x) (c_gotalarm x) (c_getout x) (c_close_after_data x) (c_readalready x) (c_message x) (c_let_buffer x) (c_filepos x) (c_verboselog x) (c_literalport x) (c_firstmx x) (c_mxcount x) (c_mxh x) (c_myhostname x) (c_remotehost x) (c_ipaddress x) (c_ai x) (c_ismx x) (c_cnames x) v (c_desc x) (c_ta x) (c_trace x).
Definition set_c_desc (v : ctldesc) (x : client) : client :=
  Client (c_ehlo_capabilities x) (c_esmtp_on_banner x) (c_within_ehlo x) (c_smtp_bufsize x) (c_smtp_outcount x) (c_block_written x) (c_ehlo_sizeval x) (c_ehlo_deliverbyval x) (c_rcpt_limit x) (c_smtpfd x) (c_smtpfp x) (c_fileno x) (c_sferror x) (c_do_rset x) (c_hsize x) (c_msize x) (c_pipelining x) (c_pipebuf x) (c_pipe x) (c_pipereplies x) (c_continuation_line x) (c_first_line x) (c_rcptcnt x) (c_rcptstates x) (c_state x) (c_alarmcnt x) (c_column x) (c_lastch x) (c_chunking x) (c_doing_chunking x) (c_chunkbuf x) (c_chunkspace x) (c_remotemsg x) (c_remotemsgs x) (c_cmdstate x) (c_prevcmdstate x) (c_gotalarm x) (c_getout x) (c_close_after_data x) (c_readalready x) (c_message x) (c_let_buffer x) (c_filepos x) (c_verboselog x) (c_literalport x) (c_firstmx x) (c_mxcount x) (c_mxh x) (c_myhostname x) (c_remotehost x) (c_ipaddress x) (c_ai x) (c_ismx x) (c_cnames x) (c_ranny x) v (c_ta x) (c_trace x).
Definition set_c_ta (v : ta_state) (x : client) : client :=
  Client (c_ehlo_capabilities x) (c_esmtp_on_banner x) (c_within_ehlo x) (c_smtp_bufsize x) (c_smtp_outcount x) (c_block_written x) (c_ehlo_sizeval x) (c_ehlo_deliverbyval x) (c_rcpt_limit x) (c_smtpfd x) (c_smtpfp x) (c_fileno x) (c_sferror x) (c_do_rset x) (c_hsize x) (c_msize x) (c_pipelining x) (c_pipebuf x) (c_pipe x) (c_pipereplies x) (c_continuation_line x) (c_first_line x) (c_rcptcnt x) (c_rcptstates x) (c_state x) (c_alarmcnt x) (c_column x) (c_lastch x) (c_chunking x) (c_doing_chunking x) (c_chunkbuf x) (c_chunkspace x) (c_remotemsg x) (c_remotemsgs x) (c_cmdstate x) (c_prevcmdstate x) (c_gotalarm x) (c_getout x) (c_close_after_data x) (c_readalready x) (c_message x) (c_let_buffer x) (c_filepos x) (c_verboselog x) (c_literalport x) (c_firstmx x) (c_mxcount x) (c_mxh x) (c_myhostname x) (c_remotehost x) (c_ipaddress x) (c_ai x) (c_ismx x) (c_cnames x) (c_ranny x) (c_desc x) v (c_trace x).
Definition set_c_trace (v : list event) (x : client) : client :=
  Client (c_ehlo_capabilities x) (c_esmtp_on_banner x) (c_within_ehlo x) (c_smtp_bufsize x) (c_smtp_outcount x) (c_block_written x) (c_ehlo_sizeval x) (c_ehlo_deliverbyval x) (c_rcpt_limit x) (c_smtpfd x) (c_smtpfp x) (c_fileno x) (c_sferror x) (c_do_rset x) (c_hsize x) (c_msize x) (c_pipelining x) (c_pipebuf x) (c_pipe x) (c_pipereplies x) (c_continuation_line x) (c_first_line x) (c_rcptcnt x) (c_rcptstates x) (c_state x) (c_alarmcnt x) (c_column x) (c_lastch x) (c_chunking x) (c_doing_chunking x) (c_chunkbuf x) (c_chunkspace x) (c_remotemsg x) (c_remotemsgs x) (c_cmdstate x) (c_prevcmdstate x) (c_gotalarm x) (c_getout x) (c_close_after_data x) (c_readalready x) (c_message x) (c_let_buffer x) (c_filepos x) (c_verboselog x) (c_literalport x) (c_firstmx x) (c_mxcount x) (c_mxh x) (c_myhostname x) (c_remotehost x) (c_ipaddress x) (c_ai x) (c_ismx x) (c_cnames x) (c_ranny x) (c_desc x) (c_ta x) v.

(** ** The monad *)

(** How a run ends early: the use of a null pointer, an exit of the process,
    or reading that does not end. *)
Inductive sc_stop := ScSegv | ScExit (e : ta_end) | ScFuel.

Definition SC (A : Type) : Type := EX client sc_stop A.

Definition ev (e : event) : SC unit := update (fun c => set_c_trace (e :: c_trace c) c).
Definition when_ (b : bool) (m : SC unit) : SC unit := if b then m else mret tt.

(** A call of the library of the transport agents. *)
Definition in_ta {A} (m : TA A) : SC A := fun c =>
  match m (c_ta c) with
  | (inl e, t) => (inl (ScExit e), set_c_ta t c)
  | (inr a, t) => (inr a, set_c_ta t c)
  end.

(** ** The outside world *)

(** A write, put or flush of the stream: smtp_sfwrite() reports a timeout in
    the variable gotalarm, and shuts the connection for writing. *)
Inductive put_result := PutOk | PutError | PutTimeout.
(** smtp_nbread(): bytes, none at the end, or an error with its errno. *)
Inductive nb_result := NbData (l : list Z) | NbError (again : bool).
(** read() on the message file: at most so many bytes, or an error. *)
Inductive file_result := FileBytes (n : nat) | FileIntr | FileError.

(** The options of the process, and what the outside world answers, which may
    depend on all that happened. *)
Class ScEnv := {
  lmtp_mode : bool;
  ta_use_mmap : bool;
  sc_put : list event -> put_result;
  sc_nbread : list event -> nb_result;
  sc_select : list event -> Z;
  sc_readable : list event -> bool;
  sc_file : list event -> file_result;
  sc_timeout : list event -> Z;
  sc_strerror : list event -> list Z
}.

Section stream.
Context `{ScEnv}.

(** sfwrite() of all bytes; false when it failed. *)
Definition sfwrite (l : list Z) : SC bool :=
  tr ← read c_trace;
  match sc_put tr with
  | PutOk => ev (EvPut l);; mret true
  | PutError => ev EvFail;; update (set_c_sferror true);; mret false
  | PutTimeout =>
      ev EvFail;; update (set_c_sferror true);; update (set_c_gotalarm true);; update (set_c_fileno false);;
      mret false
  end.
Definition sfputc (ch : Z) : SC bool := sfwrite [ch].

(** sfsync(); false when it failed. *)
Definition sfsync : SC bool :=
  tr ← read c_trace;
  ev EvSync;;
  match sc_put tr with
  | PutOk => mret true
  | PutError => update (set_c_sferror true);; mret false
  | PutTimeout =>
      update (set_c_sferror true);; update (set_c_gotalarm true);; update (set_c_fileno false);; mret false
  end.

(** smtp_nbread() with a buffer of 512 bytes *)
Definition smtp_nbread : SC nb_result :=
  tr ← read c_trace;
  ev EvNbread;;
  mret (match sc_nbread tr with NbData l => NbData (take 512 l) | r => r end).

Definition select_sleep : SC Z := tr ← read c_trace; ev EvSelect;; mret (sc_select tr).
Definition has_readable : SC bool := tr ← read c_trace; ev EvReadable;; mret (sc_readable tr).
End stream.

(** The bytes given to the stream. *)
Fixpoint sent (tr : list event) : list Z :=
  match tr with
  | [] => []
  | EvPut l :: tr => sent tr ++ l
  | _ :: tr => sent tr
  end.

(** ** Texts *)

(** [STREQ] and [STREQN] on the C string at the head of a buffer *)
Definition STREQ (buf w : list Z) : bool := bool_decide (cstr buf = w).
Definition STREQN (buf w : list Z) : bool := bool_decide (take (length w) (cstr buf) = w).

(** [sscanf(s, "%ld", &v)]: [None] when there is no number. *)
Definition scan_long (s : list Z) : option Z :=
  let s := drop (span isspace s) s in
  let d := match s with c :: s' => if (c =? $"-") || (c =? $"+") then s' else s | [] => [] end in
  if isdigit (hd 0 d) then Some (atoi s) else None.

(** ** The text of the dialogue (rmsgappend() in getmxrr.c) *)

(** The C string [text] written at [cp] of a buffer. *)
Definition write_at (cp : nat) (text b : list Z) : list Z :=
  take cp b ++ replicate (cp - length b) 0 ++ text ++ [0] ++ drop (cp + length text + 1) b.

(** [fmt] is given with its arguments put in. *)
Definition rmsgappend (append : bool) (text : list Z) : SC unit :=
  msg ← read c_remotemsg;
  cmdstate ← read c_cmdstate;
  prev ← read c_prevcmdstate;
  let cp := strlen msg in
  let '(cp, fresh) := if (SMTPSTATE99 <=? prev)%nat then (O, true) else (cp, false) in
  when_ (fresh || (prev <? cmdstate)%nat) (update (fun c => set_c_remotemsgs (<[cmdstate := Some cp]> (c_remotemsgs c)) c));;
  places ← read c_remotemsgs;
  update (set_c_prevcmdstate cmdstate);;
  if append then update (set_c_remotemsg (write_at cp (take (REMOTEMSG_SIZE - 1 - cp) text) msg))
  else
    match mjoin (places !! cmdstate) with
    | None => exit ScSegv
    | Some cp => update (set_c_remotemsg (write_at cp (take (REMOTEMSG_SIZE - 1 - cp) text) msg))
    end.

(** [SS->remotemsg] as a string, and [strcpy(SS->remotemsg, text)] *)
Definition remotemsg : SC (list Z) := msg ← read c_remotemsg; mret (cstr msg).
Definition set_remotemsg (text : list Z) : SC unit :=
  update (fun c => set_c_remotemsg (write_at 0 text (c_remotemsg c)) c).

(** ** Recipients *)

Definition find_rcpt (id : nat) (rps : list rcpt) : option rcpt :=
  List.find (fun rp => (r_id rp =? id)%nat) rps.
Definition put_rcpt (rp : rcpt) (rps : list rcpt) : list rcpt :=
  (fun x => if (r_id x =? r_id rp)%nat then rp else x) <$> rps.

Definition get_rcpt (id : nat) : SC rcpt :=
  d ← read c_desc;
  match find_rcpt id (d_recipients d) with Some rp => mret rp | None => exit ScSegv end.
Definition set_rcpt (rp : rcpt) : SC unit :=
  update (fun c => set_c_desc (set_d_recipients (put_rcpt rp (d_recipients (c_desc c))) (c_desc c)) c).

(** The string a field of the control file is. *)
Definition desc_str (s : nat) : SC (list Z) := d ← read c_desc; mret (ctlstr (d_contents d) s).

Section reports.
Context `{TaEnv}.

Definition sc_notaryreport (a1 a2 a3 a4 : option (list Z)) : SC unit :=
  update (fun c => set_c_ta (set_t_notary (notaryreport a1 a2 a3 a4 (t_notary (c_ta c))) (c_ta c)) c).

(** [notaryreport(rp->addr->user, a2, a3, a4)] *)
Definition notary_user (id : nat) (a2 a3 a4 : option (list Z)) : SC unit :=
  rp ← get_rcpt id;
  u ← desc_str (a_user (r_addr rp));
  sc_notaryreport (Some u) a2 a3 a4.

(** [diagnostic(SS->verboselog, rp, rc, timeout, "%s", text)]; a recipient whose
    lock was given back is not reported again. *)
Definition sc_diagnostic (id : nat) (rc timeout : Z) (fmt text : list Z) : SC unit :=
  rp ← get_rcpt id;
  d ← read c_desc;
  verbose ← read c_verboselog;
  rp' ← in_ta (diagnostic (d_ctlid d) verbose rp rc timeout fmt [ArgS text]);
  set_rcpt rp';;
  when_ (negb (r_lockoffset rp =? 0)%nat) (ev (EvDiag id rc)).

Definition FAILED : option (list Z) := Some ($$"failed").
End reports.

(** ** What a run leaves alone *)

Section keeps.
Context {X : Type} (f : client -> X).

Definition keeps {A} (m : SC A) : Prop := forall c, wpx m (fun _ c' => f c' = f c) (fun _ c' => f c' = f c) c.

Lemma keeps_ret {A} (a : A) : keeps (mret a).
Proof. intros c. by apply wpx_ret. Qed.
Lemma keeps_exit {A} e : keeps (A := A) (exit e).
Proof. intros c. by apply wpx_exit. Qed.
Lemma keeps_read {A} (g : client -> A) : keeps (read g).
Proof. intros c. by apply wpx_read. Qed.
Lemma keeps_update g : (forall c, f (g c) = f c) -> keeps (update g).
Proof. intros Hg c. by apply wpx_update. Qed.
Lemma sc_keeps_bind {A B} (m : SC A) (k : A -> SC B) : keeps m -> (forall a, keeps (k a)) -> keeps (m ≫= k).
Proof.
  intros Hm Hk c. apply wpx_bind. eapply wpx_mono; [apply Hm | done|]. cbv beta. intros a c1 E1.
  eapply wpx_mono; [apply Hk | |]; cbv beta; congruence.
Qed.
Lemma keeps_in_ta {A} (m : TA A) : (forall t c, f (set_c_ta t c) = f c) -> keeps (in_ta m).
Proof. intros Hf c. unfold wpx, in_ta. by destruct (m (c_ta c)) as [[]]. Qed.
End keeps.

Ltac keeps_step :=
  match goal with
  | |- keeps _ (mret _) => apply keeps_ret
  | |- keeps _ (exit _) => apply keeps_exit
  | |- keeps _ (read _) => apply keeps_read
  | |- keeps _ (update _) => apply keeps_update; intros; reflexivity
  | |- keeps _ (in_ta _) => apply keeps_in_ta; intros; reflexivity
  | |- keeps _ (ev _) => apply keeps_update; intros; reflexivity
  | |- keeps _ (mbind _ _) => apply sc_keeps_bind; [|intros ?]
  | |- keeps _ (when_ ?b _) => destruct b; cbn [when_]
  | |- keeps _ (if ?b then _ else _) => destruct b
  | |- keeps _ (match ?x with _ => _ end) => destruct x
  end.
Ltac keeps_steps := repeat keeps_step.
