(* ===== verification/ScMx.v ===== *)
(** * The SMTP client: the hosts of a domain (transports/smtp/getmxrr.c)

    The MX records of a domain with the addresses of the hosts, in the order
    in which they are to be tried; the cache of CNAMEs of smtp.c; which
    addresses are our own (lib/selfaddrs.c) and the random numbers of
    lib/ranny.c.  The resolver and its decoding of names are around the
    program, and so are the addresses of its interfaces. *)

From Stdlib Require Import ZArith Lia.
From stdpp Require Import base tactics numbers list option.
From S2P Require Import Prelude TaFile TaDiag TaCtl ScState.

#[local] Open Scope Z_scope.

(** ** What is around *)

(** getaddrinfo() *)
Inductive gai := GaiOk | EAI_AGAIN | EAI_MEMORY | EAI_NONAME | EAI_NODATA | EAI_FAIL.
#[export] Instance gai_eq_dec : EqDecision gai.
Proof. solve_decision. Defined.
#[export] Instance family_eq_dec : EqDecision family.
Proof. solve_decision. Defined.

(** res_mkquery() and res_send() for the MX records: the bytes of the answer,
    which has at least its header. *)
Inductive dns_answer := QueryFailed | NoAnswer | Answer (a : list Z).

(** The options and the name of this host; the time; the addresses that
    stashmyaddresses() finds ([None] when there are none); the resolver;
    dn_expand() gives the length of a name at a place of the answer and the
    name, dn_skipname() the length; the lookups of WKS records. *)
Class DnsEnv := {
  use_ipv6 : bool;
  prefer_ip6 : bool;
  checkwks : bool;
  myhostname : list Z;
  sc_now : list event -> Z;
  sc_h_errno : list event -> Z;
  my_addresses : list event -> option (list addrinfo);
  mx_query : list event -> list Z -> dns_answer;
  dn_expand : list Z -> Z -> Z -> option (Z * list Z);
  dn_skipname : list Z -> Z -> option Z;
  getaddrinfo : list event -> list Z -> family -> gai * list addrinfo;
  gai_number : gai -> Z;
  gai_strerror : gai -> list Z;
  getrrtype_wks : list event -> list Z -> bool;
  getrr_wks : list event -> list Z -> bool;
  sc_rand : list event -> nat
}.

(** ** Random numbers (lib/ranny.c) *)

Definition ULONG (x : Z) : Z := x mod 2 ^ 64.

(** [seed] is the time, when it is used. *)
Definition ranny_next (seed : Z) (s : ranny_state) : ranny_state * Z :=
  let y := if rn_done s then rn_y s else (fun v => ULONG (v * ULONG (Z.lor seed 1))) <$> rn_y s in
  let r := ULONG (nth (rn_k s) y 0 + nth (rn_j s) y 0) in
  (RannyState (<[rn_k s := r]> y)
     (match rn_j s with O => 54 | S j => j end) (match rn_k s with O => 54 | S k => k end) true, r).

Section mx.
Context `{TaEnv, ScEnv, DnsEnv}.

Definition ask : SC (list event) := tr ← read c_trace; ev EvAsk;; mret tr.

(** [ranny(m)]: a number from 0 to m *)
Definition ranny (m : nat) : SC nat :=
  tr ← read c_trace;
  s ← read c_ranny;
  let '(s, r) := ranny_next (sc_now tr) s in
  update (set_c_ranny s);;
  mret (Z.to_nat (r mod (Z.of_nat m + 1))).

(** ** Our own addresses (lib/selfaddrs.c) *)

Definition same_addr (a b : addrinfo) : bool :=
  bool_decide (ai_family a = ai_family b) &&
  match ai_family a with
  | AF_INET => bool_decide (take 4 (ai_addr a) = take 4 (ai_addr b))
  | AF_INET6 => bool_decide (take 16 (ai_addr a) = take 16 (ai_addr b))
  | AF_UNIX => false
  end.

Definition matchmyaddress (my : option (list addrinfo)) (a : addrinfo) : Z :=
  match my with
  | None => 0
  | Some my =>
      let net := nth 0 (ai_addr a) 0 in
      let v4 := bool_decide (ai_family a = AF_INET) in
      if v4 && (net =? 127) then 2
      else if v4 && ((net =? 0) || (223 <? net)) then 3
      else if existsb (same_addr a) my then 1
      else 0
  end.

Fixpoint matchmyaddresses (my : option (list addrinfo)) (ai : list addrinfo) : Z :=
  match ai with
  | [] => 0
  | a :: ai => let i := matchmyaddress my a in if negb (i =? 0) then i else matchmyaddresses my ai
  end.

(** ** The answer *)

Definition byte_at (a : list Z) (p : Z) : Z := nth (Z.to_nat p) a 0.
Definition get16 (a : list Z) (p : Z) : Z := 256 * byte_at a p + byte_at a (p + 1).
Definition get32 (a : list Z) (p : Z) : Z := 65536 * get16 a p + get16 a (p + 2).

Definition HFIXEDSZ : Z := 12.
Definition QFIXEDSZ : Z := 4.
Definition C_IN : Z := 1.
Definition T_CNAME : Z := 5.
Definition T_MX : Z := 15.
Definition NOERROR : Z := 0.
Definition SERVFAIL : Z := 2.
Definition NXDOMAIN : Z := 3.
Definition FORMERR : Z := 1.
Definition NOTIMP : Z := 4.
Definition REFUSED : Z := 5.
Definition rcode (a : list Z) : Z := Z.land (byte_at a 3) 15.

(** The walk over the answers: the place, the hosts so far, the variables buf
    and realname, the ttl behind its pointer, and the answers that are left. *)
Record walk := Walk {
  w_cp : Z;
  w_mx : list mxdata;
  w_buf : list Z;
  w_realname : list Z;
  w_ttl : option Z;
  w_left : nat
}.
Definition w_at cp w := Walk cp (w_mx w) (w_buf w) (w_realname w) (w_ttl w) (w_left w).
Definition w_stop n w := Walk (w_cp w) (w_mx w) (w_buf w) (w_realname w) (w_ttl w) n.
Definition w_name b w := Walk (w_cp w) (w_mx w) b (w_realname w) (w_ttl w) (w_left w).

(** The questions; a name that cannot be skipped counts as -1. *)
Fixpoint skip_questions (a : list Z) (n : nat) (cp : Z) : Z :=
  match n with
  | O => cp
  | S n => skip_questions a n (cp + default (-1) (dn_skipname a cp) + QFIXEDSZ)
  end.

Definition BUF_SIZE : Z := 8192.
Definition REALNAME_SIZE : Z := 1024.

Definition when_many (maxmx : nat) (m : SC unit) : SC unit := when_ (2 <? maxmx)%nat m.

Fixpoint answers (maxmx : nat) (a : list Z) (now : Z) (n : nat) (w : walk) : SC walk :=
  let eom := Z.of_nat (length a) in
  match n with
  | O => mret (w_stop O w)
  | S n' =>
      if negb ((w_cp w <? eom) && (length (w_mx w) <? maxmx - 1)%nat) then mret (w_stop n w)
      else
        match dn_expand a (w_cp w) BUF_SIZE with
        | None => mret (w_stop n w)
        | Some (k, name) =>
            let w := w_name name w in
            let cp := w_cp w + k in
            if eom <? cp + 10 then mret (w_stop n (w_at eom w))
            else
              let type := get16 a cp in
              let class := get16 a (cp + 2) in
              let ttl := get32 a (cp + 4) in
              let dlen := get16 a (cp + 8) in
              let cp := cp + 10 in
              if eom <? cp + dlen then mret (w_stop n (w_at eom w))
              else if negb (class =? C_IN) then answers maxmx a now n' (w_at (cp + dlen) w)
              else if type =? T_CNAME then
                let '(k, real) := default (-1, w_realname w) (dn_expand a cp REALNAME_SIZE) in
                let w := Walk (cp + k) (w_mx w) (w_buf w) real (w_ttl w) (w_left w) in
                if eom <? cp + k then mret (w_stop n w)
                else
                  match w_ttl w with
                  | None => exit ScSegv
                  | Some t =>
                      answers maxmx a now n' (Walk (w_cp w) (w_mx w) (w_buf w) real (Some (if ttl <? t then ttl else t)) (w_left w))
                  end
              else if negb (type =? T_MX) then answers maxmx a now n' (w_at (cp + dlen) w)
              else
                let pref := get16 a cp in
                let cp := cp + 2 in
                match dn_expand a cp BUF_SIZE with
                | None => mret (w_stop n (w_at cp w))
                | Some (k, name) =>
                    let w := w_at (cp + k) (w_name name w) in
                    if eom <? cp + k then mret (w_stop n w)
                    else
                      when_many maxmx
                        (rmsgappend true ([13] ++ $$"-> " ++ dec ttl ++ $$"s MX[" ++ dec (Z.of_nat (length (w_mx w))) ++
                           $$"] p=" ++ dec pref ++ $$" '" ++ name ++ $$"'"));;
                      answers maxmx a now n'
                        (Walk (cp + k) (w_mx w ++ [Mxdata (Some name) pref (now + ttl) []]) name (w_realname w) (w_ttl w) (w_left w))
                end
        end
  end.

(** Answers behind the last host that has a place *)
Fixpoint skip_answers (a : list Z) (n : nat) (cp : Z) : nat :=
  let eom := Z.of_nat (length a) in
  match n with
  | O => O
  | S n' =>
      if negb (cp <? eom) then n
      else
        match dn_skipname a cp with
        | None => n
        | Some k => if eom <? cp + k + 10 then n else skip_answers a n' (cp + k + 10 + get16 a (cp + k + 8))
        end
  end.

(** ** The hosts *)

Definition set_mx_ai ai m := Mxdata (mx_host m) (mx_pref m) (mx_expiry m) ai.
Definition no_host (m : mxdata) : mxdata := Mxdata None (mx_pref m) (mx_expiry m) [].
Definition has_host (m : mxdata) : bool := bool_decide (is_Some (mx_host m)).

(** [notaryreport(NULL, FAILED, status, SS->remotemsg)] with a new text there *)
Definition lookup_failed (status text : list Z) : SC unit :=
  set_remotemsg text;; sc_notaryreport None FAILED (Some status) (Some text).

Definition host_lookup (host : list Z) (af : family) : SC (gai * list addrinfo) :=
  tr ← ask; mret (getaddrinfo tr host af).

Definition lookup_text (fam host : list Z) (n : gai) : list Z :=
  [13] ++ $$"-> getaddrinfo(" ++ fam ++ host ++ $$") -> r=" ++ dec (gai_number n) ++ $$" (" ++ gai_strerror n ++ $$"); ai=%p".

(** Some of the addresses are those of the other family, when there are none
    of the first, or behind them. *)
Definition both_families (n : gai) (ai : list addrinfo) (n2 : gai) (ai2 : list addrinfo) : gai * list addrinfo :=
  if negb (bool_decide (n = GaiOk)) && bool_decide (n2 = GaiOk) then (n2, ai2)
  else (n, if negb (bool_decide (ai = [])) then ai ++ ai2 else ai).

(** The addresses of one host, and whether the resolver has to be asked
    again; [buf] is the last name of the answer. *)
Definition mx_addresses (maxmx : nat) (buf host : list Z) : SC (list addrinfo * bool) :=
  x ← host_lookup host AF_INET;
  let '(n, ai) := x in
  when_ (negb (bool_decide (n = GaiOk))) (when_many maxmx (rmsgappend true (lookup_text ($$"INET, '") (host ++ $$"','0'") n)));;
  (if bool_decide (n = EAI_MEMORY) then exit (ScExit (ExitCode EX_OSERR)) else mret tt);;
  y ← (if use_ipv6 then
         x2 ← host_lookup host AF_INET6;
         let '(n2, ai2) := x2 in
         when_ (negb (bool_decide (n2 = GaiOk))) (when_many maxmx (rmsgappend true (lookup_text ($$"INET6,'") (host ++ $$"'") n2)));;
         (if bool_decide (n2 = EAI_MEMORY) then exit (ScExit (ExitCode EX_OSERR)) else mret tt);;
         mret (both_families n ai n2 ai2, bool_decide (n2 = EAI_AGAIN))
       else mret ((n, ai), false));
  let '((n', ai'), again2) := y in
  when_ (bool_decide (n' = EAI_AGAIN))
    (lookup_failed ($$"4.4.4 (DNS lookup report)") ($$"smtp; 500 (DNS: getaddrinfo<" ++ take 200 buf ++ $$"> got EAI_AGAIN)"));;
  mret (ai', bool_decide (n = EAI_AGAIN) || again2 || bool_decide (n' = EAI_AGAIN)).

Fixpoint all_addresses (maxmx : nat) (buf : list Z) (ms : list mxdata) : SC (list mxdata * bool) :=
  match ms with
  | [] => mret ([], false)
  | m :: ms =>
      x ← mx_addresses maxmx buf (default [] (mx_host m));
      y ← all_addresses maxmx buf ms;
      mret (set_mx_ai (x.1) m :: y.1, x.2 || y.2)
  end.

(** Each further address gets an entry of its own behind the others, as long
    as there is room; where it ends, an entry keeps its chain. *)
Fixpoint split_addresses (room : nat) (ms : list mxdata) : list mxdata * list mxdata :=
  match ms, room with
  | [], _ => ([], [])
  | _, O => (ms, [])
  | m :: ms, _ =>
      let more := take room (tail (mx_ai m)) in
      let '(kept, added) := split_addresses (room - length more) ms in
      (set_mx_ai (take 1 (mx_ai m)) m :: kept, ((fun a => set_mx_ai [a] m) <$> more) ++ added)
  end.
Definition separate (maxmx : nat) (ms : list mxdata) : list mxdata :=
  let '(kept, added) := split_addresses (maxmx - 1 - length ms) ms in kept ++ added.

(** Whether an entry is this host *)
Definition canon_name (m : mxdata) : option (list Z) := head (mx_ai m) ≫= ai_canonname.
Definition self_match (my : option (list addrinfo)) (m : mxdata) : bool :=
  CISTREQ (default [] (mx_host m)) myhostname ||
  match canon_name m with Some c => CISTREQ c myhostname | None => false end ||
  (matchmyaddresses my (mx_ai m) =? 1).

(** Entries without addresses go; [maxpref] becomes the preference of this
    host. *)
Fixpoint find_self (maxmx : nat) (i : Z) (ms : list mxdata) (maxpref : Z) : SC (list mxdata * Z) :=
  match ms with
  | [] => mret ([], maxpref)
  | m :: ms =>
      let host := default [] (mx_host m) in
      if bool_decide (mx_ai m = []) then
        when_many maxmx (rmsgappend true ([13] ++ $$"-> No addresses for '" ++ host ++ $$"'[" ++ dec i ++ $$"]"));;
        x ← find_self maxmx (i + 1) ms maxpref;
        mret (no_host m :: x.1, x.2)
      else
        tr ← read c_trace;
        let self := self_match (my_addresses tr) m in
        when_ self (when_many maxmx (rmsgappend true ([13] ++ $$"-> Selfmatch '" ++ host ++ $$"'(" ++
          default ($$"-") (canon_name m) ++ $$")[" ++ dec i ++ $$"]")));;
        x ← find_self maxmx (i + 1) ms (if self && (mx_pref m <? maxpref) then mx_pref m else maxpref);
        mret (m :: x.1, x.2)
  end.

Definition MAXPREF : Z := 66000.

Definition too_far (maxpref : Z) (m : mxdata) : bool := (maxpref <=? mx_pref m) && has_host m.

(** The WKS records *)
Fixpoint check_services (ms : list mxdata) : SC (list mxdata) :=
  match ms with
  | [] => mret []
  | m :: ms =>
      m' ← match mx_host m with
           | None => mret m
           | Some h => tr ← ask; mret (if getrrtype_wks tr h then m else no_host m)
           end;
      ms' ← check_services ms;
      mret (m' :: ms')
  end.

(** ** The order *)

Definition swap (i j : nat) (l : list mxdata) : list mxdata :=
  match l !! i, l !! j with
  | Some a, Some b => <[i := b]> (<[j := a]> l)
  | _, _ => l
  end.

(** The sort by exchanges: an entry against all behind it *)
Fixpoint exchange (a : mxdata) (l : list mxdata) : mxdata * list mxdata :=
  match l with
  | [] => (a, [])
  | b :: l =>
      if mx_pref b <? mx_pref a then let '(m, r) := exchange b l in (m, a :: r)
      else let '(m, r) := exchange a l in (m, b :: r)
  end.
Fixpoint mx_sort (n : nat) (l : list mxdata) : list mxdata :=
  match n, l with
  | S n, a :: l => let '(m, r) := exchange a l in m :: mx_sort n r
  | _, _ => l
  end.

(** Entries of the same preference, from [i] on: [k] of [len] are done. *)
Fixpoint shuffle (todo i len k : nat) (l : list mxdata) : SC (list mxdata) :=
  match todo with
  | O => mret l
  | S todo => r ← ranny (len - 1); shuffle todo i len (S k) (swap (i + k) (i + r) l)
  end.

Definition mx_family (l : list mxdata) (i : nat) : option family := (l !! i) ≫= fun m => ai_family <$> head (mx_ai m).

(** IPv6 before IPv4: the places are counted from the start of the whole
    list. *)
Fixpoint prefer_v6 (todo k l : nat) (mx : list mxdata) : list mxdata :=
  match todo with
  | O => mx
  | S todo =>
      if bool_decide (mx_family mx l = Some AF_INET) && bool_decide (mx_family mx k = Some AF_INET6)
      then prefer_v6 todo (S k) (S l) (swap k l mx)
      else prefer_v6 todo (S k) l mx
  end.

Fixpoint same_pref (p : Z) (l : list mxdata) : nat :=
  match l with
  | m :: l => if p =? mx_pref m then S (same_pref p l) else O
  | [] => O
  end.

Fixpoint randomize (n i : nat) (mx : list mxdata) : SC (list mxdata) :=
  match n, drop i mx with
  | S n, m :: rest =>
      let len := S (same_pref (mx_pref m) rest) in
      mx ← (if (1 <? len)%nat then
              mx ← shuffle len i len O mx;
              mret (if prefer_ip6 then prefer_v6 (len - 1) 1 O mx else mx)
            else mret mx);
      randomize n (i + len) mx
  | _, _ => mret mx
  end.

(** ** getmxrr() *)

(** What it leaves: the entries, the buffer of the real name and the ttl. *)
Record mxresult := MxResult { mr_rc : Z; mr_mx : list mxdata; mr_realname : list Z; mr_ttl : option Z }.

(** From the addresses on; [nmx] is not 0. *)
Definition choose_hosts (maxmx : nat) (w : walk) : SC mxresult :=
  let result rc mx := mret (MxResult rc mx (w_realname w) (w_ttl w)) in
  x ← all_addresses maxmx (w_buf w) (w_mx w);
  let '(mx, again) := x in
  let mx := separate maxmx mx in
  x ← find_self maxmx 0 mx MAXPREF;
  let '(mx, maxpref) := x in
  update (set_c_mxcount (length mx));;
  when_many maxmx (rmsgappend true ([13] ++ $$"-> nmx=" ++ dec (Z.of_nat (length mx)) ++ $$" maxpref=" ++ dec maxpref ++
    $$" realname='" ++ w_realname w ++ $$"'"));;
  let discarded := length (List.filter (too_far maxpref) mx) in
  let mx := (fun m => if too_far maxpref m then no_host m else m) <$> mx in
  if (discarded =? length mx)%nat then
    update (set_c_mxcount O);;
    result (if (again : bool) then EX_DEFERALL else EX_OK) []
  else
    mx ← (if checkwks then check_services mx else mret mx);
    let mx := List.filter has_host mx in
    update (set_c_mxcount (length mx));;
    if bool_decide (mx = []) && again then result EX_DEFERALL []
    else if bool_decide (mx = []) then
      when_many maxmx
        (rmsgappend true ([13] ++ $$"=> NONE of MXes support SMTP!");;
         msg ← remotemsg;
         sc_notaryreport None FAILED (Some ($$"5.4.4 (DNS lookup report)")) (Some msg));;
      result EX_UNAVAILABLE []
    else
      mx ← randomize (length mx) O (mx_sort (length mx) mx);
      update (set_c_mxcount (length mx));;
      result EX_OK mx.

(** An answer that says no *)
Definition refused (a host : list Z) : SC Z :=
  let code := rcode a in
  let fail rc text := lookup_failed ($$"5.4.4 (DNS lookup report)") (text ++ take 200 host ++ $$")");; mret rc in
  if code =? NXDOMAIN then fail EX_NOHOST ($$"smtp; 500 (DNS: no such domain: ")
  else if code =? SERVFAIL then fail EX_DEFERALL ($$"smtp; 500 (DNS: server failure: ")
  else if code =? NOERROR then mret EX_OK
  else if one_of [FORMERR; NOTIMP; REFUSED] code then fail EX_NOPERM ($$"smtp; 500 (DNS: unsupported query: ")
  else fail EX_UNAVAILABLE ($$"smtp; 500 (DNS: unknown error, MX info unavailable: ").

Definition in_notary (f : notary -> notary) : SC unit :=
  update (fun c => set_c_ta (set_t_notary (f (t_notary (c_ta c))) (c_ta c)) c).

Definition DEPTH : nat := 4.

(** [levels] is what is left of the four levels of CNAMEs; the authority
    section is only skipped. *)
Fixpoint getmxrr (levels : nat) (maxmx : nat) (host realname : list Z) (ttl : option Z) : SC mxresult :=
  let failed rc := mret (MxResult rc [] realname ttl) in
  when_many maxmx (in_notary (notary_setwtt None);; in_notary (notary_setwttip None));;
  when_ (levels =? DEPTH)%nat
    (update (set_c_mxcount O);; set_remotemsg ($$"-- Lookup of MX/A for '" ++ take 200 host ++ $$"'"));;
  match levels with
  | O =>
      lookup_failed ($$"5.4.3 (Recursive DNS CNAME)") ($$"smtp; 500 (DNS: Recursive CNAME on '" ++ take 200 host ++ $$"')");;
      failed EX_NOHOST
  | S levels =>
      tr ← ask;
      match mx_query tr host with
      | QueryFailed =>
          lookup_failed ($$"5.4.3 (DNS-failure)") ($$"smtp; 466 (Internal: res_mkquery failed on host: " ++ take 200 host ++ $$")");;
          failed EX_SOFTWARE
      | NoAnswer =>
          lookup_failed ($$"5.4.3 (DNS-failure)")
            ($$"smtp; 466 (No DNS response for host: " ++ take 200 host ++ $$"; h_errno=" ++ dec (sc_h_errno tr) ++ $$")");;
          failed EX_DEFERALL
      | Answer a =>
          let qdcount := get16 a 4 in
          let ancount := get16 a 6 in
          when_many maxmx (rmsgappend true ([13] ++ $$"-> DNSreply: len=" ++ dec (Z.of_nat (length a)) ++ $$" rcode=" ++ dec (rcode a) ++
            $$" qd=" ++ dec qdcount ++ $$" an=" ++ dec ancount ++ $$" ns=" ++ dec (get16 a 8) ++ $$" ar=" ++ dec (get16 a 10)));;
          if negb (rcode a =? NOERROR) || (ancount =? 0) then rc ← refused a host; failed rc
          else
            let cp := skip_questions a (Z.to_nat qdcount) HFIXEDSZ in
            w ← answers maxmx a (sc_now tr) (Z.to_nat ancount) (Walk cp [] [] [] ttl O);
            let left := if (maxmx - 1 <=? length (w_mx w))%nat then skip_answers a (w_left w) (w_cp w) else w_left w in
            if (0 <? left)%nat then
              when_many maxmx
                (when_ (Z.testbit (byte_at a 2) 1) (rmsgappend true ([13] ++ $$"   TRUNCATED REPLY!"));;
                 rmsgappend true ([13] ++ $$"   AnswerCount  " ++ dec (Z.of_nat left) ++ $$" > 0!!"));;
              mret (MxResult EX_DEFERALL [] (w_realname w) (w_ttl w))
            else if bool_decide (w_mx w = []) then
              if negb (bool_decide (w_realname w = [])) then getmxrr levels maxmx (w_realname w) (w_realname w) (w_ttl w)
              else update (set_c_mxcount O);; mret (MxResult EX_OK [] (w_realname w) (w_ttl w))
            else choose_hosts maxmx w
      end
  end.
End mx.
