(* ===== verification/ScCname.v ===== *)
(** * The SMTP client: the cache of CNAMEs (transports/smtp/smtp.c)

    A thousand cells in two chains: those with a name, the latest first, and
    the free ones.  A walk over the first moves what is out of date to the
    second.  The cells are used as an ordered list of names: what a walk and
    an addition do to the list is stated at the end of the file, with the
    proof that the chains stay whole. *)

From Stdlib Require Import ZArith Lia.
From stdpp Require Import base tactics numbers list option.
From S2P Require Import Prelude TaFile TaDiag TaCtl ScState ScMx.

#[local] Open Scope Z_scope.

(** ** The cells *)

Definition CNAMECACHESIZE : nat := 1000.

Definition set_cc_next n c := Cnamecell (cc_hash c) n (cc_ttl c) (cc_name c) (cc_cname c).
Definition set_cc_ttl t c := Cnamecell (cc_hash c) (cc_next c) t (cc_name c) (cc_cname c).
Definition set_cc_cname v c := Cnamecell (cc_hash c) (cc_next c) (cc_ttl c) (cc_name c) v.
Definition set_cn_head v c := Cnamecache v (cn_free c) (cn_cells c).
Definition set_cn_free v c := Cnamecache (cn_head c) v (cn_cells c).

Definition cell_at (c : cnamecache) (i : Z) : option cnamecell := if i <? 0 then None else cn_cells c !! Z.to_nat i.
Definition set_cell (i : Z) (x : cnamecell) (c : cnamecache) : cnamecache :=
  Cnamecache (cn_head c) (cn_free c) (<[Z.to_nat i := x]> (cn_cells c)).

(** No cells yet: the pointer is null. *)
Definition no_cache : cnamecache := Cnamecache 0 0 [].

Definition cnamecache_init : cnamecache :=
  Cnamecache (-1) 0
    ((fun i => Cnamecell 0 (if (i =? CNAMECACHESIZE - 1)%nat then -1 else Z.of_nat i + 1) 0 None None) <$> seq 0 CNAMECACHESIZE).

Definition namehash (s : list Z) : Z := fold_left (fun h c => h + tolower c) s 0.

(** ** The walk *)

(** The loop over the active list from [idx] on, behind the cell [prev]: what
    is out of date goes to the free chain, and the walk ends at the name.
    [None] is an access outside of the table, or a chain that does not end. *)
Fixpoint cache_scan (fuel : nat) (now hash : Z) (host : list Z) (prev : option Z) (idx : Z) (c : cnamecache) : option (cnamecache * option Z) :=
  match fuel with
  | O => None
  | S fuel =>
      if idx <? 0 then Some (c, None)
      else
        match cell_at c idx with
        | None => None
        | Some ci =>
            let nextidx := cc_next ci in
            if cc_ttl ci <? now then
              match prev with
              | Some p =>
                  match cell_at c p with
                  | None => None
                  | Some cp => Some (set_cell p (set_cc_next nextidx cp) c)
                  end
              | None => Some (set_cn_head nextidx c)
              end ≫= fun c =>
              let c := set_cell idx (Cnamecell (cc_hash ci) (cn_free c) (cc_ttl ci) None None) c in
              cache_scan fuel now hash host prev nextidx (set_cn_free idx c)
            else if (cc_hash ci =? hash) && match cc_name ci with Some n => CISTREQ n host | None => false end then Some (c, Some idx)
            else cache_scan fuel now hash host (Some idx) nextidx c
        end
  end.

Definition scan_cache (now : Z) (host : list Z) (c : cnamecache) : option (cnamecache * option Z) :=
  cache_scan (S (length (cn_cells c))) now (namehash host) host None (cn_head c) c.

(** When there is no free cell, the cell of a random number is out of date. *)
Definition make_room (now : Z) (rnd : nat) (c : cnamecache) : cnamecache :=
  if cn_free c <? 0 then
    let i := Z.of_nat (rnd mod CNAMECACHESIZE) in
    match cell_at c i with Some x => set_cell i (set_cc_ttl (now - 1) x) c | None => c end
  else c.

(** add_cname_cache() *)
Definition add_cname_cache (now : Z) (rnd : nat) (host : list Z) (cname : option (list Z)) (ttl : Z) (c : cnamecache) :
    option (cnamecache * option (list Z)) :=
  scan_cache now host (make_room now rnd c) ≫= fun '(c, found) =>
  match found with
  | Some i => ci ← cell_at c i; Some (set_cell i (set_cc_cname cname ci) c, cname)
  | None =>
      let idx := cn_free c in
      ci ← cell_at c idx;
      let c := set_cn_free (cc_next ci) c in
      let c := set_cell idx (Cnamecell (namehash host) (cn_head c) ttl (Some host) cname) c in
      Some (set_cn_head idx c, cname)
  end.

(** ** cname_lookup() *)

Section lookup.
Context `{TaEnv, ScEnv, DnsEnv}.

(** The table, when there was none *)
Definition cname_table : SC cnamecache :=
  c ← read c_cnames;
  mret (match cn_cells c with [] => cnamecache_init | _ => c end).

Definition add_cname (host : list Z) (cname : option (list Z)) (ttl : Z) : SC (option (list Z)) :=
  c ← cname_table;
  tr ← read c_trace;
  match add_cname_cache (sc_now tr) (sc_rand tr) host cname ttl c with
  | None => exit ScSegv
  | Some (c, r) => update (set_c_cnames c);; mret r
  end.

Definition MAX_CACHE_AGE : Z := 86400.

(** The name as the buffer of the real name has it *)
Definition real_name (l : list Z) : option (list Z) := if bool_decide (l = []) then None else Some l.

(** The CNAME of a host, when there is one; the lookup is for two MX records. *)
Definition cname_lookup (host : list Z) : SC (option (list Z)) :=
  c ← cname_table;
  tr ← read c_trace;
  match scan_cache (sc_now tr) host c with
  | None => exit ScSegv
  | Some (c, Some i) => update (set_c_cnames c);; mret (cell_at c i ≫= cc_cname)
  | Some (c, None) =>
      update (set_c_cnames c);;
      r ← getmxrr DEPTH 2 host [] (Some MAX_CACHE_AGE);
      if mr_rc r =? EX_OK then
        tr ← read c_trace;
        add_cname host (real_name (mr_realname r)) (default 0 (mr_ttl r) + sc_now tr)
      else mret None
  end.
End lookup.

(** ** The chains *)

(** From [i] over the cells [l] to [j] *)
Fixpoint seg (cells : list cnamecell) (i : Z) (l : list nat) (j : Z) : Prop :=
  match l with
  | [] => i = j
  | n :: l => i = Z.of_nat n /\ exists c, cells !! n = Some c /\ seg cells (cc_next c) l j
  end.

Lemma cell_seg_app cells l1 l2 : forall i j, seg cells i (l1 ++ l2) j <-> exists k, seg cells i l1 k /\ seg cells k l2 j.
Proof.
  induction l1 as [|n l1 IH]; intros i j; cbn [app seg].
  - split; [intros Hs; by exists i | by intros (k & -> & Hs)].
  - setoid_rewrite IH. naive_solver.
Qed.

Lemma seg_set cells l n x : n ∉ l -> forall i j, seg cells i l j -> seg (<[n := x]> cells) i l j.
Proof.
  induction l as [|m l IH]; intros Hn i j; [done|]. apply not_elem_of_cons in Hn as [Hm Hn]. cbn.
  intros (-> & c & Hc & Hs). split; [done|]. exists c. rewrite list_lookup_insert_ne by done. auto.
Qed.

Lemma seg_in cells l n : n ∈ l -> forall i j, seg cells i l j -> exists c, cells !! n = Some c.
Proof.
  intros Hn. induction l as [|m l IH]; [by apply elem_of_nil in Hn|]. intros i j (-> & c & Hc & Hs).
  apply elem_of_cons in Hn as [->|Hn]; [by exists c | by eapply IH].
Qed.

(** What a cell says, apart from its chain *)
Definition said (c : cnamecell) : Z * Z * option (list Z) * option (list Z) := (cc_hash c, cc_ttl c, cc_name c, cc_cname c).
Notation saying := (Z * Z * option (list Z) * option (list Z))%type.
Definition says_at (cells : list cnamecell) (l : list nat) : list saying := omap (fun n => said <$> cells !! n) l.

Lemma says_at_same cells cells' l : (forall n, n ∈ l -> said <$> cells' !! n = said <$> cells !! n) -> says_at cells' l = says_at cells l.
Proof.
  unfold says_at. induction l as [|n l IH]; intros Hl; cbn; [done|]. rewrite (Hl n) by left.
  destruct (said <$> _); rewrite IH; try done; intros m Hm; apply Hl; by right.
Qed.

Lemma says_at_set cells n x l : n ∉ l -> says_at (<[n := x]> cells) l = says_at cells l.
Proof. intros Hn. apply says_at_same. intros m Hm. rewrite list_lookup_insert_ne; [done|]. by intros ->. Qed.

Record chains (c : cnamecache) (used free : list nat) : Prop := {
  ch_size : length (cn_cells c) = CNAMECACHESIZE;
  ch_used : seg (cn_cells c) (cn_head c) used (-1);
  ch_free : seg (cn_cells c) (cn_free c) free (-1);
  ch_all : used ++ free ≡ₚ seq 0 CNAMECACHESIZE
}.

Definition cache_whole (c : cnamecache) : Prop := exists used free, chains c used free.

Lemma chains_nodup c used free : chains c used free -> NoDup (used ++ free).
Proof. intros [_ _ _ P]. rewrite P. apply NoDup_seq. Qed.

(** ** The list *)

Definition names (host : list Z) (s : saying) : bool :=
  let '(h, _, n, _) := s in (h =? namehash host) && match n with Some n => CISTREQ n host | None => false end.
Definition outdated (now : Z) (s : saying) : bool := let '(_, t, _, _) := s in t <? now.

(** What a walk does to the list *)
Fixpoint purge (now : Z) (host : list Z) (es : list saying) : list saying * option saying :=
  match es with
  | [] => ([], None)
  | e :: es =>
      if outdated now e then purge now host es
      else if names host e then (e :: es, Some e)
      else let '(es, r) := purge now host es in (e :: es, r)
  end.

Lemma cell_at_nat c n : cell_at c (Z.of_nat n) = cn_cells c !! n.
Proof. unfold cell_at. rewrite (proj2 (Z.ltb_ge _ _)) by lia. by rewrite Nat2Z.id. Qed.

Lemma seg_end cells l : forall i j j', seg cells i l j -> seg cells i l j' -> j = j'.
Proof.
  induction l as [|n l IH]; intros i j j'; cbn; [congruence|]. intros (-> & c & Hc & H1) (_ & c' & Hc' & H2).
  assert (c = c') as <- by congruence. by eapply IH.
Qed.

(** A cell is taken out of the active chain, and becomes the first free one. *)
Lemma chains_unlink c pre n rest free cell hash ttl :
  chains c (pre ++ n :: rest) free -> cn_cells c !! n = Some cell ->
  exists c1,
    match list.last pre with
    | Some p => match cell_at c (Z.of_nat p) with None => None | Some cp => Some (set_cell (Z.of_nat p) (set_cc_next (cc_next cell) cp) c) end
    | None => Some (set_cn_head (cc_next cell) c)
    end = Some c1 /\
    let c2 := set_cn_free (Z.of_nat n) (set_cell (Z.of_nat n) (Cnamecell hash (cn_free c1) ttl None None) c1) in
    chains c2 (pre ++ rest) (n :: free) /\
    forall m, m ∈ pre ++ rest -> said <$> cn_cells c2 !! m = said <$> cn_cells c !! m.
Proof.
  intros Hch Hn. pose proof (chains_nodup _ _ _ Hch) as Hnd. destruct Hch as [Hsz Hu Hf Hp].
  rewrite <- app_assoc in Hnd. apply list.NoDup_app in Hnd as (Hpre & Hd1 & Hnd). cbn in Hnd. apply list.NoDup_cons in Hnd as [Hnn Hnd].
  apply list.NoDup_app in Hnd as (Hrest & Hd2 & Hfree).
  assert (n ∉ pre) as Hnp by (intros Hin; apply (Hd1 n Hin); left).
  apply not_elem_of_app in Hnn as [Hnr Hnf].
  assert ((pre ++ rest) ++ n :: free ≡ₚ seq 0 CNAMECACHESIZE) as Hp2.
  { rewrite <- Hp, <- !app_assoc. apply Permutation_app_head. symmetry. apply (Permutation_middle rest free n). }
  assert (n < length (cn_cells c))%nat as Hlt by (by eapply lookup_lt_Some).
  apply cell_seg_app in Hu as (k & Hu1 & -> & cell' & Hc' & Hu2). assert (cell' = cell) as -> by congruence.
  destruct (list.last pre) as [p|] eqn:Elast.
  - apply last_Some in Elast as [pre0 ->]. apply cell_seg_app in Hu1 as (k & Hu0 & -> & cp & Hcp & Hk). cbn in Hk.
    apply list.NoDup_app in Hpre as (_ & Hd0 & _).
    assert (p ∉ pre0) as Hp0 by (intros Hin; apply (Hd0 p Hin); left).
    assert (p ∉ n :: rest ++ free) as Hpr by (apply Hd1; apply elem_of_app; right; left).
    apply not_elem_of_cons in Hpr as [Hpn [Hpr Hpf]%not_elem_of_app].
    assert (n ∉ pre0) as Hn0 by (intros Hin; apply Hnp, elem_of_app; by left).
    rewrite cell_at_nat, Hcp. eexists. split; [done|]. cbv zeta. cbn [cn_cells cn_head cn_free set_cn_free set_cell].
    rewrite !Nat2Z.id. split; [split|].
    + cbn. by rewrite !length_insert.
    + cbn [cn_cells cn_head cn_free set_cn_free set_cell set_cn_head]. rewrite ?Nat2Z.id. apply seg_set; [by apply not_elem_of_app|].
      rewrite <- app_assoc. apply cell_seg_app. exists (Z.of_nat p). split; [by apply seg_set|]. split; [done|].
      eexists. split; [apply list_lookup_insert_eq; by eapply lookup_lt_Some|]. cbn. by apply seg_set.
    + cbn [cn_cells cn_head cn_free set_cn_free set_cell set_cn_head]. rewrite ?Nat2Z.id. split; [done|]. eexists. split; [apply list_lookup_insert_eq; by rewrite length_insert|]. cbn.
      do 2 (apply seg_set; [done|]). done.
    + done.
    + intros m Hm. assert (m <> n) as Hmn by (by intros ->; apply elem_of_app in Hm as [?|?]). cbn [cn_cells].
      rewrite list_lookup_insert_ne by done. destruct (decide (m = p)) as [->|Hmp]; [|by rewrite list_lookup_insert_ne].
      rewrite list_lookup_insert_eq by (by eapply lookup_lt_Some). by rewrite Hcp.
  - apply last_None in Elast as ->. cbn in Hu1. eexists. split; [done|]. cbv zeta.
    cbn [cn_cells cn_head cn_free set_cn_free set_cell set_cn_head app] in *. rewrite !Nat2Z.id. split; [split|].
    + cbn. by rewrite !length_insert.
    + cbn [cn_cells cn_head cn_free set_cn_free set_cell set_cn_head]. rewrite ?Nat2Z.id. by apply seg_set.
    + cbn [cn_cells cn_head cn_free set_cn_free set_cell set_cn_head]. rewrite ?Nat2Z.id. split; [done|]. eexists. split; [by apply list_lookup_insert_eq|]. cbn. by apply seg_set.
    + done.
    + intros m Hm. cbn. rewrite list_lookup_insert_ne; [done|]. by intros ->.
Qed.

Lemma cache_scan_spec now host fuel : forall rest pre free c idx,
  chains c (pre ++ rest) free -> seg (cn_cells c) idx rest (-1) -> (length rest < fuel)%nat ->
  exists c' found rest' free' r,
    cache_scan fuel now (namehash host) host (Z.of_nat <$> list.last pre) idx c = Some (c', found) /\
    chains c' (pre ++ rest') free' /\ says_at (cn_cells c') pre = says_at (cn_cells c) pre /\
    purge now host (says_at (cn_cells c) rest) = (says_at (cn_cells c') rest', r) /\
    match found with
    | None => r = None
    | Some i => exists l1 n l2, rest' = l1 ++ n :: l2 /\ i = Z.of_nat n /\ said <$> cn_cells c' !! n = r /\
        Forall (fun e => outdated now e = false /\ names host e = false) (says_at (cn_cells c') l1)
    end.
Proof.
  induction fuel as [|fuel IH]; intros rest pre free c idx Hch Hseg Hf; [lia|]. cbn [cache_scan].
  destruct rest as [|n rest]; cbn in Hseg.
  { subst idx. rewrite (proj2 (Z.ltb_lt (-1) 0)) by lia. by exists c, None, [], free, None. }
  destruct Hseg as (-> & cell & Hcell & Hseg). rewrite (proj2 (Z.ltb_ge _ _)) by lia. rewrite cell_at_nat, Hcell. cbv zeta.
  unfold says_at at 3. cbn [omap list_omap]. fold (says_at (cn_cells c) rest). rewrite Hcell. cbn [fmap option_fmap option_map purge].
  unfold outdated, said at 1. destruct (cc_ttl cell <? now) eqn:Et.
  - destruct (chains_unlink c pre n rest free cell (cc_hash cell) (cc_ttl cell) Hch Hcell) as (c1 & E1 & Hch2 & Hsaid). cbv zeta in Hch2, Hsaid.
    set (c2 := set_cn_free _ _) in *.
    assert (match Z.of_nat <$> list.last pre with Some p => match cell_at c p with Some cp => Some (set_cell p (set_cc_next (cc_next cell) cp) c) | None => None end
            | None => Some (set_cn_head (cc_next cell) c) end = Some c1) as -> by (rewrite <- E1; by destruct (list.last pre)).
    cbn [mbind option_bind]. fold c2.
    assert (seg (cn_cells c2) (cc_next cell) rest (-1)) as Hseg2.
    { pose proof (ch_used _ _ _ Hch2) as Hu2. apply cell_seg_app in Hu2 as (k & Hk1 & Hk2).
      pose proof (ch_used _ _ _ Hch) as Hu. destruct rest as [|m rest]; cbn in Hseg |- *; [done|].
      destruct Hseg as (E & _). cbn in Hk2. destruct Hk2 as (_ & x & Hx & Hk2). rewrite E. split; [done|]. by exists x. }
    destruct (IH rest pre (n :: free) c2 (cc_next cell) Hch2 Hseg2) as (c' & found & rest' & free' & r & E & Hch' & Hpre & Hpu & Hr); [cbn in Hf; lia|].
    exists c', found, rest', free', r. split_and!; [exact E | exact Hch' | | | exact Hr].
    + rewrite Hpre. apply says_at_same. intros m Hm. apply Hsaid, elem_of_app. by left.
    + rewrite <- Hpu. f_equal. symmetry. apply says_at_same. intros m Hm. apply Hsaid, elem_of_app. by right.
  - unfold names, said at 1.
    destruct ((cc_hash cell =? namehash host) && match cc_name cell with Some n0 => CISTREQ n0 host | None => false end) eqn:Em.
    { exists c, (Some (Z.of_nat n)), (n :: rest), free, (Some (said cell)). split_and!; [done | done | done| |].
      - unfold says_at. cbn. rewrite Hcell. done.
      - exists [], n, rest. split_and!; [done | done | by rewrite Hcell | done]. }
    replace (Some (Z.of_nat n)) with (Z.of_nat <$> list.last (pre ++ [n])) by (by rewrite last_snoc).
    destruct (IH rest (pre ++ [n]) free c (cc_next cell)) as (c' & found & rest' & free' & r & E & Hch' & Hpre & Hpu & Hr);
      [by rewrite <- app_assoc | done | cbn in Hf; lia|].
    rewrite <- app_assoc in Hch'. cbn in Hch'. unfold says_at in Hpre. rewrite !omap_app in Hpre. cbn in Hpre. rewrite Hcell in Hpre. cbn in Hpre.
    destruct (said <$> cn_cells c' !! n) as [s|] eqn:Es.
    2: { pose proof (ch_used _ _ _ Hch') as Hu. destruct (seg_in (cn_cells c') (pre ++ n :: rest') n ltac:(apply elem_of_app; right; left) _ _ Hu) as [x Hx].
         rewrite Hx in Es. done. }
    apply app_inj_tail in Hpre as [Hpre ->].
    exists c', found, (n :: rest'), free', r. split_and!; [exact E | exact Hch' | exact Hpre| |].
    + rewrite Hpu. unfold says_at at 2. cbn [omap list_omap]. by rewrite Es.
    + destruct found; [|done]. destruct Hr as (l1 & m & l2 & -> & ? & ? & Hl1). exists (n :: l1), m, l2.
      split_and!; [done | done | done|]. unfold says_at. cbn [omap list_omap]. rewrite Es. by constructor.
Qed.

(** A walk over the whole chain *)
Lemma scan_cache_spec now host c used free : chains c used free ->
  exists c' found used' free' r,
    scan_cache now host c = Some (c', found) /\ chains c' used' free' /\
    purge now host (says_at (cn_cells c) used) = (says_at (cn_cells c') used', r) /\
    match found with
    | None => r = None
    | Some i => exists l1 n l2, used' = l1 ++ n :: l2 /\ i = Z.of_nat n /\ said <$> cn_cells c' !! n = r /\
        Forall (fun e => outdated now e = false /\ names host e = false) (says_at (cn_cells c') l1)
    end.
Proof.
  intros Hch. unfold scan_cache. pose proof (ch_all _ _ _ Hch) as Hp%Permutation_length. rewrite length_app, length_seq in Hp.
  destruct (cache_scan_spec now host (S (length (cn_cells c))) used [] free c (cn_head c)) as (c' & found & rest' & free' & r & E & Hch' & _ & Hpu & Hr);
    [done | apply Hch | rewrite (ch_size _ _ _ Hch); lia|].
  by exists c', found, rest', free', r.
Qed.

(** ** Names *)

Lemma cistreq_eq a b : CISTREQ a b = true <-> tolower <$> a = tolower <$> b.
Proof.
  unfold CISTREQ. rewrite andb_true_iff, Nat.eqb_eq. revert b. induction a as [|x a IH]; intros [|y b]; cbn; [done | by split; [intros [? ?]|] | by split; [intros [? ?]|]|].
  rewrite andb_true_iff, Z.eqb_eq. specialize (IH b). split.
  - intros ([= El] & E & Er). f_equal; [done|]. by apply IH.
  - intros [= E Er]. apply IH in Er as [-> Er]. done.
Qed.

Lemma namehash_eq a b : CISTREQ a b = true -> namehash a = namehash b.
Proof.
  rewrite cistreq_eq. unfold namehash. generalize 0. revert b. induction a as [|x a IH]; intros [|y b] z; cbn; [done..|].
  intros [= E1 E2]. rewrite E1. by apply IH.
Qed.

Lemma names_same host host' s : CISTREQ host' host = true -> names host' s = names host s.
Proof.
  intros E. destruct s as [[[h t] [n|]] v]; cbn; [|by rewrite !andb_false_r]. rewrite (namehash_eq _ _ E). f_equal.
  apply cistreq_eq in E. apply eq_true_iff_eq. rewrite !cistreq_eq. by rewrite E.
Qed.

Lemma names_other host host' s : names host s = true -> names host' s = true -> CISTREQ host' host = true.
Proof.
  destruct s as [[[h t] [n|]] v]; cbn; [|by rewrite !andb_false_r]. rewrite !andb_true_iff, !cistreq_eq. intros [_ E1] [_ E2]. congruence.
Qed.

(** ** Lookups in the list *)

Definition cached (now : Z) (host : list Z) (es : list saying) : option saying :=
  List.find (fun e => negb (outdated now e) && names host e) es.

Lemma purge_found now host es : (purge now host es).2 = cached now host es.
Proof.
  unfold cached. induction es as [|e es IH]; [done|]. cbn [purge List.find]. destruct (outdated now e); [done|]. cbn [negb andb].
  destruct (names host e); [done|]. by destruct (purge now host es).
Qed.

Lemma outdated_later now now' e : now <= now' -> outdated now e = true -> outdated now' e = true.
Proof. destruct e as [[[? t] ?] ?]. cbn. rewrite !Z.ltb_lt. lia. Qed.

Lemma purge_keeps now now' host host' es : now <= now' -> cached now' host' (purge now host es).1 = cached now' host' es.
Proof.
  intros Hn. unfold cached. induction es as [|e es IH]; [done|]. cbn [purge]. destruct (outdated now e) eqn:Eo.
  - rewrite IH. cbn. by rewrite (outdated_later _ _ _ Hn Eo).
  - destruct (names host e); [done|]. destruct (purge now host es) as [es' r]. cbn [fst List.find] in *. by rewrite IH.
Qed.

(** The name gets another CNAME. *)
Definition renamed (cname : option (list Z)) (s : saying) : saying := let '(h, t, n, _) := s in (h, t, n, cname).

Lemma renamed_same cname s : (forall now, outdated now (renamed cname s) = outdated now s) /\ forall host, names host (renamed cname s) = names host s.
Proof. by destruct s as [[[? ?] ?] ?]. Qed.

Lemma cached_renamed now host host' l1 s l2 cname : names host s = true -> CISTREQ host' host = false ->
  cached now host' (l1 ++ renamed cname s :: l2) = cached now host' (l1 ++ s :: l2).
Proof.
  intros Hs Hh. unfold cached. induction l1 as [|e l1 IH]; cbn; [|by rewrite IH]. destruct (renamed_same cname s) as [-> ->].
  destruct (names host' s) eqn:E; [|by rewrite andb_false_r]. by rewrite (names_other _ _ _ Hs E) in Hh.
Qed.

(** Where a walk stops *)
Lemma purge_stops now host es es' s : purge now host es = (es', Some s) ->
  outdated now s = false /\ names host s = true /\ exists l1 l2, es' = l1 ++ s :: l2 /\
  Forall (fun e => outdated now e = false /\ names host e = false) l1.
Proof.
  revert es'. induction es as [|e es IH]; intros es'; [done|]. cbn [purge]. destruct (outdated now e) eqn:Eo; [by apply IH|].
  destruct (names host e) eqn:En.
  { intros [= <- <-]. split_and!; [done | done|]. by exists [], es. }
  destruct (purge now host es) as [es1 r]. intros [= <- ->]. destruct (IH es1 eq_refl) as (H1 & H2 & l1 & l2 & -> & Hl).
  split_and!; [done | done|]. exists (e :: l1), l2. split; [done|]. by constructor.
Qed.

Lemma purge_length now host es : (length (purge now host es).1 <= length es)%nat.
Proof.
  induction es as [|e es IH]; [done|]. cbn [purge]. destruct (outdated now e); [cbn; lia|]. destruct (names host e); [done|].
  destruct (purge now host es). cbn in *. lia.
Qed.

Lemma purge_shorter now host es es' e : purge now host es = (es', None) -> e ∈ es -> outdated now e = true -> (length es' < length es)%nat.
Proof.
  revert es'. induction es as [|x es IH]; intros es' Hp Hin Ho; [by apply elem_of_nil in Hin|]. cbn [purge] in Hp.
  pose proof (purge_length now host es) as Hle. apply elem_of_cons in Hin as [<-|Hin].
  - rewrite Ho in Hp. rewrite Hp in Hle. cbn in *. lia.
  - destruct (outdated now x); [specialize (IH _ Hp Hin Ho); cbn; lia|]. destruct (names host x); [done|].
    destruct (purge now host es) as [es1 r]. injection Hp as <- ->. specialize (IH _ eq_refl Hin Ho). cbn. lia.
Qed.

(** ** Additions *)

Lemma seg_next cells cells' l : (forall n, cc_next <$> cells' !! n = cc_next <$> cells !! n) -> forall i j, seg cells i l j -> seg cells' i l j.
Proof.
  intros Hn. induction l as [|n l IH]; intros i j; [done|]. cbn. intros (-> & c & Hc & Hs). split; [done|]. specialize (Hn n). rewrite Hc in Hn.
  destruct (cells' !! n) as [c'|]; [|done]. injection Hn as En. exists c'. split; [done|]. rewrite En. by apply IH.
Qed.

(** A cell changes, but not its place. *)
Lemma chains_set c used free n x x' : chains c used free -> cn_cells c !! n = Some x -> cc_next x' = cc_next x ->
  chains (set_cell (Z.of_nat n) x' c) used free.
Proof.
  intros [Hsz Hu Hf Hp] Hx En.
  assert (forall m, cc_next <$> <[n := x']> (cn_cells c) !! m = cc_next <$> cn_cells c !! m) as Hm.
  { intros m. destruct (decide (m = n)) as [->|]; [|by rewrite list_lookup_insert_ne]. rewrite list_lookup_insert_eq by (by eapply lookup_lt_Some).
    rewrite Hx. cbn. by rewrite En. }
  split; cbn [cn_cells cn_head cn_free set_cell]; rewrite ?Nat2Z.id; [by rewrite length_insert | by eapply seg_next.. | done].
Qed.

Lemma says_at_length cells l : (forall n, n ∈ l -> is_Some (cells !! n)) -> length (says_at cells l) = length l.
Proof.
  unfold says_at. induction l as [|n l IH]; intros Hl; [done|]. cbn. destruct (Hl n) as [x ->]; [left|]. cbn. f_equal. apply IH.
  intros m Hm. apply Hl. by right.
Qed.

Lemma chains_says c used free : chains c used free -> length (says_at (cn_cells c) used) = length used.
Proof. intros Hch. apply says_at_length. intros n Hn. by eapply seg_in; [|apply Hch]. Qed.

(** The first free cell becomes the first active one. *)
Lemma chains_take c used n free x cell : chains c used (n :: free) -> cn_cells c !! n = Some cell -> cc_next x = cn_head c ->
  chains (Cnamecache (Z.of_nat n) (cc_next cell) (<[n := x]> (cn_cells c))) (n :: used) free.
Proof.
  intros Hch Hn Hx. pose proof (chains_nodup _ _ _ Hch) as Hnd. destruct Hch as [Hsz Hu Hf Hp]. destruct Hf as (_ & cell' & Hc & Hf).
  assert (cell' = cell) as -> by congruence. apply list.NoDup_app in Hnd as (_ & Hd & Hnf%list.NoDup_cons).
  assert (n ∉ used) as Hnu by (intros Hin; apply (Hd n Hin); left). split; cbn [cn_cells cn_head cn_free].
  - by rewrite length_insert.
  - split; [done|]. exists x. split; [apply list_lookup_insert_eq; by eapply lookup_lt_Some|]. rewrite Hx. by apply seg_set.
  - by apply seg_set; [apply Hnf|].
  - rewrite <- Hp. cbn. apply (Permutation_middle used free n).
Qed.

(** A place for the new name: behind a walk that did not find it there is a
    free cell, since one was there or one was out of date. *)
Lemma chains_room c used free c' used' free' now host es' :
  chains c used free -> chains c' used' free' -> purge now host (says_at (cn_cells c) used) = (says_at (cn_cells c') used', None) ->
  es' = says_at (cn_cells c) used -> (free = [] -> exists e, e ∈ es' /\ outdated now e = true) -> exists n f, free' = n :: f.
Proof.
  intros Hch Hch' Hp -> He. destruct free' as [|n f]; [|by eauto]. exfalso.
  pose proof (Permutation_length (ch_all _ _ _ Hch)) as E1. pose proof (Permutation_length (ch_all _ _ _ Hch')) as E2.
  rewrite length_app, length_seq in E1, E2. rewrite app_nil_r, length_seq in E2 || cbn in E2.
  pose proof (purge_length now host (says_at (cn_cells c) used)) as Hle. rewrite Hp in Hle. cbn in Hle.
  rewrite (chains_says _ _ _ Hch), (chains_says _ _ _ Hch') in Hle. destruct free as [|m free]; [|cbn in *; lia].
  destruct (He eq_refl) as (e & Hin & Ho). pose proof (purge_shorter _ _ _ _ _ Hp Hin Ho) as Hlt.
  rewrite (chains_says _ _ _ Hch), (chains_says _ _ _ Hch') in Hlt. cbn in *. lia.
Qed.

Lemma make_room_spec now rnd c used free : chains c used free ->
  chains (make_room now rnd c) used free /\ (free <> [] -> make_room now rnd c = c) /\
  (free = [] -> exists e, e ∈ says_at (cn_cells (make_room now rnd c)) used /\ outdated now e = true).
Proof.
  intros Hch. unfold make_room. destruct free as [|n free].
  - pose proof (ch_free _ _ _ Hch) as Hf. cbn in Hf. rewrite Hf. rewrite (proj2 (Z.ltb_lt (-1) 0)) by lia. cbv zeta. rewrite cell_at_nat.
    set (i := (rnd mod CNAMECACHESIZE)%nat). assert (i < CNAMECACHESIZE)%nat as Hi by (by apply Nat.mod_upper_bound).
    destruct (lookup_lt_is_Some_2 (cn_cells c) i) as [x Hx]; [by rewrite (ch_size _ _ _ Hch)|]. rewrite Hx. split_and!; [by eapply chains_set | done|].
    intros _. exists (said (set_cc_ttl (now - 1) x)). split; [|cbn; apply Z.ltb_lt; lia]. unfold says_at. apply list_elem_of_omap.
    exists i. split.
    + pose proof (ch_all _ _ _ Hch) as Hp. rewrite app_nil_r in Hp. rewrite Hp. apply elem_of_seq. lia.
    + cbn. rewrite Nat2Z.id, list_lookup_insert_eq by (by eapply lookup_lt_Some). done.
  - pose proof (ch_free _ _ _ Hch) as (-> & _). rewrite (proj2 (Z.ltb_ge _ 0)) by lia. done.
Qed.

(** What an addition does to the list *)
Lemma add_spec now rnd host cname ttl c used free : chains c used free ->
  exists c' used' free' r, add_cname_cache now rnd host cname ttl c = Some (c', cname) /\ chains c' used' free' /\
    let es := says_at (cn_cells (make_room now rnd c)) used in
    match r with
    | None => exists es', purge now host es = (es', None) /\ says_at (cn_cells c') used' = (namehash host, ttl, Some host, cname) :: es'
    | Some s => exists l1 l2, purge now host es = (l1 ++ s :: l2, Some s) /\ says_at (cn_cells c') used' = l1 ++ renamed cname s :: l2 /\
        Forall (fun e => outdated now e = false /\ names host e = false) l1
    end.
Proof.
  intros Hch. destruct (make_room_spec now rnd c used free Hch) as (Hch0 & _ & Hroom). unfold add_cname_cache. set (c0 := make_room now rnd c) in *.
  destruct (scan_cache_spec now host c0 used free Hch0) as (c1 & found & used1 & free1 & r & -> & Hch1 & Hp & Hr). cbn [mbind option_bind].
  destruct found as [i|].
  - destruct Hr as (l1 & n & l2 & -> & -> & Hs & Hl1). pose proof (ch_used _ _ _ Hch1) as Hu.
    destruct (seg_in (cn_cells c1) (l1 ++ n :: l2) n ltac:(apply elem_of_app; right; left) _ _ Hu) as [x Hx].
    rewrite cell_at_nat, Hx. cbn [mbind option_bind]. rewrite Hx in Hs. cbn in Hs. subst r.
    eexists _, _, free1, (Some (said x)). split_and!; [done | by eapply chains_set|]. cbv zeta.
    pose proof (chains_nodup _ _ _ Hch1) as Hnd. apply list.NoDup_app in Hnd as (Hnd & _ & _). apply list.NoDup_app in Hnd as (_ & Hd & Hnd).
    apply list.NoDup_cons in Hnd as [Hn2 _]. assert (n ∉ l1) as Hn1 by (intros Hin; apply (Hd n Hin); left).
    exists (says_at (cn_cells c1) l1), (says_at (cn_cells c1) l2). split_and!; [| |done].
    + rewrite Hp. unfold says_at. rewrite omap_app. cbn. by rewrite Hx.
    + unfold says_at at 1. rewrite omap_app. cbn [cn_cells set_cell]. rewrite Nat2Z.id. cbn [omap list_omap].
      rewrite list_lookup_insert_eq by (by eapply lookup_lt_Some). cbn. f_equal; [by apply says_at_set|]. f_equal. by apply says_at_set.
  - subst r. destruct (chains_room c0 used free c1 used1 free1 now host _ Hch0 Hch1 Hp eq_refl) as (n & f & ->); [done|].
    pose proof (ch_free _ _ _ Hch1) as (En & x & Hx & _). rewrite En, cell_at_nat, Hx. cbn [mbind option_bind].
    eexists _, (n :: used1), f, None. split_and!; [done| |].
    + unfold set_cn_head, set_cell, set_cn_free. cbn [cn_cells cn_head cn_free]. rewrite Nat2Z.id. by eapply chains_take.
    + cbv zeta. eexists. split; [done|]. unfold set_cn_head, set_cell, set_cn_free. cbn [cn_cells cn_head cn_free]. rewrite Nat2Z.id.
      unfold says_at at 1. cbn [omap list_omap]. rewrite list_lookup_insert_eq by (by eapply lookup_lt_Some). cbn. f_equal.
      apply says_at_set. pose proof (chains_nodup _ _ _ Hch1) as Hnd. apply list.NoDup_app in Hnd as (_ & Hd & _). intros Hin. apply (Hd n Hin). left.
Qed.

(** ** What the cache knows *)

(** The answer of a walk: whether the name is there, and its CNAME. *)
Definition lookup_cache (now : Z) (host : list Z) (c : cnamecache) : option (option (list Z)) :=
  match scan_cache now host c with
  | Some (c', Some i) => Some (cell_at c' i ≫= cc_cname)
  | _ => None
  end.

Lemma lookup_cache_cached now host c used free : chains c used free ->
  lookup_cache now host c = (fun '(_, _, _, v) => v) <$> cached now host (says_at (cn_cells c) used).
Proof.
  intros Hch. unfold lookup_cache. destruct (scan_cache_spec now host c used free Hch) as (c' & found & used' & free' & r & -> & Hch' & Hp & Hr).
  rewrite <- purge_found, Hp. cbn [snd]. destruct found as [i|]; [|by subst r]. destruct Hr as (l1 & n & l2 & -> & -> & <- & _).
  rewrite cell_at_nat. pose proof (ch_used _ _ _ Hch') as Hu.
  destruct (seg_in (cn_cells c') (l1 ++ n :: l2) n ltac:(apply elem_of_app; right; left) _ _ Hu) as [x Hx]. by rewrite Hx.
Qed.

Lemma cached_app_skip now host l1 l2 : Forall (fun e => outdated now e = false /\ names host e = false) l1 ->
  cached now host (l1 ++ l2) = cached now host l2.
Proof. unfold cached. induction 1 as [|e l1 [Ho Hn] _ IH]; [done|]. cbn. by rewrite Ho, Hn. Qed.

Lemma cached_same now host host' es : CISTREQ host' host = true -> cached now host' es = cached now host es.
Proof. intros E. unfold cached. induction es as [|e es IH]; [done|]. cbn. rewrite (names_same _ _ _ E). by rewrite IH. Qed.
