(* ===== verification/ScReply.v ===== *)
(** * The SMTP client: commands and replies (transports/smtp/smtp.c)

    Commands are written to the stream, and their replies are read and judged
    later: with pipelining when the server has many of them, otherwise at
    once.  smtp_sync() takes the replies in the order of the commands. *)

From Stdlib Require Import ZArith Lia.
From stdpp Require Import base tactics numbers list option.
From S2P Require Import Prelude TaFile TaDiag TaCtl ScState.

#[local] Open Scope Z_scope.

(** ** Reply codes *)

Definition code_to_status (code : Z) : Z * list Z :=
  if one_of [211; 214; 220; 221; 250; 251; 255; 354] code then (EX_OK, $$"2.0.0")
  else if one_of [421; 450; 451; 452] code then (EX_TEMPFAIL, $$"4.0.0")
  else if code =? 455 then (EX_USAGE, $$"5.5.4")
  else if code =? 501 then (EX_USAGE, $$"5.5.2")
  else if one_of [500; 502] code then (EX_PROTOCOL, $$"5.5.1")
  else if code =? 503 then (EX_TEMPFAIL, $$"5.5.0")
  else if code =? 504 then (EX_PROTOCOL, $$"5.5.4")
  else if code =? 550 then (EX_NOUSER, $$"5.1.1 (bad destination mailbox)")
  else if code =? 551 then (EX_NOUSER, $$"5.1.6 (mailbox has moved)")
  else if code =? 552 then (EX_UNAVAILABLE, $$"5.2.3 (Some content related rejection, size ? text ?)")
  else if code =? 553 then (EX_NOUSER, $$"5.1.3 (bad destination mailbox address [syntax])")
  else if code =? 554 then (EX_NOUSER, $$"5.1.1 (No acceptable recipients given)")
  else if code =? 555 then (EX_USAGE, $$"5.5.4 (invalid parameters)")
  else if code =? 571 then (EX_NOUSER, $$"5.7.1 (Delivery not authorized, message refused)")
  else
    let h := Z.quot code 100 in
    if one_of [2; 3] h then (EX_OK, $$"2.0.0 (generic ok)")
    else if h =? 4 then (EX_TEMPFAIL, $$"4.0.0 (generic temporary failure)")
    else if h =? 5 then (EX_UNAVAILABLE, $$"5.0.0 (generic permanent failure)")
    else (EX_TEMPFAIL, $$"5.5.0 (generic protocol failure)").

Definition brackets (c : Z) : Z := if c =? $"(" then $"[" else if c =? $")" then $"]" else c.

(** notarystatsave(): the status and the text for the NOTARY report. *)
Definition stat_char (c : Z) : bool := isdigit c || (c =? $".").
Definition notary_stat (enh : bool) (line status : list Z) : list Z * list Z :=
  let rest := drop 3 line in
  let rest := if hd 0 rest =? $" " then drop 1 rest else rest in
  let n := Nat.min 9 (span stat_char rest) in
  let '(status, rest) :=
    if enh then (take n rest, let rest := drop n rest in drop (span is_blank rest) rest) else (status, rest) in
  (status, $$"smtp; " ++ take 3 line ++ $$" " ++
     match rest with [] => [] | _ => $$"(" ++ (brackets <$> rest) ++ $$")" end).

(** ** The answer to EHLO *)

(** ehlo_check() at [s] of the reply buffer, where it ends the line at a CR. *)
Definition cut_cr (buf : list Z) (s : nat) : list Z :=
  let line := cstr (drop s buf) in
  let k := span (fun c => negb (c =? 13)) line in
  if has_char line 13 then <[(s + k)%nat := 0]> buf else buf.

Definition add_capability (bit : Z) : SC unit :=
  update (fun c => set_c_ehlo_capabilities (Z.lor (c_ehlo_capabilities c) bit) c).

Definition ehlo_check (s : nat) : SC unit :=
  update (fun c => set_c_pipebuf (cut_cr (c_pipebuf c) s) c);;
  b ← read c_pipebuf;
  let buf := cstr (drop s b) in
  if STREQ buf ($$"8BITMIME") then add_capability ESMTP_8BITMIME
  else if STREQ buf ($$"DSN") then add_capability ESMTP_DSN
  else if STREQ buf ($$"ENHANCEDSTATUSCODES") then add_capability ESMTP_ENHSTATUS
  else if STREQ buf ($$"CHUNKING") then add_capability ESMTP_CHUNKING
  else if STREQ buf ($$"PIPELINING") then add_capability ESMTP_PIPELINING
  else if STREQ buf ($$"STARTTLS") then mret tt
  else if STREQN buf ($$"SIZE ") || STREQ buf ($$"SIZE") then
    add_capability ESMTP_SIZEOPT;;
    update (set_c_ehlo_sizeval (if nth 4 buf 0 =? $" " then default (-1) (scan_long (drop 5 buf)) else -1))
  else if STREQN buf ($$"AUTH ") || STREQN buf ($$"AUTH=") then add_capability ESMTP_AUTH
  else if STREQN buf ($$"DELIVERBY ") || STREQ buf ($$"DELIVERBY") then
    add_capability ESMTP_DELIVERBY;;
    update (set_c_ehlo_deliverbyval (if nth 9 buf 0 =? $" " then default (-1) (scan_long (drop 10 buf)) else -1))
  else if STREQN buf ($$"X-RCPTLIMIT ") then
    update (set_c_rcpt_limit (Z.min 100000 (Z.max 10 (atoi (drop 12 buf)))))
  else mret tt.

(** esmtp_banner_check(): the loop does not stop at the end of the line when
    it has come there in search of an [e]. *)
Fixpoint banner_loop (seek : bool) (s : list Z) : bool :=
  match s with
  | [] => false
  | c :: s' =>
      if (c =? 0) && negb seek then false
      else if negb (c =? 0) && negb (tolower c =? $"e") then banner_loop true s'
      else CISTREQN (cstr s) ($$"ESMTP") || banner_loop false s'
  end.
Definition esmtp_banner_check (s : nat) : SC unit :=
  b ← read c_pipebuf;
  when_ (banner_loop false (drop s b)) (update (set_c_esmtp_on_banner 1)).

(** ** The state of the dialogue *)

Definition smtp_flush : SC unit :=
  update (set_c_pipebuf []);;
  update (set_c_pipe []);;
  update (set_c_pipereplies O);;
  update (set_c_rcptstates 0);;
  update (set_c_prevcmdstate SMTPSTATE99);;
  update (set_c_cmdstate SMTPSTATE_MAILFROM);;
  ev EvFlush.

Definition smtpclose : SC unit :=
  fp ← read c_smtpfp;
  when_ fp (update (set_c_smtpfd false);; update (set_c_fileno false);; update (set_c_smtpfp false);; ev EvClose);;
  smtp_flush.

Definition smtppipestowage (strbuf : option (list Z)) (syncrp : option nat) : SC unit :=
  st ← read c_cmdstate;
  update (fun c => set_c_pipe (c_pipe c ++ [Pipecmd strbuf syncrp st]) c).

Definition add_states (bits : Z) : SC unit :=
  update (fun c => set_c_rcptstates (Z.lor (c_rcptstates c) bits) c).
Definition has_states (bits : Z) : SC bool := states ← read c_rcptstates; mret (flag_set states bits).

Section sync.
Context `{TaEnv, ScEnv}.
(** The rounds of a loop that reads. *)
Variable fuel : nat.

(** *** Lines *)

Inductive got := GotLine (s eol : nat) | GotBreak (err : Z).

Definition newline_at (b : list Z) (s : nat) : option nat :=
  let k := span (fun c => negb (c =? 10)) (drop s b) in
  if (s + k <? length b)%nat then Some (s + k)%nat else None.

(** The next line from [s] on, with what must be read for it. *)
Fixpoint next_line (fuel : nat) (nonblocking : bool) (idx s : nat) : SC got :=
  b ← read c_pipebuf;
  match newline_at b s with
  | Some k => mret (GotLine s (S k))
  | None =>
      match fuel with
      | O => exit ScFuel
      | S fuel =>
          r ← smtp_nbread;
          match r with
          | NbError again =>
              if nonblocking then mret (GotBreak (if again then 0 else 1))
              else
                fd ← read c_smtpfd;
                err ← (if (fd : bool) then select_sleep else mret (-1));
                if err <? 0 then
                  tr ← read c_trace;
                  rmsgappend true ([13] ++ $$"Timeout of " ++ dec (sc_timeout tr) ++ $$" sec while waiting responses from remote");;
                  smtpclose;;
                  mret (GotBreak err)
                else next_line fuel nonblocking idx s
          | NbData [] =>
              pipe ← read c_pipe;
              rmsgappend true ([13] ++ $$"remote hung up on us while " ++ dec (Z.of_nat (length pipe - idx)) ++ $$" responses missing");;
              mret (GotBreak EX_TEMPFAIL)
          | NbData l =>
              update (set_c_pipebuf (drop s b ++ l));;
              next_line fuel nonblocking idx O
          end
      end
  end.

(** Three digits, and then a blank or the end. *)
Definition terminal (b : list Z) (s : nat) : bool :=
  isdigit (nth s b 0) && isdigit (nth (s + 1) b 0) && isdigit (nth (s + 2) b 0) &&
  ((nth (s + 3) b 0 =? $" ") || (nth (s + 3) b 0 =? 0)).

(** The line from [s] to [eol] is cut off and looked at; a final line gives
    its code. *)
Definition sync_line (idx s eol : nat) : SC (option Z) :=
  b ← read c_pipebuf;
  let p := (eol - 1)%nat in
  let p := if (s <? p)%nat && (nth (p - 1) b 0 =? 13) then (p - 1)%nat else p in
  update (set_c_pipebuf (<[p := 0]> b));;
  within ← read c_within_ehlo;
  when_ within (ehlo_check (s + 4));;
  banner ← read c_esmtp_on_banner;
  when_ (banner =? 0) (esmtp_banner_check (s + 4));;
  b ← read c_pipebuf;
  let final := terminal b s in
  update (set_c_continuation_line (negb final));;
  statesave ← read c_cmdstate;
  pipe ← read c_pipe;
  match pipe !! idx with
  | None => exit ScSegv
  | Some pc =>
      update (set_c_cmdstate (p_state pc));;
      first ← read c_first_line;
      when_ ((idx =? 0)%nat && first) (update (set_c_prevcmdstate SMTPSTATE99));;
      when_ first (rmsgappend false ([13] ++ $$"<<- " ++ default ($$"(connecting)") (p_cmd pc)));;
      update (set_c_first_line final);;
      rmsgappend true ([13] ++ $$"->> " ++ cstr (drop s b));;
      update (set_c_cmdstate statesave);;
      mret (if final then Some (atoi (cstr (drop s b))) else None)
  end.

Inductive reply := Reply (code : Z) (line : list Z) (eol : nat) | NoReply (err : Z).

(** The reply with its continuation lines. *)
Fixpoint read_reply (n : nat) (nonblocking : bool) (idx eol : nat) : SC reply :=
  match n with
  | O => exit ScFuel
  | S n =>
      g ← next_line fuel nonblocking idx eol;
      match g with
      | GotBreak err => mret (NoReply err)
      | GotLine s eol =>
          r ← sync_line idx s eol;
          b ← read c_pipebuf;
          match r with
          | Some code => mret (Reply code (cstr (drop s b)) eol)
          | None => read_reply n nonblocking idx eol
          end
      end
  end.

(** *** Judging a reply *)

Definition report_failure (id : nat) (rc : Z) : SC unit :=
  notary_user id FAILED None None;;
  text ← remotemsg;
  sc_diagnostic id rc 0 ($$"%s") text.

(** In LMTP mode the last command gets a reply for each recipient. *)
Definition report_lmtp (datarp : option nat) (outcome : option (list Z)) (rc bits : Z) : SC unit :=
  match datarp with
  | Some id =>
      when_ lmtp_mode
        (notary_user id outcome None None;;
         text ← remotemsg;
         sc_diagnostic id rc 0 ($$"%s") text;;
         add_states bits)
  | None => mret tt
  end.

Definition reply_error (pc : pipecmd) (idx : nat) (datarp : option nat) (code rc : Z) : SC unit :=
  match p_rcpt pc with
  | Some id =>
      add_states (if code >=? 500 then RCPTSTATE_500 else RCPTSTATE_400);;
      report_failure id rc
  | None =>
      if (idx =? 0)%nat && match p_cmd pc with Some cmd => STREQN cmd ($$"MAIL") | None => false end then
        add_states (if code >=? 500 then FROMSTATE_500 else FROMSTATE_400)
      else
        report_lmtp datarp FAILED rc (if code >=? 500 then RCPTSTATE_500 else RCPTSTATE_400);;
        if code >=? 500 then
          from_failed ← has_states (Z.lor FROMSTATE_400 FROMSTATE_500);
          rcpt_ok ← has_states RCPTSTATE_OK;
          rcpt_400 ← has_states RCPTSTATE_400;
          add_states (if (from_failed : bool) then DATASTATE_400
                      else if (rcpt_ok : bool) then DATASTATE_500
                      else if (rcpt_400 : bool) then DATASTATE_400 else DATASTATE_500)
        else add_states DATASTATE_400
  end.

Definition reply_ok (pc : pipecmd) (idx : nat) (datarp : option nat) (rc : Z) : SC unit :=
  match p_rcpt pc with
  | Some id =>
      from_failed ← has_states (Z.lor FROMSTATE_400 FROMSTATE_500);
      if (from_failed : bool) then add_states RCPTSTATE_400
      else
        add_states RCPTSTATE_OK;;
        rp ← get_rcpt id;
        set_rcpt (set_r_status EX_OK rp)
  | None =>
      when_ (idx =? 0)%nat (add_states FROMSTATE_OK);;
      report_lmtp datarp (Some ($$"delivered")) rc RCPTSTATE_OK;;
      rcpt_ok ← has_states RCPTSTATE_OK;
      when_ ((0 <? idx)%nat && rcpt_ok) (add_states DATASTATE_OK)
  end.

Definition sync_reply (idx nextidx : nat) (datarp : option nat) (code : Z) (line : list Z) : SC unit :=
  update (set_c_pipereplies nextidx);;
  fp ← read c_smtpfp;
  fd ← read c_fileno;
  let code := if negb (fp && fd) && (code >=? 500) then code - 100 else code in
  let '(rc, status) := code_to_status code in
  caps ← read c_ehlo_capabilities;
  let '(status, str) := notary_stat (flag_set caps ESMTP_ENHSTATUS) line status in
  sc_notaryreport None None (Some status) (Some str);;
  bad500 ← has_states (Z.lor FROMSTATE_500 HELOSTATE_500);
  bad400 ← has_states (Z.lor FROMSTATE_400 HELOSTATE_400);
  rc ← (if (bad500 : bool) then mret EX_UNAVAILABLE
        else if (bad400 : bool) then add_states RCPTSTATE_400;; mret EX_TEMPFAIL
        else mret rc);
  pipe ← read c_pipe;
  match pipe !! idx with
  | None => exit ScSegv
  | Some pc =>
      ev (EvReply pc code);;
      if code >=? 400 then reply_error pc idx datarp code rc else reply_ok pc idx datarp rc
  end.

(** *** The loop *)

(** In LMTP mode the reply to the last command is taken once for each
    recipient that has no report yet.  [None]: there is none left. *)
Fixpoint pending_rcpt (pcs : list pipecmd) (rps : list rcpt) : option nat :=
  match pcs with
  | [] => None
  | pc :: pcs =>
      match p_rcpt pc with
      | Some id =>
          match find_rcpt id rps with
          | Some rp => if (r_lockoffset rp =? 0)%nat then pending_rcpt pcs rps else Some id
          | None => pending_rcpt pcs rps
          end
      | None => pending_rcpt pcs rps
      end
  end.
Definition lmtp_pending (idx : nat) : SC (option (option nat * nat)) :=
  pipe ← read c_pipe;
  st ← read c_cmdstate;
  d ← read c_desc;
  mret (if lmtp_mode && (idx =? length pipe - 1)%nat && (SMTPSTATE_DATADOT <=? st)%nat then
          match pending_rcpt (take idx pipe) (d_recipients d) with
          | Some id => Some (Some id, idx)
          | None => None
          end
        else Some (None, S idx)).

Fixpoint sync_loop (n : nat) (nonblocking : bool) (idx : nat) : SC Z :=
  match n with
  | O => exit ScFuel
  | S n =>
      pipe ← read c_pipe;
      if (idx <? length pipe)%nat then
        d ← lmtp_pending idx;
        match d with
        | None => mret 0
        | Some (datarp, nextidx) =>
            r ← read_reply fuel nonblocking idx O;
            match r with
            | NoReply err => mret err
            | Reply code line eol =>
                sync_reply idx nextidx datarp code line;;
                update (fun c => set_c_pipebuf (drop eol (c_pipebuf c)) c);;
                sync_loop n nonblocking nextidx
            end
        end
      else mret 0
  end.

Definition sync_verdict (states err : Z) : Z :=
  if flag_set states FROMSTATE_500 then EX_UNAVAILABLE
  else if flag_set states FROMSTATE_400 then EX_TEMPFAIL
  else if negb (err =? 0) then EX_TEMPFAIL
  else
    let rc := if flag_set states RCPTSTATE_OK then EX_OK
              else if flag_set states RCPTSTATE_400 then EX_TEMPFAIL
              else if flag_set states RCPTSTATE_500 then EX_UNAVAILABLE else EX_OK in
    if rc =? EX_OK then
      if flag_set states DATASTATE_500 then EX_UNAVAILABLE
      else if flag_set states DATASTATE_400 then EX_TEMPFAIL else EX_OK
    else rc.

(** Its argument [r] is not used. *)
Definition smtp_sync (nonblocking : bool) : SC Z :=
  update (set_c_smtp_outcount 0);;
  update (set_c_block_written false);;
  replies ← read c_pipereplies;
  when_ (replies =? 0)%nat (update (set_c_continuation_line false);; update (set_c_first_line true));;
  fp ← read c_smtpfp;
  fd ← read c_fileno;
  when_ (negb nonblocking && fp && fd) (sfsync;; mret tt);;
  err ← sync_loop fuel nonblocking replies;
  states ← read c_rcptstates;
  mret (sync_verdict states err).

(** ** Writing commands *)

Fixpoint drain (n : nat) : SC unit :=
  match n with
  | O => exit ScFuel
  | S n =>
      r ← smtp_nbread;
      match r with
      | NbError _ | NbData [] => mret tt
      | NbData l =>
          update (fun c => set_c_pipebuf (c_pipebuf c ++ l) c);;
          update (set_c_block_written false);;
          drain n
      end
  end.

Definition pipeblockread : SC Z :=
  written ← read c_block_written;
  when_ written (r ← has_readable; when_ r (drain fuel));;
  b ← read c_pipebuf;
  match b with [] => mret EX_OK | _ => smtp_sync true end.

(** The write failed: the texts of it. *)
Definition write_failure : SC unit :=
  alarm ← read c_gotalarm;
  tr ← read c_trace;
  if (alarm : bool) then
    set_remotemsg ($$"Timeout on cmd write");;
    sc_notaryreport None FAILED (Some ($$"5.4.2 (timeout on cmd write)")) (Some ($$"smtp; 500 (timeout on cmd write)"))
  else
    let text := $$"smtp; 500 (write to server error: " ++ sc_strerror tr ++ $$")" in
    set_remotemsg text;;
    sc_notaryreport None FAILED (Some ($$"5.4.2 (write to server, err)")) (Some text).

(** A line to the stream; true when it failed. *)
Definition put_command (l : list Z) : SC bool :=
  fp ← read c_smtpfp;
  bad ← read c_sferror;
  ok ← (if fp && negb bad then sfwrite (l ++ [13; 10]) else mret false);
  bad ← read c_sferror;
  mret (negb ok || negb fp || bad).

(** [pipelining] is negative for QUIT. *)
Definition smtpwrite (strbuf : option (list Z)) (pipelining : Z) (syncrp : option nat) : SC Z :=
  update (set_c_gotalarm false);;
  smtppipestowage strbuf syncrp;;
  r ← match strbuf with
      | None => mret EX_OK
      | Some l =>
          err ← (if 0 <? pipelining then
                   update (fun c => set_c_smtp_outcount (c_smtp_outcount c + Z.of_nat (length l) + 2) c);;
                   pipeblockread;;
                   err ← put_command l;
                   update (fun c => if c_smtp_outcount c >? c_smtp_bufsize c
                                    then set_c_smtp_outcount (c_smtp_outcount c - c_smtp_bufsize c) (set_c_block_written true c)
                                    else c);;
                   mret err
                 else
                   err ← put_command l;
                   fp ← read c_smtpfp;
                   bad ← read c_sferror;
                   if negb fp || bad then mret true else ok ← sfsync; mret (err || negb ok));
          when_ err write_failure;;
          mret (if (err : bool) then EX_TEMPFAIL else EX_OK)
      end;
  fp ← read c_smtpfp;
  fd ← read c_fileno;
  (if fp && fd then
     match strbuf with
     | Some l => rmsgappend false ([13] ++ $$"<<- " ++ l)
     | None =>
         update (fun c => set_c_remotemsg (<[O := 0]> (c_remotemsg c)) c);;
         rmsgappend false ([13] ++ $$"<<- (null)")
     end
   else
     match strbuf with
     | Some l => rmsgappend false ([13] ++ $$"Write Failure; shunted cmd: " ++ l)
     | None => mret tt
     end);;
  if negb (pipelining =? 0) then
    r2 ← pipeblockread;
    mret (if negb (r =? EX_OK) then r else r2)
  else smtp_sync false.

Definition smtp_ehlo (strbuf : list Z) : SC Z :=
  update (fun c => set_c_within_ehlo (-2 <? c_esmtp_on_banner c) c);;
  update (set_c_ehlo_capabilities 0);;
  update (set_c_rcptstates 0);;
  rc ← smtpwrite (Some strbuf) 0 None;
  update (set_c_within_ehlo false);;
  mret rc.
End sync.
