(* ===== verification/ScConnect.v ===== *)
(** * The SMTP client: connections (transports/smtp/smtp.c, smtpauth.c)

    From the name of a host to a stream with a greeting: smtpconn() finds the
    addresses, makeconn() tries them, vcsetup() connects; makereconn() goes to
    the last address again.  smtpauth() gives the user and the secret of a
    file to the server. *)

From Stdlib Require Import ZArith Lia.
From stdpp Require Import base tactics numbers list option.
From S2P Require Import Prelude TaFile TaDiag TaCtl ScState ScMx ScCname ScReply.

#[local] Open Scope Z_scope.

Definition IPPORT_SMTP : Z := 25.
Definition IPPORT_RESERVED : nat := 1024.
Definition MAXHOSTNAMELEN : nat := 64.
Definition MAXFORWARDERS : nat := 128.
Definition IPADDRESS_SIZE : nat := 200.
Definition EX_OSFILE : Z := 72.

(** ** What is around *)

(** bind() to a port; for a UNIX socket none is done, and this is the errno of
    an earlier call. *)
Inductive bind_result := BindOk | BindBusy | BindError.

(** The host and the options -x, -p, -F and, for root, -r; the system: socket(), bind(),
    connect() with the wait for it and the error of the socket, as the errno
    and whether it timed out; getsockname() as text; the name of the own
    interface; the file of secrets and the channel.  [rc_garbage] is the
    value of rc in smtpconn() when nothing was assigned to it. *)
Class ConnEnv := {
  conn_dns :: DnsEnv;
  smtp_host : list Z;
  noMX : Z;
  punthost : bool;
  servport : Z;
  wantreserved : bool;
  rc_garbage : Z;
  inet_ntop : addrinfo -> list Z;
  sys_socket : list event -> bool;
  sys_bind : list event -> nat -> bind_result;
  sys_connect : list event -> addrinfo -> Z -> Z * bool;
  sys_sockname : list event -> option (list Z);
  sys_ifname : list event -> option (list Z);
  authpasswdfile : bool;
  auth_secrets : list event -> option (list Z);
  sel_channel : option (list Z)
}.

Section connect.
Context `{TaEnv, ScEnv, ConnEnv}.
Variable fuel : nat.

(** ** vcsetup() *)

(** errno, from sendmail *)
Definition software_errno : list Z := [9; 14; 38; 42; 60; 88; 89; 90; 91; 92; 93; 94; 95; 96; 97].
Definition unavailable_errno : list Z := [13; 64].
Definition temporary_errno : list Z := [4; 12].
Definition connect_status (errno : Z) : Z :=
  if one_of software_errno errno then EX_SOFTWARE
  else if one_of unavailable_errno errno then EX_UNAVAILABLE
  else if one_of temporary_errno errno then EX_TEMPFAIL
  else EX_DEFERALL.

(** A reserved port: [todo] of them are left, [p] is the next. *)
Fixpoint reserved_port (todo p : nat) : SC (option Z) :=
  match todo with
  | O =>
      set_remotemsg ($$"too many busy ports");;
      sc_notaryreport None FAILED (Some ($$"5.4.0 (internal error, too many busy ports)"))
        (Some ($$"smtp; 500 (Internal error, too many busy ports)"));;
      mret (Some EX_TEMPFAIL)
  | S todo =>
      tr ← ask;
      match sys_bind tr p with
      | BindOk => mret None
      | BindBusy => reserved_port todo (p - 1)
      | BindError =>
          lookup_failed ($$"5.4.0 (internal error, bind)") ($$"smtp; 500 (Internal error, bind: " ++ sc_strerror tr ++ $$")");;
          mret (Some EX_UNAVAILABLE)
      end
  end.

Definition invalid_net (a : addrinfo) : bool :=
  bool_decide (ai_family a = AF_INET) && let anet := nth 0 (ai_addr a) 0 in (anet <=? 0) || (224 <=? anet).

(** The text of the address, as far as it has room, for the reports *)
Definition set_ipaddress (ip : list Z) : SC unit :=
  (if (IPADDRESS_SIZE <=? length ip)%nat then exit ScSegv else mret tt);;
  update (set_c_ipaddress ip);;
  in_notary (notary_setwttip (Some ip)).

(** [hostname] is the name for the reports.  A socket that cannot be made ends
    the process by abort(). *)
Definition vcsetup (a : addrinfo) (hostname : list Z) : SC Z :=
  update (set_c_remotehost hostname);;
  smtp_flush;;
  tr ← ask;
  if negb (sys_socket tr) then exit (ScExit (ExitCode EX_SOFTWARE))
  else
    reserved ← (if wantreserved then reserved_port (IPPORT_RESERVED / 2) (IPPORT_RESERVED - 1) else mret None);
    match reserved with
    | Some rc => mret rc
    | None =>
        literal ← read c_literalport;
        let port := if 0 <? literal then literal else servport in
        update (set_c_gotalarm false);;
        smtp_flush;;
        update (set_c_cmdstate O);;
        if invalid_net a then mret EX_UNAVAILABLE
        else
          tr ← read c_trace;
          ev (EvConnect a);;
          let '(errno, timeout) := sys_connect tr a port in
          update (set_c_gotalarm timeout);;
          ip ← read c_ipaddress;
          match sys_sockname tr with Some l => set_ipaddress (ip ++ $$"|" ++ l) | None => mret tt end;;
          ip ← read c_ipaddress;
          if (errno =? 0) && negb timeout then mret EX_OK
          else
            lookup_failed ($$"5.4.1 (TCP/IP-connection failure)")
              ($$"smtp; 500 (connect to " ++ take 200 hostname ++ $$" [" ++ take 200 ip ++ $$"]: " ++ sc_strerror tr ++ $$")");;
            mret (connect_status errno)
    end.

(** ** makeconn() *)

(** What is kept of an address for another connection: the structure for it
    has room for 26 bytes of the path of a UNIX socket. *)
Definition keep_address (a : addrinfo) : addrinfo :=
  match ai_family a with AF_UNIX => Addrinfo AF_UNIX (take 26 (ai_addr a)) (ai_canonname a) | _ => a end.

Definition ip_text (a : addrinfo) : list Z :=
  match ai_family a with
  | AF_INET => inet_ntop a ++ $$"|" ++ dec servport
  | AF_INET6 => $$"ipv6 " ++ inet_ntop a ++ $$"|" ++ dec servport
  | AF_UNIX => $$"UNIX:" ++ ai_addr a
  end.

(** A stream to the socket, and the greeting *)
Definition open_stream : SC Z :=
  tr ← ask;
  update (set_c_smtpfd true);;
  update (set_c_smtpfp true);;
  update (set_c_fileno true);;
  update (set_c_sferror false);;
  ev EvOpen;;
  update (set_c_myhostname (sys_ifname tr));;
  update (set_c_smtp_outcount 0);;
  update (set_c_block_written false);;
  update (set_c_do_rset false);;
  banner ← read c_esmtp_on_banner;
  when_ (0 <? banner) (update (set_c_esmtp_on_banner 0));;
  update (set_c_rcptstates 0);;
  smtpwrite fuel None 0 None.

Definition self_report (i : Z) : SC unit :=
  (if i =? 3 then
     sc_notaryreport None FAILED (Some ($$"5.4.6 (trying to use invalid destination address)"))
       (Some ($$"smtp; 500 (Trying to talk to invalid destination network address!)"))
   else if i =? 2 then
     sc_notaryreport None FAILED (Some ($$"5.4.6 (trying to talk to loopback (=myself)!)"))
       (Some ($$"smtp; 500 (Trying to talk to loopback (=myself)!)"))
   else
     sc_notaryreport None FAILED (Some ($$"5.4.6 (trying to talk with myself!)"))
       (Some ($$"smtp; 500 (Trying to talk with myself!)")));;
  set_remotemsg ($$"Trying to talk with myself!").

(** One address after the other; [hostbuf] is the name for the reports,
    [retval] the result so far. *)
Fixpoint try_addresses (reconnect : bool) (hostname : option (list Z)) (hostbuf : list Z) (ismx : Z)
    (ai : list addrinfo) (retval : Z) : SC Z :=
  getout ← read c_getout;
  match ai with
  | [] => mret (if (getout : bool) then EX_TEMPFAIL else retval)
  | a :: ai =>
      if (getout : bool) then mret EX_TEMPFAIL
      else
        when_ (negb reconnect)
          (let name := match ai_canonname a with Some n => Some n | None => hostname end in
           update (set_c_ai (Some (keep_address (Addrinfo (ai_family a) (ai_addr a) name))));;
           update (set_c_ismx ismx));;
        tr ← read c_trace;
        let i := match ai_family a with AF_UNIX => 0 | _ => matchmyaddress (my_addresses tr) a end in
        let ip := ip_text a in
        set_ipaddress ip;;
        let i := if negb (i =? 0) && (ismx =? -2) then 0 else i in
        if negb (i =? 0) && (servport =? IPPORT_SMTP) then
          self_report i;;
          getout ← read c_getout;
          mret (if (getout : bool) then EX_TEMPFAIL else EX_UNAVAILABLE)
        else
          fp ← read c_smtpfp;
          when_ fp smtpclose;;
          rc ← vcsetup a hostbuf;
          if negb (rc =? EX_OK) then try_addresses reconnect hostname hostbuf ismx ai rc
          else
            rc ← open_stream;
            if rc =? EX_OK then mret EX_OK else try_addresses reconnect hostname hostbuf ismx ai rc
  end.

(** There is a look at the first address, for its name. *)
Definition makeconn (reconnect : bool) (hostname : option (list Z)) (ai : list addrinfo) (ismx : Z) : SC Z :=
  match ai with
  | [] => exit ScSegv
  | a :: _ =>
      let hostbuf := take MAXHOSTNAMELEN (default (default [] hostname) (ai_canonname a)) in
      wks ← (if checkwks then tr ← ask; mret (getrr_wks tr hostbuf) else mret true);
      if negb wks then
        in_notary (notary_setwttip None);;
        lookup_failed ($$"5.4.4 (WKS Checks: no SMTP reception capability registered)")
          ($$"smtp; 550 (WKS checks: no SMTP reception capability registered for host " ++ take 200 hostbuf ++ $$")");;
        mret EX_UNAVAILABLE
      else try_addresses reconnect hostname hostbuf ismx ai EX_DEFERALL
  end.

Definition makereconn : SC Z :=
  smtpclose;;
  a ← read c_ai;
  ismx ← read c_ismx;
  match a with
  | None => exit ScSegv
  | Some a => makeconn true (ai_canonname a) [a] ismx
  end.

(** ** smtpconn() *)

Definition UNIX_PREFIX : list Z := $$"UNIX:/".

(** The address in brackets, and the port behind it *)
Definition literal_text (host : list Z) : list Z :=
  let l := drop 1 host in take (Nat.min 499 (span (fun c => negb (c =? $"]")) l)) l.
Definition literal_port (host : list Z) : option Z :=
  let rest := drop (1 + length (literal_text host)) host in
  match rest with
  | c :: d :: rest => if (c =? $"]") && (d =? $":") then scan_long rest else None
  | _ => None
  end.
Definition is_ipv6 (buf : list Z) : bool :=
  CISTREQN buf ($$"IPv6 ") || CISTREQN buf ($$"IPv6.") || CISTREQN buf ($$"IPv6:").

Definition literal_conn (host : list Z) : SC Z :=
  let buf := literal_text host in
  match literal_port host with Some p => update (set_c_literalport p) | None => mret tt end;;
  x ← (if is_ipv6 buf then host_lookup (drop 5 buf) AF_INET6 else host_lookup buf AF_INET);
  let '(rc, ai) := x in
  in_notary (notary_setwtt (Some ($$"X-IP-addr; [" ++ take 80 buf ++ $$"]")));;
  if negb (bool_decide (rc = GaiOk)) then
    lookup_failed ($$"5.1.2 (bad literal IP address)") ($$"smtp; 500 (bad IP address: " ++ take 500 host ++ $$")");;
    mret EX_NOHOST
  else
    update (set_c_mxcount O);;
    makeconn false (Some host) ai (-2).

(** The text and the code when a host has no address *)
Definition no_address (host : list Z) (r : gai) (rc : Z) : SC Z :=
  mxcount ← read c_mxcount;
  tr ← read c_trace;
  let underscore := has_char host ($"_") in
  let host := take 200 host in
  let code := if rc =? EX_TEMPFAIL then rc else EX_UNAVAILABLE in
  let '(text, code) :=
    if underscore then
      ($$"smtp; 500 (Hostname with illegal [to the DNS] underscore in it: '" ++ host ++ $$"')", code)
    else if negb (noMX =? 0) then
      ($$"smtp; 500 (configuration inconsistency. MX usage forbidden, no address in the DNS: '" ++ host ++ $$"')", code)
    else if (0 <? mxcount)%nat then
      ($$"smtp; 500 (nameserver data inconsistency. All MXes rejected [we are the best?], no address: '" ++ host ++ $$"')",
       if negb (code =? EX_TEMPFAIL) then EX_NOHOST else code)
    else if bool_decide (r = EAI_NONAME) then
      ($$"smtp; 500 (nameserver data inconsistency. No MX, no address: '" ++ host ++ $$"' (NONAME))", EX_TEMPFAIL)
    else
      ($$"smtp; 500 (nameserver data inconsistency. No MX, no address: '" ++ host ++ $$"', errno=" ++ sc_strerror tr ++
         $$", gai_errno='" ++ gai_strerror r ++ $$"')", EX_TEMPFAIL) in
  lookup_failed ($$"5.4.4 (nameserver data inconsistency)") text;;
  mret (if code =? EX_TEMPFAIL then EX_DEFERALL else code).

(** No MX records, or none that are to be used *)
Definition address_conn (host : list Z) (rc : Z) : SC Z :=
  x ← host_lookup host AF_INET;
  y ← (if use_ipv6 then x2 ← host_lookup host AF_INET6; mret (both_families (x.1) (x.2) (x2.1) (x2.2)) else mret x);
  let '(r, ai) := y in
  if negb (bool_decide (r = GaiOk)) then
    if (bool_decide (r = EAI_NONAME) || bool_decide (r = EAI_AGAIN)) && (rc =? EX_TEMPFAIL) then mret EX_DEFERALL
    else if bool_decide (r = EAI_AGAIN) then
      lookup_failed ($$"5.4.3 (dns lookup 'try again')") ($$"smtp; 566 (getaddrinfo<" ++ take 200 host ++ $$">: try later)");;
      mret EX_DEFERALL
    else if bool_decide (r = EAI_NODATA) then
      lookup_failed ($$"5.4.3 (dns lookup 'no data')") ($$"smtp; 500 (getaddrinfo<" ++ take 200 host ++ $$">: No data)");;
      mret (if rc =? EX_TEMPFAIL then EX_DEFERALL else EX_UNAVAILABLE)
    else no_address host r rc
  else
    in_notary (notary_setwtt (Some ($$"dns; " ++ take 200 host)));;
    makeconn false (Some host) ai (if noMX =? -2 then -2 else -1).

(** The hosts of the MX records from [i] on *)
Fixpoint mx_conn (mx : list mxdata) (i : nat) (retval : Z) : SC Z :=
  match mx with
  | [] => mret retval
  | m :: mx =>
      match mx_host m with
      | None => mret retval
      | Some h =>
          in_notary (notary_setwtt (Some ($$"dns; " ++ take 200 h)));;
          r ← makeconn false (Some h) (mx_ai m) (Z.of_nat i);
          update (set_c_firstmx (S i));;
          if r =? EX_OK then mret EX_OK
          else mx_conn mx (S i) (if one_of [EX_TEMPFAIL; EX_DEFERALL] r then r else retval)
      end
  end.

(** The lookup of the MX records; [inl] is the end. *)
Definition find_hosts (host : list Z) : SC (Z + Z) :=
  first ← read c_firstmx;
  if (noMX =? 0) && (first =? 0)%nat then
    update (set_c_mxcount O);;
    r ← getmxrr DEPTH MAXFORWARDERS host [] (Some MAX_CACHE_AGE);
    update (set_c_mxh (mr_mx r));;
    if mr_rc r =? EX_OK then
      tr ← read c_trace;
      add_cname host (real_name (mr_realname r)) (default 0 (mr_ttl r) + sc_now tr);;
      mret (inr EX_OK)
    else mret (inl (mr_rc r))
  else mret (inr rc_garbage).

(** Whether a recipient's host [host] may go over the connection: the choice
    that ctlopen() leaves to the client.  The count of matches is not what it
    returns. *)
Definition rightmx (spec_host host : list Z) : SC Z :=
  if CISTREQ spec_host host then mret 1
  else
    remote ← read c_remotehost;
    if bool_decide (remote = []) then mret 0
    else
      update (set_c_mxh []);; update (set_c_mxcount O);; update (set_c_firstmx O);;
      r ← getmxrr DEPTH MAXFORWARDERS host [] None;
      update (set_c_mxh (no_host <$> mr_mx r));;
      remote ← read c_remotehost;
      if mr_rc r =? EX_OK then
        mret (if bool_decide (mr_mx r = []) then (if CISTREQ host remote then 1 else 0) else 0)
      else mret 0.

Definition name_conn (host : list Z) : SC Z :=
  x ← find_hosts host;
  match x with
  | inl rc => mret rc
  | inr rc =>
      mx ← read c_mxh;
      mxcount ← read c_mxcount;
      let no_first := match mx with m :: _ => negb (has_host m) | [] => true end in
      if negb checkwks && (0 <? mxcount)%nat && no_first then
        set_remotemsg ($$"smtp; 500 (configuration inconsistency, we are lowest MX, but this is not our local domain!)");;
        sc_notaryreport None None (Some ($$"5.4.4 (unable to route)"))
          (Some ($$"smtp; 500 (configuration inconsistency, we are lowest MX but this is not our local domain)"));;
        mret EX_NOHOST
      else if (mxcount =? 0)%nat || no_first then address_conn host rc
      else
        first ← read c_firstmx;
        mx_conn (drop first (take mxcount mx)) first EX_TEMPFAIL
  end.

Definition smtpconn : SC Z :=
  update (set_c_literalport (-1));;
  first ← read c_firstmx;
  when_ (first =? 0)%nat (update (set_c_mxcount O);; update (set_c_mxh []));;
  let host := if bool_decide (take 2 smtp_host = [34; $"["]) then drop 1 smtp_host else smtp_host in
  if punthost && bool_decide (take 6 host = UNIX_PREFIX) then
    update (set_c_mxcount O);;
    makeconn false (Some host) [Addrinfo AF_UNIX (take 255 (drop 5 host)) None] (-2)
  else if bool_decide (take 1 host = [$"["]) then literal_conn host
  else name_conn host.

(** ** smtpauth() *)

Definition REMOTE_SIZE : nat := 256.
Definition LBUF : nat := 1998.

(** fgets() *)
Fixpoint gets_all (n : nat) (l : list Z) : list (list Z) :=
  match n, l with
  | S n, _ :: _ =>
      let k := span (fun c => negb (c =? 10)) l in
      let k := if (k <? length l)%nat then S k else k in
      let k := Nat.min LBUF k in
      take k l :: gets_all n (drop k l)
  | _, _ => []
  end.

Definition is_white (c : Z) : bool := (c =? $" ") || (c =? 9) || (c =? 10).
Definition skip_white (l : list Z) : list Z := drop (span is_white l) l.
Definition next_word (l : list Z) : list Z * list Z :=
  let k := span (fun c => negb (is_white c)) l in (take k l, skip_white (drop k l)).

(** The user and the secret of a line, when it is for this host *)
Definition secrets_of (remotehost line : list Z) : option (list Z * list Z) :=
  let p := skip_white (cstr line) in
  match p with
  | [] => None
  | c :: _ =>
      if c =? $"#" then None
      else
        let '(chp, p) := next_word p in
        let '(rhp, p) := next_word p in
        let '(up, p) := next_word p in
        let '(sp, _) := next_word p in
        if bool_decide (sp = []) || bool_decide (up = []) || bool_decide (rhp = []) || bool_decide (chp = []) then None
        else if (bool_decide (chp = [$"*"]) || bool_decide (sel_channel = Some chp)) && CISTREQ remotehost rhp
        then Some (take (REMOTE_SIZE - 1) up, take (REMOTE_SIZE - 1) sp)
        else None
  end.

Fixpoint first_secrets (remotehost : list Z) (lines : list (list Z)) : option (list Z * list Z) :=
  match lines with
  | [] => None
  | l :: lines => match secrets_of remotehost l with Some x => Some x | None => first_secrets remotehost lines end
  end.

(** pick_secrets() *)
Definition pick_secrets : SC (Z + list Z * list Z) :=
  tr ← ask;
  host ← read c_remotehost;
  mret (match auth_secrets tr with
        | None => inl EX_OSFILE
        | Some file =>
            match first_secrets host (gets_all (length file) file) with
            | Some x => inr x
            | None => inl EX_UNAVAILABLE
            end
        end).

Definition smtpauth : SC Z :=
  x ← pick_secrets;
  match x with
  | inl rc => mret (if rc =? EX_UNAVAILABLE then EX_OK else rc)
  | inr (remoteuser, remotesecret) =>
      smtp_flush;;
      update (set_c_rcptstates 0);;
      rc ← smtpwrite fuel (Some ($$"AUTH LOGIN")) 0 None;
      if negb (rc =? EX_OK) then mret rc
      else
        update (set_c_rcptstates 0);;
        rc ← smtpwrite fuel (Some remoteuser) 0 None;
        if negb (rc =? EX_OK) then mret rc
        else
          verbose ← read c_verboselog;
          update (set_c_verboselog false);;
          update (set_c_rcptstates 0);;
          smtpwrite fuel (Some remotesecret) 1 None;;
          update (set_c_verboselog verbose);;
          smtp_sync fuel false
  end.
End connect.
