(* ===== verification/ScBody.v ===== *)
(** * The SMTP client: headers and body (transports/smtp/appendlet.c)

    A message goes out as its headers (swriteheaders() of transports/libta)
    and the body from the spool file (appendlet()), in CR LF lines with dots
    doubled for DATA, or collected in chunks for BDAT (bdat_flush() of
    smtp.c).  On the way the body may be put into Quoted-Printable or taken
    out of it.  The status lines of [statusreport] are left out. *)

From Stdlib Require Import ZArith Lia.
From stdpp Require Import base tactics numbers list option.
From S2P Require Import Prelude TaFile TaDiag TaCtl ScState ScReply.

#[local] Open Scope Z_scope.

Inductive CONVERTMODE := CONVERT_NONE | CONVERT_QP | CONVERT_MULTIPARTQP | CONVERT_8BIT | CONVERT_UNKNOWN.
Definition is_mode (a b : CONVERTMODE) : bool :=
  match a, b with
  | CONVERT_NONE, CONVERT_NONE | CONVERT_QP, CONVERT_QP | CONVERT_MULTIPARTQP, CONVERT_MULTIPARTQP
  | CONVERT_8BIT, CONVERT_8BIT | CONVERT_UNKNOWN, CONVERT_UNKNOWN => true
  | _, _ => false
  end.

Definition SC_EOF : Z := -1.
Definition LET_BUFFER_SIZE : nat := Z.to_nat (63 * 1024).

Section body.
Context `{TaEnv, ScEnv}.
Variable fuel : nat.

(** ** BDAT *)

Definition bdat_command (size : Z) (last : bool) : list Z :=
  $$"BDAT " ++ dec size ++ if last then $$" LAST" else [].

Definition bdat_failed : SC Z :=
  sc_notaryreport None None (Some ($$"5.4.2 (BDAT message write failed)")) (Some ($$"smtp; 566 (BDAT message write failed)"));;
  mret EX_TEMPFAIL.

Definition bdat_flush (last : bool) : SC Z :=
  b ← read c_chunkbuf;
  let chunk := default [] b in
  r ← smtpwrite fuel (Some (bdat_command (Z.of_nat (length chunk)) last)) 1 None;
  if negb (r =? EX_OK) then mret r
  else
    fp ← read c_smtpfp;
    if negb fp then exit ScSegv
    else
      bad ← read c_sferror;
      ok ← (if bool_decide (chunk = []) || bad then mret true else sfwrite chunk);
      if negb ok then
        update (fun c => set_c_chunkbuf ((fun _ => []) <$> c_chunkbuf c) c);;
        bdat_failed
      else
        sfsync;;
        bad ← read c_sferror;
        pipelining ← read c_pipelining;
        r ← (if (bad : bool) then bdat_failed else smtp_sync fuel (negb (last || negb pipelining)));
        update (fun c => set_c_chunkbuf ((fun _ => []) <$> c_chunkbuf c) c);;
        mret r.

(** ** Characters *)

(** ssputc(); false for EOF. *)
Definition ssputc (ch : Z) : SC bool :=
  b ← read c_chunkbuf;
  match b with
  | None =>
      bad ← read c_sferror;
      if (bad : bool) then mret false
      else ok ← sfputc ch; bad ← read c_sferror; mret (ok && negb bad)
  | Some b =>
      r ← (if Z.of_nat (length b) >=? CHUNK_MAX_SIZE then bdat_flush false else mret EX_OK);
      if negb (r =? EX_OK) then mret false
      else
        update (fun c => set_c_chunkspace
          (if Z.of_nat (length (default [] (c_chunkbuf c))) >=? c_chunkspace c then 2 * c_chunkspace c else c_chunkspace c) c);;
        update (fun c => set_c_chunkbuf ((fun b => b ++ [ch]) <$> c_chunkbuf c) c);;
        mret true
  end.

(** The texts of a failure to write. *)
Definition write_error (k : list Z) : SC unit :=
  sc_notaryreport None FAILED (Some ($$"5.4.2 (body write error, " ++ k ++ $$")"))
    (Some ($$"smtp; 500 (body write error, " ++ k ++ $$")"));;
  set_remotemsg ($$"write error " ++ k).

(** A failure leaves the function: [None]. *)
Definition put_or {A} (ch : Z) (k : list Z) (next : SC (option A)) : SC (option A) :=
  ok ← ssputc ch;
  if (ok : bool) then next else write_error k;; mret None.

(** ** writebuf() *)

Definition count_down (alarmcnt : Z) : Z := if alarmcnt - 1 <=? 0 then ALARM_BLOCKSIZE else alarmcnt - 1.
Definition more_hsize : SC unit := update (fun c => set_c_hsize (c_hsize c + 1) c).

(** [state]: at the start of a line. *)
Fixpoint writebuf_loop (l : list Z) (state : bool) (alarmcnt : Z) : SC (option (bool * Z)) :=
  alarm ← read c_gotalarm;
  match l with
  | [] => mret (Some (state, alarmcnt))
  | ch :: l =>
      if (alarm : bool) then mret (Some (state, alarmcnt))
      else
        more_hsize;;
        let alarmcnt := count_down alarmcnt in
        chunking ← read c_doing_chunking;
        if state && negb (ch =? 10) then
          if (ch =? $".") && negb chunking then
            put_or ch ($$"1") (put_or ch ($$"1") (writebuf_loop l false alarmcnt))
          else put_or ch ($$"2") (writebuf_loop l false alarmcnt)
        else if ch =? 10 then
          put_or 13 ($$"3") (put_or ch ($$"3") (writebuf_loop l true alarmcnt))
        else put_or ch ($$"4") (writebuf_loop l state alarmcnt)
  end.

(** The result is the length, also after an alarm. *)
Definition writebuf (l : list Z) : SC Z :=
  state ← read c_state;
  alarmcnt ← read c_alarmcnt;
  r ← writebuf_loop l state alarmcnt;
  match r with
  | None => mret SC_EOF
  | Some (state, alarmcnt) =>
      update (set_c_state state);; update (set_c_alarmcnt alarmcnt);; mret (Z.of_nat (length l))
  end.

(** ** writemimeline() *)

Definition i2h (n : Z) : Z := nth (Z.to_nat n) ($$"0123456789ABCDEF") 0.
Definition is_hex (c : Z) : bool :=
  isdigit c || (($"a" <=? c) && (c <=? $"f")) || (($"A" <=? c) && (c <=? $"F")).
(** The value of a digit: [c & 0x0F] after the two corrections *)
Definition qp_digit (c : Z) : Z :=
  let c := if $"a" <=? c then c - ($"a" - $"A") else c in
  let c := if $"9" <? c then c - ($"A" - $"9" - 1) else c in
  Z.land c 15.

(** Needs quoting in Quoted-Printable, at [column] of the line. *)
Definition needs_quoting (column ch : Z) : bool :=
  (ch =? $"=") || (126 <? ch) || ((column =? 0) && ((ch =? $"F") || (ch =? $"."))) ||
  (negb (ch =? 10) && negb (ch =? 9) && (ch <? 32)).

(** [=XX]; failures are not looked at. *)
Definition put_quoted (ch : Z) : SC unit :=
  ssputc $"=";; ssputc (i2h (Z.land (Z.shiftr ch 4) 15));; ssputc (i2h (Z.land ch 15));;
  update (set_c_lastch (i2h (Z.land ch 15))).

(** The character goes out, with a dot in front when it starts a line. *)
Definition put_plain {A} (column ch : Z) (next : Z -> SC (option A)) : SC (option A) :=
  chunking ← read c_doing_chunking;
  let finish column := put_or ch ($$"7") (update (set_c_lastch ch);; next column) in
  let ending := if ch =? 10 then put_or 13 ($$"6") (finish (-1)) else finish column in
  if (column =? 0) && (ch =? $".") && negb chunking then put_or ch ($$"5") ending else ending.

Definition is_wrap (c : Z) : bool := (c =? $" ") || (c =? 9) || (c =? 10) || (c =? 13).

(** [l] is what is left of the line; with a [=] in _CONVERT_8BIT, [qp_chrs]
    digits are still to come and [qp_val] is their value so far. *)
Fixpoint mimeline_loop (mode : CONVERTMODE) (l : list Z) (column alarmcnt qp_chrs qp_val : Z) : SC (option (Z * Z)) :=
  match l with
  | [] => mret (Some (column, alarmcnt))
  | ch :: rest =>
      let column := column + 1 in
      more_hsize;;
      let alarmcnt := count_down alarmcnt in
      if is_mode mode CONVERT_8BIT then
        if (ch =? $"=") && (qp_chrs =? 0) then mimeline_loop mode rest column alarmcnt 2 0
        else if negb (qp_chrs =? 0) then
          if is_wrap ch then mret (Some (column, alarmcnt))
          else
            let column := column - 1 in
            let qp_val := if is_hex ch then Z.lor (Z.shiftl qp_val 4) (qp_digit ch) else qp_val in
            let qp_chrs := qp_chrs - 1 in
            if qp_chrs =? 0 then
              update (set_c_lastch qp_val);;
              put_plain column qp_val (fun column => mimeline_loop mode rest column alarmcnt qp_chrs qp_val)
            else mimeline_loop mode rest column alarmcnt qp_chrs qp_val
        else
          update (set_c_lastch ch);;
          put_plain column ch (fun column => mimeline_loop mode rest column alarmcnt qp_chrs qp_val)
      else if is_mode mode CONVERT_QP || is_mode mode CONVERT_UNKNOWN then
        let wrap := (70 <? column) && negb (ch =? 10) in
        when_ wrap (ssputc $"=";; ssputc 13;; ssputc 10;; update (set_c_lastch 10));;
        let column := if wrap then 0 else column in
        if (length l <? 3)%nat && ((ch =? $" ") || (ch =? 9)) then
          put_quoted ch;; mimeline_loop mode rest (column + 2) alarmcnt qp_chrs qp_val
        else if needs_quoting column ch then
          put_quoted ch;; mimeline_loop mode rest (column + 2) alarmcnt qp_chrs qp_val
        else put_plain column ch (fun column => mimeline_loop mode rest column alarmcnt qp_chrs qp_val)
      else put_plain column ch (fun column => mimeline_loop mode rest column alarmcnt qp_chrs qp_val)
  end.

Definition writemimeline (l : list Z) (mode : CONVERTMODE) : SC Z :=
  alarmcnt ← read c_alarmcnt;
  column ← read c_column;
  update (set_c_lastch (-1));;
  r ← mimeline_loop mode l column alarmcnt 0 0;
  match r with
  | None => mret SC_EOF
  | Some (column, alarmcnt) =>
      update (set_c_column column);; update (set_c_alarmcnt alarmcnt);; mret (Z.of_nat (length l))
  end.

(** ** The message file *)

(** A read() into let_buffer: the bytes, none at the end of the file. *)
Inductive got_bytes := GotBytes (l : list Z) | GotIntr | GotError.
Definition file_read : SC got_bytes :=
  tr ← read c_trace;
  ev EvFile;;
  msg ← read c_message;
  pos ← read c_filepos;
  match sc_file tr with
  | FileBytes n =>
      let l := take (Nat.max 1 (Nat.min n LET_BUFFER_SIZE)) (drop pos msg) in
      update (fun c => set_c_let_buffer (l ++ drop (length l) (c_let_buffer c)) c);;
      update (set_c_filepos (pos + length l));;
      mret (GotBytes l)
  | FileIntr => mret GotIntr
  | FileError => mret GotError
  end.

Definition seek_body : SC unit := d ← read c_desc; update (set_c_filepos (Z.to_nat (d_msgbodyoffset d))).

Definition body_of (c : client) : list Z := drop (Z.to_nat (d_msgbodyoffset (c_desc c))) (c_message c).

Definition ends_line (l : list Z) : bool := bool_decide (list.last l = Some 10).

(** How much was sent, for the error texts; a division by zero ends the
    process. *)
Definition progress : SC (list Z) :=
  h ← read c_hsize;
  m ← read c_msize;
  if m =? 0 then exit ScSegv
  else mret ($$"DATA " ++ dec h ++ $$"/" ++ dec m ++ $$" [" ++ dec (Z.quot (h * 100 + Z.quot m 2) m) ++ $$"%])").

Definition failed_write (prefix : list Z) (k : Z) : SC Z :=
  alarm ← read c_gotalarm;
  tr ← read c_trace;
  p ← progress;
  (if (alarm : bool) then set_remotemsg (prefix ++ $$"500 (msgbuffer write timeout!  " ++ p)
   else set_remotemsg (prefix ++ $$"500 (msgbuffer write IO-error[" ++ dec k ++ $$"]! [" ++ sc_strerror tr ++ $$"] " ++ p));;
  mret EX_IOERR.

Definition failed_line (k : Z) : SC Z :=
  tr ← read c_trace;
  p ← progress;
  set_remotemsg ($$"500 (msgbuffer write IO-error[" ++ dec k ++ $$"]! [" ++ sc_strerror tr ++ $$"] " ++ p);;
  mret EX_IOERR.

(** ** appendlet() *)

(** How the body went out: [inl] with the code that appendlet() returns, or
    [inr] with lastwasnl and bufferfull. *)
Definition sent_body : Type := Z + (bool * nat).

(** The loop that reads buffers, without conversion *)
Fixpoint read_loop (n : nat) (lastwasnl : bool) (bufferfull : nat) : SC sent_body :=
  match n with
  | O => exit ScFuel
  | S n =>
      r ← file_read;
      match r with
      | GotBytes [] => mret (inr (lastwasnl, bufferfull))
      | GotIntr => read_loop n lastwasnl bufferfull
      | GotError => set_remotemsg ($$"smtp; 500 (Read error from message file!?)");; mret (inl EX_IOERR)
      | GotBytes l =>
          update (set_c_readalready (length l));;
          rc ← writebuf l;
          if rc =? Z.of_nat (length l) then read_loop n (ends_line l) (S bufferfull)
          else rc ← failed_write ($$"smtp; ") 1; mret (inl rc)
      end
  end.

Definition append_read : SC sent_body :=
  already ← read c_readalready;
  if (0 <? already)%nat then
    buf ← read c_let_buffer;
    let l := take already buf in
    rc ← writebuf l;
    if rc =? Z.of_nat (length l) then mret (inr (ends_line l, O))
    else rc ← failed_write ($$"smtp; ") 1; mret (inl rc)
  else
    r ← read_loop fuel true O;
    match r with
    | inr (nl, bufferfull) =>
        when_ (1 <? bufferfull)%nat (update (set_c_readalready O));; mret (inr (nl, bufferfull))
    | inl rc => mret (inl rc)
    end.

(** csfgets(): the next line, of at most [n] characters *)
Fixpoint gets_line (n : nat) (l : list Z) : list Z * list Z :=
  match n, l with
  | S n, c :: l => if c =? 10 then ([c], l) else let '(a, b) := gets_line n l in (c :: a, b)
  | _, _ => ([], l)
  end.

(** The loop that reads lines; at the end of the stream an error of the file
    shows. *)
Fixpoint line_loop (n : nat) (mode : CONVERTMODE) (rest : list Z) (lastwasnl : bool) : SC sent_body :=
  match n with
  | O => exit ScFuel
  | S n =>
      tr ← read c_trace;
      ev EvFile;;
      match sc_file tr, rest with
      | FileError, _ => set_remotemsg ($$"500 (Read error from message file!?)");; mret (inl EX_IOERR)
      | _, [] => mret (inr (lastwasnl, O))
      | _, _ =>
          let '(l, rest) := gets_line (LET_BUFFER_SIZE - 1) rest in
          rc ← writemimeline l mode;
          if rc =? Z.of_nat (length l) then line_loop n mode rest (ends_line l)
          else rc ← failed_line 2; mret (inl rc)
      end
  end.

(** The loop over the lines of a mapped file; behind its end a NUL is read. *)
Fixpoint map_loop (n : nat) (mode : CONVERTMODE) (rest : list Z) (lastwasnl : bool) : SC sent_body :=
  match n with
  | O => exit ScFuel
  | S n =>
      match rest with
      | [] => mret (inr (lastwasnl, O))
      | _ =>
          let k := span (fun c => negb (c =? 10)) rest in
          let nl := nth k rest 0 =? 10 in
          let i := if nl then S k else k in
          rc ← writemimeline (take i rest) mode;
          if rc =? Z.of_nat (length (take i rest)) then map_loop n mode (drop i rest) nl
          else rc ← failed_line 4; mret (inl rc)
      end
  end.

Definition append_lines (mode : CONVERTMODE) : SC sent_body :=
  update (set_c_readalready O);;
  c ← read (fun c => c);
  line_loop (S (length (body_of c))) mode (body_of c) false.

Definition append_map (mode : CONVERTMODE) : SC sent_body :=
  c ← read (fun c => c);
  let off := Z.to_nat (d_msgbodyoffset (c_desc c)) in
  let l := body_of c in
  if is_mode mode CONVERT_NONE then
    let nl := nth (off + length l - 1) (c_message c) 0 =? 10 in
    rc ← writebuf l;
    if rc =? Z.of_nat (length l) then mret (inr (nl, O))
    else rc ← failed_write ($$"smtp; ") 3; mret (inl rc)
  else map_loop (S (length l)) mode l false.

Definition append_start : SC unit :=
  update (set_c_state true);;
  update (set_c_column (-1));;
  update (set_c_alarmcnt ALARM_BLOCKSIZE);;
  update (set_c_lastch 10);;
  update (set_c_gotalarm false).

(** The message must end with a line end. *)
Definition append_end (lastwasnl : bool) (bufferfull : nat) : SC Z :=
  lastch ← read c_lastch;
  rc ← (if negb lastwasnl || negb (lastch =? 10) then writebuf [10] else mret 1);
  if rc =? 1 then
    when_ (1 <? bufferfull)%nat (update (set_c_readalready O));; mret EX_OK
  else
    alarm ← read c_gotalarm;
    rc ← failed_write [] 5;
    when_ (negb alarm && (1 <? bufferfull)%nat) (update (set_c_readalready O));;
    mret rc.

Definition appendlet (mode : CONVERTMODE) : SC Z :=
  append_start;;
  r ← (if ta_use_mmap then append_map mode
       else seek_body;; if is_mode mode CONVERT_NONE then append_read else append_lines mode);
  match r with
  | inl rc => mret rc
  | inr (nl, bufferfull) => append_end nl bufferfull
  end.

(** ** check_7bit_cleanness() *)

Definition eight_bit (l : list Z) : bool := existsb (fun c => negb (Z.land 128 c =? 0)) l.

Fixpoint clean_loop (n : nat) (bufferfull : nat) : SC bool :=
  match n with
  | O => exit ScFuel
  | S n =>
      r ← file_read;
      match r with
      | GotBytes [] =>
          seek_body;; when_ (1 <? bufferfull)%nat (update (set_c_readalready O));; mret true
      | GotIntr => clean_loop n bufferfull
      | GotError => update (set_c_readalready O);; mret false
      | GotBytes l =>
          update (set_c_readalready (length l));;
          if eight_bit l then seek_body;; update (set_c_readalready O);; mret false
          else clean_loop n (S bufferfull)
      end
  end.

Definition check_7bit_cleanness : SC bool :=
  c ← read (fun c => c);
  if ta_use_mmap then mret (negb (eight_bit (body_of c)))
  else if (0 <? c_readalready c)%nat && eight_bit (take (c_readalready c) (c_let_buffer c)) then mret false
  else seek_body;; clean_loop fuel O.

(** ** swriteheaders() *)

(** The lines of a header, and a line with its tabs expanded *)
Fixpoint header_lines (cur s : list Z) : list (list Z) :=
  match s with
  | [] => match cur with [] => [] | _ => [cur] end
  | c :: s => if c =? 10 then cur :: header_lines [] s else header_lines (cur ++ [c]) s
  end.
Fixpoint expand_tabs (col : Z) (l : list Z) : list Z :=
  match l with
  | [] => []
  | c :: l =>
      if c =? 9 then replicate (Z.to_nat (8 - Z.land col 7)) $" " ++ expand_tabs (col + 8 - Z.land col 7) l
      else c :: expand_tabs (col + 1) l
  end.

(** The first header is replaced by the new top Received: header. *)
Definition with_top (top : option (list Z)) (hdrs : list (list Z)) : list (list Z) :=
  match top, hdrs with
  | Some t, _ :: hdrs => t :: hdrs
  | _, _ => hdrs
  end.

Definition newline : list Z := [13; 10].

(** In a chunk: all lines in memory. *)
Definition chunk_headers (tabs : bool) (hdrs : list (list Z)) : list Z :=
  concat ((fun l => (if tabs then l else expand_tabs 0 l) ++ newline) <$> concat (header_lines [] <$> hdrs)).

Fixpoint put_all (l : list Z) : SC bool :=
  match l with
  | [] => mret true
  | c :: l => ok ← sfputc c; if (ok : bool) then put_all l else mret false
  end.

(** To the stream; [None] for -1.  With expanded tabs only the line ends are
    counted. *)
Fixpoint put_header_lines (tabs : bool) (ls : list (list Z)) (hsize : Z) : SC (option Z) :=
  match ls with
  | [] => mret (Some hsize)
  | l :: ls =>
      ok ← (if hd 0 l =? $"." then sfputc $"." else mret true);
      if negb ok then mret None
      else
        ok ← (if tabs then match l with [] => mret true | _ => sfwrite l end else put_all (expand_tabs 0 l));
        if negb ok then mret None
        else
          ok ← sfwrite newline;
          bad ← read c_sferror;
          if negb ok || bad then mret None
          else put_header_lines tabs ls (hsize + (if tabs then Z.of_nat (length l) else 0) + 2)
  end.
Fixpoint put_headers (tabs : bool) (hdrs : list (list Z)) (hsize : Z) : SC (option Z) :=
  match hdrs with
  | [] => mret (Some hsize)
  | h :: hdrs =>
      bad ← read c_sferror;
      if (bad : bool) then mret (Some hsize)
      else
        r ← put_header_lines tabs (header_lines [] h) hsize;
        match r with Some hsize => put_headers tabs hdrs hsize | None => mret None end
  end.
End body.
