(* ===== verification/ScBodySpec.v ===== *)
(** * The SMTP client: what the body becomes on the stream

    The texts that writebuf(), writemimeline() and appendlet() send, as
    functions of the body.  A stream that has failed stays in error, so all
    that was sent is known when it is not. *)

From Stdlib Require Import ZArith Lia.
From stdpp Require Import base tactics numbers list option sets.
From S2P Require Import Prelude TaFile TaDiag TaCtl ScState ScReply ScBody.

#[local] Open Scope Z_scope.

(** ** Texts *)

(** CR LF line ends, and dots doubled at the start of a line unless
    [chunking]; [st] says that a line starts. *)
Fixpoint crlf_text (chunking st : bool) (l : list Z) : list Z :=
  match l with
  | [] => []
  | c :: l =>
      if c =? 10 then [13; 10] ++ crlf_text chunking true l
      else (if st && (c =? $".") && negb chunking then [c; c] else [c]) ++ crlf_text chunking false l
  end.

(** Whether a line starts behind [l]. *)
Definition line_start (st : bool) (l : list Z) : bool :=
  match list.last l with Some c => c =? 10 | None => st end.

Lemma line_start_cons st c l : line_start st (c :: l) = line_start (c =? 10) l.
Proof. unfold line_start. destruct l as [|d l]; [done|]. rewrite last_cons_cons.
  destruct (list.last (d :: l)) eqn:E; [done|]. by apply last_None in E.
Qed.

Lemma line_start_app st a b : line_start st (a ++ b) = line_start (line_start st a) b.
Proof. unfold line_start. rewrite last_app. by destruct (list.last b). Qed.

Lemma crlf_text_app chunking a b : forall st,
  crlf_text chunking st (a ++ b) = crlf_text chunking st a ++ crlf_text chunking (line_start st a) b.
Proof.
  induction a as [|c a IH]; intros st; [done|]. cbn [app crlf_text]. rewrite line_start_cons.
  destruct (c =? 10); rewrite IH; [done|]. by rewrite app_assoc.
Qed.

Lemma ends_line_start l : l <> [] -> ends_line l = line_start true l.
Proof.
  intros Hl. unfold ends_line, line_start. destruct (list.last l) as [c|] eqn:E.
  - destruct (c =? 10) eqn:Ec; [apply Z.eqb_eq in Ec as ->; by rewrite bool_decide_true|].
    rewrite bool_decide_false; [done|]. intros [= ->]. done.
  - by apply last_None in E.
Qed.

(** ** Frames *)

(** What sending to the stream leaves alone. *)
Definition keep (c : client) :=
  (c_chunkbuf c, c_doing_chunking c, c_message c, c_desc c, c_readalready c, c_let_buffer c, c_filepos c).

(** From [c] to [c'] the text [o] was sent, unless the stream is in error. *)
Record sends (o : list Z) (c c' : client) : Prop := {
  sn_keep : keep c' = keep c;
  sn_text : c_sferror c' = false ->
    c_sferror c = false /\ sent (c_trace c') = sent (c_trace c) ++ o /\ c_gotalarm c' = c_gotalarm c
}.

Lemma sends_nil c : sends [] c c.
Proof. split; [done|]. intros H. by rewrite app_nil_r. Qed.

Lemma sends_trans o1 o2 c1 c2 c3 : sends o1 c1 c2 -> sends o2 c2 c3 -> sends (o1 ++ o2) c1 c3.
Proof.
  intros [K1 T1] [K2 T2]. split; [by rewrite K2|]. intros H. destruct (T2 H) as (H2 & -> & ->).
  destruct (T1 H2) as (? & -> & ->). by rewrite app_assoc.
Qed.

(** The stream is in use, not the buffer for chunks. *)
Definition streaming (c : client) : Prop := c_chunkbuf c = None /\ c_doing_chunking c = false.

Lemma streaming_keep c c' : keep c' = keep c -> streaming c -> streaming c'.
Proof. unfold keep, streaming. by intros [= -> -> _ _ _ _ _]. Qed.

Section specs.
Context `{TaEnv, ScEnv}.
Implicit Types (c : client) (F : sc_stop -> client -> Prop).

Lemma sfputc_spec ch F c :
  wpx (sfputc ch) F (fun ok c' => sends [ch] c c' /\ c_state c' = c_state c /\ c_lastch c' = c_lastch c /\
    c_column c' = c_column c /\ (ok = true -> c_sferror c' = c_sferror c) /\
    (ok = false -> c_sferror c' = true /\ exists tr, sc_put tr <> PutOk)) c.
Proof.
  unfold sfputc, sfwrite, wpx, mbind, ex_bind, read, ev, update, mret, ex_ret.
  destruct (sc_put (c_trace c)) eqn:E; cbn; (split_and!; [split; [done|]; cbn; naive_solver | done..|]);
    [done | intros _; split; [done|]; exists (c_trace c); by rewrite E..].
Qed.

(** The stream or the message file does not work. *)
Definition put_fails : Prop := exists tr, sc_put tr <> PutOk.
Definition file_fails : Prop := exists tr, forall n, sc_file tr <> FileBytes n.

(** ssputc() to the stream *)
Lemma ssputc_spec fuel ch F c : c_chunkbuf c = None ->
  wpx (ssputc fuel ch) F (fun ok c' => sends [ch] c c' /\ c_state c' = c_state c /\ c_lastch c' = c_lastch c /\
    c_column c' = c_column c /\ (ok = true -> c_sferror c' = false) /\
    (ok = false -> c_sferror c' = true /\ (c_sferror c = false -> put_fails))) c.
Proof.
  intros Hc. unfold ssputc. apply wpx_bind, wpx_read. rewrite Hc. apply wpx_bind, wpx_read. apply wpx_if; intros Hb.
  - apply wpx_ret. split_and!; [split; [done|]; by rewrite Hb | done..|]. by rewrite Hb.
  - apply wpx_bind. eapply wpx_mono; [apply sfputc_spec | done|]. cbv beta. intros ok c' (Hs & ? & ? & ? & Hok & Hbad).
    apply wpx_bind, wpx_read, wpx_ret. split_and!; [done..| |].
    + intros [_ ?%negb_true_iff]%andb_prop. done.
    + intros Hf. destruct ok; cbn in Hf; [|by destruct (Hbad eq_refl)]. apply negb_false_iff in Hf. rewrite Hok, Hb in Hf by done. done.
Qed.

(** The locals of the caller are not touched. *)
Definition same_locals (c c' : client) : Prop :=
  c_state c' = c_state c /\ c_lastch c' = c_lastch c /\ c_column c' = c_column c.

Lemma write_error_spec k F c :
  wpx (write_error k) F (fun _ c' => keep c' = keep c /\ same_locals c c' /\ c_sferror c' = c_sferror c) c.
Proof. done. Qed.

Lemma put_or_spec {A} fuel ch k (next : SC (option A)) F Q c : c_chunkbuf c = None ->
  (forall c', sends [ch] c c' -> same_locals c c' -> c_sferror c' = false -> wpx next F Q c') ->
  (forall c', keep c' = keep c -> same_locals c c' -> c_sferror c' = true -> (c_sferror c = false -> put_fails) -> Q None c') ->
  wpx (put_or fuel ch k next) F Q c.
Proof.
  intros Hc Hok Hbad. unfold put_or. apply wpx_bind. eapply wpx_mono; [by apply ssputc_spec | done|].
  cbv beta. intros ok c' (Hs & H1 & H2 & H3 & Ht & Hf). apply wpx_if; intros ->.
  - apply Hok; [done | by split_and! | auto].
  - apply wpx_bind. eapply wpx_mono; [apply write_error_spec | done|]. cbv beta. intros _ c2 (K & (L1 & L2 & L3) & E).
    destruct (Hf eq_refl) as [Hf1 Hf2].
    apply wpx_ret, Hbad; [by rewrite K; apply Hs | by split_and!; congruence | by rewrite E | done].
Qed.

Lemma same_locals_trans c1 c2 c3 : same_locals c1 c2 -> same_locals c2 c3 -> same_locals c1 c3.
Proof. intros (?&?&?) (?&?&?). split_and!; congruence. Qed.

(** After a failure the stream is in error. *)
Definition failed_put (c c' : client) : Prop :=
  keep c' = keep c /\ same_locals c c' /\ c_sferror c' = true /\ (c_sferror c = false -> put_fails).

(** Text was sent, and the stream works. *)
Definition sent_well (o : list Z) (c c' : client) : Prop :=
  sends o c c' /\ same_locals c c' /\ c_gotalarm c' = false /\ (o <> [] \/ c_sferror c = false -> c_sferror c' = false).

Lemma failed_put_trans o c1 c2 c3 : sent_well o c1 c2 -> failed_put c2 c3 -> failed_put c1 c3.
Proof.
  intros ([K _] & L & _ & E) (K' & L' & E' & P). split_and!; [by rewrite K' | by eapply same_locals_trans | done | auto].
Qed.

Lemma sent_well_trans o1 o2 c1 c2 c3 : sent_well o1 c1 c2 -> sent_well o2 c2 c3 -> sent_well (o1 ++ o2) c1 c3.
Proof.
  intros (S1 & L1 & A1 & E1) (S2 & L2 & A2 & E2). split_and!; [by eapply sends_trans | by eapply same_locals_trans | done|].
  intros Ho. apply E2. destruct o2; [right; apply E1; by rewrite app_nil_r in Ho | by left].
Qed.

Lemma sent_well_streaming o c c' : sent_well o c c' -> streaming c -> streaming c'.
Proof. intros ([K _] & _). by apply streaming_keep. Qed.

(** The outcome of a loop that sends [o] and then fails or comes back. *)
Definition sending {A} (o : list Z) (P : A -> Prop) (c : client) (r : option A) (c' : client) : Prop :=
  match r with None => failed_put c c' | Some x => sent_well o c c' /\ P x end.

Lemma put_one {A} fuel ch k (next : SC (option A)) o P F c : streaming c -> c_gotalarm c = false ->
  (forall c', sent_well [ch] c c' -> wpx next F (sending o P c') c') ->
  wpx (put_or fuel ch k next) F (sending ([ch] ++ o) P c) c.
Proof.
  intros Hst Ha Hn. apply put_or_spec; [apply Hst| |by intros c' K L E Hp].
  intros c' S L E. assert (sent_well [ch] c c') as W.
  { split_and!; [done | done | | done]. destruct (sn_text _ _ _ S E) as (_ & _ & ->). done. }
  eapply wpx_mono; [by apply Hn | done|]. intros [x|] c2; cbn [sending].
  - intros [W2 HP]. split; [|done]. by eapply sent_well_trans.
  - by apply failed_put_trans with [ch].
Qed.

Lemma writebuf_loop_spec fuel l F : forall st a c, streaming c -> c_gotalarm c = false ->
  wpx (writebuf_loop fuel l st a) F (sending (crlf_text false st l) (fun x => x.1 = line_start st l) c) c.
Proof.
  induction l as [|ch l IH]; intros st a c Hst Ha; cbn [writebuf_loop]; apply wpx_bind, wpx_read.
  { apply wpx_ret. split; [|done]. split_and!; [apply sends_nil | done | done |]. by intros [|]. }
  rewrite Ha. apply wpx_bind. unfold more_hsize. apply wpx_update. set (c0 := set_c_hsize _ c).
  assert (streaming c0 /\ c_gotalarm c0 = false) as [Hst0 Ha0] by done.
  assert (sent_well [] c c0) as W0.
  { split_and!; [split; [done|]; intros ?; by rewrite app_nil_r | done | done |]. by intros [|]. }
  clearbody c0. apply wpx_bind, wpx_read. rewrite (proj2 Hst0). cbn [negb crlf_text]. rewrite !andb_true_r.
  rewrite line_start_cons.
  assert (forall m o P, wpx m F (sending o P c0) c0 -> wpx m F (sending (A := bool * Z) o P c) c0) as Hfrom.
  { intros m o P Hm. eapply wpx_mono; [exact Hm | done|]. intros [x|] c'; cbn [sending].
    - intros [W HP]. split; [|done]. change o with ([] ++ o). by eapply sent_well_trans.
    - by apply failed_put_trans with []. }
  assert (forall k c1, streaming c1 -> c_gotalarm c1 = false ->
    wpx (put_or fuel ch k (writebuf_loop fuel l (ch =? 10) (count_down a))) F
      (sending ([ch] ++ crlf_text false (ch =? 10) l) (fun x => x.1 = line_start (ch =? 10) l) c1) c1) as Hch.
  { intros k c1 Hst1 Ha1. apply put_one; [done | done|]. intros c' W. apply IH; [by eapply sent_well_streaming|]. apply W. }
  apply Hfrom. destruct (ch =? 10) eqn:E10; cbn [negb andb].
  - rewrite andb_false_r. apply Z.eqb_eq in E10 as ->. change ([13; 10] ++ ?x) with ([13] ++ ([10] ++ x)).
    apply put_one; [done | done|]. intros c' W. apply Hch; [by eapply sent_well_streaming | apply W].
  - rewrite andb_true_r. destruct st; cbn [andb]; [|apply Hch; done].
    destruct (ch =? $".") eqn:Ed; [|apply Hch; done]. change ([ch; ch] ++ ?x) with ([ch] ++ ([ch] ++ x)).
    apply put_one; [done | done|]. intros c' W. apply Hch; [by eapply sent_well_streaming | apply W].
Qed.

(** writebuf() to the stream *)
Lemma writebuf_spec fuel l F c : streaming c -> c_gotalarm c = false ->
  wpx (writebuf fuel l) F (fun rc c' =>
    keep c' = keep c /\ c_lastch c' = c_lastch c /\
    (rc = Z.of_nat (length l) /\ sends (crlf_text false (c_state c) l) c c' /\ c_gotalarm c' = false /\
     c_state c' = line_start (c_state c) l /\ (l <> [] \/ c_sferror c = false -> c_sferror c' = false) \/
     rc = SC_EOF /\ (c_sferror c = false -> put_fails))) c.
Proof.
  intros Hst Ha. unfold writebuf. apply wpx_bind, wpx_read, wpx_bind, wpx_read, wpx_bind.
  eapply wpx_mono; [by apply writebuf_loop_spec | done|]. intros [[st a]|] c'; cbn [sending fst].
  - intros [(S & (_ & L & _) & A & E) ->]. apply wpx_bind, wpx_update, wpx_bind, wpx_update, wpx_ret.
    split_and!; [apply S | done|]. left. split_and!; [done | split; [apply S | apply S] | done | done|]. cbn.
    intros Hl. apply E. destruct Hl as [Hl|]; [left | by right]. destruct l as [|ch l]; [done|]. cbn.
    destruct (ch =? 10); [done|]. by destruct (_ && _ && _).
  - intros (K & (_ & L & _) & _ & P). apply wpx_ret. split_and!; [done | done | by right].
Qed.

(** ** Reading and sending *)

(** As [sends], for steps that also read the message file. *)
Record moves (o : list Z) (c c' : client) : Prop := {
  mo_stream : streaming c';
  mo_message : c_message c' = c_message c;
  mo_desc : c_desc c' = c_desc c;
  mo_text : c_sferror c' = false ->
    c_sferror c = false /\ sent (c_trace c') = sent (c_trace c) ++ o
}.

Lemma moves_trans o1 o2 c1 c2 c3 : moves o1 c1 c2 -> moves o2 c2 c3 -> moves (o1 ++ o2) c1 c3.
Proof.
  intros [S1 M1 D1 T1] [S2 M2 D2 T2]. split; [done | by rewrite M2 | by rewrite D2|]. intros E.
  destruct (T2 E) as [E2 ->]. destruct (T1 E2) as [? ->]. by rewrite app_assoc.
Qed.

Lemma sends_moves o c c' : streaming c -> sends o c c' -> moves o c c'.
Proof.
  intros Hst [K T]. split; [by eapply streaming_keep | | |].
  - unfold keep in K. by injection K.
  - unfold keep in K. by injection K.
  - intros E. destruct (T E) as (? & ? & _). done.
Qed.

Lemma file_read_spec F c : streaming c ->
  wpx file_read F (fun r c' => moves [] c c' /\ c_gotalarm c' = c_gotalarm c /\ c_state c' = c_state c /\ c_lastch c' = c_lastch c /\
    c_sferror c' = c_sferror c /\
    match r with
    | GotBytes l => drop (c_filepos c) (c_message c) = l ++ drop (c_filepos c') (c_message c) /\
        (l = [] -> drop (c_filepos c) (c_message c) = [])
    | _ => c_filepos c' = c_filepos c /\ file_fails
    end) c.
Proof.
  intros Hst. unfold file_read, wpx, mbind, ex_bind, read, ev, update, mret, ex_ret. cbn.
  destruct (sc_file (c_trace c)) as [n| |] eqn:Ef; cbn;
    (split; [split; [exact Hst | done | done|]; intros ?; by rewrite app_nil_r|]); do 4 (split; [done|]);
    [|split; [done|]; exists (c_trace c); intros n; by rewrite Ef..].
  set (k := Nat.max 1 (Nat.min n LET_BUFFER_SIZE)). split.
  - rewrite <- (take_drop k (drop (c_filepos c) (c_message c))) at 1. f_equal. rewrite drop_drop, length_take, length_drop.
    destruct (decide (k <= length (c_message c) - c_filepos c)%nat); [by rewrite Nat.min_l|].
    rewrite Nat.min_r by lia. rewrite !drop_ge by lia. done.
  - intros E. apply (f_equal length) in E. rewrite length_take, length_drop in E. apply nil_length_inv. rewrite length_drop.
    cbn in E. lia.
Qed.

(** The body is out, up to the last line end. *)
Definition body_out (rest : list Z) (nl : bool) (c c' : client) (r : sent_body) : Prop :=
  match r with
  | inl rc => rc = EX_IOERR /\ (c_sferror c = false -> put_fails \/ file_fails)
  | inr (nl', _) => moves (crlf_text false (c_state c) rest) c c' /\ c_gotalarm c' = false /\
      c_state c' = line_start (c_state c) rest /\ nl' = line_start nl rest /\ c_lastch c' = c_lastch c /\
      (c_sferror c = false -> c_sferror c' = false)
  end.

Lemma failed_write_spec prefix k F c : F ScSegv c ->
  wpx (failed_write prefix k) F (fun rc _ => rc = EX_IOERR) c.
Proof.
  intros HF. unfold failed_write. apply wpx_bind, wpx_read, wpx_bind, wpx_read, wpx_bind.
  unfold progress. apply wpx_bind, wpx_read, wpx_bind, wpx_read. apply wpx_if; intros _; [by apply wpx_exit|].
  apply wpx_ret, wpx_bind. apply wpx_if; intros _; by apply wpx_update, wpx_ret.
Qed.

Lemma read_loop_spec fuel n : forall nl bf c, streaming c -> c_gotalarm c = false ->
  wpx (read_loop fuel n nl bf)
    (fun _ _ => c_sferror c = false -> put_fails \/ file_fails \/ (n <= length (drop (c_filepos c) (c_message c)))%nat)
    (fun r c' => body_out (drop (c_filepos c) (c_message c)) nl c c' r) c.
Proof.
  induction n as [|n IH]; intros nl bf c Hst Ha; cbn [read_loop]; [apply wpx_exit; right; right; lia|].
  apply wpx_bind. eapply wpx_mono; [by apply (file_read_spec (fun _ _ => False)) | done|]. cbv beta.
  intros r c1 (M1 & A1 & S1 & L1 & E1 & Hr). destruct r as [l| |].
  - destruct Hr as [Hl Hnil]. destruct l as [|x l].
    + apply wpx_ret. rewrite Hnil by done. cbn [body_out crlf_text line_start list.last]. unfold line_start. cbn.
      split_and!; [done | congruence.. | by rewrite E1].
    + clear Hnil. set (y := x :: l) in *. assert (y <> []) as Hy by done. clearbody y.
      apply wpx_bind, wpx_update, wpx_bind. set (c2 := set_c_readalready _ c1).
      assert (moves [] c c2) as M2 by (destruct M1; split; done).
      eapply wpx_mono; [apply (writebuf_spec fuel _ (fun _ _ => False)); [apply M2 | by rewrite <- Ha]| done|]. cbv beta.
      change (c_sferror c2) with (c_sferror c1). rewrite E1.
      intros rc c3 (K3 & L3 & H3). apply wpx_if; intros Erc.
      * destruct H3 as [(_ & T3 & A3 & S3 & E3) | [-> _]]; [|apply Z.eqb_eq in Erc; unfold SC_EOF in Erc; lia].
        assert (moves (crlf_text false (c_state c) y) c c3) as M3.
        { change (crlf_text _ _ y) with ([] ++ crlf_text false (c_state c) y). eapply moves_trans; [exact M2|].
          apply sends_moves; [apply M2|]. cbn in T3. by rewrite S1 in T3. }
        unfold keep in K3. injection K3 as _ _ Em Ed _ _ Ef. cbn in Em, Ed, Ef. cbn in S3. rewrite S1 in S3.
        eapply wpx_mono; [apply IH; [apply M3 | done] | |].
        -- intros e c4 Hq Hc. destruct Hq as [|[|Hn]]; [by apply E3; left | by left | by right; left |]. right; right.
           rewrite (mo_message _ _ _ M3), Ef in Hn. cbn in Hn. rewrite Hl, length_app. destruct y; [done|]. cbn. lia.
        -- intros [?|[nl' bf']] c4; cbn [body_out]; [intros [-> Hq]; split; [done|]; intros _; apply Hq, E3; by left|].
           rewrite (mo_message _ _ _ M3), Ef, Hl. cbn. rewrite S3. intros (M4 & A4 & S4 & -> & L4 & E4). split_and!.
           ++ rewrite crlf_text_app. by eapply moves_trans.
           ++ done.
           ++ by rewrite line_start_app.
           ++ rewrite line_start_app. f_equal. rewrite ends_line_start by done. unfold line_start.
              destruct (list.last y) eqn:Ey; [done|]. exfalso. by apply Hy, last_None.
           ++ cbn in L3. congruence.
           ++ intros _. apply E4, E3. by left.
      * destruct H3 as [(-> & _) | [-> Hp]]; [by rewrite Z.eqb_refl in Erc|].
        apply wpx_bind. eapply wpx_mono; [by apply (failed_write_spec _ _ (fun _ _ => True)) | auto|].
        cbv beta. intros rc' c4 ->. apply wpx_ret. split; [done|]. auto.
  - destruct Hr as [Hr Hff]. eapply wpx_mono; [apply IH; [apply M1 | congruence] | intros ? ? _ _; auto |].
    intros [?|[nl' bf']] c4; cbn [body_out]; [intros [-> _]; auto|].
    rewrite Hr, (mo_message _ _ _ M1), S1. intros (M4 & A4 & S4 & -> & L4 & E4). split_and!; [|done..|congruence|by rewrite <- E1].
    change (crlf_text ?a ?b ?x) with ([] ++ crlf_text a b x). by eapply moves_trans.
  - apply wpx_bind. unfold set_remotemsg. apply wpx_update, wpx_ret. split; [done|]. intros _. right. apply Hr.
Qed.

(** The body as a text of whole lines *)
Definition completed (b : list Z) : list Z := if line_start true b then b else b ++ [10].

Lemma crlf_completed b : crlf_text false true (completed b) =
  crlf_text false true b ++ if line_start true b then [] else [13; 10].
Proof.
  unfold completed. destruct (line_start true b) eqn:E; [by rewrite app_nil_r|]. by rewrite crlf_text_app.
Qed.

(** What appendlet() has sent when it says so; otherwise something failed. *)
Definition let_out (o : list Z) (c : client) (rc : Z) (c' : client) : Prop :=
  (rc = EX_OK /\ moves o c c' /\ c_sferror c' = false) \/ (rc = EX_IOERR /\ (put_fails \/ file_fails)).

Lemma append_end_spec fuel nl bf c o c0 : moves o c0 c -> c_sferror c = false -> c_gotalarm c = false -> c_lastch c = 10 ->
  wpx (append_end fuel nl bf) (fun _ _ => put_fails)
    (let_out (o ++ if nl then [] else crlf_text false (c_state c) [10]) c0) c.
Proof.
  intros M E A L. unfold append_end. apply wpx_bind, wpx_read, wpx_bind. rewrite L. cbn [Z.eqb Pos.eqb negb]. rewrite orb_false_r.
  assert (forall bf o' c1, moves o' c0 c1 -> c_sferror c1 = false ->
    wpx (when_ (1 <? bf)%nat (update (set_c_readalready O));; mret EX_OK) (fun _ _ => put_fails) (let_out o' c0) c1) as Hok.
  { intros bf' o' c1 M1 E1. apply wpx_bind. apply wpx_if; intros _; [apply wpx_update | apply wpx_ret]; apply wpx_ret; left;
      (split_and!; [done | | done]); [by destruct M1 | done]. }
  destruct nl; cbn [negb].
  - apply wpx_ret. cbn [Z.eqb Pos.eqb]. rewrite app_nil_r. by apply Hok.
  - eapply wpx_mono; [apply (writebuf_spec fuel _ (fun _ _ => False)); [apply M | done] | done|]. cbv beta.
    intros rc c1 (K1 & _ & [(-> & S1 & A1 & _ & E1) | [-> Hp]]).
    + change (Z.of_nat (length [10]) =? 1) with true. cbn iota. apply Hok.
      * eapply moves_trans; [exact M|]. apply sends_moves; [apply M | done].
      * apply E1. by left.
    + specialize (Hp E). change (SC_EOF =? 1) with false. cbn iota. apply wpx_bind, wpx_read, wpx_bind.
      eapply wpx_mono; [by apply (failed_write_spec _ _ (fun _ _ => True)) | auto|]. cbv beta. intros rc c2 ->.
      apply wpx_bind. apply wpx_if; intros _; [apply wpx_update | apply wpx_ret]; apply wpx_ret; right; auto.
Qed.

(** What is in front of the body ends with a line end; the mapped file is
    looked at there. *)
Definition header_ends (c : client) : Prop :=
  body_of c = [] -> nth (Z.to_nat (d_msgbodyoffset (c_desc c)) + 0 - 1) (c_message c) 0 = 10.

(** Reading needs a round for each buffer, and one for the end. *)
Definition rounds_missing (fuel : nat) (c : client) : Prop := (fuel <= length (body_of c))%nat.

Lemma append_body_spec fuel c : streaming c -> c_sferror c = false -> c_readalready c = O ->
  c_gotalarm c = false -> c_state c = true ->
  (ta_use_mmap = true -> header_ends c) ->
  wpx (if ta_use_mmap then append_map fuel CONVERT_NONE else seek_body;; append_read fuel)
    (fun _ _ => put_fails \/ file_fails \/ rounds_missing fuel c)
    (fun r c' => body_out (body_of c) true c c' r) c.
Proof.
  intros Hst He Hr Ha Hs Hh. destruct ta_use_mmap.
  - specialize (Hh eq_refl). unfold append_map. apply wpx_bind, wpx_read. cbn [is_mode]. apply wpx_bind.
    eapply wpx_mono; [by apply (writebuf_spec fuel _ (fun _ _ => False)) | done|]. cbv beta.
    intros rc c1 (K1 & L1 & H1). apply wpx_if; intros Erc.
    + destruct H1 as [(_ & S1 & A1 & St1 & E1) | [-> _]]; [|apply Z.eqb_eq in Erc; unfold SC_EOF in Erc; lia].
      apply wpx_ret. cbn [body_out]. split_and!; [by apply sends_moves | done | done | | done |].
      * unfold line_start. destruct (list.last (body_of c)) as [x|] eqn:E.
        -- apply last_Some in E as [l' E]. unfold header_ends in Hh. rewrite E. rewrite length_app. cbn [length].
           unfold body_of in E. replace (_ + (length l' + 1) - 1)%nat with (Z.to_nat (d_msgbodyoffset (c_desc c)) + length l')%nat by lia.
           rewrite nth_lookup, <- lookup_drop, E, lookup_app_r, Nat.sub_diag by done. done.
        -- apply last_None in E. rewrite E. cbn [length]. apply Z.eqb_eq. by apply Hh.
      * intros _. apply E1. by right.
    + destruct H1 as [(-> & _) | [-> Hp]]; [by rewrite Z.eqb_refl in Erc|].
      apply wpx_bind. eapply wpx_mono; [by apply (failed_write_spec _ _ (fun _ _ => True)) | auto|]. cbv beta. intros rc' c4 ->.
      apply wpx_ret. split; auto.
  - apply wpx_bind. unfold seek_body. apply wpx_bind, wpx_read, wpx_update. set (c1 := set_c_filepos _ c).
    unfold append_read. apply wpx_bind, wpx_read. change (c_readalready c1) with (c_readalready c). rewrite Hr. cbn [Nat.ltb Nat.leb].
    apply wpx_bind. eapply wpx_mono; [by apply read_loop_spec | intros e c2 Hq; by apply Hq |].
    cbv beta. intros [rc|[nl bf]] c2; [by intros; apply wpx_ret|].
    change (drop (c_filepos c1) (c_message c1)) with (body_of c). cbn [body_out]. intros (M2 & A2 & S2 & N2 & L2 & E2).
    assert (moves (crlf_text false (c_state c) (body_of c)) c c2) as M by (destruct M2; by split).
    apply wpx_bind. apply wpx_if; intros _; [apply wpx_update | apply wpx_ret]; apply wpx_ret; cbn [body_out]; [|done].
    split_and!; [|done..]. by destruct M.
Qed.

(** appendlet() without conversion *)
Lemma appendlet_none_spec fuel c : streaming c -> c_sferror c = false -> c_readalready c = O ->
  (ta_use_mmap = true -> header_ends c) ->
  wpx (appendlet fuel CONVERT_NONE) (fun _ _ => put_fails \/ file_fails \/ rounds_missing fuel c)
    (let_out (crlf_text false true (completed (body_of c))) c) c.
Proof.
  intros Hst He Hr Hh. unfold appendlet, append_start. apply wpx_bind.
  do 4 (apply wpx_bind, wpx_update). apply wpx_update. set (c0 := set_c_gotalarm _ _). apply wpx_bind. cbn [is_mode].
  eapply wpx_mono; [by apply (append_body_spec fuel c0) | done|]. cbv beta. intros [rc|[nl bf]] c1; cbn [body_out].
  - intros [-> Hq]. apply wpx_ret. right. auto.
  - change (body_of c0) with (body_of c). change (c_state c0) with true. intros (M & A & S & -> & L & E).
    rewrite crlf_completed. eapply wpx_mono; [apply (append_end_spec fuel _ _ c1 (crlf_text false true (body_of c)) c) | auto|].
    + by destruct M.
    + by apply E.
    + done.
    + done.
    + rewrite S. by destruct (line_start true (body_of c)).
Qed.
End specs.
