(* ===== verification/ScMime.v ===== *)
(** * The SMTP client: conversions of the body

    The text that writemimeline() sends for a line, and appendlet() for a body
    that is converted line by line. *)

From Stdlib Require Import ZArith Lia.
From stdpp Require Import base tactics numbers list option sets.
From S2P Require Import Prelude TaFile TaDiag TaCtl ScState ScReply ScBody ScBodySpec.

#[local] Open Scope Z_scope.

(** ** Texts *)

Definition quoted (ch : Z) : list Z := [$"="; i2h (Z.land (Z.shiftr ch 4) 15); i2h (Z.land ch 15)].

(** A character as it is, at [column] of the line: the text, and the column
    behind it. *)
Definition plain_text (column ch : Z) : list Z :=
  (if (column =? 0) && (ch =? $".") then [ch] else []) ++ if ch =? 10 then [13; ch] else [ch].
Definition plain_column (column ch : Z) : Z := if ch =? 10 then -1 else column.

(** What is left of a line: the text, the column behind it and the last
    character.  The arguments are those of the loop, and the last character
    so far. *)
Fixpoint mime_text (mode : CONVERTMODE) (l : list Z) (column qp_chrs qp_val lastch : Z) : list Z * Z * Z :=
  match l with
  | [] => ([], column, lastch)
  | ch :: rest =>
      let column := column + 1 in
      let plain column ch qp_chrs qp_val :=
        let '(o, col, lc) := mime_text mode rest (plain_column column ch) qp_chrs qp_val ch in
        (plain_text column ch ++ o, col, lc) in
      if is_mode mode CONVERT_8BIT then
        if (ch =? $"=") && (qp_chrs =? 0) then mime_text mode rest column 2 0 lastch
        else if negb (qp_chrs =? 0) then
          if is_wrap ch then ([], column, lastch)
          else
            let qp_val := if is_hex ch then Z.lor (Z.shiftl qp_val 4) (qp_digit ch) else qp_val in
            if qp_chrs - 1 =? 0 then plain (column - 1) qp_val (qp_chrs - 1) qp_val
            else mime_text mode rest (column - 1) (qp_chrs - 1) qp_val lastch
        else plain column ch qp_chrs qp_val
      else if is_mode mode CONVERT_QP || is_mode mode CONVERT_UNKNOWN then
        let wrap := (70 <? column) && negb (ch =? 10) in
        let column := if wrap then 0 else column in
        let '(o, col, lc) :=
          if (length l <? 3)%nat && ((ch =? $" ") || (ch =? 9)) || needs_quoting column ch then
            let '(o, col, lc) := mime_text mode rest (column + 2) qp_chrs qp_val (i2h (Z.land ch 15)) in
            (quoted ch ++ o, col, lc)
          else plain column ch qp_chrs qp_val in
        ((if wrap then [$"="; 13; 10] else []) ++ o, col, lc)
      else plain column ch qp_chrs qp_val
  end.

(** Lines one after the other; a line starts without a last character. *)
Fixpoint mime_lines (mode : CONVERTMODE) (ls : list (list Z)) (column lastch : Z) : list Z * Z * Z :=
  match ls with
  | [] => ([], column, lastch)
  | l :: ls =>
      let '(o1, column, lastch) := mime_text mode l column 0 0 (-1) in
      let '(o2, column, lastch) := mime_lines mode ls column lastch in
      (o1 ++ o2, column, lastch)
  end.

(** The lines of a text with their line ends *)
Fixpoint split_lines (l : list Z) : list (list Z) :=
  match l with
  | [] => []
  | c :: l =>
      if c =? 10 then [c] :: split_lines l
      else match split_lines l with [] => [[c]] | x :: xs => (c :: x) :: xs end
  end.

(** The whole body: a line end is added when the last line has none. *)
Definition mime_body (mode : CONVERTMODE) (b : list Z) : list Z :=
  let '(o, _, lastch) := mime_lines mode (split_lines b) (-1) 10 in
  o ++ if line_start false b && (lastch =? 10) then [] else [13; 10].

(** ** Steps on the stream *)

Section specs.
Context `{TaEnv, ScEnv}.
Implicit Types (c : client).

(** An error on the stream has a cause. *)
Definition cause (c c' : client) : Prop := c_sferror c = false -> c_sferror c' = true -> put_fails.

Definition steps (o : list Z) (c c' : client) : Prop := sends o c c' /\ c_state c' = c_state c /\ cause c c'.

Lemma steps_nil c : steps [] c c.
Proof. split_and!; [apply sends_nil | done|]. intros E1 E2. congruence. Qed.

Lemma steps_trans o1 o2 c1 c2 c3 : steps o1 c1 c2 -> steps o2 c2 c3 -> steps (o1 ++ o2) c1 c3.
Proof.
  intros (S1 & T1 & C1) (S2 & T2 & C2). split_and!; [by eapply sends_trans | by rewrite T2|].
  intros E1 E3. destruct (c_sferror c2) eqn:E2; [by apply C1 | by apply C2].
Qed.

Lemma steps_streaming o c c' : steps o c c' -> streaming c -> streaming c'.
Proof. intros [S _]. apply streaming_keep, S. Qed.

(** A change of a field that has nothing to do with the stream. *)
Definition silent (f : client -> client) : Prop :=
  forall c, keep (f c) = keep c /\ c_state (f c) = c_state c /\ c_sferror (f c) = c_sferror c /\
    c_trace (f c) = c_trace c /\ c_gotalarm (f c) = c_gotalarm c.

Lemma silent_steps f c : silent f -> steps [] c (f c).
Proof.
  intros Hf. destruct (Hf c) as (K & S & E & T & A). split_and!; [|done|].
  - split; [done|]. rewrite T, E, A, app_nil_r. done.
  - unfold cause. rewrite E. congruence.
Qed.

Lemma silent_lastch x : silent (set_c_lastch x).
Proof. done. Qed.

Lemma ssputc_steps fuel ch F c : c_chunkbuf c = None ->
  wpx (ssputc fuel ch) F (fun ok c' => steps [ch] c c' /\ c_lastch c' = c_lastch c /\ (ok = false -> c_sferror c' = true)) c.
Proof.
  intros Hc. eapply wpx_mono; [by apply ssputc_spec | done|]. cbv beta. intros ok c' (S & T & L & _ & Ht & Hf).
  split_and!; [split_and!; [done | done|] | done | intros E; by apply Hf].
  intros E1 E2. destruct ok; [by rewrite Ht in E2|]. by apply Hf.
Qed.

(** The outcome of a loop: the text sent and the column behind it. *)
Definition mime_out (x : list Z * Z * Z) (c : client) (r : option (Z * Z)) (c' : client) : Prop :=
  match r with
  | None => keep c' = keep c /\ c_sferror c' = true /\ cause c c'
  | Some y => steps x.1.1 c c' /\ y.1 = x.1.2 /\ c_lastch c' = x.2
  end.

Lemma mime_out_after o1 x c1 c2 r c3 : steps o1 c1 c2 -> mime_out x c2 r c3 ->
  mime_out (o1 ++ x.1.1, x.1.2, x.2) c1 r c3.
Proof.
  intros S1. destruct r as [y|]; cbn.
  - intros (S2 & ? & ?). split_and!; [by eapply steps_trans | done | done].
  - destruct S1 as (S1 & _ & C1). intros (K & E & C). split_and!; [by rewrite K, (sn_keep _ _ _ S1) | done|].
    intros E1 E3. destruct (c_sferror c2) eqn:E2; [by apply C1 | by apply C].
Qed.

Lemma put_or_mime fuel ch k next x F c : streaming c ->
  (forall c', steps [ch] c c' -> c_lastch c' = c_lastch c -> wpx next F (mime_out x c') c') ->
  wpx (put_or fuel ch k next) F (mime_out ([ch] ++ x.1.1, x.1.2, x.2) c) c.
Proof.
  intros Hst Hn. unfold put_or. apply wpx_bind. eapply wpx_mono; [apply ssputc_steps; apply Hst | done|].
  cbv beta. intros ok c1 (S1 & L1 & Hf). apply wpx_if; intros ->.
  - eapply wpx_mono; [by apply Hn | done|]. intros r c2. by apply mime_out_after.
  - apply wpx_bind. eapply wpx_mono; [apply write_error_spec | done|]. cbv beta. intros _ c2 (K & _ & E).
    apply wpx_ret. cbn. split_and!; [by rewrite K; apply S1 | by rewrite E, Hf|].
    intros E1 _. apply S1; [done | by apply Hf].
Qed.

Lemma put_plain_mime fuel column ch next (x : Z -> list Z * Z * Z) F c : streaming c ->
  (forall col c', streaming c' -> c_lastch c' = ch -> wpx (next col) F (mime_out (x col) c') c') ->
  let y := x (plain_column column ch) in
  wpx (put_plain fuel column ch next) F (mime_out (plain_text column ch ++ y.1.1, y.1.2, y.2) c) c.
Proof.
  intros Hst Hn y. unfold put_plain. apply wpx_bind, wpx_read. rewrite (proj2 Hst). cbn [negb]. rewrite andb_true_r.
  assert (forall col k c1, streaming c1 ->
    wpx (put_or fuel ch k (update (set_c_lastch ch);; next col)) F (mime_out ([ch] ++ (x col).1.1, (x col).1.2, (x col).2) c1) c1) as Hfin.
  { intros col k c1 Hst1. apply put_or_mime; [done|]. intros c2 S2 _. apply wpx_bind, wpx_update.
    eapply wpx_mono; [apply Hn; [exact (steps_streaming _ _ _ S2 Hst1) | done] | done|]. intros r c3 Hm.
    destruct (x col) as [[xo xc] xl]. change (mime_out ([] ++ (xo, xc, xl).1.1, (xo, xc, xl).1.2, (xo, xc, xl).2) c2 r c3).
    eapply mime_out_after; [|exact Hm]. apply silent_steps, silent_lastch. }
  assert (forall c1, streaming c1 ->
    wpx (if ch =? 10 then put_or fuel 13 ($$"6") (put_or fuel ch ($$"7") (update (set_c_lastch ch);; next (-1)))
         else put_or fuel ch ($$"7") (update (set_c_lastch ch);; next column)) F
      (mime_out ((if ch =? 10 then [13; ch] else [ch]) ++ y.1.1, y.1.2, y.2) c1) c1) as Hend.
  { intros c1 Hst1. subst y. unfold plain_column. destruct (ch =? 10); [|by apply Hfin].
    change ([13; ch] ++ ?t) with ([13] ++ ([ch] ++ t)).
    apply (put_or_mime _ _ _ _ ([ch] ++ (x (-1)).1.1, (x (-1)).1.2, (x (-1)).2)); [done|].
    intros c2 S2 _. apply Hfin. by eapply steps_streaming. }
  unfold plain_text. destruct (_ && _); [|by apply Hend]. rewrite <- app_assoc.
  apply (put_or_mime _ _ _ _ ((if ch =? 10 then [13; ch] else [ch]) ++ y.1.1, y.1.2, y.2)); [done|].
  intros c2 S2 _. apply Hend. by eapply steps_streaming.
Qed.

(** Three characters whose failure is not looked at, and the last one noted. *)
Lemma put_three fuel x y z last F c : streaming c ->
  wpx (ssputc fuel x;; ssputc fuel y;; ssputc fuel z;; update (set_c_lastch last)) F
    (fun _ c' => steps [x; y; z] c c' /\ c_lastch c' = last) c.
Proof.
  intros Hst. apply wpx_bind. eapply wpx_mono; [apply ssputc_steps; apply Hst | done|]. cbv beta. intros _ c1 (S1 & _).
  pose proof (steps_streaming _ _ _ S1 Hst) as Hst1.
  apply wpx_bind. eapply wpx_mono; [apply ssputc_steps; apply Hst1 | done|]. cbv beta. intros _ c2 (S2 & _).
  pose proof (steps_streaming _ _ _ S2 Hst1) as Hst2.
  apply wpx_bind. eapply wpx_mono; [apply ssputc_steps; apply Hst2 | done|]. cbv beta. intros _ c3 (S3 & _).
  apply wpx_update. split; [|done]. pose proof (steps_trans _ _ _ _ _ (steps_trans _ _ _ _ _ S1 S2) S3) as S.
  by pose proof (steps_trans _ _ _ _ _ S (silent_steps _ c3 (silent_lastch last))).
Qed.

Lemma mimeline_loop_spec fuel mode F l : forall column a qc qv c, streaming c ->
  wpx (mimeline_loop fuel mode l column a qc qv) F (mime_out (mime_text mode l column qc qv (c_lastch c)) c) c.
Proof.
  induction l as [|ch l IH]; intros column a qc qv c Hst; cbn [mimeline_loop mime_text].
  { apply wpx_ret. split_and!; [apply steps_nil | done | done]. }
  apply wpx_bind. unfold more_hsize. apply wpx_update. set (c0 := set_c_hsize _ c).
  assert (streaming c0) as Hst0 by done. assert (steps [] c c0) as S0 by (by apply (silent_steps (fun c => set_c_hsize (c_hsize c + 1) c))).
  change (c_lastch c) with (c_lastch c0). clearbody c0.
  assert (forall m x, wpx m F (mime_out x c0) c0 -> wpx m F (mime_out x c) c0) as Hfrom.
  { intros m x Hm. eapply wpx_mono; [exact Hm | done|]. intros r c'. destruct x as [[o col] lc].
    apply (mime_out_after [] (o, col, lc)). done. }
  assert (forall col ch' qc' qv' c1, streaming c1 ->
    wpx (put_plain fuel col ch' (fun col => mimeline_loop fuel mode l col (count_down a) qc' qv')) F
      (mime_out (let '(o, col', lc) := mime_text mode l (plain_column col ch') qc' qv' ch' in
                 (plain_text col ch' ++ o, col', lc)) c1) c1) as Hplain.
  { intros col ch' qc' qv' c1 Hst1.
    pose proof (put_plain_mime fuel col ch' (fun col => mimeline_loop fuel mode l col (count_down a) qc' qv')
      (fun col => mime_text mode l col qc' qv' ch') F c1 Hst1) as Hp. cbv zeta beta in Hp.
    destruct (mime_text mode l (plain_column col ch') qc' qv' ch') as [[o col'] lc]. apply Hp.
    intros col2 c2 Hst2 L2. cbv beta. rewrite <- L2. by apply IH. }
  apply Hfrom. destruct (is_mode mode CONVERT_8BIT).
  - destruct (_ && _); [by apply IH|]. destruct (negb (qc =? 0)).
    + destruct (is_wrap ch); [by apply wpx_ret; split_and!; [apply steps_nil|..]|].
      destruct (qc - 1 =? 0); [|by apply IH]. apply wpx_bind, wpx_update. set (c1 := set_c_lastch _ c0).
      eapply wpx_mono; [by apply (Hplain _ _ _ _ c1) | done|]. intros r c2.
      destruct (mime_text _ _ _ _ _ _) as [[o col'] lc]. apply (mime_out_after [] (_, _, _)). by apply silent_steps.
    + apply wpx_bind, wpx_update. set (c1 := set_c_lastch _ c0).
      eapply wpx_mono; [by apply (Hplain _ _ _ _ c1) | done|]. intros r c2.
      destruct (mime_text _ _ _ _ _ _) as [[o col'] lc]. apply (mime_out_after [] (_, _, _)). by apply silent_steps.
  - destruct (_ || _); [|by apply Hplain].
    set (wrap := (70 <? column + 1) && negb (ch =? 10)). set (col := if wrap then 0 else column + 1). clearbody col wrap.
    set (x := if _ || needs_quoting col ch then _ else _).
    assert (forall c1, streaming c1 -> wpx
      (if (length (ch :: l) <? 3)%nat && ((ch =? $" ") || (ch =? 9)) then
         put_quoted fuel ch;; mimeline_loop fuel mode l (col + 2) (count_down a) qc qv
       else if needs_quoting col ch then put_quoted fuel ch;; mimeline_loop fuel mode l (col + 2) (count_down a) qc qv
       else put_plain fuel col ch (fun col => mimeline_loop fuel mode l col (count_down a) qc qv)) F (mime_out x c1) c1) as Hx.
    { intros c1 Hst1. assert (wpx (put_quoted fuel ch;; mimeline_loop fuel mode l (col + 2) (count_down a) qc qv) F
        (mime_out (let '(o, col, lc) := mime_text mode l (col + 2) qc qv (i2h (Z.land ch 15)) in (quoted ch ++ o, col, lc)) c1) c1) as Hq.
      { apply wpx_bind. eapply wpx_mono; [by apply put_three | done|]. cbv beta. intros _ c2 [S2 L2]. rewrite <- L2.
        eapply wpx_mono; [apply IH; by eapply steps_streaming | done|]. intros r c3 Hm.
        destruct (mime_text mode l (col + 2) qc qv (c_lastch c2)) as [[o col'] lc].
        by apply (mime_out_after (quoted ch) (o, col', lc) c1 c2). }
      subst x. destruct (_ && _); [apply Hq|]. cbn [orb]. destruct (needs_quoting col ch); [apply Hq | by apply Hplain]. }
    destruct x as [[o col'] lc]. apply wpx_bind.
    assert (wpx (when_ wrap (ssputc fuel $"=";; ssputc fuel 13;; ssputc fuel 10;; update (set_c_lastch 10))) F
      (fun _ c' => steps (if wrap then [$"="; 13; 10] else []) c0 c') c0) as Hw.
    { destruct wrap; [|by apply wpx_ret, steps_nil]. eapply wpx_mono; [by apply put_three | done|]. by intros ? ? []. }
    eapply wpx_mono; [exact Hw | done|]. cbv beta. intros _ c1 S1.
    eapply wpx_mono; [apply Hx; by eapply steps_streaming | done|]. intros r c2. by apply (mime_out_after _ (_, _, _)).
Qed.

(** writemimeline() to the stream *)
Lemma writemimeline_spec fuel mode l F c : streaming c ->
  wpx (writemimeline fuel l mode) F (fun rc c' =>
    let x := mime_text mode l (c_column c) 0 0 (-1) in
    keep c' = keep c /\ cause c c' /\
    (rc = Z.of_nat (length l) /\ steps x.1.1 c c' /\ c_column c' = x.1.2 /\ c_lastch c' = x.2 \/
     rc = SC_EOF /\ c_sferror c' = true)) c.
Proof.
  intros Hst. unfold writemimeline. apply wpx_bind, wpx_read, wpx_bind, wpx_read, wpx_bind, wpx_update, wpx_bind.
  set (c0 := set_c_lastch (-1) c). eapply wpx_mono; [by apply (mimeline_loop_spec _ _ _ _ _ _ _ _ c0) | done|].
  intros [[col a]|] c1; cbn [mime_out fst snd].
  - intros (S & -> & L). apply wpx_bind, wpx_update, wpx_bind, wpx_update, wpx_ret. destruct S as (S & T & C).
    split_and!; [apply S | done|]. left. split_and!; [done | split_and!; [by destruct S; split | done | done] | done | done].
  - intros (K & E & C). apply wpx_ret. split_and!; [done | done | by right].
Qed.

(** ** Lines of the body *)

Lemma gets_line_split n : forall rest, rest <> [] -> (length (hd [] (split_lines rest)) <= n)%nat ->
  let '(l, rest') := gets_line n rest in split_lines rest = l :: split_lines rest' /\ rest = l ++ rest' /\ l <> [].
Proof.
  induction n as [|n IH]; intros [|ch rest] Hne Hn; [done | | done |].
  - cbn in Hn. destruct (ch =? 10); [cbn in Hn; lia|]. destruct (split_lines rest); cbn in Hn; lia.
  - cbn [gets_line split_lines] in *. destruct (ch =? 10) eqn:E; [done|]. destruct rest as [|d rest].
    { by destruct n. }
    specialize (IH (d :: rest) ltac:(done)). destruct (gets_line n (d :: rest)) as [l rest'].
    destruct (split_lines (d :: rest)) as [|x xs] eqn:Es; cbn [hd length] in *.
    { cbn in Es. destruct (d =? 10); [done|]. by destruct (split_lines rest). }
    destruct IH as ([= -> ->] & -> & _); [lia|]. done.
Qed.

Lemma ends_line_cons2 x y l : ends_line (x :: y :: l) = ends_line (y :: l).
Proof. unfold ends_line. by rewrite last_cons_cons. Qed.

Lemma span_split rest : rest <> [] ->
  let k := span (fun x : Z => negb (x =? 10)) rest in
  let i := if nth k rest 0 =? 10 then S k else k in
  split_lines rest = take i rest :: split_lines (drop i rest) /\ (0 < i)%nat /\
  (nth k rest 0 =? 10) = ends_line (take i rest).
Proof.
  induction rest as [|ch rest IH]; intros Hne; [done|]. cbn [span split_lines].
  destruct (ch =? 10) eqn:E; cbn [negb].
  { cbn [nth]. rewrite E. cbn. split_and!; [done | lia|]. apply Z.eqb_eq in E as ->. done. }
  cbn [nth]. destruct rest as [|d rest].
  { cbn. split_and!; [done | lia|]. unfold ends_line. cbn. rewrite bool_decide_false; [done|]. intros [= ->]. done. }
  specialize (IH ltac:(done)). cbv zeta in IH. set (k := span _ (d :: rest)) in *.
  destruct IH as (E1 & Hi & E2). rewrite E1.
  destruct (nth k (d :: rest) 0 =? 10); cbn [take drop]; (split_and!; [done | lia|]).
  - by rewrite ends_line_cons2.
  - clearbody k. destruct k as [|k]; [lia|]. cbn [take] in *. by rewrite ends_line_cons2.
Qed.

(** The outcome of a loop over lines. *)
Definition lines_out (mode : CONVERTMODE) (rest : list Z) (nl : bool) (c c' : client) (r : sent_body) : Prop :=
  let x := mime_lines mode (split_lines rest) (c_column c) (c_lastch c) in
  match r with
  | inl rc => rc = EX_IOERR /\ (c_sferror c = false -> put_fails \/ file_fails)
  | inr (nl', _) => steps x.1.1 c c' /\ nl' = line_start nl rest /\ c_lastch c' = x.2
  end.

Lemma failed_line_spec k F c : F ScSegv c -> wpx (failed_line k) F (fun rc _ => rc = EX_IOERR) c.
Proof.
  intros HF. unfold failed_line. apply wpx_bind, wpx_read, wpx_bind.
  unfold progress. apply wpx_bind, wpx_read, wpx_bind, wpx_read. apply wpx_if; intros _; [by apply wpx_exit|].
  apply wpx_ret, wpx_bind. by apply wpx_update, wpx_ret.
Qed.

(** One line, and then the rest *)
Lemma one_line fuel mode k l rest nl (next : SC sent_body) c : streaming c -> l <> [] ->
  split_lines (l ++ rest) = l :: split_lines rest ->
  (forall c', streaming c' -> wpx next (fun _ _ => c_sferror c' = false -> put_fails \/ file_fails)
     (fun r c'' => lines_out mode rest (ends_line l) c' c'' r) c') ->
  wpx (rc ← writemimeline fuel l mode;
       if rc =? Z.of_nat (length l) then next else rc ← failed_line k; mret (inl rc))
    (fun _ _ => c_sferror c = false -> put_fails \/ file_fails)
    (fun r c' => lines_out mode (l ++ rest) nl c c' r) c.
Proof.
  intros Hst Hl Hs Hn. apply wpx_bind. eapply wpx_mono; [by apply (writemimeline_spec fuel mode l (fun _ _ => False)) | done|].
  cbv beta zeta. intros rc c1 (K1 & C1 & H1). destruct (mime_text mode l (c_column c) 0 0 (-1)) as [[o1 col1] lc1] eqn:Em.
  apply wpx_if; intros Erc.
  - destruct H1 as [(_ & S1 & Col1 & L1) | [-> _]]; [|apply Z.eqb_eq in Erc; unfold SC_EOF in Erc; lia]. cbn [fst snd] in *.
    eapply wpx_mono; [apply Hn; by eapply steps_streaming | |].
    + intros e c2 Hq E. destruct (c_sferror c1) eqn:E1; [left; by apply C1 | by apply Hq].
    + intros r c2. unfold lines_out. rewrite Hs. cbn [mime_lines]. rewrite Em, Col1, L1.
      destruct (mime_lines mode (split_lines rest) col1 lc1) as [[o2 col2] lc2]. destruct r as [rc'|[nl' bf]]; cbn [fst snd].
      * intros [-> Hq]. split; [done|]. intros E. destruct (c_sferror c1) eqn:E1; [left; by apply C1 | by apply Hq].
      * intros (S2 & -> & ->). split_and!; [by eapply steps_trans | | done]. rewrite line_start_app. f_equal.
        rewrite ends_line_start by done. unfold line_start. destruct (list.last l) eqn:E; [done|]. by apply last_None in E.
  - destruct H1 as [(-> & _) | [-> E1]]; [by rewrite Z.eqb_refl in Erc|].
    apply wpx_bind. eapply wpx_mono; [by apply (failed_line_spec _ (fun _ _ => True)) | |].
    + intros ? ? _ E. left. by apply C1.
    + cbv beta. intros rc' c4 ->. apply wpx_ret. split; [done|]. intros E. left. by apply C1.
Qed.

Lemma map_loop_spec fuel mode n : forall rest nl c, streaming c -> (length rest < n)%nat ->
  wpx (map_loop fuel n mode rest nl) (fun _ _ => c_sferror c = false -> put_fails \/ file_fails)
    (fun r c' => lines_out mode rest nl c c' r) c.
Proof.
  induction n as [|n IH]; intros rest nl c Hst Hn; [lia|]. cbn [map_loop].
  destruct rest as [|ch rest0]; [by apply wpx_ret; split_and!; [apply steps_nil|..]|].
  set (rest := ch :: rest0) in *. destruct (span_split rest) as (Es & Hi & En); [done|]. clearbody rest.
  set (k := span _ rest) in *. set (i := if nth k rest 0 =? 10 then S k else k) in *.
  assert (take i rest <> []) as Hne.
  { destruct rest; [|by destruct i; [lia|]]. destruct i; [lia|]. by cbn in Es. }
  rewrite <- (take_drop i rest) in Es at 1.
  replace (lines_out mode rest) with (lines_out mode (take i rest ++ drop i rest)) by (by rewrite take_drop).
  rewrite En. apply one_line; [done | done | done|]. intros c' Hst'. apply IH; [done|].
  rewrite length_drop. destruct rest; [by destruct i|]. cbn [length] in *. lia.
Qed.

(** The lines are shorter than the buffer. *)
Definition short_lines (b : list Z) : Prop := Forall (fun l => (length l < LET_BUFFER_SIZE)%nat) (split_lines b).

Lemma short_lines_first b : short_lines b -> (length (hd [] (split_lines b)) <= LET_BUFFER_SIZE - 1)%nat.
Proof. unfold short_lines. destruct (split_lines b); intros Hs; [cbn; lia|]. apply Forall_cons in Hs as [Hs _]. cbn. lia. Qed.

Lemma line_loop_spec fuel mode n : forall rest nl c, streaming c -> (length rest < n)%nat -> short_lines rest ->
  wpx (line_loop fuel n mode rest nl) (fun _ _ => c_sferror c = false -> put_fails \/ file_fails)
    (fun r c' => lines_out mode rest nl c c' r) c.
Proof.
  induction n as [|n IH]; intros rest nl c Hst Hn Hs; [lia|]. cbn [line_loop].
  apply wpx_bind, wpx_read, wpx_bind, wpx_update. set (c0 := set_c_trace _ c).
  assert (steps [] c c0) as S0.
  { split_and!; [split; [done|]; intros ?; by rewrite app_nil_r | done|]. intros ? ?. cbn in *. congruence. }
  assert (forall m : SC sent_body, wpx m (fun _ _ => c_sferror c0 = false -> put_fails \/ file_fails) (fun r c' => lines_out mode rest nl c0 c' r) c0 ->
    wpx m (fun _ _ => c_sferror c = false -> put_fails \/ file_fails) (fun r c' => lines_out mode rest nl c c' r) c0) as Hfrom.
  { intros m Hm. eapply wpx_mono; [exact Hm | done|]. intros [rc|[nl' bf]] c'; [done|]. unfold lines_out.
    intros (S1 & ? & ?). split_and!; [|done..]. by apply (steps_trans [] _ c c0). }
  apply Hfrom. assert (streaming c0) as Hst0 by done. destruct (sc_file (c_trace c)) eqn:Ef.
  3: { apply wpx_bind, wpx_update, wpx_ret. split; [done|]. intros _. right. exists (c_trace c). intros m. by rewrite Ef. }
  all: destruct rest as [|ch rest0]; [by apply wpx_ret; split_and!; [apply steps_nil|..]|];
    set (rest := ch :: rest0) in *; pose proof (gets_line_split (LET_BUFFER_SIZE - 1) rest ltac:(done) (short_lines_first _ Hs)) as Hg;
    clearbody rest; destruct (gets_line (LET_BUFFER_SIZE - 1) rest) as [l rest'] eqn:Eg; destruct Hg as (Es & -> & Hl);
    apply one_line; [done | done | done|]; intros c' Hst'; apply IH; [done| |];
    [rewrite length_app in Hn; destruct l; [done|]; cbn in Hn; lia | unfold short_lines in Hs; rewrite Es in Hs; by apply Forall_cons in Hs as [_ Hs]].
Qed.

(** ** The whole body *)

Lemma writebuf_eof fuel l F c : streaming c -> c_gotalarm c = false ->
  wpx (writebuf fuel l) F (fun rc c' => rc = SC_EOF -> c_sferror c' = true) c.
Proof.
  intros Hst Ha. unfold writebuf. apply wpx_bind, wpx_read, wpx_bind, wpx_read, wpx_bind.
  eapply wpx_mono; [by apply writebuf_loop_spec | done|]. intros [[st a]|] c'; cbn [sending fst].
  - intros _. apply wpx_bind, wpx_update, wpx_bind, wpx_update, wpx_ret. unfold SC_EOF. lia.
  - intros (_ & _ & E & _). by apply wpx_ret.
Qed.

(** The last line end; after an alarm writebuf() says that all is well, but
    then the stream is in error. *)
Lemma final_newline fuel F c : streaming c -> (c_sferror c = false -> c_gotalarm c = false) ->
  wpx (writebuf fuel [10]) F (fun rc c' => streaming c' /\ cause c c' /\
    (rc = 1 /\ sends [13; 10] c c' \/ rc = SC_EOF /\ c_sferror c' = true)) c.
Proof.
  intros Hst Ha. destruct (c_gotalarm c) eqn:Ea.
  - destruct (c_sferror c) eqn:Ee; [|by specialize (Ha eq_refl)].
    unfold writebuf. apply wpx_bind, wpx_read, wpx_bind, wpx_read, wpx_bind. cbn [writebuf_loop].
    apply wpx_bind, wpx_read. rewrite Ea. apply wpx_ret, wpx_bind, wpx_update, wpx_bind, wpx_update, wpx_ret.
    split_and!; [done | by intros ?; congruence | left]. split; [done|]. split; [done|]. cbn. by rewrite Ee.
  - eapply wpx_mono; [apply wpx_and; [by apply (writebuf_spec fuel [10] F) | by apply (writebuf_eof fuel [10] F)] | by intros ? ? []|]. cbv beta.
    intros rc c' [(K & _ & H1) Heof]. destruct H1 as [(-> & S & _ & _ & E) | [-> Hp]].
    + split_and!; [by eapply streaming_keep | intros E1 E2; rewrite E in E2 by (by right); done | left; by split].
    + split_and!; [by eapply streaming_keep | by intros E1 _; apply Hp|]. right. split; [done|]. by apply Heof.
Qed.

Lemma mime_end fuel nl bf o c0 c : streaming c0 -> steps o c0 c -> c_sferror c0 = false -> c_gotalarm c0 = false ->
  wpx (append_end fuel nl bf) (fun _ _ => put_fails \/ file_fails)
    (fun rc c' => (rc = EX_OK /\ moves (o ++ if nl && (c_lastch c =? 10) then [] else [13; 10]) c0 c' /\ cause c0 c') \/
      (rc = EX_IOERR /\ (put_fails \/ file_fails))) c.
Proof.
  intros Hst (S & T & C) He Ha. pose proof (streaming_keep _ _ (sn_keep _ _ _ S) Hst) as Hst1.
  unfold append_end. apply wpx_bind, wpx_read, wpx_bind. rewrite <- negb_andb.
  assert (forall bf o' c1, sends o' c0 c1 -> cause c0 c1 ->
    wpx (when_ (1 <? bf)%nat (update (set_c_readalready O));; mret EX_OK) (fun _ _ => put_fails \/ file_fails)
      (fun rc c' => (rc = EX_OK /\ moves o' c0 c' /\ cause c0 c') \/ (rc = EX_IOERR /\ (put_fails \/ file_fails))) c1) as Hok.
  { intros bf' o' c1 S1 C1. pose proof (sends_moves _ _ _ Hst S1) as M1.
    apply wpx_bind. apply wpx_if; intros _; [apply wpx_update | apply wpx_ret]; apply wpx_ret; left;
      (split_and!; [done | | done]); [by destruct M1 | done]. }
  destruct (nl && (c_lastch c =? 10)); cbn [negb].
  - apply wpx_ret. cbn [Z.eqb Pos.eqb]. rewrite app_nil_r. by apply Hok.
  - eapply wpx_mono; [apply (final_newline fuel (fun _ _ => False)); [done|] | done|].
    { intros E. destruct (sn_text _ _ _ S E) as (_ & _ & ->). done. }
    cbv beta. intros rc c1 (Hst2 & C2 & H1).
    assert (cause c0 c1) as C02.
    { intros E0 E1. destruct (c_sferror c) eqn:E; [by apply C | by apply C2]. }
    destruct H1 as [[-> S1] | [-> E1]].
    + cbn iota. apply Hok; [by eapply sends_trans | done].
    + change (SC_EOF =? 1) with false. cbn iota. assert put_fails as Hp by (by apply C02). apply wpx_bind, wpx_read, wpx_bind.
      eapply wpx_mono; [by apply (failed_write_spec _ _ (fun _ _ => True)) | auto|]. cbv beta. intros rc c2 ->.
      apply wpx_bind. apply wpx_if; intros _; [apply wpx_update | apply wpx_ret]; apply wpx_ret; right; auto.
Qed.

(** appendlet() with a conversion *)
Lemma appendlet_mime_spec fuel mode c : is_mode mode CONVERT_NONE = false -> streaming c -> c_sferror c = false ->
  (ta_use_mmap = false -> short_lines (body_of c)) ->
  wpx (appendlet fuel mode) (fun _ _ => put_fails \/ file_fails)
    (fun rc c' => (rc = EX_OK /\ moves (mime_body mode (body_of c)) c c' /\ cause c c') \/
      (rc = EX_IOERR /\ (put_fails \/ file_fails))) c.
Proof.
  intros Hm Hst He Hs. unfold appendlet, append_start. apply wpx_bind.
  do 4 (apply wpx_bind, wpx_update). apply wpx_update. set (c0 := set_c_gotalarm _ _). apply wpx_bind. rewrite Hm.
  assert (forall c1, moves [] c0 c1 -> c_sferror c1 = false -> c_gotalarm c1 = false -> c_column c1 = -1 -> c_lastch c1 = 10 ->
    forall r c2, lines_out mode (body_of c) false c1 c2 r ->
    wpx (match r with inl rc => mret rc | inr (nl, bf) => append_end fuel nl bf end) (fun _ _ => put_fails \/ file_fails)
     (fun rc c' => (rc = EX_OK /\ moves (mime_body mode (body_of c)) c c' /\ cause c c') \/
      (rc = EX_IOERR /\ (put_fails \/ file_fails))) c2) as Hend.
  { intros c1 M1 E1 A1 Co1 L1 [rc|[nl bf]] c2; unfold lines_out; [intros [-> Hq]; apply wpx_ret; right; auto|].
    rewrite Co1, L1. unfold mime_body. destruct (mime_lines _ _ _ _) as [[o col] lc] eqn:Em. cbn [fst snd]. intros (S2 & -> & L2).
    eapply wpx_mono; [by apply (mime_end fuel _ _ o c1 c2); [apply M1|..] | done|]. cbv beta. rewrite L2.
    intros rc c3 [(-> & M3 & C3) | H3]; [left | by right].
    assert (moves [] c c1) as M by (destruct M1; by split). split_and!; [done | by apply (moves_trans [] _ c c1)|].
    intros _ E3. by apply C3. }
  destruct ta_use_mmap.
  - unfold append_map. apply wpx_bind, wpx_read. rewrite Hm.
    eapply wpx_mono; [by apply map_loop_spec; [|lia] | intros e c2 Hq; by apply Hq|]. cbv beta. intros r c2 Hl.
    apply (Hend c0); [|done..|exact Hl]. split; [done..|]. intros ?. by rewrite app_nil_r.
  - apply wpx_bind. unfold seek_body. apply wpx_bind, wpx_read, wpx_update. unfold append_lines. apply wpx_bind, wpx_update, wpx_bind, wpx_read.
    set (c1 := set_c_readalready _ _). eapply wpx_mono; [apply line_loop_spec; [done | lia | by apply Hs] | intros e c2 Hq; by apply Hq|].
    cbv beta. intros r c2 Hl. apply (Hend c1); [|done..|exact Hl]. split; [done..|]. intros ?. by rewrite app_nil_r.
Qed.
End specs.
