(* ===== verification/ScQp.v ===== *)
(** * The SMTP client: Quoted-Printable

    What the encoding of a body looks like, and what the decoding makes of it
    when the next server has stored it. *)

From Stdlib Require Import ZArith Lia.
From stdpp Require Import base tactics numbers list option sets.
From S2P Require Import Prelude TaFile TaDiag TaCtl ScState ScReply ScBody ScBodySpec ScMime SmtpDot.

#[local] Open Scope Z_scope.

(** ** The text the server stores *)

Definition nocr (t : list Z) : list Z := filter (fun c => c <> 13) t.

Lemma nocr_app a b : nocr (a ++ b) = nocr a ++ nocr b.
Proof. apply filter_app. Qed.

Lemma nocr_id l : 13 ∉ l -> nocr l = l.
Proof.
  induction l as [|c l IH]; [done|]. intros [H1 H2]%not_elem_of_cons. unfold nocr. rewrite filter_cons_True by done.
  f_equal. by apply IH.
Qed.

(** Lines of text, with CR LF and doubled dots, are the wire format. *)
Lemma crlf_unlines ls : Forall (fun l => LF ∉ l) ls ->
  crlf_text false true (unlines ls) = concat ((fun l => stuff l ++ [CR; LF]) <$> ls).
Proof.
  induction 1 as [|l ls Hl Hls IH]; [done|]. unfold unlines in *. cbn [fmap list_fmap concat].
  rewrite !crlf_text_app. f_equal; [|].
  - assert (forall st, crlf_text false st l = if st then stuff l else l) as Hc.
    { clear -Hl. induction l as [|c l IH]; intros st; [by destruct st|]. apply not_elem_of_cons in Hl as [Hc Hl].
      cbn [crlf_text]. rewrite (proj2 (Z.eqb_neq c 10)) by done. rewrite IH by done. destruct st; cbn; [|done]. destruct (c =? 46) eqn:E; [|done]. by apply Z.eqb_eq in E as ->. }
    rewrite Hc. done.
  - replace (line_start _ (l ++ [LF])) with true; [exact IH|]. unfold line_start. by rewrite last_snoc.
Qed.

(** ** Stepping through an encoded text *)

Abbreviation dec_text := (mime_text CONVERT_8BIT).

(** The decoding of the lines of [t], the first of which has begun. *)
Definition dec_from (t : list Z) (column qv lastch : Z) : list Z * Z * Z :=
  match split_lines t with
  | [] => ([], column, lastch)
  | x :: xs =>
      let '(o1, column, lastch) := dec_text x column 0 qv lastch in
      let '(o2, column, lastch) := mime_lines CONVERT_8BIT xs column lastch in (o1 ++ o2, column, lastch)
  end.
Definition dec_lines (t : list Z) (column lastch : Z) : list Z * Z * Z :=
  mime_lines CONVERT_8BIT (split_lines t) column lastch.

Definition prepend (o : list Z) (x : list Z * Z * Z) : list Z * Z * Z := (o ++ x.1.1, x.1.2, x.2).

Lemma prepend_app a b x : prepend (a ++ b) x = prepend a (prepend b x).
Proof. unfold prepend. cbn. by rewrite app_assoc. Qed.

Lemma dec_lines_from t column lastch : t <> [] -> dec_lines t column lastch = dec_from t column 0 (-1).
Proof.
  intros Ht. unfold dec_lines, dec_from. destruct (split_lines t) eqn:E; [|done].
  destruct t as [|c t]; [done|]. cbn in E. destruct (c =? 10); [done|]. by destruct (split_lines t).
Qed.

Lemma dec_from_plain ch t column qv lastch : ch <> 10 -> ch <> $"=" ->
  dec_from (ch :: t) column qv lastch =
  prepend (plain_text (column + 1) ch) (dec_from t (plain_column (column + 1) ch) qv ch).
Proof.
  intros H1 H2. unfold dec_from. cbn [split_lines]. rewrite (proj2 (Z.eqb_neq ch 10)) by done.
  assert (forall x, dec_text (ch :: x) column 0 qv lastch =
    prepend (plain_text (column + 1) ch) (dec_text x (plain_column (column + 1) ch) 0 qv ch)) as Hx.
  { intros x. cbn [mime_text is_mode]. rewrite (proj2 (Z.eqb_neq ch 61)) by done. cbn [andb Z.eqb negb].
    by destruct (dec_text x _ 0 qv ch) as [[? ?] ?]. }
  destruct (split_lines t) as [|x xs]; rewrite Hx; unfold prepend.
  - cbn. by rewrite app_nil_r.
  - destruct (dec_text x _ 0 qv ch) as [[o1 c1] l1]. cbn [fst snd].
    destruct (mime_lines CONVERT_8BIT xs c1 l1) as [[o2 c2] l2]. cbn. by rewrite <- app_assoc.
Qed.

Lemma dec_from_lf t column qv lastch :
  dec_from (10 :: t) column qv lastch = prepend [13; 10] (dec_lines t (-1) 10).
Proof.
  unfold dec_from, dec_lines. cbn [split_lines Z.eqb Pos.eqb]. cbn [mime_text is_mode Z.eqb Pos.eqb andb negb].
  unfold plain_text, plain_column. cbn [Z.eqb Pos.eqb]. rewrite andb_false_r. cbn [app].
  destruct (mime_lines _ _ _ _) as [[o c] l]. done.
Qed.

Lemma dec_from_soft t column qv lastch :
  dec_from ($"=" :: 10 :: t) column qv lastch = dec_lines t (column + 2) lastch.
Proof.
  unfold dec_from, dec_lines. cbn [split_lines Z.eqb Pos.eqb]. cbn [mime_text is_mode Z.eqb Pos.eqb andb negb is_wrap orb].
  replace (column + 1 + 1) with (column + 2) by lia. destruct (mime_lines _ _ _ _) as [[o c] l]. done.
Qed.

(** Two digits *)
Lemma hex_pair ch : 0 <= ch < 256 ->
  let h1 := i2h (Z.land (Z.shiftr ch 4) 15) in let h2 := i2h (Z.land ch 15) in
  is_hex h1 = true /\ is_hex h2 = true /\ is_wrap h1 = false /\ is_wrap h2 = false /\ h1 <> 10 /\ h2 <> 10 /\
  32 < h1 < 127 /\ 32 < h2 < 127 /\ h1 <> $"." /\ h2 <> $"." /\
  Z.lor (Z.shiftl (Z.lor (Z.shiftl 0 4) (qp_digit h1)) 4) (qp_digit h2) = ch.
Proof.
  intros Hc h1 h2.
  pose proof (byte_cases (fun ch => let h1 := i2h (Z.land (Z.shiftr ch 4) 15) in let h2 := i2h (Z.land ch 15) in
    is_hex h1 && is_hex h2 && negb (is_wrap h1) && negb (is_wrap h2) && negb (h1 =? 10) && negb (h2 =? 10) &&
    (32 <? h1) && (h1 <? 127) && (32 <? h2) && (h2 <? 127) && negb (h1 =? 46) && negb (h2 =? 46) &&
    (Z.lor (Z.shiftl (Z.lor (Z.shiftl 0 4) (qp_digit h1)) 4) (qp_digit h2) =? ch)) eq_refl ch Hc) as H.
  cbv beta zeta in H. fold h1 h2 in H. clearbody h1 h2. zbool. split_and!; done || lia.
Qed.

Lemma dec_from_quoted ch t column qv lastch : 0 <= ch < 256 ->
  dec_from (quoted ch ++ t) column qv lastch =
  prepend (plain_text (column + 1) ch) (dec_from t (plain_column (column + 1) ch) ch ch).
Proof.
  intros Hc. destruct (hex_pair ch Hc) as (X1 & X2 & W1 & W2 & N1 & N2 & _ & _ & _ & _ & Hv). unfold quoted. cbn [app].
  set (h1 := i2h (Z.land (Z.shiftr ch 4) 15)) in *. set (h2 := i2h (Z.land ch 15)) in *. clearbody h1 h2.
  unfold dec_from. cbn [split_lines]. rewrite (proj2 (Z.eqb_neq h1 10)), (proj2 (Z.eqb_neq h2 10)) by done. cbn [Z.eqb Pos.eqb].
  assert (forall x, dec_text ($"=" :: h1 :: h2 :: x) column 0 qv lastch =
    prepend (plain_text (column + 1) ch) (dec_text x (plain_column (column + 1) ch) 0 ch ch)) as Hx.
  { intros x. cbn [mime_text is_mode]. change (2 - 1) with 1. change (1 - 1) with 0. cbn [Z.eqb Pos.eqb andb negb].
    rewrite !andb_false_r, X1, W1, X2, W2. cbn [Z.eqb negb andb]. rewrite Hv.
    replace (column + 1 + 1 - 1) with (column + 1) by lia. replace (column + 1 + 1 - 1) with (column + 1) by lia.
    by destruct (dec_text x _ 0 ch ch) as [[? ?] ?]. }
  destruct (split_lines t) as [|x xs]; rewrite Hx; unfold prepend.
  - cbn. by rewrite app_nil_r.
  - destruct (dec_text x _ 0 ch ch) as [[o1 c1] l1]. cbn [fst snd].
    destruct (mime_lines CONVERT_8BIT xs c1 l1) as [[o2 c2] l2]. cbn. by rewrite <- app_assoc.
Qed.

(** ** The encoding of a line *)

(** The characters of a line in front of its last [k]: the text, and the
    column behind it. *)
Definition qp_wraps (column : Z) : bool := 70 <? column + 1.
Definition qp_column (column : Z) : Z := if qp_wraps column then 0 else column + 1.
Definition qp_quotes (k : nat) (ch : Z) (rest : list Z) (column : Z) : bool :=
  (S (length rest) + k <? 3)%nat && ((ch =? $" ") || (ch =? 9)) || needs_quoting column ch.
Fixpoint qp_go (k : nat) (l : list Z) (column : Z) : list Z * Z :=
  match l with
  | [] => ([], column)
  | ch :: rest =>
      let col := qp_column column in
      let q := qp_quotes k ch rest col in
      let '(o, col') := qp_go k rest (if q then col + 2 else col) in
      ((if qp_wraps column then [$"="; 13; 10] else []) ++ (if q then quoted ch else [ch]) ++ o, col')
  end.

(** What is known of a character that is not quoted. *)
Lemma unquoted k ch rest column : ch <> 10 -> qp_quotes k ch rest column = false ->
  ch <> $"=" /\ (ch = 9 \/ 32 <= ch <= 126) /\ (column = 0 -> ch <> $".").
Proof. unfold qp_quotes, needs_quoting. intros Hlf H. zbool. lia. Qed.

Lemma qp_column_pos column : -1 <= column -> 0 <= qp_column column.
Proof. intros Hc. unfold qp_column. destruct (qp_wraps column); lia. Qed.

Lemma mime_text_qp mode k e l column qc qv lc :
  is_mode mode CONVERT_8BIT = false -> is_mode mode CONVERT_QP || is_mode mode CONVERT_UNKNOWN = true ->
  LF ∉ l -> length e = k -> exists lc',
  mime_text mode (l ++ e) column qc qv lc =
  let '(o, col) := qp_go k l column in prepend o (mime_text mode e col qc qv lc').
Proof.
  intros H8 Hq Hlf He. revert column lc. induction l as [|ch l IH]; intros column lc.
  - exists lc. unfold prepend. cbn. by destruct (mime_text mode e column qc qv lc) as [[? ?] ?].
  - apply not_elem_of_cons in Hlf as [Hc Hlf]. cbn [app mime_text qp_go]. rewrite H8, Hq.
    rewrite (proj2 (Z.eqb_neq ch 10)) by done. cbn [negb]. rewrite andb_true_r. fold (qp_wraps column). fold (qp_column column).
    replace (length (ch :: l ++ e)) with (S (length l) + k)%nat by (cbn; rewrite length_app; lia).
    change (_ && _ || _) with (qp_quotes k ch l (qp_column column)).
    destruct (qp_quotes k ch l (qp_column column)) eqn:Eq.
    + destruct (IH Hlf (qp_column column + 2) (i2h (Z.land ch 15))) as [lc' E]. exists lc'. rewrite E.
      destruct (qp_go k l (qp_column column + 2)) as [o col]. by rewrite !prepend_app.
    + destruct (IH Hlf (plain_column (qp_column column) ch) ch) as [lc' E]. exists lc'. rewrite E.
      unfold plain_column. rewrite (proj2 (Z.eqb_neq ch 10)) by done.
      destruct (qp_go k l (qp_column column)) as [o col]. rewrite !prepend_app. unfold plain_text.
      rewrite (proj2 (Z.eqb_neq ch 10)) by done.
      replace ((qp_column column =? 0) && (ch =? 46)) with false; [done|]. symmetry.
      destruct (unquoted k ch l (qp_column column)) as (_ & _ & Hd); [done | done|]. apply andb_false_iff. lia.
Qed.

Lemma quoted_no_cr ch : 0 <= ch < 256 -> 13 ∉ quoted ch.
Proof.
  intros Hc. destruct (hex_pair ch Hc) as (_ & _ & _ & _ & _ & _ & H1 & H2 & _). unfold quoted. set_unfold. lia.
Qed.

(** One step of the encoding, as the server stores it *)
Lemma nocr_step (wrap : bool) k ch rest col o : byte ch -> ch <> LF ->
  nocr ((if wrap then [$"="; 13; 10] else []) ++ (if qp_quotes k ch rest col then quoted ch else [ch]) ++ o) =
  (if wrap then [$"="; 10] else []) ++ (if qp_quotes k ch rest col then quoted ch else [ch]) ++ nocr o.
Proof.
  intros Hb Hlf. rewrite !nocr_app. f_equal; [by destruct wrap|]. f_equal. apply nocr_id.
  destruct (qp_quotes k ch rest col) eqn:E; [by apply quoted_no_cr|].
  destruct (unquoted _ _ _ _ Hlf E) as (_ & H & _). set_unfold. lia.
Qed.

(** The decoding of an encoded line *)
Lemma qp_go_decodes k l : forall ec dc qv lc t, Forall byte l -> LF ∉ l ->
  -1 <= ec -> -1 <= dc -> (ec = -1 <-> dc = -1) -> exists dc' qv' lc',
  dec_from (nocr (qp_go k l ec).1 ++ t) dc qv lc =
  prepend (crlf_text false (dc =? -1) l) (dec_from t dc' qv' lc').
Proof.
  induction l as [|ch l IH]; intros ec dc qv lc t Hb Hlf He Hd Heq.
  { exists dc, qv, lc. unfold prepend. by destruct (dec_from _ _ _ _) as [[? ?] ?]. }
  apply Forall_cons in Hb as [Hch Hb]. apply not_elem_of_cons in Hlf as [Hc Hlf].
  cbn [qp_go]. set (q := qp_quotes k ch l (qp_column ec)).
  destruct (qp_go k l (if q then qp_column ec + 2 else qp_column ec)) as [o col'] eqn:Eg. cbn [fst].
  subst q. rewrite nocr_step by done. set (q := qp_quotes k ch l (qp_column ec)) in *.
  pose proof (qp_column_pos ec He) as Hcol.
  (* the character itself, at the column [d] *)
  assert (forall d qv lc, -1 <= d -> (d = -1 <-> dc = -1) -> exists dc' qv' lc',
    dec_from ((if q then quoted ch else [ch]) ++ nocr o ++ t) d qv lc =
    prepend (crlf_text false (dc =? -1) (ch :: l)) (dec_from t dc' qv' lc')) as Hchar.
  { intros d qv1 lc1 Hd1 Hd2.
    assert (exists qv2, dec_from ((if q then quoted ch else [ch]) ++ nocr o ++ t) d qv1 lc1 =
      prepend (plain_text (d + 1) ch) (dec_from (nocr o ++ t) (d + 1) qv2 ch)) as [qv2 ->].
    { assert (plain_column (d + 1) ch = d + 1) as Hpc by (unfold plain_column; by rewrite (proj2 (Z.eqb_neq ch 10))).
      destruct q eqn:Eq.
      - exists ch. rewrite dec_from_quoted by done. by rewrite Hpc.
      - exists qv1. cbn [app]. destruct (unquoted _ _ _ _ (not_eq_sym Hc) Eq) as (Hn & _). rewrite dec_from_plain by done. by rewrite Hpc. }
    destruct (IH (if q then qp_column ec + 2 else qp_column ec) (d + 1) qv2 ch t Hb Hlf) as (dc' & qv' & lc' & E);
      [destruct q; lia | lia | destruct q; lia|]. rewrite Eg in E. cbn [fst] in E. rewrite E. exists dc', qv', lc'.
    rewrite <- prepend_app. f_equal. cbn [crlf_text]. rewrite (proj2 (Z.eqb_neq ch 10)) by done.
    replace (d + 1 =? -1) with false by lia. unfold plain_text. rewrite (proj2 (Z.eqb_neq ch 10)) by done. cbn [negb]. rewrite andb_true_r.
    replace (d + 1 =? 0) with (dc =? -1) by lia. by destruct (_ && _). }
  destruct (qp_wraps ec) eqn:Ew.
  - cbn [app]. rewrite dec_from_soft. unfold qp_wraps in Ew. rewrite dec_lines_from.
    2: { destruct q; [done|]. done. }
    rewrite <- app_assoc. apply Hchar; lia.
  - cbn [app]. rewrite <- app_assoc. by apply Hchar.
Qed.

(** ** The encoding of a body *)

(** A line of the body, [k] = 1 when it has a line end of its own. *)
Definition qp_line (x : nat * list Z) : list Z := (qp_go x.1 x.2 (-1)).1 ++ [CR; LF].

Definition qp_mode (mode : CONVERTMODE) : Prop := mode = CONVERT_QP \/ mode = CONVERT_UNKNOWN.

(** The lines of a body that is not empty *)
Record body_lines (b : list Z) (ks : list (nat * list Z)) : Prop := {
  bl_text : completed b = unlines (snd <$> ks);
  bl_lf : Forall (fun x => LF ∉ x.2) ks;
  bl_bytes : Forall byte b -> Forall (fun x => Forall byte x.2) ks
}.

Lemma split_lines_app l rest : LF ∉ l -> split_lines (l ++ LF :: rest) = (l ++ [LF]) :: split_lines rest.
Proof.
  induction l as [|c l IH]; [done|]. intros [Hc Hl]%not_elem_of_cons. cbn [app split_lines].
  rewrite (proj2 (Z.eqb_neq c 10)) by done. by rewrite IH.
Qed.

Lemma split_lines_last l : LF ∉ l -> l <> [] -> split_lines l = [l].
Proof.
  induction l as [|c l IH]; [done|]. intros [Hc Hl]%not_elem_of_cons _. cbn [split_lines].
  rewrite (proj2 (Z.eqb_neq c 10)) by done. destruct l as [|d l]; [done|]. by rewrite IH.
Qed.

Lemma mime_text_lf mode column qv lc : qp_mode mode -> mime_text mode [LF] column 0 qv lc = ([CR; LF], -1, LF).
Proof.
  intros Hm. assert (forall col, needs_quoting col 10 = false) as Hn by (intros; unfold needs_quoting; cbn; by rewrite andb_false_r).
  destruct Hm as [-> | ->]; cbn [mime_text is_mode orb length Nat.ltb Nat.leb Z.eqb Pos.eqb andb negb];
    rewrite !andb_false_r, Hn; unfold plain_text; cbn; by rewrite ?andb_false_r.
Qed.

Lemma qp_mode_tests mode : qp_mode mode ->
  is_mode mode CONVERT_8BIT = false /\ is_mode mode CONVERT_QP || is_mode mode CONVERT_UNKNOWN = true.
Proof. by intros [-> | ->]. Qed.

Lemma mime_text_line mode l lc : qp_mode mode -> LF ∉ l ->
  mime_text mode (l ++ [LF]) (-1) 0 0 lc = (qp_line (1%nat, l), -1, LF).
Proof.
  intros Hm Hl. destruct (qp_mode_tests mode Hm) as [H8 Hq].
  destruct (mime_text_qp mode 1 [LF] l (-1) 0 0 lc H8 Hq Hl eq_refl) as [lc' ->].
  unfold qp_line. cbn [fst snd]. destruct (qp_go 1 l (-1)) as [o col]. by rewrite mime_text_lf.
Qed.

Lemma mime_text_tail mode l lc : qp_mode mode -> LF ∉ l -> exists col lc',
  mime_text mode l (-1) 0 0 lc = ((qp_go 0 l (-1)).1, col, lc').
Proof.
  intros Hm Hl. destruct (qp_mode_tests mode Hm) as [H8 Hq].
  destruct (mime_text_qp mode 0 [] l (-1) 0 0 lc H8 Hq Hl eq_refl) as [lc' E]. rewrite app_nil_r in E. rewrite E.
  destruct (qp_go 0 l (-1)) as [o col]. exists col, lc'. unfold prepend. cbn. by rewrite app_nil_r.
Qed.

Lemma line_start_snoc st l : line_start st (l ++ [LF]) = true.
Proof. unfold line_start. by rewrite last_snoc. Qed.

(** The lines of a body, and what the encoding makes of them *)
Lemma mime_lines_qp mode n : forall b lc, qp_mode mode -> (length b < n)%nat -> exists ks,
  body_lines b ks /\ exists o col lc', mime_lines mode (split_lines b) (-1) lc = (o, col, lc') /\
  concat (qp_line <$> ks) = o ++ (if line_start true b then [] else [CR; LF]) /\
  (b <> [] -> line_start true b = true -> lc' = LF) /\ (b <> [] -> ks <> []).
Proof.
  induction n as [|n IH]; intros b lc Hm Hn; [lia|]. destruct (split_line b) as [Hlf | (l & rest & -> & Hlf)].
  - destruct (decide (b = [])) as [-> | Hne].
    { exists []. split; [by repeat constructor|]. by exists [], (-1), lc. }
    assert (line_start true b = false) as Hs.
    { unfold line_start. destruct (list.last b) as [x|] eqn:E; [|by apply last_None in E]. apply Z.eqb_neq. intros ->.
      apply Hlf. apply last_Some in E as [b' ->]. set_solver. }
    exists [(0%nat, b)]. split.
    + split; [|by constructor | by constructor]. unfold completed, unlines. rewrite Hs. cbn. by rewrite app_nil_r.
    + rewrite split_lines_last by done. destruct (mime_text_tail mode b (-1) Hm Hlf) as (col & lc' & E).
      exists (qp_go 0 b (-1)).1, col, lc'. cbn [mime_lines]. rewrite E, app_nil_r, Hs.
      split_and!; [done | | done | done]. cbn. by rewrite app_nil_r.
  - destruct (IH rest LF Hm) as (ks & [T L B] & o & col & lc' & E & C & El & _).
    { rewrite length_app in Hn. cbn in Hn. lia. }
    assert (l ++ LF :: rest = (l ++ [LF]) ++ rest) as Eb by (by rewrite <- app_assoc).
    assert (line_start true (l ++ LF :: rest) = line_start true rest) as Hs by (by rewrite Eb, line_start_app, line_start_snoc).
    exists ((1%nat, l) :: ks). split.
    + split; [|by constructor |].
      * unfold completed in *. rewrite Hs. unfold unlines in *. cbn [fmap list_fmap snd concat]. rewrite <- T.
        destruct (line_start true rest); by rewrite <- ?app_assoc.
      * rewrite Forall_app, Forall_cons. intros (? & _ & ?). constructor; [done | by apply B].
    + exists (qp_line (1%nat, l) ++ o), col, lc'. rewrite split_lines_app by done. cbn [mime_lines].
      rewrite mime_text_line by done. rewrite E, Hs. split_and!; [done | | | done].
      * cbn [fmap list_fmap concat]. rewrite C. by rewrite app_assoc.
      * intros _ Hr. destruct rest; [|by apply El]. cbn in E. congruence.
Qed.

Lemma mime_body_qp mode b : qp_mode mode -> b <> [] -> exists ks,
  body_lines b ks /\ ks <> [] /\ mime_body mode b = concat (qp_line <$> ks).
Proof.
  intros Hm Hne. destruct (mime_lines_qp mode (S (length b)) b LF Hm) as (ks & Hb & o & col & lc & E & C & El & Hk); [lia|].
  exists ks. split_and!; [done | by apply Hk |]. unfold mime_body. rewrite E, C. f_equal.
  assert (line_start false b = line_start true b) as -> by (unfold line_start; destruct (list.last b) eqn:El'; [done | by apply last_None in El']).
  destruct (line_start true b); [|done]. by rewrite El.
Qed.

(** ** On the wire *)

(** The encoded text is the text the server stores, with CR LF line ends: no
    line starts with a dot. *)
Lemma qp_go_wire k l : forall ec, Forall byte l -> LF ∉ l -> -1 <= ec ->
  crlf_text false (ec =? -1) (nocr (qp_go k l ec).1) = (qp_go k l ec).1 /\ CR ∉ nocr (qp_go k l ec).1.
Proof.
  assert (forall x, CR ∉ nocr x) as Hcr.
  { intros x Hx%list_elem_of_filter. by destruct Hx. }
  induction l as [|ch l IH]; intros ec Hb Hlf He; (split; [|by apply Hcr]); [done|].
  apply Forall_cons in Hb as [Hch Hb]. apply not_elem_of_cons in Hlf as [Hc Hlf].
  cbn [qp_go]. set (q := qp_quotes k ch l (qp_column ec)).
  pose proof (qp_column_pos ec He) as Hcol.
  destruct (IH (if q then qp_column ec + 2 else qp_column ec) Hb Hlf) as [E _]; [destruct q; lia|].
  destruct (qp_go k l (if q then qp_column ec + 2 else qp_column ec)) as [o col'] eqn:Eg. cbn [fst] in *.
  replace (_ =? -1) with false in E by (destruct q; lia).
  subst q. rewrite nocr_step by done. set (q := qp_quotes k ch l (qp_column ec)) in *.
  assert (forall st, (st = true -> qp_column ec = 0) -> crlf_text false st ((if q then quoted ch else [ch]) ++ nocr o) = (if q then quoted ch else [ch]) ++ o) as Hchar.
  { intros st Hst. destruct q eqn:Eq; cbn [app].
    - destruct (hex_pair ch Hch) as (_ & _ & _ & _ & N1 & N2 & _). unfold quoted. cbn [app crlf_text].
      rewrite (proj2 (Z.eqb_neq _ 10) N1), (proj2 (Z.eqb_neq _ 10) N2), E. cbn. by rewrite andb_false_r.
    - destruct (unquoted _ _ _ _ (not_eq_sym Hc) Eq) as (_ & _ & Hd). cbn [crlf_text].
      rewrite (proj2 (Z.eqb_neq ch 10)), E by done. replace (st && _ && _) with false; [done|].
      destruct st; [|done]. specialize (Hd (Hst eq_refl)). symmetry. cbn. rewrite andb_true_r. lia. }
  destruct (qp_wraps ec) eqn:Ew.
  - cbn [app crlf_text Z.eqb Pos.eqb]. rewrite Hchar; [|by unfold qp_column; rewrite Ew].
    unfold qp_wraps in Ew. by replace (ec =? -1) with false by lia.
  - cbn [app]. apply Hchar. intros Ee. unfold qp_column. rewrite Ew. lia.
Qed.

Lemma nocr_qp_line x : nocr (qp_line x) = nocr (qp_go x.1 x.2 (-1)).1 ++ [LF].
Proof. unfold qp_line. by rewrite nocr_app. Qed.

Lemma qp_lines_wire ks : Forall (fun x => LF ∉ x.2) ks -> Forall (fun x => Forall byte x.2) ks ->
  crlf_text false true (nocr (concat (qp_line <$> ks))) = concat (qp_line <$> ks).
Proof.
  induction 1 as [|x ks Hx Hks IH]; intros Hb; [done|]. apply Forall_cons in Hb as [Hbx Hb]. cbn [fmap list_fmap concat].
  rewrite nocr_app, nocr_qp_line, <- app_assoc, crlf_text_app.
  destruct (qp_go_wire x.1 x.2 (-1) Hbx Hx) as [E _]; [lia|]. cbn [Z.eqb Pos.eqb] in E. rewrite E.
  unfold qp_line at 2. rewrite <- app_assoc. f_equal. cbn [app crlf_text Z.eqb Pos.eqb]. by rewrite IH.
Qed.

(** ** Decoding *)

Lemma dec_qp_lines ks lc : Forall (fun x => LF ∉ x.2) ks -> Forall (fun x => Forall byte x.2) ks -> ks <> [] ->
  dec_lines (nocr (concat (qp_line <$> ks))) (-1) lc = (crlf_text false true (unlines (snd <$> ks)), -1, LF).
Proof.
  intros Hks. revert lc. induction Hks as [|x ks Hx Hks IH]; intros lc Hb Hne; [done|].
  apply Forall_cons in Hb as [Hbx Hb]. cbn [fmap list_fmap concat].
  rewrite nocr_app, nocr_qp_line, <- app_assoc. rewrite dec_lines_from by (intros E%app_eq_nil; by destruct E).
  destruct (qp_go_decodes x.1 x.2 (-1) (-1) 0 (-1) ([LF] ++ nocr (concat (qp_line <$> ks))) Hbx Hx) as (d & q & l & E); [lia..|done|].
  rewrite E. cbn [app]. rewrite dec_from_lf. unfold unlines. cbn [fmap list_fmap concat].
  rewrite crlf_text_app, line_start_snoc, crlf_text_app. fold (unlines (snd <$> ks)).
  destruct ks as [|y ks]; [cbn; by rewrite !app_nil_r|].
  rewrite IH by done. unfold prepend. cbn [fst snd]. cbn [crlf_text Z.eqb Pos.eqb]. by rewrite <- app_assoc.
Qed.

(** ** Lengths and characters *)

(** RFC 2045, 6.7: at most 76 characters in front of CR LF; the encoder stays
    below it. *)
Definition QP_LINE : nat := 76.

Lemma split_short p t : LF ∉ p -> (length p <= QP_LINE - 2)%nat ->
  Forall (fun l => (length l <= QP_LINE)%nat) (split_lines t) ->
  Forall (fun l => (length l <= QP_LINE)%nat) (split_lines (p ++ [CR; LF] ++ t)).
Proof.
  intros Hp Hl Ht. change ([CR; LF] ++ t) with ([CR] ++ LF :: t). rewrite app_assoc, split_lines_app by set_solver.
  constructor; [|done]. rewrite !length_app. cbn. unfold QP_LINE in *. lia.
Qed.

Lemma quoted_lf ch : 0 <= ch < 256 -> LF ∉ quoted ch.
Proof.
  intros Hc. destruct (hex_pair ch Hc) as (_ & _ & _ & _ & N1 & N2 & _). unfold quoted. set_unfold. naive_solver.
Qed.

Lemma qp_go_short k l : forall ec p t, Forall byte l -> LF ∉ l -> LF ∉ p ->
  Z.of_nat (length p) = ec + 1 -> ec <= 72 -> Forall (fun l => (length l <= QP_LINE)%nat) (split_lines t) ->
  Forall (fun l => (length l <= QP_LINE)%nat) (split_lines (p ++ (qp_go k l ec).1 ++ [CR; LF] ++ t)).
Proof.
  induction l as [|ch l IH]; intros ec p t Hb Hlf Hp He Hm Ht.
  { cbn [qp_go fst app]. apply split_short; [done | unfold QP_LINE; lia | done]. }
  apply Forall_cons in Hb as [Hch Hb]. apply not_elem_of_cons in Hlf as [Hc Hlf].
  cbn [qp_go]. set (q := qp_quotes k ch l (qp_column ec)).
  destruct (qp_go k l (if q then qp_column ec + 2 else qp_column ec)) as [o col'] eqn:Eg. cbn [fst].
  assert (forall p', LF ∉ p' -> Z.of_nat (length p') = qp_column ec -> qp_column ec <= 70 ->
    Forall (fun l => (length l <= QP_LINE)%nat) (split_lines (p' ++ (if q then quoted ch else [ch]) ++ o ++ [CR; LF] ++ t))) as Hchar.
  { intros p' Hp' Hl Hcol. rewrite (app_assoc p').
    specialize (IH (if q then qp_column ec + 2 else qp_column ec) (p' ++ (if q then quoted ch else [ch])) t Hb Hlf).
    rewrite Eg in IH. apply IH; [|rewrite length_app; destruct q; cbn; lia | destruct q; lia | done].
    pose proof (quoted_lf ch Hch). destruct q; set_solver. }
  unfold qp_column, qp_wraps in *. destruct (70 <? ec + 1) eqn:Ew.
  - cbn [app]. change ($"=" :: 13 :: 10 :: ?x) with ([$"="] ++ [CR; LF] ++ x). rewrite app_assoc.
    apply split_short; [set_solver | rewrite length_app; unfold QP_LINE; cbn; lia|].
    rewrite <- app_assoc. apply (Hchar []); [set_solver | done | lia].
  - cbn [app]. rewrite <- app_assoc. apply Hchar; [done | lia | lia].
Qed.

Lemma qp_lines_short ks : Forall (fun x => LF ∉ x.2) ks -> Forall (fun x => Forall byte x.2) ks ->
  Forall (fun l => (length l <= QP_LINE)%nat) (split_lines (concat (qp_line <$> ks))).
Proof.
  induction 1 as [|x ks Hx Hks IH]; intros Hb; [by constructor|]. apply Forall_cons in Hb as [Hbx Hb]. cbn [fmap list_fmap concat].
  unfold qp_line at 1. rewrite <- app_assoc. apply (qp_go_short x.1 x.2 (-1) []); [done | done | set_solver | done | lia | by apply IH].
Qed.

(** What RFC 2045 lets through as it is, and the line ends. *)
Definition qp_safe (ch : Z) : Prop := ch = 9 \/ ch = LF \/ ch = CR \/ 32 <= ch <= 126.

Ltac safe_chars := repeat (apply Forall_cons; split; [unfold qp_safe; lia|]); apply Forall_nil; exact I.

Lemma qp_go_safe k l : forall ec, Forall byte l -> LF ∉ l -> Forall qp_safe (qp_go k l ec).1.
Proof.
  induction l as [|ch l IH]; intros ec Hb Hlf; [by constructor|].
  apply Forall_cons in Hb as [Hch Hb]. apply not_elem_of_cons in Hlf as [Hc Hlf].
  cbn [qp_go]. set (q := qp_quotes k ch l (qp_column ec)).
  specialize (IH (if q then qp_column ec + 2 else qp_column ec) Hb Hlf). destruct (qp_go _ _ _) as [o col']. cbn [fst] in *.
  rewrite !Forall_app. split_and!; [destruct (qp_wraps ec); safe_chars | | done].
  destruct q eqn:Eq.
  - destruct (hex_pair ch Hch) as (_ & _ & _ & _ & _ & _ & H1 & H2 & _). unfold quoted. safe_chars.
  - destruct (unquoted _ _ _ _ (not_eq_sym Hc) Eq) as (_ & Hs & _). safe_chars.
Qed.

Lemma qp_lines_safe ks : Forall (fun x => LF ∉ x.2) ks -> Forall (fun x => Forall byte x.2) ks ->
  Forall qp_safe (concat (qp_line <$> ks)).
Proof.
  induction 1 as [|x ks Hx Hks IH]; intros Hb; [by constructor|]. apply Forall_cons in Hb as [Hbx Hb]. cbn [fmap list_fmap concat].
  unfold qp_line at 1. rewrite !Forall_app. split_and!; [by apply qp_go_safe | safe_chars | by apply IH].
Qed.

(** ** The body *)

(** The text of an encoded body *)
Lemma qp_body_text mode b : qp_mode mode -> Forall byte b -> b <> [] ->
  let w := mime_body mode b in
  crlf_text false true (nocr w) = w /\ line_start false (nocr w) = true /\
  Forall qp_safe w /\ Forall (fun l => (length l <= QP_LINE)%nat) (split_lines w) /\
  mime_body CONVERT_8BIT (nocr w) = crlf_text false true (completed b).
Proof.
  intros Hm Hb Hne w. destruct (mime_body_qp mode b Hm Hne) as (ks & [T L B] & Hk & E). specialize (B Hb). subst w. rewrite E.
  assert (line_start false (nocr (concat (qp_line <$> ks))) = true) as Hl.
  { destruct ks as [|x ks] using rev_ind; [done|]. rewrite fmap_app, concat_app. cbn [fmap list_fmap concat].
    rewrite app_nil_r, nocr_app, nocr_qp_line, app_assoc. apply line_start_snoc. }
  split_and!; [by apply qp_lines_wire | done | by apply qp_lines_safe | by apply qp_lines_short |].
  unfold mime_body. fold (dec_lines (nocr (concat (qp_line <$> ks))) (-1) 10). rewrite dec_qp_lines by done.
  rewrite Hl, T. cbn. by rewrite app_nil_r.
Qed.
