(* ===== verification/ScCommand.v ===== *)
(** * The SMTP client: the texts of MAIL and RCPT (deliver() in transports/smtp/smtp.c)

    The two commands are built in a buffer of 2000 characters. *)

From Stdlib Require Import ZArith Lia.
From stdpp Require Import base tactics numbers list option.
From S2P Require Import Prelude TaFile TaDiag TaCtl ScState.

#[local] Open Scope Z_scope.

(** [SMTPbuf], and where the copying of an address stops: [se] *)
Definition SMTPBUF : nat := 2000.
Definition SMTPBUF_SE : nat := 800.

(** ** Addresses *)

(** The local part of [u] behind [s]: the text, and what is left of [u].
    [quote] says that a quoted string is open. *)
Fixpoint copy_local (quote : bool) (u s : list Z) : list Z * list Z :=
  match u with
  | [] => (s, u)
  | c :: u' =>
      if (length s <? SMTPBUF_SE)%nat then
        if c =? $"\" then
          match u' with
          | [] => (s ++ [c], [])
          | c2 :: u2 => copy_local quote u2 (s ++ [c; c2])
          end
        else if c =? 34 then copy_local (negb quote) u' (s ++ [c])
        else if negb quote && (c =? $"@") then (s, u)
        else copy_local quote u' (s ++ [c])
      else (s, u)
  end.

(** Characters up to the mark *)
Definition copy_to_se (l s : list Z) : list Z := s ++ take (SMTPBUF_SE - length s) l.

(** [canon]: the rewriting of a domain by its CNAME, [None] when there is none. *)
Definition copy_domain (canon : list Z -> option (list Z)) (u s : list Z) : list Z :=
  match u with [] => s | _ => copy_to_se (default u (canon u)) s end.

(** ** MAIL *)

Section commands.
Variables (canon : list Z -> option (list Z)) (caps : Z).

Definition sender_local (user : list Z) : list Z * list Z := copy_local false user ($$"MAIL From:<").

(** The EZMLM mode: the tag and the spool id behind the local part *)
Definition ezmlm_tag (tag taspoolid s : list Z) : list Z :=
  let s := copy_to_se tag s in
  let s := if (length s <? SMTPBUF_SE)%nat then s ++ $$"-" else s in
  copy_to_se taspoolid s.

(** The domain that is looked up, when there is one *)
Definition behind_at (u : list Z) : list Z := match u with c :: u' => if c =? $"@" then u' else u | [] => [] end.
Definition sender_domain (user : list Z) : list Z := behind_at (sender_local user).2.

Definition sender_text (user : list Z) (ezmlm : option (list Z)) (taspoolid : list Z) (canonical : bool) : list Z :=
  let '(s, u) := sender_local user in
  let s := match ezmlm with Some tag => ezmlm_tag tag taspoolid s | None => s end in
  let '(s, u) := match u with c :: u' => if c =? $"@" then (s ++ [c], u') else (s, u) | [] => (s, u) end in
  copy_domain (if canonical then canon else fun _ => None) u s.

Definition mail_options (size : Z) (envid ret : option (list Z)) : list Z :=
  (if flag_set caps ESMTP_8BITMIME then $$" BODY=8BITMIME" else []) ++
  (if flag_set caps ESMTP_SIZEOPT then $$" SIZE=" ++ dec size else []) ++
  (if flag_set caps ESMTP_DSN then
     match envid with Some e => $$" ENVID=" ++ take 800 e | None => [] end ++
     match ret with Some r => $$" RET=" ++ take 20 r | None => [] end
   else []).

(** [sender] is [None] for the channel "error", whose address is empty. *)
Definition mail_text (sender : option (list Z)) (ezmlm : option (list Z)) (taspoolid : list Z) (canonical : bool)
    (size : Z) (envid ret : option (list Z)) : list Z :=
  match sender with
  | Some user => sender_text user ezmlm taspoolid canonical
  | None => $$"MAIL From:<"
  end ++ $$">" ++ mail_options size envid ret.

(** ** RCPT *)

Definition rcpt_address (user : list Z) : list Z :=
  let '(s, u) := copy_local false user ($$"RCPT To:<") in
  match u with
  | c :: u' => if c =? $"@" then copy_domain canon u' (s ++ [c]) else s
  | [] => s
  end ++ $$">".

Definition rcpt_domain (user : list Z) : list Z :=
  match (copy_local false user ($$"RCPT To:<")).2 with
  | c :: u' => if c =? $"@" then u' else []
  | [] => []
  end.

Definition notify_text (flgs : Z) : list Z :=
  if negb (flgs =? 0) then
    let success := flag_set flgs _DSN_NOTIFY_SUCCESS in
    let failure := flag_set flgs _DSN_NOTIFY_FAILURE in
    $$" NOTIFY=" ++
    (if flag_set flgs _DSN_NOTIFY_NEVER then $$"NEVER" else []) ++
    (if success then $$"SUCCESS" else []) ++
    (if failure then (if success then $$"," else []) ++ $$"FAILURE" else []) ++
    (if flag_set flgs _DSN_NOTIFY_DELAY then (if success || failure then $$"," else []) ++ $$"DELAY" else [])
  else $$" NOTIFY=FAILURE,DELAY".

(** A character of the xtext encoding (RFC 3461) *)
Definition HEX : list Z := $$"0123456789ABCDEF".
Definition xtext_char (c : Z) : list Z :=
  if ($"!" <=? c) && (c <=? $"~") && negb (c =? $"+") && negb (c =? $"=") then [c]
  else [$"+"; nth (Z.to_nat (Z.shiftr c 4)) HEX 0; nth (Z.to_nat (Z.land c 15)) HEX 0].

Definition orcpt_text (orcpt : option (list Z)) (user : list Z) : list Z :=
  match orcpt with
  | Some o => $$" ORCPT=" ++ take 800 o
  | None => $$" ORCPT=rfc822;" ++ concat (xtext_char <$> user)
  end.

Definition rcpt_text (user : list Z) (flgs : Z) (orcpt : option (list Z)) : list Z :=
  rcpt_address user ++
  if flag_set caps ESMTP_DSN then notify_text flgs ++ orcpt_text orcpt user else [].
End commands.
