(* ===== verification/ScDeliver.v ===== *)
(** * The SMTP client: delivery (deliver() and process() in transports/smtp/smtp.c)

    Recipients with the same sender and headers are delivered together: the
    connection is opened, the body is looked at for the conversion it needs,
    and MAIL, RCPT, DATA or BDAT and the message are sent.  A group may take
    several transactions, and a transaction that failed for want of a
    connection is tried once more.  The pointer to the next recipient that is
    cut and restored shows here as lists of recipients. *)

From Stdlib Require Import ZArith Lia.
From stdpp Require Import base tactics numbers list option.
From S2P Require Import Prelude TaFile TaDiag TaCtl ScState ScMx ScCname ScReply ScConnect ScBody ScCommand.

#[local] Open Scope Z_scope.

Definition SMTPSTATE_HELO : nat := 0.

(** ** What is around *)

(** What the functions of libta say about the headers of a recipient
    (mimeheaders.c and others): check_conv_prohibit(), the type and subtype of
    parse_content_type(), cte_check(), and whether downgrade_charset(),
    downgrade_headers() and qp_to_8bit() could do their work. *)
Record mime_view := MimeView {
  mv_conv_prohibit : Z;
  mv_content_type : option (option (list Z) * option (list Z));
  mv_cte : Z;
  mv_downgrade_charset : bool;
  mv_downgrade_headers : bool;
  mv_qp_to_8bit : bool
}.

(** The options of the process; time, and the headers that swriteheaders()
    finds. *)
Class DeliverEnv := {
  deliver_conn :: ConnEnv;
  no_pipelining : bool;
  force_7bit : Z;
  force_8bit : bool;
  ignore_ezmlm : bool;
  canon_mailfrom : bool;
  write_tabs : bool;
  myhostnameopt : bool;
  main_esmtp_on_banner : Z;
  over_20_seconds : list event -> bool;
  file_size : list event -> option Z;
  mime_of : list event -> nat -> mime_view;
  headers_of : list event -> nat -> option (list (list Z))
}.

Section deliver.
Context `{TaEnv, ScEnv, DeliverEnv}.
Variable fuel : nat.

(** ** Opening *)

Definition is_open : SC bool := fp ← read c_smtpfp; fd ← read c_fileno; mret (fp && fd).

Definition close_if_open : SC unit := fp ← read c_smtpfp; when_ fp smtpclose.

(** The name of this host, or of its interface *)
Definition client_name : SC (list Z) :=
  name ← read c_myhostname;
  mret (take 200 (if myhostnameopt then myhostname else default myhostname name)).

(** EHLO, or LHLO; when the connection is lost with it, a new one for HELO. *)
Definition open_ehlo : SC Z :=
  banner ← read c_esmtp_on_banner;
  if lmtp_mode || ((-2 <? banner) && (force_7bit <? 2)) then
    name ← client_name;
    smtp_ehlo fuel ((if lmtp_mode then $$"LHLO " else $$"EHLO ") ++ name)
  else mret EX_OK.

Definition open_helo (ehlo : Z) : SC Z :=
  caps ← read c_ehlo_capabilities;
  i ← (if (ehlo =? EX_OK) && flag_set caps ESMTP_AUTH && authpasswdfile then smtpauth fuel else mret ehlo);
  banner ← read c_esmtp_on_banner;
  if (-2 <? banner) && (i =? EX_OK) then mret i
  else if lmtp_mode then mret i
  else
    name ← client_name;
    let helo := $$"HELO " ++ name in
    i ← smtp_ehlo fuel helo;
    when_ (negb (i =? EX_OK)) close_if_open;;
    up ← is_open;
    if (i =? EX_TEMPFAIL) || negb up then
      close_if_open;;
      i ← makereconn fuel;
      if negb (i =? EX_OK) then mret i
      else
        update (set_c_rcptstates 0);;
        i ← smtpwrite fuel (Some helo) 0 None;
        when_ (negb (i =? EX_OK)) close_if_open;;
        mret i
    else mret i.

(** One host of the list *)
Definition open_round : SC Z :=
  update (set_c_esmtp_on_banner main_esmtp_on_banner);;
  update (set_c_ehlo_capabilities 0);;
  update (set_c_ehlo_sizeval 0);;
  update (set_c_rcpt_limit 100);;
  i ← smtpconn fuel;
  if negb (i =? EX_OK) then mret i
  else
    update (set_c_cmdstate SMTPSTATE_HELO);;
    banner ← read c_esmtp_on_banner;
    i ← open_ehlo;
    if (i =? EX_TEMPFAIL) && negb lmtp_mode && ((-2 <? banner) && (force_7bit <? 2)) then
      i ← makereconn fuel;
      if negb (i =? EX_OK) then mret i else open_helo EX_TEMPFAIL
    else open_helo i.

Fixpoint open_loop (n : nat) : SC Z :=
  match n with
  | O => exit ScFuel
  | S n =>
      i ← open_round;
      first ← read c_firstmx;
      count ← read c_mxcount;
      if (i =? EX_TEMPFAIL) && (first <? count)%nat then open_loop n else mret i
  end.

Definition smtpopen : SC Z := smtp_flush;; open_loop fuel.

(** ** The conversion *)

Definition text_plain (ct : option (list Z) * option (list Z)) : bool :=
  match ct with
  | (Some base, Some sub) => CISTREQ base ($$"text") && CISTREQ sub ($$"plain")
  | _ => false
  end.
Definition is_multipart (ct : option (option (list Z) * option (list Z))) : bool :=
  match ct with Some (Some base, _) => CISTREQ base ($$"multipart") | _ => false end.

Definition conv_prohibited (m : mime_view) : Z :=
  match mv_content_type m with
  | Some ct => if text_plain ct then mv_conv_prohibit m else -1
  | None => mv_conv_prohibit m
  end.

Definition drop_8bitmime : SC unit :=
  update (fun c => set_c_ehlo_capabilities (Z.land (c_ehlo_capabilities c) (Z.lnot ESMTP_8BITMIME)) c).

(** [kind] is what cte_check() found: 0 for no MIME, 8 for 8BIT, 9 for
    Quoted-Printable. *)
Definition mode_of_kind (m : mime_view) (kind : Z) (ascii_clean takes_8bit : bool) : CONVERTMODE :=
  if kind =? 0 then
    if negb takes_8bit && negb ascii_clean && negb force_8bit then CONVERT_UNKNOWN else CONVERT_NONE
  else if kind =? 8 then
    if (negb (force_7bit =? 0) || negb takes_8bit) && negb ascii_clean && negb force_8bit then
      if mv_downgrade_headers m then CONVERT_QP else CONVERT_NONE
    else CONVERT_NONE
  else if kind =? 9 then
    if force_8bit || takes_8bit then if mv_qp_to_8bit m then CONVERT_8BIT else CONVERT_NONE else CONVERT_NONE
  else CONVERT_NONE.

Definition choose_mode (id : nat) (prohibit : Z) (ascii_clean : bool) : SC CONVERTMODE :=
  tr ← read c_trace;
  let m := mime_of tr id in
  if 0 <=? prohibit then
    let kind := mv_cte m in
    let kind := if ascii_clean && (kind =? 8) && mv_downgrade_charset m then 7 else kind in
    when_ (prohibit =? 7) drop_8bitmime;;
    when_ (negb (force_7bit =? 0)) drop_8bitmime;;
    caps ← read c_ehlo_capabilities;
    mret (mode_of_kind m kind ascii_clean (flag_set caps ESMTP_8BITMIME))
  else
    caps ← read c_ehlo_capabilities;
    mret (if (prohibit =? -1) && is_multipart (mv_content_type m) &&
             (negb (force_7bit =? 0) || negb (flag_set caps ESMTP_8BITMIME)) && negb ascii_clean
          then CONVERT_MULTIPARTQP else CONVERT_NONE).

(** ** Reports *)

(** For each recipient of the list that still has its lock *)
Fixpoint for_locked (ids : list nat) (f : nat -> SC unit) : SC unit :=
  match ids with
  | [] => mret tt
  | id :: ids =>
      rp ← get_rcpt id;
      when_ (negb (r_lockoffset rp =? 0)%nat) (f id);;
      for_locked ids f
  end.

(** [if (rp->status == EX_OK) rp->status = r] *)
Definition status_or (id : nat) (r : Z) : SC Z :=
  rp ← get_rcpt id;
  let st := if r_status rp =? EX_OK then r else r_status rp in
  set_rcpt (set_r_status st rp);;
  mret st.

(** The failure of a whole group *)
Definition report_group (ids : list nat) (a3 a4 : option (list Z)) (r : Z) (text : option (list Z)) : SC unit :=
  for_locked ids (fun id =>
    notary_user id FAILED a3 a4;;
    st ← status_or id r;
    msg ← remotemsg;
    sc_diagnostic id st 0 ($$"%s") (default msg text)).

(** ** The transaction *)

(** Where a transaction goes on, with the code it has. *)
Inductive label := ReOpen | MoreRecipients | PostCleanup.

(** The recipients from startrp to endrp; those behind a cut, when there are
    any, as more_rp has them; those lost behind one that is not restored, and
    whether endrp is; the tries that are left; the variables early_bdat_sync,
    doing_reopen and convertmode. *)
Record place := Place {
  l_ids : list nat;
  l_more : option (list nat);
  l_lost : list nat;
  l_broken : bool;
  l_once : Z;
  l_early : bool;
  l_reopen : bool;
  l_mode : CONVERTMODE
}.
Definition set_l_mode m l := Place (l_ids l) (l_more l) (l_lost l) (l_broken l) (l_once l) (l_early l) (l_reopen l) m.
Definition set_l_reopen l := Place (l_ids l) (l_more l) (l_lost l) (l_broken l) (l_once l) (l_early l) true (l_mode l).
Definition set_l_early e l := Place (l_ids l) (l_more l) (l_lost l) (l_broken l) (l_once l) e (l_reopen l) (l_mode l).
Definition set_l_ids ids l := Place ids (l_more l) (l_lost l) (l_broken l) (l_once l) (l_early l) (l_reopen l) (l_mode l).
Definition set_l_once n l := Place (l_ids l) (l_more l) (l_lost l) (l_broken l) n (l_early l) (l_reopen l) (l_mode l).

Definition next_step : Type := label * place * Z.
Definition goto (lb : label) (l : place) (r : Z) : SC next_step := mret (lb, l, r).

(** *** MAIL *)

(** The CNAME of a domain, when there is a domain *)
Definition domain_name (u : list Z) : SC (option (list Z)) := match u with [] => mret None | _ => cname_lookup u end.

Definition mail_command (id : nat) : SC (list Z) :=
  rp ← get_rcpt id;
  d ← read c_desc;
  let str := ctlstr (d_contents d) in
  let sender := if STREQ (str (a_channel (r_sender rp))) ($$"error") then None else Some (str (a_user (r_sender rp))) in
  let ezmlm := if ignore_ezmlm then None else str <$> r_ezmlm rp in
  canon ← match sender with
          | Some user => if canon_mailfrom then domain_name (sender_domain user) else mret None
          | None => mret None
          end;
  caps ← read c_ehlo_capabilities;
  mret (mail_text (fun _ => canon) caps sender ezmlm (d_taspoolid d) canon_mailfrom
          (d_msgsizeestimate d) (str <$> d_envid d) (str <$> d_dsnretmode d)).

(** A command longer than its buffer is written behind it. *)
Definition in_buffer (text : list Z) : SC (list Z) :=
  if (length text <? SMTPBUF)%nat then mret text else exit ScSegv.

(** After MAIL has failed *)
Definition mail_failed (pipelining : bool) (l : place) (r : Z) : SC next_step :=
  fp ← read c_smtpfp;
  when_ fp
    (b ← has_readable;
     when_ b (update (set_c_cmdstate SMTPSTATE_RCPTTO);; smtp_sync fuel false;; smtpclose));;
  fp ← read c_smtpfp;
  r ← (if fp && pipelining then smtp_sync fuel false else mret r);
  fp ← read c_smtpfp;
  if negb fp && (0 <? l_once l) then goto ReOpen (set_l_reopen l) EX_TEMPFAIL
  else
    update (set_c_cmdstate SMTPSTATE_RCPTTO);;
    when_ (negb (r =? EX_TEMPFAIL) && negb fp)
      (for_locked (l_ids l) (fun id =>
         notary_user id FAILED (Some ($$"5.5.0 (Undetermined protocol error)")) None;;
         msg ← remotemsg;
         sc_diagnostic id r 0 ($$"%s") msg));;
    goto MoreRecipients l r.

(** *** RCPT *)

(** A pointer to a recipient: [None] is NULL, [Some []] is endrp, whose id is
    [endrp]. *)
Definition rest_of (endrp : option nat) (rest : list nat) : option (list nat) :=
  match rest, endrp with
  | [], None => None
  | _, _ => Some rest
  end.
Definition ezmlm_at (endrp : option nat) (p : option (list nat)) : SC bool :=
  match p with
  | None => mret false
  | Some l =>
      match l ++ option_list endrp with
      | id :: _ => rp ← get_rcpt id; mret (bool_decide (is_Some (r_ezmlm rp)))
      | [] => mret false
      end
  end.

(** rp->next and more_rp behind the three places that cut the list *)
Definition cut_list (endrp : option nat) (rp : rcpt) (full : bool) (rest : list nat) : SC (option (list nat) * option (list nat)) :=
  let ez := negb ignore_ezmlm && bool_decide (is_Some (r_ezmlm rp)) in
  let next := rest_of endrp rest in
  let '(next, more) := if full then (None, next) else (next, None) in
  let '(next, more) := if ez then (None, next) else (next, more) in
  nez ← ezmlm_at endrp next;
  mret (if negb ignore_ezmlm && negb (bool_decide (is_Some (r_ezmlm rp))) && nez then (None, next) else (next, more)).

(** What the loop leaves: the recipients up to the cut, more_rp, those behind
    a cut that more_rp does not have, nrcpt and the last code. *)
Record rcpts_sent := RcptsSent {
  rs_group : list nat;
  rs_more : option (list nat);
  rs_lost : option (list nat);
  rs_nrcpt : Z;
  rs_r : Z
}.
Definition cons_group id s := RcptsSent (id :: rs_group s) (rs_more s) (rs_lost s) (rs_nrcpt s) (rs_r s).

Definition rcpt_command (rp : rcpt) : SC (list Z) :=
  d ← read c_desc;
  let str := ctlstr (d_contents d) in
  canon ← domain_name (rcpt_domain (str (a_user (r_addr rp))));
  caps ← read c_ehlo_capabilities;
  in_buffer (rcpt_text (fun _ => canon) caps (str (a_user (r_addr rp))) (r_notifyflgs rp) (str <$> r_orcpt rp)).

Definition pipeline_arg (pipelining : bool) : Z := if pipelining then ESMTP_PIPELINING else 0.

(** RCPT was not taken; false when the connection is lost. *)
Definition rcpt_failed (pipelining : bool) (id : nat) (r : Z) : SC (Z * bool) :=
  up ← is_open;
  let r := if negb up then EX_TEMPFAIL else r in
  when_ (negb pipelining)
    (add_states (if r =? EX_TEMPFAIL then RCPTSTATE_400 else RCPTSTATE_500);;
     rp ← get_rcpt id;
     set_rcpt (set_r_status r rp));;
  fp ← read c_smtpfp;
  r ← (if (fp : bool) then if pipelining then smtp_sync fuel false else mret r else mret EX_TEMPFAIL);
  notary_user id FAILED None None;;
  msg ← remotemsg;
  sc_diagnostic id r 0 ($$"%s") msg;;
  fp ← read c_smtpfp;
  mret (r, fp).

Fixpoint rcpt_loop (pipelining : bool) (endrp : option nat) (ids : list nat) (rcpt_cnt nrcpt r : Z) : SC rcpts_sent :=
  match ids with
  | [] => mret (RcptsSent [] None None nrcpt r)
  | id :: rest =>
      rp ← get_rcpt id;
      if (r_lockoffset rp =? 0)%nat then
        s ← rcpt_loop pipelining endrp rest rcpt_cnt nrcpt r;
        mret (cons_group id s)
      else
        set_rcpt (set_r_status EX_OK rp);;
        limit ← read c_rcpt_limit;
        x ← cut_list endrp rp (limit <=? rcpt_cnt + 1) rest;
        let '(next, more) := x in
        let cut := bool_decide (next = None) in
        let lost := if cut && bool_decide (more = None) then rest_of endrp rest else None in
        update (set_c_cmdstate SMTPSTATE_RCPTTO);;
        text ← rcpt_command rp;
        r ← smtpwrite fuel (Some text) (pipeline_arg pipelining) (Some id);
        y ← (if negb (r =? EX_OK) then x ← rcpt_failed pipelining id r; mret (x, nrcpt)
             else
               when_ (negb pipelining) (add_states RCPTSTATE_OK);;
               update (fun c => set_c_rcptcnt (c_rcptcnt c + 1) c);;
               rp ← get_rcpt id;
               set_rcpt (set_r_status EX_OK rp);;
               mret (r, true, nrcpt + 1));
        let '(r, go_on, nrcpt) := y in
        if cut then mret (RcptsSent [id] more lost nrcpt r)
        else if negb go_on then mret (RcptsSent (id :: rest) None None nrcpt r)
        else
          s ← rcpt_loop pipelining endrp rest (rcpt_cnt + 1) nrcpt r;
          mret (cons_group id s)
  end.

Definition place_sent (s : rcpts_sent) (l : place) : place :=
  let lost := default [] (rs_lost s) in
  Place (rs_group s) (rs_more s) (lost ++ l_lost l)
    (l_broken l || bool_decide (rs_lost s = Some [] /\ l_lost l = []))
    (l_once l) (l_early l) (l_reopen l) (l_mode l).

(** *** DATA or BDAT *)

(** DATA was refused. *)
Definition data_failed (r : Z) : SC Z :=
  fp ← read c_smtpfp;
  data_ok ← has_states DATASTATE_OK;
  r ← (if fp && data_ok then smtpclose;; mret EX_TEMPFAIL else mret r);
  fp ← read c_smtpfp;
  rcpt_400 ← has_states RCPTSTATE_400;
  from_ok ← has_states FROMSTATE_OK;
  if fp && rcpt_400 && from_ok then
    update (set_c_rcptstates 0);;
    smtp_flush;;
    smtpwrite fuel (Some ($$"QUIT")) (-1) None;;
    smtpclose;;
    update (set_c_close_after_data true);;
    mret EX_TEMPFAIL
  else mret r.

(** The envelope is out; [inl] when this was all, with the code. *)
Definition data_phase (pipelining : bool) (l : place) (r : Z) : SC (place * option Z) :=
  update (set_c_chunkbuf None);;
  update (set_c_cmdstate SMTPSTATE_DATA);;
  update (set_c_doing_chunking false);;
  chunking ← read c_chunking;
  d ← read c_desc;
  if chunking && (d_msgsizeestimate d <? CHUNK_MAX_SIZE) then
    update (set_c_doing_chunking true);;
    let l := if negb pipelining then set_l_early true l else l in
    fp ← read c_smtpfp;
    r ← (if fp && l_early l then smtp_sync fuel false else mret r);
    if negb (r =? EX_OK) then report_group (l_ids l) None None r None;; mret (l, Some r)
    else mret (l, None)
  else
    r ← smtpwrite fuel (Some ($$"DATA")) 0 None;
    if negb (r =? EX_OK) then
      r ← data_failed r;
      report_group (l_ids l) None None r None;;
      mret (l, Some r)
    else mret (l, None).

(** *** The message *)

(** swriteheaders() and the empty line; [None] when it failed. *)
Definition header_phase (id : nat) : SC (option Z) :=
  tr ← read c_trace;
  chunking ← read c_doing_chunking;
  match headers_of tr id with
  | None => mret None
  | Some hdrs =>
      if (chunking : bool) then
        let chunk := chunk_headers write_tabs hdrs ++ newline in
        let n := Z.of_nat (length chunk) in
        update (set_c_chunkbuf (Some chunk));;
        update (set_c_chunkspace n);;
        mret (Some n)
      else
        fp ← read c_smtpfp;
        if negb fp then exit ScSegv
        else
          r ← put_headers write_tabs hdrs 0;
          match r with
          | None => mret None
          | Some n =>
              bad ← read c_sferror;
              when_ (negb bad) (sfwrite newline;; mret tt);;
              bad ← read c_sferror;
              mret (if (bad : bool) then None else Some n)
          end
  end.

(** The loop over the recipients looks for endrp only, and does not find it
    behind a cut. *)
Definition header_failed (l : place) (endrp : option nat) : SC Z :=
  report_group (l_ids l) (Some ($$"5.4.2 (Message header write failure)"))
    (Some ($$"smtp; 566 (Message header write failure)")) EX_TEMPFAIL (Some ($$"header write error"));;
  (if bool_decide (is_Some endrp) && (bool_decide (is_Some (l_more l)) || negb (bool_decide (l_lost l = [])) || l_broken l)
   then exit ScSegv else mret tt);;
  close_if_open;;
  update (set_c_chunkbuf None);;
  mret EX_TEMPFAIL.

Definition body_failed (l : place) (r : Z) : SC Z :=
  report_group (l_ids l) (Some ($$"5.4.2 (Message write timed out;2)"))
    (Some ($$"smtp; 566 (Message write timed out;2)")) r None;;
  close_if_open;;
  update (set_c_chunkbuf None);;
  mret EX_TEMPFAIL.

(** The end of the message: its last chunk, or the dot *)
Definition dot_phase : SC Z :=
  update (set_c_gotalarm false);;
  update (set_c_cmdstate SMTPSTATE_DATADOT);;
  when_ lmtp_mode (update (set_c_rcptstates 0));;
  chunking ← read c_doing_chunking;
  if (chunking : bool) then bdat_flush fuel true
  else
    fp ← read c_smtpfp;
    when_ fp (sfsync;; mret tt);;
    r ← smtpwrite fuel (Some ($$".")) (if lmtp_mode then 1 else 0) None;
    if lmtp_mode && (r =? EX_OK) then smtp_sync fuel false else mret r.

Definition dot_failed (l : place) (r : Z) : SC Z :=
  for_locked (l_ids l) (fun id =>
    notary_user id FAILED None None;;
    st ← status_or id r;
    msg ← remotemsg;
    when_ (negb (r =? EX_TEMPFAIL)) (sc_diagnostic id st 0 ($$"%s") msg));;
  alarm ← read c_gotalarm;
  when_ alarm close_if_open;;
  update (set_c_chunkbuf None);;
  mret r.

(** *** Success *)

Definition report_success (id : nat) : SC unit :=
  caps ← read c_ehlo_capabilities;
  rp ← get_rcpt id;
  let flgs := if flag_set caps ESMTP_DSN then Z.land (r_notifyflgs rp) (Z.lnot _DSN_NOTIFY_SUCCESS) else r_notifyflgs rp in
  set_rcpt (set_r_status EX_OK (set_r_notifyflgs flgs rp));;
  notary_user id (Some (if flag_set flgs _DSN_NOTIFY_SUCCESS then $$"relayed" else $$"-")) None None;;
  msg ← remotemsg;
  sc_diagnostic id EX_OK 0 ($$"%s") msg.

Definition quit_close : SC unit :=
  update (set_c_rcptstates 0);;
  smtpwrite fuel (Some ($$"QUIT")) (-1) None;;
  smtpclose.

Definition message_done (ids : list nat) : SC unit :=
  for_locked ids report_success;;
  fp ← read c_smtpfp;
  rcpt_400 ← has_states RCPTSTATE_400;
  from_ok ← has_states FROMSTATE_OK;
  when_ (fp && rcpt_400 && from_ok) (quit_close;; update (set_c_close_after_data true));;
  fp ← read c_smtpfp;
  close ← read c_close_after_data;
  when_ (fp && close) quit_close;;
  update (set_c_do_rset false).

(** From DATA on *)
Definition send_message (pipelining : bool) (endrp : option nat) (l : place) (r : Z) : SC next_step :=
  x ← data_phase pipelining l r;
  let '(l, failed) := x in
  match failed, l_ids l with
  | Some r, _ => goto MoreRecipients l r
  | None, [] => exit ScSegv
  | None, id :: _ =>
      h ← header_phase id;
      match h with
      | None => r ← header_failed l endrp; goto MoreRecipients l EX_OK
      | Some hsize =>
          update (set_c_hsize hsize);;
          update (fun c => set_c_msize (if 0 <=? c_msize c then c_msize c + hsize else c_msize c - (hsize - 1)) c);;
          r ← appendlet fuel (l_mode l);
          if negb (r =? EX_OK) then r ← body_failed l r; goto MoreRecipients l r
          else
            r ← dot_phase;
            if negb (r =? EX_OK) then r ← dot_failed l r; goto MoreRecipients l r
            else message_done (l_ids l);; goto MoreRecipients l r
      end
  end.

(** *** The whole transaction *)

Definition transaction (endrp : option nat) (l : place) : SC next_step :=
  match l_ids l with
  | [] => exit ScSegv
  | id :: _ =>
      update (set_c_rcptstates 0);;
      smtp_flush;;
      tr ← read c_trace;
      d ← read c_desc;
      update (set_c_msize (match file_size tr with Some n => n - d_msgbodyoffset d | None => -1 end));;
      update (set_c_do_rset true);;
      text ← mail_command id;
      text ← in_buffer text;
      pipelining ← read c_pipelining;
      r ← smtpwrite fuel (Some text) (pipeline_arg pipelining) None;
      up ← is_open;
      let r := if negb up then EX_TEMPFAIL else r in
      if negb (r =? EX_OK) then mail_failed pipelining l r
      else
        s ← rcpt_loop pipelining endrp (l_ids l) 0 0 r;
        let l := place_sent s l in
        if rs_nrcpt s =? 0 then
          update (set_c_cmdstate SMTPSTATE_DATA);;
          rcpt_400 ← has_states RCPTSTATE_400;
          goto MoreRecipients l (if (rcpt_400 : bool) then EX_TEMPFAIL else EX_UNAVAILABLE)
        else
          fp ← read c_smtpfp;
          if negb fp then goto MoreRecipients l EX_TEMPFAIL
          else send_message pipelining endrp l (rs_r s)
  end.

(** ** deliver() *)

(** [re_open:] *)
Definition re_open (prohibit : Z) (l : place) : SC next_step :=
  match l_ids l with
  | [] => exit ScSegv
  | id :: _ =>
      fp ← read c_smtpfp;
      status ← (if negb fp then when_ (l_reopen l) (update (set_c_firstmx O));; smtp_flush;; update (set_c_cmdstate O);; smtpopen else mret EX_OK);
      if negb (status =? EX_OK) then
        let status := if l_reopen l then EX_TEMPFAIL else status in
        for_locked [id] (fun id =>
          notary_user id FAILED None None;;
          msg ← remotemsg;
          sc_diagnostic id status 60 ($$"%s") msg);;
        goto PostCleanup l status
      else
        caps ← read c_ehlo_capabilities;
        update (set_c_pipelining (flag_set caps ESMTP_PIPELINING && negb no_pipelining));;
        update (set_c_chunking (flag_set caps ESMTP_CHUNKING));;
        clean ← check_7bit_cleanness fuel;
        mode ← choose_mode id prohibit clean;
        let l := set_l_mode mode l in
        caps ← read c_ehlo_capabilities;
        size ← read c_ehlo_sizeval;
        d ← read c_desc;
        if flag_set caps ESMTP_SIZEOPT && (0 <? size) && (size <? d_msgsizeestimate d) then
          let text := $$"552 (Current message size " ++ dec (d_msgsizeestimate d) ++
            $$" exceeds limit given by the remote system: " ++ dec size ++ $$")" in
          for_locked (l_ids l) (fun id =>
            notary_user id FAILED (Some ($$"5.3.4 (Message size exceeds limit given by remote system)"))
              (Some ($$"smtp; " ++ text));;
            sc_diagnostic id EX_UNAVAILABLE 0 ([13; 13] ++ $$"%s") text);;
          goto PostCleanup l EX_UNAVAILABLE
        else goto MoreRecipients l EX_OK
  end.

(** Recipients at the head of the list that have their report *)
Fixpoint skip_reported (ids : list nat) : SC (list nat) :=
  match ids with
  | [] => mret []
  | id :: rest => rp ← get_rcpt id; if (r_lockoffset rp =? 0)%nat then skip_reported rest else mret ids
  end.

(** [more_recipients:] *)
Definition more_recipients (endrp : option nat) (l : place) (r : Z) : SC next_step :=
  let l := match l_more l with
           | Some ids => Place ids None (l_lost l) (l_broken l) 1 (l_early l) (l_reopen l) (l_mode l)
           | None => l
           end in
  ids ← skip_reported (l_ids l);
  let l := set_l_ids ids l in
  getout ← read c_getout;
  if (l_once l <? 1) || getout || bool_decide (ids = []) then
    update (set_c_chunkbuf None);; goto PostCleanup l r
  else
    let l := set_l_once (l_once l - 1) l in
    fp ← read c_smtpfp;
    if negb fp then goto ReOpen (set_l_reopen l) EX_TEMPFAIL
    else
      tr ← read c_trace;
      when_ (over_20_seconds tr) (update (set_c_do_rset true));;
      rset ← read c_do_rset;
      if (rset : bool) then
        update (set_c_rcptstates 0);;
        smtp_flush;;
        r ← smtpwrite fuel (Some ($$"RSET")) 0 None;
        if negb (r =? EX_OK) then smtpclose;; goto ReOpen (set_l_reopen l) EX_TEMPFAIL
        else transaction endrp l
      else transaction endrp l.

Fixpoint deliver_loop (n : nat) (prohibit : Z) (endrp : option nat) (lb : label) (l : place) (r : Z) : SC (Z * place) :=
  match n with
  | O => exit ScFuel
  | S n =>
      match lb with
      | PostCleanup => mret (r, l)
      | ReOpen => x ← re_open prohibit l; let '(lb, l, r) := x in deliver_loop n prohibit endrp lb l r
      | MoreRecipients => x ← more_recipients endrp l r; let '(lb, l, r) := x in deliver_loop n prohibit endrp lb l r
      end
  end.

(** Each transaction ends with a shorter list or with fewer tries left, and
    may open the connection anew before the next. *)
Definition deliver_rounds (ids : list nat) : nat := 4 * length ids + 8.

Definition deliver (ids : list nat) (endrp : option nat) : SC (Z * place) :=
  match ids with
  | [] => exit ScSegv
  | id :: _ =>
      tr ← read c_trace;
      deliver_loop (deliver_rounds ids) (conv_prohibited (mime_of tr id)) endrp ReOpen
        (Place ids None [] false 2 false false CONVERT_NONE) EX_TEMPFAIL
  end.

(** ** process() *)

(** Recipients with the same sender and the same headers *)
Definition same_address (a b : taddress) : bool :=
  (a_channel a =? a_channel b)%nat && (a_host a =? a_host b)%nat && (a_user a =? a_user b)%nat && (a_misc a =? a_misc b)%nat.
Definition same_group (a b : rcpt) : bool :=
  same_address (r_sender a) (r_sender b) && bool_decide (r_newmsgheader a = r_newmsgheader b).
Fixpoint rcpt_groups (rps : list rcpt) : list (list nat) :=
  match rps with
  | [] => []
  | rp :: rest =>
      match rcpt_groups rest with
      | g :: gs =>
          if match head rest with Some rp2 => same_group rp rp2 | None => false end
          then (r_id rp :: g) :: gs else [r_id rp] :: g :: gs
      | [] => [[r_id rp]]
      end
  end.

(** A group that was tried: who has no report yet is deferred. *)
Definition process_group (ids : list nat) (endrp : option nat) : SC place :=
  x ← deliver ids endrp;
  let '(_, l) := x in
  for_locked (filter (fun id => id ∉ l_lost l) ids) (fun id =>
    notary_user id FAILED None None;;
    msg ← remotemsg;
    sc_diagnostic id EX_TEMPFAIL 60 ($$"%s") msg);;
  mret l.

(** A group behind the first: the report is that of its last recipient. *)
Definition defer_group (ids : list nat) : SC unit :=
  for_locked ids (fun id =>
    notary_user (List.last ids id) FAILED (Some ($$"5.0.0 (Target status indeterminable)")) None;;
    msg ← remotemsg;
    sc_diagnostic id EX_TEMPFAIL 60 ($$"%s") msg).

Fixpoint defer_groups (groups : list (list nat)) : SC unit :=
  match groups with
  | [] => mret tt
  | g :: gs => defer_group g;; defer_groups gs
  end.

(** [procabort] does not come. *)
Definition process : SC unit :=
  update (set_c_firstmx O);;
  update (fun c => set_c_remotemsg (<[O := 0]> (c_remotemsg c)) c);;
  d ← read c_desc;
  match rcpt_groups (d_recipients d) with
  | [] => mret tt
  | g :: gs =>
      l ← process_group g (head (concat gs));
      if l_broken l then mret tt else defer_groups gs
  end.
End deliver.
