(* ===== verification/ScDemo.v ===== *)
(** * The SMTP client: a scripted server

    Instances of the environments of the client: a server that answers with
    given texts, a message file, and a control file that ctlopen() has read.
    They evaluate the definitions on concrete deliveries, and show that the
    hypotheses of the theorems can hold. *)

From Stdlib Require Import ZArith Lia.
From stdpp Require Import base tactics numbers list option.
From S2P Require Import Prelude TaFile TaDiag TaCtl TaProps ScState ScMx ScCname ScReply ScConnect ScBody ScCommand ScDeliver.

#[local] Open Scope Z_scope.

Definition crlf (l : list Z) : list Z := l ++ [13; 10].

(** ** The server *)

Definition is_nbread (e : event) : bool := match e with EvNbread => true | _ => false end.
Definition reads_so_far (tr : list event) : nat := length (List.filter is_nbread tr).

(** Reading gives the entries of the script one after the other, and then the
    end of the connection. *)
Definition scripted (script : list nb_result) (readable : bool) : ScEnv :=
  {| lmtp_mode := false;
     ta_use_mmap := false;
     sc_put := fun _ => PutOk;
     sc_nbread := fun tr => default (NbData []) (script !! reads_so_far tr);
     sc_select := fun _ => 1;
     sc_readable := fun _ => readable;
     sc_file := fun _ => FileBytes 1000;
     sc_timeout := fun _ => 600;
     sc_strerror := fun _ => $$"error" |}.

Definition says (ls : list (list Z)) : list nb_result := (fun l => NbData (crlf l)) <$> ls.

(** ** Names and connections *)

(** A name is one label: its length and its characters. *)
Definition demo_name (l : list Z) : list Z := Z.of_nat (length l) :: l.
Definition demo_expand (a : list Z) (p size : Z) : option (Z * list Z) :=
  let k := byte_at a p in
  if (0 <=? p) && (p + k <? Z.of_nat (length a)) && (k <? size)
  then Some (k + 1, take (Z.to_nat k) (drop (Z.to_nat p + 1) a)) else None.

Definition demo_skip (a : list Z) (p : Z) : option Z :=
  let k := byte_at a p in if (0 <=? p) && (p + k <? Z.of_nat (length a)) then Some (k + 1) else None.

Definition two_bytes (n : Z) : list Z := [n / 256; n mod 256].

(** An answer for a domain with these preferences and hosts *)
Definition mx_record (m : Z * list Z) : list Z :=
  demo_name ($$"a.org") ++ two_bytes T_MX ++ two_bytes C_IN ++ [0; 0; 14; 16] ++
  two_bytes (Z.of_nat (length m.2) + 3) ++ two_bytes (m.1) ++ demo_name (m.2).
Definition demo_answer (hosts : list (Z * list Z)) : list Z :=
  [0; 0; 129; 128] ++ two_bytes 1 ++ two_bytes (Z.of_nat (length hosts)) ++ [0; 0; 0; 0] ++
  demo_name ($$"a.org") ++ two_bytes T_MX ++ two_bytes C_IN ++ concat (mx_record <$> hosts).

Definition demo_addr (af : family) (l : list Z) : addrinfo := Addrinfo af l None.

(** The addresses of a host, by its name *)
Definition demo_dns (prefer : bool) (hosts : list (Z * list Z)) (addrs : list Z -> list addrinfo) : DnsEnv :=
  {| use_ipv6 := true;
     prefer_ip6 := prefer;
     checkwks := false;
     myhostname := $$"client.org";
     sc_now := fun _ => 1000;
     sc_h_errno := fun _ => 0;
     my_addresses := fun _ => Some [demo_addr AF_INET [10; 0; 0; 1]];
     mx_query := fun _ _ => Answer (demo_answer hosts);
     dn_expand := demo_expand;
     dn_skipname := demo_skip;
     getaddrinfo := fun _ h af =>
       match List.filter (fun a => bool_decide (ai_family a = af)) (addrs h) with [] => (EAI_NODATA, []) | l => (GaiOk, l) end;
     gai_number := fun _ => -5;
     gai_strerror := fun _ => $$"no data";
     getrrtype_wks := fun _ _ => true;
     getrr_wks := fun _ _ => true;
     sc_rand := fun _ => 7%nat |}.

Definition demo_conn (dns : DnsEnv) : ConnEnv :=
  {| conn_dns := dns;
     smtp_host := $$"a.org";
     noMX := 0;
     punthost := false;
     servport := IPPORT_SMTP;
     wantreserved := false;
     rc_garbage := EX_OK;
     inet_ntop := fun a => concat ((fun b => dec b ++ $$".") <$> ai_addr a);
     sys_socket := fun _ => true;
     sys_bind := fun _ _ => BindOk;
     sys_connect := fun _ _ _ => (0, false);
     sys_sockname := fun _ => Some ($$"10.0.0.1|9999");
     sys_ifname := fun _ => Some ($$"client.org");
     authpasswdfile := false;
     auth_secrets := fun _ => None;
     sel_channel := Some ($$"smtp") |}.

(** One host with one address *)
Definition one_host : DnsEnv := demo_dns false [(10, $$"mx.a.org")] (fun _ => [demo_addr AF_INET [10; 0; 0; 2]]).

Definition demo_deliver (nopl : bool) (headers : list (list Z)) : DeliverEnv :=
  {| deliver_conn := demo_conn one_host;
     no_pipelining := nopl;
     force_7bit := 0;
     force_8bit := false;
     ignore_ezmlm := false;
     canon_mailfrom := false;
     write_tabs := true;
     myhostnameopt := false;
     main_esmtp_on_banner := 0;
     over_20_seconds := fun _ => false;
     file_size := fun _ => Some 100;
     mime_of := fun _ _ => MimeView 0 None 0 false false false;
     headers_of := fun _ _ => Some headers |}.

(** ** The message *)

Definition mail_file (rcpts : list (list Z)) : list Z := join_lines
  ([$$"@ 0x00000007"; $$"i 17"; $$"o 4"; $$"l <id>"; $$"s smtp from.org me@from.org 0"] ++
   ((fun u => $$"r           smtp a.org " ++ u ++ $$" 0") <$> rcpts) ++ [$$"m"; $$"Subject: x"; []]).

Definition mail_ta (rcpts : list (list Z)) : ta_state :=
  TaState (Ctlfd (mail_file rcpts) 0 None) false (Notary None None None None None None None None 0) [] false.

Definition no_desc : ctldesc :=
  Ctldesc [] [] 0 [] [] 0 0 0 None None None None None 0 [] 0 0 false None None 0 0 0 [].

Definition demo_ranny : ranny_state := RannyState (Z.of_nat <$> seq 1 55) 23 54 true.

(** The client behind ctlopen() *)
Definition mail_client (rcpts : list (list Z)) (body : list Z) : client :=
  let '(d, t) := match @ctlopen demo_agent ($$"17") (Some ($$"smtp")) None false NoSelect (mail_ta rcpts) with
                 | (inr (Some d), t) => (d, t)
                 | (_, t) => (no_desc, t)
                 end in
  Client 0 0 false 8192 0 false 0 0 100 false false false false false 0 0 false [] [] 0 false true 0 0
    true ALARM_BLOCKSIZE (-1) 10 false false None 0 [] (replicate 8 None) SMTPSTATE_MAILFROM SMTPSTATE99
    false false false 0 (replicate (Z.to_nat (d_msgbodyoffset d)) 0 ++ body) [] 0 false
    (-1) 0 0 [] None [] [] None 0 no_cache demo_ranny d t [].

(** What comes of it: the text to the server and the reports, in order. *)
Definition reports (tr : list event) : list (nat * Z) :=
  rev (omap (fun e => match e with EvDiag id rc => Some (id, rc) | _ => None end) tr).
Definition run_client (env : ScEnv) (nopl : bool) (headers : list (list Z)) (c : client) : option sc_stop * list Z * list (nat * Z) :=
  match @process demo_agent env (demo_deliver nopl headers) 1000 c with
  | (inl e, c) => (Some e, sent (c_trace c), reports (c_trace c))
  | (inr _, c) => (None, sent (c_trace c), reports (c_trace c))
  end.
