(* ===== verification/ScMxProps.v ===== *)
(** * The SMTP client: the order of the hosts

    getmxrr() gives the hosts of a domain that are nearer to it than this
    host, in the order of their preferences; and what the cache of CNAMEs
    knows. *)

From Stdlib Require Import ZArith Lia.
From stdpp Require Import base tactics numbers list option sorting.
From S2P Require Import Prelude TaFile TaDiag TaCtl TaProps ScState ScMx ScCname ScReply ScConnect ScBody ScCommand ScDeliver ScDemo.

#[local] Open Scope Z_scope.

Notation nearer := (fun a b => mx_pref a <= mx_pref b).

(** ** The sort *)

Lemma exchange_perm l : forall a, let '(m, r) := exchange a l in m :: r ≡ₚ a :: l.
Proof.
  induction l as [|b l IH]; intros a; cbn [exchange]; [done|]. destruct (mx_pref b <? mx_pref a).
  - specialize (IH b). destruct (exchange b l) as [m r]. by rewrite (Permutation_swap a m), IH.
  - specialize (IH a). destruct (exchange a l) as [m r]. by rewrite (Permutation_swap b m), IH, Permutation_swap.
Qed.

Lemma exchange_min l : forall a, let '(m, r) := exchange a l in mx_pref m <= mx_pref a /\ Forall (fun x => mx_pref m <= mx_pref x) r.
Proof.
  induction l as [|b l IH]; intros a; cbn [exchange]; [by split|]. destruct (Z.ltb_spec (mx_pref b) (mx_pref a)).
  - specialize (IH b). destruct (exchange b l) as [m r]. destruct IH as [Hm Hr]. split; [lia|]. constructor; [lia | done].
  - specialize (IH a). destruct (exchange a l) as [m r]. destruct IH as [Hm Hr]. split; [done|]. constructor; [lia | done].
Qed.

Lemma mx_sort_perm n : forall l, mx_sort n l ≡ₚ l.
Proof.
  induction n as [|n IH]; intros [|a l]; cbn [mx_sort]; try done. pose proof (exchange_perm l a) as Hp. destruct (exchange a l) as [m r].
  by rewrite IH.
Qed.

Lemma mx_sort_sorted n : forall l, (length l <= n)%nat -> StronglySorted nearer (mx_sort n l).
Proof.
  induction n as [|n IH]; intros [|a l] Hn; cbn [mx_sort]; [constructor | cbn in Hn; lia | constructor|].
  pose proof (exchange_perm l a) as Hp. pose proof (exchange_min l a) as Hm. destruct (exchange a l) as [m r]. destruct Hm as [_ Hr].
  apply Permutation_length in Hp. cbn in Hp, Hn. constructor; [apply IH; lia|]. by rewrite mx_sort_perm.
Qed.

(** ** The random order *)

Lemma swap_perm i j l : swap i j l ≡ₚ l.
Proof.
  unfold swap. destruct (l !! i) as [a|] eqn:Ei; [|done]. destruct (l !! j) as [b|] eqn:Ej; [|done].
  by apply Permutation_insert_swap.
Qed.

(** Two entries of the same preference change places. *)
Lemma swap_prefs i j l : (mx_pref <$> l) !! i = (mx_pref <$> l) !! j -> mx_pref <$> swap i j l = mx_pref <$> l.
Proof.
  rewrite !list_lookup_fmap. unfold swap. destruct (l !! i) as [a|] eqn:Ei; [|done]. destruct (l !! j) as [b|] eqn:Ej; [|done].
  intros [= Ep]. rewrite !list_fmap_insert. rewrite (list_insert_id _ j); [|by rewrite list_lookup_fmap, Ej; cbn; rewrite Ep].
  apply list_insert_id. rewrite list_lookup_fmap, Ei. cbn. by rewrite Ep.
Qed.

Section random.
Context `{TaEnv, ScEnv, DnsEnv}.

Lemma ranny_le m c : wpx (ranny m) (fun _ _ => False) (fun r c' => (r <= m)%nat) c.
Proof.
  unfold ranny. apply wpx_bind, wpx_read, wpx_bind, wpx_read. destruct (ranny_next _ _) as [s r].
  apply wpx_bind, wpx_update, wpx_ret. pose proof (Z.mod_pos_bound r (Z.of_nat m + 1) ltac:(lia)). lia.
Qed.

(** [i .. i + len - 1] have the preference [p]. *)
Definition group (ps : list Z) (i len : nat) (p : Z) : Prop := forall k, (k < len)%nat -> ps !! (i + k)%nat = Some p.

Lemma shuffle_spec ps i len p todo : group ps i len p -> forall k l c, (todo + k <= len)%nat -> mx_pref <$> l = ps ->
  wpx (shuffle todo i len k l) (fun _ _ => True) (fun l' _ => l' ≡ₚ l /\ mx_pref <$> l' = ps) c.
Proof.
  intros Hg. induction todo as [|todo IH]; intros k l c Hk Hl; cbn [shuffle]; [by apply wpx_ret|].
  apply wpx_bind. eapply wpx_mono; [apply ranny_le | done|]. cbv beta. intros r c1 Hr.
  eapply wpx_mono; [apply IH; [lia|] | done|].
  - rewrite swap_prefs; [done|]. rewrite Hl. rewrite (Hg k), (Hg r) by lia. done.
  - cbv beta. intros l' _ [Hp Hq]. split; [|done]. by rewrite Hp, swap_perm.
Qed.

Lemma same_pref_group p l : forall k, (k < same_pref p l)%nat -> (mx_pref <$> l) !! k = Some p.
Proof.
  induction l as [|m l IH]; cbn [same_pref]; intros k Hk; [lia|]. destruct (Z.eqb_spec p (mx_pref m)) as [->|]; [|lia].
  destruct k as [|k]; [done|]. cbn. apply IH. lia.
Qed.

Lemma randomize_spec ps n : prefer_ip6 = false -> forall i l c, mx_pref <$> l = ps ->
  wpx (randomize n i l) (fun _ _ => True) (fun l' _ => l' ≡ₚ l /\ mx_pref <$> l' = ps) c.
Proof.
  intros Hv6. induction n as [|n IH]; intros i l c Hl; cbn [randomize]; [by apply wpx_ret|].
  destruct (drop i l) as [|m rest] eqn:Ed; [by apply wpx_ret|]. cbv zeta. set (len := S (same_pref (mx_pref m) rest)).
  assert (group ps i len (mx_pref m)) as Hg.
  { intros k Hk. rewrite <- Hl, list_lookup_fmap, <- lookup_drop, Ed.
    destruct k as [|k]; [done|]. change ((m :: rest) !! S k) with (rest !! k). rewrite <- list_lookup_fmap. apply same_pref_group. subst len. lia. }
  apply wpx_bind. eapply (wpx_mono _ (fun _ _ => True) _ (fun l' _ => l' ≡ₚ l /\ mx_pref <$> l' = ps)); [|done|].
  - apply wpx_if; intros _; [|by apply wpx_ret]. apply wpx_bind. eapply wpx_mono; [apply (shuffle_spec ps i len (mx_pref m) len Hg); [lia | done] | done|].
    cbv beta. intros l' c' Hp. rewrite Hv6. by apply wpx_ret.
  - cbv beta. intros l' c' [Hp Hq]. eapply wpx_mono; [by apply IH | done|]. cbv beta. intros l2 _ [Hp2 Hq2]. split; [|done]. by rewrite Hp2.
Qed.

Lemma sorted_prefs l l' : mx_pref <$> l = mx_pref <$> l' -> StronglySorted nearer l -> StronglySorted nearer l'.
Proof.
  revert l'. induction l as [|a l IH]; intros [|b l'] E; try done. cbn in E. injection E as E1 E2.
  intros [Hs Ha]%StronglySorted_inv. constructor; [by apply IH|]. rewrite <- E1.
  rewrite Forall_forall in Ha |- *. intros x Hx. assert (mx_pref x ∈ mx_pref <$> l) as (y & Ey & Hy)%list_elem_of_fmap by (rewrite E2; by apply list_elem_of_fmap_2).
  rewrite Ey. by apply Ha.
Qed.
End random.

(** ** What a lookup leaves alone *)

(** Runs that do not end early *)
Definition total {A} (m : SC A) : Prop := forall c, wpx m (fun _ _ => False) (fun _ _ => True) c.

Lemma total_ret {A} (a : A) : total (mret a).
Proof. intros c. by apply wpx_ret. Qed.
Lemma total_read {A} (g : client -> A) : total (read g).
Proof. intros c. by apply wpx_read. Qed.
Lemma total_update g : total (update g).
Proof. intros c. by apply wpx_update. Qed.
Lemma total_bind {A B} (m : SC A) (k : A -> SC B) : total m -> (forall a, total (k a)) -> total (m ≫= k).
Proof. intros Hm Hk c. apply wpx_bind. eapply wpx_mono; [apply Hm | done|]. cbv beta. intros a c1 _. apply Hk. Qed.

Ltac total_step :=
  match goal with
  | |- total (mret _) => apply total_ret
  | |- total (read _) => apply total_read
  | |- total (update _) => apply total_update
  | |- total (ev _) => apply total_update
  | |- total (mbind _ _) => apply total_bind; [|intros ?]
  | |- total (if ?b then _ else _) => destruct b
  | |- total (match ?x with _ => _ end) => destruct x
  end.
Ltac total_steps := repeat total_step.

Section counts.
Context `{TaEnv, ScEnv, DnsEnv}.

Lemma keeps_rmsgappend a t : keeps c_mxcount (rmsgappend a t).
Proof. unfold rmsgappend, when_. keeps_steps. Qed.
Lemma keeps_lookup_failed a b : keeps c_mxcount (lookup_failed a b).
Proof. unfold lookup_failed, set_remotemsg, sc_notaryreport. keeps_steps. Qed.
Lemma keeps_answers maxmx a now n : forall w, keeps c_mxcount (answers maxmx a now n w).
Proof.
  induction n as [|n IH]; intros w; cbn [answers]; cbv zeta; unfold when_many, when_; keeps_steps; first [apply keeps_rmsgappend | apply IH].
Qed.
Lemma keeps_refused a host : keeps c_mxcount (refused a host).
Proof. unfold refused. cbv zeta. keeps_steps; apply keeps_lookup_failed. Qed.

Lemma total_rmsgappend t : total (rmsgappend true t).
Proof. unfold rmsgappend, when_. total_steps. Qed.
Lemma total_lookup_failed a b : total (lookup_failed a b).
Proof. unfold lookup_failed, set_remotemsg, sc_notaryreport. total_steps. Qed.
Lemma total_ask : total ask.
Proof. unfold ask. total_steps. Qed.
Lemma total_ranny m : total (ranny m).
Proof. unfold ranny. total_steps. Qed.
Lemma total_shuffle todo i len : forall k l, total (shuffle todo i len k l).
Proof. induction todo as [|todo IH]; intros k l; cbn [shuffle]; total_steps; [apply total_ranny | apply IH]. Qed.
Lemma total_randomize n : forall i mx, total (randomize n i mx).
Proof. induction n as [|n IH]; intros i mx; cbn [randomize]; cbv zeta; total_steps; first [apply total_shuffle | apply IH]. Qed.
Lemma total_find_self maxmx ms : forall i p, total (find_self maxmx i ms p).
Proof.
  induction ms as [|m ms IH]; intros i p; cbn [find_self]; cbv zeta; unfold when_many, when_; total_steps;
    first [apply total_rmsgappend | apply IH].
Qed.
Lemma total_check_services ms : total (check_services ms).
Proof. induction ms as [|m ms IH]; cbn [check_services]; total_steps; first [apply total_ask | apply IH]. Qed.

(** The process ends when getaddrinfo() has no memory. *)
Hypothesis Hmem : forall tr h af, (getaddrinfo tr h af).1 <> EAI_MEMORY.

Lemma host_lookup_mem host af c : wpx (host_lookup host af) (fun _ _ => False) (fun x _ => x.1 <> EAI_MEMORY) c.
Proof.
  unfold host_lookup. apply wpx_bind. unfold ask. apply wpx_bind, wpx_read, wpx_bind, wpx_update, wpx_ret, wpx_ret. apply Hmem.
Qed.

Lemma total_mem {A} (n : gai) (m : SC A) (k : unit -> SC A) : n <> EAI_MEMORY -> total (k tt) ->
  total ((if bool_decide (n = EAI_MEMORY) then exit (ScExit (ExitCode EX_OSERR)) else mret tt) ≫= k).
Proof. intros Hn Hk c. rewrite bool_decide_false by done. apply wpx_bind, wpx_ret, Hk. Qed.

Lemma total_mx_addresses maxmx buf host : total (mx_addresses maxmx buf host).
Proof.
  intros c. unfold mx_addresses. apply wpx_bind. eapply wpx_mono; [apply host_lookup_mem | done|]. cbv beta. intros [n ai] c1 Hn. cbn [fst] in Hn.
  match goal with |- wpx ?m _ _ _ => assert (total m) as Ht; [|apply Ht] end. unfold when_many, when_.
  total_step; [total_steps; apply total_rmsgappend|]. apply (total_mem n (mret ([], false))); [done|].
  apply total_bind.
  - destruct use_ipv6; [|total_steps]. intros c2. apply wpx_bind. eapply wpx_mono; [apply host_lookup_mem | done|]. cbv beta. intros [n2 ai2] c3 Hn2. cbn [fst] in Hn2.
    match goal with |- wpx ?m _ _ _ => assert (total m) as Ht; [|apply Ht] end.
    total_step; [total_steps; apply total_rmsgappend|]. apply (total_mem n2 (mret ((n, []), false))); [done|]. total_steps.
  - intros [[n' ai'] again2]. total_steps. apply total_lookup_failed.
Qed.

Lemma total_all_addresses maxmx buf ms : total (all_addresses maxmx buf ms).
Proof. induction ms as [|m ms IH]; cbn [all_addresses]; total_steps; [apply total_mx_addresses | apply IH]. Qed.

Lemma total_choose_hosts maxmx w : total (choose_hosts maxmx w).
Proof.
  unfold choose_hosts, when_many, when_, remotemsg, sc_notaryreport. cbv zeta. total_steps;
    first [apply total_all_addresses | apply total_find_self | apply total_rmsgappend | apply total_check_services | apply total_randomize].
Qed.
End counts.

(** ** Hosts that are nearer than this one *)

Section hosts.
Context `{TaEnv, ScEnv, DnsEnv}.

(** An entry that has an address and is this host *)
Definition is_self (my : option (list addrinfo)) (m : mxdata) : bool := negb (bool_decide (mx_ai m = [])) && self_match my m.

(** It has addresses, and is nearer than this host. *)
Definition usable (my : option (list addrinfo)) (ms : list mxdata) (m : mxdata) : bool :=
  negb (bool_decide (mx_ai m = [])) && (mx_pref m <? MAXPREF) && forallb (fun s => negb (is_self my s) || (mx_pref m <? mx_pref s)) ms.

Definition key (m : mxdata) : option (list Z) * Z := (mx_host m, mx_pref m).

Lemma all_addresses_keys maxmx buf ms : forall c,
  wpx (all_addresses maxmx buf ms) (fun _ _ => True) (fun x _ => key <$> x.1 = key <$> ms) c.
Proof.
  induction ms as [|m ms IH]; intros c; cbn [all_addresses]; [by apply wpx_ret|]. apply any_bind. intros x c1.
  apply wpx_bind. eapply wpx_mono; [apply IH | done|]. cbv beta. intros y c2 Hy. apply wpx_ret. cbn. f_equal. exact Hy.
Qed.

Lemma split_keys room ms : forall k, k ∈ key <$> ((split_addresses room ms).1 ++ (split_addresses room ms).2) <-> k ∈ key <$> ms.
Proof.
  intros k. revert room. induction ms as [|m ms IH]; intros room; [destruct room; done|]. cbn [split_addresses]. destruct room as [|room]; [by rewrite app_nil_r|].
  set (more := take (S room) (tail (mx_ai m))). specialize (IH (S room - length more)%nat).
  destruct (split_addresses (S room - length more) ms) as [kept added]. cbn [fst snd] in *.
  rewrite <- app_comm_cons, !fmap_cons, elem_of_cons, app_assoc, fmap_app, elem_of_app, fmap_app, elem_of_app.
  rewrite elem_of_cons, <- IH, fmap_app, elem_of_app.
  assert (k ∈ key <$> ((fun a => set_mx_ai [a] m) <$> more) -> k = key m) as Hm.
  { rewrite list_elem_of_fmap. intros (x & -> & (a & -> & _)%list_elem_of_fmap). done. }
  change (key (set_mx_ai (take 1 (mx_ai m)) m)) with (key m). tauto.
Qed.

Lemma separate_keys maxmx ms k : k ∈ key <$> separate maxmx ms <-> k ∈ key <$> ms.
Proof. unfold separate. pose proof (split_keys (maxmx - 1 - length ms) ms k) as Hk. by destruct (split_addresses _ _). Qed.

(** ** This host *)

Variable my : option (list addrinfo).
Hypothesis Hmy : forall tr, my_addresses tr = my.

Definition drop_empty (m : mxdata) : mxdata := if bool_decide (mx_ai m = []) then no_host m else m.

Definition nearest (p : Z) (ms : list mxdata) (q : Z) : Prop :=
  q <= p /\ (forall s, s ∈ ms -> is_self my s = true -> q <= mx_pref s) /\ (q = p \/ exists s, s ∈ ms /\ is_self my s = true /\ q = mx_pref s).

Lemma nearest_cons p m ms q : nearest (if is_self my m && (mx_pref m <? p) then mx_pref m else p) ms q -> nearest p (m :: ms) q.
Proof.
  destruct (is_self my m) eqn:Em; cbn [andb].
  - intros (N1 & N2 & N3). destruct (Z.ltb_spec (mx_pref m) p).
    + split_and!; [lia | intros s [->|Hs]%elem_of_cons; [lia | by apply N2]|].
      right. destruct N3 as [->|(s & Hs & ? & ?)]; [exists m | exists s]; split_and!; try done; [left | by right].
    + split_and!; [done | intros s [->|Hs]%elem_of_cons; [lia | by apply N2]|].
      destruct N3 as [->|(s & Hs & ? & ?)]; [by left | right; exists s; split_and!; try done; by right].
  - intros (N1 & N2 & N3). split_and!; [done | intros s [->|Hs]%elem_of_cons; [congruence | by apply N2]|].
    destruct N3 as [->|(s & Hs & ? & ?)]; [by left | right; exists s; split_and!; try done; by right].
Qed.

Lemma find_self_spec maxmx ms : forall i p c,
  wpx (find_self maxmx i ms p) (fun _ _ => True) (fun x _ => x.1 = drop_empty <$> ms /\ nearest p ms x.2) c.
Proof.
  induction ms as [|m ms IH]; intros i p c; cbn [find_self].
  { apply wpx_ret. split; [done|]. split_and!; [done | by intros s ?%elem_of_nil | by left]. }
  cbn [fmap list_fmap]. unfold drop_empty at 1. apply wpx_if; intros Ea; rewrite Ea.
  - apply any_bind. intros _ c1. apply wpx_bind. eapply wpx_mono; [apply IH | done|]. cbv beta. intros x c2 [Hx Hn]. apply wpx_ret.
    split; [cbn; f_equal; exact Hx|]. apply nearest_cons. unfold is_self. by rewrite Ea.
  - apply wpx_bind, wpx_read. cbv zeta. rewrite Hmy. apply any_bind. intros _ c1. apply wpx_bind. eapply wpx_mono; [apply IH | done|]. cbv beta.
    intros x c2 [Hx Hn]. apply wpx_ret. split; [cbn; f_equal; exact Hx|]. apply nearest_cons. unfold is_self. by rewrite Ea.
Qed.

Lemma nearest_usable ms q m : nearest MAXPREF ms q ->
  usable my ms m = negb (bool_decide (mx_ai m = [])) && (mx_pref m <? q).
Proof.
  intros (N1 & N2 & N3). unfold usable. destruct (bool_decide (mx_ai m = [])); cbn [negb andb]; [done|].
  apply eq_true_iff_eq. rewrite andb_true_iff, forallb_forall, !Z.ltb_lt. split.
  - intros [Hp Hs]. destruct N3 as [->|(s & Hin & Es & ->)]; [done|]. apply list_elem_of_In in Hin. specialize (Hs s Hin). rewrite Es in Hs.
    cbn in Hs. by apply Z.ltb_lt.
  - intros Hq. split; [lia|]. intros s Hin. destruct (is_self my s) eqn:Es; cbn; [|done]. apply Z.ltb_lt. apply list_elem_of_In in Hin. specialize (N2 s Hin Es). lia.
Qed.

(** What is left of the entries *)
Lemma filter_usable q ms l : nearest MAXPREF ms q -> Forall (fun m => has_host m = true) l ->
  List.filter has_host ((fun m => if too_far q m then no_host m else m) <$> (drop_empty <$> l)) = List.filter (usable my ms) l.
Proof.
  intros Hn Hl. induction Hl as [|m l Hm Hl IH]; [done|]. cbn [fmap list_fmap List.filter].
  fold (fmap (M := list) drop_empty l). rewrite <- IH. rewrite (nearest_usable _ _ _ Hn).
  destruct (bool_decide (mx_ai m = [])) eqn:Ea; cbn [negb andb].
  - assert (drop_empty m = no_host m) as -> by (unfold drop_empty; by rewrite Ea). unfold too_far. cbn. by rewrite andb_false_r.
  - assert (drop_empty m = m) as -> by (unfold drop_empty; by rewrite Ea). unfold too_far. rewrite Hm, andb_true_r.
    destruct (Z.leb_spec q (mx_pref m)).
    + cbn. by rewrite (proj2 (Z.ltb_ge _ _)) by lia.
    + rewrite Hm. by rewrite (proj2 (Z.ltb_lt _ _)) by lia.
Qed.

Lemma all_discarded q l : length (List.filter (too_far q) l) = length l ->
  List.filter has_host ((fun m => if too_far q m then no_host m else m) <$> l) = [].
Proof.
  induction l as [|m l IH]; [done|]. cbn. destruct (too_far q m) eqn:E; cbn.
  - intros [= El]. by apply IH.
  - intros El. pose proof (filter_length_le (too_far q) l). lia.
Qed.

(** The result of the choice, for a list of hosts that came with the answer *)
Definition chosen (w : walk) (r : mxresult) : Prop :=
  exists ms : list mxdata, (forall k, (k ∈ key <$> ms <-> k ∈ key <$> w_mx w)) /\
    (mr_rc r = EX_OK -> mr_mx r ≡ₚ List.filter (usable my ms) ms /\ StronglySorted nearer (mr_mx r)).

Lemma choose_hosts_spec maxmx w c : prefer_ip6 = false -> checkwks = false -> Forall (fun m => has_host m = true) (w_mx w) ->
  wpx (choose_hosts maxmx w) (fun _ _ => True) (fun r c' => chosen w r /\ c_mxcount c' = length (mr_mx r)) c.
Proof.
  intros Hv6 Hwks Hh. unfold choose_hosts. cbv zeta. apply wpx_bind. eapply wpx_mono; [apply all_addresses_keys | done|]. cbv beta.
  intros [mx0 again] c1 Hk. cbn [fst] in Hk. set (ms := separate maxmx mx0).
  assert (forall k, k ∈ key <$> ms <-> k ∈ key <$> w_mx w) as Hkeys by (intros k; subst ms; by rewrite separate_keys, Hk).
  assert (Forall (fun m => has_host m = true) ms) as Hms.
  { rewrite Forall_forall in Hh |- *. intros m Hm. assert (key m ∈ key <$> w_mx w) as (m' & E & Hm')%list_elem_of_fmap by (apply Hkeys; by apply list_elem_of_fmap_2).
    specialize (Hh m' Hm'). unfold has_host in *. assert (mx_host m = mx_host m') as -> by (unfold key in E; congruence). done. }
  apply wpx_bind. eapply wpx_mono; [apply find_self_spec | done|]. cbv beta. intros [mx q] c2 [Emx Hn]. cbn [fst snd] in Emx, Hn. subst mx.
  apply any_bind. intros _ c3. apply any_bind. intros _ c4.
  rewrite length_fmap.
  destruct (length (List.filter (too_far q) (drop_empty <$> ms)) =? length (drop_empty <$> ms))%nat eqn:Ed.
  { apply Nat.eqb_eq, all_discarded in Ed. rewrite (filter_usable q ms ms Hn Hms) in Ed. apply wpx_bind, wpx_update, wpx_ret.
    split; [|done]. exists ms. split; [done|]. cbn. rewrite Ed. intros _. split; [done | constructor]. }
  clear Ed. rewrite Hwks. apply wpx_bind, wpx_ret. rewrite (filter_usable q ms ms Hn Hms). set (mx := List.filter (usable my ms) ms).
  apply wpx_bind, wpx_update. destruct (bool_decide (mx = [])) eqn:Em; cbn [andb].
  { apply bool_decide_eq_true in Em. rewrite Em. destruct again; [apply wpx_ret; split; [exists ms; by split|] | ]; [done|].
    apply wpx_bind. eapply (wpx_mono _ _ _ (fun _ c' => c_mxcount c' = O)); [|done|].
    - assert (keeps c_mxcount (when_many maxmx (rmsgappend true ([13] ++ $$"=> NONE of MXes support SMTP!");; msg ← remotemsg;
        sc_notaryreport None FAILED (Some ($$"5.4.4 (DNS lookup report)")) (Some msg)))) as Hkp.
      { unfold when_many, when_, remotemsg, sc_notaryreport. keeps_steps. apply keeps_rmsgappend. }
      eapply wpx_mono; [apply Hkp | done|]. cbv beta. by intros _ c5 ->.
    - cbv beta. intros _ c5 E5. apply wpx_ret. split; [exists ms; by split | done]. }
  apply wpx_bind. eapply wpx_mono; [by apply (randomize_spec (mx_pref <$> mx_sort (length mx) mx)) | done|]. cbv beta. intros l c5 [Hp Hq].
  apply wpx_bind, wpx_update, wpx_ret. split; [|done]. exists ms. split; [done|]. intros _. cbn [mr_mx]. split; [by rewrite Hp, mx_sort_perm|].
  eapply sorted_prefs; [symmetry; exact Hq | by apply mx_sort_sorted].
Qed.

(** ** The answer *)

Lemma answers_hosts maxmx a now n : forall w c, Forall (fun m => has_host m = true) (w_mx w) ->
  wpx (answers maxmx a now n w) (fun _ _ => True) (fun w' _ => Forall (fun m => has_host m = true) (w_mx w')) c.
Proof.
  induction n as [|n IH]; intros w c Hw; cbn [answers]; [by apply wpx_ret|]. cbv zeta.
  repeat match goal with
  | |- wpx (if ?b then _ else _) _ _ _ => destruct b
  | |- wpx (match ?x with _ => _ end) _ _ _ => destruct x as [[]|] || destruct x
  | |- wpx (mret _) _ _ _ => by apply wpx_ret
  | |- wpx (exit _) _ _ _ => by apply wpx_exit
  | |- wpx (mbind _ _) _ _ _ => apply any_bind; intros ? ?
  | |- wpx (answers _ _ _ _ _) _ _ _ => apply IH; cbn; try done
  end.
  apply Forall_app. by split; [|constructor].
Qed.
End hosts.

(** ** A well-formed answer *)

(** How names are written, and that the functions of the resolver read them
    (without the compression that they also know). *)
Class NameCoding `{DnsEnv} := {
  enc : list Z -> list Z;
  enc_expand : forall pre name post size, Z.of_nat (length name) < size ->
    dn_expand (pre ++ enc name ++ post) (Z.of_nat (length pre)) size = Some (Z.of_nat (length (enc name)), name);
  enc_skip : forall pre name post, dn_skipname (pre ++ enc name ++ post) (Z.of_nat (length pre)) = Some (Z.of_nat (length (enc name)))
}.

Record mxrecord := Mxrecord { rr_ttl : Z; rr_pref : Z; rr_name : list Z }.

Definition mx_of (now : Z) (r : mxrecord) : mxdata := Mxdata (Some (rr_name r)) (rr_pref r) (now + rr_ttl r) [].

Lemma byte_at_app pre l k : 0 <= k -> byte_at (pre ++ l) (Z.of_nat (length pre) + k) = byte_at l k.
Proof.
  intros Hk. unfold byte_at. rewrite Z2Nat.inj_add, Nat2Z.id by lia. rewrite app_nth2 by lia. f_equal. lia.
Qed.

Lemma get16_app pre l k : 0 <= k -> get16 (pre ++ l) (Z.of_nat (length pre) + k) = get16 l k.
Proof. intros Hk. unfold get16. rewrite <- Z.add_assoc, !byte_at_app by lia. done. Qed.

Lemma get32_app pre l k : 0 <= k -> get32 (pre ++ l) (Z.of_nat (length pre) + k) = get32 l k.
Proof. intros Hk. unfold get32. rewrite <- Z.add_assoc, !get16_app by lia. done. Qed.

Section message.
Context `{TaEnv, ScEnv, NameCoding}.

Definition four_bytes (n : Z) : list Z := two_bytes (n / 65536) ++ two_bytes (n mod 65536).

(** The fixed part of a record, and the record *)
Definition fixed_part (r : mxrecord) : list Z :=
  two_bytes T_MX ++ two_bytes C_IN ++ four_bytes (rr_ttl r) ++ two_bytes (2 + Z.of_nat (length (enc (rr_name r)))) ++ two_bytes (rr_pref r).
Definition record_text (owner : list Z) (r : mxrecord) : list Z := enc owner ++ fixed_part r ++ enc (rr_name r).

(** The header, the question and the records *)
Definition message_text (owner : list Z) (rs : list mxrecord) : list Z :=
  [0; 0; 129; 128] ++ two_bytes 1 ++ two_bytes (Z.of_nat (length rs)) ++ [0; 0; 0; 0] ++
  enc owner ++ two_bytes T_MX ++ two_bytes C_IN ++ concat (record_text owner <$> rs).

Definition short_names (owner : list Z) (rs : list mxrecord) : Prop :=
  Z.of_nat (length owner) < BUF_SIZE /\ Forall (fun r => Z.of_nat (length (rr_name r)) < BUF_SIZE) rs.

Lemma twelve_bytes b0 b1 b2 b3 b4 b5 b6 b7 b8 b9 b10 b11 post :
  let l := [b0; b1; b2; b3; b4; b5; b6; b7; b8; b9; b10; b11] ++ post in
  get16 l 0 = 256 * b0 + b1 /\ get16 l 2 = 256 * b2 + b3 /\ get32 l 4 = 65536 * (256 * b4 + b5) + (256 * b6 + b7) /\
  get16 l 8 = 256 * b8 + b9 /\ get16 l 10 = 256 * b10 + b11.
Proof. done. Qed.

Lemma fixed_part_reads pre r post :
  let a := pre ++ fixed_part r ++ post in
  let p := Z.of_nat (length pre) in
  get16 a p = T_MX /\ get16 a (p + 2) = C_IN /\ get32 a (p + 4) = rr_ttl r /\
  get16 a (p + 8) = 2 + Z.of_nat (length (enc (rr_name r))) /\ get16 a (p + 10) = rr_pref r.
Proof.
  intros a p. subst a p. rewrite <- (Z.add_0_r (Z.of_nat (length pre))) at 1. rewrite !get16_app, get32_app by lia.
  set (d := 2 + Z.of_nat (length (enc (rr_name r)))).
  pose proof (fun n => Z.div_mod n 256 ltac:(lia)) as D. pose proof (Z.div_mod (rr_ttl r) 65536 ltac:(lia)) as D2.
  pose proof (D d). pose proof (D (rr_pref r)). pose proof (D (rr_ttl r / 65536)). pose proof (D (rr_ttl r mod 65536)).
  unfold fixed_part, four_bytes, two_bytes. fold d. cbn [app].
  match goal with |- get16 ?l 0 = _ /\ _ => change l with ([T_MX / 256; T_MX mod 256; C_IN / 256; C_IN mod 256; rr_ttl r / 65536 / 256;
    (rr_ttl r / 65536) mod 256; rr_ttl r mod 65536 / 256; (rr_ttl r mod 65536) mod 256; d / 256; d mod 256; rr_pref r / 256; rr_pref r mod 256] ++ post) end.
  destruct (twelve_bytes (T_MX / 256) (T_MX mod 256) (C_IN / 256) (C_IN mod 256) (rr_ttl r / 65536 / 256)
    ((rr_ttl r / 65536) mod 256) (rr_ttl r mod 65536 / 256) ((rr_ttl r mod 65536) mod 256) (d / 256) (d mod 256) (rr_pref r / 256) (rr_pref r mod 256) post)
    as (-> & -> & -> & -> & ->). split_and!; [done | done | lia..].
Qed.

Lemma fixed_part_length r : length (fixed_part r) = 12%nat.
Proof. done. Qed.

Lemma total_when b (m : SC unit) : total m -> total (when_ b m).
Proof. intros Hm. unfold when_. by total_steps. Qed.
Lemma total_when_many maxmx (m : SC unit) : total m -> total (when_many maxmx m).
Proof. apply total_when. Qed.

Lemma answers_parse maxmx now owner rs : forall pre mx buf real ttl k c, short_names owner rs ->
  (length mx + length rs <= maxmx - 1)%nat ->
  let a := pre ++ concat (record_text owner <$> rs) in
  wpx (answers maxmx a now (length rs) (Walk (Z.of_nat (length pre)) mx buf real ttl k)) (fun _ _ => False)
    (fun w _ => w_mx w = mx ++ (mx_of now <$> rs) /\ w_realname w = real /\ w_left w = O) c.
Proof.
  induction rs as [|r rs IH]; intros pre mx buf real ttl k c [Ho Hn] Hl a; cbn [length answers]; [apply wpx_ret; cbn; by rewrite app_nil_r|].
  apply Forall_cons in Hn as [Hr Hn]. cbn [w_cp w_mx w_name w_buf w_realname w_ttl w_left w_at]. cbv zeta.
  set (rest := concat (record_text owner <$> rs)).
  assert (a = (pre ++ enc owner) ++ fixed_part r ++ enc (rr_name r) ++ rest) as Ea.
  { subst a rest. cbn [fmap list_fmap concat]. unfold record_text at 1. by rewrite <- !app_assoc. }
  assert (Z.of_nat (length a) = Z.of_nat (length pre) + Z.of_nat (length (enc owner)) + 12 + Z.of_nat (length (enc (rr_name r))) + Z.of_nat (length rest)) as Hlen.
  { rewrite Ea, !length_app, fixed_part_length. lia. }
  destruct (fixed_part_reads (pre ++ enc owner) r (enc (rr_name r) ++ rest)) as (G1 & G2 & G3 & G4 & G5). rewrite <- Ea in G1, G2, G3, G4, G5.
  rewrite length_app, Nat2Z.inj_add in G1, G2, G3, G4, G5.
  assert (dn_expand a (Z.of_nat (length pre)) BUF_SIZE = Some (Z.of_nat (length (enc owner)), owner)) as X1.
  { rewrite Ea, <- app_assoc. by apply enc_expand. }
  assert (dn_expand a (Z.of_nat (length pre) + Z.of_nat (length (enc owner)) + 10 + 2) BUF_SIZE = Some (Z.of_nat (length (enc (rr_name r))), rr_name r)) as X2.
  { rewrite Ea. rewrite (app_assoc (pre ++ enc owner)).
    replace (_ + 10 + 2) with (Z.of_nat (length ((pre ++ enc owner) ++ fixed_part r))) by (rewrite !length_app, fixed_part_length; lia). by apply enc_expand. }
  rewrite (proj2 (Z.ltb_lt _ _)) by lia. rewrite (proj2 (Nat.ltb_lt _ _)) by (cbn in Hl; lia). cbn [andb negb]. rewrite X1.
  rewrite G1, G2, G3, G4, G5, X2. rewrite !(proj2 (Z.ltb_ge _ _)) by lia. change (C_IN =? C_IN) with true. change (T_MX =? T_CNAME) with false.
  change (T_MX =? T_MX) with true. cbn [negb]. apply wpx_bind.
  eapply wpx_mono; [apply total_when_many, total_rmsgappend | done|]. cbv beta. intros _ c1 _.
  specialize (IH (pre ++ record_text owner r) (mx ++ [Mxdata (Some (rr_name r)) (rr_pref r) (now + rr_ttl r) []]) (rr_name r) real ttl k c1 (conj Ho Hn)).
  replace ((pre ++ record_text owner r) ++ concat (record_text owner <$> rs)) with a in IH
    by (rewrite Ea; subst rest; unfold record_text at 2; by rewrite <- !app_assoc).
  replace (Z.of_nat (length (pre ++ record_text owner r))) with
    (Z.of_nat (length pre) + Z.of_nat (length (enc owner)) + 10 + 2 + Z.of_nat (length (enc (rr_name r)))) in IH
    by (unfold record_text; rewrite !length_app, fixed_part_length; lia).
  eapply wpx_mono; [apply IH; rewrite length_app; cbn in Hl |- *; lia | done|]. cbv beta. intros w c2 (E1 & E2 & E3). split_and!; [|done..].
  rewrite E1, <- app_assoc. done.
Qed.

(** The header *)
Lemma message_reads owner rs : let a := message_text owner rs in
  rcode a = NOERROR /\ get16 a 4 = 1 /\ get16 a 6 = Z.of_nat (length rs).
Proof.
  intros a. pose proof (Z.div_mod (Z.of_nat (length rs)) 256 ltac:(lia)) as D. split; [done|]. split; [done|].
  change (get16 a 6) with (256 * (Z.of_nat (length rs) / 256) + Z.of_nat (length rs) mod 256). lia.
Qed.

Lemma message_start owner rs : skip_questions (message_text owner rs) 1 HFIXEDSZ =
    Z.of_nat (length ([0; 0; 129; 128] ++ two_bytes 1 ++ two_bytes (Z.of_nat (length rs)) ++ [0; 0; 0; 0] ++ enc owner ++ two_bytes T_MX ++ two_bytes C_IN)) /\
  message_text owner rs = ([0; 0; 129; 128] ++ two_bytes 1 ++ two_bytes (Z.of_nat (length rs)) ++ [0; 0; 0; 0] ++ enc owner ++ two_bytes T_MX ++ two_bytes C_IN) ++
    concat (record_text owner <$> rs).
Proof.
  split; [|unfold message_text; by rewrite <- !app_assoc]. cbn [skip_questions].
  replace (dn_skipname (message_text owner rs) HFIXEDSZ) with (Some (Z.of_nat (length (enc owner)))).
  - rewrite !length_app. unfold two_bytes, HFIXEDSZ, QFIXEDSZ. cbn [length from_option]. unfold id. lia.
  - symmetry. apply (enc_skip ([0; 0; 129; 128] ++ two_bytes 1 ++ two_bytes (Z.of_nat (length rs)) ++ [0; 0; 0; 0]) owner).
Qed.

Variable my : option (list addrinfo).

(** The hosts of the records that are to be used: those with addresses, of a
    smaller preference than this host *)
Definition good_hosts (rs : list mxrecord) (r : mxresult) : Prop :=
  exists ms : list mxdata, (forall h p, (exists m, m ∈ ms /\ mx_host m = Some h /\ mx_pref m = p) <-> exists x, x ∈ rs /\ rr_name x = h /\ rr_pref x = p) /\
    (mr_rc r = EX_OK -> mr_mx r ≡ₚ List.filter (usable my ms) ms /\ StronglySorted nearer (mr_mx r)).

Lemma chosen_good rs now w r : w_mx w = mx_of now <$> rs -> chosen my w r -> good_hosts rs r.
Proof.
  intros Ew (ms & Hk & Hr). exists ms. split; [|done]. intros h p. specialize (Hk (Some h, p)). rewrite Ew, !list_elem_of_fmap in Hk.
  split.
  - intros (m & Hm & Eh & Ep). destruct (proj1 Hk) as (x & Ex & Hx); [exists m; unfold key; by rewrite Eh, Ep|].
    apply list_elem_of_fmap in Hx as (y & -> & Hy). exists y. unfold key in Ex. cbn in Ex. split_and!; congruence.
  - intros (x & Hx & Eh & Ep). destruct (proj2 Hk) as (m & Em & Hm).
    { exists (mx_of now x). split; [unfold key; cbn; by rewrite Eh, Ep | by apply list_elem_of_fmap_2]. }
    exists m. unfold key in Em. split_and!; congruence.
Qed.


End message.

(** ** A domain *)

#[export] Instance demo_coding prefer hosts addrs : @NameCoding (demo_dns prefer hosts addrs).
Proof.
  assert (forall pre name post, byte_at (pre ++ demo_name name ++ post) (Z.of_nat (length pre)) = Z.of_nat (length name)) as Hb.
  { intros. rewrite <- (Z.add_0_r (Z.of_nat (length pre))), byte_at_app by lia. done. }
  assert (forall pre name post, Z.of_nat (length pre) + Z.of_nat (length name) <? Z.of_nat (length (pre ++ demo_name name ++ post)) = true) as Hl.
  { intros. apply Z.ltb_lt. unfold demo_name. rewrite !length_app. cbn [length]. lia. }
  refine {| enc := demo_name |}; intros pre name post.
  - intros size Hs. cbn [dn_expand demo_dns]. unfold demo_expand. rewrite Hb, Hl, (proj2 (Z.leb_le _ _)) by lia. rewrite (proj2 (Z.ltb_lt _ _) Hs). cbn [andb].
    f_equal. f_equal; [unfold demo_name; cbn [length]; lia|]. rewrite !Nat2Z.id.
    replace (length pre + 1)%nat with (length (pre ++ [Z.of_nat (length name)])) by (rewrite length_app; done).
    replace (pre ++ demo_name name ++ post) with ((pre ++ [Z.of_nat (length name)]) ++ name ++ post) by (by rewrite <- app_assoc).
    by rewrite drop_app_length, take_app_length.
  - cbn [dn_skipname demo_dns]. unfold demo_skip. rewrite Hb, Hl, (proj2 (Z.leb_le _ _)) by lia. cbn [andb]. f_equal. unfold demo_name. cbn [length]. lia.
Defined.

(** Two hosts, and this one between them *)
Definition near_hosts : list mxrecord :=
  [Mxrecord 3600 20 ($$"client.org"); Mxrecord 3600 30 ($$"far.a.org"); Mxrecord 3600 10 ($$"mx.a.org")].
Definition near_dns : DnsEnv :=
  demo_dns false ((fun r => (rr_pref r, rr_name r)) <$> near_hosts) (fun _ => [demo_addr AF_INET [10; 0; 0; 2]; demo_addr AF_INET6 [32; 1]]).

Definition some_client : client := mail_client [$$"u1@a.org"] [].


(** The hosts that come of a lookup, with their preferences *)
Definition looked_up (dns : DnsEnv) : option (list (Z * option (list Z))) :=
  match @getmxrr dns DEPTH MAXFORWARDERS ($$"a.org") [] (Some MAX_CACHE_AGE) some_client with
  | (inr r, _) => Some ((fun m => (mx_pref m, mx_host m)) <$> mr_mx r)
  | _ => None
  end.

Example near_hosts_found : looked_up near_dns = Some [(10, Some ($$"mx.a.org")); (10, Some ($$"mx.a.org"))].
Proof. vm_compute. reflexivity. Qed.

(** (A flaw of the option that prefers IPv6.)  A host of preference 10
    with an IPv4 address, and two of preference 20 with IPv6 addresses: one of
    the latter is put first, since the exchange of entries within a preference
    counts its places from the start of the whole list. *)
Theorem prefer_ip6_breaks_order :
  let addrs h := if bool_decide (h = $$"near.a.org") then [demo_addr AF_INET [10; 0; 0; 2]] else [demo_addr AF_INET6 [32; 1]] in
  looked_up (demo_dns true [(10, $$"near.a.org"); (20, $$"x.a.org"); (20, $$"y.a.org")] addrs) =
    Some [(20, Some ($$"y.a.org")); (10, Some ($$"near.a.org")); (20, Some ($$"x.a.org"))].
Proof. vm_compute. reflexivity. Qed.

(** ** The lowest MX *)

Section lowest.
Context `{DnsEnv}.

Lemma prefer_v6_perm todo : forall k l mx, prefer_v6 todo k l mx ≡ₚ mx.
Proof.
  induction todo as [|todo IH]; intros k l mx; cbn [prefer_v6]; [done|]. destruct (_ && _); rewrite IH; [apply swap_perm | done].
Qed.

Lemma shuffle_perm todo i len : forall k l c, wpx (shuffle todo i len k l) (fun _ _ => True) (fun l' _ => l' ≡ₚ l) c.
Proof.
  induction todo as [|todo IH]; intros k l c; cbn [shuffle]; [by apply wpx_ret|]. apply any_bind. intros r c1.
  eapply wpx_mono; [apply IH | done|]. cbv beta. intros l' _ ->. apply swap_perm.
Qed.

Lemma randomize_perm n : forall i l c, wpx (randomize n i l) (fun _ _ => True) (fun l' _ => l' ≡ₚ l) c.
Proof.
  induction n as [|n IH]; intros i l c; cbn [randomize]; [by apply wpx_ret|]. destruct (drop i l); [by apply wpx_ret|]. cbv zeta. apply wpx_bind.
  eapply (wpx_mono _ (fun _ _ => True) _ (fun l' _ => l' ≡ₚ l)); [|done|].
  - apply wpx_if; intros _; [|by apply wpx_ret]. apply wpx_bind. eapply wpx_mono; [apply shuffle_perm | done|]. cbv beta. intros l' c' Hp.
    apply wpx_ret. destruct prefer_ip6; [by rewrite prefer_v6_perm | done].
  - cbv beta. intros l' c' Hp. eapply wpx_mono; [apply IH | done|]. cbv beta. by intros l2 _ ->.
Qed.

(** The count is that of the entries, and all of them are hosts. *)
Definition counted (r : mxresult) (c : client) : Prop := c_mxcount c = length (mr_mx r) /\ Forall (fun m => has_host m = true) (mr_mx r).

Lemma choose_hosts_counted maxmx w c : wpx (choose_hosts maxmx w) (fun _ _ => True) counted c.
Proof.
  unfold choose_hosts. cbv zeta. apply any_bind. intros [mx again] c1. apply any_bind. intros [mx2 q] c2. do 2 (apply any_bind; intros ? ?).
  apply wpx_if; intros _; [by apply wpx_bind, wpx_update, wpx_ret|]. apply any_bind. intros mx3 c5. set (mx4 := List.filter has_host mx3).
  apply wpx_bind, wpx_update. destruct (bool_decide (mx4 = [])) eqn:Em; cbn [andb].
  - apply bool_decide_eq_true in Em. rewrite Em. destruct again; [by apply wpx_ret|]. apply wpx_bind.
    eapply (wpx_mono _ _ _ (fun _ c' => c_mxcount c' = O)); [|done|].
    + match goal with |- wpx ?m _ _ _ => assert (keeps c_mxcount m) as Hkp end.
      { unfold when_many, when_, remotemsg, sc_notaryreport. keeps_steps. apply keeps_rmsgappend. }
      eapply wpx_mono; [apply Hkp | done|]. cbv beta. by intros _ c6 ->.
    + cbv beta. intros _ c6 E6. by apply wpx_ret.
  - apply wpx_bind. eapply wpx_mono; [apply randomize_perm | done|]. cbv beta. intros l c6 Hp. apply wpx_bind, wpx_update, wpx_ret.
    split; [done|]. cbn [mr_mx]. rewrite Hp, mx_sort_perm. apply Forall_forall. intros m Hm. subst mx4. apply list_elem_of_In, filter_In in Hm. apply Hm.
Qed.

Lemma getmxrr_counted maxmx levels : forall host realname ttl c, levels = DEPTH \/ c_mxcount c = O ->
  wpx (getmxrr levels maxmx host realname ttl) (fun _ _ => True) (fun r c' => mr_rc r = EX_OK -> counted r c') c.
Proof.
  induction levels as [|levels IH]; intros host realname ttl c Hc; cbn [getmxrr]; cbv zeta.
  { do 3 (apply any_bind; intros ? ?). by apply wpx_ret. }
  apply wpx_bind. eapply (wpx_mono _ (fun _ _ => True) _ (fun _ c' => c_mxcount c' = c_mxcount c)); [|done|].
  { match goal with |- wpx ?m _ _ _ => assert (keeps c_mxcount m) as Hkp; [|eapply wpx_mono; [apply Hkp | done | done]] end. unfold when_many, when_, in_notary. keeps_steps. }
  cbv beta. intros _ c1 E1. apply wpx_bind. eapply (wpx_mono _ (fun _ _ => True) _ (fun _ c' => c_mxcount c' = O)); [|done|].
  { destruct (S levels =? DEPTH)%nat eqn:Ed; cbn [when_].
    - apply wpx_bind, wpx_update. by apply wpx_update.
    - apply wpx_ret. rewrite E1. destruct Hc as [Hc|Hc]; [|done]. by apply Nat.eqb_neq in Ed. }
  cbv beta. intros _ c2 E2. apply wpx_bind. unfold ask. apply wpx_bind, wpx_read, wpx_bind, wpx_update, wpx_ret. set (c3 := set_c_trace _ c2).
  assert (c_mxcount c3 = O) as E3 by done. clearbody c3. set (tr := c_trace c2). clearbody tr. clear c1 c2 E1 E2 Hc c. rename E3 into E2, c3 into c2.
  assert (forall (m : SC unit) (k : SC mxresult), keeps c_mxcount m -> (forall c', c_mxcount c' = O -> wpx k (fun _ _ => True) (fun r c' => mr_rc r = EX_OK -> counted r c') c') ->
    forall c', c_mxcount c' = O -> wpx (m ≫= fun _ => k) (fun _ _ => True) (fun r c' => mr_rc r = EX_OK -> counted r c') c') as Hb.
  { intros m k Hm Hk c' E'. apply wpx_bind. eapply wpx_mono; [apply Hm | done|]. cbv beta. intros _ c3 E3. apply Hk. congruence. }
  destruct (mx_query _ host) as [| |a]; [by apply any_bind; intros ? ?; apply wpx_ret..|].
  apply Hb; [unfold when_many, when_; keeps_steps; apply keeps_rmsgappend | | exact E2]. clear E2. intros c3 E3. apply wpx_if; intros _.
  { apply wpx_bind. eapply wpx_mono; [apply keeps_refused | done|]. cbv beta. intros rc c4 E4. apply wpx_ret. intros _. split; [cbn; congruence | done]. }
  apply wpx_bind. eapply wpx_mono; [apply keeps_answers | done|]. cbv beta. intros w c4 E4. rewrite E3 in E4. apply wpx_if; intros _; [by apply any_bind; intros ? ?; apply wpx_ret|].
  apply wpx_if; intros _; [apply wpx_if; intros _|].
  - apply IH. by right.
  - by apply wpx_bind, wpx_update, wpx_ret.
  - eapply wpx_mono; [apply choose_hosts_counted | done|]. cbv beta. auto.
Qed.
End lowest.

(** (A check that is dead.)  smtpconn() means to stop with "we are lowest
    MX, but this is not our local domain" when there are MX records and none
    is left; but behind a lookup of the records, whenever their count is not
    0, the first has a host: when all are discarded getmxrr() leaves a count
    of 0, and smtpconn() goes on with the address of the domain itself. *)
Theorem lowest_mx_not_noticed `{ConnEnv} host c rc c' :
  noMX = 0 -> c_firstmx c = O -> find_hosts host c = (inr (inr rc), c') -> (0 < c_mxcount c')%nat ->
  exists m mx, c_mxh c' = m :: mx /\ has_host m = true.
Proof.
  intros Hx Hf E Hc.
  assert (wpx (find_hosts host) (fun _ _ => True) (fun r c' => is_Some (match r with inr x => Some x | inl _ => None end) -> (0 < c_mxcount c')%nat ->
    exists m mx, c_mxh c' = m :: mx /\ has_host m = true) c) as Hw.
  { unfold find_hosts. apply wpx_bind, wpx_read. rewrite Hx, Hf. change ((0 =? 0) && (0 =? 0)%nat) with true. cbv iota. apply wpx_bind, wpx_update, wpx_bind.
    eapply wpx_mono; [apply (getmxrr_counted MAXFORWARDERS DEPTH); by left | done|]. cbv beta. intros r c1 Hr. apply wpx_bind, wpx_update.
    destruct (Z.eqb_spec (mr_rc r) EX_OK) as [Er|Er]; [|by apply wpx_ret; intros []]. destruct (Hr Er) as [Hn Hh].
    apply wpx_bind, wpx_read, wpx_bind. eapply (wpx_mono _ (fun _ _ => True) _ (fun _ c' => c_mxcount c' = c_mxcount c1 /\ c_mxh c' = mr_mx r)); [|done|].
    - set (c2 := set_c_mxh (mr_mx r) c1). assert (forall X (f : client -> X), (forall c v, f (set_c_cnames v c) = f c) ->
        keeps f (add_cname host (real_name (mr_realname r)) (default 0 (mr_ttl r) + sc_now (c_trace c2)))) as Hk.
      { intros X f Hset. unfold add_cname, cname_table. keeps_steps. apply keeps_update. intros. apply Hset. }
      eapply wpx_mono; [eapply wpx_and; [apply (Hk _ c_mxcount); done | apply (Hk _ c_mxh); done] | by intros ? ? []|]. cbv beta. intros _ c3 [E1 E2]. by rewrite E1, E2.
    - cbv beta. intros _ c3 [E1 E2]. apply wpx_ret. intros _ Hpos. rewrite E1, Hn in Hpos. rewrite E2. destruct (mr_mx r) as [|m mx]; [cbn in Hpos; lia|].
      exists m, mx. split; [done|]. by apply Forall_cons in Hh as [? _]. }
  unfold wpx in Hw. rewrite E in Hw. apply Hw; [by eexists | done].
Qed.

(** This host is the best MX: the client connects to the domain itself. *)
Definition self_dns : DnsEnv := demo_dns false [(10, $$"client.org")] (fun _ => [demo_addr AF_INET [10; 0; 0; 2]]).
Example best_mx_connects :
  match @smtpconn demo_agent (scripted (says [$$"220 hi"]) true) (demo_conn self_dns) 100 some_client with
  | (inr rc, c) => (rc, List.filter (fun e => match e with EvConnect _ => true | _ => false end) (c_trace c))
  | (inl _, _) => (-1, [])
  end = (EX_OK, [EvConnect (demo_addr AF_INET [10; 0; 0; 2])]).
Proof. vm_compute. reflexivity. Qed.

Lemma lowest_mx_not_noticed_witness : exists rc c',
  @find_hosts (demo_conn near_dns) ($$"a.org") some_client = (inr (inr rc), c') /\ (0 < c_mxcount c')%nat /\
  exists m mx, c_mxh c' = m :: mx /\ has_host m = true.
Proof.
  exists EX_OK, (@find_hosts (demo_conn near_dns) ($$"a.org") some_client).2.
  assert (@find_hosts (demo_conn near_dns) ($$"a.org") some_client = (inr (inr EX_OK), (@find_hosts (demo_conn near_dns) ($$"a.org") some_client).2)) as E.
  { assert (forall x : (sc_stop + (Z + Z)) * client, match x.1 with inr (inr v) => v = EX_OK | _ => False end -> x = (inr (inr EX_OK), x.2)) as Hx.
    { intros [[?|[?|v]] ?] Hm; [destruct Hm | destruct Hm | cbn in Hm; by rewrite Hm]. }
    apply Hx. vm_compute. reflexivity. }
  split; [exact E|]. assert (0 < c_mxcount (@find_hosts (demo_conn near_dns) ($$"a.org") some_client).2)%nat as Hc by (apply Nat.ltb_lt; vm_compute; reflexivity).
  split; [exact Hc|]. apply (@lowest_mx_not_noticed (demo_conn near_dns) ($$"a.org") some_client EX_OK _ eq_refl eq_refl E Hc).
Defined.

(** (A result that is lost.)  rightmx() is there to find out whether the
    host of the connection is among the MX records of a recipient's host, but
    it never says so: it returns 1 only when the names are the same.  Here a
    domain has the connected host as its only MX, and the answer is 0. *)
Theorem rightmx_ignores_mx :
  (forall `{ConnEnv} spec host c c', rightmx spec host c = (inr 1, c') -> CISTREQ spec host = true \/ CISTREQ host (c_remotehost c') = true) /\
  match @rightmx (demo_conn one_host) ($$"b.org") ($$"a.org") (set_c_remotehost ($$"mx.a.org") some_client) with
  | (inr r, c) => r = 0 /\ c_mxcount c = 1%nat
  | (inl _, _) => False
  end.
Proof.
  split; [|vm_compute; done]. intros E spec host c c' Er.
  assert (wpx (rightmx spec host) (fun _ _ => True) (fun r c' => r = 1 -> CISTREQ spec host = true \/ CISTREQ host (c_remotehost c') = true) c) as Hw.
  { unfold rightmx. destruct (CISTREQ spec host); [apply wpx_ret; by left|]. apply wpx_bind, wpx_read, wpx_if; intros _; [by apply wpx_ret|].
    do 3 apply wpx_bind, wpx_update. apply any_bind. intros r c1. apply wpx_bind, wpx_update, wpx_bind, wpx_read, wpx_if; intros _; [|by apply wpx_ret].
    apply wpx_ret. destruct (bool_decide (mr_mx r = [])); [|done]. destruct (CISTREQ host _) eqn:Eh; [by right | done]. }
  unfold wpx in Hw. rewrite Er in Hw. by apply Hw.
Qed.

(** ** CNAMEs *)

Lemma cnamecache_init_whole : cache_whole cnamecache_init.
Proof.
  exists [], (seq 0 CNAMECACHESIZE). split; [done | done | | done]. unfold cnamecache_init. cbn [cn_free cn_cells].
  assert (forall n m, (m + n)%nat = CNAMECACHESIZE -> seg ((fun i => Cnamecell 0 (if (i =? CNAMECACHESIZE - 1)%nat then -1 else Z.of_nat i + 1) 0 None None) <$> seq 0 CNAMECACHESIZE)
    (if (m =? CNAMECACHESIZE)%nat then -1 else Z.of_nat m) (seq m n) (-1)) as Hs.
  { induction n as [|n IH]; intros m Hm; cbn [seq seg]; [by rewrite (proj2 (Nat.eqb_eq m CNAMECACHESIZE)) by lia|].
    split; [by rewrite (proj2 (Nat.eqb_neq m CNAMECACHESIZE)) by lia|]. eexists. split; [rewrite list_lookup_fmap, lookup_seq_lt by lia; done|]. cbn [cc_next Nat.add].
    specialize (IH (S m) ltac:(lia)). destruct (Nat.eqb_spec (S m) CNAMECACHESIZE) as [E|E].
    - rewrite (proj2 (Nat.eqb_eq m (CNAMECACHESIZE - 1))) by lia. done.
    - rewrite (proj2 (Nat.eqb_neq m (CNAMECACHESIZE - 1))) by lia. by rewrite Nat2Z.inj_succ in IH. }
  apply (Hs CNAMECACHESIZE O). done.
Qed.

(** C16: The cache of CNAMEs, a thousand cells in two chains, works as a map
    from names without regard to case.  On a whole cache, and the initial one
    is whole, a walk and an addition stay within the table and leave it whole.
    What was added is found, as long as it is not out of date; other names,
    when there was a free cell, are found as before. *)
Theorem cname_cache_is_a_map now rnd host cname ttl c : cache_whole c ->
  (forall h, exists c' found, scan_cache now h c = Some (c', found) /\ cache_whole c' /\
     forall now' h', now <= now' -> lookup_cache now' h' c' = lookup_cache now' h' c) /\
  exists c', add_cname_cache now rnd host cname ttl c = Some (c', cname) /\ cache_whole c' /\
    (now <= ttl -> forall h, CISTREQ h host = true -> lookup_cache now h c' = Some cname) /\
    (0 <= cn_free c -> forall now' h, now <= now' -> CISTREQ h host = false -> lookup_cache now' h c' = lookup_cache now' h c).
Proof.
  intros (used & free & Hch). split.
  - intros h. destruct (scan_cache_spec now h c used free Hch) as (c' & found & used' & free' & r & E & Hch' & Hp & _).
    exists c', found. split_and!; [done | by exists used', free'|]. intros now' h' Hn.
    rewrite (lookup_cache_cached _ _ _ _ _ Hch), (lookup_cache_cached _ _ _ _ _ Hch'). by rewrite <- (purge_keeps now now' h h' (says_at (cn_cells c) used) Hn), Hp.
  - destruct (add_spec now rnd host cname ttl c used free Hch) as (c' & used' & free' & r & E & Hch' & Hr). cbv zeta in Hr.
    destruct (make_room_spec now rnd c used free Hch) as (_ & Hroom & _).
    exists c'. split_and!; [done | by exists used', free' | |].
    + intros Ht h Hh. rewrite (lookup_cache_cached _ _ _ _ _ Hch'), (cached_same _ _ _ _ Hh). destruct r as [s|].
      * destruct Hr as (l1 & l2 & Hp & -> & Hl1). rewrite cached_app_skip by done. apply purge_stops in Hp as (Ho & Hn & _).
        unfold cached. cbn [List.find]. destruct (renamed_same cname s) as [-> ->]. rewrite Ho, Hn. by destruct s as [[[? ?] ?] ?].
      * destruct Hr as (es' & _ & ->). unfold cached. cbn [List.find names outdated]. rewrite (proj2 (Z.ltb_ge _ _)) by lia. rewrite Z.eqb_refl.
        assert (CISTREQ host host = true) as -> by (by apply cistreq_eq). done.
    + intros Hfree now' h Hn Hh. assert (free <> []) as Hne.
      { intros ->. pose proof (ch_free _ _ _ Hch) as Hf. cbn in Hf. lia. }
      rewrite (Hroom Hne) in Hr. rewrite (lookup_cache_cached _ _ _ _ _ Hch), (lookup_cache_cached _ _ _ _ _ Hch'). f_equal.
      rewrite <- (purge_keeps now now' host h (says_at (cn_cells c) used) Hn). destruct r as [s|].
      * destruct Hr as (l1 & l2 & Hp & -> & _). rewrite Hp. cbn [fst]. apply (cached_renamed _ host); [|done]. apply purge_stops in Hp as (_ & Hnm & _). exact Hnm.
      * destruct Hr as (es' & -> & ->). unfold cached. cbn [List.find names fst]. destruct (CISTREQ host h) eqn:E2; [|by rewrite !andb_false_r].
        apply cistreq_eq in E2. assert (CISTREQ h host = true) as E3 by (by apply cistreq_eq). congruence.
Qed.

Lemma cname_cache_is_a_map_witness : cache_whole cnamecache_init /\
  exists c', add_cname_cache 5 0 ($$"A.org") (Some ($$"b.org")) 9 cnamecache_init = Some (c', Some ($$"b.org")) /\
  lookup_cache 5 ($$"a.ORG") c' = Some (Some ($$"b.org")).
Proof.
  split; [apply cnamecache_init_whole|].
  destruct (cname_cache_is_a_map 5 0 ($$"A.org") (Some ($$"b.org")) 9 cnamecache_init cnamecache_init_whole) as (_ & c' & E & _ & Hf & _).
  exists c'. split; [exact E|]. apply Hf; [lia | reflexivity].
Defined.
