(* ===== verification/ScInv.v ===== *)
(** * The SMTP client: what a delivery keeps

    The replies since the last flush belong to the commands in their order;
    a refused recipient has no lock any more, and the refusal of another
    command shows in the states; a recipient has its report exactly when its
    lock was given back; and who is reported as delivered was accepted, and so
    was the end of the message.  This file has the invariant, and the
    functions up to smtp_sync() and smtpwrite(). *)

From Stdlib Require Import ZArith Lia.
From stdpp Require Import base tactics numbers list option sets.
From S2P Require Import Prelude TaFile TaDiag TaCtl ScState ScReply ScBody ScCommand ScDeliver.

#[local] Open Scope Z_scope.

(** ** The trace *)

(** What happened since the dialogue was last flushed, latest first. *)
Fixpoint since (tr : list event) : list event :=
  match tr with
  | [] => []
  | EvFlush :: _ => []
  | e :: tr => e :: since tr
  end.

(** The commands that have a reply, in order. *)
Definition reply_cmd (e : event) : option pipecmd := match e with EvReply pc _ => Some pc | _ => None end.
Definition replied (tr : list event) : list pipecmd := rev (omap reply_cmd (since tr)).

(** The message and the recipient were accepted. *)
Definition message_accepted (tr : list event) : Prop :=
  exists pc code, EvReply pc code ∈ since tr /\ p_rcpt pc = None /\ p_state pc = SMTPSTATE_DATADOT /\ code < 400.
Definition rcpt_accepted (id : nat) (tr : list event) : Prop :=
  exists pc code, EvReply pc code ∈ since tr /\ p_rcpt pc = Some id /\ code < 400.

(** Every report of success is behind both. *)
Fixpoint delivered_ok (tr : list event) : Prop :=
  match tr with
  | [] => True
  | EvDiag id rc :: tr => (rc = EX_OK -> message_accepted tr /\ rcpt_accepted id tr) /\ delivered_ok tr
  | _ :: tr => delivered_ok tr
  end.

Definition reports_of (id : nat) (tr : list event) : nat :=
  length (List.filter (fun e => match e with EvDiag i _ => (i =? id)%nat | _ => false end) tr).

(** Events that say nothing about replies and reports *)
Definition quiet_event (e : event) : bool :=
  match e with EvReply _ _ | EvDiag _ _ | EvFlush => false | _ => true end.

Lemma quiet_since es tr : forallb quiet_event es = true -> exists es', since (es ++ tr) = es' ++ since tr /\ forallb quiet_event es' = true.
Proof.
  induction es as [|e es IH]; [by exists []|]. cbn [forallb app]. intros [He Hes]%andb_prop.
  destruct (IH Hes) as (es' & E & Hes'). exists (e :: es'). cbn [forallb app]. rewrite He, Hes'. split; [|done].
  destruct e; cbn in *; by rewrite ?E.
Qed.

Lemma quiet_replied es tr : forallb quiet_event es = true -> replied (es ++ tr) = replied tr.
Proof.
  intros Hes. destruct (quiet_since es tr Hes) as (es' & E & Hes'). unfold replied. rewrite E. f_equal. clear E.
  induction es' as [|e es' IH]; [done|]. cbn in Hes'. apply andb_prop in Hes' as [He Hes']. rewrite <- (IH Hes'). by destruct e.
Qed.

Lemma quiet_reply es tr pc code : forallb quiet_event es = true ->
  EvReply pc code ∈ since (es ++ tr) <-> EvReply pc code ∈ since tr.
Proof.
  intros Hes. destruct (quiet_since es tr Hes) as (es' & E & Hes'). rewrite E, elem_of_app. split; [|tauto].
  intros [Hin|]; [|done]. rewrite forallb_forall in Hes'. apply list_elem_of_In in Hin. by specialize (Hes' _ Hin).
Qed.

Lemma quiet_delivered es tr : forallb quiet_event es = true -> delivered_ok (es ++ tr) <-> delivered_ok tr.
Proof.
  induction es as [|e es IH]; [done|]. cbn [forallb app]. intros [He Hes]%andb_prop. rewrite <- (IH Hes). by destruct e.
Qed.

Lemma quiet_reports id es tr : forallb quiet_event es = true -> reports_of id (es ++ tr) = reports_of id tr.
Proof.
  induction es as [|e es IH]; [done|]. cbn [forallb app]. intros [He Hes]%andb_prop. rewrite <- (IH Hes). by destruct e.
Qed.

(** ** Recipients *)

Definition recipients (c : client) : list rcpt := d_recipients (c_desc c).
Definition locked (c : client) (id : nat) : Prop :=
  exists rp, find_rcpt id (recipients c) = Some rp /\ r_lockoffset rp <> O.

(** The parts of a recipient that stay as they are *)
Definition fixed (rp : rcpt) := (r_id rp, r_ezmlm rp).

Lemma find_rcpt_id id rps rp : find_rcpt id rps = Some rp -> r_id rp = id /\ rp ∈ rps.
Proof. unfold find_rcpt. intros [Hin Hid]%find_some. apply Nat.eqb_eq in Hid. by rewrite list_elem_of_In. Qed.

Lemma find_rcpt_in rps rp : NoDup (r_id <$> rps) -> rp ∈ rps -> find_rcpt (r_id rp) rps = Some rp.
Proof.
  induction rps as [|x rps IH]; [by intros _ ?%elem_of_nil|]. cbn. intros [Hx Hnd]%NoDup_cons [->|Hin]%elem_of_cons.
  - by rewrite Nat.eqb_refl.
  - destruct (r_id x =? r_id rp)%nat eqn:E; [|by apply IH]. apply Nat.eqb_eq in E. destruct Hx. rewrite E.
    by apply list_elem_of_fmap_2.
Qed.

Lemma find_put_rcpt id rp rps : NoDup (r_id <$> rps) ->
  find_rcpt id (put_rcpt rp rps) =
  if (r_id rp =? id)%nat then if find_rcpt id rps then Some rp else None else find_rcpt id rps.
Proof.
  unfold find_rcpt, put_rcpt. intros Hnd. induction rps as [|x rps IH]; [by destruct (_ =? _)%nat|].
  cbn [fmap list_fmap] in Hnd |- *. apply NoDup_cons in Hnd as [_ Hnd]. specialize (IH Hnd). cbn [List.find].
  destruct (r_id x =? r_id rp)%nat eqn:E1.
  - apply Nat.eqb_eq in E1. rewrite <- E1 in *. destruct (r_id x =? id)%nat eqn:E2; [done|]. done.
  - destruct (r_id x =? id)%nat eqn:E2; [|done]. apply Nat.eqb_eq in E2 as <-. by rewrite Nat.eqb_sym, E1.
Qed.

Lemma put_rcpt_fixed rp0 rp rps : NoDup (r_id <$> rps) -> rp0 ∈ rps -> fixed rp = fixed rp0 ->
  fixed <$> put_rcpt rp rps = fixed <$> rps.
Proof.
  intros Hnd Hin Hf. unfold put_rcpt. rewrite <- list_fmap_compose. apply list_fmap_ext. intros i x Hx. unfold compose.
  destruct (r_id x =? r_id rp)%nat eqn:E; [|done]. apply Nat.eqb_eq in E. rewrite Hf. f_equal.
  assert (r_id rp = r_id rp0) as E2 by (unfold fixed in Hf; congruence).
  pose proof (find_rcpt_in rps rp0 Hnd Hin) as F1. apply list_elem_of_lookup_2 in Hx.
  pose proof (find_rcpt_in rps x Hnd Hx) as F2. congruence.
Qed.

(** ** The invariant *)

Definition BAD_STATES : Z := Z.lor (Z.lor FROMSTATE_400 FROMSTATE_500) (Z.lor DATASTATE_400 DATASTATE_500).

(** Bits that make a report keep the lock; they are for other agents. *)
Definition gives_back (flgs : Z) : Prop :=
  flag_set flgs _DSN__DIAGDELAYMODE = false /\ flag_set flgs _DSN__TEMPFAIL_NO_UNLOCK = false.

Definition rcpt_fine (tr : list event) (rp : rcpt) : Prop :=
  gives_back (r_notifyflgs rp) /\ reports_of (r_id rp) tr = if (r_lockoffset rp =? 0)%nat then 1%nat else O.

(** How much holds: whether the refusal of a command shows in the states, and
    for which recipient a refusal was not yet acted on. *)
Record grade := Grade { g_bad : bool; g_except : option nat }.
Definition full : grade := Grade true None.
Definition weak : grade := Grade false None.

Section inv.
Context `{TaEnv, ScEnv, DeliverEnv}.

Definition outer (c : client) : Prop := no_pipelining = true -> delivered_ok (c_trace c).

Record INV (w : grade) (c : client) : Prop := {
  in_replied : replied (c_trace c) = take (c_pipereplies c) (c_pipe c);
  in_le : (c_pipereplies c <= length (c_pipe c))%nat;
  in_bad : g_bad w = true -> forall pc code, EvReply pc code ∈ since (c_trace c) -> 400 <= code -> p_rcpt pc = None ->
    flag_set (c_rcptstates c) BAD_STATES = true;
  in_refused : forall pc code id, EvReply pc code ∈ since (c_trace c) -> 400 <= code -> p_rcpt pc = Some id ->
    g_except w <> Some id -> ~ locked c id;
  in_delivered : outer c;
  in_fine : Forall (rcpt_fine (c_trace c)) (recipients c);
  in_ids : NoDup (r_id <$> recipients c);
  in_pl : c_pipelining c = true -> no_pipelining = false
}.

Lemma INV_full w c : INV full c -> INV w c.
Proof. intros [I1 I2 I3 I4 I5 I6 I7 I8]. split; [done | done | intros _; by apply I3 | intros pc code id ? ? ? _; by eapply I4 | done..]. Qed.

(** ** Steps *)

(** The recipients are the same, and no lock comes back. *)
Definition lk (c c' : client) : Prop :=
  fixed <$> recipients c' = fixed <$> recipients c /\ forall id, locked c' id -> locked c id.

(** A connection that was closed stays so, and where no chunks are made there
    are none. *)
Definition stays (c c' : client) : Prop :=
  (c_smtpfp c = false -> c_smtpfp c' = false) /\ c_doing_chunking c' = c_doing_chunking c /\
  (c_doing_chunking c = false -> c_chunkbuf c = None -> c_chunkbuf c' = None).

(** And commands are only added to the pipe, as long as the connection is
    there. *)
Definition goes (c c' : client) : Prop :=
  lk c c' /\ stays c c' /\ (c_pipe c `prefix_of` c_pipe c' \/ c_smtpfp c' = false).

Lemma lk_refl c : lk c c.
Proof. done. Qed.
Lemma lk_trans c1 c2 c3 : lk c1 c2 -> lk c2 c3 -> lk c1 c3.
Proof. intros [F1 L1] [F2 L2]. split; [congruence | auto]. Qed.
Lemma stays_trans c1 c2 c3 : stays c1 c2 -> stays c2 c3 -> stays c1 c3.
Proof. intros (F1 & D1 & C1) (F2 & D2 & C2). rewrite D1 in *. split_and!; auto. Qed.
Lemma goes_refl c : goes c c.
Proof. split_and!; [done..|by left]. Qed.
Lemma goes_trans c1 c2 c3 : goes c1 c2 -> goes c2 c3 -> goes c1 c3.
Proof.
  intros (L1 & S1 & P1) (L2 & S2 & P2). split; [by eapply lk_trans|]. split; [by eapply stays_trans|].
  destruct P2 as [P2|]; [|by right]. destruct P1 as [P1|]; [left; by etransitivity | right; by apply S2].
Qed.

(** Nothing of this is touched. *)
Record quietly (c c' : client) : Prop := {
  qu_pipe : c_pipe c' = c_pipe c;
  qu_replies : c_pipereplies c' = c_pipereplies c;
  qu_states : c_rcptstates c' = c_rcptstates c;
  qu_rcpts : recipients c' = recipients c;
  qu_fp : c_smtpfp c' = c_smtpfp c;
  qu_pl : c_pipelining c' = c_pipelining c;
  qu_stays : stays c c';
  qu_trace : exists es, c_trace c' = es ++ c_trace c /\ forallb quiet_event es = true
}.

Lemma quietly_refl c : quietly c c.
Proof. split; [done..|by exists []]. Qed.
Lemma quietly_trans c1 c2 c3 : quietly c1 c2 -> quietly c2 c3 -> quietly c1 c3.
Proof.
  intros [? ? ? ? ? ? S1 (es1 & E1 & Q1)] [? ? ? ? ? ? S2 (es2 & E2 & Q2)]. split; try congruence; [by eapply stays_trans|].
  exists (es2 ++ es1). rewrite forallb_app, Q1, Q2, E2, E1. by rewrite app_assoc.
Qed.

Lemma quietly_locked c c' id : quietly c c' -> locked c' id <-> locked c id.
Proof. intros Q. unfold locked. by rewrite (qu_rcpts _ _ Q). Qed.

Lemma quietly_INV w c c' : quietly c c' -> INV w c -> INV w c'.
Proof.
  intros Q [I1 I2 I3 I4 I5 I6 I7 I8]. pose proof (fun id => quietly_locked c c' id Q) as HL. destruct Q as [P R S D F PL ST (es & T & Hq)].
  split.
  - by rewrite T, P, R, quiet_replied.
  - by rewrite P, R.
  - intros Hw pc code. rewrite T, S, quiet_reply by done. by apply I3.
  - intros pc code id. rewrite T, quiet_reply by done. rewrite HL. by apply I4.
  - unfold outer. rewrite T, quiet_delivered by done. done.
  - rewrite D, T. eapply Forall_impl; [exact I6|]. intros rp [Hf Hr]. split; [done|]. by rewrite quiet_reports.
  - by rewrite D.
  - by rewrite PL.
Qed.

Lemma quietly_goes c c' : quietly c c' -> goes c c'.
Proof.
  intros Q. split; [split; [by rewrite (qu_rcpts _ _ Q)|]; intros id; by rewrite (quietly_locked _ _ _ Q)|].
  split; [apply Q | left; by rewrite (qu_pipe _ _ Q)].
Qed.

(** ** Programs *)

Definition quiet {A} (m : SC A) : Prop := forall c, wpx m (fun _ c' => quietly c c') (fun _ c' => quietly c c') c.

(** [good]: the invariant is kept, and the pipe only grows; [safe]: the
    invariant is kept. *)
Definition good (w : grade) {A} (m : SC A) : Prop :=
  forall c, INV w c -> wpx m (fun _ c' => outer c') (fun _ c' => INV w c' /\ goes c c') c.
Definition safe (w w' : grade) {A} (m : SC A) : Prop :=
  forall c, INV w c -> wpx m (fun _ c' => outer c') (fun _ c' => INV w' c' /\ lk c c') c.

Lemma quiet_bind {A B} (m : SC A) (k : A -> SC B) : quiet m -> (forall a, quiet (k a)) -> quiet (m ≫= k).
Proof.
  intros Hm Hk c. apply wpx_bind. eapply wpx_mono; [apply Hm | done|]. cbv beta. intros a c1 Q1.
  eapply wpx_mono; [apply Hk | |]; cbv beta; intros ? c2 Q2; by eapply quietly_trans.
Qed.
Lemma good_bind w {A B} (m : SC A) (k : A -> SC B) : good w m -> (forall a, good w (k a)) -> good w (m ≫= k).
Proof.
  intros Hm Hk c I. apply wpx_bind. eapply wpx_mono; [by apply Hm | done|]. cbv beta. intros a c1 [I1 G1].
  eapply wpx_mono; [by apply Hk | done|]; cbv beta. intros ? c2 [I2 G2]. split; [done|]. by eapply goes_trans.
Qed.
Lemma safe_bind w w1 w2 {A B} (m : SC A) (k : A -> SC B) : safe w w1 m -> (forall a, safe w1 w2 (k a)) -> safe w w2 (m ≫= k).
Proof.
  intros Hm Hk c I. apply wpx_bind. eapply wpx_mono; [by apply Hm | done|]. cbv beta. intros a c1 [I1 G1].
  eapply wpx_mono; [by apply Hk | done|]; cbv beta. intros ? c2 [I2 G2]. split; [done|]. by eapply lk_trans.
Qed.

Lemma quiet_good w {A} (m : SC A) : quiet m -> good w m.
Proof.
  intros Hm c I. eapply wpx_mono; [apply Hm | |]; cbv beta.
  - intros _ c' Q. by apply (in_delivered _ _ (quietly_INV _ _ _ Q I)).
  - intros _ c' Q. split; [by eapply quietly_INV | by apply quietly_goes].
Qed.
Lemma good_safe w {A} (m : SC A) : good w m -> safe w w m.
Proof. intros Hm c I. eapply wpx_mono; [by apply Hm | done|]. cbv beta. intros _ c' [I' [L _]]. done. Qed.
Lemma safe_weaken w {A} (m : SC A) : safe w full m -> safe w weak m.
Proof. intros Hm c I. eapply wpx_mono; [by apply Hm | done|]. cbv beta. intros _ c' [I' L]. split; [by apply INV_full | done]. Qed.

Lemma quiet_ret {A} (a : A) : quiet (mret a).
Proof. intros c. apply wpx_ret, quietly_refl. Qed.
Lemma quiet_exit {A} e : quiet (A := A) (exit e).
Proof. intros c. apply wpx_exit, quietly_refl. Qed.
Lemma quiet_read {A} (f : client -> A) : quiet (read f).
Proof. intros c. apply wpx_read, quietly_refl. Qed.
Lemma quiet_update f : (forall c, quietly c (f c)) -> quiet (update f).
Proof. intros Hf c. apply wpx_update, Hf. Qed.
Lemma quiet_when b m : quiet m -> quiet (when_ b m).
Proof. intros Hm. destruct b; [done | apply quiet_ret]. Qed.
Lemma quiet_ev e : quiet_event e = true -> quiet (ev e).
Proof. intros He. apply quiet_update. intros c. split; [done..|]. exists [e]. cbn. by rewrite He. Qed.
Lemma good_when w b m : good w m -> good w (when_ b m).
Proof. intros Hm. destruct b; [done | apply quiet_good, quiet_ret]. Qed.
Lemma good_exit w {A} e : good w (A := A) (exit e).
Proof. apply quiet_good, quiet_exit. Qed.
Lemma safe_exit w w' {A} e : safe w w' (A := A) (exit e).
Proof. intros c I. apply wpx_exit, (in_delivered _ _ I). Qed.
End inv.

Create HintDb scq.

(** A field that has nothing to do with it *)
Ltac stays_tac := split_and!; intros; cbn in *; repeat match goal with E : _ = None |- _ => rewrite E end; done.
Ltac quiet_field := apply quiet_update; intros; split; [reflexivity..|stays_tac|exists []; split; reflexivity].

Ltac quiet_step :=
  match goal with
  | |- quiet (mret _) => apply quiet_ret
  | |- quiet (mbind _ _) => apply quiet_bind; [|intros ?]
  | |- quiet (exit _) => apply quiet_exit
  | |- quiet (read _) => apply quiet_read
  | |- quiet (ev _) => apply quiet_ev; reflexivity
  | |- quiet (when_ _ _) => apply quiet_when
  | |- quiet (update _) => solve [quiet_field]
  | |- quiet (if ?b then _ else _) => destruct b
  | |- quiet (match ?x with _ => _ end) => destruct x
  | |- quiet _ => solve [auto with scq nocore]
  | |- forall _, _ => intros ?
  end.
Ltac quiet_steps := repeat quiet_step.

Ltac good_step :=
  match goal with
  | |- good _ _ => solve [auto with scq nocore]
  | |- good _ (mret _) => apply quiet_good, quiet_ret
  | |- good _ (mbind _ _) => apply good_bind; [|intros ?]
  | |- good _ (exit _) => apply good_exit
  | |- good _ (read _) => apply quiet_good, quiet_read
  | |- good _ (ev _) => apply quiet_good, quiet_ev; reflexivity
  | |- good _ (when_ _ _) => apply good_when
  | |- good _ (update _) => solve [apply quiet_good; quiet_field]
  | |- good _ (if ?b then _ else _) => destruct b
  | |- good _ (match ?x with _ => _ end) => destruct x
  | |- good _ _ => solve [apply quiet_good; auto with scq nocore]
  | |- forall _, _ => intros ?
  end.
Ltac good_steps := repeat good_step.

Ltac safe_step :=
  match goal with
  | |- safe _ _ (exit _) => apply safe_exit
  | |- safe _ _ (if ?b then _ else _) => destruct b
  | |- safe _ _ (match ?x with _ => _ end) => destruct x
  | |- safe _ _ _ => solve [auto with scq nocore]
  | |- safe ?w ?w _ => solve [apply good_safe; good_steps]
  | |- safe ?w ?w (mbind _ _) => apply (safe_bind w w w); [|intros ?]
  | |- forall _, _ => intros ?
  end.

(** ** The stream and the texts *)

Section quiet.
Context `{TaEnv, ScEnv, DeliverEnv}.

Lemma quiet_sfwrite l : quiet (sfwrite l).
Proof. unfold sfwrite. quiet_steps. Qed.
Lemma quiet_sfsync : quiet sfsync.
Proof. unfold sfsync. quiet_steps. Qed.
Lemma quiet_nbread : quiet smtp_nbread.
Proof. unfold smtp_nbread. quiet_steps. Qed.
Lemma quiet_select : quiet select_sleep.
Proof. unfold select_sleep. quiet_steps. Qed.
Lemma quiet_readable : quiet has_readable.
Proof. unfold has_readable. quiet_steps. Qed.
Lemma quiet_rmsgappend append text : quiet (rmsgappend append text).
Proof. unfold rmsgappend. quiet_steps. Qed.
Lemma quiet_remotemsg : quiet remotemsg.
Proof. unfold remotemsg. quiet_steps. Qed.
Lemma quiet_set_remotemsg text : quiet (set_remotemsg text).
Proof. unfold set_remotemsg. quiet_steps. Qed.
Lemma quiet_get_rcpt id : quiet (get_rcpt id).
Proof. unfold get_rcpt. quiet_steps. Qed.
Lemma quiet_desc_str s : quiet (desc_str s).
Proof. unfold desc_str. quiet_steps. Qed.
Lemma quiet_notaryreport a1 a2 a3 a4 : quiet (sc_notaryreport a1 a2 a3 a4).
Proof. unfold sc_notaryreport. quiet_steps. Qed.
#[local] Hint Resolve quiet_sfwrite quiet_sfsync quiet_nbread quiet_select quiet_readable quiet_rmsgappend quiet_remotemsg
  quiet_set_remotemsg quiet_get_rcpt quiet_desc_str quiet_notaryreport : scq.
Lemma quiet_notary_user id a2 a3 a4 : quiet (notary_user id a2 a3 a4).
Proof. unfold notary_user. quiet_steps. Qed.
Lemma quiet_add_capability bit : quiet (add_capability bit).
Proof. unfold add_capability. quiet_steps. Qed.
#[local] Hint Resolve quiet_add_capability : scq.
Lemma quiet_ehlo_check s : quiet (ehlo_check s).
Proof. unfold ehlo_check. quiet_steps. Qed.
Lemma quiet_banner_check s : quiet (esmtp_banner_check s).
Proof. unfold esmtp_banner_check. quiet_steps. Qed.
Lemma quiet_has_states bits : quiet (has_states bits).
Proof. unfold has_states. quiet_steps. Qed.
#[local] Hint Resolve quiet_ehlo_check quiet_banner_check : scq.
Lemma quiet_sync_line idx s eol : quiet (sync_line idx s eol).
Proof. unfold sync_line. quiet_steps. Qed.
Lemma quiet_write_failure : quiet write_failure.
Proof. unfold write_failure. quiet_steps. Qed.
Lemma quiet_put_command l : quiet (put_command l).
Proof. unfold put_command. quiet_steps. Qed.
Lemma quiet_drain n : quiet (drain n).
Proof. induction n as [|n IH]; cbn [drain]; quiet_steps. Qed.
Lemma quiet_lmtp_pending idx : quiet (lmtp_pending idx).
Proof. unfold lmtp_pending. quiet_steps. Qed.
Lemma quiet_is_open : quiet is_open.
Proof. unfold is_open. quiet_steps. Qed.
End quiet.

#[export] Hint Resolve quiet_sfwrite quiet_sfsync quiet_nbread quiet_select quiet_readable quiet_rmsgappend quiet_remotemsg
  quiet_set_remotemsg quiet_get_rcpt quiet_desc_str quiet_notaryreport quiet_notary_user quiet_add_capability
  quiet_ehlo_check quiet_banner_check quiet_has_states quiet_sync_line quiet_write_failure quiet_put_command quiet_drain
  quiet_lmtp_pending quiet_is_open : scq.

(** ** Flushing *)

Section flush.
Context `{TaEnv, ScEnv, DeliverEnv}.

Lemma reports_flush id tr : reports_of id (EvFlush :: tr) = reports_of id tr.
Proof. done. Qed.

(** Behind a flush all is as it should be. *)
Lemma flush_spec w c F : INV w c -> wpx smtp_flush F (fun _ c' => INV full c' /\ lk c c' /\ c_pipe c' = [] /\ c_smtpfp c' = c_smtpfp c /\ stays c c') c.
Proof.
  intros [I1 I2 I3 I4 I5 I6 I7 I8]. unfold smtp_flush, ev. do 7 (try apply wpx_bind; apply wpx_update).
  split_and!; [|done..]. split; cbn; [done | lia | by intros _ ? ? ?%elem_of_nil | by intros ? ? ? ?%elem_of_nil | done..].
Qed.

Lemma safe_flush w : safe w full smtp_flush.
Proof. intros c I. eapply wpx_mono; [by apply (flush_spec w c (fun _ _ => False)) | done|]. cbv beta. intros _ c' (? & ? & _). done. Qed.

Lemma good_smtpclose w : good w smtpclose.
Proof.
  intros c I. unfold smtpclose. apply wpx_bind, wpx_read, wpx_bind.
  assert (exists c1, (when_ (c_smtpfp c) (update (set_c_smtpfd false);; update (set_c_fileno false);; update (set_c_smtpfp false);; ev EvClose)) c
    = (inr tt, c1) /\ c_smtpfp c1 = false /\ c_pipe c1 = c_pipe c /\ INV w c1 /\ lk c c1 /\ stays c c1) as (c1 & E & Hfp & Hp & I1 & L1 & S1).
  { destruct (c_smtpfp c) eqn:Efp; eexists; (split; [reflexivity|]); split_and!; try done.
    apply (quietly_INV w (set_c_smtpfp false (set_c_fileno false (set_c_smtpfd false c)))).
    - split; [done..|]. by exists [EvClose].
    - by destruct I. }
  unfold wpx at 1. rewrite E. eapply wpx_mono; [by apply (flush_spec w c1 (fun _ _ => False)) | done|]. cbv beta.
  intros _ c2 (I2 & L2 & _ & F2 & S2). split; [by apply INV_full|].
  split; [by eapply lk_trans|]. split; [by eapply stays_trans | right; by rewrite F2].
Qed.
End flush.
#[export] Hint Resolve good_smtpclose safe_flush : scq.

(** ** Reports *)

Section reports.
Context `{TaEnv, ScEnv, DeliverEnv}.

Lemma get_rcpt_spec id (F : sc_stop -> client -> Prop) Q c :
  F ScSegv c -> (forall rp, find_rcpt id (recipients c) = Some rp -> Q rp c) -> wpx (get_rcpt id) F Q c.
Proof.
  intros HF HQ. unfold get_rcpt. apply wpx_bind, wpx_read. unfold recipients in HQ.
  destruct (find_rcpt id (d_recipients (c_desc c))); [by apply wpx_ret, HQ | by apply wpx_exit].
Qed.

(** A recipient is replaced, and perhaps reported. *)
Definition replaced (rp rp' : rcpt) : Prop :=
  fixed rp' = fixed rp /\ gives_back (r_notifyflgs rp') /\ (r_lockoffset rp = O -> r_lockoffset rp' = O).

Lemma put_locked id rp rp' c c' : NoDup (r_id <$> recipients c) -> find_rcpt id (recipients c) = Some rp -> replaced rp rp' ->
  recipients c' = put_rcpt rp' (recipients c) ->
  lk c c' /\ (r_lockoffset rp' = O -> ~ locked c' id).
Proof.
  intros Hnd Hf (Hx & Hg & Hl) Hc. destruct (find_rcpt_id _ _ _ Hf) as [Hid Hin].
  assert (r_id rp' = id) as Hid' by (unfold fixed in Hx; congruence).
  split; [split|].
  - rewrite Hc. by apply put_rcpt_fixed with rp.
  - intros id2 (rp2 & F2 & L2). rewrite Hc, find_put_rcpt, Hid' in F2 by done.
    destruct (id =? id2)%nat eqn:E; [|by exists rp2]. apply Nat.eqb_eq in E as <-. rewrite Hf in F2. injection F2 as <-.
    exists rp. split; [done|]. intros E. by rewrite Hl in L2.
  - intros Hz (rp2 & F2 & L2). rewrite Hc, find_put_rcpt, Hid', Nat.eqb_refl, Hf in F2 by done. injection F2 as <-. done.
Qed.

Lemma put_INV w id rp rp' es c c' : INV w c -> find_rcpt id (recipients c) = Some rp -> replaced rp rp' ->
  recipients c' = put_rcpt rp' (recipients c) -> c_pipe c' = c_pipe c -> c_pipereplies c' = c_pipereplies c ->
  c_rcptstates c' = c_rcptstates c -> c_pipelining c' = c_pipelining c -> c_trace c' = es ++ c_trace c ->
  (es = [] /\ r_lockoffset rp' = r_lockoffset rp \/
   r_lockoffset rp <> O /\ r_lockoffset rp' = O /\
   exists rc, es = [EvDiag id rc] /\ (no_pipelining = true -> rc = EX_OK -> message_accepted (c_trace c) /\ rcpt_accepted id (c_trace c))) ->
  INV w c'.
Proof.
  intros I Hf Hrep Hc Hp Hr Hs Hpl Ht Hes. pose proof (put_locked _ _ _ _ _ (in_ids _ _ I) Hf Hrep Hc) as [[Hfx Hlk] _].
  destruct Hrep as (Hx & Hg & Hl). destruct (find_rcpt_id _ _ _ Hf) as [Hid Hin]. destruct I as [I1 I2 I3 I4 I5 I6 I7 I8].
  assert (r_id rp' = id) as Hid' by (unfold fixed in Hx; congruence).
  assert (replied (es ++ c_trace c) = replied (c_trace c) /\ forall pc code, EvReply pc code ∈ since (es ++ c_trace c) -> EvReply pc code ∈ since (c_trace c)) as [Hrep Hev].
  { destruct Hes as [[-> _] | (_ & _ & rc & -> & _)]; [done|]. split; [done|]. cbn. intros pc code [?|]%elem_of_cons; done. }
  assert (r_id <$> recipients c' = r_id <$> recipients c) as Hids.
  { pose proof (f_equal (fmap fst) Hfx) as E. by rewrite <- !list_fmap_compose in E. }
  split.
  - by rewrite Ht, Hp, Hr, Hrep.
  - by rewrite Hp, Hr.
  - intros Hw pc code. rewrite Ht, Hs. eauto.
  - intros pc code id2. rewrite Ht. intros Hin2 Hcode Hrc Hexc HL. eapply I4; eauto.
  - intros Hn. rewrite Ht. specialize (I5 Hn). destruct Hes as [[-> _] | (_ & _ & rc & -> & Hok)]; [done|]. cbn. split; [|done]. by apply Hok.
  - rewrite Hc, Ht. unfold put_rcpt. apply Forall_fmap, Forall_forall. intros x Hxin. unfold compose.
    rewrite Forall_forall in I6. destruct (r_id x =? r_id rp')%nat eqn:E.
    + split; [done|]. destruct (I6 rp Hin) as [_ Hcnt]. rewrite Hid' in *. rewrite Hid in Hcnt.
      destruct Hes as [[-> El] | (Hl1 & Hl2 & rc & -> & _)]; [cbn; by rewrite El|].
      unfold reports_of in *. cbn. rewrite Nat.eqb_refl. cbn. rewrite Hcnt, Hl2. apply Nat.eqb_neq in Hl1. by rewrite Hl1.
    + destruct (I6 x Hxin) as [Hfx2 Hcnt]. split; [done|]. rewrite <- Hcnt.
      destruct Hes as [[-> El] | (Hl1 & Hl2 & rc & -> & _)]; [done|]. unfold reports_of. cbn. rewrite Hid' in E.
      by rewrite Nat.eqb_sym, E.
  - by rewrite Hids.
  - by rewrite Hpl.
Qed.

(** [set_rcpt] with the lock as it is *)
Lemma set_rcpt_spec w id rp rp' F c : INV w c -> find_rcpt id (recipients c) = Some rp -> replaced rp rp' ->
  r_lockoffset rp' = r_lockoffset rp ->
  wpx (set_rcpt rp') F (fun _ c' => INV w c' /\ goes c c' /\ c_trace c' = c_trace c /\ c_pipe c' = c_pipe c /\
    c_pipereplies c' = c_pipereplies c /\ c_rcptstates c' = c_rcptstates c /\ (forall id, locked c' id <-> locked c id) /\
    recipients c' = put_rcpt rp' (recipients c)) c.
Proof.
  intros I Hf Hrep Hl. unfold set_rcpt. apply wpx_update. set (c' := set_c_desc _ c).
  assert (recipients c' = put_rcpt rp' (recipients c)) as Hc by done.
  pose proof (put_locked id rp rp' c c' (in_ids _ _ I) Hf Hrep Hc) as [L _].
  assert (INV w c') as I' by (eapply (put_INV w id rp rp' []); eauto).
  split_and!; [done | split_and!; [done | done | by left] | done.. | | done].
  intros id2. split; [apply L|]. intros (rp2 & F2 & L2). destruct (find_rcpt_id _ _ _ Hf) as [Hid _].
  assert (r_id rp' = id) as Hid' by (destruct Hrep as [Hx _]; unfold fixed in Hx; congruence).
  unfold locked. rewrite Hc, find_put_rcpt, Hid' by apply I. destruct (id =? id2)%nat eqn:E; [|by exists rp2].
  apply Nat.eqb_eq in E as <-. rewrite F2. exists rp'. split; [done|]. rewrite Hl. rewrite Hf in F2. by injection F2 as <-.
Qed.

Lemma good_status w id st : good w (rp ← get_rcpt id; set_rcpt (set_r_status st rp)).
Proof.
  intros c I. apply wpx_bind, get_rcpt_spec; [apply I|]. intros rp Hf.
  eapply wpx_mono; [eapply (set_rcpt_spec w id rp _ (fun _ _ => False)); [done | done | | done] | done|].
  - split_and!; [done | | done]. destruct (find_rcpt_id _ _ _ Hf) as [_ Hin]. pose proof (in_fine _ _ I) as Hfine.
    rewrite Forall_forall in Hfine. apply (Hfine rp Hin).
  - cbv beta. intros _ c' (? & ? & _). done.
Qed.

(** *** diagnostic() *)

Lemma say_spec line F (Q : unit -> ta_state -> Prop) t : (forall t', Q tt t') -> wpx (say line) F Q t.
Proof. intros HQ. unfold say. by apply wpx_update. Qed.

Lemma ta_lock_spec off was new F (Q : bool -> ta_state -> Prop) t : (forall b t', Q b t') -> wpx (ta_lockaddr off was new) F Q t.
Proof. intros HQ. unfold ta_lockaddr, wpx. destruct (lockaddr _ _ _ _ _) as [ok fd]. apply HQ. Qed.

(** The lock is given back. *)
Lemma diagnostic_spec ctlid verbose rp rc timeout fmt args t : gives_back (r_notifyflgs rp) ->
  wpx (diagnostic ctlid verbose rp rc timeout fmt args) (fun _ _ => True)
    (fun rp' _ => replaced rp rp' /\ r_lockoffset rp' = O) t.
Proof.
  intros Hg. unfold diagnostic. apply wpx_if; intros E1.
  { apply andb_prop in E1 as [E1 _]. apply Nat.eqb_eq in E1. by apply wpx_ret. }
  apply wpx_bind. unfold need_action at 1. apply wpx_bind, wpx_read.
  set (rp1 := set_r_status rc rp).
  assert (forall t, wpx
    (zfail ← read t_zmalloc_failure;
     if zfail && negb (flag_set (r_notifyflgs rp1) _DSN__DIAGDELAYMODE) then malloc_report ctlid rp1
     else diag_report ctlid rp1 rc timeout (diag_message rc fmt args)) (fun _ _ => True)
    (fun rp' _ => replaced rp rp' /\ r_lockoffset rp' = O) t) as Hk.
  { intros t1. apply wpx_bind, wpx_read. apply wpx_if; intros _.
    - unfold malloc_report. apply wpx_if; intros E0; [apply Nat.eqb_eq in E0; by apply wpx_ret|].
      apply wpx_bind, wpx_read, wpx_bind, say_spec. intros t2. apply wpx_bind, ta_lock_spec. intros _ t3. by apply wpx_ret.
    - unfold diag_report. destruct (diag_verdict _ _ _) as [[statmsg mark] logreport].
      apply wpx_bind, wpx_update, wpx_bind, wpx_read, wpx_bind.
      eapply wpx_mono; [apply wpx_any | done|]. cbv beta. intros _ t2 _. apply wpx_if; intros E2.
      + apply wpx_bind, say_spec. intros t3. pose proof (proj2 Hg) as Hg2. change (r_notifyflgs rp1) with (r_notifyflgs rp). rewrite Hg2, andb_false_r.
        apply wpx_bind, ta_lock_spec. intros _ t4. apply wpx_ret. done.
      + apply wpx_ret. pose proof (proj1 Hg) as Hg1. change (r_notifyflgs rp1) with (r_notifyflgs rp) in E2. rewrite Hg1, andb_true_r in E2.
        apply negb_false_iff, Nat.eqb_eq in E2. split; [|done]. by split_and!. }
  destruct (n_A2 (t_notary t)); [apply wpx_ret | apply wpx_update]; apply Hk.
Qed.

Lemma sc_diagnostic_spec w id rc timeout fmt text c : INV w c ->
  (no_pipelining = true -> rc = EX_OK -> locked c id -> message_accepted (c_trace c) /\ rcpt_accepted id (c_trace c)) ->
  wpx (sc_diagnostic id rc timeout fmt text) (fun _ c' => outer c') (fun _ c' => INV w c' /\ goes c c' /\ ~ locked c' id /\
    c_pipe c' = c_pipe c /\ c_pipereplies c' = c_pipereplies c /\ c_rcptstates c' = c_rcptstates c /\ c_smtpfp c' = c_smtpfp c /\
    exists es, c_trace c' = es ++ c_trace c /\ (es = [] \/ es = [EvDiag id rc])) c.
Proof.
  intros I Hok. unfold sc_diagnostic. apply wpx_bind, get_rcpt_spec; [apply I|]. intros rp Hf.
  apply wpx_bind, wpx_read, wpx_bind, wpx_read, wpx_bind. destruct (find_rcpt_id _ _ _ Hf) as [Hid Hin].
  pose proof (in_fine _ _ I) as Hfine. rewrite Forall_forall in Hfine. destruct (Hfine rp Hin) as [Hg _].
  unfold wpx at 1, in_ta.
  pose proof (diagnostic_spec (d_ctlid (c_desc c)) (c_verboselog c) rp rc timeout fmt [ArgS text] (c_ta c) Hg) as Hd. unfold wpx in Hd.
  destruct (diagnostic _ _ _ _ _ _ _ _) as [[e|rp'] t]; [apply I|]. destruct Hd as [Hrep Hz].
  set (c1 := set_c_ta t c). apply wpx_bind. unfold set_rcpt. apply wpx_update. set (c2 := set_c_desc _ c1).
  assert (recipients c2 = put_rcpt rp' (recipients c)) as Hc by done.
  destruct (r_lockoffset rp =? 0)%nat eqn:E0; cbn [negb when_].
  - apply wpx_ret. apply Nat.eqb_eq in E0. destruct (put_locked id rp rp' c c2 (in_ids _ _ I) Hf Hrep Hc) as [L U].
    split_and!; [eapply (put_INV w id rp rp' []); eauto; left; by rewrite E0, Hz | split_and!; [done | done | by left] | by apply U | done.. |].
    exists []. by split; [|left].
  - unfold ev. apply wpx_update. set (c3 := set_c_trace _ c2). apply Nat.eqb_neq in E0.
    destruct (put_locked id rp rp' c c3 (in_ids _ _ I) Hf Hrep Hc) as [L U].
    split_and!; [eapply (put_INV w id rp rp' [EvDiag id rc]); eauto; right | split_and!; [done | done | by left] | by apply U | done.. |].
    + split_and!; [done | done|]. exists rc. split; [done|]. intros Hn Hrc. apply Hok; [done..|]. by exists rp.
    + exists [EvDiag id rc]. by split; [|right].
Qed.

Lemma good_diagnostic w id rc timeout fmt text : rc <> EX_OK -> good w (sc_diagnostic id rc timeout fmt text).
Proof.
  intros Hrc c I. eapply wpx_mono; [by apply (sc_diagnostic_spec w) | done|]. cbv beta. intros _ c' (? & ? & _). done.
Qed.
End reports.
#[export] Hint Resolve good_status good_diagnostic : scq.
