(* ===== verification/ScInvReply.v ===== *)
(** * The SMTP client: replies keep the invariant

    smtp_sync() gives each reply to the command it belongs to, acts on a
    refusal before the next reply is read, and says [EX_OK] only when all
    commands have a reply and none but recipients were refused. *)

From Stdlib Require Import ZArith Lia.
From stdpp Require Import base tactics numbers list option sets.
From S2P Require Import Prelude TaFile TaDiag TaCtl ScState ScReply ScBody ScCommand ScDeliver ScInv.

#[local] Open Scope Z_scope.

(** ** States *)

Lemma flag_set_lor_l a b m : flag_set a m = true -> flag_set (Z.lor a b) m = true.
Proof.
  unfold flag_set. intros E. apply negb_true_iff, Z.eqb_neq in E. apply negb_true_iff, Z.eqb_neq.
  rewrite Z.land_lor_distr_l. intros [? ?]%Z.lor_eq_0_iff. done.
Qed.
Lemma flag_set_lor_r a b m : flag_set b m = true -> flag_set (Z.lor a b) m = true.
Proof. rewrite Z.lor_comm. apply flag_set_lor_l. Qed.

Lemma flag_set_sub a m m' : Z.land m m' = m -> flag_set a m = true -> flag_set a m' = true.
Proof.
  unfold flag_set. intros Em E. apply negb_true_iff, Z.eqb_neq in E. apply negb_true_iff, Z.eqb_neq. intros E2. apply E.
  by rewrite <- Em, (Z.land_comm m m'), Z.land_assoc, E2.
Qed.

(** A verdict of [EX_OK] *)
Lemma verdict_ok states err : sync_verdict states err = EX_OK -> err = 0 /\ flag_set states BAD_STATES = false.
Proof.
  unfold sync_verdict. intros E. destruct (flag_set states FROMSTATE_500) eqn:E1; [done|].
  destruct (flag_set states FROMSTATE_400) eqn:E2; [done|].
  destruct (err =? 0) eqn:E3; [|done]. cbn [negb] in E. apply Z.eqb_eq in E3 as ->. split; [done|].
  set (rc := if flag_set states RCPTSTATE_OK then _ else _) in E. destruct (rc =? EX_OK) eqn:E4; [|apply Z.eqb_neq in E4; congruence].
  destruct (flag_set states DATASTATE_500) eqn:E5; [done|]. destruct (flag_set states DATASTATE_400) eqn:E6; [done|].
  unfold flag_set, BAD_STATES in *. rewrite !negb_false_iff, !Z.eqb_eq in *.
  by rewrite !Z.land_lor_distr_r, E1, E2, E5, E6.
Qed.

Lemma refusal_code code : 400 <= code -> (code_to_status code).1 <> EX_OK.
Proof.
  intros Hc. unfold code_to_status.
  destruct (one_of _ code) eqn:E.
  { exfalso. unfold one_of in E. apply existsb_exists in E as (x & Hin & Hx%Z.eqb_eq). subst x. cbn in Hin.
    repeat (destruct Hin as [Hin|Hin]; [lia|]). done. }
  repeat match goal with |- (if ?b then _ else _).1 <> _ => destruct b eqn:?; [done|] end.
  destruct (one_of [2; 3] (Z.quot code 100)) eqn:E2.
  { exfalso. unfold one_of in E2. cbn in E2. assert (4 <= Z.quot code 100) by (apply Z.quot_le_lower_bound; lia). lia. }
  by repeat match goal with |- (if ?b then _ else _).1 <> _ => destruct b eqn:?; [done|] end.
Qed.

Section replies.
Context `{TaEnv, ScEnv, DeliverEnv}.
Hypothesis Hlmtp : lmtp_mode = false.
Variable fuel : nat.

Lemma states_INV w c v : (forall m, flag_set (c_rcptstates c) m = true -> flag_set v m = true) ->
  INV w c -> INV w (set_c_rcptstates v c).
Proof. intros Hv [I1 I2 I3 I4 I5 I6 I7 I8]. split; [done | done | intros Hw pc code ? ? ?; cbn; eapply Hv, I3; eauto | done..]. Qed.

Lemma good_add_states w bits : good w (add_states bits).
Proof.
  intros c I. unfold add_states. apply wpx_update. split; [|split_and!; [done | done | by left]].
  apply states_INV; [|done]. intros m. apply flag_set_lor_l.
Qed.
#[local] Hint Resolve good_add_states : scq.

(** ** A reply on its way *)

(** The reply to the command [idx] is counted, but not yet noted. *)
Definition almost (w : grade) (idx : nat) (c : client) : Prop :=
  INV w (set_c_pipereplies idx c) /\ c_pipereplies c = S idx /\ (idx < length (c_pipe c))%nat.

Lemma almost_outer w idx c : almost w idx c -> outer c.
Proof. intros [I _]. apply (in_delivered _ _ I). Qed.

Lemma almost_quietly w idx c c' : quietly c c' -> almost w idx c -> almost w idx c'.
Proof.
  intros Q (I & R & L). destruct Q as [P R' S D F PL ST T]. split_and!; [|by rewrite R' | by rewrite P].
  eapply quietly_INV; [|exact I]. by split.
Qed.

Lemma almost_bind {A B} w idx (m : SC A) (k : A -> SC B) (Q : B -> client -> Prop) c : quiet m -> almost w idx c ->
  (forall a c', almost w idx c' -> quietly c c' -> wpx (k a) (fun _ c' => outer c') Q c') ->
  wpx (m ≫= k) (fun _ c' => outer c') Q c.
Proof.
  intros Hm Ha Hk. apply wpx_bind. eapply wpx_mono; [apply Hm | |]; cbv beta.
  - intros _ c' Q'. by eapply almost_outer, almost_quietly.
  - intros a c' Q'. apply Hk; [by eapply almost_quietly | done].
Qed.

(** The reply is noted. *)
Lemma note_reply w idx pc code c : almost w idx c -> c_pipe c !! idx = Some pc ->
  (g_bad w = true -> 400 <= code -> p_rcpt pc = None -> flag_set (c_rcptstates c) BAD_STATES = true) ->
  (forall id, 400 <= code -> p_rcpt pc = Some id -> g_except w = Some id) ->
  INV w (set_c_trace (EvReply pc code :: c_trace c) c).
Proof.
  intros ([I1 I2 I3 I4 I5 I6 I7 I8] & R & L) Hpc Hbad Hexc. split; cbn in *; try done.
  - unfold replied. cbn. unfold replied in I1. rewrite I1, R. by rewrite (take_S_r _ _ pc).
  - lia.
  - intros Hw pc' code' [[= -> ->]|Hin]%elem_of_cons Hc Hr; [by apply Hbad | by eapply I3].
  - intros pc' code' id [[= -> ->]|Hin]%elem_of_cons Hc Hr Hx; [by destruct Hx; apply Hexc | by eapply I4].
Qed.

Lemma good_report_lmtp w datarp outcome rc bits : good w (report_lmtp datarp outcome rc bits).
Proof. unfold report_lmtp. rewrite Hlmtp. cbn [when_]. good_steps. Qed.
#[local] Hint Resolve good_report_lmtp : scq.

(** A recipient is refused. *)
Lemma report_failure_spec b id rc c : rc <> EX_OK -> INV (Grade b (Some id)) c ->
  wpx (report_failure id rc) (fun _ c' => outer c') (fun _ c' => INV (Grade b None) c' /\ goes c c' /\
    c_pipe c' = c_pipe c /\ c_pipereplies c' = c_pipereplies c) c.
Proof.
  intros Hrc I. unfold report_failure. apply wpx_bind. eapply wpx_mono; [apply quiet_notary_user | |]; cbv beta.
  { intros _ c1 Q. apply (in_delivered _ _ (quietly_INV _ _ _ Q I)). }
  intros _ c1 Q1. apply wpx_bind. eapply wpx_mono; [apply quiet_remotemsg | |]; cbv beta.
  { intros _ c2 Q2. apply (in_delivered _ _ (quietly_INV _ _ _ (quietly_trans _ _ _ Q1 Q2) I)). }
  intros text c2 Q2. pose proof (quietly_trans _ _ _ Q1 Q2) as Q. pose proof (quietly_INV _ _ _ Q I) as I2.
  eapply wpx_mono; [by apply (sc_diagnostic_spec (Grade b (Some id))) | done|]. cbv beta.
  intros _ c3 (I3 & G3 & U & P3 & R3 & _). split_and!.
  - destruct I3 as [J1 J2 J3 J4 J5 J6 J7 J8]. split; try done. intros pc code id' Hin Hc Hr _.
    destruct (decide (id' = id)) as [->|Hne]; [done|]. eapply J4; eauto. cbn. congruence.
  - eapply goes_trans; [by apply quietly_goes | done].
  - by rewrite P3, (qu_pipe _ _ Q).
  - by rewrite R3, (qu_replies _ _ Q).
Qed.

(** What a step leaves of the pipe *)
Definition same_pipe (c c' : client) : Prop := c_pipe c' = c_pipe c /\ c_pipereplies c' = c_pipereplies c.

(** A program that is [good] and leaves the pipe alone *)
Definition tidy (w : grade) {A} (m : SC A) : Prop :=
  forall c, INV w c -> wpx m (fun _ c' => outer c') (fun _ c' => INV w c' /\ goes c c' /\ same_pipe c c') c.

Lemma tidy_bind w {A B} (m : SC A) (k : A -> SC B) : tidy w m -> (forall a, tidy w (k a)) -> tidy w (m ≫= k).
Proof.
  intros Hm Hk c I. apply wpx_bind. eapply wpx_mono; [by apply Hm | done|]. cbv beta. intros a c1 (I1 & G1 & P1 & R1).
  eapply wpx_mono; [by apply Hk | done|]; cbv beta. intros ? c2 (I2 & G2 & P2 & R2). split_and!; [done | by eapply goes_trans|].
  split; congruence.
Qed.
Lemma tidy_quiet w {A} (m : SC A) : quiet m -> tidy w m.
Proof.
  intros Hm c I. eapply wpx_mono; [apply Hm | |]; cbv beta.
  - intros _ c' Q. apply (in_delivered _ _ (quietly_INV _ _ _ Q I)).
  - intros _ c' Q. split_and!; [by eapply quietly_INV | by apply quietly_goes|]. split; apply Q.
Qed.
Lemma tidy_add_states w bits : tidy w (add_states bits).
Proof.
  intros c I. eapply wpx_mono; [eapply wpx_and; [by apply good_add_states | apply (wpx_update _ (fun _ _ => True) (fun _ c' => same_pipe c c')); done] | by intros ? ? []|].
  cbv beta. intros _ c' [[? ?] ?]. done.
Qed.
Lemma tidy_status w id st : tidy w (rp ← get_rcpt id; set_rcpt (set_r_status st rp)).
Proof.
  intros c I. apply wpx_bind, get_rcpt_spec; [apply I|]. intros rp Hf.
  eapply wpx_mono; [eapply (set_rcpt_spec w id rp _ (fun _ _ => False)); [done | done | | done] | done|].
  - split_and!; [done | | done]. destruct (find_rcpt_id _ _ _ Hf) as [_ Hin]. pose proof (in_fine _ _ I) as Hfine.
    rewrite Forall_forall in Hfine. apply (Hfine rp Hin).
  - cbv beta. intros _ c' (? & ? & _ & ? & ? & _). done.
Qed.

Lemma tidy_reply_ok w pc idx datarp rc : tidy w (reply_ok pc idx datarp rc).
Proof.
  unfold reply_ok, report_lmtp. rewrite Hlmtp. cbn [when_].
  destruct (p_rcpt pc).
  - apply tidy_bind; [apply tidy_quiet; quiet_steps|]. intros []; [apply tidy_add_states|].
    apply tidy_bind; [apply tidy_add_states|]. intros ?. apply tidy_status.
  - apply tidy_bind; [destruct (idx =? 0)%nat; cbn [when_]; [apply tidy_add_states | apply tidy_quiet; quiet_steps]|]. intros ?.
    apply tidy_bind; [apply tidy_quiet; quiet_steps|]. intros ?.
    apply tidy_bind; [apply tidy_quiet; quiet_steps|]. intros b. destruct (_ && _); cbn [when_]; [apply tidy_add_states | apply tidy_quiet; quiet_steps].
Qed.

Lemma tidy_good w {A} (m : SC A) : tidy w m -> good w m.
Proof. intros Hm c I. eapply wpx_mono; [by apply Hm | done|]. cbv beta. intros _ c' (? & ? & _). done. Qed.

(** A bit of the states says that a command was refused. *)
Lemma states_full b bits c : flag_set bits BAD_STATES = true -> INV weak c ->
  wpx (add_states bits) (fun _ c' => outer c') (fun _ c' => INV (Grade b None) c' /\ goes c c' /\ same_pipe c c') c.
Proof.
  intros Hb [I1 I2 I3 I4 I5 I6 I7 I8]. unfold add_states. apply wpx_update.
  split_and!; [|split_and!; [done | done | by left] | done]. split; try done. intros _ pc code _ _ _. by apply flag_set_lor_r.
Qed.

Lemma reply_error_spec b pc idx datarp code rc c : rc <> EX_OK ->
  INV (Grade (if p_rcpt pc then b else false) (p_rcpt pc)) c ->
  wpx (reply_error pc idx datarp code rc) (fun _ c' => outer c')
    (fun _ c' => INV (Grade b None) c' /\ goes c c' /\ same_pipe c c') c.
Proof.
  intros Hrc I. unfold reply_error. destruct (p_rcpt pc) as [id|].
  - apply wpx_bind. eapply wpx_mono; [by apply tidy_add_states | done|]. cbv beta. intros _ c1 (I1 & G1 & P1 & R1).
    eapply wpx_mono; [by apply (report_failure_spec b) | done|]. cbv beta. intros _ c2 (I2 & G2 & P2 & R2).
    split_and!; [done | by eapply goes_trans | split; congruence].
  - destruct (_ && _); [apply states_full; [by destruct (code >=? 500) | done]|].
    apply wpx_bind. unfold report_lmtp. rewrite Hlmtp. cbn [when_].
    replace (match datarp with Some _ => mret () | None => mret () end) with (mret (M := SC) ()) by (by destruct datarp).
    apply wpx_ret. destruct (code >=? 500); [|by apply states_full].
    unfold has_states. do 3 (apply wpx_bind, wpx_bind, wpx_read, wpx_ret).
    apply states_full; [|done]. by repeat match goal with |- context [if flag_set ?x ?y then _ else _] => destruct (flag_set x y) end.
Qed.

(** *** A reply *)

Lemma sync_reply_spec b idx code line c : INV (Grade b None) c -> c_pipereplies c = idx -> (idx < length (c_pipe c))%nat ->
  wpx (sync_reply idx (S idx) None code line) (fun _ c' => outer c') (fun _ c' =>
    INV (Grade b None) c' /\ goes c c' /\ c_pipe c' = c_pipe c /\ c_pipereplies c' = S idx) c.
Proof.
  intros I Hidx Hlt. unfold sync_reply. apply wpx_bind, wpx_update. set (c1 := set_c_pipereplies (S idx) c).
  assert (almost (Grade b None) idx c1) as Ha.
  { split_and!; [|done | done]. eapply quietly_INV; [|exact I]. split; [done | by rewrite Hidx | done.. | by exists []]. }
  assert (goes c c1) as G1 by (split_and!; [done | done | by left]).
  apply wpx_bind, wpx_read, wpx_bind, wpx_read.
  set (code' := if _ && _ then code - 100 else code). destruct (code_to_status code') as [rc0 status] eqn:Ec.
  apply wpx_bind, wpx_read. destruct (notary_stat _ _ _) as [st str].
  eapply almost_bind; [apply quiet_notaryreport | exact Ha|]. intros _ c2 Ha2 Q2.
  eapply almost_bind; [apply quiet_has_states | exact Ha2|]. intros bad500 c3 Ha3 Q3.
  eapply almost_bind; [apply quiet_has_states | exact Ha3|]. intros bad400 c4 Ha4 Q4.
  pose proof (quietly_trans _ _ _ Q2 (quietly_trans _ _ _ Q3 Q4)) as Q. clear Q2 Q3 Q4 Ha Ha2 Ha3.
  (* the code, and a bit of the states *)
  apply wpx_bind.
  assert (wpx (if bad500 then mret EX_UNAVAILABLE else if bad400 then add_states RCPTSTATE_400;; mret EX_TEMPFAIL else mret rc0)
    (fun _ c' => outer c') (fun rc c' => almost (Grade b None) idx c' /\ goes c4 c' /\ c_pipe c' = c_pipe c4 /\
      (400 <= code' -> rc <> EX_OK)) c4) as Hrc.
  { assert (400 <= code' -> rc0 <> EX_OK) as Hr0 by (intros Hc; pose proof (refusal_code _ Hc) as E; by rewrite Ec in E).
    destruct bad500; [by apply wpx_ret; split_and!; [done | apply goes_refl | done | intros _]|].
    destruct bad400; [|by apply wpx_ret; split_and!; [done | apply goes_refl | done | done]].
    apply wpx_bind. unfold add_states. apply wpx_update, wpx_ret. destruct Ha4 as (J & R & L). split; [|split; [split_and!; [done | done | by left] | by split]].
    split_and!; [|done | done]. apply (states_INV _ (set_c_pipereplies idx c4)); [|done]. intros m. apply flag_set_lor_l. }
  eapply wpx_mono; [exact Hrc | done|]. cbv beta. intros rc c5 (Ha5 & G5 & P5 & Hrc5). clear Hrc Ha4.
  apply wpx_bind, wpx_read. assert (goes c c5) as G by (eapply goes_trans; [exact G1 | eapply goes_trans; [by apply quietly_goes | done]]).
  assert (c_pipe c5 = c_pipe c) as P by (by rewrite P5, (qu_pipe _ _ Q)).
  destruct (c_pipe c5 !! idx) as [pc|] eqn:Epc; [|apply wpx_exit; by eapply almost_outer].
  apply wpx_bind. unfold ev at 1. apply wpx_update. set (c6 := set_c_trace _ c5).
  assert (c_pipe c6 = c_pipe c /\ c_pipereplies c6 = S idx) as [P6 R6] by (destruct Ha5 as (_ & R & _); done).
  assert (goes c c6) as G6 by exact G.
  assert (forall w', (forall m, g_bad w' = m -> m = true -> b = true) ->
    (g_bad w' = true -> 400 <= code' -> p_rcpt pc = None -> flag_set (c_rcptstates c5) BAD_STATES = true) ->
    (forall id, 400 <= code' -> p_rcpt pc = Some id -> g_except w' = Some id) -> INV w' c6) as Hnote.
  { intros w' Hw H2 H3. apply (note_reply w' idx); [|done | done | done]. destruct Ha5 as ([J1 J2 J3 J4 J5 J6 J7 J8] & R & L).
    split_and!; [split; try done; [intros Hg; apply J3; by eapply Hw | intros; by eapply J4] | done | done]. }
  apply wpx_if; intros Ecode.
  - eapply wpx_mono; [apply (reply_error_spec b); [apply Hrc5; lia|] | done|].
    + apply Hnote; cbn; [by intros m <-; destruct (p_rcpt pc) | by destruct (p_rcpt pc) | done].
    + cbv beta. intros _ c7 (I7 & G7 & P7 & R7). split_and!; [done | by eapply goes_trans | by rewrite P7 | by rewrite R7].
  - eapply wpx_mono; [apply (tidy_reply_ok (Grade b None)) | done|].
    + apply Hnote; cbn; [by intros m <- | intros; lia | intros; lia].
    + cbv beta. intros _ c7 (I7 & G7 & P7 & R7). split_and!; [done | by eapply goes_trans | by rewrite P7 | by rewrite R7].
Qed.

(** ** Reading *)

Lemma INV_bind {A B} w (m : SC A) (k : A -> SC B) (Q : B -> client -> Prop) c : quiet m -> INV w c ->
  (forall a c', INV w c' -> quietly c c' -> wpx (k a) (fun _ c' => outer c') Q c') ->
  wpx (m ≫= k) (fun _ c' => outer c') Q c.
Proof.
  intros Hm I Hk. apply wpx_bind. eapply wpx_mono; [apply Hm | |]; cbv beta.
  - intros _ c' Q'. apply (in_delivered _ _ (quietly_INV _ _ _ Q' I)).
  - intros a c' Q'. apply Hk; [by eapply quietly_INV | done].
Qed.

Lemma quietly_same_pipe c c' : quietly c c' -> same_pipe c c'.
Proof. intros []. by split. Qed.
Lemma same_pipe_trans c1 c2 c3 : same_pipe c1 c2 -> same_pipe c2 c3 -> same_pipe c1 c3.
Proof. intros [] []. split; congruence. Qed.

(** Reading leaves the pipe alone; when it fails while it waits, the
    connection may be closed. *)
Definition got_out (w : grade) (nb : bool) (line : bool) (err : Z) (c c' : client) : Prop :=
  INV w c' /\ goes c c' /\ (line = true \/ nb = true -> same_pipe c c') /\ (nb = false -> line = false -> err <> 0).
Definition got_line_out w nb c (g : got) c' : Prop :=
  match g with GotLine _ _ => got_out w nb true 0 c c' | GotBreak err => got_out w nb false err c c' end.

Lemma got_out_after w nb line err c c1 c2 : quietly c c1 -> got_out w nb line err c1 c2 -> got_out w nb line err c c2.
Proof.
  intros Q (I & G & P & E). split_and!; [done | eapply goes_trans; [by apply quietly_goes | done] | | done].
  intros Hl. eapply same_pipe_trans; [by apply quietly_same_pipe | auto].
Qed.

Lemma got_out_quietly w nb line err c c1 : INV w c -> quietly c c1 -> (nb = false -> line = false -> err <> 0) -> got_out w nb line err c c1.
Proof.
  intros I Q He. split_and!; [by eapply quietly_INV | by apply quietly_goes | intros _; by apply quietly_same_pipe | done].
Qed.

Lemma next_line_spec w n nb idx : forall s c, INV w c ->
  wpx (next_line n nb idx s) (fun _ c' => outer c') (got_line_out w nb c) c.
Proof.
  induction n as [|n IH]; intros s c I; cbn [next_line]; apply wpx_bind, wpx_read;
    (destruct (newline_at (c_pipebuf c) s) as [k|]; [apply wpx_ret, got_out_quietly; [done | apply quietly_refl | done]|]);
    [apply wpx_exit; apply I|].
  eapply INV_bind; [apply quiet_nbread | exact I|]. intros r c1 I1 Q1.
  assert (forall g c', got_line_out w nb c1 g c' -> got_line_out w nb c g c') as Hf.
  { intros [] c'; by apply got_out_after. }
  destruct r as [[|x l]|again].
  - eapply INV_bind; [apply quiet_read | exact I1|]. intros pipe c2 I2 Q2.
    eapply INV_bind; [apply quiet_rmsgappend | exact I2|]. intros _ c3 I3 Q3. apply wpx_ret, Hf.
    apply got_out_quietly; [done | by eapply quietly_trans | by intros].
  - apply wpx_bind, wpx_update. set (c2 := set_c_pipebuf _ c1).
    assert (quietly c1 c2) as Q2 by (split; [done..|by exists []]).
    eapply wpx_mono; [apply IH; by eapply quietly_INV | done|]. intros g c3 Hg. apply Hf. destruct g; by eapply got_out_after.
  - destruct nb; [apply wpx_ret, Hf, got_out_quietly; [done | apply quietly_refl | done]|].
    eapply INV_bind; [apply quiet_read | exact I1|]. intros fd c2 I2 Q2.
    eapply INV_bind; [destruct fd; [apply quiet_select | apply quiet_ret] | exact I2|]. intros err c3 I3 Q3.
    pose proof (quietly_trans _ _ _ Q2 Q3) as Q. apply wpx_if; intros Ee.
    + eapply INV_bind; [apply quiet_read | exact I3|]. intros tr c4 I4 Q4.
      eapply INV_bind; [apply quiet_rmsgappend | exact I4|]. intros _ c5 I5 Q5.
      apply wpx_bind. eapply wpx_mono; [by apply (good_smtpclose w) | done|]. cbv beta. intros _ c6 [I6 G6].
      apply wpx_ret, Hf. cbn. pose proof (quietly_trans _ _ _ Q (quietly_trans _ _ _ Q4 Q5)) as Q'.
      split_and!; [done | eapply goes_trans; [by apply quietly_goes | done] | by intros [|] | intros _ _; lia].
    + eapply wpx_mono; [by apply IH | done|]. intros g c4 Hg. apply Hf. destruct g; by eapply got_out_after.
Qed.

Definition reply_out w nb c (r : reply) c' : Prop :=
  match r with Reply _ _ _ => got_out w nb true 0 c c' | NoReply err => got_out w nb false err c c' end.

Lemma got_out_trans w nb line err line2 err2 c1 c2 c3 : line = true ->
  got_out w nb line err c1 c2 -> got_out w nb line2 err2 c2 c3 -> got_out w nb line2 err2 c1 c3.
Proof.
  intros -> (I1 & G1 & P1 & E1) (I2 & G2 & P2 & E2). split_and!; [done | by eapply goes_trans | | done].
  intros Hl. eapply same_pipe_trans; auto.
Qed.

Lemma read_reply_spec w nb idx n : forall eol c, INV w c ->
  wpx (read_reply fuel n nb idx eol) (fun _ c' => outer c') (reply_out w nb c) c.
Proof.
  induction n as [|n IH]; intros eol c I; cbn [read_reply]; [apply wpx_exit; apply I|].
  apply wpx_bind. eapply wpx_mono; [by apply next_line_spec | done|]. intros [s eol2|err] c1; cbn [got_line_out]; [|by intros; apply wpx_ret].
  intros G1. eapply INV_bind; [apply quiet_sync_line | apply G1|]. intros r c2 I2 Q2. apply wpx_bind, wpx_read.
  assert (got_out w nb true 0 c1 c2) as G2 by (apply got_out_quietly; [apply G1 | done | done]).
  pose proof (got_out_trans w nb true 0 true 0 _ _ _ eq_refl G1 G2) as G12.
  destruct r as [code|]; [by apply wpx_ret|].
  eapply wpx_mono; [by apply IH | done|]. intros [code line e|err] c3; cbn [reply_out]; by apply got_out_trans with true 0.
Qed.

(** *** The loop *)

Definition sync_out (b nb : bool) (r : Z) (c c' : client) : Prop :=
  INV (Grade b None) c' /\ goes c c' /\ (nb = true -> c_pipe c' = c_pipe c) /\
  (nb = false -> r = 0 -> c_pipe c' = c_pipe c /\ c_pipereplies c' = length (c_pipe c')).

Lemma sync_loop_spec b nb n : forall idx c, INV (Grade b None) c -> c_pipereplies c = idx ->
  wpx (sync_loop fuel n nb idx) (fun _ c' => outer c') (fun r c' => sync_out b nb r c c') c.
Proof.
  induction n as [|n IH]; intros idx c I Hidx; cbn [sync_loop]; [apply wpx_exit; apply I|].
  apply wpx_bind, wpx_read. apply wpx_if; intros Hlt.
  2: { apply wpx_ret. split_and!; [done | apply goes_refl | done|]. intros _ _. split; [done|]. apply Nat.ltb_ge in Hlt.
    pose proof (in_le _ _ I). lia. }
  apply Nat.ltb_lt in Hlt. apply wpx_bind. unfold lmtp_pending. do 3 (apply wpx_bind, wpx_read). apply wpx_ret. rewrite Hlmtp. cbn [andb].
  apply wpx_bind. eapply wpx_mono; [by apply (read_reply_spec (Grade b None)) | done|]. intros [code line eol|err] c1; cbn [reply_out].
  - intros (I1 & G1 & P1 & _). destruct (P1 (or_introl eq_refl)) as [Pp Pr].
    apply wpx_bind. eapply wpx_mono; [apply sync_reply_spec; [exact I1 | by rewrite Pr | by rewrite Pp] | done|]. cbv beta.
    intros _ c2 (I2 & G2 & P2 & R2). apply wpx_bind, wpx_update. set (c3 := set_c_pipebuf _ c2).
    assert (quietly c2 c3) as Q3 by (split; [done..|by exists []]).
    eapply wpx_mono; [apply IH; [by eapply quietly_INV | done] | done|]. cbv beta. intros r c4 (I4 & G4 & N4 & B4).
    assert (c_pipe c3 = c_pipe c) as P3 by (change (c_pipe c3) with (c_pipe c2); congruence).
    split_and!; [done | | by rewrite <- P3 | by rewrite <- P3].
    eapply goes_trans; [exact G1 | eapply goes_trans; [exact G2 | eapply goes_trans; [by apply quietly_goes | done]]].
  - intros (I1 & G1 & P1 & E1). apply wpx_ret. split_and!; [done | done | intros ->; apply P1; by right |].
    intros ->. intros ->. by specialize (E1 eq_refl eq_refl).
Qed.

Lemma smtp_sync_spec b nb c : INV (Grade b None) c ->
  wpx (smtp_sync fuel nb) (fun _ c' => outer c') (fun r c' => INV (Grade b None) c' /\ goes c c' /\
    (nb = true -> c_pipe c' = c_pipe c) /\
    (nb = false -> r = EX_OK -> c_pipe c' = c_pipe c /\ c_pipereplies c' = length (c_pipe c') /\
       flag_set (c_rcptstates c') BAD_STATES = false)) c.
Proof.
  intros I. unfold smtp_sync. apply wpx_bind, wpx_update, wpx_bind, wpx_update. set (c1 := set_c_block_written _ _).
  assert (quietly c c1) as Q1 by (split; [done..|by exists []]). pose proof (quietly_INV _ _ _ Q1 I) as I1.
  apply wpx_bind, wpx_read. eapply INV_bind; [quiet_steps | exact I1|]. intros _ c2 I2 Q2.
  apply wpx_bind, wpx_read, wpx_bind, wpx_read.
  eapply INV_bind; [quiet_steps | exact I2|]. intros _ c3 I3 Q3. pose proof (quietly_trans _ _ _ Q1 (quietly_trans _ _ _ Q2 Q3)) as Q.
  apply wpx_bind. eapply wpx_mono; [apply sync_loop_spec; [exact I3|] | done|].
  { rewrite (qu_replies _ _ Q3), (qu_replies _ _ Q2). done. }
  cbv beta. intros r c4 (I4 & G4 & N4 & B4). apply wpx_bind, wpx_read, wpx_ret. rewrite <- (qu_pipe _ _ Q).
  split_and!; [done | eapply goes_trans; [by apply quietly_goes | done] | done|].
  intros Hnb [-> Hbad]%verdict_ok. destruct (B4 Hnb eq_refl). done.
Qed.

Lemma good_smtp_sync b nb : good (Grade b None) (smtp_sync fuel nb).
Proof. intros c I. eapply wpx_mono; [by apply (smtp_sync_spec b) | done|]. cbv beta. intros _ c' (? & ? & _). done. Qed.

(** ** Commands *)

Lemma pipeblockread_spec b c : INV (Grade b None) c ->
  wpx (pipeblockread fuel) (fun _ c' => outer c') (fun _ c' => INV (Grade b None) c' /\ goes c c' /\ c_pipe c' = c_pipe c) c.
Proof.
  intros I. unfold pipeblockread. apply wpx_bind, wpx_read.
  eapply INV_bind; [quiet_steps | exact I|]. intros _ c1 I1 Q1. apply wpx_bind, wpx_read.
  destruct (c_pipebuf c1); [apply wpx_ret; split_and!; [done | by apply quietly_goes | by apply Q1]|].
  eapply wpx_mono; [by apply (smtp_sync_spec b) | done|]. cbv beta. intros r c2 (I2 & G2 & P2 & _).
  split_and!; [done | eapply goes_trans; [by apply quietly_goes | done] | rewrite P2 by done; by apply Q1].
Qed.

Lemma good_pipeblockread b : good (Grade b None) (pipeblockread fuel).
Proof. intros c I. eapply wpx_mono; [by apply (pipeblockread_spec b) | done|]. cbv beta. intros _ c' (? & ? & _). done. Qed.

(** The command goes to the end of the pipe. *)
Lemma stow_spec w strbuf rp F c : INV w c ->
  wpx (smtppipestowage strbuf rp) F (fun _ c' => INV w c' /\ goes c c' /\ c_smtpfp c' = c_smtpfp c /\
    c_pipe c' = c_pipe c ++ [Pipecmd strbuf rp (c_cmdstate c)]) c.
Proof.
  intros [I1 I2 I3 I4 I5 I6 I7 I8]. unfold smtppipestowage. apply wpx_bind, wpx_read, wpx_update. split_and!.
  - split; try done; cbn; [by rewrite take_app_le | rewrite length_app; cbn; lia].
  - split_and!; [done | done | left; by apply prefix_app_r].
  - done.
  - done.
Qed.

Lemma put_command_spec l c : wpx (put_command l) (fun _ c' => quietly c c')
  (fun err c' => quietly c c' /\ (c_smtpfp c = false -> err = true)) c.
Proof.
  eapply wpx_mono; [apply wpx_and; [apply quiet_put_command|] | by intros ? ? [? _]|].
  2: { cbv beta. intros err c' [Hq He]. split; [exact Hq | exact He]. }
  unfold put_command. apply wpx_bind, wpx_read, wpx_bind, wpx_read, wpx_bind.
  instantiate (1 := fun _ _ => True). destruct (c_smtpfp c); cbn [andb].
  - eapply wpx_mono; [apply wpx_any | done|]. cbv beta. intros ok c1 _. by apply wpx_bind, wpx_read, wpx_ret.
  - apply wpx_ret, wpx_bind, wpx_read, wpx_ret. done.
Qed.

(** Writing, in the two ways *)
Definition write_text (l : list Z) (pipelining : Z) : SC bool :=
  if 0 <? pipelining then
    update (fun c => set_c_smtp_outcount (c_smtp_outcount c + Z.of_nat (length l) + 2) c);;
    pipeblockread fuel;;
    err ← put_command l;
    update (fun c => if c_smtp_outcount c >? c_smtp_bufsize c
                     then set_c_smtp_outcount (c_smtp_outcount c - c_smtp_bufsize c) (set_c_block_written true c)
                     else c);;
    mret err
  else
    err ← put_command l;
    fp ← read c_smtpfp;
    bad ← read c_sferror;
    if negb fp || bad then mret true else ok ← sfsync; mret (err || negb ok).

Lemma write_text_spec b l pipelining c : INV (Grade b None) c ->
  wpx (write_text l pipelining) (fun _ c' => outer c') (fun err c' => INV (Grade b None) c' /\ goes c c' /\
    c_pipe c' = c_pipe c /\ (0 < pipelining -> c_smtpfp c = false -> err = true)) c.
Proof.
  intros I. unfold write_text. apply wpx_if; intros Hp.
  - apply wpx_bind, wpx_update. set (c1 := set_c_smtp_outcount _ c).
    assert (quietly c c1) as Q1 by (split; [done..|by exists []]). pose proof (quietly_INV _ _ _ Q1 I) as I1.
    apply wpx_bind. eapply wpx_mono; [by apply (pipeblockread_spec b) | done|]. cbv beta. intros _ c2 (I2 & G2 & P2).
    apply wpx_bind. eapply wpx_mono; [apply put_command_spec | |]; cbv beta.
    { intros _ c3 Q3. apply (in_delivered _ _ (quietly_INV _ _ _ Q3 I2)). }
    intros err c3 [Q3 He]. apply wpx_bind, wpx_update. match goal with |- wpx _ _ _ ?x => set (c4 := x) end.
    assert (quietly c3 c4) as Q4 by (subst c4; destruct (_ >? _); split; try done; by exists []). clearbody c4.
    apply wpx_ret. pose proof (quietly_trans _ _ _ Q3 Q4) as Q. split_and!.
    + by eapply quietly_INV.
    + eapply goes_trans; [by apply quietly_goes | eapply goes_trans; [exact G2 | by apply quietly_goes]].
    + by rewrite (qu_pipe _ _ Q), P2.
    + intros _ Hfp. apply He. apply G2. by rewrite (qu_fp _ _ Q1).
  - assert (quiet (err ← put_command l; fp ← read c_smtpfp; bad ← read c_sferror;
      if negb fp || bad then mret true else ok ← sfsync; mret (err || negb ok))) as Hq by quiet_steps.
    eapply wpx_mono; [apply Hq | |]; cbv beta.
    + intros _ c1 Q. apply (in_delivered _ _ (quietly_INV _ _ _ Q I)).
    + intros err c1 Q. split_and!; [by eapply quietly_INV | by apply quietly_goes | apply Q | lia].
Qed.

Lemma smtpwrite_spec b strbuf pipelining rp c : INV (Grade b None) c ->
  wpx (smtpwrite fuel strbuf pipelining rp) (fun _ c' => outer c') (fun r c' =>
    INV (Grade b None) c' /\ goes c c' /\
    let pipe := c_pipe c ++ [Pipecmd strbuf rp (c_cmdstate c)] in
    (pipelining <> 0 -> c_pipe c' = pipe) /\
    (pipelining = 0 -> r = EX_OK -> c_pipe c' = pipe /\ c_pipereplies c' = length pipe /\
       flag_set (c_rcptstates c') BAD_STATES = false) /\
    (0 < pipelining -> is_Some strbuf -> c_smtpfp c = false -> r <> EX_OK)) c.
Proof.
  intros I. unfold smtpwrite. apply wpx_bind, wpx_update. set (c0 := set_c_gotalarm _ c).
  assert (quietly c c0) as Q0 by (split; [done..|by exists []]). pose proof (quietly_INV _ _ _ Q0 I) as I0.
  apply wpx_bind. eapply wpx_mono; [by apply (stow_spec (Grade b None) _ _ (fun _ _ => False)) | done|]. cbv beta.
  intros _ c1 (I1 & G1 & F1 & P1). change (c_pipe c0) with (c_pipe c) in P1. change (c_cmdstate c0) with (c_cmdstate c) in P1.
  change (c_smtpfp c0) with (c_smtpfp c) in F1. assert (goes c c1) as G by (eapply goes_trans; [by apply quietly_goes | done]).
  set (pipe := c_pipe c ++ _) in *. clearbody pipe. apply wpx_bind.
  assert (wpx (match strbuf return SC Z with
    | None => mret EX_OK
    | Some l => err ← write_text l pipelining; when_ err write_failure;; mret (if (err : bool) then EX_TEMPFAIL else EX_OK)
    end) (fun _ c' => outer c') (fun r c' => INV (Grade b None) c' /\ goes c1 c' /\ c_pipe c' = pipe /\
      (0 < pipelining -> is_Some strbuf -> c_smtpfp c1 = false -> r = EX_TEMPFAIL)) c1) as Hw.
  { destruct strbuf as [l|]; [|apply wpx_ret; split_and!; [done | apply goes_refl | done | by intros _ []]].
    apply wpx_bind. eapply wpx_mono; [by apply write_text_spec | done|]. cbv beta. intros err c2 (I2 & G2 & P2 & E2).
    eapply INV_bind; [quiet_steps | exact I2|]. intros _ c3 I3 Q3. apply wpx_ret.
    split_and!; [done | eapply goes_trans; [done | by apply quietly_goes] | by rewrite (qu_pipe _ _ Q3), P2|].
    intros Hp _ Hf. by rewrite E2. }
  eapply wpx_mono; [exact Hw | done|]. cbv beta. intros r c2 (I2 & G2 & P2 & E2). clear Hw.
  apply wpx_bind, wpx_read, wpx_bind, wpx_read. eapply INV_bind; [quiet_steps | exact I2|]. intros _ c3 I3 Q3.
  assert (goes c c3) as G3 by (eapply goes_trans; [exact G | eapply goes_trans; [exact G2 | by apply quietly_goes]]).
  assert (c_pipe c3 = pipe) as P3 by (by rewrite (qu_pipe _ _ Q3)). cbv zeta.
  destruct (pipelining =? 0) eqn:Ep; cbn [negb].
  - apply Z.eqb_eq in Ep as ->. eapply wpx_mono; [by apply (smtp_sync_spec b) | done|]. cbv beta. intros r2 c4 (I4 & G4 & _ & B4).
    rewrite P3 in B4. split_and!; [done | by eapply goes_trans | done | | lia]. intros _ Hr. destruct (B4 eq_refl Hr) as (B1 & B2 & B3).
    split_and!; [done | by rewrite B2, B1 | done].
  - apply Z.eqb_neq in Ep. apply wpx_bind. eapply wpx_mono; [by apply (pipeblockread_spec b) | done|]. cbv beta. intros r2 c4 (I4 & G4 & P4).
    apply wpx_ret. split_and!; [done | by eapply goes_trans | by rewrite P4 | done |].
    intros Hp Hs Hf. rewrite E2 by (done || by rewrite F1). done.
Qed.

Lemma good_smtpwrite b strbuf pipelining rp : good (Grade b None) (smtpwrite fuel strbuf pipelining rp).
Proof. intros c I. eapply wpx_mono; [by apply (smtpwrite_spec b) | done|]. cbv beta. intros _ c' (? & ? & _). done. Qed.

End replies.
#[export] Hint Resolve good_add_states : scq.
