(* ===== verification/ScInvBody.v ===== *)
(** * The SMTP client: the message keeps the invariant

    What writes the headers and the body, to the stream or in chunks.  To the
    stream it touches nothing of the dialogue. *)

From Stdlib Require Import ZArith Lia.
From stdpp Require Import base tactics numbers list option sets.
From S2P Require Import Prelude TaFile TaDiag TaCtl ScState ScReply ScBody ScCommand ScDeliver ScInv ScInvReply.

#[local] Open Scope Z_scope.

(** ** In any way *)

Section body.
Context `{TaEnv, ScEnv, DeliverEnv}.
Hypothesis Hlmtp : lmtp_mode = false.
Variables (fuel : nat) (b : bool).
Abbreviation good := (good (Grade b None)).

Lemma quiet_write_error k : quiet (write_error k).
Proof. unfold write_error. quiet_steps. Qed.
Lemma quiet_more_hsize : quiet more_hsize.
Proof. unfold more_hsize. quiet_steps. Qed.
Lemma quiet_file_read : quiet file_read.
Proof. unfold file_read. quiet_steps. Qed.
Lemma quiet_seek_body : quiet seek_body.
Proof. unfold seek_body. quiet_steps. Qed.
Lemma quiet_progress : quiet progress.
Proof. unfold progress. quiet_steps. Qed.
#[local] Hint Resolve quiet_progress : scq.
Lemma quiet_failed_write prefix k : quiet (failed_write prefix k).
Proof. unfold failed_write. quiet_steps. Qed.
Lemma quiet_failed_line k : quiet (failed_line k).
Proof. unfold failed_line. quiet_steps. Qed.
Lemma quiet_bdat_failed : quiet bdat_failed.
Proof. unfold bdat_failed. quiet_steps. Qed.
#[local] Hint Resolve quiet_write_error quiet_more_hsize quiet_file_read quiet_seek_body quiet_failed_write quiet_failed_line quiet_bdat_failed
  good_smtpwrite good_smtp_sync : scq.

Lemma good_bdat_flush last : good (bdat_flush fuel last).
Proof. unfold bdat_flush. good_steps. Qed.
#[local] Hint Resolve good_bdat_flush : scq.
Lemma good_ssputc ch : good (ssputc fuel ch).
Proof. unfold ssputc, sfputc. good_steps. Qed.
#[local] Hint Resolve good_ssputc : scq.
Lemma good_put_or {A} ch k (next : SC (option A)) : good next -> good (put_or fuel ch k next).
Proof. intros Hn. unfold put_or. good_steps. Qed.

Lemma good_writebuf_loop l : forall st a, good (writebuf_loop fuel l st a).
Proof. induction l as [|ch l IH]; intros st a; cbn [writebuf_loop]; good_steps; repeat apply good_put_or; auto. Qed.
#[local] Hint Resolve good_writebuf_loop : scq.
Lemma good_writebuf l : good (writebuf fuel l).
Proof. unfold writebuf. good_steps. Qed.
#[local] Hint Resolve good_writebuf : scq.

Lemma good_put_quoted ch : good (put_quoted fuel ch).
Proof. unfold put_quoted. good_steps. Qed.
Lemma good_put_plain {A} column ch (next : Z -> SC (option A)) : (forall col, good (next col)) -> good (put_plain fuel column ch next).
Proof.
  intros Hn. unfold put_plain. good_step; [good_step|]. cbv zeta. destruct (_ && _); repeat apply good_put_or;
    destruct (ch =? 10); repeat apply good_put_or; good_steps.
Qed.
#[local] Hint Resolve good_put_quoted good_put_plain : scq.
Lemma good_mimeline_loop mode l : forall column a qc qv, good (mimeline_loop fuel mode l column a qc qv).
Proof.
  induction l as [|ch l IH]; intros column a qc qv; cbn [mimeline_loop]; good_steps; try (apply good_put_plain; auto).
Qed.
#[local] Hint Resolve good_mimeline_loop : scq.
Lemma good_writemimeline l mode : good (writemimeline fuel l mode).
Proof. unfold writemimeline. good_steps. Qed.
#[local] Hint Resolve good_writemimeline : scq.

Lemma good_read_loop n : forall nl bf, good (read_loop fuel n nl bf).
Proof. induction n as [|n IH]; intros nl bf; cbn [read_loop]; good_steps. Qed.
#[local] Hint Resolve good_read_loop : scq.
Lemma good_append_read : good (append_read fuel).
Proof. unfold append_read. good_steps. Qed.
Lemma good_line_loop mode n : forall rest nl, good (line_loop fuel n mode rest nl).
Proof. induction n as [|n IH]; intros rest nl; cbn [line_loop]; good_steps. Qed.
Lemma good_map_loop mode n : forall rest nl, good (map_loop fuel n mode rest nl).
Proof. induction n as [|n IH]; intros rest nl; cbn [map_loop]; good_steps. Qed.
#[local] Hint Resolve good_append_read good_line_loop good_map_loop : scq.
Lemma good_append_end nl bf : good (append_end fuel nl bf).
Proof. unfold append_end. good_steps. Qed.
#[local] Hint Resolve good_append_end : scq.
Lemma good_appendlet mode : good (appendlet fuel mode).
Proof. unfold appendlet, append_start, append_map, append_lines. good_steps. Qed.

Lemma quiet_clean_loop n : forall bf, quiet (clean_loop n bf).
Proof. induction n as [|n IH]; intros bf; cbn [clean_loop]; quiet_steps. Qed.
#[local] Hint Resolve quiet_clean_loop : scq.
Lemma quiet_check_7bit : quiet (check_7bit_cleanness fuel).
Proof. unfold check_7bit_cleanness. quiet_steps. Qed.

Lemma quiet_put_all l : quiet (put_all l).
Proof. induction l as [|ch l IH]; cbn [put_all]; unfold sfputc; quiet_steps. Qed.
#[local] Hint Resolve quiet_put_all : scq.
Lemma quiet_put_header_lines tabs ls : forall n, quiet (put_header_lines tabs ls n).
Proof. induction ls as [|l ls IH]; intros n; cbn [put_header_lines]; unfold sfputc; quiet_steps. Qed.
#[local] Hint Resolve quiet_put_header_lines : scq.
Lemma quiet_put_headers tabs hdrs : forall n, quiet (put_headers tabs hdrs n).
Proof. induction hdrs as [|l ls IH]; intros n; cbn [put_headers]; quiet_steps. Qed.
#[local] Hint Resolve quiet_put_headers : scq.
Lemma quiet_header_phase id : quiet (header_phase id).
Proof.
  intros c. unfold header_phase. apply wpx_bind, wpx_read, wpx_bind, wpx_read.
  destruct (headers_of _ _) as [hdrs|]; [|apply wpx_ret, quietly_refl]. destruct (c_doing_chunking c) eqn:E.
  - apply wpx_bind, wpx_update, wpx_bind, wpx_update, wpx_ret. split; [done..| |by exists []].
    split_and!; [done | done|]. intros E2. by rewrite E in E2.
  - match goal with |- wpx ?m _ _ _ => assert (quiet m) as Hq by quiet_steps end. apply Hq.
Qed.
End body.
#[export] Hint Resolve quiet_check_7bit quiet_header_phase quiet_bdat_failed quiet_file_read quiet_seek_body quiet_failed_write
  quiet_failed_line quiet_write_error quiet_more_hsize : scq.
#[export] Hint Resolve good_appendlet good_smtpwrite good_smtp_sync good_bdat_flush : scq.

(** ** To the stream *)

Section streams.
Context `{TaEnv, ScEnv, DeliverEnv}.

(** Without a chunk nothing of the dialogue is touched. *)
Definition streams {A} (m : SC A) : Prop :=
  forall c, c_chunkbuf c = None ->
  wpx m (fun _ c' => quietly c c') (fun _ c' => quietly c c' /\ c_chunkbuf c' = None) c.

Lemma streams_bind {A B} (m : SC A) (k : A -> SC B) : streams m -> (forall a, streams (k a)) -> streams (m ≫= k).
Proof.
  intros Hm Hk c Hc. apply wpx_bind. eapply wpx_mono; [by apply Hm | done|]. cbv beta. intros a c1 [Q1 C1].
  eapply wpx_mono; [by apply Hk | |]; cbv beta; [intros ? c2 Q2; by eapply quietly_trans|].
  intros ? c2 [Q2 C2]. split; [by eapply quietly_trans | done].
Qed.
Lemma streams_ret {A} (a : A) : streams (mret a).
Proof. intros c Hc. apply wpx_ret. split; [apply quietly_refl | done]. Qed.
Lemma streams_exit {A} e : streams (A := A) (exit e).
Proof. intros c Hc. apply wpx_exit, quietly_refl. Qed.
Lemma streams_read {A} (f : client -> A) : streams (read f).
Proof. intros c Hc. apply wpx_read. split; [apply quietly_refl | done]. Qed.
Lemma streams_update f : (forall c, quietly c (f c) /\ c_chunkbuf (f c) = c_chunkbuf c) -> streams (update f).
Proof. intros Hf c Hc. apply wpx_update. destruct (Hf c). split; [done | congruence]. Qed.
Lemma streams_when b m : streams m -> streams (when_ b m).
Proof. intros Hm. destruct b; [done | apply streams_ret]. Qed.
Lemma streams_ev e : quiet_event e = true -> streams (ev e).
Proof. intros He. apply streams_update. intros c. split; [|done]. split; [done..|]. exists [e]. cbn. by rewrite He. Qed.
End streams.

Create HintDb scs.
Ltac streams_field := apply streams_update; intros; (split; [split; [reflexivity..|stays_tac|exists []; split; reflexivity] | reflexivity]).
Ltac streams_step :=
  match goal with
  | |- streams _ => solve [auto with scs nocore]
  | |- streams (mret _) => apply streams_ret
  | |- streams (mbind _ _) => apply streams_bind; [|intros ?]
  | |- streams (exit _) => apply streams_exit
  | |- streams (read _) => apply streams_read
  | |- streams (ev _) => apply streams_ev; reflexivity
  | |- streams (when_ _ _) => apply streams_when
  | |- streams (update _) => solve [streams_field]
  | |- streams (if ?b then _ else _) => destruct b
  | |- streams (match ?x with _ => _ end) => destruct x
  | |- forall _, _ => intros ?
  end.
Ltac streams_steps := repeat streams_step.

Section stream_body.
Context `{TaEnv, ScEnv, DeliverEnv}.
Variable fuel : nat.

Lemma streams_sfwrite l : streams (sfwrite l).
Proof. unfold sfwrite. streams_steps. Qed.
Lemma streams_notaryreport a1 a2 a3 a4 : streams (sc_notaryreport a1 a2 a3 a4).
Proof. unfold sc_notaryreport. streams_steps. Qed.
Lemma streams_set_remotemsg text : streams (set_remotemsg text).
Proof. unfold set_remotemsg. streams_steps. Qed.
#[local] Hint Resolve streams_sfwrite streams_notaryreport streams_set_remotemsg : scs.
Lemma streams_write_error k : streams (write_error k).
Proof. unfold write_error. streams_steps. Qed.
Lemma streams_more_hsize : streams more_hsize.
Proof. unfold more_hsize. streams_steps. Qed.
Lemma streams_file_read : streams file_read.
Proof. unfold file_read. streams_steps. Qed.
Lemma streams_seek_body : streams seek_body.
Proof. unfold seek_body. streams_steps. Qed.
Lemma streams_progress : streams progress.
Proof. unfold progress. streams_steps. Qed.
#[local] Hint Resolve streams_write_error streams_more_hsize streams_file_read streams_seek_body streams_progress : scs.
Lemma streams_failed_write prefix k : streams (failed_write prefix k).
Proof. unfold failed_write. streams_steps. Qed.
Lemma streams_failed_line k : streams (failed_line k).
Proof. unfold failed_line. streams_steps. Qed.
#[local] Hint Resolve streams_failed_write streams_failed_line : scs.

Lemma streams_ssputc ch : streams (ssputc fuel ch).
Proof.
  intros c Hc. unfold ssputc. apply wpx_bind, wpx_read. rewrite Hc.
  assert (streams (bad ← read c_sferror; if (bad : bool) then mret false
    else ok ← sfputc ch; bad ← read c_sferror; mret (ok && negb bad))) as Hs by (unfold sfputc; streams_steps).
  by apply Hs.
Qed.
#[local] Hint Resolve streams_ssputc : scs.
Lemma streams_put_or {A} ch k (next : SC (option A)) : streams next -> streams (put_or fuel ch k next).
Proof. intros Hn. unfold put_or. streams_steps. Qed.
Lemma streams_writebuf_loop l : forall st a, streams (writebuf_loop fuel l st a).
Proof. induction l as [|ch l IH]; intros st a; cbn [writebuf_loop]; streams_steps; repeat apply streams_put_or; auto. Qed.
#[local] Hint Resolve streams_writebuf_loop : scs.
Lemma streams_writebuf l : streams (writebuf fuel l).
Proof. unfold writebuf. streams_steps. Qed.
#[local] Hint Resolve streams_writebuf : scs.
Lemma streams_put_quoted ch : streams (put_quoted fuel ch).
Proof. unfold put_quoted. streams_steps. Qed.
Lemma streams_put_plain {A} column ch (next : Z -> SC (option A)) : (forall col, streams (next col)) -> streams (put_plain fuel column ch next).
Proof.
  intros Hn. unfold put_plain. streams_step; [streams_step|]. cbv zeta. destruct (_ && _); repeat apply streams_put_or;
    destruct (ch =? 10); repeat apply streams_put_or; streams_steps.
Qed.
#[local] Hint Resolve streams_put_quoted streams_put_plain : scs.
Lemma streams_mimeline_loop mode l : forall column a qc qv, streams (mimeline_loop fuel mode l column a qc qv).
Proof.
  induction l as [|ch l IH]; intros column a qc qv; cbn [mimeline_loop]; streams_steps; try (apply streams_put_plain; auto).
Qed.
#[local] Hint Resolve streams_mimeline_loop : scs.
Lemma streams_writemimeline l mode : streams (writemimeline fuel l mode).
Proof. unfold writemimeline. streams_steps. Qed.
#[local] Hint Resolve streams_writemimeline : scs.
Lemma streams_read_loop n : forall nl bf, streams (read_loop fuel n nl bf).
Proof. induction n as [|n IH]; intros nl bf; cbn [read_loop]; streams_steps. Qed.
Lemma streams_line_loop mode n : forall rest nl, streams (line_loop fuel n mode rest nl).
Proof. induction n as [|n IH]; intros rest nl; cbn [line_loop]; streams_steps. Qed.
Lemma streams_map_loop mode n : forall rest nl, streams (map_loop fuel n mode rest nl).
Proof. induction n as [|n IH]; intros rest nl; cbn [map_loop]; streams_steps. Qed.
#[local] Hint Resolve streams_read_loop streams_line_loop streams_map_loop : scs.
Lemma streams_append_end nl bf : streams (append_end fuel nl bf).
Proof. unfold append_end. streams_steps. Qed.
#[local] Hint Resolve streams_append_end : scs.
Lemma streams_appendlet mode : streams (appendlet fuel mode).
Proof. unfold appendlet, append_start, append_map, append_lines, append_read. streams_steps. Qed.
End stream_body.
