(* ===== verification/ScInvConn.v ===== *)
(** * The SMTP client: connections keep the invariant

    Lookups and connections read a greeting and answers to commands, but
    report nothing about recipients. *)

From Stdlib Require Import ZArith Lia.
From stdpp Require Import base tactics numbers list option sets.
From S2P Require Import Prelude TaFile TaDiag TaCtl ScState ScMx ScCname ScReply ScConnect ScBody ScCommand ScDeliver ScInv ScInvReply ScInvBody.

#[local] Open Scope Z_scope.

(** ** Lookups *)

Section lookups.
Context `{TaEnv, ScEnv, DeliverEnv}.

Lemma quiet_ask : quiet ask.
Proof. unfold ask. quiet_steps. Qed.
Lemma quiet_in_notary f : quiet (in_notary f).
Proof. unfold in_notary. quiet_steps. Qed.
Lemma quiet_lookup_failed status text : quiet (lookup_failed status text).
Proof. unfold lookup_failed. quiet_steps. Qed.
#[local] Hint Resolve quiet_ask quiet_in_notary quiet_lookup_failed : scq.
Lemma quiet_ranny m : quiet (ranny m).
Proof. unfold ranny. quiet_steps. Qed.
Lemma quiet_host_lookup host af : quiet (host_lookup host af).
Proof. unfold host_lookup. quiet_steps. Qed.
Lemma quiet_when_many maxmx m : quiet m -> quiet (when_many maxmx m).
Proof. apply quiet_when. Qed.
#[local] Hint Resolve quiet_ranny quiet_host_lookup quiet_when_many : scq.
Lemma quiet_mx_addresses maxmx buf host : quiet (mx_addresses maxmx buf host).
Proof. unfold mx_addresses, when_many. quiet_steps. Qed.
#[local] Hint Resolve quiet_mx_addresses : scq.
Lemma quiet_all_addresses maxmx buf ms : quiet (all_addresses maxmx buf ms).
Proof. induction ms as [|m ms IH]; cbn [all_addresses]; quiet_steps. Qed.
Lemma quiet_find_self maxmx ms : forall i p, quiet (find_self maxmx i ms p).
Proof. induction ms as [|m ms IH]; intros i p; cbn [find_self]; unfold when_many; quiet_steps. Qed.
Lemma quiet_check_services ms : quiet (check_services ms).
Proof. induction ms as [|m ms IH]; cbn [check_services]; quiet_steps. Qed.
Lemma quiet_shuffle todo i len : forall k l, quiet (shuffle todo i len k l).
Proof. induction todo as [|todo IH]; intros k l; cbn [shuffle]; quiet_steps. Qed.
#[local] Hint Resolve quiet_all_addresses quiet_find_self quiet_check_services quiet_shuffle : scq.
Lemma quiet_randomize n : forall i mx, quiet (randomize n i mx).
Proof. induction n as [|n IH]; intros i mx; cbn [randomize]; quiet_steps. Qed.
#[local] Hint Resolve quiet_randomize : scq.
Lemma quiet_choose_hosts maxmx w : quiet (choose_hosts maxmx w).
Proof. unfold choose_hosts, when_many. cbv zeta. quiet_steps. Qed.
Lemma quiet_answers maxmx a now n : forall w, quiet (answers maxmx a now n w).
Proof. induction n as [|n IH]; intros w; cbn [answers]; unfold when_many; cbv zeta; quiet_steps. Qed.
Lemma quiet_refused a host : quiet (refused a host).
Proof. unfold refused. cbv zeta. quiet_steps. Qed.
#[local] Hint Resolve quiet_choose_hosts quiet_answers quiet_refused : scq.
Lemma quiet_getmxrr levels : forall maxmx host realname ttl, quiet (getmxrr levels maxmx host realname ttl).
Proof. induction levels as [|levels IH]; intros maxmx host realname ttl; cbn [getmxrr]; unfold when_many; cbv zeta; quiet_steps. Qed.
#[local] Hint Resolve quiet_getmxrr : scq.
Lemma quiet_cname_table : quiet cname_table.
Proof. unfold cname_table. quiet_steps. Qed.
#[local] Hint Resolve quiet_cname_table : scq.
Lemma quiet_add_cname host cname ttl : quiet (add_cname host cname ttl).
Proof. unfold add_cname. quiet_steps. Qed.
#[local] Hint Resolve quiet_add_cname : scq.
Lemma quiet_cname_lookup host : quiet (cname_lookup host).
Proof. unfold cname_lookup. quiet_steps. Qed.
End lookups.
#[export] Hint Resolve quiet_ask quiet_in_notary quiet_lookup_failed quiet_host_lookup quiet_getmxrr quiet_add_cname quiet_cname_lookup : scq.

(** ** Connections *)

Section connections.
Context `{TaEnv, ScEnv, DeliverEnv}.
Hypothesis Hlmtp : lmtp_mode = false.
Variable fuel : nat.

Lemma good_weak_states v : good weak (update (set_c_rcptstates v)).
Proof. intros c [I1 I2 I3 I4 I5 I6 I7 I8]. apply wpx_update. split; [by split|]. split_and!; [done | done | by left]. Qed.
Lemma good_write_weak l p rp : good weak (smtpwrite fuel l p rp).
Proof. by apply good_smtpwrite. Qed.
Lemma safe_flush_weak : safe weak weak smtp_flush.
Proof. apply safe_weaken, safe_flush. Qed.
#[local] Hint Resolve good_weak_states good_write_weak safe_flush_weak : scq.

Lemma quiet_reserved_port todo : forall p, quiet (reserved_port todo p).
Proof. induction todo as [|todo IH]; intros p; cbn [reserved_port]; quiet_steps. Qed.
Lemma quiet_set_ipaddress ip : quiet (set_ipaddress ip).
Proof. unfold set_ipaddress. quiet_steps. Qed.
Lemma quiet_self_report i : quiet (self_report i).
Proof. unfold self_report. quiet_steps. Qed.
#[local] Hint Resolve quiet_reserved_port quiet_set_ipaddress quiet_self_report : scq.

Lemma safe_vcsetup a hostname : safe weak weak (vcsetup a hostname).
Proof. unfold vcsetup. repeat safe_step. Qed.

(** The stream is there. *)
Lemma safe_smtpfp v : safe weak weak (update (set_c_smtpfp v)).
Proof. intros c I. apply wpx_update. split; [by destruct I; split | done]. Qed.
#[local] Hint Resolve safe_vcsetup safe_smtpfp : scq.
Lemma safe_open_stream : safe weak weak (open_stream fuel).
Proof. unfold open_stream. repeat safe_step. Qed.
#[local] Hint Resolve safe_open_stream : scq.
Lemma safe_try_addresses reconnect hostname hostbuf ismx ai : forall retval,
  safe weak weak (try_addresses fuel reconnect hostname hostbuf ismx ai retval).
Proof. induction ai as [|a ai IH]; intros retval; cbn [try_addresses]; repeat safe_step. Qed.
#[local] Hint Resolve safe_try_addresses : scq.
Lemma safe_makeconn reconnect hostname ai ismx : safe weak weak (makeconn fuel reconnect hostname ai ismx).
Proof. unfold makeconn. repeat safe_step. Qed.
#[local] Hint Resolve safe_makeconn : scq.
Lemma safe_makereconn : safe weak weak (makereconn fuel).
Proof. unfold makereconn. repeat safe_step. Qed.
Lemma safe_literal_conn host : safe weak weak (literal_conn fuel host).
Proof. unfold literal_conn. repeat safe_step. Qed.
Lemma quiet_no_address host r rc : quiet (no_address host r rc).
Proof. unfold no_address. quiet_steps. Qed.
#[local] Hint Resolve quiet_no_address : scq.
Lemma safe_address_conn host rc : safe weak weak (address_conn fuel host rc).
Proof. unfold address_conn. repeat safe_step. Qed.
Lemma safe_mx_conn mx : forall i retval, safe weak weak (mx_conn fuel mx i retval).
Proof. induction mx as [|m mx IH]; intros i retval; cbn [mx_conn]; repeat safe_step. Qed.
Lemma quiet_find_hosts host : quiet (find_hosts host).
Proof. unfold find_hosts. quiet_steps. Qed.
#[local] Hint Resolve safe_literal_conn safe_address_conn safe_mx_conn quiet_find_hosts : scq.
Lemma safe_name_conn host : safe weak weak (name_conn fuel host).
Proof. unfold name_conn. repeat safe_step. Qed.
#[local] Hint Resolve safe_name_conn : scq.
Lemma safe_smtpconn : safe weak weak (smtpconn fuel).
Proof. unfold smtpconn. repeat safe_step. Qed.
Lemma quiet_pick_secrets : quiet pick_secrets.
Proof. unfold pick_secrets. quiet_steps. Qed.
Lemma good_sync_weak b : good weak (smtp_sync fuel b).
Proof. by apply good_smtp_sync. Qed.
#[local] Hint Resolve quiet_pick_secrets good_sync_weak : scq.
Lemma safe_smtpauth : safe weak weak (smtpauth fuel).
Proof. unfold smtpauth. repeat safe_step. Qed.
End connections.
