(* ===== verification/ScInvDeliver.v ===== *)
(** * The SMTP client: a delivery keeps the invariant

    deliver() and process() from the opening of the connection to the last
    report. *)

From Stdlib Require Import ZArith Lia.
From stdpp Require Import base tactics numbers list option sets.
From S2P Require Import Prelude TaFile TaDiag TaCtl ScState ScMx ScCname ScReply ScConnect ScBody ScCommand ScDeliver ScInv ScInvReply ScInvBody ScInvConn.

#[local] Open Scope Z_scope.

Section open.
Context `{TaEnv, ScEnv, DeliverEnv}.
Hypothesis Hlmtp : lmtp_mode = false.
Variable fuel : nat.

Lemma safe_good_bind w w' {A B} (m : SC A) (k : A -> SC B) : good w m -> (forall a, safe w w' (k a)) -> safe w w' (m ≫= k).
Proof. intros Hm. apply safe_bind. by apply good_safe. Qed.

#[local] Hint Resolve good_weak_states : scq.

Lemma good_ehlo_weak l : good weak (smtp_ehlo fuel l).
Proof. unfold smtp_ehlo. good_steps. apply good_smtpwrite; auto. Qed.
Lemma good_close_if_open w : good w close_if_open.
Proof. unfold close_if_open. good_steps. Qed.
#[local] Hint Resolve good_ehlo_weak good_write_weak good_close_if_open : scq.
Lemma conn_safe : safe weak weak (smtpconn fuel).
Proof. by apply safe_smtpconn. Qed.
Lemma reconn_safe : safe weak weak (makereconn fuel).
Proof. by apply safe_makereconn. Qed.
Lemma auth_safe : safe weak weak (smtpauth fuel).
Proof. by apply safe_smtpauth. Qed.
Lemma quiet_client_name : quiet client_name.
Proof. unfold client_name. quiet_steps. Qed.
#[local] Hint Resolve quiet_client_name : scq.
#[local] Hint Resolve conn_safe reconn_safe auth_safe : scq.

Lemma safe_open_ehlo : safe weak weak (open_ehlo fuel).
Proof. apply good_safe. unfold open_ehlo. rewrite Hlmtp. good_steps. Qed.
#[local] Hint Resolve safe_open_ehlo : scq.
Lemma safe_open_helo i : safe weak weak (open_helo fuel i).
Proof. unfold open_helo. rewrite Hlmtp. repeat safe_step. Qed.
#[local] Hint Resolve safe_open_helo : scq.
Lemma safe_open_round : safe weak weak (open_round fuel).
Proof. unfold open_round. rewrite Hlmtp. repeat safe_step. Qed.
#[local] Hint Resolve safe_open_round : scq.
Lemma safe_open_loop n : safe weak weak (open_loop fuel n).
Proof. induction n as [|n IH]; cbn [open_loop]; repeat safe_step. Qed.
Lemma safe_smtpopen : safe weak weak (smtpopen fuel).
Proof. unfold smtpopen. apply safe_bind with weak; [apply safe_weaken, safe_flush|]. intros ?. apply safe_open_loop. Qed.
End open.

(** ** Reports *)

Section group_reports.
Context `{TaEnv, ScEnv, DeliverEnv}.
Hypothesis Hlmtp : lmtp_mode = false.
Variable fuel : nat.

Lemma good_diagnostic_safe w id rc timeout fmt text : (no_pipelining = true -> rc <> EX_OK) -> good w (sc_diagnostic id rc timeout fmt text).
Proof.
  intros Hrc c I. eapply wpx_mono; [apply (sc_diagnostic_spec w); [done|] | done|]; cbv beta.
  - intros Hn Hr. by destruct (Hrc Hn).
  - intros _ c' (? & ? & _). done.
Qed.

Lemma good_for_locked w ids f : (forall id, good w (f id)) -> good w (for_locked ids f).
Proof. intros Hf. induction ids as [|id ids IH]; cbn [for_locked]; good_steps. Qed.

Lemma status_or_spec w id r c : INV w c -> r <> EX_OK ->
  wpx (status_or id r) (fun _ c' => outer c') (fun st c' => INV w c' /\ goes c c' /\ st <> EX_OK /\ same_pipe c c') c.
Proof.
  intros I Hr. unfold status_or. apply wpx_bind, get_rcpt_spec; [apply I|]. intros rp Hf. apply wpx_bind.
  eapply wpx_mono; [eapply (set_rcpt_spec w id rp _ (fun _ _ => False)); [done | done | | done] | done|].
  - split_and!; [done | | done]. destruct (find_rcpt_id _ _ _ Hf) as [_ Hin]. pose proof (in_fine _ _ I) as Hfine.
    rewrite Forall_forall in Hfine. apply (Hfine rp Hin).
  - cbv beta. intros _ c' (? & ? & _ & ? & ? & _). apply wpx_ret. split_and!; [done | done | | by split].
    destruct (r_status rp =? EX_OK) eqn:E; [done|]. by apply Z.eqb_neq in E.
Qed.

(** A report behind a status that is not [EX_OK] *)
Lemma good_status_report w {A} id r (k : Z -> SC A) : r <> EX_OK -> (forall st, st <> EX_OK -> good w (k st)) ->
  good w (st ← status_or id r; k st).
Proof.
  intros Hr Hk c I. apply wpx_bind. eapply wpx_mono; [by apply (status_or_spec w) | done|]. cbv beta.
  intros st c1 (I1 & G1 & Hst & _). eapply wpx_mono; [by apply Hk | done|]. cbv beta. intros _ c2 [I2 G2].
  split; [done | by eapply goes_trans].
Qed.

Lemma good_report_group w ids a3 a4 r text : r <> EX_OK -> good w (report_group ids a3 a4 r text).
Proof.
  intros Hr. unfold report_group. apply good_for_locked. intros id. apply good_bind; [good_steps|]. intros ?.
  apply good_status_report; [done|]. intros st Hst. good_steps.
Qed.

Lemma good_mail_failed b pipelining l r : (pipelining = true -> no_pipelining = false) -> r <> EX_OK ->
  good (Grade b None) (mail_failed fuel pipelining l r).
Proof.
  intros Hp Hr. unfold mail_failed, goto. good_step; [good_steps|]. good_step; [good_steps; by apply good_smtp_sync|].
  good_step; [good_steps|]. intros c I. apply wpx_bind.
  assert (wpx (if a1 && pipelining then smtp_sync fuel false else mret r) (fun _ c' => outer c')
    (fun r c' => (INV (Grade b None) c' /\ goes c c') /\ (no_pipelining = true -> r <> EX_OK)) c) as Hs.
  { destruct pipelining.
    - assert (good (Grade b None) (if a1 && true then smtp_sync fuel false else mret r)) as Hg by (good_steps; by apply good_smtp_sync).
      eapply wpx_mono; [by apply Hg | done|]. cbv beta. intros r' c' Hc. split; [exact Hc|]. by rewrite Hp.
    - rewrite andb_false_r. apply wpx_ret. split; [split; [done | apply goes_refl] | done]. }
  eapply wpx_mono; [exact Hs | done|]. cbv beta. intros r' c1 [[I1 G1] Hr'].
  assert (good (Grade b None) (fp ← read c_smtpfp;
     if negb fp && (0 <? l_once l) then mret (ReOpen, set_l_reopen l, EX_TEMPFAIL)
     else
      update (set_c_cmdstate SMTPSTATE_RCPTTO);;
      when_ (negb (r' =? EX_TEMPFAIL) && negb fp)
        (for_locked (l_ids l)
           (fun id => notary_user id FAILED (Some ($$"5.5.0 (Undetermined protocol error)")) None;;
              msg ← remotemsg; sc_diagnostic id r' 0 ($$"%s") msg));;
      mret (MoreRecipients, l, r'))) as Hg.
  { good_steps. apply good_for_locked. intros id. good_steps. by apply good_diagnostic_safe. }
  eapply wpx_mono; [by apply Hg | done|]. cbv beta. intros _ c2 [I2 G2]. split; [done | by eapply goes_trans].
Qed.
End group_reports.

(** ** RCPT *)

(** The recipients that still have their locks were sent in RCPT. *)
Definition covered (ids : list nat) (c : client) : Prop :=
  forall id, id ∈ ids -> locked c id -> exists pc, pc ∈ c_pipe c /\ p_rcpt pc = Some id.

(** No recipient wants an envelope sender of its own (EZMLM). *)
Definition no_ezmlm (c : client) : Prop := Forall (fun rp => r_ezmlm rp = None) (recipients c).

Lemma lk_no_ezmlm c c' : lk c c' -> no_ezmlm c -> no_ezmlm c'.
Proof.
  intros [F _]. unfold no_ezmlm. rewrite !Forall_forall. intros Hn rp Hin.
  assert (fixed rp ∈ fixed <$> recipients c) as Hf by (rewrite <- F; by apply list_elem_of_fmap_2).
  apply list_elem_of_fmap in Hf as (rp' & Hf & Hin'). unfold fixed in Hf. injection Hf as _ ->. by apply Hn.
Qed.

Section rcpt.
Context `{TaEnv, ScEnv, DeliverEnv}.
Hypothesis Hlmtp : lmtp_mode = false.
Variable fuel : nat.

(** Steps behind which one recipient is taken care of. *)
Definition sent_or_done (id : nat) (c : client) : Prop :=
  locked c id -> exists pc, pc ∈ c_pipe c /\ p_rcpt pc = Some id.

Lemma sent_goes id c c' : sent_or_done id c -> goes c c' -> c_smtpfp c' = true -> sent_or_done id c'.
Proof.
  intros Hs ([_ L] & _ & [P|P]) Hf Hl; [|congruence]. destruct (Hs (L _ Hl)) as (pc & Hin & Hpc). exists pc. split; [|done].
  destruct P as [k ->]. apply elem_of_app. by left.
Qed.
Lemma covered_goes ids c c' : covered ids c -> goes c c' -> c_smtpfp c' = true -> covered ids c'.
Proof. intros Hs G Hf id Hin. by apply (sent_goes id c c'); [exact (Hs id Hin) | ..]. Qed.

Lemma quiet_ezmlm_at endrp p : quiet (ezmlm_at endrp p).
Proof. unfold ezmlm_at. quiet_steps. Qed.
#[local] Hint Resolve quiet_ezmlm_at : scq.
Lemma quiet_cut_list endrp rp full rest : quiet (cut_list endrp rp full rest).
Proof. unfold cut_list. cbv zeta. quiet_steps. Qed.

(** Where the list is cut: behind the limit, and then the rest is kept. *)
Lemma cut_list_spec endrp rp full rest c : (no_ezmlm c -> r_ezmlm rp = None) ->
  wpx (cut_list endrp rp full rest) (fun _ c' => quietly c c') (fun x c' => quietly c c' /\
    (no_ezmlm c -> x = if full then (None, rest_of endrp rest) else (rest_of endrp rest, None))) c.
Proof.
  intros Hez. set (P := fun (x : option (list nat) * option (list nat)) (_ : client) =>
    no_ezmlm c -> x = if full then (None, rest_of endrp rest) else (rest_of endrp rest, None)).
  assert (wpx (cut_list endrp rp full rest) (fun _ _ => True) P c) as Hp.
  2: { eapply wpx_mono; [exact (wpx_and _ _ _ _ _ _ (quiet_cut_list endrp rp full rest c) Hp) | by intros ? ? [? _] | done]. }
  unfold cut_list. set (n1 := rest_of endrp rest).
  set (x1 := if full then (None, n1) else (n1, None)). destruct x1 as [next more] eqn:E1.
  set (x2 := if negb ignore_ezmlm && bool_decide (is_Some (r_ezmlm rp)) then (None, next) else (next, more)).
  destruct x2 as [next2 more2] eqn:E2. apply wpx_bind.
  assert (no_ezmlm c -> (next2, more2) = (next, more)) as Hx2.
  { intros Hn. rewrite <- E2. subst x2. rewrite (Hez Hn), bool_decide_false by (by intros []). by rewrite andb_false_r. }
  eapply (wpx_mono _ (fun _ _ => True) _ (fun nez _ => no_ezmlm c -> nez = false)); [|done|].
  - unfold ezmlm_at. destruct next2 as [l|]; [|by apply wpx_ret]. destruct (l ++ option_list endrp) as [|id l']; [by apply wpx_ret|].
    apply wpx_bind, get_rcpt_spec; [done|]. intros rp' Hf. apply wpx_ret. intros Hn. unfold no_ezmlm in Hn. rewrite Forall_forall in Hn.
    apply bool_decide_eq_false. apply find_rcpt_id in Hf as [_ Hin]. rewrite (Hn _ Hin). by intros [].
  - cbv beta. intros nez c' Hnez. apply wpx_ret. intros Hn. rewrite (Hnez Hn), andb_false_r, (Hx2 Hn). by rewrite <- E1.
Qed.
Lemma quiet_in_buffer text : quiet (in_buffer text).
Proof. unfold in_buffer. quiet_steps. Qed.
Lemma quiet_domain_name u : quiet (domain_name u).
Proof. unfold domain_name. quiet_steps. Qed.
#[local] Hint Resolve quiet_in_buffer quiet_domain_name : scq.
Lemma quiet_rcpt_command rp : quiet (rcpt_command rp).
Proof. unfold rcpt_command. quiet_steps. Qed.
Lemma quiet_mail_command id : quiet (mail_command id).
Proof. unfold mail_command. quiet_steps. Qed.

Lemma rcpt_failed_spec b pipelining id r c : INV (Grade b None) c -> (pipelining = true -> no_pipelining = false) -> r <> EX_OK ->
  wpx (rcpt_failed fuel pipelining id r) (fun _ c' => outer c') (fun x c' =>
    INV (Grade b None) c' /\ goes c c' /\ ~ locked c' id /\ x.2 = c_smtpfp c') c.
Proof.
  intros I Hp Hr. unfold rcpt_failed. eapply INV_bind; [apply quiet_is_open | exact I|]. intros up c1 I1 Q1.
  set (r1 := if negb up then EX_TEMPFAIL else r). assert (r1 <> EX_OK) as Hr1 by (subst r1; by destruct up). clearbody r1.
  apply wpx_bind. assert (good (Grade b None) (when_ (negb pipelining)
    (add_states (if r1 =? EX_TEMPFAIL then RCPTSTATE_400 else RCPTSTATE_500);; rp ← get_rcpt id; set_rcpt (set_r_status r1 rp)))) as Hg1 by good_steps.
  eapply wpx_mono; [by apply Hg1 | done|]. cbv beta. intros _ c2 [I2 G2]. apply wpx_bind, wpx_read, wpx_bind.
  assert (wpx (if c_smtpfp c2 then if pipelining then smtp_sync fuel false else mret r1 else mret EX_TEMPFAIL) (fun _ c' => outer c')
    (fun r c' => (INV (Grade b None) c' /\ goes c2 c') /\ (no_pipelining = true -> r <> EX_OK)) c2) as Hs.
  { assert (INV (Grade b None) c2 /\ goes c2 c2) as Hret by (split; [done | apply goes_refl]).
    destruct (c_smtpfp c2); [|by apply wpx_ret]. destruct pipelining; [|by apply wpx_ret].
    eapply wpx_mono; [by apply (good_smtp_sync Hlmtp fuel b) | done|]. cbv beta. intros r' c' Hc. split; [exact Hc|]. by rewrite Hp. }
  eapply wpx_mono; [exact Hs | done|]. cbv beta. intros r2 c3 [[I3 G3] Hr2].
  eapply INV_bind; [apply quiet_notary_user | exact I3|]. intros _ c4 I4 Q4.
  eapply INV_bind; [apply quiet_remotemsg | exact I4|]. intros msg c5 I5 Q5.
  apply wpx_bind. eapply wpx_mono; [apply (sc_diagnostic_spec (Grade b None)); [done|] | done|].
  { intros Hn E. by destruct (Hr2 Hn). }
  cbv beta. intros _ c6 (I6 & G6 & U6 & _). apply wpx_bind, wpx_read, wpx_ret. split_and!; [done | | done | done].
  eapply goes_trans; [by apply quietly_goes|]. eapply goes_trans; [exact G2|]. eapply goes_trans; [exact G3|].
  eapply goes_trans; [apply quietly_goes; by eapply quietly_trans | done].
Qed.

(** One recipient *)
Definition rcpt_one (pipelining : bool) (id : nat) (rp : rcpt) (nrcpt : Z) : SC (Z * bool * Z) :=
  text ← rcpt_command rp;
  r ← smtpwrite fuel (Some text) (pipeline_arg pipelining) (Some id);
  if negb (r =? EX_OK) then x ← rcpt_failed fuel pipelining id r; mret (x, nrcpt)
  else
    when_ (negb pipelining) (add_states RCPTSTATE_OK);;
    update (fun c => set_c_rcptcnt (c_rcptcnt c + 1) c);;
    rp ← get_rcpt id;
    set_rcpt (set_r_status EX_OK rp);;
    mret (r, true, nrcpt + 1).

Lemma rcpt_one_spec b pipelining id rp nrcpt c : INV (Grade b None) c -> (pipelining = true -> no_pipelining = false) ->
  wpx (rcpt_one pipelining id rp nrcpt) (fun _ c' => outer c') (fun y c' =>
    INV (Grade b None) c' /\ goes c c' /\ (c_smtpfp c' = true -> sent_or_done id c') /\ (y.1.2 = false -> c_smtpfp c' = false)) c.
Proof.
  intros I Hp. unfold rcpt_one. eapply INV_bind; [apply quiet_rcpt_command | exact I|]. intros text c1 I1 Q1.
  apply wpx_bind. eapply wpx_mono; [by apply (smtpwrite_spec Hlmtp fuel b) | done|]. cbv beta zeta.
  intros r c2 (I2 & G2 & Hpipe & Hsync & _). assert (goes c c2) as G by (eapply goes_trans; [by apply quietly_goes | done]).
  apply wpx_if; intros Er.
  - apply wpx_bind. eapply wpx_mono; [apply (rcpt_failed_spec b); [done | done|] | done|].
    { apply negb_true_iff, Z.eqb_neq in Er. done. }
    cbv beta. intros [r' fp] c3 (I3 & G3 & U & F). apply wpx_ret. cbn in *. split_and!; [done | by eapply goes_trans | by intros _ ?%U | congruence].
  - apply negb_false_iff, Z.eqb_eq in Er. subst r.
    assert (sent_or_done id c2) as Hs.
    { assert (c_pipe c2 = c_pipe c1 ++ [Pipecmd (Some text) (Some id) (c_cmdstate c1)]) as E.
      { destruct pipelining; [by apply Hpipe | by apply Hsync]. }
      intros _. eexists. split; [rewrite E; apply elem_of_app; right; by apply list_elem_of_singleton | done]. }
    assert (good (Grade b None) (when_ (negb pipelining) (add_states RCPTSTATE_OK);; update (fun c => set_c_rcptcnt (c_rcptcnt c + 1) c);;
      rp ← get_rcpt id; set_rcpt (set_r_status EX_OK rp))) as Hg by good_steps.
    (* the last step only returns *)
    assert (forall c3, wpx (when_ (negb pipelining) (add_states RCPTSTATE_OK);; update (fun c => set_c_rcptcnt (c_rcptcnt c + 1) c);;
      rp ← get_rcpt id; set_rcpt (set_r_status EX_OK rp)) (fun _ c' => outer c') (fun _ c' => INV (Grade b None) c' /\ goes c2 c') c3 ->
      wpx (when_ (negb pipelining) (add_states RCPTSTATE_OK);; update (fun c => set_c_rcptcnt (c_rcptcnt c + 1) c);;
      rp ← get_rcpt id; set_rcpt (set_r_status EX_OK rp);; mret (EX_OK, true, nrcpt + 1)) (fun _ c' => outer c')
      (fun y c' => (INV (Grade b None) c' /\ goes c2 c') /\ y.1.2 = true) c3) as Hret.
    { intros c3. unfold wpx, mbind, ex_bind. destruct (when_ _ _ c3) as [[]]; [done|]. destruct (update _ _) as [[]]; [done|].
      destruct (get_rcpt _ _) as [[]]; [done|]. destruct (set_rcpt _ _) as [[]]; done. }
    eapply wpx_mono; [apply Hret, Hg; done | done|]. cbv beta. intros y c4 [[I4 G4] Hy].
    split_and!; [done | by eapply goes_trans | intros Hf; by apply (sent_goes id c2) | congruence].
Qed.

Lemma wpx_assoc2 {S R A B C D} (m : EX S R A) (k : A -> EX S R B) (l : A -> B -> EX S R C) (f : C -> EX S R D) E Q s :
  wpx ((x ← m; y ← k x; l x y) ≫= f) E Q s -> wpx (x ← m; y ← k x; z ← l x y; f z) E Q s.
Proof. unfold wpx, mbind, ex_bind. destruct (m s) as [[|x] s1]; [done|]. by destruct (k x s1) as [[|y] s2]. Qed.

Lemma rcpt_loop_spec b pipelining endrp ids : (pipelining = true -> no_pipelining = false) -> forall cnt nrcpt r c, INV (Grade b None) c ->
  wpx (rcpt_loop fuel pipelining endrp ids cnt nrcpt r) (fun _ c' => outer c') (fun s c' =>
    INV (Grade b None) c' /\ goes c c' /\ (c_smtpfp c' = true -> covered (rs_group s) c') /\ (no_ezmlm c -> rs_lost s = None)) c.
Proof.
  intros Hp. induction ids as [|id rest IH]; intros cnt nrcpt r c I; cbn [rcpt_loop].
  { apply wpx_ret. split_and!; [done | apply goes_refl | by intros _ id ?%elem_of_nil | done]. }
  apply wpx_bind, get_rcpt_spec; [apply I|]. intros rp Hf. apply wpx_if; intros El.
  - apply wpx_bind. eapply wpx_mono; [by apply IH | done|]. cbv beta. intros s c1 (I1 & G1 & C1 & N1). apply wpx_ret.
    split_and!; [done | done| | done]. cbn [rs_group cons_group]. intros Hfp id2 [->|Hin]%elem_of_cons Hl; [|by apply C1].
    exfalso. apply G1 in Hl as (rp2 & F2 & L2). rewrite Hf in F2. injection F2 as <-. by apply Nat.eqb_eq in El.
  - apply wpx_bind. eapply wpx_mono; [eapply (set_rcpt_spec (Grade b None) id rp _ (fun _ _ => False)); [done | done | | done] | done|].
    { split_and!; [done | | done]. destruct (find_rcpt_id _ _ _ Hf) as [_ Hin]. pose proof (in_fine _ _ I) as Hfine.
      rewrite Forall_forall in Hfine. apply (Hfine rp Hin). }
    cbv beta. intros _ c1 (I1 & G1 & _ & _ & _ & _ & L1 & _). apply wpx_bind, wpx_read.
    apply wpx_bind. eapply wpx_mono; [apply cut_list_spec | |]; cbv beta.
    { intros Hn. apply (lk_no_ezmlm c1 c) in Hn; [|split; [by destruct (proj1 G1) as [-> _] | intros; by apply L1]].
      unfold no_ezmlm in Hn. rewrite Forall_forall in Hn. apply Hn. by apply find_rcpt_id in Hf as [_ ?]. }
    { intros _ c2 Q2. apply (in_delivered _ _ (quietly_INV _ _ _ Q2 I1)). }
    intros [next more] c2 [Q2 Hcut]. pose proof (quietly_INV _ _ _ Q2 I1) as I2. apply wpx_bind, wpx_update. set (c3 := set_c_cmdstate _ c2).
    assert (no_ezmlm c -> (if bool_decide (next = None) && bool_decide (more = None) then rest_of endrp rest else None) = None) as Hlost.
    { intros Hn. assert (no_ezmlm c1) as Hn1 by (by apply (lk_no_ezmlm c c1); [apply G1|]). specialize (Hcut Hn1).
      destruct (c_rcpt_limit c1 <=? cnt + 1); injection Hcut as -> ->; destruct (rest_of endrp rest); done. }
    assert (quietly c2 c3) as Q3 by (split; [done..|by exists []]). pose proof (quietly_INV _ _ _ Q3 I2) as I3.
    assert (goes c c3) as G3 by (eapply goes_trans; [exact G1 | apply quietly_goes; by eapply quietly_trans]).
    (* the command *)
    apply wpx_assoc2, wpx_bind. fold (rcpt_one pipelining id rp nrcpt).
    eapply wpx_mono; [by apply (rcpt_one_spec b) | done|]. cbv beta.
    intros [[r' go_on] n'] c4 (I4 & G4 & S4 & F4). cbn [fst snd] in F4. assert (goes c c4) as G by (by eapply goes_trans).
    apply wpx_if; intros _.
    { apply wpx_ret. cbn [rs_group rs_lost]. split_and!; [done | done| | done]. intros Hfp id2 ->%list_elem_of_singleton. by apply S4. }
    apply wpx_if; intros Eg.
    { apply wpx_ret. split_and!; [done | done| | done]. apply negb_true_iff in Eg. intros Hfp. by rewrite F4 in Hfp. }
    apply wpx_bind. eapply wpx_mono; [by apply IH | done|]. cbv beta. intros s c5 (I5 & G5 & C5 & N5). apply wpx_ret.
    split_and!; [done | by eapply goes_trans| | intros Hn; apply N5; by apply (lk_no_ezmlm c c4); [apply G|]]. cbn [rs_group cons_group]. intros Hfp id2 [->|Hin]%elem_of_cons Hl; [|by apply C5].
    assert (c_smtpfp c4 = true) as Hfp4.
    { destruct (c_smtpfp c4) eqn:E; [done|]. destruct G5 as (_ & (Hfm & _) & _). by rewrite (Hfm E) in Hfp. }
    by apply (sent_goes id c4 c5); [apply S4 | ..].
Qed.
End rcpt.

(** ** The message *)

(** All commands have their replies, none but recipients was refused, and one
    of them ended the message. *)
Definition all_accepted (c : client) : Prop :=
  c_pipereplies c = length (c_pipe c) /\ flag_set (c_rcptstates c) BAD_STATES = false /\
  exists pc, pc ∈ c_pipe c /\ p_rcpt pc = None /\ p_state pc = SMTPSTATE_DATADOT.

Section message.
Context `{TaEnv, ScEnv, DeliverEnv}.
Hypothesis Hlmtp : lmtp_mode = false.
Variable fuel : nat.

Lemma covered_pipe ids c c' : covered ids c -> lk c c' -> c_pipe c `prefix_of` c_pipe c' -> covered ids c'.
Proof.
  intros Hc [_ L] [k E] id Hin Hl. destruct (Hc id Hin (L _ Hl)) as (pc & Hpc & Hr). exists pc. split; [|done].
  rewrite E. apply elem_of_app. by left.
Qed.

Lemma replied_code tr pc : pc ∈ replied tr -> exists code, EvReply pc code ∈ since tr.
Proof.
  unfold replied. rewrite list_elem_of_In, <- in_rev, <- list_elem_of_In, list_elem_of_omap. intros (e & He & Hpc). destruct e; try done.
  injection Hpc as <-. eauto.
Qed.

(** What it says of the replies *)
Lemma accepted_replies ids c : INV full c -> covered ids c -> all_accepted c ->
  message_accepted (c_trace c) /\ forall id, id ∈ ids -> locked c id -> rcpt_accepted id (c_trace c).
Proof.
  intros I Hcov (Hr & Hb & pc & Hin & Hn & Hst). pose proof (in_replied _ _ I) as E. rewrite Hr, firstn_all in E.
  assert (forall pc, pc ∈ c_pipe c -> exists code, EvReply pc code ∈ since (c_trace c)) as Hcode.
  { intros pc' Hpc. rewrite <- E in Hpc. by apply replied_code. }
  split.
  - destruct (Hcode pc Hin) as [code Hev]. exists pc, code. split_and!; [done..|].
    destruct (decide (400 <= code)) as [Hc|Hc]; [|lia]. pose proof (in_bad _ _ I eq_refl pc code Hev Hc Hn). congruence.
  - intros id Hid Hl. destruct (Hcov id Hid Hl) as (pc' & Hpc & Hid'). destruct (Hcode pc' Hpc) as [code Hev].
    exists pc', code. split_and!; [done..|]. destruct (decide (400 <= code)) as [Hc|Hc]; [|lia].
    by destruct (in_refused _ _ I pc' code id Hev Hc Hid').
Qed.

(** *** DATA *)

Lemma safe_states_weak v : safe full weak (update (set_c_rcptstates v)).
Proof. intros c I. by apply (good_safe weak _ (good_weak_states v)), INV_full. Qed.

Lemma data_failed_spec r c : INV full c -> r <> EX_OK ->
  wpx (data_failed fuel r) (fun _ c' => outer c') (fun r' c' => (INV full c' /\ lk c c') /\ r' <> EX_OK) c.
Proof.
  intros I Hr. unfold data_failed.
  apply wpx_bind, wpx_read, wpx_bind. eapply wpx_mono; [by apply (good_safe full _ (quiet_good full _ (quiet_has_states _))) | done|].
  cbv beta. intros ok c1 [I1 L1]. apply wpx_bind.
  assert (wpx (if c_smtpfp c && ok then smtpclose;; mret EX_TEMPFAIL else mret r) (fun _ c' => outer c')
    (fun r' c' => (INV full c' /\ lk c1 c') /\ r' <> EX_OK) c1) as Hw.
  { destruct (_ && _); [|apply wpx_ret; split; [split; [done | apply lk_refl] | done]]. apply wpx_bind.
    eapply wpx_mono; [by apply (good_smtpclose full) | done|]. cbv beta. intros _ c' [I' [L' _]]. by apply wpx_ret. }
  eapply wpx_mono; [exact Hw | done|]. cbv beta. intros r1 c2 [[I2 L2] Hr1]. apply wpx_bind, wpx_read.
  unfold has_states. do 2 (apply wpx_bind, wpx_bind, wpx_read, wpx_ret). apply wpx_if; intros _.
  2: { apply wpx_ret. split; [split; [done | by eapply lk_trans] | done]. }
  assert (safe full full (update (set_c_rcptstates 0);; smtp_flush;; smtpwrite fuel (Some ($$"QUIT")) (-1) None;;
    smtpclose;; update (set_c_close_after_data true))) as Hq.
  { eapply safe_bind; [apply safe_states_weak | intros ?]. eapply safe_bind; [apply safe_flush | intros ?].
    apply good_safe. good_steps. by apply good_smtpwrite. }
  assert (forall c, wpx (update (set_c_rcptstates 0);; smtp_flush;; smtpwrite fuel (Some ($$"QUIT")) (-1) None;;
    smtpclose;; update (set_c_close_after_data true)) (fun _ c' => outer c') (fun _ c' => INV full c' /\ lk c2 c') c ->
    wpx (update (set_c_rcptstates 0);; smtp_flush;; smtpwrite fuel (Some ($$"QUIT")) (-1) None;;
    smtpclose;; update (set_c_close_after_data true);; mret EX_TEMPFAIL) (fun _ c' => outer c')
    (fun r c' => (INV full c' /\ lk c2 c') /\ r = EX_TEMPFAIL) c) as Hret.
  { intros c3. unfold wpx, mbind, ex_bind. destruct (update _ _) as [[]]; [done|]. destruct (smtp_flush _) as [[]]; [done|].
    destruct (smtpwrite _ _ _ _ _) as [[]]; [done|]. destruct (smtpclose _) as [[]]; [done|]. by destruct (update _ _) as [[]]. }
  eapply wpx_mono; [apply Hret, Hq; done | done|]. cbv beta. intros r2 c3 [[I3 L3] ->].
  split; [split; [done|] | done]. eapply lk_trans; [exact L1 | by eapply lk_trans].
Qed.

(** Where the message can follow *)
Definition data_ready (ids : list nat) (c : client) : Prop :=
  INV full c /\ covered ids c /\ (c_doing_chunking c = false -> c_chunkbuf c = None).

Lemma data_phase_spec pipelining l r c : INV full c -> covered (l_ids l) c ->
  wpx (data_phase fuel pipelining l r) (fun _ c' => outer c') (fun x c' => lk c c' /\ l_ids x.1 = l_ids l /\
    match x.2 with Some _ => INV full c' | None => data_ready (l_ids l) c' end) c.
Proof.
  intros I Hcov. unfold data_phase. do 3 (apply wpx_bind, wpx_update). set (c1 := set_c_doing_chunking _ _).
  assert (INV full c1) as I1 by (by destruct I; split). assert (covered (l_ids l) c1) as Hc1 by exact Hcov.
  assert (lk c c1) as L1 by done. assert (c_chunkbuf c1 = None) as Cb by done. assert (c_doing_chunking c1 = false) as Dc by done. clearbody c1. clear Hcov I.
  apply wpx_bind, wpx_read, wpx_bind, wpx_read. apply wpx_if; intros _.
  - apply wpx_bind, wpx_update. set (c2 := set_c_doing_chunking true c1).
    assert (INV full c2) as I2 by (by destruct I1; split). assert (covered (l_ids l) c2) as Hc2 by exact Hc1. assert (lk c c2) as L2 by exact L1.
    assert (c_doing_chunking c2 = true) as Dc2 by done. clearbody c2.
    set (l2 := if negb pipelining then _ else _). assert (l_ids l2 = l_ids l) as El by (subst l2; by destruct pipelining). clearbody l2.
    apply wpx_bind, wpx_read, wpx_bind.
    assert (wpx (if c_smtpfp c2 && l_early l2 then smtp_sync fuel false else mret r) (fun _ c' => outer c')
      (fun r c' => INV full c' /\ goes c2 c' /\ (r = EX_OK -> covered (l_ids l) c')) c2) as Hs.
    { destruct (_ && _); [|apply wpx_ret; split_and!; [done | apply goes_refl | done]].
      eapply wpx_mono; [by apply (smtp_sync_spec Hlmtp fuel true) | done|]. cbv beta. intros r' c3 (I3 & G3 & _ & B3).
      split_and!; [done | done|]. intros Hr. destruct (B3 eq_refl Hr) as (P & _). apply (covered_pipe _ c2); [done | apply G3 | by rewrite P]. }
    eapply wpx_mono; [exact Hs | done|]. cbv beta. intros r' c3 (I3 & G3 & C3). apply wpx_if; intros Er.
    + apply wpx_bind. eapply wpx_mono; [apply (good_report_group full); [|exact I3] | done|].
      { apply negb_true_iff, Z.eqb_neq in Er. done. }
      cbv beta. intros _ c4 [I4 G4]. apply wpx_ret. cbn. split_and!; [|done | done].
      eapply lk_trans; [exact L2 | eapply lk_trans; [apply G3 | apply G4]].
    + apply negb_false_iff, Z.eqb_eq in Er. apply wpx_ret. cbn. split_and!; [eapply lk_trans; [exact L2 | apply G3] | done|].
      split_and!; [done | by apply C3|]. destruct G3 as (_ & (_ & D3 & _) & _). rewrite D3, Dc2. done.
  - apply wpx_bind. eapply wpx_mono; [by apply (smtpwrite_spec Hlmtp fuel true) | done|]. cbv beta zeta. intros r' c2 (I2 & G2 & _ & B2 & _).
    apply wpx_if; intros Er.
    + apply wpx_bind. eapply wpx_mono; [apply data_failed_spec; [exact I2|] | done|].
      { apply negb_true_iff, Z.eqb_neq in Er. done. }
      cbv beta. intros r2 c3 [[I3 L3] Hr2]. apply wpx_bind. eapply wpx_mono; [by apply (good_report_group full) | done|].
      cbv beta. intros _ c4 [I4 G4]. apply wpx_ret. cbn. split_and!; [|done | done].
      eapply lk_trans; [exact L1 | eapply lk_trans; [apply G2 | eapply lk_trans; [exact L3 | apply G4]]].
    + apply negb_false_iff, Z.eqb_eq in Er. apply wpx_ret. cbn. split_and!; [eapply lk_trans; [exact L1 | apply G2] | done|].
      destruct (B2 eq_refl Er) as (P & _). split_and!; [done | |].
      * apply (covered_pipe _ c1); [done | apply G2 | rewrite P; by apply prefix_app_r].
      * destruct G2 as (_ & (_ & _ & C2) & _). intros _. by apply C2.
Qed.

(** *** The end of the message *)

(** The commands are still in the pipe, or the connection was lost between
    chunks. *)
Definition still (ids : list nat) (c : client) : Prop :=
  covered ids c \/ c_doing_chunking c = true /\ c_smtpfp c = false.

Lemma bdat_last_spec ids c : INV full c -> still ids c -> c_doing_chunking c = true -> c_cmdstate c = SMTPSTATE_DATADOT ->
  wpx (bdat_flush fuel true) (fun _ c' => outer c') (fun r c' => INV full c' /\ lk c c' /\
    (r = EX_OK -> covered ids c' /\ all_accepted c')) c.
Proof.
  intros I Hst Hdc Hcs. unfold bdat_flush. apply wpx_bind, wpx_read, wpx_bind.
  eapply wpx_mono; [by apply (smtpwrite_spec Hlmtp fuel true) | done|]. cbv beta zeta. intros r c1 (I1 & G1 & P1 & _ & F1).
  apply wpx_if; intros Er.
  { apply negb_true_iff, Z.eqb_neq in Er. apply wpx_ret. split_and!; [done | apply G1 | done]. }
  apply negb_false_iff, Z.eqb_eq in Er. specialize (P1 ltac:(done)).
  assert (covered ids c1) as C1.
  { destruct Hst as [Hst | [_ Hfp]]; [|by destruct F1]. apply (covered_pipe _ c); [done | apply G1 | rewrite P1; by apply prefix_app_r]. }
  assert (exists pc, pc ∈ c_pipe c1 /\ p_rcpt pc = None /\ p_state pc = SMTPSTATE_DATADOT) as A1.
  { eexists. split; [rewrite P1; apply elem_of_app; right; by apply list_elem_of_singleton | by rewrite Hcs]. }
  apply wpx_bind, wpx_read. apply wpx_if; intros _; [apply wpx_exit; apply I1|]. apply wpx_bind, wpx_read.
  eapply INV_bind; [quiet_steps | exact I1|]. intros ok c2 I2 Q2. apply wpx_if; intros _.
  { assert (good full (update (fun c => set_c_chunkbuf ((fun _ => []) <$> c_chunkbuf c) c);; bdat_failed)) as Hg by good_steps.
    assert (forall c, wpx (update (fun c => set_c_chunkbuf ((fun _ => []) <$> c_chunkbuf c) c);; bdat_failed) (fun _ _ => True)
      (fun r _ => r = EX_TEMPFAIL) c) as Hr.
    { intros c3. by apply wpx_bind, wpx_update. }
    eapply wpx_mono; [apply wpx_and; [by apply Hg | apply Hr] | by intros ? ? []|]. cbv beta. intros r' c3 [[I3 G3] ->].
    split_and!; [done | | done]. eapply lk_trans; [apply G1 | eapply lk_trans; [by apply quietly_goes | apply G3]]. }
  eapply INV_bind; [apply quiet_sfsync | exact I2|]. intros _ c3 I3 Q3. apply wpx_bind, wpx_read, wpx_bind, wpx_read, wpx_bind.
  pose proof (quietly_trans _ _ _ Q2 Q3) as Q. assert (covered ids c3) as C3.
  { apply (covered_pipe _ c1); [done | by apply quietly_goes | by rewrite (qu_pipe _ _ Q)]. }
  rewrite <- (qu_pipe _ _ Q) in A1. cbn [orb negb].
  assert (wpx (if c_sferror c3 then bdat_failed else smtp_sync fuel false) (fun _ c' => outer c') (fun r c' =>
    INV full c' /\ goes c3 c' /\ (r = EX_OK -> covered ids c' /\ all_accepted c')) c3) as Hs.
  { destruct (c_sferror c3).
    - unfold bdat_failed, sc_notaryreport. apply wpx_bind, wpx_update, wpx_ret. split; [by destruct I3; split|].
      split; [split_and!; [done | done | by left] | done].
    - eapply wpx_mono; [by apply (smtp_sync_spec Hlmtp fuel true) | done|]. cbv beta. intros r' c4 (I4 & G4 & _ & B4).
      split_and!; [done | done|]. intros Hr. destruct (B4 eq_refl Hr) as (P4 & R4 & S4).
      split; [apply (covered_pipe _ c3); [done | apply G4 | by rewrite P4]|]. split_and!; [done | done | by rewrite P4]. }
  eapply wpx_mono; [exact Hs | done|]. cbv beta. intros r' c4 (I4 & G4 & A4). apply wpx_bind, wpx_update, wpx_ret.
  split_and!; [by destruct I4; split | | exact A4].
  eapply lk_trans; [apply G1 | eapply lk_trans; [by apply quietly_goes | exact (proj1 G4)]].
Qed.

Lemma dot_phase_spec ids c : INV full c -> still ids c ->
  wpx (dot_phase fuel) (fun _ c' => outer c') (fun r c' => INV full c' /\ lk c c' /\
    (r = EX_OK -> covered ids c' /\ all_accepted c')) c.
Proof.
  intros I Hst. unfold dot_phase. rewrite Hlmtp. cbn [when_ andb]. apply wpx_bind, wpx_update, wpx_bind, wpx_update. set (c1 := set_c_cmdstate _ _).
  assert (INV full c1) as I1 by (by destruct I; split). assert (still ids c1) as S1 by exact Hst. assert (lk c c1) as L1 by done.
  assert (c_cmdstate c1 = SMTPSTATE_DATADOT) as Cs by done. clearbody c1. apply wpx_bind, wpx_ret, wpx_bind, wpx_read.
  destruct (c_doing_chunking c1) eqn:Edc.
  { eapply wpx_mono; [by apply (bdat_last_spec ids) | done|]. cbv beta. intros r c2 (I2 & L2 & A2). split_and!; [done | by eapply lk_trans | done]. }
  destruct S1 as [Cov|[E _]]; [|congruence]. apply wpx_bind, wpx_read, wpx_bind.
  assert (wpx (when_ (c_smtpfp c1) (sfsync;; mret tt)) (fun _ c' => quietly c1 c') (fun _ c' => quietly c1 c' /\ c_cmdstate c' = c_cmdstate c1) c1) as Hq.
  { assert (quiet (when_ (c_smtpfp c1) (sfsync;; mret tt))) as Hq by quiet_steps.
    assert (wpx (when_ (c_smtpfp c1) (sfsync;; mret tt)) (fun _ _ => True) (fun _ c' => c_cmdstate c' = c_cmdstate c1) c1) as Hc.
    { destruct (c_smtpfp c1); [|done]. cbn [when_]. apply wpx_bind. unfold sfsync, ev. apply wpx_bind, wpx_read, wpx_bind, wpx_update.
      destruct (sc_put (c_trace c1)); wpx_steps; done. }
    eapply wpx_mono; [exact (wpx_and _ _ _ _ _ _ (Hq c1) Hc) | by intros ? ? [? _] | done]. }
  eapply wpx_mono; [exact Hq | |]; cbv beta.
  { intros _ c2 Q. apply (in_delivered _ _ (quietly_INV _ _ _ Q I1)). }
  intros _ c2 [Q2 Cs2]. pose proof (quietly_INV _ _ _ Q2 I1) as I2. apply wpx_bind.
  eapply wpx_mono; [by apply (smtpwrite_spec Hlmtp fuel true) | done|]. cbv beta zeta. intros r c3 (I3 & G3 & _ & B3 & _). apply wpx_ret.
  split_and!; [done | eapply lk_trans; [exact L1 | eapply lk_trans; [by apply quietly_goes | apply G3]]|].
  intros Hr. destruct (B3 eq_refl Hr) as (P3 & R3 & S3). split.
  - apply (covered_pipe _ c2); [|apply G3 | rewrite P3; by apply prefix_app_r].
    apply (covered_pipe _ c1); [done | by apply quietly_goes | by rewrite (qu_pipe _ _ Q2)].
  - split_and!; [by rewrite R3, P3 | done|]. eexists. split; [rewrite P3; apply elem_of_app; right; by apply list_elem_of_singleton|].
    cbn. by rewrite Cs2, Cs.
Qed.

(** *** Success *)

(** Everyone who still has a lock may be reported. *)
Definition ready (ids : list nat) (c : client) : Prop :=
  INV full c /\ message_accepted (c_trace c) /\ forall id, id ∈ ids -> locked c id -> rcpt_accepted id (c_trace c).

Lemma ready_step ids c c' es : ready ids c -> INV full c' -> lk c c' -> c_trace c' = es ++ c_trace c ->
  (forall pc code, EvReply pc code ∈ since (c_trace c) -> EvReply pc code ∈ since (es ++ c_trace c)) -> ready ids c'.
Proof.
  intros (_ & (pc & code & Hev & Hm) & Hr) I' [_ L] Ht Hs. split; [done|]. rewrite Ht. split.
  - exists pc, code. auto.
  - intros id Hin Hl. destruct (Hr id Hin (L _ Hl)) as (pc' & code' & Hev' & Hm'). exists pc', code'. auto.
Qed.

Lemma ready_quietly ids c c' : ready ids c -> quietly c c' -> ready ids c'.
Proof.
  intros Hr Q. destruct (qu_trace _ _ Q) as (es & Ht & Hq). eapply ready_step; [exact Hr | eapply quietly_INV; [exact Q | apply Hr] | by apply quietly_goes | exact Ht|].
  intros pc code. by apply quiet_reply.
Qed.

Lemma flag_clear flgs m bit : flag_set flgs bit = false -> flag_set (Z.land flgs m) bit = false.
Proof.
  unfold flag_set. rewrite !negb_false_iff, !Z.eqb_eq. intros E. by rewrite <- Z.land_assoc, (Z.land_comm m bit), Z.land_assoc, E.
Qed.

Lemma ready_bind {A B} ids (m : SC A) (k : A -> SC B) (Q : B -> client -> Prop) c : quiet m -> ready ids c ->
  (forall a c', ready ids c' -> lk c c' -> wpx (k a) (fun _ c' => outer c') Q c') -> wpx (m ≫= k) (fun _ c' => outer c') Q c.
Proof.
  intros Hm Hr Hk. apply wpx_bind. eapply wpx_mono; [apply Hm | |]; cbv beta.
  - intros _ c' Q'. apply (in_delivered full). by apply (ready_quietly ids c).
  - intros a c' Q'. apply Hk; [by eapply ready_quietly | by apply quietly_goes].
Qed.

Lemma report_success_spec ids id c : ready ids c -> id ∈ ids ->
  wpx (report_success id) (fun _ c' => outer c') (fun _ c' => ready ids c' /\ lk c c') c.
Proof.
  intros Hr Hin. pose proof Hr as (I & _). unfold report_success. apply wpx_bind, wpx_read, wpx_bind, get_rcpt_spec; [apply I|]. intros rp Hf. cbv zeta.
  set (flgs := if flag_set _ _ then _ else _). apply wpx_bind.
  eapply wpx_mono; [eapply (set_rcpt_spec full id rp _ (fun _ _ => False)); [done | done | | done] | done|].
  { destruct (find_rcpt_id _ _ _ Hf) as [_ Hin']. pose proof (in_fine _ _ I) as Hfine. rewrite Forall_forall in Hfine.
    destruct (Hfine rp Hin') as [[Hg1 Hg2] _]. split_and!; [done | | done]. subst flgs. cbn.
    destruct (flag_set (c_ehlo_capabilities c) ESMTP_DSN); [|done]. split; by apply flag_clear. }
  cbv beta. intros _ c1 (I1 & G1 & T1 & _). assert (ready ids c1) as R1.
  { eapply (ready_step ids c c1 []); [exact Hr | done | apply G1 | done | done]. }
  eapply ready_bind; [apply quiet_notary_user | exact R1|]. intros _ c2 R2 L2.
  eapply ready_bind; [apply quiet_remotemsg | exact R2|]. intros msg c3 R3 L3.
  eapply wpx_mono; [apply (sc_diagnostic_spec full); [apply R3|] | done|].
  { intros _ _ Hl. destruct R3 as (_ & Hm & Ha). split; [done | by apply Ha]. }
  cbv beta. intros _ c4 (I4 & G4 & _ & _ & _ & _ & _ & es & T4 & Hes). split.
  - eapply (ready_step ids c3 c4 es); [exact R3 | done | apply G4 | done|]. intros pc code Hev.
    destruct Hes as [-> | ->]; [done|]. cbn. by apply elem_of_cons; right.
  - eapply lk_trans; [apply G1 | eapply lk_trans; [exact L2 | eapply lk_trans; [exact L3 | apply G4]]].
Qed.

Lemma success_spec ids : forall ids' c, ready ids c -> (forall id, id ∈ ids' -> id ∈ ids) ->
  wpx (for_locked ids' report_success) (fun _ c' => outer c') (fun _ c' => ready ids c' /\ lk c c') c.
Proof.
  induction ids' as [|id ids' IH]; intros c Hr Hsub; cbn [for_locked]; [by apply wpx_ret; split|].
  apply wpx_bind, get_rcpt_spec; [apply Hr|]. intros rp Hf. apply wpx_bind.
  assert (wpx (when_ (negb (r_lockoffset rp =? 0)%nat) (report_success id)) (fun _ c' => outer c') (fun _ c' => ready ids c' /\ lk c c') c) as Hw.
  { destruct (negb _); [|by apply wpx_ret; split]. apply report_success_spec; [done|]. apply Hsub. by apply elem_of_cons; left. }
  eapply wpx_mono; [exact Hw | done|]. cbv beta. intros _ c1 [R1 L1].
  eapply wpx_mono; [apply IH; [done|] | done|]; [intros id' ?; apply Hsub; by apply elem_of_cons; right|].
  cbv beta. intros _ c2 [R2 L2]. split; [done | by eapply lk_trans].
Qed.

Lemma message_done_spec ids c : ready ids c ->
  wpx (message_done fuel ids) (fun _ c' => outer c') (fun _ c' => INV weak c' /\ lk c c') c.
Proof.
  intros Hr. unfold message_done. apply wpx_bind. eapply wpx_mono; [by apply (success_spec ids) | done|]. cbv beta. intros _ c1 [R1 L1].
  assert (safe weak weak (fp ← read c_smtpfp; rcpt_400 ← has_states RCPTSTATE_400; from_ok ← has_states FROMSTATE_OK;
    when_ (fp && rcpt_400 && from_ok) (quit_close fuel;; update (set_c_close_after_data true));;
    fp ← read c_smtpfp; close ← read c_close_after_data; when_ (fp && close) (quit_close fuel);; update (set_c_do_rset false))) as Hs.
  { apply good_safe. assert (good weak (quit_close fuel)) as Hq by (unfold quit_close; good_steps; [apply good_weak_states | by apply good_smtpwrite]).
    good_steps. }
  eapply wpx_mono; [apply Hs; apply INV_full, R1 | done|]. cbv beta. intros _ c2 [I2 L2]. split; [done | by eapply lk_trans].
Qed.

(** *** From DATA on *)

Lemma good_header_failed w l endrp : good w (header_failed l endrp).
Proof.
  unfold header_failed. good_step; [by apply good_report_group|]. assert (good w close_if_open) by apply good_close_if_open. good_steps.
Qed.
Lemma good_body_failed w l r : r <> EX_OK -> good w (body_failed l r).
Proof.
  intros Hr. unfold body_failed. good_step; [by apply good_report_group|]. assert (good w close_if_open) by apply good_close_if_open. good_steps.
Qed.
Lemma good_dot_failed w l r : r <> EX_OK -> good w (dot_failed l r).
Proof.
  intros Hr. unfold dot_failed. assert (good w close_if_open) by apply good_close_if_open. good_step.
  - apply good_for_locked. intros id. good_step; [good_steps|]. apply good_status_report; [done|]. intros st Hst. good_steps.
  - good_steps.
Qed.

(** The body leaves what the end needs. *)
Lemma body_still ids mode c : data_ready ids c ->
  wpx (appendlet fuel mode) (fun _ c' => outer c') (fun _ c' => INV full c' /\ lk c c' /\ still ids c') c.
Proof.
  intros (I & Cov & Cb). destruct (c_doing_chunking c) eqn:Edc.
  - eapply wpx_mono; [by apply (good_appendlet Hlmtp fuel true) | done|]. cbv beta. intros _ c' [I' G]. split_and!; [done | apply G|].
    destruct G as (L & (_ & D & _) & [P|F]); [left; by apply (covered_pipe _ c) | right; by rewrite D].
  - eapply wpx_mono; [apply (streams_appendlet fuel mode); auto | |]; cbv beta.
    + intros _ c' Q. apply (in_delivered _ _ (quietly_INV _ _ _ Q I)).
    + intros _ c' [Q _]. split_and!; [by eapply quietly_INV | by apply quietly_goes|]. left.
      apply (covered_pipe _ c); [done | by apply quietly_goes | by rewrite (qu_pipe _ _ Q)].
Qed.

Lemma data_ready_quietly ids c c' : data_ready ids c -> quietly c c' -> data_ready ids c'.
Proof.
  intros (I & Cov & Cb) Q. split_and!; [by eapply quietly_INV | apply (covered_pipe _ c); [done | by apply quietly_goes | by rewrite (qu_pipe _ _ Q)]|].
  destruct (qu_stays _ _ Q) as (_ & D & C). rewrite D. auto.
Qed.

Lemma send_message_spec pipelining endrp l r c : INV full c -> covered (l_ids l) c ->
  wpx (send_message fuel pipelining endrp l r) (fun _ c' => outer c') (fun _ c' => INV weak c' /\ lk c c') c.
Proof.
  intros I Hcov. unfold send_message, goto. apply wpx_bind. eapply wpx_mono; [by apply data_phase_spec | done|]. cbv beta.
  intros [l1 [rf|]] c1 (L1 & El & D1); cbn [fst snd] in *; [by apply wpx_ret; split; [apply INV_full|]|].
  destruct (l_ids l1) as [|id rest] eqn:El1; [apply wpx_exit, (in_delivered full), D1|].
  apply wpx_bind. eapply wpx_mono; [apply quiet_header_phase | |]; cbv beta.
  { intros _ c2 Q. apply (in_delivered _ _ (quietly_INV _ _ _ Q (proj1 D1))). }
  intros h c2 Q2. pose proof (data_ready_quietly _ _ _ D1 Q2) as D2. pose proof (lk_trans _ _ _ L1 (proj1 (quietly_goes _ _ Q2))) as L2.
  destruct h as [hsize|].
  2: { apply wpx_bind. eapply wpx_mono; [apply (good_header_failed full), D2 | done|]. cbv beta. intros _ c3 [I3 [L3 _]].
    apply wpx_ret. split; [by apply INV_full | by eapply lk_trans]. }
  apply wpx_bind, wpx_update, wpx_bind, wpx_update. set (c3 := set_c_msize _ _).
  assert (data_ready (l_ids l) c3) as D3 by (apply (data_ready_quietly _ c2); [done | split; [done..|by exists []]]).
  assert (lk c c3) as L3 by exact L2. clearbody c3. apply wpx_bind.
  eapply wpx_mono; [by apply (body_still (l_ids l)) | done|]. cbv beta. intros r4 c4 (I4 & L4 & S4). pose proof (lk_trans _ _ _ L3 L4) as LL4.
  apply wpx_if; intros Er4.
  { apply wpx_bind. eapply wpx_mono; [apply (good_body_failed full); [by apply negb_true_iff, Z.eqb_neq in Er4 | exact I4] | done|].
    cbv beta. intros r5 c5 [I5 [L5 _]]. apply wpx_ret. split; [by apply INV_full | by eapply lk_trans]. }
  apply wpx_bind. eapply wpx_mono; [by apply (dot_phase_spec (l_ids l)) | done|]. cbv beta. intros r5 c5 (I5 & L5 & A5). pose proof (lk_trans _ _ _ LL4 L5) as LL5.
  apply wpx_if; intros Er5.
  { apply wpx_bind. eapply wpx_mono; [apply (good_dot_failed full); [by apply negb_true_iff, Z.eqb_neq in Er5 | exact I5] | done|].
    cbv beta. intros r6 c6 [I6 [L6 _]]. apply wpx_ret. split; [by apply INV_full | by eapply lk_trans]. }
  apply negb_false_iff, Z.eqb_eq in Er5. destruct (A5 Er5) as [C5 Acc]. destruct (accepted_replies _ _ I5 C5 Acc) as [Hm Hr].
  apply wpx_bind. rewrite El. eapply wpx_mono; [apply (message_done_spec (l_ids l)); by split_and! | done|]. cbv beta.
  intros _ c6 [I6 L6]. apply wpx_ret. split; [done | by eapply lk_trans].
Qed.
End message.
