(* ===== verification/ScInvTrans.v ===== *)
(** * The SMTP client: transactions, one after the other

    How a transaction changes the list of recipients and the tries that are
    left, why the loop of deliver() ends, and that it keeps the invariant. *)

From Stdlib Require Import ZArith Lia.
From stdpp Require Import base tactics numbers list option sets.
From S2P Require Import Prelude TaFile TaDiag TaCtl ScState ScMx ScCname ScReply ScConnect ScBody ScCommand ScDeliver ScInv ScInvReply ScInvBody ScInvConn ScInvDeliver.

#[local] Open Scope Z_scope.

(** ** What becomes of the place *)

Section shape.
Context `{TaEnv, ScEnv, DeliverEnv}.
Variable fuel : nat.

Definition same_place (l l' : place) : Prop :=
  l_ids l' = l_ids l /\ l_more l' = l_more l /\ l_lost l' = l_lost l /\ l_broken l' = l_broken l /\ l_once l' = l_once l.

Ltac shape_step :=
  match goal with
  | |- wpx (mret _) _ _ _ => apply wpx_ret; done
  | |- wpx (exit _) _ _ _ => apply wpx_exit; done
  | |- wpx (mbind _ _) _ _ _ => apply any_bind; intros ? ?
  | |- wpx (if ?b then _ else _) _ _ _ => destruct b
  | |- wpx (match ?x with _ => _ end) _ _ _ => destruct x
  end.

Lemma data_phase_shape pipelining l r c :
  wpx (data_phase fuel pipelining l r) (fun _ _ => True) (fun x _ => same_place l x.1) c.
Proof. unfold data_phase. destruct pipelining; repeat shape_step. Qed.

Lemma send_message_shape pipelining endrp l r c :
  wpx (send_message fuel pipelining endrp l r) (fun _ _ => True) (fun x _ => x.1.1 = MoreRecipients /\ same_place l x.1.2) c.
Proof.
  unfold send_message, goto. apply wpx_bind. eapply wpx_mono; [apply data_phase_shape | done|]. cbv beta. intros [l1 failed] c1 Hl.
  cbn [fst] in Hl. repeat shape_step.
Qed.

Lemma mail_failed_shape pipelining l r c :
  wpx (mail_failed fuel pipelining l r) (fun _ _ => True) (fun x _ => x.1.1 <> PostCleanup /\ same_place l x.1.2) c.
Proof. unfold mail_failed, goto. repeat shape_step. Qed.

Lemma cut_list_shape endrp rp full rest c :
  wpx (cut_list endrp rp full rest) (fun _ _ => True) (fun x _ => forall m, x.2 = Some m -> m = rest) c.
Proof.
  assert (forall m, rest_of endrp rest = Some m -> m = rest) as Hr.
  { unfold rest_of. destruct rest, endrp; intros m [= <-]; done. }
  unfold cut_list. destruct full; cbn [fst snd]; destruct (_ && bool_decide _); apply any_bind; intros nez c';
    (destruct (_ && _ && _); apply wpx_ret; cbn; [try done; try exact Hr | try done; try exact Hr]).
Qed.

Lemma rcpt_loop_shape pipelining endrp ids : forall cnt nrcpt r c,
  wpx (rcpt_loop fuel pipelining endrp ids cnt nrcpt r) (fun _ _ => True) (fun s _ =>
    (length (rs_group s) <= length ids)%nat /\ forall m, rs_more s = Some m -> (length m < length ids)%nat) c.
Proof.
  induction ids as [|id rest IH]; intros cnt nrcpt r c; cbn [rcpt_loop]; [by apply wpx_ret; split|].
  assert (forall cnt nrcpt r c, wpx (s ← rcpt_loop fuel pipelining endrp rest cnt nrcpt r; mret (cons_group id s)) (fun _ _ => True)
    (fun s _ => (length (rs_group s) <= length (id :: rest))%nat /\ forall m, rs_more s = Some m -> (length m < length (id :: rest))%nat) c) as Hrec.
  { intros. apply wpx_bind. eapply wpx_mono; [apply IH | done|]. cbv beta. intros s c1 [Hg Hm]. apply wpx_ret. cbn. split; [lia|].
    intros m Em. specialize (Hm m Em). lia. }
  apply any_bind. intros rp c1. apply wpx_if; intros _; [apply Hrec|]. apply any_bind. intros _ c2. apply wpx_bind, wpx_read, wpx_bind.
  eapply wpx_mono; [apply cut_list_shape | done|]. cbv beta. intros [next more] c3 Hmore. cbn [snd] in Hmore.
  do 4 (apply any_bind; intros ? ?). destruct a2 as [[r' go_on] n']. apply wpx_if; intros _.
  { apply wpx_ret. cbn. split; [lia|]. intros m Em. rewrite (Hmore m Em). lia. }
  apply wpx_if; intros _; [by apply wpx_ret; cbn; split|]. apply Hrec.
Qed.

(** A transaction leaves fewer recipients, or as many. *)
Definition shrinks (l : place) (x : next_step) : Prop :=
  x.1.1 <> PostCleanup /\ l_once x.1.2 = l_once l /\ (length (l_ids x.1.2) <= length (l_ids l))%nat /\
  forall m, l_more x.1.2 = Some m -> (length m < length (l_ids l))%nat.

Lemma transaction_shape endrp l c : l_more l = None ->
  wpx (transaction fuel endrp l) (fun _ _ => True) (fun x _ => shrinks l x) c.
Proof.
  intros Hm. unfold transaction. destruct (l_ids l) as [|id ids] eqn:El; [by apply wpx_exit|].
  assert (forall x, x.1.1 <> PostCleanup -> same_place l x.1.2 -> shrinks l x) as Hsame.
  { intros x Hx (E1 & E2 & _ & _ & E3). unfold shrinks. rewrite E1, E2, E3, Hm. done. }
  do 10 (apply any_bind; intros ? ?). apply wpx_if; intros _.
  { eapply wpx_mono; [apply mail_failed_shape | done|]. cbv beta. intros x c' [? ?]. by apply Hsame. }
  apply wpx_bind. eapply wpx_mono; [apply rcpt_loop_shape | done|]. cbv beta. intros s c1 [Hg Hmore]. rewrite <- El in *. clear El.
  assert (forall x, x.1.1 <> PostCleanup -> same_place (place_sent s l) x.1.2 -> shrinks l x) as Hsent.
  { intros x Hx (E1 & E2 & _ & _ & E3). unfold shrinks. rewrite E1, E2, E3. cbn. done. }
  unfold goto. apply wpx_if; intros _; [do 2 (apply any_bind; intros ? ?); by apply wpx_ret, Hsent|].
  apply any_bind. intros fp c2. apply wpx_if; intros _; [by apply wpx_ret, Hsent|].
  eapply wpx_mono; [apply send_message_shape | done|]. cbv beta. intros x c3 [Ex Hp]. apply Hsent; [by rewrite Ex | done].
Qed.

(** What is left to do: a try, and more of them for the recipients behind a
    cut. *)
Definition left_over (l : place) : nat :=
  match l_more l with Some m => 1 + length m | None => Z.to_nat (l_once l) + length (l_ids l) end.

Lemma re_open_shape prohibit l c :
  wpx (re_open fuel prohibit l) (fun _ _ => True) (fun x _ => x.1.1 <> ReOpen /\ left_over x.1.2 = left_over l) c.
Proof. unfold re_open, goto. destruct (l_ids l) as [|id ids]; [by apply wpx_exit|]. repeat shape_step. Qed.

Lemma skip_reported_shape ids : forall c, wpx (skip_reported ids) (fun _ _ => True) (fun ids' _ => (length ids' <= length ids)%nat) c.
Proof.
  induction ids as [|id ids IH]; intros c; cbn [skip_reported]; [by apply wpx_ret|]. apply any_bind. intros rp c1.
  apply wpx_if; intros _; [|by apply wpx_ret]. eapply wpx_mono; [apply IH | done|]. cbv beta. cbn. lia.
Qed.

Lemma more_recipients_shape endrp l r c :
  wpx (more_recipients fuel endrp l r) (fun _ _ => True)
    (fun x _ => x.1.1 = PostCleanup \/ (left_over x.1.2 < left_over l)%nat) c.
Proof.
  unfold more_recipients, goto.
  set (l1 := match l_more l with Some ids => _ | None => l end).
  assert (left_over l = Z.to_nat (l_once l1) + length (l_ids l1) /\ l_more l1 = None)%nat as [Hl Hm].
  { subst l1. unfold left_over. destruct (l_more l) eqn:E; [done|]. done. }
  rewrite Hl. clearbody l1. clear l Hl. apply wpx_bind. eapply wpx_mono; [apply skip_reported_shape | done|]. cbv beta. intros ids c1 Hids.
  apply any_bind. intros getout c2. destruct (l_once (set_l_ids ids l1) <? 1) eqn:Eo; cbn [orb].
  { apply any_bind. intros ? ?. apply wpx_ret. by left. }
  destruct (_ || _); [apply any_bind; intros ? ?; apply wpx_ret; by left|].
  set (l2 := set_l_once _ _). cbn in Eo. apply Z.ltb_ge in Eo.
  assert (forall x, shrinks l2 x -> x.1.1 = PostCleanup \/ (left_over x.1.2 < Z.to_nat (l_once l1) + length (l_ids l1))%nat) as Hs.
  { intros x (_ & Ho & Hl & Hmo). right. cbn in Ho, Hl, Hmo. unfold left_over. destruct (l_more x.1.2) as [m|] eqn:Em; [specialize (Hmo m eq_refl); lia|].
    rewrite Ho. lia. }
  assert (shrinks l2 (ReOpen, set_l_reopen l2, EX_TEMPFAIL)) as Hre.
  { split_and!; cbn; [done | done | done|]. by rewrite Hm. }
  assert (forall c, wpx (transaction fuel endrp l2) (fun _ _ => True) (fun x _ => x.1.1 = PostCleanup \/ (left_over x.1.2 < Z.to_nat (l_once l1) + length (l_ids l1))%nat) c) as Ht.
  { intros c3. eapply wpx_mono; [by apply transaction_shape | done|]. cbv beta. intros x c4. apply Hs. }
  apply any_bind. intros fp c3. destruct (negb fp); [by apply wpx_ret, Hs|]. do 3 (apply any_bind; intros ? ?).
  destruct a1; [|apply Ht]. do 3 (apply any_bind; intros ? ?). destruct (negb _); [|apply Ht].
  apply any_bind. intros ? ?. by apply wpx_ret, Hs.
Qed.

(** With enough rounds, more make no difference. *)
Definition rounds_left (lb : label) (l : place) : nat :=
  match lb with PostCleanup => 1 | MoreRecipients => 2 + 2 * left_over l | ReOpen => 3 + 2 * left_over l end.

Lemma wpx_eq {S R A B} (m : EX S R A) (k k' : A -> EX S R B) (P : A -> Prop) s :
  wpx m (fun _ _ => True) (fun a _ => P a) s -> (forall a s', P a -> k a s' = k' a s') -> (m ≫= k) s = (m ≫= k') s.
Proof. unfold wpx, mbind, ex_bind. destruct (m s) as [[|a] s']; [done|]. intros Hp Hk. by apply Hk. Qed.

Lemma deliver_loop_rounds prohibit endrp extra n : forall lb l r c, (rounds_left lb l <= n)%nat ->
  deliver_loop fuel (n + extra) prohibit endrp lb l r c = deliver_loop fuel n prohibit endrp lb l r c.
Proof.
  induction n as [|n IH]; intros lb l r c Hn; [destruct lb; cbn in Hn; lia|]. cbn [deliver_loop Nat.add]. destruct lb; [| |done].
  - apply (wpx_eq _ _ _ (fun x => x.1.1 <> ReOpen /\ left_over x.1.2 = left_over l)); [apply re_open_shape|].
    intros [[lb' l'] r'] c' [Hlb Hl]. cbn [fst snd] in *. apply IH. unfold rounds_left in *. rewrite Hl. destruct lb'; [done | lia | lia].
  - apply (wpx_eq _ _ _ (fun x => x.1.1 = PostCleanup \/ (left_over x.1.2 < left_over l)%nat)); [apply more_recipients_shape|].
    intros [[lb' l'] r'] c' Hl. cbn [fst snd] in *. apply IH. unfold rounds_left in *. destruct Hl as [->|Hl]; [lia|]. destruct lb'; lia.
Qed.
End shape.

(** ** Transactions *)

Section transactions.
Context `{TaEnv, ScEnv, DeliverEnv}.
Hypothesis Hlmtp : lmtp_mode = false.
Variable fuel : nat.

Lemma quiet_choose_mode_states id prohibit clean : quiet (choose_mode id prohibit clean).
Proof. unfold choose_mode, drop_8bitmime. quiet_steps. Qed.

(** Nobody is lost from the list when there are no EZMLM recipients. *)
Definition none_lost (c : client) (l : place) (x : next_step) : Prop :=
  no_ezmlm c -> l_lost x.1.2 = l_lost l /\ l_broken x.1.2 = l_broken l.

Lemma same_place_lost c l l' x : same_place l' x.1.2 -> (no_ezmlm c -> l_lost l' = l_lost l /\ l_broken l' = l_broken l) -> none_lost c l x.
Proof. intros (_ & _ & E1 & E2 & _) Hl Hn. rewrite E1, E2. auto. Qed.

Lemma transaction_spec endrp l c : INV weak c ->
  wpx (transaction fuel endrp l) (fun _ c' => outer c') (fun x c' => (INV weak c' /\ lk c c') /\ none_lost c l x) c.
Proof.
  intros I. unfold transaction. destruct (l_ids l) as [|id ids] eqn:El; [apply wpx_exit; apply I|].
  apply wpx_bind, wpx_update. set (c0 := set_c_rcptstates 0 c). assert (INV weak c0) as I0 by (by destruct I; split).
  apply wpx_bind. eapply wpx_mono; [by apply (flush_spec weak c0 (fun _ _ => False)) | done|]. cbv beta. intros _ c1 (I1 & L1 & _).
  change (lk c0 c1) with (lk c c1) in L1. clear I0 c0. apply wpx_bind, wpx_read, wpx_bind, wpx_read.
  eapply INV_bind; [quiet_steps | exact I1|]. intros _ c2 I2 Q2. eapply INV_bind; [quiet_steps | exact I2|]. intros _ c3 I3 Q3.
  eapply INV_bind; [apply quiet_mail_command | exact I3|]. intros text c4 I4 Q4.
  eapply INV_bind; [apply quiet_in_buffer | exact I4|]. intros text' c5 I5 Q5. apply wpx_bind, wpx_read.
  assert (lk c c5) as L5.
  { eapply lk_trans; [exact L1|]. apply quietly_goes. eapply quietly_trans; [exact Q2 | eapply quietly_trans; [exact Q3 | by eapply quietly_trans]]. }
  pose proof (in_pl _ _ I5) as Hp. set (pl := c_pipelining c5) in *. clearbody pl. clear Q2 Q3 Q4 Q5 I1 I2 I3 I4 L1.
  apply wpx_bind. eapply wpx_mono; [by apply (good_smtpwrite Hlmtp fuel true) | done|]. cbv beta. intros r c6 [I6 G6].
  eapply INV_bind; [apply quiet_is_open | exact I6|]. intros up c7 I7 Q7. pose proof (lk_trans _ _ _ L5 (lk_trans _ _ _ (proj1 G6) (proj1 (quietly_goes _ _ Q7)))) as L7.
  set (r1 := if negb up then EX_TEMPFAIL else r). clearbody r1. apply wpx_if; intros Er.
  { eapply wpx_mono; [eapply wpx_and; [apply (good_mail_failed Hlmtp fuel true); [done | by apply negb_true_iff, Z.eqb_neq in Er | exact I7] | apply mail_failed_shape] | by intros ? ? []|].
    cbv beta. intros x c8 [[I8 [L8 _]] [_ Hs]]. split; [split; [by apply INV_full | by eapply lk_trans] | by eapply same_place_lost]. }
  apply wpx_bind. eapply wpx_mono; [by apply (rcpt_loop_spec Hlmtp fuel true) | done|]. cbv beta. intros s c8 (I8 & G8 & C8 & N8).
  pose proof (lk_trans _ _ _ L7 (proj1 G8)) as L8. unfold goto.
  assert (no_ezmlm c -> l_lost (place_sent s l) = l_lost l /\ l_broken (place_sent s l) = l_broken l) as Hl.
  { intros Hn. cbn. rewrite N8 by (by apply (lk_no_ezmlm c c7)). cbn. split; [done|]. by rewrite bool_decide_false, orb_false_r by (by intros []). } apply wpx_if; intros _.
  { apply wpx_bind, wpx_update, wpx_bind, wpx_bind, wpx_read, wpx_ret, wpx_ret. split; [split; [apply INV_full; by destruct I8; split | exact L8] | done]. }
  apply wpx_bind, wpx_read. destruct (c_smtpfp c8) eqn:Efp; cbn [negb]; [|apply wpx_ret; split; [split; [by apply INV_full | done] | done]].
  eapply wpx_mono; [eapply wpx_and; [apply (send_message_spec Hlmtp fuel); [exact I8 | by apply C8] | apply send_message_shape] | by intros ? ? []|].
  cbv beta. intros x c9 [[I9 L9] [_ Hs]]. split; [split; [done | by eapply lk_trans] | by eapply same_place_lost].
Qed.

Lemma safe_re_open prohibit l : safe weak weak (re_open fuel prohibit l).
Proof.
  unfold re_open, goto. destruct (l_ids l) as [|id ids]; [apply safe_exit|].
  apply (safe_bind weak weak weak); [repeat safe_step|]. intros fp. apply (safe_bind weak weak weak).
  { destruct (negb fp); [|repeat safe_step]. apply (safe_bind weak weak weak); [repeat safe_step|]. intros ?.
    apply (safe_bind weak weak weak); [apply safe_weaken, safe_flush|]. intros ?.
    apply (safe_bind weak weak weak); [repeat safe_step|]. intros ?. by apply safe_smtpopen. }
  intros status. destruct (status =? EX_OK) eqn:Est; cbn [negb].
  - apply (safe_bind weak weak weak); [repeat safe_step|]. intros caps. apply (safe_bind weak weak weak).
    { intros c [I1 I2 I3 I4 I5 I6 I7 I8]. apply wpx_update. split; [|done]. split; try done. cbn. intros [_ ?%negb_true_iff]%andb_prop. done. }
    intros ?. apply good_safe.
    good_step; [good_steps|]. good_step; [good_steps|]. good_step; [apply quiet_good, quiet_choose_mode_states|].
    good_steps. apply good_for_locked. intros ?. good_steps. by apply good_diagnostic.
  - assert ((if l_reopen l then EX_TEMPFAIL else status) <> EX_OK) as Hst by (destruct (l_reopen l); [done | by apply Z.eqb_neq in Est]).
    set (st := if l_reopen l then _ else _) in *. clearbody st. apply good_safe. good_steps. apply good_for_locked. intros ?. good_steps.
Qed.

Lemma re_open_lost prohibit l c : wpx (re_open fuel prohibit l) (fun _ _ => True) (fun x _ => l_lost x.1.2 = l_lost l /\ l_broken x.1.2 = l_broken l) c.
Proof.
  unfold re_open, goto. destruct (l_ids l) as [|id ids]; [by apply wpx_exit|]. do 2 (apply any_bind; intros ? ?).
  destruct (negb _); repeat (apply any_bind; intros ? ?); [by apply wpx_ret|].
  destruct (_ && _); repeat (apply any_bind; intros ? ?); by apply wpx_ret.
Qed.

Lemma quiet_skip_reported ids : quiet (skip_reported ids).
Proof. induction ids as [|id ids IH]; cbn [skip_reported]; quiet_steps. Qed.

Lemma more_recipients_spec endrp l r c : INV weak c ->
  wpx (more_recipients fuel endrp l r) (fun _ c' => outer c') (fun x c' => (INV weak c' /\ lk c c') /\ none_lost c l x) c.
Proof.
  intros I. unfold more_recipients, goto. set (l1 := match l_more l with Some _ => _ | None => _ end).
  assert (l_lost l1 = l_lost l /\ l_broken l1 = l_broken l) as Hl1 by (subst l1; by destruct (l_more l)). clearbody l1.
  assert (forall c2 lb l2 r2, l_lost l2 = l_lost l1 -> l_broken l2 = l_broken l1 -> INV weak c2 -> lk c c2 ->
    wpx (mret (M := SC) (lb, l2, r2)) (fun _ c' => outer c') (fun x c' => (INV weak c' /\ lk c c') /\ none_lost c l x) c2) as Hret.
  { intros c2 lb l2 r2 E1 E2 I2 L2. apply wpx_ret. split; [done|]. intros _. cbn. destruct Hl1. split; congruence. }
  assert (forall c2 l2, l_lost l2 = l_lost l1 -> l_broken l2 = l_broken l1 -> INV weak c2 -> lk c c2 ->
    wpx (transaction fuel endrp l2) (fun _ c' => outer c') (fun x c' => (INV weak c' /\ lk c c') /\ none_lost c l x) c2) as Htr.
  { intros c2 l2 E1 E2 I2 L2. eapply wpx_mono; [by apply transaction_spec | done|]. cbv beta. intros x c3 [[I3 L3] Hn].
    split; [split; [done | by eapply lk_trans]|]. intros Hz. destruct (Hn (lk_no_ezmlm _ _ L2 Hz)). destruct Hl1. split; congruence. }
  assert (forall {A B} (m : SC A) (k : A -> SC B) (Q : B -> client -> Prop) c1, quiet m -> INV weak c1 -> lk c c1 ->
    (forall a c2, INV weak c2 -> lk c c2 -> wpx (k a) (fun _ c' => outer c') Q c2) -> wpx (m ≫= k) (fun _ c' => outer c') Q c1) as Hb.
  { intros A B m k Q c1 Hq I1 L1 Hk. eapply INV_bind; [exact Hq | exact I1|]. intros a c2 I2 Q2. apply Hk; [done|].
    eapply lk_trans; [exact L1 | by apply quietly_goes]. }
  apply Hb; [apply quiet_skip_reported | done | apply lk_refl|]. intros ids c1 I1 L1. apply Hb; [quiet_steps | done | done|]. intros getout c2 I2 L2.
  destruct (_ || _ || _); [apply Hb; [quiet_steps | done | done|]; intros ? c3 I3 L3; by apply Hret|].
  apply Hb; [quiet_steps | done | done|]. intros fp c3 I3 L3. destruct (negb fp); [by apply Hret|].
  apply Hb; [quiet_steps | done | done|]. intros tr c4 I4 L4. apply Hb; [quiet_steps | done | done|]. intros ? c5 I5 L5.
  apply Hb; [quiet_steps | done | done|]. intros rset c6 I6 L6. destruct rset; [|by apply Htr].
  apply wpx_bind. eapply wpx_mono; [by apply (good_weak_states 0) | done|]. cbv beta. intros _ c7 [I7 [L7 _]].
  apply wpx_bind. eapply wpx_mono; [by apply (safe_flush weak) | done|]. cbv beta. intros _ c8 [I8 L8].
  apply wpx_bind. eapply wpx_mono; [apply (good_smtpwrite Hlmtp fuel false); by apply INV_full | done|]. cbv beta. intros r' c9 [I9 [L9 _]].
  assert (lk c c9) as LL by (eapply lk_trans; [exact L6 | eapply lk_trans; [exact L7 | by eapply lk_trans]]).
  destruct (negb _); [|by apply Htr]. apply wpx_bind. eapply wpx_mono; [by apply (good_smtpclose weak) | done|]. cbv beta.
  intros _ c10 [I10 [L10 _]]. apply Hret; [done | done | done | by eapply lk_trans].
Qed.

Lemma deliver_loop_spec prohibit endrp n : forall lb l r c, INV weak c ->
  wpx (deliver_loop fuel n prohibit endrp lb l r) (fun _ c' => outer c') (fun x c' => (INV weak c' /\ lk c c') /\
    (no_ezmlm c -> l_lost x.2 = l_lost l /\ l_broken x.2 = l_broken l)) c.
Proof.
  induction n as [|n IH]; intros lb l r c I; cbn [deliver_loop]; [apply wpx_exit; apply I|].
  assert (forall (x : next_step) c1, INV weak c1 -> lk c c1 -> none_lost c l x ->
    wpx (let '(lb, l, r) := x in deliver_loop fuel n prohibit endrp lb l r) (fun _ c' => outer c') (fun x c' => (INV weak c' /\ lk c c') /\
    (no_ezmlm c -> l_lost x.2 = l_lost l /\ l_broken x.2 = l_broken l)) c1) as Hnext.
  { intros [[lb' l'] r'] c1 I1 L1 Hl. eapply wpx_mono; [by apply IH | done|]. cbv beta. intros y c2 [[I2 L2] Hx2].
    split; [split; [done | by eapply lk_trans]|]. intros Hn. destruct (Hx2 (lk_no_ezmlm _ _ L1 Hn)). destruct (Hl Hn). cbn in *. split; congruence. }
  destruct lb.
  - apply wpx_bind. eapply wpx_mono; [eapply wpx_and; [by apply safe_re_open | apply re_open_lost] | by intros ? ? []|].
    cbv beta. intros x c1 [[I1 L1] Hl]. apply Hnext; [done | done | by intros _].
  - apply wpx_bind. eapply wpx_mono; [by apply more_recipients_spec | done|]. cbv beta. intros x c1 [[I1 L1] Hl]. by apply Hnext.
  - apply wpx_ret. split; [by split | done].
Qed.

Lemma deliver_spec ids endrp c : INV weak c ->
  wpx (deliver fuel ids endrp) (fun _ c' => outer c') (fun x c' => (INV weak c' /\ lk c c') /\
    (no_ezmlm c -> l_lost x.2 = [] /\ l_broken x.2 = false)) c.
Proof.
  intros I. unfold deliver. destruct ids as [|id ids]; [apply wpx_exit; apply I|]. apply wpx_bind, wpx_read.
  by apply deliver_loop_spec.
Qed.

(** ** All groups *)

(** A report unlocks. *)
Lemma for_locked_spec ids f c : INV weak c ->
  (forall id c, INV weak c -> wpx (f id) (fun _ c' => outer c') (fun _ c' => (INV weak c' /\ lk c c') /\ ~ locked c' id) c) ->
  wpx (for_locked ids f) (fun _ c' => outer c') (fun _ c' => (INV weak c' /\ lk c c') /\ forall id, id ∈ ids -> ~ locked c' id) c.
Proof.
  intros I Hf. revert c I. induction ids as [|id ids IH]; intros c I; cbn [for_locked].
  { apply wpx_ret. split; [by split|]. by intros id ?%elem_of_nil. }
  apply wpx_bind, get_rcpt_spec; [apply I|]. intros rp Hrp. apply wpx_bind.
  assert (wpx (when_ (negb (r_lockoffset rp =? 0)%nat) (f id)) (fun _ c' => outer c') (fun _ c' => (INV weak c' /\ lk c c') /\ ~ locked c' id) c) as Hw.
  { destruct (r_lockoffset rp =? 0)%nat eqn:E; cbn [negb when_]; [|by apply Hf]. apply wpx_ret. split; [by split|].
    intros (rp' & F' & L'). rewrite Hrp in F'. injection F' as <-. by apply Nat.eqb_eq in E. }
  eapply wpx_mono; [exact Hw | done|]. cbv beta. intros _ c1 [[I1 L1] U1].
  eapply wpx_mono; [by apply IH | done|]. cbv beta. intros _ c2 [[I2 L2] U2]. split; [split; [done | by eapply lk_trans]|].
  intros id2 [->|Hin]%elem_of_cons; [|by apply U2]. intros Hl. apply U1. by apply L2.
Qed.

Lemma temp_report_spec id id' a3 c : INV weak c ->
  wpx (notary_user id' FAILED a3 None;; msg ← remotemsg; sc_diagnostic id EX_TEMPFAIL 60 ($$"%s") msg) (fun _ c' => outer c')
    (fun _ c' => (INV weak c' /\ lk c c') /\ ~ locked c' id) c.
Proof.
  intros I. eapply INV_bind; [apply quiet_notary_user | exact I|]. intros _ c1 I1 Q1.
  eapply INV_bind; [apply quiet_remotemsg | exact I1|]. intros msg c2 I2 Q2.
  eapply wpx_mono; [by apply (sc_diagnostic_spec weak) | done|]. cbv beta. intros _ c3 (I3 & G3 & U3 & _).
  split; [split; [done|] | done]. eapply lk_trans; [|apply G3]. apply quietly_goes. by eapply quietly_trans.
Qed.

Lemma process_group_spec ids endrp c : INV weak c ->
  wpx (process_group fuel ids endrp) (fun _ c' => outer c') (fun l c' => (INV weak c' /\ lk c c') /\
    (no_ezmlm c -> l_broken l = false /\ forall id, id ∈ ids -> ~ locked c' id)) c.
Proof.
  intros I. unfold process_group. apply wpx_bind. eapply wpx_mono; [by apply deliver_spec | done|]. cbv beta. intros [r l] c1 [[I1 L1] Hl].
  apply wpx_bind. eapply wpx_mono; [apply for_locked_spec; [exact I1|] | done|]; [intros; by apply temp_report_spec|]. cbv beta.
  intros _ c2 [[I2 L2] U2]. apply wpx_ret. split; [split; [done | by eapply lk_trans]|]. intros Hn. destruct (Hl Hn) as [Hlost Hbr]. cbn [snd] in *.
  split; [done|]. intros id Hin. apply U2, list_elem_of_filter. split; [|done]. rewrite Hlost. apply not_elem_of_nil.
Qed.

Lemma defer_groups_spec gs : forall c, INV weak c ->
  wpx (defer_groups gs) (fun _ c' => outer c') (fun _ c' => (INV weak c' /\ lk c c') /\ forall id, id ∈ concat gs -> ~ locked c' id) c.
Proof.
  induction gs as [|g gs IH]; intros c I; cbn [defer_groups].
  { apply wpx_ret. split; [by split|]. by intros id ?%elem_of_nil. }
  apply wpx_bind. unfold defer_group. eapply wpx_mono; [apply for_locked_spec; [exact I|] | done|]; [intros; by apply temp_report_spec|].
  cbv beta. intros _ c1 [[I1 L1] U1]. eapply wpx_mono; [by apply IH | done|]. cbv beta. intros _ c2 [[I2 L2] U2].
  split; [split; [done | by eapply lk_trans]|]. cbn [concat]. intros id [Hin|Hin]%elem_of_app; [|by apply U2].
  intros Hl. by apply (U1 id Hin), L2.
Qed.

Lemma rcpt_groups_concat rps : concat (rcpt_groups rps) = r_id <$> rps.
Proof.
  induction rps as [|rp rps IH]; [done|]. cbn [rcpt_groups fmap list_fmap]. fold (fmap (M := list) r_id rps). rewrite <- IH.
  destruct (rcpt_groups rps) as [|g gs]; [done|]. by destruct (match list.head rps with Some _ => _ | None => _ end).
Qed.

Lemma process_spec c : INV weak c ->
  wpx (process fuel) (fun _ c' => outer c') (fun _ c' => (INV weak c' /\ lk c c') /\
    (no_ezmlm c -> forall rp, rp ∈ recipients c -> ~ locked c' (r_id rp))) c.
Proof.
  intros I. unfold process. eapply INV_bind; [quiet_steps | exact I|]. intros _ c0 I0 Q0.
  eapply INV_bind; [quiet_steps | exact I0|]. intros _ c1 I1 Q1. apply (quietly_trans _ _ _ Q0) in Q1. clear I0 Q0. apply wpx_bind, wpx_read.
  pose proof (proj1 (quietly_goes _ _ Q1)) as L1.
  assert (forall id, id ∈ concat (rcpt_groups (d_recipients (c_desc c1))) <-> id ∈ r_id <$> recipients c) as Hids.
  { intros id. rewrite rcpt_groups_concat. fold (recipients c1). by rewrite (qu_rcpts _ _ Q1). }
  destruct (rcpt_groups (d_recipients (c_desc c1))) as [|g gs].
  { apply wpx_ret. split; [by split|]. intros _ rp Hin. exfalso. apply (elem_of_nil (A := nat) (r_id rp)), Hids. by apply list_elem_of_fmap_2. }
  apply wpx_bind. eapply wpx_mono; [by apply process_group_spec | done|]. cbv beta. intros l c2 [[I2 L2] Hx2]. destruct (l_broken l) eqn:Eb.
  - apply wpx_ret. split; [split; [done | by eapply lk_trans]|]. intros Hn. destruct (Hx2 (lk_no_ezmlm _ _ L1 Hn)). congruence.
  - eapply wpx_mono; [by apply defer_groups_spec | done|]. cbv beta. intros _ c3 [[I3 L3] U3].
    split; [split; [done | eapply lk_trans; [exact L1 | by eapply lk_trans]]|]. intros Hn rp Hin Hl.
    destruct (Hx2 (lk_no_ezmlm _ _ L1 Hn)) as [_ U2].
    assert (r_id rp ∈ concat (g :: gs)) as [Hg|Hg]%elem_of_app by (apply Hids; by apply list_elem_of_fmap_2);
      [by apply (U2 _ Hg), L3 | by apply (U3 _ Hg)].
Qed.
End transactions.
