(* ===== verification/ScText.v ===== *)
(** * The SMTP client: the message on the wire

    What the client writes behind DATA, and what the SMTP server of this
    program makes of it. *)

From Stdlib Require Import ZArith Lia.
From stdpp Require Import base tactics numbers list option sets.
From S2P Require Import Prelude SpoolId TaFile TaDiag TaCtl TaProps SmtpData SmtpDot ScState ScMx ScCname ScReply ScConnect ScBody.
From S2P Require Import ScBodySpec ScMime ScQp ScCommand ScDeliver ScDemo ScInv ScInvBody.

#[local] Open Scope Z_scope.

(** ** Commands are read back, but nothing is sent *)

Notation sent_by := (fun c => sent (c_trace c)).

Section replies.
Context `{TaEnv, ScEnv}.

Lemma still_rmsgappend a t : keeps sent_by (rmsgappend a t).
Proof. unfold rmsgappend. keeps_steps. Qed.
Lemma still_smtpclose : keeps sent_by smtpclose.
Proof. unfold smtpclose, smtp_flush. keeps_steps. Qed.
Lemma still_next_line fuel nb idx : forall s, keeps sent_by (next_line fuel nb idx s).
Proof.
  induction fuel as [|fuel IH]; intros s; cbn [next_line]; unfold smtp_nbread, select_sleep; keeps_steps;
    first [apply still_rmsgappend | apply still_smtpclose | apply IH].
Qed.
Lemma still_sync_line idx s eol : keeps sent_by (sync_line idx s eol).
Proof. unfold sync_line, ehlo_check, esmtp_banner_check, add_capability. cbv zeta. keeps_steps; apply still_rmsgappend. Qed.
Lemma still_read_reply fuel n nb idx : forall eol, keeps sent_by (read_reply fuel n nb idx eol).
Proof. induction n as [|n IH]; intros eol; cbn [read_reply]; keeps_steps; first [apply still_next_line | apply still_sync_line | apply IH]. Qed.
Lemma still_diagnostic id rc timeout fmt text : keeps sent_by (sc_diagnostic id rc timeout fmt text).
Proof. unfold sc_diagnostic, get_rcpt, set_rcpt. keeps_steps. Qed.
Lemma still_notary_user id a2 a3 a4 : keeps sent_by (notary_user id a2 a3 a4).
Proof. unfold notary_user, get_rcpt, desc_str, sc_notaryreport. keeps_steps. Qed.
Lemma still_report_lmtp datarp outcome rc bits : keeps sent_by (report_lmtp datarp outcome rc bits).
Proof. unfold report_lmtp, remotemsg, add_states. keeps_steps; first [apply still_notary_user | apply still_diagnostic]. Qed.
Lemma still_sync_reply idx nextidx datarp code line : keeps sent_by (sync_reply idx nextidx datarp code line).
Proof.
  unfold sync_reply, reply_error, reply_ok, report_failure, remotemsg, has_states, add_states, sc_notaryreport, get_rcpt, set_rcpt. cbv zeta.
  keeps_steps; first [apply still_notary_user | apply still_diagnostic | apply still_report_lmtp].
Qed.
Lemma still_sync_loop fuel n nb : forall idx, keeps sent_by (sync_loop fuel n nb idx).
Proof.
  induction n as [|n IH]; intros idx; cbn [sync_loop]; unfold lmtp_pending; keeps_steps;
    first [apply still_read_reply | apply still_sync_reply | apply IH].
Qed.
Lemma still_smtp_sync fuel nb : keeps sent_by (smtp_sync fuel nb).
Proof. unfold smtp_sync, sfsync. keeps_steps. apply still_sync_loop. Qed.
End replies.

(** ** Lines *)

(** The lines of a text are its text, with the line end that it may lack. *)
Lemma header_lines_text s : forall cur,
  unlines (header_lines cur s) = cur ++ s ++ (if line_start (bool_decide (cur = [])) s then [] else [LF]).
Proof.
  unfold unlines. induction s as [|c s IH]; intros cur; cbn [header_lines].
  { destruct cur as [|x cur]; [done|]. rewrite bool_decide_false by done. cbn [fmap list_fmap concat]. by rewrite app_nil_r. }
  rewrite line_start_cons. destruct (Z.eqb_spec c 10) as [->|Hc].
  - cbn [fmap list_fmap concat]. rewrite IH, bool_decide_true by done. cbn. by rewrite <- app_assoc.
  - rewrite IH. rewrite (bool_decide_false (cur ++ [c] = [])) by (by destruct cur). by rewrite <- app_assoc.
Qed.

Lemma header_lines_completed s : unlines (header_lines [] s) = completed s.
Proof. rewrite header_lines_text. unfold completed. rewrite bool_decide_true by done. destruct (line_start true s); [by rewrite app_nil_r | done]. Qed.

Lemma header_lines_lf s : forall cur, LF ∉ cur -> Forall (fun l => LF ∉ l) (header_lines cur s).
Proof.
  induction s as [|c s IH]; intros cur Hc; cbn [header_lines]; [destruct cur; [by constructor | constructor; [done | by constructor]]|].
  destruct (Z.eqb_spec c 10) as [->|Hn]; [constructor; [done | apply IH, not_elem_of_nil]|]. apply IH.
  rewrite elem_of_app, list_elem_of_singleton. intros [?|E]; [done|]. by subst c.
Qed.

Lemma header_lines_bytes s : forall cur, Forall byte cur -> Forall byte s -> Forall (Forall byte) (header_lines cur s).
Proof.
  induction s as [|c s IH]; intros cur Hc Hs; cbn [header_lines]; [destruct cur; [by constructor | constructor; [done | by constructor]]|].
  apply Forall_cons in Hs as [Hx Hs]. destruct (c =? 10); [constructor; [done | by apply IH]|]. apply IH; [|done]. apply Forall_app. split; [done|]. by constructor.
Qed.

(** ** Headers *)

Notation lines_out_of := (fun ls : list (list Z) => concat ((fun l => stuff l ++ [CR; LF]) <$> ls)).

Section headers.
Context `{TaEnv, ScEnv, DeliverEnv}.
Hypothesis Hput : forall tr, sc_put tr = PutOk.

(** Only the trace changes. *)
Definition wrote (o : list Z) (c c' : client) : Prop := exists tr, c' = set_c_trace tr c /\ sent tr = sent (c_trace c) ++ o.

Lemma wrote_nil c : wrote [] c c.
Proof. exists (c_trace c). rewrite app_nil_r. split; [by destruct c | done]. Qed.
Lemma wrote_trans a b c1 c2 c3 : wrote a c1 c2 -> wrote b c2 c3 -> wrote (a ++ b) c1 c3.
Proof. intros (t1 & -> & E1) (t2 & -> & E2). exists t2. split; [done|]. rewrite E2. cbn. by rewrite E1, app_assoc. Qed.

Lemma sfwrite_wrote l c : wpx (sfwrite l) (fun _ _ => False) (fun ok c' => ok = true /\ wrote l c c') c.
Proof.
  unfold sfwrite. apply wpx_bind, wpx_read. rewrite Hput. unfold ev. apply wpx_bind, wpx_update, wpx_ret. split; [done|].
  exists (EvPut l :: c_trace c). done.
Qed.

Lemma put_header_lines_wrote ls : forall n c, c_sferror c = false ->
  wpx (put_header_lines true ls n) (fun _ _ => False) (fun r c' => is_Some r /\ wrote (lines_out_of ls) c c') c.
Proof.
  induction ls as [|l ls IH]; intros n c Hc; cbn [put_header_lines]; [apply wpx_ret; split; [done | apply wrote_nil]|].
  apply wpx_bind. eapply (wpx_mono _ (fun _ _ => False) _ (fun ok c' => ok = true /\ wrote (if hd 0 l =? $"." then [$"."] else []) c c')); [|done|].
  { destruct (hd 0 l =? $"."); [apply sfwrite_wrote | apply wpx_ret; split; [done | apply wrote_nil]]. }
  cbv beta. intros ok c1 [-> W1]. cbn [negb]. apply wpx_bind.
  eapply (wpx_mono _ (fun _ _ => False) _ (fun ok c' => ok = true /\ wrote l c1 c')); [|done|].
  { destruct l as [|x l]; [apply wpx_ret; split; [done | apply wrote_nil] | apply sfwrite_wrote]. }
  cbv beta. intros ok c2 [-> W2]. cbn [negb]. apply wpx_bind. eapply wpx_mono; [apply sfwrite_wrote | done|]. cbv beta. intros ok c3 [-> W3].
  pose proof (wrote_trans _ _ _ _ _ W1 (wrote_trans _ _ _ _ _ W2 W3)) as W. clear W1 W2 W3.
  assert (c_sferror c3 = false) as E3 by (destruct W as (tr & -> & _); exact Hc).
  apply wpx_bind, wpx_read. rewrite E3. cbn [negb orb]. eapply wpx_mono; [by apply IH | done|]. cbv beta. intros r c4 [Hr W4]. split; [done|].
  pose proof (wrote_trans _ _ _ _ _ W W4) as WW. cbn [fmap list_fmap concat].
  assert (stuff l = (if hd 0 l =? $"." then [$"."] else []) ++ l) as Es.
  { destruct l as [|x l]; [done|]. cbn [hd]. unfold stuff. by destruct (x =? DOT). }
  rewrite Es. replace (((_ ++ l) ++ [CR; LF]) ++ _) with (((if hd 0 l =? $"." then [$"."] else []) ++ l ++ newline) ++ lines_out_of ls) by (by rewrite <- !app_assoc).
  exact WW.
Qed.

Lemma put_headers_wrote hdrs : forall n c, c_sferror c = false ->
  wpx (put_headers true hdrs n) (fun _ _ => False) (fun r c' => is_Some r /\ wrote (lines_out_of (concat (header_lines [] <$> hdrs))) c c') c.
Proof.
  induction hdrs as [|h hdrs IH]; intros n c Hc; cbn [put_headers]; [apply wpx_ret; split; [done | apply wrote_nil]|].
  apply wpx_bind, wpx_read. rewrite Hc. apply wpx_bind. eapply wpx_mono; [by apply put_header_lines_wrote | done|]. cbv beta. intros r c1 [[k ->] W1].
  assert (c_sferror c1 = false) as E1 by (destruct W1 as (tr & -> & _); exact Hc).
  eapply wpx_mono; [by apply IH | done|]. cbv beta. intros r c2 [Hr W2]. split; [done|]. cbn [fmap list_fmap concat].
  rewrite fmap_app, concat_app. by eapply wrote_trans.
Qed.

Lemma header_phase_wrote id hdrs c : headers_of (c_trace c) id = Some hdrs -> write_tabs = true -> c_doing_chunking c = false ->
  c_smtpfp c = true -> c_sferror c = false ->
  wpx (header_phase id) (fun _ _ => False) (fun r c' => is_Some r /\ wrote (lines_out_of (concat (header_lines [] <$> hdrs) ++ [[]])) c c') c.
Proof.
  intros Hh Ht Hch Hfp He. unfold header_phase. apply wpx_bind, wpx_read, wpx_bind, wpx_read. rewrite Hh, Hch. apply wpx_bind, wpx_read. rewrite Hfp, Ht. cbn [negb].
  apply wpx_bind. eapply wpx_mono; [by apply put_headers_wrote | done|]. cbv beta. intros r c1 [[k ->] W1].
  assert (c_sferror c1 = false) as E1 by (destruct W1 as (tr & -> & _); exact He). apply wpx_bind, wpx_read. rewrite E1. cbn [negb when_].
  apply wpx_bind, wpx_bind. eapply wpx_mono; [apply sfwrite_wrote | done|]. cbv beta. intros ok c2 [_ W2]. apply wpx_ret.
  pose proof (wrote_trans _ _ _ _ _ W1 W2) as W. assert (c_sferror c2 = false) as E2 by (destruct W as (tr & -> & _); exact He).
  apply wpx_bind, wpx_read, wpx_ret. rewrite E2. split; [done|]. rewrite fmap_app, concat_app. exact W.
Qed.

(** ** The end of the message *)

Lemma dot_phase_sends fuel c : lmtp_mode = false -> c_doing_chunking c = false -> c_smtpfp c = true -> c_sferror c = false ->
  sent_by (dot_phase fuel c).2 = sent_by c ++ [DOT; CR; LF].
Proof.
  intros Hl Hch Hfp He.
  assert (wpx (dot_phase fuel) (fun _ c' => sent_by c' = sent_by c ++ [DOT; CR; LF]) (fun _ c' => sent_by c' = sent_by c ++ [DOT; CR; LF]) c) as Hw.
  { unfold dot_phase. rewrite Hl. cbn [when_]. do 2 (apply wpx_bind, wpx_update). apply wpx_bind, wpx_ret, wpx_bind, wpx_read.
    match goal with |- context[c_doing_chunking ?x] => change (c_doing_chunking x) with (c_doing_chunking c) end. rewrite Hch. apply wpx_bind, wpx_read.
    match goal with |- context[c_smtpfp ?x] => change (c_smtpfp x) with (c_smtpfp c) end. rewrite Hfp. cbn [when_].
    unfold sfsync at 1. apply wpx_bind, wpx_bind, wpx_bind, wpx_read. rewrite Hput. unfold ev. apply wpx_bind, wpx_update, wpx_ret, wpx_ret.
    apply wpx_bind. cbn [andb]. unfold smtpwrite. apply wpx_bind, wpx_update, wpx_bind. unfold smtppipestowage. apply wpx_bind, wpx_read, wpx_update.
    change (0 <? 0) with false. cbv iota. apply wpx_bind, wpx_bind, wpx_bind. unfold put_command. apply wpx_bind, wpx_read, wpx_bind, wpx_read.
    cbn [c_smtpfp c_sferror set_c_pipe set_c_gotalarm set_c_trace set_c_cmdstate]. rewrite Hfp, He. cbn [negb andb]. apply wpx_bind.
    eapply wpx_mono; [apply sfwrite_wrote | done|]. cbv beta. intros ok c1 (-> & tr & -> & Et). cbn [c_trace] in Et.
    set (c1 := set_c_trace tr _). assert (sent_by c1 = sent_by c ++ [DOT; CR; LF]) as E1 by exact Et.
    assert (c_smtpfp c1 = true) as F1 by exact Hfp. assert (c_sferror c1 = false) as G1 by exact He. clearbody c1. clear Et tr Hfp He.
    apply wpx_bind, wpx_read, wpx_ret, wpx_bind, wpx_read, wpx_bind, wpx_read. rewrite F1, G1. cbn [negb orb].
    unfold sfsync at 1. apply wpx_bind, wpx_bind, wpx_read. rewrite Hput. unfold ev. apply wpx_bind, wpx_update, wpx_ret, wpx_ret.
    cbn [negb orb when_]. apply wpx_bind, wpx_ret, wpx_ret, wpx_bind, wpx_read, wpx_bind, wpx_read, wpx_bind.
    set (c2 := set_c_trace _ c1). assert (sent_by c2 = sent_by c ++ [DOT; CR; LF]) as E2 by exact E1. clearbody c2.
    assert (keeps sent_by (if c_smtpfp c2 && c_fileno c2 then rmsgappend false ([13] ++ $$"<<- " ++ $$".")
      else rmsgappend false ([13] ++ $$"Write Failure; shunted cmd: " ++ $$"."))) as Hk by (destruct (_ && _); apply still_rmsgappend).
    eapply wpx_mono; [apply Hk | by intros ? ? ->|]. cbv beta. intros _ c3 E3. rewrite E2 in E3. change (negb (0 =? 0)) with false. cbv iota.
    eapply wpx_mono; [apply still_smtp_sync | cbv beta; congruence|]. cbv beta. intros r c4 E4. apply wpx_ret. congruence. }
  unfold wpx in Hw. by destruct (dot_phase fuel c) as [[]].
Qed.
End headers.

(** ** From the client to the server *)

(** The lines of a message: its headers, an empty line, and its body *)
Definition message_lines (hdrs : list (list Z)) (body : list Z) : list (list Z) :=
  concat (header_lines [] <$> hdrs) ++ [] :: header_lines [] body.

(** The sizes that send_message() notes between the headers and the body *)
Definition note_size (n : Z) (c : client) : client :=
  set_c_msize (if 0 <=? c_msize c then c_msize c + n else c_msize c - (n - 1)) (set_c_hsize n c).

Lemma message_lines_lf hdrs body : Forall (fun l => LF ∉ l) (message_lines hdrs body).
Proof.
  unfold message_lines. apply Forall_app. split.
  - apply Forall_concat, Forall_fmap, Forall_true. intros h. apply header_lines_lf, not_elem_of_nil.
  - constructor; [apply not_elem_of_nil | apply header_lines_lf, not_elem_of_nil].
Qed.

Section arrival.
Context `{TaEnv, ScEnv, DeliverEnv}.

End arrival.

(** ** Bodies that are converted *)

Section conversion.
Context `{TaEnv, ScEnv}.
Hypothesis stream_works : forall tr, sc_put tr = PutOk.
Hypothesis file_works : forall tr, exists n, sc_file tr = FileBytes n.

Lemma mime_sent fuel mode c : is_mode mode CONVERT_NONE = false -> streaming c -> c_sferror c = false ->
  (ta_use_mmap = false -> short_lines (body_of c)) ->
  exists c', appendlet fuel mode c = (inr EX_OK, c') /\ sent (c_trace c') = sent (c_trace c) ++ mime_body mode (body_of c).
Proof.
  intros Hm Hst He Hs.
  assert (~ put_fails) as Hp by (intros [tr Hf]; by apply Hf, stream_works).
  assert (~ file_fails) as Hn by (intros [tr Hf]; destruct (file_works tr) as [k Hk]; by apply (Hf k)).
  assert (wpx (appendlet fuel mode) (fun _ _ => False) (fun rc c' => rc = EX_OK /\ sent (c_trace c') = sent (c_trace c) ++ mime_body mode (body_of c)) c) as Ha.
  { eapply wpx_mono; [by apply appendlet_mime_spec | by intros ? ? [?|?]|]. cbv beta. intros rc c' [(-> & M & Hc) | [_ [?|?]]]; [|done..]. split; [done|].
    apply (mo_text _ _ _ M). destruct (c_sferror c') eqn:E; [|done]. exfalso. by apply Hp, Hc. }
  destruct (wpx_result _ _ _ Ha) as (rc & c' & E & -> & Ht). eauto.
Qed.

(** C15: (The stream and the message file work; with a buffer instead of a map,
    the lines fit in it.)  A body of any bytes that is sent as quoted-printable
    goes out in lines of at most 76 characters, all of them printable ASCII
    or tabs, and none of them with a dot that would have to be doubled; and when
    the client converts a body of just this text back to 8 bits, it sends the
    bytes it would have sent had there been no conversion at all. *)
Theorem quoted_printable_round_trip fuel mode c :
  qp_mode mode -> streaming c -> c_sferror c = false -> Forall byte (body_of c) -> body_of c <> [] ->
  (ta_use_mmap = false -> short_lines (body_of c)) ->
  exists c' w, appendlet fuel mode c = (inr EX_OK, c') /\ sent (c_trace c') = sent (c_trace c) ++ w /\
    Forall qp_safe w /\ Forall (fun l => (length l <= QP_LINE)%nat) (split_lines w) /\ crlf_text false true (nocr w) = w /\
    forall c2, streaming c2 -> c_sferror c2 = false -> (ta_use_mmap = false -> short_lines (body_of c2)) -> body_of c2 = nocr w ->
    exists c3, appendlet fuel CONVERT_8BIT c2 = (inr EX_OK, c3) /\
      sent (c_trace c3) = sent (c_trace c2) ++ crlf_text false true (completed (body_of c)).
Proof.
  intros Hm Hst He Hb Hne Hs. destruct (qp_body_text mode (body_of c) Hm Hb Hne) as (T1 & _ & T3 & T4 & T5).
  destruct (mime_sent fuel mode c) as (c' & E & Ht); [by destruct Hm as [-> | ->] | done..|].
  exists c', (mime_body mode (body_of c)). split_and!; [done..|]. intros c2 Hst2 He2 Hs2 Hb2.
  destruct (mime_sent fuel CONVERT_8BIT c2) as (c3 & E3 & H3); [done..|]. exists c3. split; [done|]. by rewrite H3, Hb2, T5.
Qed.
End conversion.

(** ** The buffer of the commands *)

Lemma copy_local_fits : forall u quote s, (length s <= SMTPBUF_SE + 1)%nat -> (length (copy_local quote u s).1 <= SMTPBUF_SE + 1)%nat.
Proof.
  fix IH 1. intros [|c u] quote s Hs; [done|]. cbn [copy_local]. destruct (Nat.ltb_spec (length s) SMTPBUF_SE) as [Hl|]; [|done].
  assert (forall x, length x = 1%nat \/ length x = 2%nat -> (length (s ++ x) <= SMTPBUF_SE + 1)%nat) as Hx by (intros x Hx; rewrite length_app; lia).
  destruct (c =? $"\").
  { destruct u as [|c2 u]; [by apply Hx; left | apply IH, Hx; by right]. }
  destruct (c =? 34); [apply IH, Hx; by left|]. destruct (negb quote && _); [done | apply IH, Hx; by left].
Qed.

Lemma copy_to_se_fits l s : (length (copy_to_se l s) <= length s `max` SMTPBUF_SE)%nat.
Proof. unfold copy_to_se. rewrite length_app, length_take. lia. Qed.

Lemma copy_domain_fits canon u s : (length (copy_domain canon u s) <= length s `max` SMTPBUF_SE)%nat.
Proof. unfold copy_domain. destruct u; [lia | apply copy_to_se_fits]. Qed.

Lemma ezmlm_tag_fits tag id s : (length s <= SMTPBUF_SE + 1)%nat -> (length (ezmlm_tag tag id s) <= SMTPBUF_SE + 1)%nat.
Proof.
  intros Hs. unfold ezmlm_tag. pose proof (copy_to_se_fits tag s). set (s1 := copy_to_se tag s) in *.
  etrans; [apply copy_to_se_fits|]. destruct (Nat.ltb_spec (length s1) SMTPBUF_SE); rewrite ?length_app; cbn [length]; lia.
Qed.

Lemma sender_text_fits canon user ezmlm id canonical : (length (sender_text canon user ezmlm id canonical) <= SMTPBUF_SE + 2)%nat.
Proof.
  unfold sender_text, sender_local. pose proof (copy_local_fits user false ($$"MAIL From:<") ltac:(unfold SMTPBUF_SE; cbn; lia)) as Hs.
  destruct (copy_local _ _ _) as [s u]. cbn [fst] in Hs.
  set (s1 := match ezmlm with Some _ => _ | None => _ end).
  assert (length s1 <= SMTPBUF_SE + 1)%nat as Hs1 by (destruct ezmlm; [by apply ezmlm_tag_fits | done]). clearbody s1.
  destruct u as [|c u]; [|destruct (c =? _)]; (etrans; [apply copy_domain_fits|]); rewrite ?length_app; cbn [length]; lia.
Qed.

Lemma rcpt_address_fits canon user : (length (rcpt_address canon user) <= SMTPBUF_SE + 3)%nat.
Proof.
  unfold rcpt_address. pose proof (copy_local_fits user false ($$"RCPT To:<") ltac:(unfold SMTPBUF_SE; cbn; lia)) as Hs.
  destruct (copy_local _ _ _) as [s u]. cbn [fst] in Hs. rewrite length_app. cbn [length].
  destruct u as [|c u]; [lia|]. destruct (c =? _); [|lia]. pose proof (copy_domain_fits canon u (s ++ [c])) as Hd.
  rewrite length_app in Hd. cbn [length] in Hd. lia.
Qed.

Lemma mail_options_fit caps size envid ret : 0 <= size < 2 ^ 63 -> (length (mail_options caps size envid ret) <= 871)%nat.
Proof.
  intros Hz. unfold mail_options. rewrite !length_app.
  assert (length (dec size) <= 19)%nat as Hd by (apply dec_length; lia).
  assert (forall (f : bool) n t, (length t <= n)%nat -> (length (if f then t else [] : list Z) <= n)%nat) as Hif by (intros [] ? ? ?; cbn; lia).
  assert (length (if flag_set caps ESMTP_8BITMIME then $$" BODY=8BITMIME" else []) <= 14)%nat by (apply Hif; cbn; lia).
  assert (length (if flag_set caps ESMTP_SIZEOPT then $$" SIZE=" ++ dec size else []) <= 25)%nat by (apply Hif; rewrite length_app; cbn; lia).
  etrans; [apply Nat.add_le_mono; [eassumption|]; apply Nat.add_le_mono; [eassumption|]; apply (Hif _ 832%nat)|lia].
  rewrite length_app. assert (forall x (t : list Z) n, (length (x ++ take n t) <= length x + n)%nat) as Ht by (intros; rewrite length_app, length_take; lia).
  pose proof (Ht ($$" ENVID=") (default [] envid) 800%nat). pose proof (Ht ($$" RET=") (default [] ret) 20%nat).
  destruct envid, ret; cbn [length default Datatypes.id] in *; change (length ($$" ENVID=")) with 7%nat in *; change (length ($$" RET=")) with 5%nat in *; lia.
Qed.

Lemma notify_text_fits flgs : (length (notify_text flgs) <= 34)%nat.
Proof. unfold notify_text. repeat case_match; cbn; lia. Qed.

Lemma xtext_fits user : (length (concat (xtext_char <$> user)) <= 3 * length user)%nat.
Proof.
  induction user as [|c user IH]; [done|]. cbn [fmap list_fmap concat length]. rewrite length_app.
  assert (length (xtext_char c) <= 3)%nat by (unfold xtext_char; destruct (_ && _); cbn; lia). lia.
Qed.

(** C17: SMTPbuf[2000] holds every MAIL command, with its options, and the 0
    behind it, however long the sender, the envelope id and the canonical
    domain are.  It holds a RCPT command when the server has no DSN, when the
    recipient comes with an original address, and when its address has at most
    380 characters; but not always, since the original address that deliver()
    makes up is encoded without a look at the end of the buffer. *)
Theorem commands_fit canon caps :
  (forall sender ezmlm id canonical size envid ret, 0 <= size < 2 ^ 63 ->
    (length (mail_text canon caps sender ezmlm id canonical size envid ret) < SMTPBUF)%nat) /\
  (forall user flgs orcpt, flag_set caps ESMTP_DSN = false \/ orcpt <> None \/ (length user <= 380)%nat ->
    (length (rcpt_text canon caps user flgs orcpt) < SMTPBUF)%nat) /\
  (flag_set caps ESMTP_DSN = true -> exists user, (length user = 700)%nat /\
    forall flgs, (SMTPBUF <= length (rcpt_text canon caps user flgs None))%nat).
Proof.
  split_and!.
  - intros sender ezmlm id canonical size envid ret Hz. unfold mail_text. rewrite !length_app. pose proof (mail_options_fit caps size envid ret Hz).
    assert (length (match sender with Some user => sender_text canon user ezmlm id canonical | None => $$"MAIL From:<" end) <= SMTPBUF_SE + 2)%nat
      by (destruct sender; [apply sender_text_fits | unfold SMTPBUF_SE; cbn; lia]).
    unfold SMTPBUF, SMTPBUF_SE in *. cbn [length]. lia.
  - intros user flgs orcpt Hc. unfold rcpt_text. rewrite length_app. pose proof (rcpt_address_fits canon user). unfold SMTPBUF, SMTPBUF_SE in *.
    destruct (flag_set caps ESMTP_DSN); [|cbn; lia]. rewrite length_app. pose proof (notify_text_fits flgs). unfold orcpt_text.
    destruct orcpt as [o|]; rewrite length_app; [rewrite length_take; change (length ($$" ORCPT=")) with 7%nat; lia|].
    destruct Hc as [?|[?|Hc]]; [done..|]. pose proof (xtext_fits user). change (length ($$" ORCPT=rfc822;")) with 14%nat. lia.
  - intros Hd. exists (replicate 700 ($"=")). split; [done|]. intros flgs. unfold rcpt_text. rewrite Hd, length_app.
    assert (length (rcpt_address canon (replicate 700 ($"="))) = 710%nat) as -> by (vm_compute; done).
    rewrite !length_app. unfold orcpt_text. rewrite length_app.
    assert (length (concat (xtext_char <$> replicate 700 ($"="))) = 2100%nat) as -> by (vm_compute; done). unfold SMTPBUF. lia.
Qed.

(** ** A message whose body has lines that begin with dots *)

Definition dotty_body : list Z := $$"." ++ [10] ++ $$"..hello" ++ [10] ++ $$"no end".
Definition connected : client := set_c_smtpfp true (mail_client [$$"u@a.org"] dotty_body).
Definition open_line : ScEnv := scripted [] true.
Definition subject : list (list Z) := [$$"Subject: dots"].

Lemma body_of_connected : body_of connected = dotty_body.
Proof. vm_compute. reflexivity. Qed.


(** ** Converted messages *)

Definition latin_body : list Z := $$"na" ++ [239] ++ $$"ve = " ++ [10] ++ $$".dot" ++ [10] ++ $$"From".
Definition with_body (b : list Z) : client := set_c_smtpfp true (mail_client [$$"u@a.org"] b).

Lemma quoted_printable_round_trip_witness :
  exists c' w, @appendlet demo_agent open_line 100 CONVERT_QP (with_body latin_body) = (inr EX_OK, c') /\ sent (c_trace c') = w /\
    w = crlf ($$"na=EFve =3D=20") ++ crlf ($$"=2Edot") ++ crlf ($$"=46rom").
Proof.
  destruct (@quoted_printable_round_trip demo_agent open_line (fun _ => eq_refl) (fun _ => ex_intro _ 1000%nat eq_refl) 100 CONVERT_QP (with_body latin_body)) as
    (c' & w & E & Ht & _).
  - by left.
  - split; vm_compute; reflexivity.
  - vm_compute. reflexivity.
  - unfold byte. apply (bool_decide_unpack _). vm_compute. exact I.
  - vm_compute. discriminate.
  - intros _. unfold short_lines. apply (bool_decide_unpack _). vm_compute. exact I.
  - exists c', w. split; [exact E|]. split; [rewrite Ht; vm_compute; reflexivity|].
    assert (sent (c_trace (@appendlet demo_agent open_line 100 CONVERT_QP (with_body latin_body)).2) = w) as Hw by (rewrite E; exact Ht).
    rewrite <- Hw. vm_compute. reflexivity.
Defined.

