(* ===== verification/ScProps.v ===== *)
(** * The SMTP client: what is proved of a delivery

    The theorems about process() and deliver(): who is reported as delivered
    was accepted, and everybody gets one report. *)

From Stdlib Require Import ZArith Lia.
From stdpp Require Import base tactics numbers list option sets.
From S2P Require Import Prelude TaFile TaDiag TaCtl TaProps ScState ScMx ScCname ScReply ScConnect ScBody ScCommand ScDeliver.
From S2P Require Import ScDemo ScInv ScInvReply ScInvBody ScInvConn ScInvDeliver ScInvTrans.

#[local] Open Scope Z_scope.

(** A client at the start of a message: nothing happened yet, no command
    awaits a reply, and all recipients have their locks. *)
Definition fresh (c : client) : Prop :=
  c_trace c = [] /\ c_pipe c = [] /\ c_pipereplies c = O /\ c_pipelining c = false /\
  NoDup (r_id <$> recipients c) /\ Forall (fun rp => gives_back (r_notifyflgs rp) /\ r_lockoffset rp <> O) (recipients c).

Section delivery.
Context `{TaEnv, ScEnv, DeliverEnv}.

Lemma fresh_INV c : fresh c -> INV weak c.
Proof.
  intros (Ht & Hp & Hr & Hpl & Hnd & Hf). split; unfold outer; rewrite ?Ht, ?Hp, ?Hr, ?Hpl; cbn;
    [done | lia | done | by intros ? ? ? ?%elem_of_nil | done | | done | done].
  eapply Forall_impl; [exact Hf|]. intros rp [Hg Hl]. split; [done|]. by rewrite (proj2 (Nat.eqb_neq _ _) Hl).
Qed.

Lemma delivered_ok_in tr1 id tr2 : delivered_ok (tr1 ++ EvDiag id EX_OK :: tr2) -> message_accepted tr2 /\ rcpt_accepted id tr2.
Proof. induction tr1 as [|e tr1 IH]; cbn [app delivered_ok]; [intros [Hd _]; by apply Hd|]. destruct e; try exact IH. intros [_ Hd]. by apply IH. Qed.

(** C3: (SMTP, pipelining turned off with -P.)  However the server answers and
    the connections fail, whether process() returns or the process ends early:
    before a recipient is reported as delivered, the server has answered the
    RCPT of this recipient and the end of the message of the same transaction
    with codes below 400. *)
Theorem delivered_means_accepted fuel c :
  lmtp_mode = false -> no_pipelining = true -> fresh c ->
  forall tr1 id tr2, c_trace (process fuel c).2 = tr1 ++ EvDiag id EX_OK :: tr2 ->
  message_accepted tr2 /\ rcpt_accepted id tr2.
Proof.
  intros Hl Hn Hf tr1 id tr2 E. pose proof (process_spec Hl fuel c (fresh_INV c Hf)) as Hp. unfold wpx in Hp.
  destruct (process fuel c) as [[e|u] c']; cbn [snd] in E; apply (delivered_ok_in tr1); rewrite <- E.
  - by apply Hp.
  - destruct Hp as [[I _] _]. by apply I.
Qed.

(** C5: (SMTP, no recipient of an EZMLM list.)  When process() returns, every
    recipient of the message has exactly one report: nobody is forgotten, and
    nobody is reported twice. *)
Theorem recipients_reported_once fuel c c' :
  lmtp_mode = false -> fresh c -> no_ezmlm c -> process fuel c = (inr tt, c') ->
  forall rp, rp ∈ recipients c -> reports_of (r_id rp) (c_trace c') = 1%nat.
Proof.
  intros Hl Hf Hn E rp Hin. pose proof (process_spec Hl fuel c (fresh_INV c Hf)) as Hp. unfold wpx in Hp. rewrite E in Hp.
  destruct Hp as [[I [L _]] Hu]. specialize (Hu Hn rp Hin). pose proof (in_fine _ _ I) as Hfine. rewrite Forall_forall in Hfine.
  assert (fixed rp ∈ fixed <$> recipients c') as Hfix by (rewrite L; by apply list_elem_of_fmap_2).
  apply list_elem_of_fmap in Hfix as (rp' & Erp & Hin'). destruct (Hfine rp' Hin') as [_ Hr].
  assert (r_id rp' = r_id rp) as Eid by (unfold fixed in Erp; congruence). rewrite <- Eid, Hr.
  destruct (r_lockoffset rp' =? 0)%nat eqn:E0; [done|]. destruct Hu. exists rp'. rewrite <- Eid. split; [|by apply Nat.eqb_neq].
  apply find_rcpt_in; [apply I | done].
Qed.

(** C18: The loop of deliver(), which goes back to the labels re_open and
    more_recipients, ends: more rounds than deliver_rounds do not change its
    result, so the model never stops for want of them. *)
Theorem deliver_rounds_suffice fuel ids endrp extra prohibit c :
  deliver_loop fuel (deliver_rounds ids + extra) prohibit endrp ReOpen (Place ids None [] false 2 false false CONVERT_NONE) EX_TEMPFAIL c =
  deliver_loop fuel (deliver_rounds ids) prohibit endrp ReOpen (Place ids None [] false 2 false false CONVERT_NONE) EX_TEMPFAIL c.
Proof. apply deliver_loop_rounds. unfold rounds_left, left_over, deliver_rounds. cbn. lia. Qed.
End delivery.

(** ** A message *)

Definition demo_headers : list (list Z) := [$$"Subject: x"].
Definition demo_body : list Z := $$"hello" ++ [10].

(** A server that takes one recipient of two *)
Definition picky_server : ScEnv :=
  scripted (says [$$"220 hi ESMTP"; $$"250 hello"; $$"250 from"; $$"250 rcpt"; $$"550 who"; $$"354 go"; $$"250 done"]) true.
Definition two_users : client := mail_client [$$"u1@a.org"; $$"u2@a.org"] demo_body.

Lemma two_users_fresh : fresh two_users.
Proof.
  unfold fresh. split_and!; [vm_compute; reflexivity..| |].
  - apply (bool_decide_unpack _). vm_compute. exact I.
  - unfold gives_back. apply (bool_decide_unpack _). vm_compute. exact I.
Qed.

Lemma delivered_means_accepted_witness :
  exists tr1 tr2, c_trace (@process demo_agent picky_server (demo_deliver true demo_headers) 1000 two_users).2 = tr1 ++ EvDiag 93 EX_OK :: tr2 /\
  message_accepted tr2 /\ rcpt_accepted 93 tr2.
Proof.
  assert (exists tr1 tr2, c_trace (@process demo_agent picky_server (demo_deliver true demo_headers) 1000 two_users).2 =
    tr1 ++ EvDiag 93 EX_OK :: tr2) as (tr1 & tr2 & E).
  { set (tr := c_trace _). exists [], (drop 1 tr). vm_compute. reflexivity. }
  exists tr1, tr2. split; [exact E|].
  apply (@delivered_means_accepted demo_agent picky_server (demo_deliver true demo_headers) 1000 two_users eq_refl eq_refl two_users_fresh tr1 93 tr2 E).
Defined.

Lemma recipients_reported_once_witness : exists c', @process demo_agent picky_server (demo_deliver true demo_headers) 1000 two_users = (inr tt, c') /\
  forall rp, rp ∈ recipients two_users -> reports_of (r_id rp) (c_trace c') = 1%nat.
Proof.
  exists (@process demo_agent picky_server (demo_deliver true demo_headers) 1000 two_users).2.
  assert (@process demo_agent picky_server (demo_deliver true demo_headers) 1000 two_users =
    (inr tt, (@process demo_agent picky_server (demo_deliver true demo_headers) 1000 two_users).2)) as E.
  { assert (forall x : (sc_stop + unit) * client, match x.1 with inr tt => True | inl _ => False end -> x = (inr tt, x.2)) as Hx.
    { intros [[?|[]] ?] Hm; [destruct Hm | reflexivity]. }
    apply Hx. vm_compute. exact I. }
  split; [exact E|].
  refine (@recipients_reported_once demo_agent picky_server (demo_deliver true demo_headers) 1000 two_users _ eq_refl two_users_fresh _ E).
  apply (bool_decide_unpack _). vm_compute. exact I.
Defined.

